(* ===== verification/_CoqProject ===== *)
-Q . S2P
Prelude.v
DList.v
ListStore.v
Kernel.v
Ksched.v
ReadyQ.v
TimeoutQ.v
KInv.v
Sched.v
Types.v
Thread.v
Demo.v
Scheduling.v
Lifecycle.v
Atomic.v
Timer.v
Sem.v
Mutex.v
SList.v
Queue.v
WorkQ.v
Alert.v
MsgQ.v
Stack.v
MemSlab.v
LibC.v
MemPool.v
Heap.v
Resume.v
Parking.v
Mailbox.v
Pipe.v
PipeSys.v
Typing.v
System.v
Poll.v
MemDomain.v
Findings.v
RingBuffer.v
Conv.v
Printk.v
Json.v
JsonText.v
JsonLex.v
JsonParse.v
JsonRound.v
Crc.v
