(* ===== verification/Prelude.v ===== *)
(** * The Zephyr kernel: a verification development

    The program is the kernel of the Zephyr real-time operating system, with the
    lists, allocators and library routines it is built on.  The development is a
    shallow embedding: data are records and inductive types with the fields and
    constructors of the source, every operation is an executable function on an
    explicit state, and the theorems are about those functions.  Names are those
    of the source; paths below are relative to src/.

    ** The parts and how they interact

    Threads that can run are on ready queues, one for each priority, with a
    bitmap of the queues in use and a cache of the thread to run next
    (kernel/sched.c, kernel/include/ksched.h).  A thread that waits for a kernel
    object is on the wait queue of the object, ordered by priority; if it waits
    with a timeout it is also on the timeout queue, in which every node holds the
    ticks from its predecessor (kernel/include/timeout_q.h).  The clock interrupt
    shortens the first delta, takes the expired nodes off and wakes the threads or
    runs the timers (kernel/sys_clock.c).  Kernel objects pend and wake threads
    through the scheduler, and pass results in the return value and the swap data
    of a thread.  All queues are the intrusive lists of include/misc/dlist.h, or
    of include/misc/slist.h for the data of queues.

    ** Files and what they model

    - Prelude: integers of fixed width, error numbers (lib/libc/minimal/include/
      errno.h), hint databases, lemmas on bits and lists.
    - DList, ListStore: include/misc/dlist.h, on a heap of nodes with two links.
      [Lst] is a store of abstract lists, [Refine] the proof that the pointer
      operations implement it; the other files are written against [Lst].
    - Kernel: the state, [kernel], with the fields of struct _kernel, struct
      k_thread, struct _timeout and struct k_timer that the modelled code uses,
      and the configuration [KConfig].
    - Ksched, ReadyQ: ksched.h and the ready queues of sched.c; their invariant
      [rq_inv].
    - TimeoutQ: timeout_q.h and the queue part of sys_clock.c; [expiries] is the
      reading of the queue as absolute times.
    - KInv: the invariant [kinv] of scheduler and timeout queue together.
    - Sched: the services of sched.c, the context switch [_Swap]
      (arch/posix/core/swap.c), the clock tick, interrupt entry and exit
      (boards/posix/native_posix/irq_handler.c); [sys_inv], the invariant between
      two calls; waking and pending as the objects use them.
    - Types: [typed], the invariant that every field has a value of its C type, kept
      by the scheduler and the clock; Typing: the same for threads, the boot, timers
      and the kernel objects.
    - Thread: thread.c, thread_abort.c, the boot sequence of init.c and the device
      levels of device.c.  Demo: a concrete system for the instances of theorems.
    - Scheduling, Lifecycle: theorems about the scheduler, and about threads from
      boot and creation to abortion.
    - Timer, Sem, Mutex, Queue, MsgQ, Stack, MemSlab: kernel/timer.c, sem.c,
      mutex.c, queue.c, msg_q.c, stack.c, mem_slab.c, one module each.
    - SList: include/misc/slist.h on a heap of nodes.  Atomic: kernel/atomic_c.c
      and the bit operations of include/atomic.h.
    - WorkQ, Alert: kernel/work_q.c, system_work_q.c and alert.c, on queues, timers,
      semaphores and atomic bits.
    - MemPool, Heap: kernel/mempool.c; the block allocator with its bitmaps, and
      the services on top of it, with [k_malloc] and [k_free].
    - Resume, Parking: a monad for code that may give the processor away in the
      middle, and threads that are on no queue for a while.
    - Mailbox, Pipe: kernel/mailbox.c and kernel/pipes.c, written in that monad, with
      the descriptors of waiting threads and the memory of the data; asynchronous
      messages and writes use stacks, memory pools and semaphores.  PipeSys: what reading
      and writing a pipe does to the kernel.
    - Poll: kernel/poll.c on the lists of DList, with what depends on it in sem.c and
      queue.c.  MemDomain: kernel/mem_domain.c; the calls of the architecture are
      recorded.  Both are outside of the configuration of the rest.
    - System: the services, interrupts and ticks as one transition system.  Its first
      comment lists the calls that are not in it: mailboxes, polling, asynchronous writes
      to pipes, and the calls that break the invariant.
    - Findings: theorems and runs that show defects.
    - RingBuffer: lib/ring_buffer/ring_buffer.c.  LibC: lib/libc/minimal/source/
      string.  Conv: ctype.h, strtol, strtoul, atoi and the integer conversions of
      prf.c.  Printk: misc/printk.c; [printf_text] is what a format means in C, [supported]
      the directives for which the code agrees with it.
      Crc: lib/crc/crc16_sw.c.
    - Json: lib/json/json.c and include/json.h.  JsonText: values, their texts and the
      encoder; JsonLex: the lexer on any text and on spelled tokens; JsonParse: the
      parser on any text; JsonRound: the parser on texts of values.

    ** How code becomes definitions

    A C integer is a [Z] that is reduced to its width where the code can make it
    leave the width.  Threads, timers and objects are numbered; a wait queue is
    named by its object.  Code between irq_lock and irq_unlock is one step.  A
    call that waits is cut at [_Swap]: the first part returns no result, and a
    definition with the suffix [_resume] is what the thread does when it runs
    again.  In Mailbox and Pipe, where calls that may switch are nested, a call is a
    value of type [Resume.proc]: a result, or a state with the rest of the call.
    Outcomes that are undefined behaviour in C are [None]: the dereference
    of a null pointer, an access outside of a bit array, a push on a full stack.
    Functions of the application (timer expiry and stop functions, abort handlers,
    the initialisation functions of devices) are parameters; the type classes
    [TimeoutHandler], [TypedFunc], [Timer.KernelCallback], [Thread.AbortCallback] and
    [Thread.PreKernelInit] state what the kernel relies on, and each has an
    instance.

    ** What the theorems show

    - The kernel as a whole (System): every state reached from the boot by any
      sequence of the services of [System.step], ticks and interrupts satisfies the
      invariant; a preemptible thread runs only when no ready thread has a higher
      priority; a waiting thread does not run and is on one queue; every field stays
      within the range of its C type.
    - The lists: the pointer operations on doubly and on singly linked lists
      implement sequences.
    - The scheduler and the clock (Scheduling): the next thread is the first one
      of the highest priority; threads pend in priority order; yielding is
      round-robin; adding a timeout moves no other expiry; a tick expires exactly
      the timeouts that are due, in the order in which they were added.
    - Threads (Lifecycle): boot ends in the main thread; creation, abortion,
      suspension and resumption have their documented effect; busy waiting ends.
    - Kernel objects: semaphores, queues, message queues, stacks and slabs refine
      an abstract counter, sequence or set, waiters included: a thread that gets what it
      waited for is on its ready queue afterwards; a contended mutex
      raises its owner's priority and is handed to the first waiter; a timer is
      due at the documented time.
    - Work queues and alerts: an item is on its queue once however often it is
      submitted; a delayed item starts anew when submitted again; an alert is
      delivered once for each time it was sent, also while its handler runs.
    - Mailboxes: a receiver takes the first message that matches, with its data,
      and wakes the sender; a sender hands its message to the first receiver that
      matches; an asynchronous message arrives and its descriptor, block and
      semaphore are given back.
    - Pipes: a write and a read treat the data of waiting threads and the ring buffer
      as one stream, of which no byte is lost, repeated or moved; threads wait to
      write only when the buffer is full and to read only when it is empty.
    - Polling: [k_poll] reports the objects that are ready, or registers one event with
      each object, by priority, and waits; a signal wakes the first thread that polls and
      makes it ready, and its call then returns with all its events off the lists.
    - Memory domains: for all sequences of calls, a domain counts its partitions, a
      thread is in the list of the domain it points to, and no access is out of bounds, as
      long as callers keep the conditions that [MemDomain.step] states.
    - Memory pools: for all interleavings of critical sections, held blocks are in
      the buffer and disjoint; allocation takes the best fitting size and fails
      only without a large enough free block; when all is freed all is merged
      again; freeing wakes all waiters; [k_free] undoes [k_malloc].
    - Libraries: the ring buffer is a FIFO of items; copying by words is copying by
      bytes; [strtol] computes the value with saturation and inverts the decimal
      output; [printk] prints what its format means, for the supported directives, and
      [snprintk] stores what fits and no byte more; the CRC of a message with its checksum
      appended is zero.
    - JSON: the parser ends on every text and writes nothing but the text and the
      fields described; a text of a value, however spaced and ordered, is parsed into
      a structure that holds the value; the encoder stores the text of a structure
      and computes its length; what it stores is parsed back; escaping in place is
      escaping.
    - Defects (Findings, MemPool, Heap, WorkQ, Mailbox, Pipe, Poll, MemDomain, JsonRound): a null owner in a
      timed out mutex lock, [k_thread_resume] of a ready thread, a timer that is started
      with 0 ticks and does not preempt its caller, pools of more than 32
      large blocks, the size computation of [k_malloc], a cancelled work item that
      stays marked, a sender that is on no queue, an asynchronous pipe write that
      loses data, a poll event that is unlinked twice so that another thread is never
      woken, JSON objects under unknown keys that are read as part of the outer
      object, and others.

    ** Bounds and fuel

    The configuration has multithreading, cooperative and preemptible priorities,
    the system clock and time slicing; it excludes the tickless kernel, polling
    (except in Poll), user space, the thread monitor and stack sentinels.  The numbers of priorities
    are arbitrary within the 8-bit range.  Timeouts in milliseconds are below
    2^31 - 1, where the addition of the alignment tick does not overflow.  Loops
    over lists take the length of the list as fuel, and the lemmas about them show
    that the list is exhausted.  The loops of the C library over strings take fuel
    because the terminator may be missing; the theorems hold for every fuel above
    the length of the string.  The pool theorems require the documented sizes, at
    most 32 blocks of the largest size (more is a defect, shown) and block numbers
    below the 2^20 of their bit-field.  The JSON parser takes fuel for its calls,
    twice the length of the text and one, and for the loops of the lexer, the length
    and three: both are shown to be enough for every text.  Objects have at most 31
    fields, the bits of the result; for the outermost object the code asserts less
    than 31.

    ** Not modelled

    Interrupts that come between two expired timeouts of a tick (a tick is one step), while
    a pipe copies data with the scheduler locked, or between two events of a call of
    [k_poll]; [k_queue_get] with polling; system calls
    from user mode; the thread monitor; the format interpreter of printf and its
    floating point output; the installation of console functions; power management;
    the assembly and register level code of architectures, boards and drivers; the
    subsystems above the kernel (network, Bluetooth, USB, file systems, shell);
    vendored code, samples, tests and build scripts.  They are either disabled by
    the configuration, hardware access, or larger than this development and
    independent of it. *)

From Stdlib Require Export ZArith Lia Bool.
From stdpp Require Export base numbers gmap sets list.

Local Open Scope Z_scope.

(** ** Fixed-width integers

    A C integer of width [w] is a [Z]; the conversions below are the ones the
    C implementation applies when a value is stored in an object of that
    width (two's complement for the signed ones). *)

Definition u8 (x : Z) : Z := x mod 2 ^ 8.
Definition u16 (x : Z) : Z := x mod 2 ^ 16.
Definition u32 (x : Z) : Z := x mod 2 ^ 32.
Definition u64 (x : Z) : Z := x mod 2 ^ 64.
Definition s8 (x : Z) : Z := (x + 2 ^ 7) mod 2 ^ 8 - 2 ^ 7.
Definition s32 (x : Z) : Z := (x + 2 ^ 31) mod 2 ^ 32 - 2 ^ 31.
Definition s64 (x : Z) : Z := (x + 2 ^ 63) mod 2 ^ 64 - 2 ^ 63.

(** ** Error numbers (lib/libc/minimal/include/errno.h) *)

Definition EIO : Z := 5.
Definition EAGAIN : Z := 11.
Definition ENOMEM : Z := 12.
Definition EBUSY : Z := 16.
Definition EINVAL : Z := 22.
Definition EMSGSIZE : Z := 36.
Definition EADDRINUSE : Z := 48.
Definition ENOMSG : Z := 80.

(** ** Hint databases of the development

    [kdb] holds the lemmas that a service keeps the invariant of the kernel;
    [kproj] the rewrite rules for the links of list nodes. *)

Create HintDb kdb discriminated.
#[export] Hint Constants Opaque : kdb.
Create Rewrite HintDb kproj.

(** ** Lemmas on fixed-width integers *)

Lemma u32_small (x : Z) : 0 <= x < 2 ^ 32 -> u32 x = x.
Proof. intros. unfold u32. by rewrite Z.mod_small. Qed.

Lemma u32_range (x : Z) : 0 <= u32 x < 2 ^ 32.
Proof. unfold u32. apply Z.mod_pos_bound. lia. Qed.

Lemma u8_small (x : Z) : 0 <= x < 2 ^ 8 -> u8 x = x.
Proof. intros. unfold u8. by rewrite Z.mod_small. Qed.

Lemma u8_range (x : Z) : 0 <= u8 x < 2 ^ 8.
Proof. unfold u8. apply Z.mod_pos_bound. lia. Qed.

Lemma s32_range (x : Z) : - 2 ^ 31 <= s32 x < 2 ^ 31.
Proof. unfold s32. pose proof (Z.mod_pos_bound (x + 2 ^ 31) (2 ^ 32)). lia. Qed.

Lemma s32_small (x : Z) : - 2 ^ 31 <= x < 2 ^ 31 -> s32 x = x.
Proof. intros. unfold s32. rewrite Z.mod_small; lia. Qed.

Lemma s8_small (x : Z) : - 2 ^ 7 <= x < 2 ^ 7 -> s8 x = x.
Proof. intros. unfold s8. rewrite Z.mod_small; lia. Qed.

(** ** Bits: a mask test is a [Z.testbit] *)

Lemma land_pow2 (x n : Z) : 0 <= n -> (Z.land x (2 ^ n) =? 0) = negb (Z.testbit x n).
Proof.
  intros Hn. destruct (Z.testbit x n) eqn:E; simpl.
  - apply Z.eqb_neq. intros H.
    assert (Z.testbit (Z.land x (2 ^ n)) n = false) by (by rewrite H, Z.bits_0).
    rewrite Z.land_spec, E, Z.pow2_bits_true in H0 by done. done.
  - apply Z.eqb_eq, Z.bits_inj. intros m. rewrite Z.land_spec, Z.bits_0.
    destruct (decide (m = n)) as [->|Hm]; [by rewrite E|].
    rewrite Z.pow2_bits_false by lia. by rewrite andb_false_r.
Qed.

Lemma lor_pow2_spec (x n m : Z) :
  0 <= n -> Z.testbit (Z.lor x (2 ^ n)) m = Z.testbit x m || bool_decide (m = n).
Proof.
  intros Hn. rewrite Z.lor_spec. f_equal. case_bool_decide as E.
  - subst. by apply Z.pow2_bits_true.
  - apply Z.pow2_bits_false. lia.
Qed.

Lemma clear_pow2_spec (x n m : Z) :
  0 <= n -> 0 <= m ->
  Z.testbit (Z.land x (Z.lnot (2 ^ n))) m = Z.testbit x m && bool_decide (m <> n).
Proof.
  intros Hn Hm. rewrite Z.land_spec, Z.lnot_spec by done. f_equal.
  case_bool_decide as E.
  - rewrite Z.pow2_bits_false by lia. done.
  - subst. by rewrite Z.pow2_bits_true.
Qed.

Lemma testbit_above (x n m : Z) : 0 <= n -> 0 <= x < 2 ^ n -> n <= m -> Z.testbit x m = false.
Proof.
  intros Hn Hx Hm. destruct (decide (x = 0)) as [->|]; [apply Z.bits_0|].
  apply Z.bits_above_log2; [lia|]. enough (Z.log2 x < n) by lia. apply Z.log2_lt_pow2; lia.
Qed.

(** ** Lists *)

Lemma snoc_inv {A} (a : A) (l : list A) : exists s t, a :: l = s ++ [t].
Proof.
  revert a. induction l as [|b l IH]; intros a.
  - by exists [], a.
  - destruct (IH b) as (s & t & ->). by exists (a :: s), t.
Qed.

Lemma filter_all {A} (P : A -> Prop) `{forall x, Decision (P x)} (l : list A) : Forall P l -> filter P l = l.
Proof. induction 1 as [|x l Hx _ IH]; [done|]. by rewrite filter_cons_True, IH. Qed.

Lemma filter_none {A} (P : A -> Prop) `{forall x, Decision (P x)} (l : list A) :
  Forall (fun x => ~ P x) l -> filter P l = [].
Proof. induction 1 as [|x l Hx _ IH]; [done|]. by rewrite filter_cons_False, IH. Qed.

Lemma filter_fmap {A B} (P : B -> Prop) (Q : A -> Prop) `{forall x, Decision (P x)} `{forall x, Decision (Q x)}
    (f : A -> B) (l : list A) :
  (forall x, P (f x) <-> Q x) -> filter P (f <$> l) = f <$> filter Q l.
Proof.
  intros Hf. induction l as [|x l IH]; [done|]. rewrite fmap_cons. destruct (decide (Q x)) as [Hq|Hq].
  - rewrite filter_cons_True, (filter_cons_True Q), fmap_cons, IH by (by rewrite ?Hf). done.
  - rewrite filter_cons_False, (filter_cons_False Q) by (by rewrite ?Hf). done.
Qed.

Lemma filter_ne_id {A} `{EqDecision A} (x : A) (l : list A) :
  x ∉ l -> filter (fun y => y <> x) l = l.
Proof.
  induction l as [|y l IH]; intros Hx; [done|].
  rewrite filter_cons_True by set_solver. f_equal. apply IH. set_solver.
Qed.

Lemma filter_ne_split {A} `{EqDecision A} (x : A) (l1 l2 : list A) :
  NoDup (l1 ++ x :: l2) ->
  filter (fun y => y <> x) (l1 ++ x :: l2) = l1 ++ l2.
Proof.
  intros Hnd. apply NoDup_app in Hnd as (H1 & H2 & H3).
  apply NoDup_cons in H3 as [H3 H4].
  rewrite filter_app, filter_cons_False by (by intros []).
  rewrite !filter_ne_id; [done..|].
  intros Hx. apply (H2 x Hx). left.
Qed.

Lemma elem_of_ne {A} (x y : A) (l : list A) : x ∉ l -> y ∈ l -> x <> y.
Proof. by intros Hx Hy ->. Qed.

Lemma elem_of_rev {A} (x : A) (l : list A) : x ∈ rev l <-> x ∈ l.
Proof. rewrite rev_alt. apply elem_of_reverse. Qed.
