(* ===== verification/DList.v ===== *)
(** * Doubly-linked lists (include/misc/dlist.h)

    [Module DList] is the code: a memory of [struct _dnode] cells and one
    definition per inline function, with the stores in the order the C makes
    them.  A list head and a list node are the same C type, so [head]/[next]
    and [tail]/[prev] are the same field, as in the C unions.

    [dl h q l] relates a list head [q] of the memory to the sequence [l] of
    its nodes; the lemmas say what each function does to that sequence and
    what each read returns.  ListStore.v lifts them to the memory as a whole. *)

From S2P Require Import Prelude.


Module DList.

(** Addresses of [struct _dnode] objects; [NULL] is [None]. *)
Abbreviation loc := positive.
Abbreviation nodes := (Datatypes.list positive).

Record dnode := mk_dnode { dn_next : loc; dn_prev : loc }.

#[export] Instance dnode_inhabited : Inhabited dnode := populate (mk_dnode 1%positive 1%positive).

Abbreviation heap := (gmap loc dnode).

Definition next (h : heap) (p : loc) : loc := dn_next (h !!! p).
Definition prev (h : heap) (p : loc) : loc := dn_prev (h !!! p).
Definition set_next (h : heap) (p v : loc) : heap := <[p := mk_dnode v (prev h p)]> h.
Definition set_prev (h : heap) (p v : loc) : heap := <[p := mk_dnode (next h p) v]> h.

(** [list->head] is the [next] field of the list's own cell and
    [list->tail] its [prev] field (the unions of [struct _dnode]). *)

Definition sys_dlist_init (h : heap) (list : loc) : heap :=
  let h := set_next h list list in
  set_prev h list list.

Definition sys_dlist_is_head (h : heap) (list node : loc) : bool := bool_decide (next h list = node).

Definition sys_dlist_is_tail (h : heap) (list node : loc) : bool := bool_decide (prev h list = node).

Definition sys_dlist_is_empty (h : heap) (list : loc) : bool := bool_decide (next h list = list).

Definition sys_dlist_has_multiple_nodes (h : heap) (list : loc) : bool :=
  bool_decide (next h list <> prev h list).

Definition sys_dlist_peek_head (h : heap) (list : loc) : option loc :=
  if sys_dlist_is_empty h list then None else Some (next h list).

Definition sys_dlist_peek_head_not_empty (h : heap) (list : loc) : loc := next h list.

Definition sys_dlist_peek_next_no_check (h : heap) (list node : loc) : option loc :=
  if bool_decide (node = prev h list) then None else Some (next h node).

Definition sys_dlist_peek_next (h : heap) (list : loc) (node : option loc) : option loc :=
  match node with
  | Some node => sys_dlist_peek_next_no_check h list node
  | None => None
  end.

Definition sys_dlist_peek_tail (h : heap) (list : loc) : option loc :=
  if sys_dlist_is_empty h list then None else Some (prev h list).

Definition sys_dlist_append (h : heap) (list node : loc) : heap :=
  let h := set_next h node list in
  let h := set_prev h node (prev h list) in
  let h := set_next h (prev h list) node in
  set_prev h list node.

Definition sys_dlist_prepend (h : heap) (list node : loc) : heap :=
  let h := set_next h node (next h list) in
  let h := set_prev h node list in
  let h := set_prev h (next h list) node in
  set_next h list node.

Definition sys_dlist_insert_after (h : heap) (list : loc) (insert_point : option loc) (node : loc) : heap :=
  match insert_point with
  | None => sys_dlist_prepend h list node
  | Some insert_point =>
    let h := set_next h node (next h insert_point) in
    let h := set_prev h node insert_point in
    let h := set_prev h (next h insert_point) node in
    set_next h insert_point node
  end.

Definition sys_dlist_insert_before (h : heap) (list : loc) (insert_point : option loc) (node : loc) : heap :=
  match insert_point with
  | None => sys_dlist_append h list node
  | Some insert_point =>
    let h := set_prev h node (prev h insert_point) in
    let h := set_next h node insert_point in
    let h := set_next h (prev h insert_point) node in
    set_prev h insert_point node
  end.

(** The [while] loop of [sys_dlist_insert_at]: [fuel] bounds the iterations. *)
Fixpoint insert_at_pos (fuel : nat) (h : heap) (list : loc) (cond : loc -> bool)
    (pos : option loc) : option loc :=
  match fuel with
  | O => pos
  | S fuel =>
    match pos with
    | Some p =>
      if cond p then pos
      else insert_at_pos fuel h list cond (sys_dlist_peek_next h list pos)
    | None => None
    end
  end.

Definition sys_dlist_insert_at (fuel : nat) (h : heap) (list node : loc) (cond : loc -> bool) : heap :=
  if sys_dlist_is_empty h list then sys_dlist_append h list node
  else
    let pos := insert_at_pos fuel h list cond (sys_dlist_peek_head h list) in
    sys_dlist_insert_before h list pos node.

Definition sys_dlist_remove (h : heap) (node : loc) : heap :=
  let h := set_next h (prev h node) (next h node) in
  set_prev h (next h node) (prev h node).

Definition sys_dlist_get (h : heap) (list : loc) : heap * option loc :=
  if sys_dlist_is_empty h list then (h, None)
  else
    let node := next h list in
    (sys_dlist_remove h node, Some node).

(** [SYS_DLIST_FOR_EACH_NODE]: the nodes the iteration macro visits, in order. *)
Fixpoint for_each_node_from (fuel : nat) (h : heap) (list : loc) (node : option loc) : nodes :=
  match fuel with
  | O => []
  | S fuel =>
    match node with
    | Some n => n :: for_each_node_from fuel h list (sys_dlist_peek_next h list node)
    | None => []
    end
  end.

Definition for_each_node (fuel : nat) (h : heap) (list : loc) : nodes :=
  for_each_node_from fuel h list (sys_dlist_peek_head h list).

(** ** Representation

    [dl h q l]: following [next] from the head [q] visits exactly the nodes
    [l] and comes back to [q], and [prev] goes the other way round. *)
Record dl (h : heap) (q : loc) (l : nodes) : Prop := {
  dl_nexts : next h <$> q :: l = l ++ [q];
  dl_prevs : prev h <$> l ++ [q] = q :: l;
  dl_nodup : NoDup (q :: l)
}.

(** ** Reads after writes *)

Lemma next_set_next (h : heap) (p v x : loc) :
  next (set_next h p v) x = if decide (x = p) then v else next h x.
Proof.
  unfold next, set_next. case_decide as E; subst.
  - by rewrite lookup_total_insert_eq.
  - by rewrite lookup_total_insert_ne.
Qed.

Lemma prev_set_next (h : heap) (p v x : loc) : prev (set_next h p v) x = prev h x.
Proof.
  unfold prev, set_next. destruct (decide (p = x)) as [->|E].
  - by rewrite lookup_total_insert_eq.
  - by rewrite lookup_total_insert_ne.
Qed.

Lemma prev_set_prev (h : heap) (p v x : loc) :
  prev (set_prev h p v) x = if decide (x = p) then v else prev h x.
Proof.
  unfold prev, set_prev. case_decide as E; subst.
  - by rewrite lookup_total_insert_eq.
  - by rewrite lookup_total_insert_ne.
Qed.

Lemma next_set_prev (h : heap) (p v x : loc) : next (set_prev h p v) x = next h x.
Proof.
  unfold next, set_prev. destruct (decide (p = x)) as [->|E].
  - by rewrite lookup_total_insert_eq.
  - by rewrite lookup_total_insert_ne.
Qed.

#[local] Hint Rewrite next_set_next prev_set_next prev_set_prev next_set_prev : kproj.

(** ** Facts on represented lists *)

Lemma fmap_ext_in (f g : loc -> loc) (l : nodes) :
  (forall x, x ∈ l -> f x = g x) -> f <$> l = g <$> l.
Proof. intros H. apply list_fmap_ext. intros i x Hx. apply H. by eapply list_elem_of_lookup_2. Qed.

(** A list is unaffected by writes to other cells. *)
Lemma dl_frame (h h' : heap) (q : loc) (l : nodes) :
  (forall x, x ∈ q :: l -> next h' x = next h x) ->
  (forall x, x ∈ q :: l -> prev h' x = prev h x) ->
  dl h q l -> dl h' q l.
Proof.
  intros Hn Hp [H1 H2 H3]. split; [| |done].
  - rewrite <- H1. by apply fmap_ext_in.
  - rewrite <- H2. apply fmap_ext_in. intros x Hx. apply Hp. set_solver.
Qed.

(** The last cell of the cycle, seen from the head. *)
Lemma dl_last (h : heap) (q : loc) (l s : nodes) (t : loc) :
  dl h q l -> q :: l = s ++ [t] ->
  next h <$> s = l /\ next h t = q /\ prev h <$> l = s /\ prev h q = t.
Proof.
  intros [H1 H2 _] E. rewrite E in H1, H2. rewrite fmap_app in H1, H2.
  apply app_inj_2 in H1 as [H1 H1']; [|done].
  apply app_inj_2 in H2 as [H2 H2']; [|done].
  simpl in *. by simplify_eq.
Qed.

(** The first cell of the cycle, seen from the head. *)
Lemma dl_first (h : heap) (q : loc) (l r : nodes) (t : loc) :
  dl h q l -> l ++ [q] = t :: r ->
  next h q = t /\ next h <$> l = r /\ prev h t = q /\ prev h <$> r = l.
Proof.
  intros [H1 H2 _] E. rewrite E in H1, H2. simpl in *. by simplify_eq.
Qed.

(** Around a node in the middle. *)
Lemma dl_mid (h : heap) (q : loc) (l1 l2 : nodes) (n : loc) :
  dl h q (l1 ++ n :: l2) ->
  exists s p t r, q :: l1 = s ++ [p] /\ l2 ++ [q] = t :: r /\
    next h <$> s = l1 /\ next h p = n /\ next h n = t /\ next h <$> l2 = r /\
    prev h <$> l1 = s /\ prev h n = p /\ prev h t = n /\ prev h <$> r = l2.
Proof.
  intros [H1 H2 _]. destruct (snoc_inv q l1) as (s & p & E).
  destruct (l2 ++ [q]) as [|t r] eqn:E2; [by destruct l2|].
  exists s, p, t, r.
  replace (q :: l1 ++ n :: l2) with ((s ++ [p]) ++ n :: l2) in * by (by rewrite <- E).
  replace ((l1 ++ n :: l2) ++ [q]) with (l1 ++ n :: t :: r) in *
    by (rewrite <- E2; by rewrite <- app_assoc).
  assert (Hl : length s = length l1).
  { apply (f_equal length) in E. rewrite length_app in E. simpl in E. lia. }
  rewrite !fmap_app in H1. rewrite fmap_app in H2. simpl in *.
  rewrite <- app_assoc in H1. rewrite <- app_assoc in H2. simpl in *.
  apply app_inj_1 in H1 as [H1 H1']; [|by rewrite length_fmap].
  apply app_inj_1 in H2 as [H2 H2']; [|by rewrite length_fmap].
  simplify_eq/=. done.
Qed.

(** The links of the cells of a list stay within the list. *)
Lemma dl_closed (h : heap) (q x : loc) (l : nodes) :
  dl h q l -> x ∈ q :: l -> next h x ∈ q :: l /\ prev h x ∈ q :: l.
Proof.
  intros [H1 H2 _] Hx. split.
  - assert (next h x ∈ l ++ [q]) as X; [|set_solver].
    rewrite <- H1. by apply list_elem_of_fmap_2.
  - rewrite <- H2. apply list_elem_of_fmap_2. set_solver.
Qed.

(** ** Each operation on the list it is applied to *)

Lemma dl_init (h : heap) (q : loc) : dl (sys_dlist_init h q) q [].
Proof.
  split; simpl; [| |apply NoDup_singleton]; unfold sys_dlist_init;
    autorewrite with kproj; by rewrite decide_True.
Qed.

(** [solve_upd] rewrites the reads after the writes of an operation and
    decides the address comparisons from the context. *)
Ltac solve_upd :=
  repeat (autorewrite with kproj; simpl);
  repeat (case_decide; simplify_eq/=); try done; try set_solver.

(** [h'] is [h] with the node [n] linked in between the adjacent cells [a]
    and [b]. *)
Definition linked_between (h h' : heap) (n a b : loc) : Prop := forall x,
  next h' x = (if decide (x = a) then n else if decide (x = n) then b else next h x) /\
  prev h' x = (if decide (x = b) then n else if decide (x = n) then a else prev h x).

Lemma dl_between (h : heap) (q : loc) (l1 l2 : nodes) :
  dl h q (l1 ++ l2) ->
  exists s a b r, q :: l1 = s ++ [a] /\ l2 ++ [q] = b :: r /\
    next h <$> s = l1 /\ next h a = b /\ next h <$> l2 = r /\
    prev h <$> l1 = s /\ prev h b = a /\ prev h <$> r = l2.
Proof.
  intros [H1 H2 _]. destruct (snoc_inv q l1) as (s & a & E).
  destruct (l2 ++ [q]) as [|b r] eqn:E2; [by destruct l2|].
  exists s, a, b, r.
  rewrite app_comm_cons, E in H1, H2. rewrite <- !app_assoc, E2 in H1.
  rewrite <- !app_assoc, E2 in H2. simpl in *.
  assert (Hl : length s = length l1).
  { apply (f_equal length) in E. rewrite length_app in E. simpl in E. lia. }
  rewrite fmap_app in H1, H2. simpl in *.
  apply app_inj_1 in H1 as [H1 H1']; [|by rewrite length_fmap].
  apply app_inj_1 in H2 as [H2 H2']; [|by rewrite length_fmap].
  simplify_eq/=. done.
Qed.

(** Linking a fresh node between two adjacent cells inserts it there: the
    common core of [append], [prepend], [insert_after] and [insert_before]. *)
Lemma dl_insert (h h' : heap) (q n a b : loc) (l1 l2 s r : nodes) :
  dl h q (l1 ++ l2) -> n ∉ q :: l1 ++ l2 ->
  q :: l1 = s ++ [a] -> l2 ++ [q] = b :: r ->
  linked_between h h' n a b -> dl h' q (l1 ++ n :: l2).
Proof.
  intros Hd Hn E1 E2 Hlk.
  destruct (dl_between _ _ _ _ Hd) as (s' & a' & b' & r' & E1' & E2' & Hs & Ha & Hl2 & Hl1 & Hb & Hr).
  rewrite E1 in E1'. apply app_inj_2 in E1' as [<- [= <-]]; [|done].
  rewrite E2 in E2'. injection E2' as <- <-.
  pose proof (dl_nodup _ _ _ Hd) as Hnd.
  assert (Hq : q ∉ l1 ++ l2) by (by apply NoDup_cons in Hnd as []).
  rewrite app_comm_cons in Hnd. apply NoDup_app in Hnd as (Hnd1 & Hd12 & Hnd2).
  assert (Hai : a ∈ q :: l1) by (rewrite E1; set_solver).
  assert (Hbi : b ∈ l2 ++ [q]) by (rewrite E2; left).
  assert (Hr' : forall x, x ∈ r -> x ∈ l2 ++ [q]) by (intros; rewrite E2; by right).
  assert (Hs' : forall x, x ∈ s -> x ∈ q :: l1) by (intros; rewrite E1; set_solver).
  assert (Has : a ∉ s).
  { rewrite E1 in Hnd1. apply NoDup_app in Hnd1 as (_ & X & _). intros Y. apply (X a Y). left. }
  assert (Hbr : b ∉ r).
  { assert (NoDup (b :: r)) as X; [|by apply NoDup_cons in X as []].
    rewrite <- E2. apply NoDup_app. split; [done|]. split; [|apply NoDup_singleton].
    intros x Hx ->%list_elem_of_singleton. apply Hq. set_solver. }
  assert (Hal2 : a ∉ l2) by (intros X; by apply (Hd12 a)).
  assert (Hbl1 : b ∉ l1) by (intros X; apply elem_of_app in Hbi as [Y|Y%list_elem_of_singleton];
    [apply (Hd12 b); [by right|done]|subst; apply Hq; set_solver]).
  assert (Hnn : n ∉ s /\ n ∉ r /\ n <> a /\ n <> b /\ n ∉ l1 /\ n ∉ l2).
  { split_and!; try set_solver; intros ->; set_solver. }
  destruct Hnn as (Hn1 & Hn2 & Hn3 & Hn4 & Hn5 & Hn6).
  split.
  - rewrite app_comm_cons, E1, !fmap_app. simpl.
    rewrite (fmap_ext_in _ (next h) s), Hs
      by (intros x Hx; rewrite (proj1 (Hlk x)), !decide_False; [done|by intros ->..]).
    rewrite (fmap_ext_in _ (next h) l2), Hl2
      by (intros x Hx; rewrite (proj1 (Hlk x)), !decide_False; [done|by intros ->..]).
    rewrite !(proj1 (Hlk _)), (decide_True (P := a = a)), decide_False, decide_True by done.
    rewrite <- !app_assoc. simpl. by rewrite E2.
  - rewrite <- app_assoc. simpl. rewrite E2, fmap_app. simpl.
    rewrite (fmap_ext_in _ (prev h) l1), Hl1
      by (intros x Hx; rewrite (proj2 (Hlk x)), !decide_False; [done|by intros ->..]).
    rewrite (fmap_ext_in _ (prev h) r), Hr
      by (intros x Hx; rewrite (proj2 (Hlk x)), !decide_False; [done|by intros ->..]).
    rewrite !(proj2 (Hlk _)), (decide_True (P := b = b)), decide_False, decide_True by done.
    rewrite app_comm_cons, E1. by rewrite <- app_assoc.
  - rewrite app_comm_cons. apply NoDup_app. split; [done|]. split.
    + intros x Hx [->|Hx2]%elem_of_cons; [set_solver|by apply (Hd12 x)].
    + apply NoDup_cons. by split.
Qed.

Lemma append_links (h : heap) (q n : loc) :
  n <> q -> n <> prev h q -> linked_between h (sys_dlist_append h q n) n (prev h q) q.
Proof. intros Hq Ht x. unfold sys_dlist_append. split; solve_upd. Qed.

Lemma prepend_links (h : heap) (q n : loc) :
  n <> q -> n <> next h q -> linked_between h (sys_dlist_prepend h q n) n q (next h q).
Proof. intros Hq Ht x. unfold sys_dlist_prepend. split; solve_upd. Qed.

Lemma insert_after_links (h : heap) (q p n : loc) :
  n <> p -> n <> next h p ->
  linked_between h (sys_dlist_insert_after h q (Some p) n) n p (next h p).
Proof. intros Hq Ht x. unfold sys_dlist_insert_after. split; solve_upd. Qed.

Lemma insert_before_links (h : heap) (q p n : loc) :
  n <> p -> n <> prev h p ->
  linked_between h (sys_dlist_insert_before h q (Some p) n) n (prev h p) p.
Proof. intros Hq Ht x. unfold sys_dlist_insert_before. split; solve_upd. Qed.

Lemma dl_append (h : heap) (q n : loc) (l : nodes) :
  dl h q l -> n ∉ q :: l -> dl (sys_dlist_append h q n) q (l ++ [n]).
Proof.
  intros Hd Hn. destruct (snoc_inv q l) as (s & t & E).
  destruct (dl_last _ _ _ _ _ Hd E) as (_ & _ & _ & Hq).
  rewrite E in Hn. rewrite <- (app_nil_r l) in Hd.
  eapply (dl_insert h _ q n t q l [] s []); [done|by rewrite app_nil_r, E|done..|].
  rewrite <- Hq. apply append_links; [|rewrite Hq; set_solver].
  rewrite <- E in Hn. set_solver.
Qed.

Lemma dl_prepend (h : heap) (q n : loc) (l : nodes) :
  dl h q l -> n ∉ q :: l -> dl (sys_dlist_prepend h q n) q (n :: l).
Proof.
  intros Hd Hn. destruct (l ++ [q]) as [|t r] eqn:E; [by destruct l|].
  destruct (dl_first _ _ _ _ _ Hd E) as (Hq & _).
  assert (n <> t) by (assert (t ∈ l ++ [q]) by (rewrite E; left); set_solver).
  apply (dl_insert h _ q n q t [] l [] r); [done..|].
  rewrite <- Hq. apply prepend_links; [set_solver|by rewrite Hq].
Qed.

Lemma dl_insert_after (h : heap) (q p n : loc) (l1 l2 : nodes) :
  dl h q (l1 ++ p :: l2) -> n ∉ q :: l1 ++ p :: l2 ->
  dl (sys_dlist_insert_after h q (Some p) n) q (l1 ++ p :: n :: l2).
Proof.
  intros Hd Hn. rewrite (cons_middle p l1 l2), app_assoc in Hd, Hn.
  rewrite (cons_middle p l1 (n :: l2)), app_assoc.
  destruct (dl_between _ _ _ _ Hd) as (s & a & b & r & E1 & E2 & _ & Ha & _).
  rewrite app_comm_cons in E1. apply app_inj_2 in E1 as [<- [= <-]]; [|done].
  assert (n <> b) by (assert (b ∈ l2 ++ [q]) by (rewrite E2; left); set_solver).
  apply (dl_insert h _ q n p b (l1 ++ [p]) l2 (q :: l1) r); [done..|].
  rewrite <- Ha. apply insert_after_links; [set_solver|by rewrite Ha].
Qed.

Lemma dl_insert_before (h : heap) (q p n : loc) (l1 l2 : nodes) :
  dl h q (l1 ++ p :: l2) -> n ∉ q :: l1 ++ p :: l2 ->
  dl (sys_dlist_insert_before h q (Some p) n) q (l1 ++ n :: p :: l2).
Proof.
  intros Hd Hn.
  destruct (dl_between _ _ _ _ Hd) as (s & a & b & r & E1 & E2 & _ & _ & _ & _ & Hb & _).
  injection E2 as <- E2.
  assert (n <> a) by (assert (a ∈ q :: l1) by (rewrite E1; set_solver); set_solver).
  apply (dl_insert h _ q n a p l1 (p :: l2) s r); [done..|simpl; by rewrite E2|].
  rewrite <- Hb. apply insert_before_links; [set_solver|by rewrite Hb].
Qed.

Lemma remove_links (h : heap) (n : loc) :
  prev h n <> n -> forall x,
  next (sys_dlist_remove h n) x = (if decide (x = prev h n) then next h n else next h x) /\
  prev (sys_dlist_remove h n) x = (if decide (x = next h n) then prev h n else prev h x).
Proof. intros Hn x. unfold sys_dlist_remove. split; solve_upd. Qed.

Lemma dl_remove (h : heap) (q n : loc) (l1 l2 : nodes) :
  dl h q (l1 ++ n :: l2) -> dl (sys_dlist_remove h n) q (l1 ++ l2).
Proof.
  intros Hd.
  destruct (dl_mid _ _ _ _ _ Hd) as (s & p & t & r & E1 & E2 & Hs & Hp & Hn & Hl2 & Hl1 & Hpn & Ht & Hr).
  pose proof (dl_nodup _ _ _ Hd) as Hnd.
  rewrite app_comm_cons in Hnd. apply NoDup_app in Hnd as (Hnd1 & Hd12 & Hnd2).
  apply NoDup_cons in Hnd2 as [Hnl2 Hnd2].
  assert (p ∈ q :: l1) as Hpin by (rewrite E1; set_solver).
  assert (NoDup (l2 ++ [q])) as Hnd2q.
  { apply NoDup_app. split; [done|]. split; [|apply NoDup_singleton].
    intros x Hx ->%list_elem_of_singleton. apply (Hd12 q); [left|by right]. }
  rewrite E2 in Hnd2q. apply NoDup_cons in Hnd2q as [Htr _].
  rewrite E1 in Hnd1. apply NoDup_app in Hnd1 as (_ & Hps & _).
  assert (p <> n) as Hne by (intros ->; apply (Hd12 n Hpin); left).
  assert (Hlk := remove_links h n ltac:(by rewrite Hpn)).
  rewrite Hpn, Hn in Hlk. split.
  - rewrite app_comm_cons, E1, !fmap_app. simpl.
    rewrite (fmap_ext_in _ (next h) s), Hs
      by (intros x Hx; rewrite (proj1 (Hlk x)), decide_False; [done|];
          intros ->; apply (Hps p Hx); left).
    rewrite (fmap_ext_in _ (next h) l2)
      by (intros x Hx; rewrite (proj1 (Hlk x)), decide_False; [done|];
          intros ->; apply (Hd12 p Hpin); by right).
    rewrite (proj1 (Hlk p)), decide_True by done.
    rewrite <- !app_assoc, E2, Hl2. done.
  - rewrite <- app_assoc, E2, fmap_app. simpl.
    assert (forall x, x ∈ l1 -> x <> t) as Hl1t.
    { intros x Hx ->. assert (t ∈ l2 ++ [q]) as Y by (rewrite E2; set_solver).
      pose proof (dl_nodup _ _ _ Hd) as X. apply NoDup_cons in X as [X _].
      apply elem_of_app in Y as [Y|Y]; [apply (Hd12 t); set_solver|set_solver]. }
    rewrite (fmap_ext_in _ (prev h) l1), Hl1
      by (intros x Hx; rewrite (proj2 (Hlk x)), decide_False; [done|by apply Hl1t]).
    rewrite (fmap_ext_in _ (prev h) r)
      by (intros x Hx; rewrite (proj2 (Hlk x)), decide_False; [done|by intros ->]).
    rewrite (proj2 (Hlk t)), decide_True by done.
    rewrite Hr. by rewrite app_comm_cons, E1, <- app_assoc.
  - pose proof (dl_nodup _ _ _ Hd) as X. apply NoDup_cons in X as [X1 X2].
    apply NoDup_cons. split; [set_solver|].
    apply NoDup_app in X2 as (X3 & X4 & X5). apply NoDup_cons in X5 as [X5 X6].
    apply NoDup_app. split; [done|]. split; [|done]. set_solver.
Qed.

(** ** Reads of a represented list *)

Lemma dl_is_empty (h : heap) (q : loc) (l : nodes) :
  dl h q l -> sys_dlist_is_empty h q = bool_decide (l = []).
Proof.
  intros Hd. unfold sys_dlist_is_empty. apply bool_decide_ext.
  destruct Hd as [H1 _ H3]. destruct l as [|n l]; simpl in H1.
  - injection H1 as H1. by rewrite H1.
  - injection H1 as H1 _. rewrite H1. split; [|done]. intros ->.
    apply NoDup_cons in H3 as [H3 _]. set_solver.
Qed.

Lemma dl_peek_head (h : heap) (q : loc) (l : nodes) :
  dl h q l -> sys_dlist_peek_head h q = head l.
Proof.
  intros Hd. unfold sys_dlist_peek_head. rewrite (dl_is_empty _ _ _ Hd).
  destruct l as [|n l]; [by rewrite bool_decide_true|].
  rewrite bool_decide_false by done. destruct Hd as [H1 _ _]. simpl in *. by simplify_eq.
Qed.

Lemma dl_peek_tail (h : heap) (q : loc) (l : nodes) :
  dl h q l -> sys_dlist_peek_tail h q = last l.
Proof.
  intros Hd. unfold sys_dlist_peek_tail. rewrite (dl_is_empty _ _ _ Hd).
  destruct l as [|n l]; [by rewrite bool_decide_true|].
  rewrite bool_decide_false by done. destruct (snoc_inv n l) as (s & t & E).
  rewrite E in *. destruct (dl_last h q (s ++ [t]) (q :: s) t Hd) as (_ & _ & _ & ->); [done|].
  by rewrite last_snoc.
Qed.

Lemma dl_peek_next (h : heap) (q n : loc) (l1 l2 : nodes) :
  dl h q (l1 ++ n :: l2) -> sys_dlist_peek_next h q (Some n) = head l2.
Proof.
  intros Hd. simpl. unfold sys_dlist_peek_next_no_check.
  destruct (dl_mid _ _ _ _ _ Hd) as (s & p & t & r & _ & E2 & _ & _ & Hn & _).
  destruct l2 as [|m l2].
  - rewrite bool_decide_true; [done|].
    by destruct (dl_last h q (l1 ++ [n]) (q :: l1) n Hd) as (_ & _ & _ & ->).
  - simpl in E2. injection E2 as <- _. rewrite bool_decide_false; [by rewrite Hn|].
    destruct (snoc_inv m l2) as (s' & t' & E). rewrite E in Hd.
    destruct (dl_last h q (l1 ++ n :: s' ++ [t']) (q :: l1 ++ n :: s') t' Hd) as (_ & _ & _ & ->).
    { simpl. by rewrite <- app_assoc. }
    intros ->. apply dl_nodup, NoDup_cons in Hd as [_ Hd].
    apply NoDup_app in Hd as (_ & _ & Hd). apply NoDup_cons in Hd as [Hd _]. set_solver.
Qed.

Lemma dl_has_multiple_nodes (h : heap) (q : loc) (l : nodes) :
  dl h q l -> sys_dlist_has_multiple_nodes h q = bool_decide (2 <= length l)%nat.
Proof.
  intros Hd. unfold sys_dlist_has_multiple_nodes. apply bool_decide_ext.
  destruct (snoc_inv q l) as (s & t & E).
  destruct (dl_last _ _ _ _ _ Hd E) as (_ & _ & _ & ->).
  destruct (l ++ [q]) as [|u r] eqn:E2; [by destruct l|].
  destruct (dl_first _ _ _ _ _ Hd E2) as (-> & _).
  assert (Ht : last (q :: l) = Some t) by (rewrite E; apply last_snoc).
  assert (Hu : head (l ++ [q]) = Some u) by (by rewrite E2). clear E E2.
  destruct l as [|a [|b l]]; cbn in Hu; simplify_eq.
  - cbn in Ht. simplify_eq. simpl. split; [done|lia].
  - cbn in Ht. simplify_eq. simpl. split; [done|lia].
  - split; [simpl; lia|]. intros _ ->. rewrite !last_cons_cons in Ht.
    apply last_Some_elem_of in Ht. apply dl_nodup, NoDup_cons in Hd as [_ Hd].
    by apply NoDup_cons in Hd as [Hd _].
Qed.

(** The iteration macro visits the nodes of the list, in order. *)
Lemma for_each_node_from_dl (fuel : nat) (h : heap) (q : loc) (l1 l2 : nodes) :
  dl h q (l1 ++ l2) -> (length l2 < fuel)%nat ->
  for_each_node_from fuel h q (head l2) = l2.
Proof.
  revert l1 l2. induction fuel as [|fuel IH]; intros l1 l2 Hd Hf; [lia|].
  destruct l2 as [|n l2]; [done|]. cbn [for_each_node_from head].
  rewrite (dl_peek_next _ _ _ _ _ Hd). f_equal.
  apply (IH (l1 ++ [n])); [by rewrite <- app_assoc|simpl in *; lia].
Qed.

Lemma dl_for_each_node (fuel : nat) (h : heap) (q : loc) (l : nodes) :
  dl h q l -> (length l < fuel)%nat -> for_each_node fuel h q = l.
Proof.
  intros Hd Hf. unfold for_each_node. rewrite (dl_peek_head _ _ _ Hd).
  by apply (for_each_node_from_dl fuel h q []).
Qed.

(** The loop of [sys_dlist_insert_at] stops at the first node on which [cond] holds. *)
Lemma insert_at_pos_dl (fuel : nat) (h : heap) (q : loc) (cond : loc -> bool) (l1 l2 : nodes) :
  dl h q (l1 ++ l2) -> (length l2 < fuel)%nat ->
  insert_at_pos fuel h q cond (head l2) = list_find cond l2 ≫= fun '(_, x) => Some x.
Proof.
  revert l1 l2. induction fuel as [|fuel IH]; intros l1 l2 Hd Hf; [lia|].
  destruct l2 as [|n l2]; [done|]. cbn [insert_at_pos head].
  rewrite (dl_peek_next _ _ _ _ _ Hd). simpl. destruct (cond n) eqn:En.
  - by rewrite decide_True.
  - rewrite decide_False by (by intros []).
    rewrite (IH (l1 ++ [n]));
      [|by rewrite <- app_assoc|simpl in *; lia].
    by destruct (list_find _ l2) as [[]|].
Qed.

End DList.
