(* ===== verification/ListStore.v ===== *)
(** * The list store: what the kernel relies on of dlist.h

    Every queue of the kernel (a ready queue, the wait queue of an object) is
    a [sys_dlist_t], and a thread is on at most one of them through its only
    [k_q_node].  [Module Lst] is that view: a map from queues to the sequence
    of their nodes, with the operations the kernel uses.  The kernel files are
    written against it.

    [Module Refine] shows that the pointer operations of DList.v implement it:
    along every sequence of operations whose nodes are free when inserted and
    linked when removed, all the lists of the memory stay well formed and hold
    the sequences the list store computes. *)

From S2P Require Import Prelude DList.

Module Lst.
Section Lst.
Context {K N : Type} `{Countable K} `{EqDecision N}.
Abbreviation store := (gmap K (list N)).
Implicit Types (L : store) (q : K) (n : N).

(** [sys_dlist_init] *)
Definition init L q : store := <[q := []]> L.

(** [sys_dlist_append] *)
Definition append L q n : store := <[q := L !!! q ++ [n]]> L.

(** [sys_dlist_prepend] *)
Definition prepend L q n : store := <[q := n :: L !!! q]> L.

(** insertion of [n] in front of the first [p] of a sequence *)
Fixpoint ins_before (p n : N) (l : list N) : list N :=
  match l with
  | [] => []
  | x :: l => if decide (x = p) then n :: x :: l else x :: ins_before p n l
  end.

(** [sys_dlist_insert_before]: at the tail when the insert point is [NULL] *)
Definition insert_before L q (p : option N) n : store :=
  match p with
  | None => append L q n
  | Some p => <[q := ins_before p n (L !!! q)]> L
  end.

(** [sys_dlist_remove]: the list is implicit from the node *)
Definition remove L n : store := filter (fun m => m <> n) <$> L.

(** [sys_dlist_is_empty], [sys_dlist_peek_head], [sys_dlist_is_tail],
    [sys_dlist_has_multiple_nodes] *)
Definition is_empty L q : bool := bool_decide (L !!! q = []).
Definition peek_head L q : option N := head (L !!! q).
Definition is_tail L q n : bool := bool_decide (last (L !!! q) = Some n).
Definition has_multiple_nodes L q : bool := bool_decide (2 <= length (L !!! q))%nat.

(** [n] is on some list of the store. *)
Definition on_list L n : Prop := exists q, n ∈ L !!! q.

(** ** Reads after writes *)

Lemma append_same L q n : append L q n !!! q = L !!! q ++ [n].
Proof. apply lookup_total_insert_eq. Qed.

Lemma append_other L q q' n : q <> q' -> append L q n !!! q' = L !!! q'.
Proof. apply lookup_total_insert_ne. Qed.

Lemma insert_before_other L q q' p n : q <> q' -> insert_before L q p n !!! q' = L !!! q'.
Proof. intros Hq. destruct p; by apply lookup_total_insert_ne. Qed.

Lemma lookup_remove L n q : remove L n !!! q = filter (fun m => m <> n) (L !!! q).
Proof.
  unfold remove. rewrite !lookup_total_alt, lookup_fmap.
  by destruct (L !! q).
Qed.

Lemma elem_of_remove L n m q : m ∈ remove L n !!! q <-> m ∈ L !!! q /\ m <> n.
Proof. rewrite lookup_remove, list_elem_of_filter. naive_solver. Qed.

Lemma elem_of_append L q q' n m :
  m ∈ append L q n !!! q' <-> m ∈ L !!! q' \/ (q' = q /\ m = n).
Proof.
  destruct (decide (q = q')) as [->|Hne].
  - rewrite append_same. set_solver.
  - rewrite append_other by done. naive_solver.
Qed.

Lemma ins_before_split (p n : N) (l1 l2 : list N) :
  p ∉ l1 -> ins_before p n (l1 ++ p :: l2) = l1 ++ n :: p :: l2.
Proof.
  induction l1 as [|x l1 IH]; intros Hp; simpl.
  - by rewrite decide_True.
  - rewrite decide_False by set_solver. rewrite IH by set_solver. done.
Qed.

Lemma elem_of_ins_before (p n m : N) (l : list N) :
  p ∈ l -> m ∈ ins_before p n l <-> m = n \/ m ∈ l.
Proof.
  intros (l1 & l2 & -> & Hp)%list_elem_of_split_l.
  rewrite ins_before_split by done. set_solver.
Qed.

End Lst.
End Lst.

Module Refine.
Import DList.

(** Where the queues and the nodes live in memory: distinct addresses. *)
Class Layout (K N : Type) := {
  q_addr : K -> loc;
  n_addr : N -> loc;
  #[global] q_addr_inj :: Inj (=) (=) q_addr;
  #[global] n_addr_inj :: Inj (=) (=) n_addr;
  q_n_disjoint : forall q n, q_addr q <> n_addr n
}.

Section Refine.
Context {K N : Type} `{Countable K} `{EqDecision N} `{!Layout K N}.
Abbreviation store := (gmap K (list N)).
Implicit Types (L : store) (q : K) (n p : N) (h : heap).

(** The memory [h] holds all the lists of [L], no node being on two of them. *)
Record holds h L : Prop := {
  holds_dl : forall q l, L !! q = Some l -> dl h (q_addr q) (n_addr <$> l);
  holds_disj : forall q1 q2 l1 l2 n, L !! q1 = Some l1 -> L !! q2 = Some l2 ->
    n ∈ l1 -> n ∈ l2 -> q1 = q2
}.

Inductive op :=
| OpInit (q : K)
| OpAppend (q : K) (n : N)
| OpPrepend (q : K) (n : N)
| OpInsertBefore (q : K) (p : option N) (n : N)
| OpRemove (n : N).

(** The code of an operation, on the memory. *)
Definition exec (o : op) h : heap :=
  match o with
  | OpInit q => sys_dlist_init h (q_addr q)
  | OpAppend q n => sys_dlist_append h (q_addr q) (n_addr n)
  | OpPrepend q n => sys_dlist_prepend h (q_addr q) (n_addr n)
  | OpInsertBefore q p n => sys_dlist_insert_before h (q_addr q) (n_addr <$> p) (n_addr n)
  | OpRemove n => sys_dlist_remove h (n_addr n)
  end.

(** The operation on the list store. *)
Definition spec (o : op) L : store :=
  match o with
  | OpInit q => Lst.init L q
  | OpAppend q n => Lst.append L q n
  | OpPrepend q n => Lst.prepend L q n
  | OpInsertBefore q p n => Lst.insert_before L q p n
  | OpRemove n => Lst.remove L n
  end.

(** What the callers must ensure: an inserted node is on no list and the list
    exists, a removed node is on a list, a fresh list head is not in use. *)
Definition free L n : Prop := forall q l, L !! q = Some l -> n ∉ l.

Definition pre (o : op) L : Prop :=
  match o with
  | OpInit q => L !! q = None
  | OpAppend q n | OpPrepend q n => is_Some (L !! q) /\ free L n
  | OpInsertBefore q p n =>
    is_Some (L !! q) /\ free L n /\ match p with Some p => p ∈ L !!! q | None => True end
  | OpRemove n => exists q l, L !! q = Some l /\ n ∈ l
  end.

(** Addresses of different things are different. *)
Lemma cells_disjoint h L q q' (l l' : list N) n :
  holds h L -> L !! q = Some l -> L !! q' = Some l' -> q' <> q ->
  free L n \/ n ∈ l ->
  forall x, x ∈ q_addr q' :: (n_addr <$> l') ->
  x ∉ q_addr q :: (n_addr <$> l) /\ x <> n_addr n.
Proof.
  intros Hh Hl Hl' Hne Hn x Hx.
  assert (Hnl : forall m, m ∈ l' -> m ∈ l -> False).
  { intros m H1 H2. apply Hne. by eapply (holds_disj _ _ Hh q' q l' l m). }
  apply elem_of_cons in Hx as [->|(m & -> & Hm)%list_elem_of_fmap].
  - split; [|apply q_n_disjoint].
    apply not_elem_of_cons. split; [by intros ->%(inj q_addr)|].
    intros (m & E & _)%list_elem_of_fmap. by apply q_n_disjoint in E.
  - split.
    + apply not_elem_of_cons. split; [intros E; by apply (q_n_disjoint q m)|].
      intros (m' & ->%(inj n_addr) & Hm')%list_elem_of_fmap. by apply (Hnl m').
    + intros ->%(inj n_addr). destruct Hn as [Hn|Hn]; [by apply (Hn q' l')|by apply (Hnl n)].
Qed.

(** Changing one list, writing only to its cells and those of [n], keeps the
    store represented. *)
Lemma holds_update h h' L q n (l l' : list N) :
  holds h L -> L !! q = Some l -> free L n \/ n ∈ l ->
  (forall m, m ∈ l' -> m = n \/ m ∈ l) ->
  dl h' (q_addr q) (n_addr <$> l') ->
  (forall x, x ∉ q_addr q :: (n_addr <$> l) -> x <> n_addr n ->
     next h' x = next h x /\ prev h' x = prev h x) ->
  holds h' (<[q := l']> L).
Proof.
  intros Hh Hl Hn Hm Hd Hf.
  assert (Hll : forall q1 l1 m, L !! q1 = Some l1 -> q <> q1 -> m ∈ l1 -> m ∉ l').
  { intros q1 l1 m H1 Hne H2 H3.
    apply Hm in H3 as [->|H3]; [destruct Hn as [Hn|H3]; [by apply (Hn q1 l1)|]|];
      apply Hne; by eapply (holds_disj _ _ Hh q q1 l l1). }
  split.
  - intros q1 l1 Hl1. destruct (decide (q = q1)) as [<-|Hne].
    + rewrite lookup_insert_eq in Hl1. by simplify_eq.
    + rewrite lookup_insert_ne in Hl1 by done.
      eapply dl_frame; [intros x Hx; apply Hf; by eapply (cells_disjoint h L q q1 l l1 n)..|].
      by apply (holds_dl _ _ Hh).
  - intros q1 q2 l1 l2 m H1 H2 Hm1 Hm2.
    rewrite lookup_insert in H1, H2. repeat case_decide; simplify_eq; [done|..].
    + exfalso. by apply (Hll q1 l1 m).
    + exfalso. by apply (Hll q2 l2 m).
    + by eapply (holds_disj _ _ Hh q1 q2 l1 l2 m).
Qed.

Lemma linked_frame h h' q n (l : list N) a b :
  dl h (q_addr q) (n_addr <$> l) -> linked_between h h' (n_addr n) a b ->
  a ∈ q_addr q :: (n_addr <$> l) -> b ∈ q_addr q :: (n_addr <$> l) ->
  forall x, x ∉ q_addr q :: (n_addr <$> l) -> x <> n_addr n ->
  next h' x = next h x /\ prev h' x = prev h x.
Proof.
  intros Hd Hlk Ha Hb x Hx Hn. destruct (Hlk x) as [-> ->].
  rewrite !decide_False; [done|intros ->; done..].
Qed.

Lemma free_not_cell L q n (l : list N) :
  L !! q = Some l -> free L n -> n_addr n ∉ q_addr q :: (n_addr <$> l).
Proof.
  intros Hl Hn. apply not_elem_of_cons. split; [intros E; by apply (q_n_disjoint q n)|].
  intros (m & ->%(inj n_addr) & Hm)%list_elem_of_fmap. by apply (Hn q l).
Qed.

Lemma refine_init h L q : holds h L -> L !! q = None -> holds (exec (OpInit q) h) (Lst.init L q).
Proof.
  intros Hh Hq. unfold Lst.init. split.
  - intros q1 l1 Hl1. destruct (decide (q = q1)) as [<-|Hne].
    + rewrite lookup_insert_eq in Hl1. simplify_eq. apply dl_init.
    + rewrite lookup_insert_ne in Hl1 by done.
      assert (forall x, x ∈ q_addr q1 :: (n_addr <$> l1) -> x <> q_addr q) as X.
      { intros x [->|(m & -> & _)%list_elem_of_fmap]%elem_of_cons E;
          [by apply (inj q_addr) in E|by apply (q_n_disjoint q m)]. }
      eapply dl_frame; [..|by apply (holds_dl _ _ Hh)]; intros x Hx; simpl;
        unfold sys_dlist_init;
        rewrite ?next_set_prev, ?prev_set_prev, ?next_set_next, ?prev_set_next;
        rewrite ?decide_False by (by apply X); done.
  - intros q1 q2 l1 l2 m H1 H2 Hm1 Hm2.
    rewrite lookup_insert in H1, H2. repeat case_decide; simplify_eq; [set_solver..|].
    by eapply (holds_disj _ _ Hh q1 q2 l1 l2 m).
Qed.

Lemma refine_append h L q n :
  holds h L -> pre (OpAppend q n) L -> holds (exec (OpAppend q n) h) (Lst.append L q n).
Proof.
  intros Hh [[l Hl] Hn]. unfold Lst.append. rewrite (lookup_total_correct _ _ _ Hl).
  pose proof (holds_dl _ _ Hh _ _ Hl) as Hd. pose proof (free_not_cell _ _ _ _ Hl Hn) as Hc.
  destruct (dl_closed _ _ _ _ Hd (list_elem_of_here _ _)) as [_ Hp].
  apply (holds_update h _ L q n l); [done|done|by left|set_solver|..].
  - rewrite fmap_app. by apply dl_append.
  - eapply linked_frame; [done|apply append_links|done|left];
      eapply elem_of_ne; first [done|left].
Qed.

Lemma refine_prepend h L q n :
  holds h L -> pre (OpPrepend q n) L -> holds (exec (OpPrepend q n) h) (Lst.prepend L q n).
Proof.
  intros Hh [[l Hl] Hn]. unfold Lst.prepend. rewrite (lookup_total_correct _ _ _ Hl).
  pose proof (holds_dl _ _ Hh _ _ Hl) as Hd. pose proof (free_not_cell _ _ _ _ Hl Hn) as Hc.
  destruct (dl_closed _ _ _ _ Hd (list_elem_of_here _ _)) as [Hp _].
  apply (holds_update h _ L q n l); [done|done|by left|set_solver|..].
  - by apply dl_prepend.
  - eapply linked_frame; [done|apply prepend_links|left|done];
      eapply elem_of_ne; first [done|left].
Qed.

Lemma refine_insert_before h L q (p : option N) n :
  holds h L -> pre (OpInsertBefore q p n) L ->
  holds (exec (OpInsertBefore q p n) h) (Lst.insert_before L q p n).
Proof.
  intros Hh (Hq & Hn & Hp). destruct p as [p|]; [|by apply refine_append].
  destruct Hq as [l Hl]. simpl. rewrite (lookup_total_correct _ _ _ Hl) in Hp |- *.
  pose proof (holds_dl _ _ Hh _ _ Hl) as Hd. pose proof (free_not_cell _ _ _ _ Hl Hn) as Hc.
  assert (n_addr p ∈ q_addr q :: (n_addr <$> l)) as Hpc.
  { right. by apply list_elem_of_fmap_2. }
  destruct (dl_closed _ _ _ _ Hd Hpc) as [_ Hpp].
  apply (holds_update h _ L q n l); [done|done|by left|..].
  - intros m. by rewrite Lst.elem_of_ins_before.
  - apply list_elem_of_split_l in Hp as (l1 & l2 & -> & Hp).
    rewrite Lst.ins_before_split by done. rewrite fmap_app in Hd, Hc |- *.
    apply (dl_insert_before h (q_addr q) (n_addr p) (n_addr n)); done.
  - eapply linked_frame; [done|apply (insert_before_links h (q_addr q))|done..];
      by eapply elem_of_ne.
Qed.

Lemma refine_remove h L n :
  holds h L -> pre (OpRemove n) L -> holds (exec (OpRemove n) h) (Lst.remove L n).
Proof.
  intros Hh (q & l & Hl & Hn).
  pose proof (holds_dl _ _ Hh _ _ Hl) as Hd.
  assert (Hnd : NoDup l).
  { apply dl_nodup, NoDup_cons in Hd as [_ Hd]. by eapply NoDup_fmap_1. }
  assert (Lst.remove L n = <[q := filter (fun m => m <> n) l]> L) as ->.
  { apply map_eq. intros q'. unfold Lst.remove. rewrite lookup_fmap, lookup_insert.
    case_decide; simplify_eq; [by rewrite Hl|].
    destruct (L !! q') as [l'|] eqn:E; [|done]. simpl. f_equal. apply filter_ne_id.
    intros Hn'. by apply (holds_disj _ _ Hh q q' l l' n) in Hl. }
  assert (n_addr n ∈ q_addr q :: (n_addr <$> l)) as Hnc.
  { right. by apply list_elem_of_fmap_2. }
  destruct (dl_closed _ _ _ _ Hd Hnc) as [Hcn Hcp].
  assert (prev h (n_addr n) <> n_addr n) as Hself.
  { apply list_elem_of_split in Hn as (l1 & l2 & ->). rewrite fmap_app in Hd.
    destruct (dl_mid _ _ _ _ _ Hd) as (s & p & t & r & E1 & _ & _ & _ & _ & _ & _ & -> & _).
    intros ->. apply dl_nodup in Hd. rewrite app_comm_cons, E1 in Hd.
    apply NoDup_app in Hd as (_ & Hd & _). apply (Hd (n_addr n)); [set_solver|left]. }
  apply (holds_update h _ L q n l); [done|done|by right|..].
  - intros m [_ Hm]%list_elem_of_filter. by right.
  - apply list_elem_of_split in Hn as (l1 & l2 & ->).
    rewrite filter_ne_split by done. rewrite fmap_app in Hd |- *. by apply dl_remove.
  - intros x Hx Hxn. destruct (remove_links h (n_addr n) Hself x) as [E1 E2].
    simpl. rewrite E1, E2, !decide_False; [done|by intros ->..].
Qed.

Lemma refine_step (o : op) h L : holds h L -> pre o L -> holds (exec o h) (spec o L).
Proof.
  destruct o; eauto using refine_init, refine_append, refine_prepend, refine_insert_before, refine_remove.
Qed.

(** A run of the list store: every operation is called as the code calls it. *)
Inductive run : store -> list op -> store -> Prop :=
| run_nil L : run L [] L
| run_cons L o os L' : pre o L -> run (spec o L) os L' -> run L (o :: os) L'.

(** C5. Refinement of dlist.h: whatever sequence of init / append / prepend /
    insert_before / remove calls is made, as long as nodes are linked when
    they are free and unlinked when they are linked, the memory the C code
    produces holds exactly the lists that the list store computes; in
    particular iterating a list forwards visits its nodes in that order. *)
Theorem dlist_refines_list_store h L os L' :
  holds h L -> run L os L' ->
  let h' := foldl (fun h o => exec o h) h os in
  holds h' L' /\
  forall q l fuel, L' !! q = Some l -> (length l < fuel)%nat ->
    for_each_node fuel h' (q_addr q) = n_addr <$> l.
Proof.
  intros Hh Hr. simpl.
  assert (holds (foldl (fun h o => exec o h) h os) L') as X.
  { revert h Hh. induction Hr as [|L o os L' Hp Hr IH]; intros h Hh; [done|].
    simpl. apply IH. by apply refine_step. }
  split; [done|]. intros q l fuel Hl Hf. apply dl_for_each_node; [|by rewrite length_fmap].
  by apply (holds_dl _ _ X).
Qed.

End Refine.

(** The layout of the witnesses: queues at odd, nodes at even addresses. *)
Definition demo_layout : Layout positive positive.
Proof. refine {| q_addr := xI; n_addr := xO |}; [congruence..|done]. Defined.

Definition demo_ops : list (@op positive positive) :=
  [OpInit 1%positive; OpAppend 1%positive 5%positive; OpAppend 1%positive 6%positive;
   OpInsertBefore 1%positive (Some 6%positive) 7%positive; OpRemove 5%positive].

Lemma dlist_refines_list_store_witness :
  for_each_node 10 (foldl (fun h o => @exec _ _ demo_layout o h) ∅ demo_ops) 3%positive
  = [14%positive; 12%positive].
Proof.
  refine (proj2 (@dlist_refines_list_store positive positive _ _ _ demo_layout ∅ ∅ demo_ops
            {[1%positive := [7%positive; 6%positive]]} _ _) 1%positive [7%positive; 6%positive] 10%nat _ _).
  - split; [by intros q l []%lookup_empty_Some|by intros ? ? ? ? ? []%lookup_empty_Some].
  - assert (free : forall (L : gmap positive (list positive)) n,
      map_Forall (fun _ l => n ∉ l) L -> free L n) by (intros L n X q l; apply X).
    eapply run_cons; [by vm_compute|].
    do 2 (eapply run_cons; [split; [by eexists|apply free, (bool_decide_unpack _); by vm_compute]|]).
    eapply run_cons; [split_and!; [by eexists|apply free, (bool_decide_unpack _); by vm_compute|
      apply (bool_decide_unpack _); by vm_compute]|].
    eapply run_cons; [exists 1%positive, [5; 7; 6]%positive; split; [by vm_compute|left]|].
    apply run_nil.
  - by vm_compute.
  - simpl. lia.
Defined.

End Refine.
