(* ===== verification/Kernel.v ===== *)
(** * Kernel state (kernel/include/kernel_structs.h, include/kernel.h)

    The data of the kernel core: the configuration, [struct k_thread],
    [struct _timeout], [struct k_timer], [struct _ready_q] and
    [struct _kernel], and the predicates and updates of the thread state that
    kernel/include/ksched.h defines.

    Pointers are identifiers.  The [sys_dlist_t] queues that thread nodes can
    be on ([_ready_q.q[i]] and the wait queues of objects) are the keys [RQ i]
    and [WQ w] of one list store (ListStore.v); timeouts are on [timeout_q].
    Interrupts are locked around every access to this state in the C code, so
    an API call that locks them once is one transition here. *)

From S2P Require Import Prelude DList ListStore.

Local Open Scope Z_scope.

Abbreviation tid := positive.

(** Queues of threads. *)
Inductive qid := RQ (i : Z) | WQ (w : positive).

#[export] Instance qid_eq_dec : EqDecision qid.
Proof. solve_decision. Defined.

#[export] Instance qid_countable : Countable qid.
Proof.
  apply (inj_countable' (fun q => match q with RQ i => inl i | WQ w => inr w end)
           (fun s => match s with inl i => RQ i | inr w => WQ w end)).
  by intros [].
Defined.

(** Timeout objects: the one embedded in a thread, or in a timer. *)
Inductive toid := TOthread (t : tid) | TOtimer (m : positive).

#[export] Instance toid_eq_dec : EqDecision toid.
Proof. solve_decision. Defined.

#[export] Instance toid_countable : Countable toid.
Proof.
  apply (inj_countable' (fun q => match q with TOthread i => inl i | TOtimer w => inr w end)
           (fun s => match s with inl i => TOthread i | inr w => TOtimer w end)).
  by intros [].
Defined.

(** ** Configuration

    CONFIG_MULTITHREADING, CONFIG_COOP_ENABLED, CONFIG_PREEMPT_ENABLED,
    CONFIG_SYS_CLOCK_EXISTS and CONFIG_TIMESLICING are on, as in the default
    configuration; CONFIG_TICKLESS_KERNEL, CONFIG_POLL and CONFIG_USERSPACE
    are off.  The numbers are arbitrary, within what fits [s8_t prio]. *)
Class KConfig := {
  NUM_COOP_PRIORITIES : Z;
  NUM_PREEMPT_PRIORITIES : Z;
  PRIORITY_CEILING : Z;
  ms_per_tick : Z;
  idle_thread : tid;
  coop_range : 1 <= NUM_COOP_PRIORITIES <= 128;
  preempt_range : 1 <= NUM_PREEMPT_PRIORITIES <= 127;
  ms_per_tick_range : 0 < ms_per_tick <= 1000
}.

(** The wait queues are those inside the timers and those of the other kernel
    objects. *)
Definition timer_wq (m : positive) : qid := WQ (xI m).
Definition object_wq (p : positive) : qid := WQ (xO p).

Section Config.
Context `{KConfig}.

Definition _NUM_COOP_PRIO : Z := NUM_COOP_PRIORITIES.
Definition K_HIGHEST_THREAD_PRIO : Z := - NUM_COOP_PRIORITIES.
Definition K_LOWEST_THREAD_PRIO : Z := NUM_PREEMPT_PRIORITIES.
Definition K_IDLE_PRIO : Z := K_LOWEST_THREAD_PRIO.
Definition K_HIGHEST_APPLICATION_THREAD_PRIO : Z := K_HIGHEST_THREAD_PRIO.
Definition K_LOWEST_APPLICATION_THREAD_PRIO : Z := K_LOWEST_THREAD_PRIO - 1.
Definition K_NUM_PRIORITIES : Z := NUM_COOP_PRIORITIES + NUM_PREEMPT_PRIORITIES + 1.
Definition K_NUM_PRIO_BITMAPS : Z := Z.shiftr (K_NUM_PRIORITIES + 31) 5.

End Config.

Definition K_FOREVER : Z := -1.
Definition K_NO_WAIT : Z := 0.
Definition _EXPIRED : Z := -2.
Definition _INACTIVE : Z := -1.

Definition _THREAD_DUMMY : Z := Z.shiftl 1 0.
Definition _THREAD_PENDING : Z := Z.shiftl 1 1.
Definition _THREAD_PRESTART : Z := Z.shiftl 1 2.
Definition _THREAD_DEAD : Z := Z.shiftl 1 3.
Definition _THREAD_SUSPENDED : Z := Z.shiftl 1 4.
Definition _THREAD_POLLING : Z := Z.shiftl 1 5.

Definition _NON_PREEMPT_THRESHOLD : Z := 0x80.
Definition _PREEMPT_THRESHOLD : Z := _NON_PREEMPT_THRESHOLD - 1.

Definition K_ESSENTIAL : Z := Z.shiftl 1 0.

(** ** Data *)

(** [struct k_thread]: the fields of [base], the return value that [_Swap]
    hands back ([callee_saved.retval]) and [fn_abort].  [base.k_q_node] is the
    identity of the thread in the list store and [base.timeout] the timeout
    [TOthread t] of the kernel's timeout map. *)
Record k_thread := mk_thread {
  user_options : Z;
  thread_state : Z;
  prio : Z;
  sched_locked : Z;
  swap_data : Z;
  retval : Z;
  fn_abort : option positive
}.

(** [struct _timeout]; [func] is the address of the function to call. *)
Record _timeout := mk_timeout {
  to_thread : option tid;
  to_wait_q : option qid;
  delta_ticks_from_prev : Z;
  func : option positive
}.

(** [struct k_timer], less its [timeout], which is [TOtimer m], and its
    [wait_q], which is [timer_wq m]. *)
Record k_timer := mk_timer {
  expiry_fn : option positive;
  stop_fn : option positive;
  period : Z;
  status : Z;
  user_data : Z
}.

(** [struct _kernel], with the objects it points to and the variables of
    kernel/sys_clock.c. *)
Record kernel := mk_kernel {
  current : tid;
  nested : Z;
  cache : tid;
  prio_bmap : list Z;
  queues : gmap qid (list tid);
  timeout_q : list toid;
  handling_timeouts : bool;
  threads : gmap tid k_thread;
  timeouts : gmap toid _timeout;
  timers : gmap positive k_timer;
  time_slice_elapsed : Z;
  time_slice_duration : Z;
  time_slice_prio_ceiling : Z;
  tick_count : Z
}.

(** Memory that holds no initialised object: a thread there is not runnable
    and a timeout is not active. *)
#[export] Instance k_thread_inhabited : Inhabited k_thread :=
  populate (mk_thread 0 _THREAD_DUMMY 0 0 0 0 None).
#[export] Instance timeout_inhabited : Inhabited _timeout :=
  populate (mk_timeout None None _INACTIVE None).
#[export] Instance k_timer_inhabited : Inhabited k_timer :=
  populate (mk_timer None None 0 0 0).

(** ** Updates of the state *)

Definition set_queues (k : kernel) (Q : gmap qid (list tid)) : kernel :=
  mk_kernel (current k) (nested k) (cache k) (prio_bmap k) Q (timeout_q k) (handling_timeouts k)
    (threads k) (timeouts k) (timers k) (time_slice_elapsed k) (time_slice_duration k)
    (time_slice_prio_ceiling k) (tick_count k).

Definition set_bmap (k : kernel) (b : list Z) : kernel :=
  mk_kernel (current k) (nested k) (cache k) b (queues k) (timeout_q k) (handling_timeouts k)
    (threads k) (timeouts k) (timers k) (time_slice_elapsed k) (time_slice_duration k)
    (time_slice_prio_ceiling k) (tick_count k).

Definition set_cache (k : kernel) (c : tid) : kernel :=
  mk_kernel (current k) (nested k) c (prio_bmap k) (queues k) (timeout_q k) (handling_timeouts k)
    (threads k) (timeouts k) (timers k) (time_slice_elapsed k) (time_slice_duration k)
    (time_slice_prio_ceiling k) (tick_count k).

Definition set_current (k : kernel) (c : tid) : kernel :=
  mk_kernel c (nested k) (cache k) (prio_bmap k) (queues k) (timeout_q k) (handling_timeouts k)
    (threads k) (timeouts k) (timers k) (time_slice_elapsed k) (time_slice_duration k)
    (time_slice_prio_ceiling k) (tick_count k).

Definition set_nested (k : kernel) (n : Z) : kernel :=
  mk_kernel (current k) n (cache k) (prio_bmap k) (queues k) (timeout_q k) (handling_timeouts k)
    (threads k) (timeouts k) (timers k) (time_slice_elapsed k) (time_slice_duration k)
    (time_slice_prio_ceiling k) (tick_count k).

Definition set_timeout_q (k : kernel) (l : list toid) : kernel :=
  mk_kernel (current k) (nested k) (cache k) (prio_bmap k) (queues k) l (handling_timeouts k)
    (threads k) (timeouts k) (timers k) (time_slice_elapsed k) (time_slice_duration k)
    (time_slice_prio_ceiling k) (tick_count k).

Definition set_handling (k : kernel) (b : bool) : kernel :=
  mk_kernel (current k) (nested k) (cache k) (prio_bmap k) (queues k) (timeout_q k) b
    (threads k) (timeouts k) (timers k) (time_slice_elapsed k) (time_slice_duration k)
    (time_slice_prio_ceiling k) (tick_count k).

Definition set_threads (k : kernel) (m : gmap tid k_thread) : kernel :=
  mk_kernel (current k) (nested k) (cache k) (prio_bmap k) (queues k) (timeout_q k)
    (handling_timeouts k) m (timeouts k) (timers k) (time_slice_elapsed k) (time_slice_duration k)
    (time_slice_prio_ceiling k) (tick_count k).

Definition set_timeouts (k : kernel) (m : gmap toid _timeout) : kernel :=
  mk_kernel (current k) (nested k) (cache k) (prio_bmap k) (queues k) (timeout_q k)
    (handling_timeouts k) (threads k) m (timers k) (time_slice_elapsed k) (time_slice_duration k)
    (time_slice_prio_ceiling k) (tick_count k).

Definition set_timers (k : kernel) (m : gmap positive k_timer) : kernel :=
  mk_kernel (current k) (nested k) (cache k) (prio_bmap k) (queues k) (timeout_q k)
    (handling_timeouts k) (threads k) (timeouts k) m (time_slice_elapsed k) (time_slice_duration k)
    (time_slice_prio_ceiling k) (tick_count k).

Definition set_slice (k : kernel) (elapsed duration ceiling : Z) : kernel :=
  mk_kernel (current k) (nested k) (cache k) (prio_bmap k) (queues k) (timeout_q k)
    (handling_timeouts k) (threads k) (timeouts k) (timers k) elapsed duration ceiling (tick_count k).

Definition set_tick_count (k : kernel) (n : Z) : kernel :=
  mk_kernel (current k) (nested k) (cache k) (prio_bmap k) (queues k) (timeout_q k)
    (handling_timeouts k) (threads k) (timeouts k) (timers k) (time_slice_elapsed k)
    (time_slice_duration k) (time_slice_prio_ceiling k) n.

(** Dereferencing a thread pointer, and assigning to a field through it. *)
Definition thr (k : kernel) (t : tid) : k_thread := threads k !!! t.

Definition upd_thread (k : kernel) (t : tid) (f : k_thread -> k_thread) : kernel :=
  set_threads k (<[t := f (thr k t)]> (threads k)).

Definition with_state (s : Z) (x : k_thread) : k_thread :=
  mk_thread (user_options x) s (prio x) (sched_locked x) (swap_data x) (retval x) (fn_abort x).
Definition with_prio (p : Z) (x : k_thread) : k_thread :=
  mk_thread (user_options x) (thread_state x) p (sched_locked x) (swap_data x) (retval x) (fn_abort x).
Definition with_locked (n : Z) (x : k_thread) : k_thread :=
  mk_thread (user_options x) (thread_state x) (prio x) n (swap_data x) (retval x) (fn_abort x).
Definition with_swap_data (d : Z) (x : k_thread) : k_thread :=
  mk_thread (user_options x) (thread_state x) (prio x) (sched_locked x) d (retval x) (fn_abort x).
Definition with_retval (r : Z) (x : k_thread) : k_thread :=
  mk_thread (user_options x) (thread_state x) (prio x) (sched_locked x) (swap_data x) r (fn_abort x).
Definition with_options (o : Z) (x : k_thread) : k_thread :=
  mk_thread o (thread_state x) (prio x) (sched_locked x) (swap_data x) (retval x) (fn_abort x).

Definition tmo (k : kernel) (o : toid) : _timeout := timeouts k !!! o.

Definition upd_timeout (k : kernel) (o : toid) (f : _timeout -> _timeout) : kernel :=
  set_timeouts k (<[o := f (tmo k o)]> (timeouts k)).

Definition with_delta (d : Z) (x : _timeout) : _timeout :=
  mk_timeout (to_thread x) (to_wait_q x) d (func x).
Definition with_to_thread (t : option tid) (x : _timeout) : _timeout :=
  mk_timeout t (to_wait_q x) (delta_ticks_from_prev x) (func x).
Definition with_to_wait_q (w : option qid) (x : _timeout) : _timeout :=
  mk_timeout (to_thread x) w (delta_ticks_from_prev x) (func x).
