(* ===== verification/Ksched.v ===== *)
(** * Scheduler primitives (kernel/include/ksched.h, kernel/sched.c)

    Priorities, thread states, the ready queue with its priority bitmap and
    its cache, and pending / unpending on wait queues.  Each definition is the
    C function of the same name; a function that changes the state returns the
    new kernel state.  [__ASSERT] conditions are preconditions of the theorems
    (assertions are compiled out of a production kernel). *)

From S2P Require Import Prelude DList ListStore Kernel.

Local Open Scope Z_scope.

(** [find_lsb_set] ([__builtin_ffs]): the position, counted from 1, of the
    least significant set bit of a 32-bit word, 0 when there is none. *)
Fixpoint ffs_from (n : nat) (i : Z) (op : Z) : Z :=
  match n with
  | O => 0
  | S n => if Z.testbit op i then i + 1 else ffs_from n (i + 1) op
  end.

Definition find_lsb_set (op : Z) : Z := ffs_from 32 0 op.

Section Ksched.
Context `{KConfig}.
Implicit Types (k : kernel) (t : tid) (wait_q : qid).

Definition _is_in_isr k : bool := negb (nested k =? 0).

(** ** Priorities *)

Definition _get_next_ready_thread k : tid := cache k.

Definition _is_idle_thread_ptr t : bool := bool_decide (t = idle_thread).

Definition _is_prio1_higher_than_or_equal_to_prio2 (prio1 prio2 : Z) : bool := prio1 <=? prio2.
Definition _is_prio_higher_or_equal (prio1 prio2 : Z) : bool :=
  _is_prio1_higher_than_or_equal_to_prio2 prio1 prio2.
Definition _is_prio1_higher_than_prio2 (prio1 prio2 : Z) : bool := prio1 <? prio2.
Definition _is_prio_higher (prio test_prio : Z) : bool := _is_prio1_higher_than_prio2 prio test_prio.
Definition _is_prio1_lower_than_or_equal_to_prio2 (prio1 prio2 : Z) : bool := prio1 >=? prio2.
Definition _is_prio_lower_or_equal (prio1 prio2 : Z) : bool :=
  _is_prio1_lower_than_or_equal_to_prio2 prio1 prio2.
Definition _is_prio1_lower_than_prio2 (prio1 prio2 : Z) : bool := prio1 >? prio2.
Definition _is_prio_lower (prio1 prio2 : Z) : bool := _is_prio1_lower_than_prio2 prio1 prio2.

(** [_VALID_PRIO(prio, entry_point)]; [idle_entry] is
    [_is_idle_thread(entry_point)]. *)
Definition _VALID_PRIO (prio : Z) (idle_entry : bool) : bool :=
  ((prio =? K_IDLE_PRIO) && idle_entry)
  || (_is_prio_higher_or_equal prio K_LOWEST_APPLICATION_THREAD_PRIO
      && _is_prio_lower_or_equal prio K_HIGHEST_APPLICATION_THREAD_PRIO).

Definition _is_t1_higher_prio_than_t2 k (t1 t2 : tid) : bool :=
  _is_prio1_higher_than_prio2 (prio (thr k t1)) (prio (thr k t2)).

Definition _is_higher_prio_than_current k t : bool := _is_t1_higher_prio_than_t2 k t (current k).

Definition _is_coop k t : bool := prio (thr k t) <? 0.

(** [base.preempt]: [sched_locked] and the bits of [prio] bundled in a
    16-bit word, [sched_locked] in the high byte. *)
Definition preempt (x : k_thread) : Z := Z.lor (Z.shiftl (sched_locked x) 8) (u8 (prio x)).

Definition _is_preempt k t : bool := preempt (thr k t) <=? _PREEMPT_THRESHOLD.

Definition _is_current_execution_context_preemptible k : bool :=
  negb (_is_in_isr k) && _is_preempt k (current k).

Definition _is_under_prio_ceiling (prio : Z) : bool := prio >=? PRIORITY_CEILING.

Definition _get_new_prio_with_ceiling (prio : Z) : Z :=
  if _is_under_prio_ceiling prio then prio else PRIORITY_CEILING.

(** ** The ready queue and its bitmap *)

Definition _get_ready_q_prio_bmap_index (prio : Z) : Z := Z.shiftr (prio + _NUM_COOP_PRIO) 5.

(** an [int]: bit 31 is the sign bit *)
Definition _get_ready_q_prio_bit (prio : Z) : Z :=
  s32 (Z.shiftl 1 (Z.land (prio + _NUM_COOP_PRIO) 0x1f)).

Definition _get_ready_q_q_index (prio : Z) : Z := prio + _NUM_COOP_PRIO.

(** The [for (;; bitmap++)] loop: the first non-zero word, with its index. *)
Fixpoint first_bitmap (bitmap : Z) (l : list Z) : Z * Z :=
  match l with
  | [] => (bitmap, 0)
  | w :: l => if negb (w =? 0) then (bitmap, w) else first_bitmap (bitmap + 1) l
  end.

Definition _get_highest_ready_prio k : Z :=
  let '(bitmap, ready_range) :=
    if K_NUM_PRIORITIES <=? 32 then (0, nth 0 (prio_bmap k) 0)
    else first_bitmap 0 (prio_bmap k) in
  let abs_prio := (find_lsb_set ready_range - 1) + Z.shiftl bitmap 5 in
  abs_prio - _NUM_COOP_PRIO.

Definition _set_ready_q_prio_bit k (prio : Z) : kernel :=
  let bmap_index := Z.to_nat (_get_ready_q_prio_bmap_index prio) in
  let bmap := nth bmap_index (prio_bmap k) 0 in
  set_bmap k (<[bmap_index := u32 (Z.lor bmap (_get_ready_q_prio_bit prio))]> (prio_bmap k)).

Definition _clear_ready_q_prio_bit k (prio : Z) : kernel :=
  let bmap_index := Z.to_nat (_get_ready_q_prio_bmap_index prio) in
  let bmap := nth bmap_index (prio_bmap k) 0 in
  set_bmap k (<[bmap_index := u32 (Z.land bmap (Z.lnot (_get_ready_q_prio_bit prio)))]> (prio_bmap k)).

(** [sys_dlist_peek_head_not_empty] needs the list to be non-empty. *)
Definition _get_ready_q_head k : tid :=
  let prio := _get_highest_ready_prio k in
  let q_index := _get_ready_q_q_index prio in
  default 1%positive (Lst.peek_head (queues k) (RQ q_index)).

Definition _add_thread_to_ready_q k t : kernel :=
  let q_index := _get_ready_q_q_index (prio (thr k t)) in
  let k := _set_ready_q_prio_bit k (prio (thr k t)) in
  let k := set_queues k (Lst.append (queues k) (RQ q_index) t) in
  set_cache k (if _is_t1_higher_prio_than_t2 k t (cache k) then t else cache k).

Definition _remove_thread_from_ready_q k t : kernel :=
  let q_index := _get_ready_q_q_index (prio (thr k t)) in
  let k := set_queues k (Lst.remove (queues k) t) in
  let k := if Lst.is_empty (queues k) (RQ q_index)
           then _clear_ready_q_prio_bit k (prio (thr k t)) else k in
  set_cache k (if bool_decide (cache k = t) then _get_ready_q_head k else cache k).

Definition _move_thread_to_end_of_prio_q k t : kernel :=
  let q_index := _get_ready_q_q_index (prio (thr k t)) in
  if Lst.is_tail (queues k) (RQ q_index) t then k
  else
    let k := set_queues k (Lst.remove (queues k) t) in
    let k := set_queues k (Lst.append (queues k) (RQ q_index) t) in
    set_cache k (if bool_decide (cache k = t) then _get_ready_q_head k else cache k).

Definition __must_switch_threads k : bool :=
  _is_prio_higher (_get_highest_ready_prio k) (prio (thr k (current k))).

Definition _must_switch_threads k : bool :=
  _is_preempt k (current k) && __must_switch_threads k.

Definition _sched_lock k : kernel :=
  upd_thread k (current k) (fun x => with_locked (u8 (sched_locked x - 1)) x).

Definition _sched_unlock_no_reschedule k : kernel :=
  upd_thread k (current k) (fun x => with_locked (u8 (sched_locked x + 1)) x).

(** ** Thread states *)

Definition _set_thread_states k t (states : Z) : kernel :=
  upd_thread k t (fun x => with_state (u8 (Z.lor (thread_state x) states)) x).
Definition _reset_thread_states k t (states : Z) : kernel :=
  upd_thread k t (fun x => with_state (u8 (Z.land (thread_state x) (Z.lnot states))) x).
Definition _is_thread_state_set k t (state : Z) : bool :=
  negb (Z.land (thread_state (thr k t)) state =? 0).

Definition _mark_thread_as_suspended k t : kernel := _set_thread_states k t _THREAD_SUSPENDED.
Definition _mark_thread_as_not_suspended k t : kernel := _reset_thread_states k t _THREAD_SUSPENDED.

Definition _is_thread_timeout_expired k t : bool :=
  delta_ticks_from_prev (tmo k (TOthread t)) =? _EXPIRED.
Definition _is_thread_timeout_active k t : bool :=
  negb (delta_ticks_from_prev (tmo k (TOthread t)) =? _INACTIVE).

Definition _has_thread_started k t : bool := Z.land (thread_state (thr k t)) _THREAD_PRESTART =? 0.

Definition _is_thread_prevented_from_running k t : bool :=
  negb (Z.land (thread_state (thr k t))
          (Z.lor (Z.lor (Z.lor (Z.lor _THREAD_PENDING _THREAD_PRESTART) _THREAD_DEAD)
                    _THREAD_DUMMY) _THREAD_SUSPENDED) =? 0).

Definition _is_thread_ready k t : bool :=
  negb (_is_thread_prevented_from_running k t || _is_thread_timeout_active k t).

Definition _mark_thread_as_pending k t : kernel := _set_thread_states k t _THREAD_PENDING.
Definition _mark_thread_as_not_pending k t : kernel := _reset_thread_states k t _THREAD_PENDING.
Definition _is_thread_pending k t : bool := _is_thread_state_set k t _THREAD_PENDING.
Definition _is_thread_dummy k t : bool := _is_thread_state_set k t _THREAD_DUMMY.
Definition _mark_thread_as_polling k t : kernel := _set_thread_states k t _THREAD_POLLING.
Definition _mark_thread_as_not_polling k t : kernel := _reset_thread_states k t _THREAD_POLLING.
Definition _is_thread_polling k t : bool := _is_thread_state_set k t _THREAD_POLLING.
Definition _mark_thread_as_started k t : kernel := _reset_thread_states k t _THREAD_PRESTART.

(** ** Readying, changing priority, unpending *)

Definition _ready_thread k t : kernel :=
  let k := _mark_thread_as_started k t in
  if _is_thread_ready k t then _add_thread_to_ready_q k t else k.

Definition _thread_priority_set k t (prio : Z) : kernel :=
  if _is_thread_ready k t then
    let k := _remove_thread_from_ready_q k t in
    let k := upd_thread k t (with_prio (s8 prio)) in
    _add_thread_to_ready_q k t
  else upd_thread k t (with_prio (s8 prio)).

Definition _peek_first_pending_thread k wait_q : option tid := Lst.peek_head (queues k) wait_q.

(** The nodes after [from] on its list ([SYS_DLIST_ITERATE_FROM_NODE]): all of
    them when [from] is [NULL]. *)
Fixpoint nodes_after (from : option tid) (l : list tid) : list tid :=
  match from with
  | None => l
  | Some f => match l with
              | [] => []
              | x :: l => if decide (x = f) then l else nodes_after from l
              end
  end.

Fixpoint first_not_expired k (l : list tid) : option tid :=
  match l with
  | [] => None
  | t :: l => if _is_thread_timeout_expired k t then first_not_expired k l else Some t
  end.

Definition _find_first_thread_to_unpend k wait_q (from : option tid) : option tid :=
  if handling_timeouts k then first_not_expired k (nodes_after from (queues k !!! wait_q))
  else Lst.peek_head (queues k) wait_q.

Definition _unpend_thread k t : kernel :=
  let k := set_queues k (Lst.remove (queues k) t) in
  _mark_thread_as_not_pending k t.

Definition _unpend_first_thread k wait_q : kernel * option tid :=
  match _find_first_thread_to_unpend k wait_q None with
  | Some t => (_unpend_thread k t, Some t)
  | None => (k, None)
  end.

(** [_set_thread_return_value], [_set_thread_return_value_with_data] *)
Definition _set_thread_return_value k t (value : Z) : kernel := upd_thread k t (with_retval value).

Definition _set_thread_return_value_with_data k t (value data : Z) : kernel :=
  let k := _set_thread_return_value k t value in
  upd_thread k t (with_swap_data data).

End Ksched.
