(* ===== verification/ReadyQ.v ===== *)
(** * The ready queue: invariant and correctness

    [rq_inv X k] is the invariant of the ready queue, the wait queues and the
    thread states; [X] is the thread that a kernel routine currently has in
    its hands, off every queue ([None] between API calls).  The file proves
    what the bitmap search computes, and that the queue operations of
    Ksched.v preserve the invariant. *)

From S2P Require Import Prelude DList ListStore Kernel Ksched.

Local Open Scope Z_scope.

(** ** Bits of the words that the C code builds *)

Lemma testbit_u32 (x n : Z) : n < 32 -> Z.testbit (u32 x) n = Z.testbit x n.
Proof. intros. unfold u32. apply Z.mod_pow2_bits_low. lia. Qed.

Lemma testbit_u8 (x n : Z) : n < 8 -> Z.testbit (u8 x) n = Z.testbit x n.
Proof. intros. unfold u8. apply Z.mod_pow2_bits_low. lia. Qed.

Lemma testbit_s32 (x n : Z) : n < 32 -> Z.testbit (s32 x) n = Z.testbit x n.
Proof.
  intros. rewrite <- (Z.mod_pow2_bits_low (s32 x) 32 n), <- (Z.mod_pow2_bits_low x 32 n) by lia.
  f_equal. unfold s32. rewrite Zminus_mod_idemp_l. f_equal. lia.
Qed.

Lemma testbit_shl1 (b n : Z) : 0 <= b -> Z.testbit (Z.shiftl 1 b) n = bool_decide (n = b).
Proof.
  intros Hb. rewrite Z.shiftl_1_l. case_bool_decide as E.
  - subst. by apply Z.pow2_bits_true.
  - apply Z.pow2_bits_false. lia.
Qed.

Lemma land_1f (x : Z) : Z.land x 0x1f = x mod 32.
Proof. change 0x1f with (Z.ones 5). by rewrite Z.land_ones. Qed.

(** ** [find_lsb_set] *)

Lemma ffs_from_spec (n : nat) (i op : Z) :
  0 <= i ->
  (ffs_from n i op = 0 /\ (forall j, i <= j < i + Z.of_nat n -> Z.testbit op j = false)) \/
  (i < ffs_from n i op <= i + Z.of_nat n /\ Z.testbit op (ffs_from n i op - 1) = true /\
   (forall j, i <= j < ffs_from n i op - 1 -> Z.testbit op j = false)).
Proof.
  revert i. induction n as [|n IH]; intros i Hi; simpl; [left; split; [done|lia]|].
  destruct (Z.testbit op i) eqn:E.
  - right. replace (i + 1 - 1) with i by lia. split; [lia|]. split; [done|lia].
  - destruct (IH (i + 1) ltac:(lia)) as [[H1 H2]|(H1 & H2 & H3)].
    + left. split; [done|]. intros j Hj. destruct (decide (j = i)) as [->|]; [done|]. apply H2. lia.
    + right. split; [lia|]. split; [done|]. intros j Hj.
      destruct (decide (j = i)) as [->|]; [done|]. apply H3. lia.
Qed.

(** The least significant set bit is found whenever there is one. *)
Lemma find_lsb_set_spec (op : Z) :
  0 <= op < 2 ^ 32 -> op <> 0 ->
  0 <= find_lsb_set op - 1 < 32 /\ Z.testbit op (find_lsb_set op - 1) = true /\
  forall j, 0 <= j < find_lsb_set op - 1 -> Z.testbit op j = false.
Proof.
  intros Hr Hz. unfold find_lsb_set.
  destruct (ffs_from_spec 32 0 op ltac:(lia)) as [[_ H2]|(H1 & H2 & H3)].
  - exfalso. apply Hz, Z.bits_inj'. intros j Hj. rewrite Z.bits_0.
    destruct (decide (j < 32)); [apply H2; lia|].
    apply Z.bits_above_log2; [lia|].
    destruct (decide (op = 0)) as [->|]; [done|].
    assert (Z.log2 op < 32) by (apply Z.log2_lt_pow2; lia). lia.
  - split; [lia|]. done.
Qed.

Section Bitmap.
Context `{KConfig}.

(** Bit [i] of a bitmap of 32-bit words. *)
Definition bit_at (b : list Z) (i : Z) : bool := Z.testbit (nth (Z.to_nat (i / 32)) b 0) (i mod 32).

Definition words_ok (b : list Z) : Prop :=
  Z.of_nat (length b) = K_NUM_PRIO_BITMAPS /\ Forall (fun w => 0 <= w < 2 ^ 32) b.

Lemma num_bitmaps : K_NUM_PRIO_BITMAPS = (K_NUM_PRIORITIES + 31) / 32.
Proof. unfold K_NUM_PRIO_BITMAPS. by rewrite Z.shiftr_div_pow2. Qed.

Lemma num_bitmaps_bound (i : Z) : 0 <= i < K_NUM_PRIORITIES -> 0 <= i / 32 < K_NUM_PRIO_BITMAPS.
Proof.
  intros Hi. rewrite num_bitmaps. split; [apply Z.div_pos; lia|].
  apply Z.div_lt_upper_bound; [lia|]. pose proof (Z.div_mod (K_NUM_PRIORITIES + 31) 32 ltac:(lia)).
  pose proof (Z.mod_pos_bound (K_NUM_PRIORITIES + 31) 32 ltac:(lia)). lia.
Qed.

Lemma nth_word_range (b : list Z) (n : nat) : words_ok b -> 0 <= nth n b 0 < 2 ^ 32.
Proof.
  intros [_ Hf]. rewrite nth_lookup. destruct (b !! n) as [w|] eqn:E; [|simpl; lia].
  by apply (Forall_lookup_1 _ _ _ _ Hf E).
Qed.

Lemma nth_insert (b : list Z) (n m : nat) (x : Z) :
  (n < length b)%nat -> nth m (<[n := x]> b) 0 = if decide (m = n) then x else nth m b 0.
Proof.
  intros Hn. rewrite !nth_lookup. case_decide as E; subst.
  - by rewrite list_lookup_insert_eq.
  - by rewrite list_lookup_insert_ne.
Qed.

(** Storing a word whose bits are those of the old one except for bit [i]. *)
Lemma bit_at_store (b : list Z) (i : Z) (w : Z) (v : bool) :
  words_ok b -> 0 <= i < K_NUM_PRIORITIES ->
  (forall n, 0 <= n < 32 -> Z.testbit w n =
     if bool_decide (n = i mod 32) then v else Z.testbit (nth (Z.to_nat (i / 32)) b 0) n) ->
  forall j, 0 <= j -> bit_at (<[Z.to_nat (i / 32) := w]> b) j = if bool_decide (j = i) then v else bit_at b j.
Proof.
  intros [Hl _] Hi Hw j Hj. unfold bit_at. pose proof (num_bitmaps_bound i Hi).
  pose proof (Z.mod_pos_bound j 32 ltac:(lia)). pose proof (Z.div_pos j 32 ltac:(lia) ltac:(lia)).
  pose proof (Z.div_mod j 32 ltac:(lia)). pose proof (Z.div_mod i 32 ltac:(lia)).
  rewrite nth_insert by lia. case_decide as E.
  - rewrite Hw by lia. assert (j / 32 = i / 32) as Ed by lia. rewrite <- Ed.
    rewrite (bool_decide_ext (j mod 32 = i mod 32) (j = i)); [done|]. split; [lia|by intros ->].
  - rewrite bool_decide_false; [done|]. intros ->. done.
Qed.

Lemma words_ok_store (b : list Z) (n : nat) (x : Z) : words_ok b -> words_ok (<[n := u32 x]> b).
Proof.
  intros [Hl Hf]. split; [by rewrite length_insert|].
  apply Forall_insert; [done|apply u32_range].
Qed.

(** The priority's bit, as the code computes it. *)
Definition prio_range (p : Z) : Prop := K_HIGHEST_THREAD_PRIO <= p <= K_LOWEST_THREAD_PRIO.

Lemma prio_range_s8 (p : Z) : prio_range p -> - 2 ^ 7 <= p < 2 ^ 7.
Proof.
  unfold prio_range, K_HIGHEST_THREAD_PRIO, K_LOWEST_THREAD_PRIO.
  pose proof coop_range. pose proof preempt_range. lia.
Qed.

Lemma q_index_range (p : Z) : prio_range p -> 0 <= _get_ready_q_q_index p < K_NUM_PRIORITIES.
Proof.
  unfold prio_range, _get_ready_q_q_index, K_HIGHEST_THREAD_PRIO, K_LOWEST_THREAD_PRIO,
    K_NUM_PRIORITIES, _NUM_COOP_PRIO. lia.
Qed.

Lemma q_index_inj (p1 p2 : Z) : _get_ready_q_q_index p1 = _get_ready_q_q_index p2 -> p1 = p2.
Proof. unfold _get_ready_q_q_index. lia. Qed.

Lemma bmap_index_eq (p : Z) : _get_ready_q_prio_bmap_index p = _get_ready_q_q_index p / 32.
Proof. unfold _get_ready_q_prio_bmap_index, _get_ready_q_q_index. by rewrite Z.shiftr_div_pow2. Qed.

Lemma prio_bit_spec (p n : Z) :
  0 <= n < 32 -> Z.testbit (_get_ready_q_prio_bit p) n = bool_decide (n = _get_ready_q_q_index p mod 32).
Proof.
  intros Hn. unfold _get_ready_q_prio_bit, _get_ready_q_q_index.
  rewrite testbit_s32, land_1f by lia. apply testbit_shl1.
  apply Z.mod_pos_bound. lia.
Qed.

Lemma set_bit_spec k (p : Z) :
  words_ok (prio_bmap k) -> prio_range p ->
  words_ok (prio_bmap (_set_ready_q_prio_bit k p)) /\
  forall j, 0 <= j -> bit_at (prio_bmap (_set_ready_q_prio_bit k p)) j =
    if bool_decide (j = _get_ready_q_q_index p) then true else bit_at (prio_bmap k) j.
Proof.
  intros Hw Hp. unfold _set_ready_q_prio_bit. rewrite bmap_index_eq.
  cbn [prio_bmap set_bmap]. split; [by apply words_ok_store|].
  apply bit_at_store; [done|by apply q_index_range|].
  intros n Hn. rewrite testbit_u32, Z.lor_spec, prio_bit_spec by lia.
  case_bool_decide; [by rewrite orb_true_r|by rewrite orb_false_r].
Qed.

Lemma clear_bit_spec k (p : Z) :
  words_ok (prio_bmap k) -> prio_range p ->
  words_ok (prio_bmap (_clear_ready_q_prio_bit k p)) /\
  forall j, 0 <= j -> bit_at (prio_bmap (_clear_ready_q_prio_bit k p)) j =
    if bool_decide (j = _get_ready_q_q_index p) then false else bit_at (prio_bmap k) j.
Proof.
  intros Hw Hp. unfold _clear_ready_q_prio_bit. rewrite bmap_index_eq.
  cbn [prio_bmap set_bmap]. split; [by apply words_ok_store|].
  apply bit_at_store; [done|by apply q_index_range|].
  intros n Hn. rewrite testbit_u32, Z.land_spec, Z.lnot_spec, prio_bit_spec by lia.
  case_bool_decide; [by rewrite andb_false_r|by rewrite andb_true_r].
Qed.

(** ** The search for the highest ready priority *)

Lemma first_bitmap_spec (n : Z) (l : list Z) :
  Exists (fun w => w <> 0) l ->
  exists m, first_bitmap n l = (n + Z.of_nat m, nth m l 0) /\ nth m l 0 <> 0 /\
    (m < length l)%nat /\ forall j, (j < m)%nat -> nth j l 0 = 0.
Proof.
  intros Hex. revert n. induction Hex as [w l Hw|w l Hex IH]; intros n; simpl.
  - rewrite (proj2 (Z.eqb_neq w 0) Hw). simpl. exists 0%nat. rewrite Z.add_0_r.
    split; [done|]. split; [done|]. split; [lia|]. intros. lia.
  - destruct (Z.eqb_spec w 0) as [->|Hw]; simpl.
    + destruct (IH (n + 1)) as (m & E & H1 & H2 & H3). exists (S m). rewrite E.
      split; [f_equal; lia|]. split; [done|]. split; [lia|].
      intros [|j] Hj; [done|]. apply H3. lia.
    + exists 0%nat. rewrite Z.add_0_r. split; [done|]. split; [done|]. split; [lia|]. intros. lia.
Qed.

(** The selected word and its position: the first non-zero one. *)
Lemma range_select (b : list Z) :
  words_ok b -> Exists (fun w => w <> 0) b ->
  exists m : nat, (if K_NUM_PRIORITIES <=? 32 then (0, nth 0 b 0) else first_bitmap 0 b)
      = (Z.of_nat m, nth m b 0) /\ nth m b 0 <> 0 /\ forall j, (j < m)%nat -> nth j b 0 = 0.
Proof.
  intros [Hl Hf] Hex. destruct (Z.leb_spec K_NUM_PRIORITIES 32) as [Hle|Hgt].
  - exists 0%nat. split; [done|].
    assert (length b = 1%nat) as Hl1.
    { pose proof coop_range. pose proof preempt_range.
      rewrite num_bitmaps in Hl. unfold K_NUM_PRIORITIES in *.
      assert ((NUM_COOP_PRIORITIES + NUM_PREEMPT_PRIORITIES + 1 + 31) / 32 = 1); [|lia].
      symmetry. apply Z.div_unique with (NUM_COOP_PRIORITIES + NUM_PREEMPT_PRIORITIES); lia. }
    destruct b as [|w [|]]; try done. split; [|intros; lia].
    apply Exists_cons in Hex as [Hex|Hex]; [done|by apply Exists_nil in Hex].
  - destruct (first_bitmap_spec 0 b Hex) as (m & E & H1 & _ & H2). exists m. by rewrite E.
Qed.

(** [_get_highest_ready_prio] is the numerically least priority whose bit is set. *)
Lemma highest_ready_prio_spec k (i : Z) :
  words_ok (prio_bmap k) -> 0 <= i -> bit_at (prio_bmap k) i = true ->
  (forall j, 0 <= j < i -> bit_at (prio_bmap k) j = false) ->
  _get_ready_q_q_index (_get_highest_ready_prio k) = i.
Proof.
  intros Hw Hi Hb Hmin.
  assert (Hex : Exists (fun w => w <> 0) (prio_bmap k)).
  { apply Exists_exists. exists (nth (Z.to_nat (i / 32)) (prio_bmap k) 0).
    unfold bit_at in Hb. split.
    - destruct (decide (Z.to_nat (i / 32) < length (prio_bmap k))%nat); [by apply list_elem_of_In, nth_In|].
      rewrite nth_overflow, Z.bits_0 in Hb by lia. done.
    - intros E. by rewrite E, Z.bits_0 in Hb. }
  unfold _get_highest_ready_prio.
  destruct (range_select _ Hw Hex) as (m & -> & Hnz & Hzero).
  destruct (find_lsb_set_spec _ (nth_word_range _ m Hw) Hnz) as (Hr & Hset & Hlow).
  set (r := find_lsb_set (nth m (prio_bmap k) 0) - 1) in *.
  assert (Hfound : bit_at (prio_bmap k) (r + 32 * Z.of_nat m) = true).
  { unfold bit_at. replace ((r + 32 * Z.of_nat m) / 32) with (Z.of_nat m).
    2:{ rewrite Z.mul_comm, Z.div_add, Z.div_small by lia. lia. }
    rewrite Nat2Z.id, Z.mul_comm, Z.mod_add, Z.mod_small by lia. done. }
  unfold _get_ready_q_q_index. rewrite Z.shiftl_mul_pow2 by lia.
  assert (i <= r + 32 * Z.of_nat m).
  { destruct (decide (r + 32 * Z.of_nat m < i)); [|lia].
    rewrite Hmin in Hfound by lia. done. }
  enough (~ i < r + 32 * Z.of_nat m) by lia. intros Hlt.
  unfold bit_at in Hb. pose proof (Z.div_mod i 32 ltac:(lia)).
  pose proof (Z.mod_pos_bound i 32 ltac:(lia)). pose proof (Z.div_pos i 32 ltac:(lia) ltac:(lia)).
  destruct (decide (Z.to_nat (i / 32) = m)) as [E|E].
  - rewrite E, Hlow in Hb by lia. done.
  - rewrite Hzero, Z.bits_0 in Hb by lia. done.
Qed.
End Bitmap.

(** ** Thread states *)

Lemma thr_upd_thread (k : kernel) (t u : tid) (f : k_thread -> k_thread) :
  thr (upd_thread k t f) u = if decide (u = t) then f (thr k t) else thr k u.
Proof.
  unfold thr, upd_thread. cbn [threads set_threads]. case_decide as E; subst.
  - by rewrite lookup_total_insert_eq.
  - by rewrite lookup_total_insert_ne.
Qed.

Lemma thr_upd_same (k : kernel) (t : tid) (f : k_thread -> k_thread) :
  thr (upd_thread k t f) t = f (thr k t).
Proof. rewrite thr_upd_thread. by rewrite decide_True. Qed.

Lemma thr_upd_other (k : kernel) (t u : tid) (f : k_thread -> k_thread) :
  u <> t -> thr (upd_thread k t f) u = thr k u.
Proof. intros. rewrite thr_upd_thread. by rewrite decide_False. Qed.

Lemma tmo_upd_timeout (k : kernel) (o p : toid) (f : _timeout -> _timeout) :
  tmo (upd_timeout k o f) p = if decide (p = o) then f (tmo k o) else tmo k p.
Proof.
  unfold tmo, upd_timeout. cbn [timeouts set_timeouts]. case_decide as E; subst.
  - by rewrite lookup_total_insert_eq.
  - by rewrite lookup_total_insert_ne.
Qed.

(** The thread states as bits. *)
Definition st_bit (x : k_thread) (n : Z) : bool := Z.testbit (thread_state x) n.

Definition prevented (x : k_thread) : bool :=
  st_bit x 0 || st_bit x 1 || st_bit x 2 || st_bit x 3 || st_bit x 4.

Lemma land_31 (x : Z) :
  (Z.land x 31 =? 0) =
  negb (Z.testbit x 0 || Z.testbit x 1 || Z.testbit x 2 || Z.testbit x 3 || Z.testbit x 4).
Proof.
  apply eq_bool_prop_intro. rewrite Is_true_true, Z.eqb_eq, Is_true_true, negb_true_iff, !orb_false_iff.
  change 31 with (Z.ones 5). split.
  - intros E. assert (forall n, 0 <= n < 5 -> Z.testbit x n = false) as Hb.
    { intros n Hn. assert (Z.testbit (Z.land x (Z.ones 5)) n = false) as Hz by (by rewrite E, Z.bits_0).
      rewrite Z.land_spec, Z.ones_spec_low, andb_true_r in Hz by lia. done. }
    rewrite !Hb by lia. done.
  - intros ((((H0 & H1) & H2) & H3) & H4). apply Z.bits_inj'. intros n Hn.
    rewrite Z.bits_0, Z.land_spec. destruct (decide (n < 5)) as [Hlt|].
    + assert (n = 0 \/ n = 1 \/ n = 2 \/ n = 3 \/ n = 4) as E by lia.
      destruct E as [->|[->|[->|[->| ->]]]]; by rewrite ?H0, ?H1, ?H2, ?H3, ?H4.
    + rewrite Z.ones_spec_high, andb_false_r by lia. done.
Qed.

Lemma prevented_spec (k : kernel) (t : tid) : _is_thread_prevented_from_running k t = prevented (thr k t).
Proof.
  unfold _is_thread_prevented_from_running, prevented, st_bit.
  change (Z.lor _ _) with 31. rewrite land_31. by rewrite negb_involutive.
Qed.

Lemma state_set_spec (k : kernel) (t : tid) (n : Z) :
  0 <= n -> _is_thread_state_set k t (Z.shiftl 1 n) = st_bit (thr k t) n.
Proof.
  intros Hn. unfold _is_thread_state_set, st_bit. rewrite Z.shiftl_1_l, land_pow2 by done.
  by rewrite negb_involutive.
Qed.

Lemma pending_spec (k : kernel) (t : tid) : _is_thread_pending k t = st_bit (thr k t) 1.
Proof. by apply state_set_spec. Qed.

Lemma has_started_spec (k : kernel) (t : tid) : _has_thread_started k t = negb (st_bit (thr k t) 2).
Proof. unfold _has_thread_started, st_bit. by apply (land_pow2 _ 2). Qed.

Lemma st_bit_set (x : k_thread) (n m : Z) :
  0 <= n -> m < 8 ->
  st_bit (with_state (u8 (Z.lor (thread_state x) (Z.shiftl 1 n))) x) m = st_bit x m || bool_decide (m = n).
Proof.
  intros Hn Hm. unfold st_bit. cbn [thread_state with_state].
  rewrite testbit_u8 by lia. rewrite Z.shiftl_1_l. by apply lor_pow2_spec.
Qed.

Lemma st_bit_clear (x : k_thread) (n m : Z) :
  0 <= n -> 0 <= m < 8 ->
  st_bit (with_state (u8 (Z.land (thread_state x) (Z.lnot (Z.shiftl 1 n)))) x) m
  = st_bit x m && bool_decide (m <> n).
Proof.
  intros Hn Hm. unfold st_bit. cbn [thread_state with_state].
  rewrite testbit_u8 by lia. rewrite Z.shiftl_1_l. apply clear_pow2_spec; lia.
Qed.

(** A thread is runnable when no state prevents it and no timeout is active. *)
Lemma ready_spec (k : kernel) (t : tid) :
  _is_thread_ready k t = true <->
  prevented (thr k t) = false /\ delta_ticks_from_prev (tmo k (TOthread t)) = _INACTIVE.
Proof.
  unfold _is_thread_ready, _is_thread_timeout_active. rewrite prevented_spec.
  rewrite negb_true_iff, orb_false_iff, negb_false_iff, Z.eqb_eq. done.
Qed.

Lemma ready_not_pending (k : kernel) (t : tid) :
  _is_thread_ready k t = true -> _is_thread_pending k t = false.
Proof.
  rewrite ready_spec, pending_spec. unfold prevented. intros [Hp _].
  rewrite !orb_false_iff in Hp. tauto.
Qed.

(** Readiness and pending of [u] depend on its own state and timeout only. *)
Lemma ready_ext (k k' : kernel) (u : tid) :
  thread_state (thr k' u) = thread_state (thr k u) ->
  (delta_ticks_from_prev (tmo k' (TOthread u)) = _INACTIVE <->
   delta_ticks_from_prev (tmo k (TOthread u)) = _INACTIVE) ->
  _is_thread_ready k' u = _is_thread_ready k u.
Proof.
  intros Hs Hd. apply eq_bool_prop_intro. rewrite !Is_true_true, !ready_spec.
  unfold prevented, st_bit. rewrite Hs. tauto.
Qed.

Lemma pending_ext (k k' : kernel) (u : tid) :
  thread_state (thr k' u) = thread_state (thr k u) -> _is_thread_pending k' u = _is_thread_pending k u.
Proof. intros Hs. rewrite !pending_spec. unfold st_bit. by rewrite Hs. Qed.

(** ** The invariant *)

Section Inv.
Context `{KConfig}.
Implicit Types (k : kernel) (t u : tid) (X : option tid).

(** [RQ i] is the first non-empty ready queue. *)
Definition highest k (i : Z) : Prop :=
  queues k !!! RQ i <> [] /\ forall j, j < i -> queues k !!! RQ j = [].

Record rq_inv X k : Prop := {
  (** priorities are in the configured range *)
  ri_prio : forall t, prio_range (prio (thr k t));
  (** the ready queues hold the runnable threads, each in the slot of its priority *)
  ri_rq : forall t i, t ∈ queues k !!! RQ i <->
    X <> Some t /\ _is_thread_ready k t = true /\ i = _get_ready_q_q_index (prio (thr k t));
  (** the wait queues hold the pending threads, each on one queue *)
  ri_wq : forall t w, t ∈ queues k !!! WQ w -> X <> Some t /\ _is_thread_pending k t = true;
  ri_pend : forall t, X <> Some t -> _is_thread_pending k t = true -> exists w, t ∈ queues k !!! WQ w;
  ri_uniq : forall t w w', t ∈ queues k !!! WQ w -> t ∈ queues k !!! WQ w' -> w = w';
  ri_nodup : forall q, NoDup (queues k !!! q);
  (** the bitmap says which ready queues are non-empty *)
  ri_words : words_ok (prio_bmap k);
  ri_bits : forall i, 0 <= i -> bit_at (prio_bmap k) i = bool_decide (queues k !!! RQ i <> []);
  (** the cache is the next thread to run *)
  ri_cache : forall i, highest k i -> head (queues k !!! RQ i) = Some (cache k)
}.

(** The invariant depends on the parts of the state it mentions only. *)
Lemma rq_inv_agree X k k' :
  queues k' = queues k -> prio_bmap k' = prio_bmap k -> cache k' = cache k ->
  (forall u, prio_range (prio (thr k' u))) ->
  (forall u, X <> Some u -> prio (thr k' u) = prio (thr k u) /\
     _is_thread_ready k' u = _is_thread_ready k u /\ _is_thread_pending k' u = _is_thread_pending k u) ->
  rq_inv X k -> rq_inv X k'.
Proof.
  intros Hq Hb Hc Hp Hu [H1 H2 H3 H4 H5 H6 H7 H8 H9].
  split; unfold highest in *; rewrite ?Hq, ?Hb, ?Hc; try done.
  - intros t i. rewrite H2. split; intros (Hx & Hr & ->); destruct (Hu t Hx) as (E1 & E2 & E3).
    + by rewrite E1, E2.
    + by rewrite <- E1, <- E2.
  - intros t w Ht. destruct (H3 t w Ht) as [Hx Hpd]. split; [done|].
    by rewrite (proj2 (proj2 (Hu t Hx))).
  - intros t Hx Hpd. rewrite (proj2 (proj2 (Hu t Hx))) in Hpd. by apply H4.
Qed.

Lemma ri_index X k t (i : Z) : rq_inv X k -> t ∈ queues k !!! RQ i -> 0 <= i < K_NUM_PRIORITIES.
Proof.
  intros Hi Ht. apply (ri_rq _ _ Hi) in Ht as (_ & _ & ->).
  apply q_index_range. by apply (ri_prio _ _ Hi).
Qed.

Lemma highest_unique k (i j : Z) : highest k i -> highest k j -> i = j.
Proof.
  intros [H1 H2] [H3 H4]. destruct (Z.lt_trichotomy i j) as [|[|]]; [|done|].
  - by rewrite H4 in H1.
  - by rewrite H2 in H3.
Qed.

Lemma highest_exists X k (i : Z) :
  rq_inv X k -> queues k !!! RQ i <> [] -> exists i0, highest k i0 /\ i0 <= i.
Proof.
  intros Hi Hne.
  assert (Hneg : forall j, j < 0 -> queues k !!! RQ j = []).
  { intros j Hj. destruct (queues k !!! RQ j) as [|t l] eqn:E; [done|].
    assert (t ∈ queues k !!! RQ j) as Ht by (rewrite E; left).
    apply (ri_index _ _ _ _ Hi) in Ht. lia. }
  assert (0 <= i) by (destruct (decide (i < 0)); [by rewrite Hneg in Hne|lia]).
  assert (forall n : nat, (exists i0, highest k i0 /\ i0 < Z.of_nat n) \/
            (forall j, j < Z.of_nat n -> queues k !!! RQ j = [])) as Hs.
  { induction n as [|n [(i0 & Hh & Hlt)|IH]].
    - right. intros j Hj. apply Hneg. lia.
    - left. exists i0. split; [done|lia].
    - destruct (decide (queues k !!! RQ (Z.of_nat n) = [])) as [E|E].
      + right. intros j Hj. destruct (decide (j = Z.of_nat n)) as [->|]; [done|]. apply IH. lia.
      + left. exists (Z.of_nat n). split; [done|lia]. }
  destruct (Hs (S (Z.to_nat i))) as [(i0 & Hh & Hlt)|Hall].
  - exists i0. split; [done|lia].
  - exfalso. apply Hne, Hall. lia.
Qed.

(** The bitmap search finds the first non-empty ready queue. *)
Lemma highest_prio_of_bits k (i : Z) :
  words_ok (prio_bmap k) ->
  (forall j, 0 <= j -> bit_at (prio_bmap k) j = bool_decide (queues k !!! RQ j <> [])) ->
  0 <= i -> highest k i -> _get_ready_q_q_index (_get_highest_ready_prio k) = i.
Proof.
  intros Hw Hb Hi [H1 H2]. apply highest_ready_prio_spec; [done|done|..].
  - by rewrite Hb, bool_decide_true.
  - intros j Hj. rewrite Hb by lia. apply bool_decide_false.
    intros X. apply X, H2. lia.
Qed.

Lemma ready_q_head_of_bits k (i : Z) :
  words_ok (prio_bmap k) ->
  (forall j, 0 <= j -> bit_at (prio_bmap k) j = bool_decide (queues k !!! RQ j <> [])) ->
  0 <= i -> highest k i -> head (queues k !!! RQ i) = Some (_get_ready_q_head k).
Proof.
  intros Hw Hb Hi Hh. unfold _get_ready_q_head, Lst.peek_head.
  rewrite (highest_prio_of_bits k i Hw Hb Hi Hh).
  destruct Hh as [Hh _]. by destruct (queues k !!! RQ i).
Qed.

(** ** Adding a thread *)

Lemma add_queue k t q :
  queues (_add_thread_to_ready_q k t) !!! q =
  if decide (q = RQ (_get_ready_q_q_index (prio (thr k t)))) then queues k !!! q ++ [t] else queues k !!! q.
Proof.
  unfold _add_thread_to_ready_q. cbn [queues set_queues set_cache].
  case_decide as E; subst; [by rewrite Lst.append_same|by rewrite Lst.append_other].
Qed.

(** The cache is on the first queue, so its priority is that of the queue. *)
Lemma cache_on_highest X k (i : Z) :
  rq_inv X k -> highest k i ->
  cache k ∈ queues k !!! RQ i /\ i = _get_ready_q_q_index (prio (thr k (cache k))).
Proof.
  intros Hi Hh. pose proof (ri_cache _ _ Hi i Hh) as Hhd.
  assert (cache k ∈ queues k !!! RQ i) as Hc.
  { destruct (queues k !!! RQ i); [done|]. simplify_eq/=. left. }
  split; [done|]. by apply (ri_rq _ _ Hi) in Hc as (_ & _ & ?).
Qed.

Lemma in_transit_free X k t q : rq_inv X k -> X = Some t -> t ∉ queues k !!! q.
Proof.
  intros Hi -> Hq. destruct q as [j|w].
  - by apply (ri_rq _ _ Hi) in Hq as [? _].
  - by apply (ri_wq _ _ Hi) in Hq as [? _].
Qed.

Lemma add_cache_ok k t (i : Z) :
  rq_inv (Some t) k -> cache k = t \/ (exists i, queues k !!! RQ i <> []) ->
  highest (_add_thread_to_ready_q k t) i ->
  head (queues (_add_thread_to_ready_q k t) !!! RQ i) = Some (cache (_add_thread_to_ready_q k t)).
Proof.
  intros Hi Hc [Hne Hlow].
  change (cache (_add_thread_to_ready_q k t)) with
    (if prio (thr k t) <? prio (thr k (cache k)) then t else cache k).
  assert (Hlow' : forall j, j < i -> queues k !!! RQ j = [] /\ j <> _get_ready_q_q_index (prio (thr k t))).
  { intros j Hj. specialize (Hlow j Hj). rewrite add_queue in Hlow.
    case_decide as E; [by destruct (queues k !!! RQ j)|]. split; [done|]. by intros ->. }
  rewrite add_queue in Hne |- *. destruct (decide (queues k !!! RQ i = [])) as [Ee|Ee].
  - (* the thread is alone in the first queue *)
    rewrite Ee in Hne |- *. case_decide as E; [|done]. injection E as E. simpl. f_equal.
    destruct Hc as [->|[j Hj]]; [by destruct (_ <? _)|].
    destruct (highest_exists _ _ _ Hi Hj) as (i0 & Hh & _).
    destruct (cache_on_highest _ _ _ Hi Hh) as [_ Hix]. destruct Hh as [Hh _].
    destruct (Z.ltb_spec (prio (thr k t)) (prio (thr k (cache k)))) as [|Hge]; [done|exfalso].
    destruct (decide (i0 < i)) as [Hlt|]; [by rewrite (proj1 (Hlow' i0 Hlt)) in Hh|].
    assert (i0 = i) as -> by (unfold _get_ready_q_q_index in *; lia). done.
  - (* the first queue was not empty: its head stays the cache *)
    assert (highest k i) as Hh by (split; [done|intros j Hj; by apply Hlow']).
    destruct (cache_on_highest _ _ _ Hi Hh) as [_ Hix]. pose proof (ri_cache _ _ Hi i Hh) as Hhd.
    destruct (Z.ltb_spec (prio (thr k t)) (prio (thr k (cache k)))) as [Hlt|_].
    + destruct (Hlow' (_get_ready_q_q_index (prio (thr k t)))); [|done].
      unfold _get_ready_q_q_index in *. lia.
    + case_decide; [|done]. destruct (queues k !!! RQ i); [done|]. by simplify_eq/=.
Qed.

Lemma add_inv k t :
  rq_inv (Some t) k -> _is_thread_ready k t = true ->
  cache k = t \/ (exists i, queues k !!! RQ i <> []) ->
  rq_inv None (_add_thread_to_ready_q k t).
Proof.
  intros Hi Hr Hc. pose proof (fun q => in_transit_free _ _ t q Hi eq_refl) as Hnot.
  destruct (set_bit_spec k (prio (thr k t)) (ri_words _ _ Hi) (ri_prio _ _ Hi t)) as [Hw Hb].
  split.
  - apply (ri_prio _ _ Hi).
  - intros u i. rewrite add_queue.
    change (_is_thread_ready (_add_thread_to_ready_q k t) u) with (_is_thread_ready k u).
    change (thr (_add_thread_to_ready_q k t) u) with (thr k u).
    pose proof (ri_rq _ _ Hi u i) as Hu. case_decide as E; simplify_eq.
    + rewrite elem_of_app, list_elem_of_singleton.
      destruct (decide (u = t)) as [->|]; naive_solver.
    + rewrite Hu. split; [naive_solver|]. intros (_ & H1 & ->).
      split; [|done]. by intros [= <-].
  - intros u w. rewrite add_queue, decide_False by done. intros Hu.
    split; [done|]. by apply (ri_wq _ _ Hi) in Hu as [_ ?].
  - intros u _ Hp. change (_is_thread_pending (_add_thread_to_ready_q k t) u)
      with (_is_thread_pending k u) in Hp.
    destruct (ri_pend _ _ Hi u) as [w Hu]; [|done|].
    + intros [= <-]. by rewrite (ready_not_pending _ _ Hr) in Hp.
    + exists w. by rewrite add_queue, decide_False.
  - intros u w w'. rewrite !add_queue, !decide_False by done. apply (ri_uniq _ _ Hi).
  - intros q. rewrite add_queue. case_decide as E; [|apply (ri_nodup _ _ Hi)].
    apply NoDup_app. split; [apply (ri_nodup _ _ Hi)|]. split; [|apply NoDup_singleton].
    intros u Hu ->%list_elem_of_singleton. by apply (Hnot q).
  - done.
  - intros i Hi0. change (prio_bmap (_add_thread_to_ready_q k t))
      with (prio_bmap (_set_ready_q_prio_bit k (prio (thr k t)))).
    rewrite Hb, add_queue by done. case_bool_decide as E; subst.
    + rewrite decide_True by done. symmetry. apply bool_decide_true.
      by destruct (queues k !!! RQ _).
    + rewrite decide_False by (by intros [=]). by apply (ri_bits _ _ Hi).
  - intros i. by apply add_cache_ok.
Qed.

(** ** Removing a thread *)

(** The state before the cache is updated: the node unlinked and the bit
    cleared when the queue became empty. *)
Definition removed k t : kernel :=
  let k1 := set_queues k (Lst.remove (queues k) t) in
  if Lst.is_empty (queues k1) (RQ (_get_ready_q_q_index (prio (thr k t))))
  then _clear_ready_q_prio_bit k1 (prio (thr k t)) else k1.

Lemma remove_unfold k t :
  _remove_thread_from_ready_q k t =
  set_cache (removed k t) (if bool_decide (cache k = t) then _get_ready_q_head (removed k t) else cache k).
Proof. unfold _remove_thread_from_ready_q, removed. cbv zeta. by destruct (Lst.is_empty _ _). Qed.

Lemma removed_queue k t q : queues (removed k t) !!! q = filter (fun u => u <> t) (queues k !!! q).
Proof.
  unfold removed. destruct (Lst.is_empty _ _); cbn [queues set_queues set_bmap _clear_ready_q_prio_bit];
    apply Lst.lookup_remove.
Qed.

Lemma removed_thr k t u : thr (removed k t) u = thr k u.
Proof. unfold removed. by destruct (Lst.is_empty _ _). Qed.

Lemma removed_ready k t u : _is_thread_ready (removed k t) u = _is_thread_ready k u.
Proof. unfold removed. by destruct (Lst.is_empty _ _). Qed.

Lemma removed_pending k t u : _is_thread_pending (removed k t) u = _is_thread_pending k u.
Proof. unfold removed. by destruct (Lst.is_empty _ _). Qed.

Lemma removed_cache k t : cache (removed k t) = cache k.
Proof. unfold removed. by destruct (Lst.is_empty _ _). Qed.

(** Unlinking leaves the other ready queues alone. *)
Lemma filter_other_rq X k t (j : Z) :
  rq_inv X k -> j <> _get_ready_q_q_index (prio (thr k t)) ->
  filter (fun u => u <> t) (queues k !!! RQ j) = queues k !!! RQ j.
Proof. intros Hi Hj. apply filter_ne_id. intros Ht. by apply (ri_rq _ _ Hi) in Ht as (_ & _ & ?). Qed.

Lemma removed_bits k t :
  rq_inv None k -> _is_thread_ready k t = true ->
  words_ok (prio_bmap (removed k t)) /\
  forall j, 0 <= j -> bit_at (prio_bmap (removed k t)) j = bool_decide (queues (removed k t) !!! RQ j <> []).
Proof.
  intros Hi Hr. set (qi := _get_ready_q_q_index (prio (thr k t))).
  assert (Ht : t ∈ queues k !!! RQ qi) by (by apply (ri_rq _ _ Hi)).
  assert (Hother : forall j, j <> qi -> filter (fun u => u <> t) (queues k !!! RQ j) = queues k !!! RQ j).
  { intros j. by apply (filter_other_rq None). }
  enough (words_ok (prio_bmap (removed k t)) /\ forall j, 0 <= j ->
    bit_at (prio_bmap (removed k t)) j = bool_decide (filter (fun u => u <> t) (queues k !!! RQ j) <> []))
    as [? Hb] by (split; [done|]; intros j Hj; rewrite removed_queue; by apply Hb).
  unfold removed. fold qi.
  set (k1 := set_queues k (Lst.remove (queues k) t)).
  destruct (Lst.is_empty (queues k1) (RQ qi)) eqn:E;
    unfold Lst.is_empty, k1 in E; cbn [queues set_queues] in E; rewrite Lst.lookup_remove in E.
  - apply bool_decide_eq_true in E.
    destruct (clear_bit_spec k1 (prio (thr k t)) (ri_words _ _ Hi) (ri_prio _ _ Hi t)) as [Hw Hb].
    split; [done|]. intros j Hj. rewrite Hb by done. fold qi. case_bool_decide as Ej; subst.
    + rewrite E. symmetry. apply bool_decide_false. by intros [].
    + rewrite Hother by done. by apply (ri_bits _ _ Hi).
  - apply bool_decide_eq_false in E. split; [apply (ri_words _ _ Hi)|].
    intros j Hj. change (prio_bmap k1) with (prio_bmap k). rewrite (ri_bits _ _ Hi) by done.
    destruct (decide (j = qi)) as [->|Ej]; [|by rewrite Hother].
    rewrite !bool_decide_true; [done..|]. destruct (queues k !!! RQ qi); [by apply not_elem_of_nil in Ht|done].
Qed.

Lemma highest_range X k (i : Z) : rq_inv X k -> highest k i -> 0 <= i < K_NUM_PRIORITIES.
Proof.
  intros Hi [Hh _]. destruct (queues k !!! RQ i) as [|u l] eqn:E; [done|].
  apply (ri_index X k u i Hi). rewrite E. left.
Qed.

Lemma remove_cache_ok k t (i : Z) :
  rq_inv None k -> _is_thread_ready k t = true -> highest (removed k t) i ->
  head (queues (removed k t) !!! RQ i) =
  Some (if bool_decide (cache k = t) then _get_ready_q_head (removed k t) else cache k).
Proof.
  intros Hi Hr Hh. destruct (removed_bits k t Hi Hr) as [Hw Hb].
  assert (Hne : queues k !!! RQ i <> []).
  { destruct Hh as [Hh _]. rewrite removed_queue in Hh. by destruct (queues k !!! RQ i). }
  case_bool_decide as Ec.
  - apply ready_q_head_of_bits; [done|done| |done].
    destruct (queues k !!! RQ i) as [|u l] eqn:E; [done|].
    apply (ri_index None k u i Hi). rewrite E. left.
  - destruct (highest_exists _ _ _ Hi Hne) as (i0 & Hh0 & Hle).
    pose proof (ri_cache _ _ Hi i0 Hh0) as Hhd.
    assert (Hf : head (filter (fun u => u <> t) (queues k !!! RQ i0)) = Some (cache k)).
    { destruct (queues k !!! RQ i0); [done|]. simplify_eq/=. by rewrite filter_cons_True. }
    assert (i0 = i) as ->; [|by rewrite removed_queue].
    destruct (Z.lt_trichotomy i0 i) as [Hlt|[|]]; [|done|lia].
    destruct Hh as [_ Hlow]. specialize (Hlow i0 Hlt). rewrite removed_queue in Hlow.
    by rewrite Hlow in Hf.
Qed.

Lemma remove_inv k t :
  rq_inv None k -> _is_thread_ready k t = true -> rq_inv (Some t) (_remove_thread_from_ready_q k t).
Proof.
  intros Hi Hr. rewrite remove_unfold. destruct (removed_bits k t Hi Hr) as [Hw Hb].
  set (c := if bool_decide _ then _ else _).
  split; cbn [queues set_cache prio_bmap cache].
  - intros u. change (thr (set_cache (removed k t) c) u) with (thr (removed k t) u).
    rewrite removed_thr. apply (ri_prio _ _ Hi).
  - intros u i. change (thr (set_cache (removed k t) c) u) with (thr (removed k t) u).
    change (_is_thread_ready (set_cache (removed k t) c) u) with (_is_thread_ready (removed k t) u).
    rewrite removed_queue, removed_thr, removed_ready, list_elem_of_filter, (ri_rq _ _ Hi). naive_solver.
  - intros u w. change (_is_thread_pending (set_cache (removed k t) c) u) with (_is_thread_pending (removed k t) u).
    rewrite removed_queue, removed_pending, list_elem_of_filter. intros [Hne Hu].
    apply (ri_wq _ _ Hi) in Hu as [_ Hu]. split; [congruence|done].
  - intros u Hx. change (_is_thread_pending (set_cache (removed k t) c) u) with (_is_thread_pending (removed k t) u).
    rewrite removed_pending. intros Hp. destruct (ri_pend _ _ Hi u) as [w Hu]; [done|done|].
    exists w. rewrite removed_queue, list_elem_of_filter. split; [congruence|done].
  - intros u w w'. rewrite !removed_queue, !list_elem_of_filter. intros [_ H1] [_ H2].
    by eapply (ri_uniq _ _ Hi).
  - intros q. rewrite removed_queue. apply NoDup_filter, (ri_nodup _ _ Hi).
  - done.
  - done.
  - intros i Hh. by apply remove_cache_ok.
Qed.

(** ** Moving a thread to the end of its queue *)

(** Taking a ready thread off the queues and appending it to its own again. *)
Lemma requeued k t q :
  rq_inv None k -> _is_thread_ready k t = true ->
  let qi := _get_ready_q_q_index (prio (thr k t)) in
  Lst.append (Lst.remove (queues k) t) (RQ qi) t !!! q =
  if decide (q = RQ qi) then filter (fun u => u <> t) (queues k !!! RQ qi) ++ [t] else queues k !!! q.
Proof.
  intros Hi Hr qi. case_decide as E; subst.
  - by rewrite Lst.append_same, Lst.lookup_remove.
  - rewrite Lst.append_other, Lst.lookup_remove by done. apply filter_ne_id. intros Hu. destruct q as [j|w].
    + apply (ri_rq _ _ Hi) in Hu as (_ & _ & ->). done.
    + apply (ri_wq _ _ Hi) in Hu as [_ Hu]. by rewrite (ready_not_pending _ _ Hr) in Hu.
Qed.

Lemma move_to_end_queue k t q :
  rq_inv None k -> _is_thread_ready k t = true ->
  let qi := _get_ready_q_q_index (prio (thr k t)) in
  queues (_move_thread_to_end_of_prio_q k t) !!! q =
  if decide (q = RQ qi) then filter (fun u => u <> t) (queues k !!! RQ qi) ++ [t] else queues k !!! q.
Proof.
  intros Hi Hr qi. unfold _move_thread_to_end_of_prio_q. cbv zeta. fold qi. unfold Lst.is_tail.
  case_bool_decide as Hl; [|by apply requeued]. case_decide; [subst|done].
  apply last_Some in Hl as [l Hl]. pose proof (ri_nodup _ _ Hi (RQ qi)) as Hnd. rewrite Hl in *.
  by rewrite filter_ne_split, app_nil_r.
Qed.

Lemma move_to_end_inv k t :
  rq_inv None k -> _is_thread_ready k t = true -> rq_inv None (_move_thread_to_end_of_prio_q k t).
Proof.
  intros Hi Hr. unfold _move_thread_to_end_of_prio_q. cbv zeta.
  destruct (Lst.is_tail _ _ _); [done|]. set (qi := _get_ready_q_q_index (prio (thr k t))).
  cbn [queues set_queues cache].
  set (k1 := set_queues (set_queues k _) _).
  assert (Ht : t ∈ queues k !!! RQ qi) by (by apply (ri_rq _ _ Hi)).
  assert (Hq : forall q, queues k1 !!! q =
    if decide (q = RQ qi) then filter (fun u => u <> t) (queues k !!! RQ qi) ++ [t] else queues k !!! q).
  { intros q. by apply requeued. }
  assert (Hm : forall u q, u ∈ queues k1 !!! q <-> u ∈ queues k !!! q).
  { intros u q. rewrite Hq. case_decide; [|done]. subst.
    rewrite elem_of_app, list_elem_of_filter, list_elem_of_singleton.
    destruct (decide (u = t)) as [->|]; naive_solver. }
  assert (He : forall q, queues k1 !!! q <> [] <-> queues k !!! q <> []).
  { intros q. rewrite Hq. case_decide; [|done]. subst. split; intros _.
    - by destruct (queues k !!! RQ qi); [apply not_elem_of_nil in Ht|].
    - by destruct (filter _ _). }
  assert (Hbits : forall i, 0 <= i -> bit_at (prio_bmap k1) i = bool_decide (queues k1 !!! RQ i <> [])).
  { intros i Hi0. change (prio_bmap k1) with (prio_bmap k). rewrite (ri_bits _ _ Hi) by done.
    apply bool_decide_ext. symmetry. apply He. }
  split; cbn [queues set_cache prio_bmap cache].
  - apply (ri_prio _ _ Hi).
  - intros u i. rewrite Hm. apply (ri_rq _ _ Hi).
  - intros u w. rewrite Hm. apply (ri_wq _ _ Hi).
  - intros u Hx Hp. destruct (ri_pend _ _ Hi u Hx Hp) as [w Hw]. exists w. by rewrite Hm.
  - intros u w w'. rewrite !Hm. apply (ri_uniq _ _ Hi).
  - intros q. rewrite Hq. case_decide; [|apply (ri_nodup _ _ Hi)].
    apply NoDup_app. split; [apply NoDup_filter, (ri_nodup _ _ Hi)|]. split; [|apply NoDup_singleton].
    intros u [Hu _]%list_elem_of_filter ->%list_elem_of_singleton. done.
  - apply (ri_words _ _ Hi).
  - done.
  - intros i Hh.
    change (highest k1 i) in Hh.
    assert (highest k i) as Hh0.
    { destruct Hh as [H1 H2]. split; [by apply He|]. intros j Hj. specialize (H2 j Hj).
      destruct (decide (queues k !!! RQ j = [])) as [|Hn]; [done|]. by apply He in Hn. }
    case_bool_decide as Ec.
    + apply ready_q_head_of_bits; [apply (ri_words _ _ Hi)|done|by eapply highest_range|done].
    + rewrite Hq. case_decide as E; [|by apply (ri_cache _ _ Hi)]. simplify_eq.
      pose proof (ri_cache _ _ Hi _ Hh0) as Hc. destruct (queues k !!! RQ qi) as [|u l]; [done|].
      simplify_eq/=. by rewrite filter_cons_True.
Qed.

(** ** Threads in transit *)

Lemma rq_open k t :
  rq_inv None k -> _is_thread_ready k t = false -> _is_thread_pending k t = false -> rq_inv (Some t) k.
Proof.
  intros [H1 H2 H3 H4 H5 H6 H7 H8 H9] Hr Hp. split; try done.
  - intros u i. rewrite H2. split; intros (Hx & Hu & ->); split_and!; first [done|congruence].
  - intros u w Hu. apply H3 in Hu as [_ Hu]. split; [|done]. congruence.
  - intros u _. by apply H4.
Qed.

Lemma rq_close k t :
  rq_inv (Some t) k -> _is_thread_ready k t = false -> _is_thread_pending k t = false -> rq_inv None k.
Proof.
  intros [H1 H2 H3 H4 H5 H6 H7 H8 H9] Hr Hp. split; try done.
  - intros u i. rewrite H2. split; intros (Hx & Hu & ->); split_and!; first [done|congruence].
  - intros u w Hu. apply H3 in Hu as [_ Hu]. split; [|done]. congruence.
  - intros u _ Hu. apply H4; [|done]. congruence.
Qed.

(** A pending thread leaves its wait queue ... *)
Lemma unpend_inv k t :
  rq_inv None k -> _is_thread_pending k t = true -> rq_inv (Some t) (_unpend_thread k t).
Proof.
  intros Hi Hp. assert (Hnr : _is_thread_ready k t = false).
  { destruct (_is_thread_ready k t) eqn:E; [|done]. by rewrite (ready_not_pending _ _ E) in Hp. }
  apply (rq_inv_agree (Some t) (set_queues k (Lst.remove (queues k) t))); try done.
  - intros u. unfold _unpend_thread, _mark_thread_as_not_pending, _reset_thread_states.
    rewrite thr_upd_thread. case_decide; subst; apply (ri_prio _ _ Hi).
  - intros u Hu. assert (thr (_unpend_thread k t) u = thr k u) as E.
    { unfold _unpend_thread, _mark_thread_as_not_pending, _reset_thread_states.
      rewrite thr_upd_other; [done|congruence]. }
    split; [by rewrite E|]. split; [apply ready_ext|apply pending_ext]; by rewrite ?E.
  - assert (Hrq : forall i, filter (fun u => u <> t) (queues k !!! RQ i) = queues k !!! RQ i).
    { intros i. apply filter_ne_id. intros (_ & Hr & _)%(ri_rq _ _ Hi). congruence. }
    assert (Hq : forall q, queues (set_queues k (Lst.remove (queues k) t)) !!! q
      = filter (fun u => u <> t) (queues k !!! q)) by (intros q; apply Lst.lookup_remove).
    split; try apply (ri_words _ _ Hi); try apply (ri_prio _ _ Hi).
    + intros u i. rewrite Hq, Hrq, (ri_rq _ _ Hi).
      change (_is_thread_ready (set_queues k (Lst.remove (queues k) t)) u) with (_is_thread_ready k u).
      split; intros (Hx & Hu & ->); split_and!; first [done|congruence].
    + intros u w. rewrite Hq, list_elem_of_filter. intros [Hne Hu].
      apply (ri_wq _ _ Hi) in Hu as [_ Hu]. split; [congruence|done].
    + intros u Hx Hu. destruct (ri_pend _ _ Hi u) as [w Hw]; [done|done|].
      exists w. rewrite Hq, list_elem_of_filter. split; [congruence|done].
    + intros u w w'. rewrite !Hq, !list_elem_of_filter. intros [_ H1] [_ H2]. by eapply (ri_uniq _ _ Hi).
    + intros q. rewrite Hq. apply NoDup_filter, (ri_nodup _ _ Hi).
    + intros i Hi0. rewrite Hq, Hrq. by apply (ri_bits _ _ Hi).
    + intros i [H1 H2]. rewrite Hq, Hrq in H1 |- *. apply (ri_cache _ _ Hi). split; [done|].
      intros j Hj. specialize (H2 j Hj). by rewrite Hq, Hrq in H2.
Qed.

(** ... and a thread marked as pending enters one, anywhere on it. *)
Lemma wq_insert_inv k k' t w l1 l2 :
  rq_inv (Some t) k -> _is_thread_pending k t = true -> queues k !!! WQ w = l1 ++ l2 ->
  k' = set_queues k (queues k') -> queues k' !!! WQ w = l1 ++ t :: l2 ->
  (forall q, q <> WQ w -> queues k' !!! q = queues k !!! q) ->
  rq_inv None k'.
Proof.
  intros Hi Hp Hl Hk Hw Ho.
  assert (Hnr : _is_thread_ready k t = false).
  { destruct (_is_thread_ready k t) eqn:E; [|done]. by rewrite (ready_not_pending _ _ E) in Hp. }
  assert (forall u q, u ∈ queues k' !!! q <-> u ∈ queues k !!! q \/ (u = t /\ q = WQ w)) as Hm.
  { intros u q. destruct (decide (q = WQ w)) as [->|E]; [|rewrite Ho by done; clear -E; naive_solver].
    rewrite Hw, Hl, !elem_of_app, elem_of_cons. clear. naive_solver. }
  assert (Hrq : forall i, queues k' !!! RQ i = queues k !!! RQ i) by (intros i; by apply Ho).
  assert (Hfree : forall q, t ∉ queues k !!! q) by (intros q; by eapply in_transit_free).
  rewrite Hk. split; cbn [queues set_queues prio_bmap cache]; unfold highest; cbn [queues set_queues].
  - apply (ri_prio _ _ Hi).
  - intros u i. rewrite Hrq, (ri_rq _ _ Hi). change (_is_thread_ready (set_queues k (queues k')) u)
      with (_is_thread_ready k u). split; intros (Hx & Hu & ->); split_and!; first [done|congruence].
  - intros u v. rewrite Hm. intros [Hu|[-> _]]; [|done].
    by apply (ri_wq _ _ Hi) in Hu as [_ Hu].
  - intros u _ Hu. destruct (decide (u = t)) as [->|Hne].
    + exists w. rewrite Hm. by right.
    + destruct (ri_pend _ _ Hi u) as [v Hv]; [congruence|done|]. exists v. rewrite Hm. by left.
  - intros u v v'. rewrite !Hm. intros [H1|[-> H1]] [H2|[H2' H2]]; subst.
    + by eapply (ri_uniq _ _ Hi).
    + by apply Hfree in H1.
    + by apply Hfree in H2.
    + congruence.
  - intros q. destruct (decide (q = WQ w)) as [->|E]; [|rewrite Ho by done; apply (ri_nodup _ _ Hi)].
    rewrite Hw. pose proof (ri_nodup _ _ Hi (WQ w)) as Hn. rewrite Hl in Hn.
    rewrite <- Permutation_middle. constructor; [|done]. rewrite <- Hl. apply Hfree.
  - apply (ri_words _ _ Hi).
  - intros i. rewrite Hrq. apply (ri_bits _ _ Hi).
  - intros i. rewrite Hrq. intros [H1 H2]. apply (ri_cache _ _ Hi). split; [done|].
    intros j Hj. rewrite <- Hrq. by apply H2.
Qed.

(** ** The invariant of the scheduler

    The idle thread never blocks, so some ready queue is never empty. *)

Record sched_inv X k : Prop := {
  si_rq : rq_inv X k;
  si_transit : X <> Some idle_thread;
  si_idle : _is_thread_ready k idle_thread = true
}.

Lemma sched_nonempty X k : sched_inv X k -> exists i, queues k !!! RQ i <> [].
Proof.
  intros [Hr Hx Hi]. exists (_get_ready_q_q_index (prio (thr k idle_thread))).
  assert (idle_thread ∈ queues k !!! RQ (_get_ready_q_q_index (prio (thr k idle_thread)))) as Hin
    by (by apply (ri_rq _ _ Hr)).
  intros E. rewrite E in Hin. by apply not_elem_of_nil in Hin.
Qed.

Lemma sched_inv_agree X k k' :
  queues k' = queues k -> prio_bmap k' = prio_bmap k -> cache k' = cache k ->
  (forall u, prio_range (prio (thr k' u))) ->
  (forall u, X <> Some u -> prio (thr k' u) = prio (thr k u) /\
     _is_thread_ready k' u = _is_thread_ready k u /\ _is_thread_pending k' u = _is_thread_pending k u) ->
  sched_inv X k -> sched_inv X k'.
Proof.
  intros Hq Hb Hc Hp Hu [H1 H2 H3]. split; [by apply (rq_inv_agree X k)|done|].
  by rewrite (proj1 (proj2 (Hu _ H2))).
Qed.

(** Changing the thread in transit, as long as its priority stays in range. *)
Lemma sched_upd_transit k t f :
  prio_range (prio (f (thr k t))) -> sched_inv (Some t) k -> sched_inv (Some t) (upd_thread k t f).
Proof.
  intros Hp Hi. apply (sched_inv_agree (Some t) k); try done.
  - intros u. rewrite thr_upd_thread. case_decide; [by subst|]. apply (ri_prio _ _ (si_rq _ _ Hi)).
  - intros u Hu. assert (thr (upd_thread k t f) u = thr k u) as E by (apply thr_upd_other; congruence).
    split; [by rewrite E|]. split; [apply ready_ext|apply pending_ext]; by rewrite ?E.
Qed.

(** Changing fields of any thread that the scheduler does not look at. *)
Lemma sched_upd_other X k t f :
  (forall x, prio (f x) = prio x) -> (forall x, thread_state (f x) = thread_state x) ->
  sched_inv X k -> sched_inv X (upd_thread k t f).
Proof.
  intros Hp Hs Hi. apply (sched_inv_agree X k); try done.
  - intros u. rewrite thr_upd_thread. case_decide; subst; rewrite ?Hp; apply (ri_prio _ _ (si_rq _ _ Hi)).
  - intros u _. split; [|split; [apply ready_ext|apply pending_ext]];
      rewrite ?thr_upd_thread; try case_decide; subst; rewrite ?Hp, ?Hs; done.
Qed.

Lemma sched_add k t :
  sched_inv (Some t) k -> _is_thread_ready k t = true -> sched_inv None (_add_thread_to_ready_q k t).
Proof.
  intros Hi Hr. pose proof (sched_nonempty _ _ Hi). destruct Hi. split; [|done..].
  apply add_inv; auto.
Qed.

Lemma remove_thr k t u : thr (_remove_thread_from_ready_q k t) u = thr k u.
Proof. rewrite remove_unfold. apply (removed_thr k t u). Qed.

Lemma remove_ready k t u : _is_thread_ready (_remove_thread_from_ready_q k t) u = _is_thread_ready k u.
Proof. rewrite remove_unfold. apply (removed_ready k t u). Qed.

Lemma remove_pending k t u : _is_thread_pending (_remove_thread_from_ready_q k t) u = _is_thread_pending k u.
Proof. rewrite remove_unfold. apply (removed_pending k t u). Qed.

Lemma sched_remove k t :
  sched_inv None k -> _is_thread_ready k t = true -> t <> idle_thread ->
  sched_inv (Some t) (_remove_thread_from_ready_q k t).
Proof.
  intros [H1 H2 H3] Hr Ht. split; [by apply remove_inv|congruence|]. by rewrite remove_ready.
Qed.

Lemma sched_unpend k t :
  sched_inv None k -> _is_thread_pending k t = true -> sched_inv (Some t) (_unpend_thread k t).
Proof.
  intros [H1 H2 H3] Hp. assert (t <> idle_thread) as Ht.
  { intros ->. by rewrite (ready_not_pending _ _ H3) in Hp. }
  split; [by apply unpend_inv|congruence|].
  rewrite <- H3. apply ready_ext; [|done]. unfold _unpend_thread, _mark_thread_as_not_pending, _reset_thread_states.
  by rewrite thr_upd_other.
Qed.

Lemma sched_open k t :
  sched_inv None k -> _is_thread_ready k t = false -> _is_thread_pending k t = false -> sched_inv (Some t) k.
Proof. intros [H1 H2 H3] Hr Hp. split; [by apply rq_open|congruence|done]. Qed.

Lemma sched_close k t :
  sched_inv (Some t) k -> _is_thread_ready k t = false -> _is_thread_pending k t = false -> sched_inv None k.
Proof. intros [H1 H2 H3] Hr Hp. split; [by eapply rq_close|done|done]. Qed.

Lemma started_thr k t u :
  thr (_mark_thread_as_started k t) u =
  if decide (u = t) then with_state (u8 (Z.land (thread_state (thr k t)) (Z.lnot _THREAD_PRESTART))) (thr k t)
  else thr k u.
Proof. unfold _mark_thread_as_started, _reset_thread_states. rewrite thr_upd_thread. done. Qed.

Lemma sched_ready_thread k t :
  sched_inv (Some t) k -> _is_thread_pending k t = false -> sched_inv None (_ready_thread k t).
Proof.
  intros Hi Hp. unfold _ready_thread. cbv zeta.
  assert (sched_inv (Some t) (_mark_thread_as_started k t)) as H1.
  { apply sched_upd_transit; [|done]. apply (ri_prio _ _ (si_rq _ _ Hi)). }
  destruct (_is_thread_ready (_mark_thread_as_started k t) t) eqn:E; [by apply sched_add|].
  apply (sched_close _ t); [done..|]. rewrite pending_spec in Hp |- *.
  rewrite started_thr, decide_True by done.
  change _THREAD_PRESTART with (Z.shiftl 1 2). by rewrite st_bit_clear, Hp.
Qed.

Lemma sched_move_to_end k t :
  sched_inv None k -> _is_thread_ready k t = true -> sched_inv None (_move_thread_to_end_of_prio_q k t).
Proof.
  intros [H1 H2 H3] Hr. split; [by apply move_to_end_inv|done|].
  unfold _move_thread_to_end_of_prio_q. cbv zeta. by destruct (Lst.is_tail _ _ _).
Qed.

Lemma sched_priority_set k t (p : Z) :
  sched_inv None k -> t <> idle_thread -> prio_range p -> sched_inv None (_thread_priority_set k t p).
Proof.
  intros Hi Ht Hp. unfold _thread_priority_set. cbv zeta.
  assert (s8 p = p) as -> by (apply s8_small; apply prio_range_s8 in Hp; lia).
  destruct (_is_thread_ready k t) eqn:Er.
  - apply sched_add.
    + apply sched_upd_transit; [done|]. by apply sched_remove.
    + rewrite <- Er, <- (remove_ready k t t). apply ready_ext; [|done].
      by rewrite thr_upd_same.
  - assert (forall u, thread_state (thr (upd_thread k t (with_prio p)) u) = thread_state (thr k u)) as Es.
    { intros u. rewrite thr_upd_thread. by case_decide; subst. }
    assert (forall u, _is_thread_ready (upd_thread k t (with_prio p)) u = _is_thread_ready k u) as Er'.
    { intros u. by apply ready_ext. }
    destruct Hi as [H1 H2 H3]. split; [|done|by rewrite Er'].
    destruct H1 as [P1 P2 P3 P4 P5 P6 P7 P8 P9]. split; try done.
    + intros u. rewrite thr_upd_thread. by case_decide; subst.
    + intros u i. rewrite Er', thr_upd_thread. change (queues (upd_thread k t (with_prio p))) with (queues k).
      rewrite P2. case_decide; [subst|done]. split; intros (_ & ? & _); congruence.
    + intros u w Hu. destruct (P3 u w Hu) as [? Hx]. split; [done|]. rewrite <- Hx. by apply pending_ext.
    + intros u Hx Hu. apply P4; [done|]. rewrite <- Hu. symmetry. by apply pending_ext.
Qed.

End Inv.
