(* ===== verification/TimeoutQ.v ===== *)
(** * The timeout queue (kernel/include/timeout_q.h, kernel/sys_clock.c)

    [_timeout_q] is a delta queue: each timeout stores the number of ticks
    after the one before it.  The definitions are the functions of
    timeout_q.h and [handle_timeouts]; [expiries] reads the queue as the list
    of absolute expiry times, and the lemmas show that the operations are the
    obvious ones on that list. *)

From S2P Require Import Prelude DList ListStore Kernel Ksched ReadyQ.

Local Open Scope Z_scope.

(** ** Operations *)

Section TimeoutQ.
Context `{KConfig}.
Implicit Types (k : kernel) (t : tid) (o : toid).

(** What a call of [timeout->func] does, by the address of the function. *)
Variable timeout_func : positive -> toid -> kernel -> kernel.

Definition _init_timeout k o (f : option positive) : kernel :=
  upd_timeout k o (fun _ => mk_timeout None None _INACTIVE f).

Definition _init_thread_timeout k t : kernel := _init_timeout k (TOthread t) None.

Definition _unpend_thread_timing_out k t o : kernel :=
  match to_wait_q (tmo k o) with
  | Some _ => upd_timeout (_unpend_thread k t) (TOthread t) (with_to_wait_q None)
  | None => k
  end.

Definition _handle_one_expired_timeout k o : kernel :=
  let thread := to_thread (tmo k o) in
  let k := upd_timeout k o (with_delta _INACTIVE) in
  match thread with
  | Some t => _ready_thread (_unpend_thread_timing_out k t o) t
  | None => match func (tmo k o) with
            | Some f => timeout_func f o k
            | None => k
            end
  end.

(** [expired] is the local list of [handle_timeouts]; each node is unlinked
    before it is handled. *)
Fixpoint _handle_expired_timeouts k (expired : list toid) : kernel :=
  match expired with
  | [] => k
  | o :: expired => _handle_expired_timeouts (_handle_one_expired_timeout k o) expired
  end.

(** [sys_dlist_peek_next]: the node after [o]. *)
Fixpoint next_after o (l : list toid) : option toid :=
  match l with
  | [] => None
  | x :: l => if decide (x = o) then head l else next_after o l
  end.

(** [timeout] is on [_timeout_q] when it is active. *)
Definition _abort_timeout k o : kernel * Z :=
  if delta_ticks_from_prev (tmo k o) =? _INACTIVE then (k, _INACTIVE)
  else
    let k :=
      if negb (bool_decide (last (timeout_q k) = Some o)) then
        match next_after o (timeout_q k) with
        | Some next =>
            upd_timeout k next (fun x => with_delta (s32 (delta_ticks_from_prev x
                                                          + delta_ticks_from_prev (tmo k o))) x)
        | None => k
        end
      else k in
    let k := set_timeout_q k (filter (fun x => x <> o) (timeout_q k)) in
    (upd_timeout k o (with_delta _INACTIVE), 0).

Definition _abort_thread_timeout k t : kernel * Z := _abort_timeout k (TOthread t).

(** The insertion loop of [_add_timeout]: [l] is what is left to walk, and the
    variable [*delta] is the field of [o] itself. *)
Fixpoint add_timeout_loop k o (l : list toid) : kernel :=
  match l with
  | [] => set_timeout_q k (timeout_q k ++ [o])
  | in_q :: l =>
      let delta := delta_ticks_from_prev (tmo k o) in
      if delta <=? delta_ticks_from_prev (tmo k in_q) then
        let k := upd_timeout k in_q (fun x => with_delta (s32 (delta_ticks_from_prev x - delta)) x) in
        set_timeout_q k (Lst.ins_before in_q o (timeout_q k))
      else
        add_timeout_loop
          (upd_timeout k o (with_delta (s32 (delta - delta_ticks_from_prev (tmo k in_q))))) o l
  end.

Definition _add_timeout k (thread : option tid) o (wait_q : option qid) (timeout_in_ticks : Z) : kernel :=
  let k := upd_timeout k o (fun x => mk_timeout thread wait_q timeout_in_ticks (func x)) in
  if timeout_in_ticks =? 0 then _handle_one_expired_timeout k o
  else add_timeout_loop k o (timeout_q k).

Definition _add_thread_timeout k t (wait_q : option qid) (timeout_in_ticks : Z) : kernel :=
  _add_timeout k (Some t) (TOthread t) wait_q timeout_in_ticks.

Definition _get_next_timeout_expiry k : Z :=
  match head (timeout_q k) with
  | Some t => delta_ticks_from_prev (tmo k t)
  | None => K_FOREVER
  end.

(** The [while] loop of [handle_timeouts]: it unlinks the head of the queue at
    each turn, so the length of the queue is enough fuel. *)
Fixpoint dequeue_expired (fuel : nat) k (expired : list toid) : kernel * list toid :=
  match fuel with
  | O => (k, expired)
  | S fuel =>
      match head (timeout_q k) with
      | Some o =>
          if delta_ticks_from_prev (tmo k o) =? 0 then
            let k := set_timeout_q k (filter (fun x => x <> o) (timeout_q k)) in
            dequeue_expired fuel (upd_timeout k o (with_delta _EXPIRED)) (o :: expired)
          else (k, expired)
      | None => (k, expired)
      end
  end.

(** The whole of a tick: the code unlocks interrupts between two expired timeouts and
    while it runs the function of one, and so lets other interrupts in; here none come
    before the tick is over. *)
Definition handle_timeouts k (ticks : Z) : kernel :=
  match head (timeout_q k) with
  | None => k
  | Some hd =>
      let k := upd_timeout k hd (fun x => with_delta (s32 (delta_ticks_from_prev x - ticks)) x) in
      let k := set_handling k true in
      let '(k, expired) := dequeue_expired (length (timeout_q k)) k [] in
      let k := _handle_expired_timeouts k expired in
      set_handling k false
  end.

End TimeoutQ.

(** ** The queue read as absolute expiry times *)

Section Expiries.
Context `{KConfig}.
Implicit Types (k : kernel) (o : toid) (l : list toid).

Definition dl k o : Z := delta_ticks_from_prev (tmo k o).

Fixpoint expiries (d : toid -> Z) (acc : Z) l : list (toid * Z) :=
  match l with
  | [] => []
  | o :: l => (o, acc + d o) :: expiries d (acc + d o) l
  end.

Fixpoint sum_deltas (d : toid -> Z) l : Z :=
  match l with
  | [] => 0
  | o :: l => d o + sum_deltas d l
  end.

(** Insertion in front of the first entry that does not expire before. *)
Fixpoint tq_insert o (n : Z) (L : list (toid * Z)) : list (toid * Z) :=
  match L with
  | [] => [(o, n)]
  | (o', n') :: L => if n <=? n' then (o, n) :: (o', n') :: L else (o', n') :: tq_insert o n L
  end.

Definition expiry_list k : list (toid * Z) := expiries (dl k) 0 (timeout_q k).

(** Only the timeout queue and the timeouts differ. *)
Definition tq_frame k k' : Prop := k' = set_timeouts (set_timeout_q k (timeout_q k')) (timeouts k').

Lemma tq_frame_refl k : tq_frame k k.
Proof. by destruct k. Qed.

Lemma tq_frame_trans k1 k2 k3 : tq_frame k1 k2 -> tq_frame k2 k3 -> tq_frame k1 k3.
Proof. unfold tq_frame. intros -> ->. done. Qed.

Lemma tq_frame_upd k o f : tq_frame k (upd_timeout k o f).
Proof. by destruct k. Qed.

Lemma tq_frame_set k l : tq_frame k (set_timeout_q k l).
Proof. by destruct k. Qed.

Lemma add_timeout_loop_frame l : forall k o, tq_frame k (add_timeout_loop k o l).
Proof.
  induction l as [|a l IH]; intros k o; simpl; [apply tq_frame_set|].
  destruct (_ <=? _).
  - eapply tq_frame_trans; [apply tq_frame_upd|apply tq_frame_set].
  - eapply tq_frame_trans; [apply tq_frame_upd|apply IH].
Qed.

Lemma add_timeout_frame tf k thread o wait_q (n : Z) :
  n <> 0 -> tq_frame k (_add_timeout tf k thread o wait_q n).
Proof.
  intros Hn. unfold _add_timeout. cbv zeta. destruct (Z.eqb_spec n 0); [done|].
  eapply tq_frame_trans; [apply tq_frame_upd|apply add_timeout_loop_frame].
Qed.

Lemma expiries_ext d d' acc l :
  (forall o, o ∈ l -> d o = d' o) -> expiries d acc l = expiries d' acc l.
Proof.
  revert acc. induction l as [|o l IH]; intros acc Hd; simpl; [done|].
  rewrite (Hd o) by left. f_equal. apply IH. intros p Hp. apply Hd. by right.
Qed.

Lemma expiries_fst d acc l : (expiries d acc l).*1 = l.
Proof. revert acc. induction l as [|o l IH]; intros acc; simpl; [done|]. by rewrite IH. Qed.

Lemma expiries_app d acc l l' :
  expiries d acc (l ++ l') = expiries d acc l ++ expiries d (acc + sum_deltas d l) l'.
Proof.
  revert acc. induction l as [|o l IH]; intros acc; simpl.
  - by rewrite Z.add_0_r.
  - rewrite IH. by rewrite Z.add_assoc.
Qed.

Lemma sum_deltas_app d l l' : sum_deltas d (l ++ l') = sum_deltas d l + sum_deltas d l'.
Proof. induction l as [|o l IH]; simpl; [done|]. lia. Qed.

Lemma sum_deltas_ext d d' l : (forall o, o ∈ l -> d o = d' o) -> sum_deltas d l = sum_deltas d' l.
Proof.
  induction l as [|o l IH]; intros Hd; simpl; [done|].
  rewrite (Hd o) by left. rewrite IH; [done|]. intros p Hp. apply Hd. by right.
Qed.

Lemma sum_deltas_nonneg d l : (forall o, o ∈ l -> 0 <= d o) -> 0 <= sum_deltas d l.
Proof.
  induction l as [|o l IH]; intros Hd; simpl; [done|].
  pose proof (Hd o ltac:(left)). pose proof (IH (fun p Hp => Hd p ltac:(by right))). lia.
Qed.

Lemma dl_upd k o p f : dl (upd_timeout k o f) p = if decide (p = o) then delta_ticks_from_prev (f (tmo k o)) else dl k p.
Proof. unfold dl. rewrite tmo_upd_timeout. by case_decide. Qed.

Lemma tq_insert_perm o n L : Permutation (tq_insert o n L) ((o, n) :: L).
Proof.
  induction L as [|[p m] L IH]; simpl; [done|]. destruct (n <=? m); [done|].
  rewrite IH. apply perm_swap.
Qed.

(** The last expiry is the sum of the deltas. *)
Lemma expiries_sum d acc l : l <> [] -> exists o, (o, acc + sum_deltas d l) ∈ expiries d acc l.
Proof.
  revert acc. induction l as [|o l IH]; intros acc Hl; [done|]. simpl. destruct l as [|p l].
  - exists o. simpl. rewrite Z.add_0_r. left.
  - destruct (IH (acc + d o)) as [q Hq]; [done|]. exists q. right. by rewrite Z.add_assoc.
Qed.

Lemma expiries_le d acc l e :
  (forall o, o ∈ l -> 0 <= d o) -> e ∈ expiries d acc l -> acc <= e.2 <= acc + sum_deltas d l.
Proof.
  revert acc. induction l as [|o l IH]; intros acc Hd He; [by apply not_elem_of_nil in He|].
  simpl in *. pose proof (Hd o ltac:(left)).
  assert (forall p, p ∈ l -> 0 <= d p) as Hd' by (intros p Hp; apply Hd; by right).
  pose proof (sum_deltas_nonneg d l Hd'). apply elem_of_cons in He as [->|He]; simpl; [lia|].
  specialize (IH _ Hd' He). lia.
Qed.

(** ** Insertion *)

(** The loop from the suffix [l], after the prefix [pre] whose deltas sum to
    [acc]: the rest of the queue is the sorted insertion of the expiry [n]. *)
Lemma add_timeout_loop_spec l : forall k o pre acc n,
  timeout_q k = pre ++ l -> NoDup (o :: pre ++ l) ->
  (forall x, x ∈ l -> 0 <= dl k x) -> sum_deltas (dl k) l < 2 ^ 31 ->
  dl k o = n - acc -> 0 < n - acc < 2 ^ 31 ->
  let k' := add_timeout_loop k o l in
  exists l', timeout_q k' = pre ++ l' /\
    expiries (dl k') acc l' = tq_insert o n (expiries (dl k) acc l) /\
    (forall x, x ∈ l' <-> x = o \/ x ∈ l) /\
    (forall x, x ∈ l' -> 0 <= dl k' x) /\
    (forall x, x ∉ l' -> tmo k' x = tmo k x) /\
    (forall x, to_thread (tmo k' x) = to_thread (tmo k x) /\ to_wait_q (tmo k' x) = to_wait_q (tmo k x) /\
               func (tmo k' x) = func (tmo k x)) /\
    tq_frame k k'.
Proof.
  induction l as [|a l IH]; intros k o pre acc n Hq Hnd Hpos Hsum Hd Hn; simpl.
  - exists [o]. rewrite app_nil_r in Hq. rewrite Hq. split; [done|]. split; [|].
    { simpl. change (dl (set_timeout_q k (pre ++ [o])) o) with (dl k o). rewrite Hd. do 2 f_equal. lia. }
    split; [set_solver|]. split.
    { intros x ->%list_elem_of_singleton. change (0 <= dl k o). lia. }
    split; [done|]. split; [done|]. apply tq_frame_set.
  - apply NoDup_cons in Hnd as [Hno Hnd].
    pose proof (proj1 (NoDup_app _ _) Hnd) as (Hnd1 & Hnd2 & Hnd3).
    apply NoDup_cons in Hnd3 as [Hal Hnl].
    assert (o <> a) as Hoa by (intros ->; apply Hno, elem_of_app; right; left).
    assert (o ∉ l) as Hol by (intros E; apply Hno, elem_of_app; right; by right).
    assert (a ∉ pre) as Hap by (intros E; apply (Hnd2 a E); left).
    pose proof (Hpos a ltac:(left)) as Ha.
    assert (0 <= sum_deltas (dl k) l) as Hl.
    { apply sum_deltas_nonneg. intros x Hx. apply Hpos. by right. }
    simpl in Hsum. change (delta_ticks_from_prev (tmo k o)) with (dl k o).
    change (delta_ticks_from_prev (tmo k a)) with (dl k a). rewrite Hd.
    destruct (Z.leb_spec (n - acc) (dl k a)) as [Hle|Hgt].
    + set (k1 := upd_timeout k a _). exists (o :: a :: l).
      assert (Hk1 : forall x, dl (set_timeout_q k1 (Lst.ins_before a o (timeout_q k1))) x
        = if decide (x = a) then dl k a - (n - acc) else dl k x).
      { intros x. change (dl k1 x = if decide (x = a) then dl k a - (n - acc) else dl k x).
        unfold k1. rewrite dl_upd. case_decide; [|done]. cbn. apply s32_small. fold (dl k a). lia. }
      split.
      { cbn [timeout_q set_timeout_q]. change (timeout_q k1) with (timeout_q k). rewrite Hq.
        by apply Lst.ins_before_split. }
      split.
      { simpl. rewrite !Hk1, decide_False, decide_True, Hd by done.
        destruct (Z.leb_spec n (acc + dl k a)); [|lia].
        f_equal; [f_equal; lia|]. f_equal; [f_equal; lia|].
        replace (acc + (n - acc) + (dl k a - (n - acc))) with (acc + dl k a) by lia.
        apply expiries_ext. intros x Hx. rewrite Hk1, decide_False; [done|]. by intros ->. }
      split; [set_solver|]. split.
      { intros x Hx. rewrite Hk1. case_decide; [lia|].
        apply elem_of_cons in Hx as [->|Hx]; [lia|]. by apply Hpos. }
      split.
      { intros x Hx. change (tmo k1 x = tmo k x). unfold k1. rewrite tmo_upd_timeout.
        rewrite decide_False; [done|]. intros ->. apply Hx. right. left. }
      split.
      { intros x. change (to_thread (tmo k1 x) = to_thread (tmo k x) /\ to_wait_q (tmo k1 x) = to_wait_q (tmo k x)
          /\ func (tmo k1 x) = func (tmo k x)).
        unfold k1. rewrite tmo_upd_timeout. by case_decide; subst. }
      eapply tq_frame_trans; [apply tq_frame_upd|apply tq_frame_set].
    + assert (s32 (n - acc - dl k a) = n - (acc + dl k a)) as -> by (rewrite s32_small; lia).
      set (k1 := upd_timeout k o _).
      assert (Hk1 : forall x, dl k1 x = if decide (x = o) then n - (acc + dl k a) else dl k x).
      { intros x. unfold k1. by rewrite dl_upd. }
      assert (Hk1l : forall x, x ∈ a :: l -> dl k1 x = dl k x).
      { intros x Hx. rewrite Hk1, decide_False; [done|]. intros ->.
        apply elem_of_cons in Hx as [|]; done. }
      destruct (IH k1 o (pre ++ [a]) (acc + dl k a) n) as (l' & Q1 & Q2 & Q3 & Q4 & Q5 & Q6 & Q7).
      * change (timeout_q k1) with (timeout_q k). by rewrite Hq, <- app_assoc.
      * rewrite <- app_assoc. by apply NoDup_cons.
      * intros x Hx. rewrite Hk1l by (by right). apply Hpos. by right.
      * rewrite (sum_deltas_ext _ (dl k)); [lia|]. intros x Hx. apply Hk1l. by right.
      * rewrite Hk1. by rewrite decide_True.
      * lia.
      * assert (a ∉ l') as Hal' by (rewrite Q3; intros [->|]; done).
        assert (dl (add_timeout_loop k1 o l) a = dl k a) as Hda.
        { unfold dl. rewrite Q5 by done. fold (dl k1 a). apply Hk1l. left. }
        exists (a :: l'). split; [by rewrite Q1, <- app_assoc|]. split.
        { simpl. rewrite Hda. destruct (Z.leb_spec n (acc + dl k a)); [lia|]. f_equal.
          rewrite Q2. f_equal. apply expiries_ext. intros x Hx. apply Hk1l. by right. }
        split; [intros x; rewrite !elem_of_cons, Q3; clear; naive_solver|]. split.
        { intros x [->|Hx]%elem_of_cons; [by rewrite Hda|by apply Q4]. }
        split.
        { intros x Hx. rewrite Q5 by set_solver. unfold k1. rewrite tmo_upd_timeout, decide_False; [done|].
          intros ->. apply Hx. right. apply Q3. by left. }
        split.
        { intros x. destruct (Q6 x) as (-> & -> & ->). unfold k1. rewrite tmo_upd_timeout. by case_decide; subst. }
        eapply tq_frame_trans; [apply tq_frame_upd|apply Q7].
Qed.

(** ** Removal *)

Lemma next_after_split o l1 l2 : o ∉ l1 -> next_after o (l1 ++ o :: l2) = head l2.
Proof.
  induction l1 as [|x l1 IH]; intros Ho; simpl; [by rewrite decide_True|].
  rewrite decide_False by set_solver. apply IH. set_solver.
Qed.

Lemma last_snoc_iff o l1 l2 : o ∉ l2 -> last (l1 ++ o :: l2) = Some o <-> l2 = [].
Proof.
  intros Ho. split; [|intros ->; by rewrite last_snoc].
  destruct l2 as [|x l2]; [done|]. destruct (snoc_inv x l2) as (s & y & E). rewrite E in Ho |- *.
  replace (l1 ++ o :: s ++ [y]) with ((l1 ++ o :: s) ++ [y]) by (by rewrite <- app_assoc).
  rewrite last_snoc. intros [= ->]. exfalso. apply Ho, elem_of_app. right. left.
Qed.

(** What [_abort_timeout] does to an active timeout of the queue: it leaves
    the queue, the one after it takes over its ticks. *)
Lemma abort_timeout_spec k o l1 l2 :
  timeout_q k = l1 ++ o :: l2 -> NoDup (timeout_q k) ->
  (forall x, x ∈ timeout_q k -> 0 <= dl k x) -> sum_deltas (dl k) (timeout_q k) < 2 ^ 31 ->
  let k' := fst (_abort_timeout k o) in
  snd (_abort_timeout k o) = 0 /\ timeout_q k' = l1 ++ l2 /\
  (forall x, dl k' x = if decide (x = o) then _INACTIVE
     else if decide (head l2 = Some x) then dl k x + dl k o else dl k x) /\
  (forall x, to_thread (tmo k' x) = to_thread (tmo k x) /\ to_wait_q (tmo k' x) = to_wait_q (tmo k x) /\
             func (tmo k' x) = func (tmo k x)) /\
  tq_frame k k'.
Proof.
  intros Hq Hnd Hpos Hsum k'. rewrite Hq in Hnd.
  pose proof (proj1 (NoDup_app _ _) Hnd) as (Hnd1 & Hnd2 & Hnd3).
  apply NoDup_cons in Hnd3 as [Ho2 Hn2].
  assert (o ∉ l1) as Ho1 by (intros E; apply (Hnd2 o E); left).
  assert (0 <= dl k o) as Ho by (apply Hpos; rewrite Hq, elem_of_app; right; left).
  unfold k', _abort_timeout. fold (dl k o).
  destruct (Z.eqb_spec (dl k o) _INACTIVE) as [E|_]; [by rewrite E in Ho|].
  cbn [fst snd]. split; [done|]. rewrite Hq, next_after_split by done.
  destruct l2 as [|nx l2].
  - rewrite bool_decide_true by (by apply last_snoc_iff). cbn [negb head]. rewrite Hq.
    split; [by apply filter_ne_split|]. split.
    { intros x. rewrite dl_upd. case_decide; [done|]. by rewrite decide_False. }
    split; [intros x; rewrite tmo_upd_timeout; by case_decide; subst|].
    eapply tq_frame_trans; [apply tq_frame_set|apply tq_frame_upd].
  - rewrite bool_decide_false by (by rewrite last_snoc_iff). cbn [negb head].
    set (k1 := upd_timeout k nx _). change (timeout_q k1) with (timeout_q k). rewrite Hq.
    assert (dl k nx + dl k o < 2 ^ 31) as Hlt.
    { rewrite Hq, sum_deltas_app in Hsum. simpl in Hsum.
      assert (0 <= sum_deltas (dl k) l1) by (apply sum_deltas_nonneg; intros x Hx; apply Hpos; rewrite Hq; set_solver).
      assert (0 <= sum_deltas (dl k) l2) by (apply sum_deltas_nonneg; intros x Hx; apply Hpos; rewrite Hq; set_solver).
      lia. }
    assert (0 <= dl k nx) as Hnx by (apply Hpos; rewrite Hq; set_solver).
    split; [by apply filter_ne_split|]. split.
    { intros x. rewrite dl_upd. case_decide as E1; [done|].
      change (dl k1 x = if decide (Some nx = Some x) then dl k x + dl k o else dl k x).
      unfold k1. rewrite dl_upd. case_decide as E2.
      - subst. rewrite decide_True by done. cbn. apply s32_small. fold (dl k nx). lia.
      - rewrite decide_False; [done|]. congruence. }
    split.
    { intros x. rewrite tmo_upd_timeout. change (tmo (set_timeout_q k1 (filter (fun y => y <> o) (l1 ++ o :: nx :: l2))) o) with (tmo k1 o).
      change (tmo (set_timeout_q k1 (filter (fun y => y <> o) (l1 ++ o :: nx :: l2))) x) with (tmo k1 x).
      unfold k1. rewrite !tmo_upd_timeout. by repeat case_decide; subst. }
    eapply tq_frame_trans; [apply tq_frame_upd|]. eapply tq_frame_trans; [apply tq_frame_set|apply tq_frame_upd].
Qed.

Lemma expiries_shift d d' l acc acc' o :
  (forall x, x ∈ l -> x <> o -> d' x = d x) -> acc' + d' o = acc + d o -> o ∉ l ->
  expiries d' acc' (o :: l) = expiries d acc (o :: l).
Proof.
  intros Hd Ha Ho. simpl. rewrite Ha. f_equal. apply expiries_ext. intros x Hx. apply Hd; [done|]. by intros ->.
Qed.

(** The other timeouts keep their expiry time. *)
Lemma abort_timeout_expiries k o :
  o ∈ timeout_q k -> NoDup (timeout_q k) ->
  (forall x, x ∈ timeout_q k -> 0 <= dl k x) -> sum_deltas (dl k) (timeout_q k) < 2 ^ 31 ->
  expiry_list (fst (_abort_timeout k o)) = filter (fun e => e.1 <> o) (expiry_list k).
Proof.
  intros (l1 & l2 & Hq & Ho1)%list_elem_of_split_l Hnd Hpos Hsum.
  destruct (abort_timeout_spec k o l1 l2 Hq Hnd Hpos Hsum) as (_ & Hq' & Hd & _ & _).
  rewrite Hq in Hnd. pose proof (proj1 (NoDup_app _ _) Hnd) as (Hnd1 & Hnd2 & Hnd3).
  apply NoDup_cons in Hnd3 as [Ho2 Hn2].
  assert (Hf : forall acc l, o ∉ l -> filter (fun e : toid * Z => e.1 <> o) (expiries (dl k) acc l) = expiries (dl k) acc l).
  { intros acc l. revert acc. induction l as [|x l IH]; intros acc Hx; [done|]. simpl.
    rewrite filter_cons_True by (simpl; set_solver). f_equal. apply IH. set_solver. }
  set (d' := dl (fst (_abort_timeout k o))) in *.
  assert (H1 : forall x, x ∈ l1 -> d' x = dl k x).
  { intros x Hx. rewrite Hd, decide_False by (intros ->; done). rewrite decide_False; [done|].
    intros E. apply (Hnd2 x Hx). right. destruct l2; simplify_eq/=. left. }
  unfold expiry_list. rewrite Hq', Hq, !expiries_app, filter_app. fold d'. simpl.
  rewrite filter_cons_False by (simpl; tauto). rewrite !Hf by done.
  rewrite (expiries_ext d' (dl k) 0 l1 H1), (sum_deltas_ext d' (dl k) l1 H1). f_equal.
  destruct l2 as [|nx l2]; [done|]. apply NoDup_cons in Hn2 as [Hnx Hn2].
  apply expiries_shift; [| |done].
  - intros x Hx Hne. rewrite Hd, decide_False by (intros ->; set_solver). rewrite decide_False; [done|].
    simpl. congruence.
  - rewrite Hd, decide_False by (intros ->; set_solver). rewrite decide_True by done. lia.
Qed.

(** ** Dequeuing what expired *)

Lemma dequeue_expired_spec z : forall fuel k r E,
  timeout_q k = z ++ r -> NoDup (timeout_q k) -> (length (timeout_q k) <= fuel)%nat ->
  (forall x, x ∈ z -> dl k x = 0) -> (forall x, head r = Some x -> dl k x <> 0) ->
  let '(k', E') := dequeue_expired fuel k E in
  E' = rev z ++ E /\ timeout_q k' = r /\
  (forall x, tmo k' x = if decide (x ∈ z) then with_delta _EXPIRED (tmo k x) else tmo k x) /\
  tq_frame k k'.
Proof.
  induction z as [|o z IH]; intros fuel k r E Hq Hnd Hf Hz Hr.
  - assert (dequeue_expired fuel k E = (k, E)) as ->.
    { destruct fuel as [|fuel]; [done|]. cbn [dequeue_expired]. rewrite Hq. simpl.
      destruct (head r) as [x|] eqn:Ex; [|done]. fold (dl k x).
      destruct (Z.eqb_spec (dl k x) 0) as [E0|_]; [|done]. by apply Hr in E0. }
    split; [done|]. split; [done|]. split; [|apply tq_frame_refl].
    intros x. rewrite decide_False by apply not_elem_of_nil. done.
  - rewrite Hq in Hf, Hnd. destruct fuel as [|fuel]; [simpl in Hf; lia|]. cbn [dequeue_expired].
    rewrite Hq. cbn [head app]. fold (dl k o). rewrite (Hz o) by left. cbn [Z.eqb].
    simpl in Hnd. apply NoDup_cons in Hnd as [Ho Hnd].
    rewrite filter_cons_False, filter_ne_id by (done || tauto).
    set (k1 := upd_timeout _ o _).
    assert (Hk1 : forall x, tmo k1 x = if decide (x = o) then with_delta _EXPIRED (tmo k o) else tmo k x).
    { intros x. unfold k1. by rewrite tmo_upd_timeout. }
    specialize (IH fuel k1 r (o :: E)).
    destruct (dequeue_expired fuel k1 (o :: E)) as [k' E'].
    destruct IH as (-> & H2 & H3 & H4); try done.
    + simpl in Hf. change (timeout_q k1) with (z ++ r). lia.
    + intros x Hx. unfold dl. rewrite Hk1, decide_False by (intros ->; set_solver). apply Hz. by right.
    + intros x Hx. unfold dl. rewrite Hk1, decide_False; [by apply Hr|].
      intros ->. apply Ho, elem_of_app. right. destruct r; simplify_eq/=. left.
    + split; [simpl; by rewrite <- app_assoc|]. split; [done|]. split.
      * intros x. rewrite H3, Hk1. destruct (decide (x = o)) as [->|Hne].
        -- rewrite decide_False by set_solver. rewrite decide_True by left. done.
        -- destruct (decide (x ∈ z)).
           ++ rewrite decide_True by (by right). done.
           ++ rewrite decide_False by set_solver. done.
      * eapply tq_frame_trans; [|exact H4]. unfold k1.
        eapply tq_frame_trans; [apply tq_frame_set|apply tq_frame_upd].
Qed.

End Expiries.
