(* ===== verification/KInv.v ===== *)
(** * The invariant of the kernel state

    The ready queue, the wait queues and the timeout queue together.  [kinv X E]
    holds between two steps with [X = None] and [E = []]; inside an operation
    [X] is the thread taken off every queue, and inside the clock interrupt
    [E] is the list of the timeouts that have expired and wait for their
    handler.  The lemmas of this file are the steps operations are made of. *)

From S2P Require Import Prelude DList ListStore Kernel Ksched ReadyQ TimeoutQ.

Local Open Scope Z_scope.

Section KInv.
Context `{KConfig}.
Implicit Types (k : kernel) (t u : tid) (o : toid) (X : option tid) (E : list toid).

Definition waits k t : Prop := to_wait_q (tmo k (TOthread t)) = None <-> _is_thread_pending k t = false.

Record tq_wf X E k : Prop := {
  ti_nodup : NoDup (timeout_q k ++ E);
  ti_pos : forall o, o ∈ timeout_q k -> 0 <= dl k o;
  ti_sum : sum_deltas (dl k) (timeout_q k) < 2 ^ 31;
  ti_expired : forall o, o ∈ E -> dl k o = _EXPIRED;
  ti_inactive : forall o, o ∉ timeout_q k -> o ∉ E -> dl k o = _INACTIVE;
  ti_thread : forall t, TOthread t ∈ timeout_q k ++ E -> to_thread (tmo k (TOthread t)) = Some t;
  (** a timed wait knows whether the thread is on a wait queue *)
  ti_waits : forall t, TOthread t ∈ timeout_q k ++ E -> X <> Some t -> waits k t;
  ti_timer : forall m, TOtimer m ∈ timeout_q k ++ E -> to_thread (tmo k (TOtimer m)) = None
}.

(** Outside the announcement of a tick, every queued timeout is in the future. *)
Record tq_inv X E k : Prop := {
  ti_wf : tq_wf X E k;
  ti_future : Forall (fun oe => 0 < snd oe) (expiry_list k)
}.

#[global] Coercion ti_wf : tq_inv >-> tq_wf.

Lemma ti_head X E k hd : tq_inv X E k -> head (timeout_q k) = Some hd -> 0 < dl k hd.
Proof.
  intros [_ Hf] Hh. unfold expiry_list in Hf. destruct (timeout_q k) as [|h l]; simplify_eq/=.
  by apply Forall_cons in Hf as [Hf _].
Qed.

Lemma future_pos (d : toid -> Z) acc l :
  (forall o, o ∈ l -> 0 <= d o) -> 0 <= acc -> (forall hd, head l = Some hd -> 0 < acc + d hd) ->
  Forall (fun oe => 0 < snd oe) (expiries d acc l).
Proof.
  revert acc. induction l as [|o l IH]; intros acc Hp Ha Hh; simpl; constructor; [by apply Hh|].
  pose proof (Hh o eq_refl). apply IH; [intros x Hx; apply Hp; by right|lia|].
  intros hd Hhd. assert (0 <= d hd); [|lia]. apply Hp. right. by destruct l; simplify_eq/=; left.
Qed.

(** A thread waits for a timer without a timeout of its own. *)
Definition untimed E k : Prop :=
  forall m u, u ∈ queues k !!! timer_wq m -> TOthread u ∉ timeout_q k ++ E.

Record kinv X E k : Prop := {
  ki_sched : sched_inv X k;
  ki_tq : tq_inv X E k;
  ki_untimed : untimed E k
}.

Lemma untimed_agree E E' k k' :
  (forall w u, u ∈ queues k' !!! WQ w -> u ∈ queues k !!! WQ w) ->
  (forall o, o ∈ timeout_q k' ++ E' -> o ∈ timeout_q k ++ E) ->
  untimed E k -> untimed E' k'.
Proof. intros Hq Ht Hu m u Hm Hin. by eapply Hu; [apply Hq|apply Ht]. Qed.

(** ** Timeouts and readiness *)

Lemma tq_active X E k o : tq_inv X E k -> o ∈ timeout_q k ++ E -> dl k o <> _INACTIVE.
Proof.
  intros Hi [Ho|Ho]%elem_of_app.
  - apply (ti_pos _ _ _ Hi) in Ho. unfold _INACTIVE. lia.
  - by rewrite (ti_expired _ _ _ Hi).
Qed.

Lemma ready_off_queue X E k t :
  tq_inv X E k -> _is_thread_ready k t = true -> TOthread t ∉ timeout_q k ++ E.
Proof. intros Hi [_ Hr]%ready_spec Ht. by apply (tq_active _ _ _ _ Hi Ht). Qed.

Lemma timed_not_ready X E k t :
  tq_inv X E k -> TOthread t ∈ timeout_q k ++ E -> _is_thread_ready k t = false.
Proof.
  intros Hi Ht. destruct (_is_thread_ready k t) eqn:Er; [|done]. by apply (ready_off_queue _ _ _ _ Hi) in Er.
Qed.

Lemma pending_prevented k t : _is_thread_pending k t = true -> prevented (thr k t) = true.
Proof. rewrite pending_spec. unfold prevented. intros ->. by rewrite orb_true_r. Qed.

Lemma pending_not_ready k t : _is_thread_pending k t = true -> _is_thread_ready k t = false.
Proof.
  intros Hp. destruct (_is_thread_ready k t) eqn:Er; [|done]. by rewrite (ready_not_pending _ _ Er) in Hp.
Qed.

(** A change of the timeouts keeps the scheduler's invariant when no thread
    that could run starts or stops waiting for a timeout. *)
Lemma sched_timeouts X k k' :
  tq_frame k k' ->
  (forall u, X <> Some u -> prevented (thr k u) = true \/
     (dl k' (TOthread u) = _INACTIVE <-> dl k (TOthread u) = _INACTIVE)) ->
  sched_inv X k -> sched_inv X k'.
Proof.
  intros Hf Hd Hi. assert (forall u, thr k' u = thr k u) as Ht by (intros u; by rewrite Hf).
  apply (sched_inv_agree X k); try (rewrite Hf; done); [| |done].
  - intros u. rewrite Ht. apply (ri_prio _ _ (si_rq _ _ Hi)).
  - intros u Hu. rewrite Ht. split; [done|]. split.
    + destruct (Hd u Hu) as [Hp|Hd']; [|apply ready_ext; [by rewrite Ht|done]].
      apply eq_bool_prop_intro. rewrite !Is_true_true, !ready_spec, Ht, Hp. split; by intros [].
    + apply pending_ext. by rewrite Ht.
Qed.

(** The timeout part does not look at anything but timeouts and pending. *)
Lemma tq_inv_agree X X' E k k' :
  timeout_q k' = timeout_q k -> timeouts k' = timeouts k ->
  (forall t, TOthread t ∈ timeout_q k ++ E -> X' <> Some t ->
     waits k' t \/ (X <> Some t /\ _is_thread_pending k' t = _is_thread_pending k t)) ->
  tq_inv X E k -> tq_inv X' E k'.
Proof.
  intros Hq Ht Hw [[H1 H2 H3 H4 H5 H6 H7 H8] H9].
  assert (forall o, tmo k' o = tmo k o) as Hm by (intros o; unfold tmo; by rewrite Ht).
  assert (forall o, dl k' o = dl k o) as Hd by (intros o; unfold dl; by rewrite Hm).
  split; [|unfold expiry_list; rewrite Hq; by rewrite (expiries_ext (dl k') (dl k))].
  split; rewrite ?Hq; try done.
  - intros o. rewrite Hd. apply H2.
  - erewrite sum_deltas_ext; [exact H3|done].
  - intros o. rewrite Hd. apply H4.
  - intros o. rewrite Hd. apply H5.
  - intros t. rewrite Hm. apply H6.
  - intros t Ht' Hx. destruct (Hw t Ht' Hx) as [|[Hx' Hp]]; [done|].
    unfold waits. rewrite Hm, Hp. by apply H7.
  - intros m. rewrite Hm. apply H8.
Qed.

(** ** What the steps do to the wait queues and to the timeout queue *)

Lemma remove_wq k t w u :
  u ∈ queues (_remove_thread_from_ready_q k t) !!! WQ w -> u ∈ queues k !!! WQ w.
Proof.
  rewrite remove_unfold. change (queues (set_cache (removed k t) _)) with (queues (removed k t)).
  rewrite removed_queue, list_elem_of_filter. tauto.
Qed.

Lemma remove_timeouts k t :
  timeout_q (_remove_thread_from_ready_q k t) = timeout_q k /\
  timeouts (_remove_thread_from_ready_q k t) = timeouts k.
Proof. rewrite remove_unfold. unfold removed. by destruct (Lst.is_empty _ _). Qed.

Lemma add_wq k t w : queues (_add_thread_to_ready_q k t) !!! WQ w = queues k !!! WQ w.
Proof. rewrite add_queue. by rewrite decide_False. Qed.

Lemma ready_thread_wq k t w : queues (_ready_thread k t) !!! WQ w = queues k !!! WQ w.
Proof. unfold _ready_thread. cbv zeta. destruct (_is_thread_ready _ _); [exact (add_wq (_mark_thread_as_started k t) t w)|done]. Qed.

Lemma ready_thread_timeouts k t :
  timeout_q (_ready_thread k t) = timeout_q k /\ timeouts (_ready_thread k t) = timeouts k.
Proof. unfold _ready_thread. cbv zeta. by destruct (_is_thread_ready _ _). Qed.

Lemma handling_ready_thread k t : handling_timeouts (_ready_thread k t) = handling_timeouts k.
Proof. unfold _ready_thread. cbv zeta. by destruct (_is_thread_ready _ _). Qed.

Lemma unpend_wq k t w u : u ∈ queues (_unpend_thread k t) !!! WQ w -> u ∈ queues k !!! WQ w.
Proof.
  change (queues (_unpend_thread k t)) with (Lst.remove (queues k) t).
  rewrite Lst.lookup_remove, list_elem_of_filter. tauto.
Qed.

Lemma move_wq k t w u :
  u ∈ queues (_move_thread_to_end_of_prio_q k t) !!! WQ w -> u ∈ queues k !!! WQ w.
Proof.
  unfold _move_thread_to_end_of_prio_q. cbv zeta. destruct (Lst.is_tail _ _ _); [done|].
  cbn [queues set_queues set_cache]. rewrite Lst.append_other by done.
  rewrite Lst.lookup_remove, list_elem_of_filter. tauto.
Qed.

(** ** Steps *)

Lemma kinv_remove E k t :
  kinv None E k -> _is_thread_ready k t = true -> t <> idle_thread ->
  kinv (Some t) E (_remove_thread_from_ready_q k t).
Proof.
  intros [H1 H2 H3] Hr Ht. destruct (remove_timeouts k t) as [Eq Et].
  split; [by apply sched_remove| |apply (untimed_agree E _ k); [apply remove_wq|by rewrite Eq|done]].
  apply (tq_inv_agree None _ _ k); [done|done| |done].
  intros u _ _. right. split; [done|]. apply remove_pending.
Qed.

Lemma kinv_add E k t :
  kinv (Some t) E k -> _is_thread_ready k t = true -> kinv None E (_add_thread_to_ready_q k t).
Proof.
  intros [H1 H2 H3] Hr.
  split; [by apply sched_add| |apply (untimed_agree E _ k); [by intros w u; rewrite add_wq|done|done]].
  apply (tq_inv_agree (Some t) _ _ k); try done.
  intros u Hu _. right. split; [|done]. intros [= <-]. by apply (ready_off_queue _ _ _ _ H2 Hr).
Qed.

Lemma kinv_open E k t :
  kinv None E k -> _is_thread_ready k t = false -> _is_thread_pending k t = false -> kinv (Some t) E k.
Proof.
  intros [H1 H2 H3] Hr Hp. split; [by apply sched_open| |done].
  apply (tq_inv_agree None _ _ k); try done. intros u _ _. by right.
Qed.

Lemma kinv_close E k t :
  kinv (Some t) E k -> _is_thread_ready k t = false -> _is_thread_pending k t = false ->
  (TOthread t ∈ timeout_q k ++ E -> to_wait_q (tmo k (TOthread t)) = None) -> kinv None E k.
Proof.
  intros [H1 H2 H3] Hr Hp Hw. split; [by eapply sched_close| |done].
  apply (tq_inv_agree (Some t) _ _ k); try done. intros u Hu _.
  destruct (decide (u = t)) as [->|Hne]; [left|right].
  - unfold waits. rewrite Hp. split; [done|]. intros _. by apply Hw.
  - split; [congruence|done].
Qed.

Lemma kinv_ready_thread E k t :
  kinv (Some t) E k -> _is_thread_pending k t = false ->
  (TOthread t ∈ timeout_q k ++ E -> to_wait_q (tmo k (TOthread t)) = None) ->
  kinv None E (_ready_thread k t).
Proof.
  intros [H1 H2 H3] Hp Hw. destruct (ready_thread_timeouts k t) as [Eq Et].
  split; [by apply sched_ready_thread| |].
  2:{ apply (untimed_agree E _ k); [by intros w u; rewrite ready_thread_wq|by rewrite Eq|done]. }
  apply (tq_inv_agree (Some t) _ _ k); [done|done| |done].
  assert (forall u, _is_thread_pending (_ready_thread k t) u = _is_thread_pending k u) as Hpend.
  { intros u. transitivity (_is_thread_pending (_mark_thread_as_started k t) u).
    - unfold _ready_thread. cbv zeta. by destruct (_is_thread_ready _ _).
    - rewrite !pending_spec, started_thr. case_decide; [subst|done].
      change _THREAD_PRESTART with (Z.shiftl 1 2). rewrite st_bit_clear by done. apply andb_true_r. }
  intros u Hu _. destruct (decide (u = t)) as [->|Hne]; [left|right; split; [congruence|apply Hpend]].
  unfold waits. rewrite Hpend, Hp. split; [done|]. intros _. specialize (Hw Hu). rewrite <- Hw.
  unfold _ready_thread. cbv zeta. by destruct (_is_thread_ready _ _).
Qed.

Lemma kinv_move_to_end E k t :
  kinv None E k -> _is_thread_ready k t = true -> kinv None E (_move_thread_to_end_of_prio_q k t).
Proof.
  intros [H1 H2 H3] Hr. split; [by apply sched_move_to_end| |].
  2:{ apply (untimed_agree E _ k); [apply move_wq| |done].
      unfold _move_thread_to_end_of_prio_q. cbv zeta. by destruct (Lst.is_tail _ _ _). }
  apply (tq_inv_agree None _ _ k); try done;
    unfold _move_thread_to_end_of_prio_q; cbv zeta; destruct (Lst.is_tail _ _ _); try done; by right.
Qed.

Lemma kinv_upd_other X E k t f :
  (forall x, prio (f x) = prio x) -> (forall x, thread_state (f x) = thread_state x) ->
  kinv X E k -> kinv X E (upd_thread k t f).
Proof.
  intros Hp Hs [H1 H2 H3]. split; [by apply sched_upd_other| |done].
  apply (tq_inv_agree X _ _ k); try done. intros u _ Hu. right. split; [done|].
  apply pending_ext. rewrite thr_upd_thread. case_decide; subst; by rewrite ?Hs.
Qed.

(** A change of a thread that affects neither its priority nor whether it can
    run or is pending. *)
Lemma kinv_upd_same X E k t f :
  (forall x, prio (f x) = prio x) ->
  _is_thread_ready (upd_thread k t f) t = _is_thread_ready k t ->
  _is_thread_pending (upd_thread k t f) t = _is_thread_pending k t ->
  kinv X E k -> kinv X E (upd_thread k t f).
Proof.
  intros Hp Hr Hpd [H1 H2 H3].
  assert (forall u, _is_thread_ready (upd_thread k t f) u = _is_thread_ready k u /\
    _is_thread_pending (upd_thread k t f) u = _is_thread_pending k u) as Hu.
  { intros u. destruct (decide (u = t)) as [->|Hne]; [done|].
    split; [apply ready_ext|apply pending_ext]; by rewrite ?thr_upd_other. }
  split; [| |done].
  - apply (sched_inv_agree X k); try done.
    + intros u. rewrite thr_upd_thread. destruct (decide _) as [->|]; rewrite ?Hp; apply (ri_prio _ _ (si_rq _ _ H1)).
    + intros u _. split; [|apply Hu]. rewrite thr_upd_thread. destruct (decide _) as [->|]; by rewrite ?Hp.
  - apply (tq_inv_agree X _ _ k); try done. intros u _ Hx. right. split; [done|apply Hu].
Qed.

(** Any change of the thread in transit that keeps its priority valid. *)
Lemma kinv_upd_transit E k t f :
  prio_range (prio (f (thr k t))) -> kinv (Some t) E k -> kinv (Some t) E (upd_thread k t f).
Proof.
  intros Hp [H1 H2 H3]. split; [by apply sched_upd_transit| |done].
  apply (tq_inv_agree (Some t) _ _ k); try done. intros u _ Hu. right. split; [done|].
  apply pending_ext. rewrite thr_upd_other; [done|congruence].
Qed.

Lemma kinv_priority_set E k t (p : Z) :
  kinv None E k -> t <> idle_thread -> prio_range p -> kinv None E (_thread_priority_set k t p).
Proof.
  intros [H1 H2 H3] Ht Hp. split; [by apply sched_priority_set| |].
  2:{ apply (untimed_agree E _ k); [| |done]; unfold _thread_priority_set; cbv zeta;
        destruct (_is_thread_ready k t); try done.
      - intros w u. rewrite add_wq. apply remove_wq.
      - change (forall o, o ∈ timeout_q (_remove_thread_from_ready_q k t) ++ E -> o ∈ timeout_q k ++ E).
        by rewrite (proj1 (remove_timeouts k t)). }
  assert (forall u, thread_state (thr (_thread_priority_set k t p) u) = thread_state (thr k u)) as Hs.
  { intros u. unfold _thread_priority_set. cbv zeta. destruct (_is_thread_ready k t).
    - change (thread_state (thr (upd_thread (_remove_thread_from_ready_q k t) t (with_prio (s8 p))) u) = thread_state (thr k u)).
      rewrite thr_upd_thread. case_decide; subst; cbn [thread_state with_prio]; by rewrite remove_thr.
    - rewrite thr_upd_thread. by case_decide; subst. }
  destruct (remove_timeouts k t) as [Hq Hto].
  apply (tq_inv_agree None _ _ k); [| | |done].
  1,2: unfold _thread_priority_set; cbv zeta; by destruct (_is_thread_ready k t).
  intros u _ _. right. split; [done|]. by apply pending_ext.
Qed.

(** Moving a thread between ready queues does not touch the wait queues. *)
Lemma remove_wq_eq E k t w :
  kinv None E k -> _is_thread_ready k t = true ->
  queues (_remove_thread_from_ready_q k t) !!! WQ w = queues k !!! WQ w.
Proof.
  intros Hi Hr. rewrite remove_unfold. change (queues (set_cache (removed k t) _)) with (queues (removed k t)).
  rewrite removed_queue. apply filter_ne_id. intros Hin.
  apply (ri_wq _ _ (si_rq _ _ (ki_sched _ _ _ Hi))) in Hin as [_ Hp]. by rewrite (ready_not_pending _ _ Hr) in Hp.
Qed.

Lemma priority_set_wq E k t (p : Z) w :
  kinv None E k -> queues (_thread_priority_set k t p) !!! WQ w = queues k !!! WQ w.
Proof.
  intros Hi. unfold _thread_priority_set. cbv zeta. destruct (_is_thread_ready k t) eqn:Er; [|done].
  rewrite add_wq. by apply (remove_wq_eq E).
Qed.

Lemma kinv_unpend E k t :
  kinv None E k -> _is_thread_pending k t = true -> kinv (Some t) E (_unpend_thread k t).
Proof.
  intros [H1 H2 H3] Hp. split; [by apply sched_unpend| |apply (untimed_agree E _ k); [apply unpend_wq|done|done]].
  apply (tq_inv_agree None _ _ k); try done. intros u _ Hu. right. split; [done|].
  apply pending_ext. unfold _unpend_thread, _mark_thread_as_not_pending, _reset_thread_states.
  rewrite thr_upd_other; [done|congruence].
Qed.

Lemma unpend_not_pending k t : _is_thread_pending (_unpend_thread k t) t = false.
Proof.
  rewrite pending_spec. unfold _unpend_thread, _mark_thread_as_not_pending, _reset_thread_states.
  rewrite thr_upd_same. change _THREAD_PENDING with (Z.shiftl 1 1). rewrite st_bit_clear by done.
  apply andb_false_r.
Qed.

(** ** Timeouts *)

Lemma abort_inactive k o : dl k o = _INACTIVE -> _abort_timeout k o = (k, _INACTIVE).
Proof. intros Hd. unfold _abort_timeout. fold (dl k o). by rewrite Hd. Qed.

Lemma tq_frame_pending k k' u : tq_frame k k' -> _is_thread_pending k' u = _is_thread_pending k u.
Proof. by intros ->. Qed.

Lemma tq_inv_abort X E k o :
  tq_inv X E k -> o ∈ timeout_q k -> tq_inv X E (fst (_abort_timeout k o)).
Proof.
  intros [[H1 H2 H3 H4 H5 H6 H7 H8] H9] Ho.
  pose proof (proj1 (NoDup_app _ _) H1) as (Hn1 & Hn2 & Hn3).
  destruct (list_elem_of_split_l _ _ Ho) as (l1 & l2 & Hq & Hl1).
  destruct (abort_timeout_spec k o l1 l2 Hq Hn1 H2 H3) as (_ & Hq' & Hd & Hf & Hfr).
  pose proof (abort_timeout_expiries k o Ho Hn1 H2 H3) as Hexp.
  set (k' := fst (_abort_timeout k o)) in *.
  rewrite Hq in Hn1. apply NoDup_app in Hn1 as (Hm1 & Hm2 & Hm3). apply NoDup_cons in Hm3 as [Hm3 Hm4].
  assert (Hin : forall x, x ∈ timeout_q k' <-> x <> o /\ x ∈ timeout_q k).
  { intros x. rewrite Hq', Hq, !elem_of_app, elem_of_cons. split; [|naive_solver].
    intros [Hx|Hx]; split; try (intros ->; done); auto. }
  assert (Hall : forall x, x ∈ timeout_q k' ++ E -> x ∈ timeout_q k ++ E /\ x <> o).
  { intros x. rewrite !elem_of_app, Hin. intros [[]|Hx]; [auto|]. split; [auto|].
    intros ->. by apply (Hn2 o). }
  assert (HE : forall x, x ∈ E -> dl k' x = dl k x).
  { intros x Hx. rewrite Hd, decide_False by (intros ->; by apply (Hn2 o)).
    rewrite decide_False; [done|]. intros Hh. apply (Hn2 x); [|done]. rewrite Hq.
    destruct l2; simplify_eq/=. apply elem_of_app. right. right. left. }
  split; [|rewrite Hexp; apply Forall_forall; intros x [_ Hx]%list_elem_of_filter; by apply (proj1 (Forall_forall _ _) H9)]. split.
  - rewrite Hq'. apply NoDup_app. split.
    + apply NoDup_app. split; [done|]. split; [|done]. intros x Hx1 Hx2. apply (Hm2 x Hx1). by right.
    + split; [|done]. intros x Hx. apply Hn2. rewrite Hq. rewrite elem_of_app in Hx |- *.
      rewrite elem_of_cons. tauto.
  - intros x [Hx1 Hx2]%Hin. rewrite Hd, decide_False by done. pose proof (H2 x Hx2). pose proof (H2 o Ho).
    case_decide; lia.
  - assert (sum_deltas (dl k') (timeout_q k') <= sum_deltas (dl k) (timeout_q k)); [|lia].
    rewrite Hq', Hq, !sum_deltas_app. simpl.
    rewrite (sum_deltas_ext (dl k') (dl k) l1).
    2:{ intros x Hx. rewrite Hd, decide_False by (intros ->; done). rewrite decide_False; [done|].
        intros Hh. apply (Hm2 x Hx). right. destruct l2; simplify_eq/=. left. }
    destruct l2 as [|nx l2]; simpl; [pose proof (H2 o Ho); lia|].
    rewrite Hd, decide_False, decide_True by (done || set_solver).
    apply NoDup_cons in Hm4 as [Hm4 _].
    rewrite (sum_deltas_ext (dl k') (dl k) l2); [lia|].
    intros x Hx. rewrite Hd, decide_False by (intros ->; set_solver).
    rewrite decide_False; [done|]. simpl. intros [= ->]. done.
  - intros x Hx. rewrite HE by done. by apply H4.
  - intros x Hx1 Hx2. rewrite Hd. case_decide as Ex; [done|].
    rewrite decide_False; [apply H5; [|done]; rewrite Hin in Hx1; tauto|].
    intros Hh. apply Hx1. rewrite Hin. split; [done|]. rewrite Hq. destruct l2; simplify_eq/=.
    apply elem_of_app. right. right. left.
  - intros t Ht. destruct (Hf (TOthread t)) as (-> & _). apply H6. by apply Hall.
  - intros t Ht Hx. unfold waits. destruct (Hf (TOthread t)) as (_ & -> & _).
    rewrite (tq_frame_pending _ _ _ Hfr). apply H7; [by apply Hall|done].
  - intros m Hm. destruct (Hf (TOtimer m)) as (-> & _). apply H8. by apply Hall.
Qed.

Lemma abort_frame k o : tq_frame k (fst (_abort_timeout k o)).
Proof.
  unfold _abort_timeout. destruct (_ =? _); [apply tq_frame_refl|]. cbn [fst].
  destruct (negb _); [destruct (next_after _ _)|];
    repeat (eapply tq_frame_trans; [|apply tq_frame_upd]);
    repeat (eapply tq_frame_trans; [|apply tq_frame_set]);
    repeat (eapply tq_frame_trans; [|apply tq_frame_upd]); apply tq_frame_refl.
Qed.

Lemma abort_sub k o x : x ∈ timeout_q (fst (_abort_timeout k o)) -> x ∈ timeout_q k.
Proof.
  unfold _abort_timeout. destruct (_ =? _); [done|]. cbn [fst].
  destruct (negb _); [destruct (next_after _ _)|]; cbn [timeout_q set_timeout_q upd_timeout set_timeouts];
    rewrite list_elem_of_filter; tauto.
Qed.

Lemma kinv_abort_prevented X E k o :
  kinv X E k -> o ∉ E -> (forall t, o = TOthread t -> X = Some t \/ prevented (thr k t) = true) ->
  kinv X E (fst (_abort_timeout k o)).
Proof.
  intros [H1 H2 H3] HoE Hx. destruct (decide (o ∈ timeout_q k)) as [Ho|Ho].
  - split; [|by apply tq_inv_abort|].
    2:{ apply (untimed_agree E _ k); [by rewrite (abort_frame k o)| |done].
        intros x. rewrite !elem_of_app. intros [Hq|]; [left|by right]. by apply (abort_sub k o). }
    pose proof (ti_nodup _ _ _ H2) as Hnd. apply NoDup_app in Hnd as (Hnd & _ & _).
    destruct (list_elem_of_split_l _ _ Ho) as (l1 & l2 & Hq & _).
    destruct (abort_timeout_spec k o l1 l2 Hq Hnd (ti_pos _ _ _ H2) (ti_sum _ _ _ H2)) as (_ & _ & Hd & _ & Hfr).
    apply (sched_timeouts X k); [done| |done]. intros u Hu.
    destruct (decide (TOthread u = o)) as [<-|Hne]; [left; by destruct (Hx u eq_refl)|right].
    rewrite Hd, decide_False by done. case_decide as Eh; [|done].
    assert (TOthread u ∈ timeout_q k) as Hin.
    { rewrite Hq. destruct l2; simplify_eq/=. apply elem_of_app. right. right. left. }
    pose proof (ti_pos _ _ _ H2 _ Hin). pose proof (ti_pos _ _ _ H2 _ Ho). unfold _INACTIVE. lia.
  - rewrite abort_inactive; [done|]. by apply (ti_inactive _ _ _ H2).
Qed.

Lemma kinv_abort X E k o :
  kinv X E k -> o ∉ E -> (forall t, o = TOthread t -> X = Some t) -> kinv X E (fst (_abort_timeout k o)).
Proof. intros Hi Ho Hx. apply kinv_abort_prevented; [done|done|]. intros t Et. left. by apply Hx. Qed.

(** After an abort the timeout is on no queue, whatever it was before. *)
Lemma abort_off X E k o : tq_inv X E k -> o ∉ E -> o ∉ timeout_q (fst (_abort_timeout k o)) ++ E.
Proof.
  intros Hi HoE. rewrite not_elem_of_app. split; [|done].
  destruct (decide (o ∈ timeout_q k)) as [Ho|Ho].
  - pose proof (ti_nodup _ _ _ Hi) as Hnd. apply NoDup_app in Hnd as (Hnd & _ & _).
    destruct (list_elem_of_split_l _ _ Ho) as (l1 & l2 & Hq & Hl1).
    destruct (abort_timeout_spec k o l1 l2 Hq Hnd (ti_pos _ _ _ Hi) (ti_sum _ _ _ Hi)) as (_ & -> & _).
    rewrite Hq in Hnd. apply NoDup_app in Hnd as (_ & _ & Hnd). apply NoDup_cons in Hnd as [Hnd _].
    rewrite elem_of_app. tauto.
  - rewrite abort_inactive; [done|]. by apply (ti_inactive _ _ _ Hi).
Qed.

(** The others keep their expiry times, whether the timeout was active or not. *)
Lemma expiries_off k o : o ∉ timeout_q k -> filter (fun e => e.1 <> o) (expiry_list k) = expiry_list k.
Proof.
  intros Ho. apply filter_all, Forall_forall. intros [x e] Hx E. simpl in E. subst x. apply Ho.
  rewrite <- (expiries_fst (dl k) 0 (timeout_q k)). apply list_elem_of_fmap. by exists (o, e).
Qed.

Lemma abort_expiries X k o :
  tq_inv X [] k -> expiry_list (fst (_abort_timeout k o)) = filter (fun e => e.1 <> o) (expiry_list k).
Proof.
  intros Hi. pose proof (ti_nodup _ _ _ Hi) as Hnd. rewrite app_nil_r in Hnd. destruct (decide (o ∈ timeout_q k)) as [Ho|Ho].
  - apply abort_timeout_expiries; [done|done|apply (ti_pos _ _ _ Hi)|apply (ti_sum _ _ _ Hi)].
  - rewrite abort_inactive by (apply (ti_inactive _ _ _ Hi); [done|apply not_elem_of_nil]). by rewrite expiries_off.
Qed.

Lemma abort_pending k o u : _is_thread_pending (fst (_abort_timeout k o)) u = _is_thread_pending k u.
Proof. apply tq_frame_pending, abort_frame. Qed.

(** Waking a thread off a wait queue: unpend it, abort its timeout, ready it. *)
Lemma kinv_wake E k t :
  kinv None E k -> _is_thread_pending k t = true -> TOthread t ∉ E ->
  kinv None E (_ready_thread (fst (_abort_thread_timeout (_unpend_thread k t) t)) t).
Proof.
  intros Hi Hp HtE. assert (kinv (Some t) E (_unpend_thread k t)) as H1 by (by apply kinv_unpend).
  apply kinv_ready_thread.
  - apply kinv_abort; [done|done|congruence].
  - unfold _abort_thread_timeout. rewrite abort_pending. apply unpend_not_pending.
  - intros Hin. by apply (abort_off (Some t) E) in Hin; [|apply H1|].
Qed.

(** ** Adding a timeout *)

Lemma kinv_add_timeout X E k o (thread : option tid) (wait_q : option qid) (n : Z) tf :
  kinv X E k -> o ∉ timeout_q k ++ E -> 0 < n < 2 ^ 31 ->
  match o with
  | TOthread t => thread = Some t /\ (X = Some t \/ (prevented (thr k t) = true /\ forall m, t ∉ queues k !!! timer_wq m)) /\
                  (X = Some t \/ (wait_q = None <-> _is_thread_pending k t = false))
  | TOtimer m => thread = None
  end ->
  kinv X E (_add_timeout tf k thread o wait_q n) /\
  expiry_list (_add_timeout tf k thread o wait_q n) = tq_insert o n (expiry_list k) /\
  tq_frame k (_add_timeout tf k thread o wait_q n) /\
  o ∈ timeout_q (_add_timeout tf k thread o wait_q n) /\
  to_wait_q (tmo (_add_timeout tf k thread o wait_q n) o) = wait_q.
Proof.
  intros [H1 H2 H3] Ho Hn Hcase. unfold _add_timeout. cbv zeta.
  destruct (Z.eqb_spec n 0) as [|_]; [lia|].
  set (k1 := upd_timeout k o _).
  assert (Hk1 : forall x, tmo k1 x = if decide (x = o) then mk_timeout thread wait_q n (func (tmo k o)) else tmo k x).
  { intros x. unfold k1. by rewrite tmo_upd_timeout. }
  assert (Hd1 : forall x, x <> o -> dl k1 x = dl k x).
  { intros x Hx. unfold dl. by rewrite Hk1, decide_False. }
  pose proof (ti_nodup _ _ _ H2) as Hnd. pose proof (proj1 (NoDup_app _ _) Hnd) as (Hn1 & Hn2 & Hn3).
  rewrite not_elem_of_app in Ho. destruct Ho as [HoQ HoE].
  assert (Hne : forall x, x ∈ timeout_q k -> x <> o) by (by intros x Hx ->).
  change (timeout_q k1) with (timeout_q k).
  destruct (add_timeout_loop_spec (timeout_q k) k1 o [] 0 n) as (l' & Q1 & Q2 & Q3 & Q4 & Q5 & Q6 & Q7).
  { done. } { by apply NoDup_cons. }
  { intros x Hx. rewrite Hd1 by auto. by apply (ti_pos _ _ _ H2). }
  { rewrite (sum_deltas_ext _ (dl k)); [apply (ti_sum _ _ _ H2)|]. intros x Hx. apply Hd1; auto. }
  { unfold dl. rewrite Hk1, decide_True by done. simpl. lia. } { lia. }
  simpl in Q1. set (k' := add_timeout_loop k1 o (timeout_q k)) in *.
  assert (Hfr : tq_frame k k') by (eapply tq_frame_trans; [apply tq_frame_upd|exact Q7]).
  assert (Hexp : expiry_list k' = tq_insert o n (expiry_list k)).
  { unfold expiry_list. rewrite Q1, Q2. f_equal. apply expiries_ext. intros x Hx. apply Hd1; auto. }
  assert (Hin : forall x, x ∈ timeout_q k' ++ E <-> x = o \/ x ∈ timeout_q k ++ E).
  { intros x. rewrite !elem_of_app, Q1, Q3. tauto. }
  assert (Hoff : forall x, x ∉ l' -> tmo k' x = tmo k x).
  { intros x Hx. rewrite Q5, Hk1, decide_False; [done| |done]. intros ->. apply Hx, Q3. by left. }
  assert (Hthr : forall u, thr k' u = thr k u) by (intros u; by rewrite Hfr).
  assert (Hto : forall x, x <> o -> to_thread (tmo k' x) = to_thread (tmo k x) /\ to_wait_q (tmo k' x) = to_wait_q (tmo k x)).
  { intros x Hx. destruct (Q6 x) as (-> & -> & _). by rewrite Hk1, decide_False. }
  assert (Hoo : to_thread (tmo k' o) = thread /\ to_wait_q (tmo k' o) = wait_q).
  { destruct (Q6 o) as (-> & -> & _). by rewrite Hk1, decide_True. }
  split; [split|split; [done|split; [done|split; [|apply Hoo]]]].
  - apply (sched_timeouts X k); [done| |done]. intros u Hu.
    destruct (decide (TOthread u = o)) as [<-|Hne'].
    + left. destruct Hcase as (_ & [|[? _]] & _); done.
    + right. destruct (decide (TOthread u ∈ l')) as [Hl|Hl].
      * pose proof (Q4 _ Hl). apply Q3 in Hl as [|Hl]; [done|].
        pose proof (ti_pos _ _ _ H2 _ Hl). unfold _INACTIVE. lia.
      * unfold dl. by rewrite Hoff.
  - assert (Hperm : Permutation l' (o :: timeout_q k)).
    { rewrite <- (expiries_fst (dl k') 0 l'), Q2, tq_insert_perm. simpl. by rewrite expiries_fst. }
    split; [|rewrite Hexp, tq_insert_perm; constructor; [simpl; lia|apply (ti_future _ _ _ H2)]]. split.
    + rewrite Q1, Hperm. simpl. apply NoDup_cons. split; [rewrite elem_of_app; tauto|done].
    + rewrite Q1. done.
    + rewrite Q1. destruct (decide (l' = [])) as [->|Hl]; [done|].
      destruct (expiries_sum (dl k') 0 l' Hl) as [x Hx]. rewrite Q2, tq_insert_perm in Hx.
      apply elem_of_cons in Hx as [[= _ Hs]|Hx]; [lia|].
      rewrite (expiries_ext (dl k1) (dl k)) in Hx by (intros; apply Hd1; auto).
      apply expiries_le in Hx; [|apply (ti_pos _ _ _ H2)]. pose proof (ti_sum _ _ _ H2). simpl in Hx. lia.
    + intros x Hx. unfold dl. rewrite Hoff; [by apply (ti_expired _ _ _ H2)|].
      rewrite Q3. intros [->|Hq]; [done|]. by apply (Hn2 x).
    + intros x Hx1 Hx2. rewrite Q1 in Hx1. unfold dl. rewrite Hoff by done.
      apply (ti_inactive _ _ _ H2); [|done]. rewrite Q3 in Hx1. tauto.
    + intros t Ht. apply Hin in Ht. destruct (decide (TOthread t = o)) as [<-|Hne'].
      * rewrite (proj1 Hoo). tauto.
      * rewrite (proj1 (Hto _ Hne')). apply (ti_thread _ _ _ H2). tauto.
    + intros t Ht Hx. apply Hin in Ht. unfold waits. rewrite (tq_frame_pending _ _ _ Hfr).
      destruct (decide (TOthread t = o)) as [<-|Hne'].
      * rewrite (proj2 Hoo). tauto.
      * rewrite (proj2 (Hto _ Hne')). apply (ti_waits _ _ _ H2); tauto.
    + intros m Hm. apply Hin in Hm. destruct (decide (TOtimer m = o)) as [<-|Hne'].
      * by rewrite (proj1 Hoo).
      * rewrite (proj1 (Hto _ Hne')). apply (ti_timer _ _ _ H2). tauto.
  - intros m u Hu. rewrite Hin. intros [<-|Ht]; [|rewrite Hfr in Hu; by apply (H3 m u)].
    rewrite Hfr in Hu. destruct Hcase as (_ & [->|[_ Hm]] & _); [|by apply (Hm m)].
    by apply (in_transit_free _ _ u (timer_wq m) (si_rq _ _ H1)) in Hu.
  - rewrite Q1. apply Q3. by left.
Qed.

(** Setting up a timeout that is not active. *)
Lemma kinv_off_timeout X E k k' o :
  tq_frame k k' -> timeout_q k' = timeout_q k -> (forall x, x <> o -> tmo k' x = tmo k x) ->
  dl k' o = _INACTIVE -> o ∉ timeout_q k ++ E -> kinv X E k -> kinv X E k'.
Proof.
  intros Hf Hq Hm Hd Ho [H1 H2 H3].
  assert (dl k o = _INACTIVE) as Hd0.
  { rewrite not_elem_of_app in Ho. apply (ti_inactive _ _ _ H2); tauto. }
  assert (forall x, dl k' x = dl k x) as Hdl.
  { intros x. destruct (decide (x = o)) as [->|]; [congruence|]. unfold dl. by rewrite Hm. }
  assert (forall x, x ∈ timeout_q k ++ E -> tmo k' x = tmo k x) as Hin by (intros x Hx; apply Hm; by intros ->).
  split; [apply (sched_timeouts X k); [done| |done]; intros u _; right; by rewrite Hdl| |].
  - destruct H2 as [[I1 I2 I3 I4 I5 I6 I7 I8] I9].
    split; [|unfold expiry_list; rewrite Hq; by rewrite (expiries_ext (dl k') (dl k))].
    split; rewrite ?Hq; try done.
    + intros x. rewrite Hdl. apply I2.
    + erewrite sum_deltas_ext; [exact I3|]. intros; apply Hdl.
    + intros x. rewrite Hdl. apply I4.
    + intros x. rewrite Hdl. apply I5.
    + intros t Ht. rewrite Hin by done. by apply I6.
    + intros t Ht Hx. unfold waits. rewrite Hin by done. rewrite (tq_frame_pending _ _ _ Hf). by apply I7.
    + intros x Hx. rewrite Hin by done. by apply I8.
  - unfold untimed. rewrite Hq. by rewrite Hf.
Qed.

(** ** Expiry *)

Lemma kinv_handling X E k b : kinv X E k -> kinv X E (set_handling k b).
Proof.
  intros [H1 H2 H3]. split; [| |done].
  - apply (sched_inv_agree X k); try done. intros u. apply (ri_prio _ _ (si_rq _ _ H1)).
  - apply (tq_inv_agree X _ _ k); try done. by right.
Qed.

(** An expired timeout becomes inactive when its handler starts. *)
Lemma tq_inv_handled X E k o :
  tq_inv X (o :: E) k -> tq_inv X E (upd_timeout k o (with_delta _INACTIVE)).
Proof.
  intros [[H1 H2 H3 H4 H5 H6 H7 H8] H9]. rewrite <- Permutation_middle in H1.
  apply NoDup_cons in H1 as [Ho Hnd]. rewrite not_elem_of_app in Ho. destruct Ho as [HoQ HoE].
  set (k' := upd_timeout k o _).
  assert (Hd : forall x, x <> o -> dl k' x = dl k x) by (intros x Hx; unfold k'; by rewrite dl_upd, decide_False).
  assert (Hf : forall x, to_thread (tmo k' x) = to_thread (tmo k x) /\ to_wait_q (tmo k' x) = to_wait_q (tmo k x)).
  { intros x. unfold k'. rewrite tmo_upd_timeout. by case_decide; subst. }
  assert (Hin : forall x, x ∈ timeout_q k ++ E -> x ∈ timeout_q k ++ o :: E).
  { intros x. rewrite !elem_of_app, elem_of_cons. tauto. }
  change (timeout_q k') with (timeout_q k) in *.
  split; [|unfold expiry_list; rewrite (expiries_ext _ (dl k)); [done|intros x Hx; apply Hd; by intros ->]].
  split; try done.
  - intros x Hx. rewrite Hd by (by intros ->). by apply H2.
  - change (timeout_q k') with (timeout_q k).
    rewrite (sum_deltas_ext _ (dl k)); [done|]. intros x Hx. apply Hd. by intros ->.
  - intros x Hx. rewrite Hd by (by intros ->). apply H4. by right.
  - intros x Hx1 Hx2. destruct (decide (x = o)) as [->|Hne].
    + unfold k'. by rewrite dl_upd, decide_True.
    + rewrite Hd by done. apply H5; [done|]. by rewrite not_elem_of_cons.
  - intros t Ht. rewrite (proj1 (Hf _)). by apply H6, Hin.
  - intros t Ht Hx. unfold waits. rewrite (proj2 (Hf _)). apply H7; [by apply Hin|done].
  - intros m Hm. rewrite (proj1 (Hf _)). by apply H8, Hin.
Qed.

(** While a tick is announced, timeouts at the head of the queue may be due. *)
Record ticking k : Prop := {
  tk_sched : sched_inv None k;
  tk_tq : tq_wf None [] k;
  tk_untimed : untimed [] k
}.

Lemma ticking_handling k b : ticking k -> ticking (set_handling k b).
Proof.
  intros [H1 H2 H3]. split; [|by destruct H2; split|done].
  apply (sched_inv_agree None k); try done. intros u. apply (ri_prio _ _ (si_rq _ _ H1)).
Qed.

(** The subtraction at the head of the queue. *)
Lemma kinv_tick k hd (ticks : Z) :
  kinv None [] k -> head (timeout_q k) = Some hd -> 0 <= ticks <= dl k hd ->
  ticking (upd_timeout k hd (fun x => with_delta (s32 (delta_ticks_from_prev x - ticks)) x)).
Proof.
  intros [H1 [[I1 I2 I3 I4 I5 I6 I7 I8] _] Hun] Hh Ht. set (k' := upd_timeout k hd _).
  destruct (timeout_q k) as [|h l] eqn:Hq; simplify_eq/=.
  pose proof (proj1 (NoDup_cons _ _) I1) as [Hn1 Hn2]. rewrite not_elem_of_app in Hn1.
  assert (0 <= sum_deltas (dl k) l) as Hl.
  { apply sum_deltas_nonneg. intros x Hx. apply I2. by right. }
  assert (Hdh : dl k' hd = dl k hd - ticks).
  { unfold k'. rewrite dl_upd, decide_True by done. cbn. apply s32_small. fold (dl k hd). lia. }
  assert (Hd : forall x, x <> hd -> dl k' x = dl k x) by (intros x Hx; unfold k'; by rewrite dl_upd, decide_False).
  assert (Hf : forall x, to_thread (tmo k' x) = to_thread (tmo k x) /\ to_wait_q (tmo k' x) = to_wait_q (tmo k x)).
  { intros x. unfold k'. rewrite tmo_upd_timeout. by case_decide; subst. }
  split; [| |done].
  - apply (sched_timeouts None k); [apply tq_frame_upd| |done]. intros u _. right.
    destruct (decide (TOthread u = hd)) as [<-|]; [|by rewrite Hd].
    rewrite Hdh. unfold _INACTIVE. lia.
  - split; change (timeout_q k') with (timeout_q k); rewrite ?Hq; try done.
    + intros x [->|Hx]%elem_of_cons; [lia|]. rewrite Hd; [apply I2; by right|]. intros ->. tauto.
    + simpl. rewrite Hdh, (sum_deltas_ext _ (dl k) l); [lia|]. intros x Hx. apply Hd. intros ->. tauto.
    + intros x Hx. rewrite Hd; [by apply I4|]. intros ->. tauto.
    + intros x Hx1 Hx2. rewrite Hd; [by apply I5|]. intros ->. apply Hx1. left.
    + intros t Hin. rewrite (proj1 (Hf _)). by apply I6.
    + intros t Hin Hx. unfold waits. rewrite (proj2 (Hf _)). by apply I7.
    + intros m Hin. rewrite (proj1 (Hf _)). by apply I8.
Qed.

(** The timeouts that are due: the entries of delta 0 at the head. *)
Fixpoint due (d : toid -> Z) (l : list toid) : list toid :=
  match l with
  | [] => []
  | o :: l => if d o =? 0 then o :: due d l else []
  end.

Lemma due_split d l :
  exists r, l = due d l ++ r /\ (forall x, x ∈ due d l -> d x = 0) /\ (forall x, head r = Some x -> d x <> 0).
Proof.
  induction l as [|o l (r & E & Hz & Hr)]; simpl.
  - exists []. split; [done|]. split; [|done]. intros x Hx. by apply not_elem_of_nil in Hx.
  - destruct (Z.eqb_spec (d o) 0) as [E0|E0].
    + exists r. simpl. split; [by rewrite <- E|]. split; [|done]. by intros x [->|Hx]%elem_of_cons; auto.
    + exists (o :: l). split; [done|]. split; [intros x Hx; by apply not_elem_of_nil in Hx|].
      by intros x [= <-].
Qed.

Lemma kinv_dequeue k :
  ticking k ->
  let '(k', E') := dequeue_expired (length (timeout_q k)) k [] in
  E' = rev (due (dl k) (timeout_q k)) /\ kinv None E' k' /\
  timeout_q k = due (dl k) (timeout_q k) ++ timeout_q k' /\
  (forall x, x ∈ timeout_q k' -> dl k' x = dl k x) /\ tq_frame k k'.
Proof.
  intros [H1 [I1 I2 I3 I4 I5 I6 I7 I8] Hun]. rewrite app_nil_r in *.
  destruct (due_split (dl k) (timeout_q k)) as (r & Hq & Hz & Hr). set (z := due (dl k) (timeout_q k)) in *.
  pose proof (dequeue_expired_spec z (length (timeout_q k)) k r [] Hq I1 ltac:(lia) Hz Hr) as Hs.
  destruct (dequeue_expired _ k []) as [k' E']. destruct Hs as (-> & Hq' & Hm & Hfr).
  rewrite app_nil_r. split; [done|]. rewrite Hq in I1.
  pose proof (proj1 (NoDup_app _ _) I1) as (N1 & N2 & N3).
  assert (Hin : forall x, x ∈ r ++ rev z <-> x ∈ timeout_q k).
  { intros x. rewrite Hq, !elem_of_app, elem_of_rev. tauto. }
  assert (Hdr : forall x, x ∉ z -> dl k' x = dl k x).
  { intros x Hx. unfold dl. by rewrite Hm, decide_False. }
  assert (Hf : forall x, to_thread (tmo k' x) = to_thread (tmo k x) /\ to_wait_q (tmo k' x) = to_wait_q (tmo k x)).
  { intros x. rewrite Hm. by case_decide. }
  assert (Hrz : forall x, x ∈ r -> x ∉ z) by (intros x Hx Hx'; by apply (N2 x)).
  split; [split|split; [by rewrite Hq'|split; [|done]]].
  - apply (sched_timeouts None k); [done| |done]. intros u _. right.
    destruct (decide (TOthread u ∈ z)) as [Hu|]; [|by rewrite Hdr].
    unfold dl at 1. rewrite Hm, decide_True by done. rewrite (Hz _ Hu). done.
  - assert (forall x, x ∈ r -> 0 <= dl k' x) as Hpos.
    { intros x Hx. rewrite Hdr by auto. apply I2. rewrite Hq, elem_of_app. tauto. }
    split; [|unfold expiry_list; rewrite Hq'; apply future_pos; [done|lia|]].
    2:{ intros hd Hh. assert (hd ∈ r) as Hin' by (destruct r; simplify_eq/=; left).
        pose proof (Hpos _ Hin'). pose proof (Hr _ Hh). rewrite <- (Hdr hd) in * by auto. lia. }
    split; rewrite ?Hq'.
    + apply NoDup_app. split; [done|]. split; [intros x Hx; rewrite elem_of_rev; auto|].
      by rewrite <- Permutation_rev.
    + done.
    + rewrite (sum_deltas_ext _ (dl k) r) by auto. rewrite Hq, sum_deltas_app in I3.
      assert (0 <= sum_deltas (dl k) z); [|lia]. apply sum_deltas_nonneg. intros x Hx. by rewrite Hz.
    + intros x Hx. rewrite elem_of_rev in Hx. unfold dl. by rewrite Hm, decide_True.
    + intros x Hx1 Hx2. rewrite elem_of_rev in Hx2. rewrite Hdr by done. apply I5; [|by apply not_elem_of_nil].
      rewrite Hq, elem_of_app. tauto.
    + intros t Ht. rewrite (proj1 (Hf _)). by apply I6, Hin.
    + intros t Ht Hx. unfold waits. rewrite (proj2 (Hf _)), (tq_frame_pending _ _ _ Hfr). apply I7; [by apply Hin|done].
    + intros m Hx. rewrite (proj1 (Hf _)). by apply I8, Hin.
  - apply (untimed_agree [] _ k); [by rewrite Hfr| |done].
    intros x. rewrite Hq', app_nil_r. apply Hin.
  - intros x Hx. rewrite Hq' in Hx. auto.
Qed.

Section Handlers.
(** Timeout functions are handlers of timers; the kernel's own is
    [_timer_expiration_handler]. *)
Context (timeout_func : positive -> toid -> kernel -> kernel).
Hypothesis func_ok : forall f m k E,
  kinv None E k -> TOtimer m ∉ timeout_q k ++ E -> E = [] \/ handling_timeouts k = true ->
  kinv None E (timeout_func f (TOtimer m) k).
Hypothesis func_handling : forall f m k E,
  kinv None E k -> TOtimer m ∉ timeout_q k ++ E -> E = [] \/ handling_timeouts k = true ->
  handling_timeouts (timeout_func f (TOtimer m) k) = handling_timeouts k.

Lemma kinv_handle_one E k o :
  kinv None (o :: E) k -> E = [] \/ handling_timeouts k = true ->
  kinv None E (_handle_one_expired_timeout timeout_func k o) /\
  handling_timeouts (_handle_one_expired_timeout timeout_func k o) = handling_timeouts k.
Proof.
  intros [H1 H2 H3] Hh. unfold _handle_one_expired_timeout. cbv zeta.
  pose proof (ti_nodup _ _ _ H2) as Hnd. rewrite <- Permutation_middle in Hnd.
  apply NoDup_cons in Hnd as [Ho Hnd].
  assert (o ∈ timeout_q k ++ o :: E) as Hin by (apply elem_of_app; right; left).
  set (k1 := upd_timeout k o _).
  assert (Hun1 : untimed E k1).
  { apply (untimed_agree (o :: E) _ k); [done| |done]. intros x. change (timeout_q k1) with (timeout_q k).
    rewrite !elem_of_app, elem_of_cons. tauto. }
  assert (Hw : forall x, to_wait_q (tmo k1 x) = to_wait_q (tmo k x)).
  { intros x. unfold k1. rewrite tmo_upd_timeout. by case_decide; subst. }
  destruct o as [t|m].
  - rewrite (ti_thread _ _ _ H2 t Hin). pose proof (ti_waits _ _ _ H2 t Hin ltac:(done)) as Hwt.
    unfold _unpend_thread_timing_out. rewrite Hw.
    destruct (to_wait_q (tmo k (TOthread t))) as [w|] eqn:Ew.
    + (* the thread was waiting for an object *)
      assert (_is_thread_pending k t = true) as Hp.
      { unfold waits in Hwt. rewrite Ew in Hwt. destruct (_is_thread_pending k t); [done|]. pose proof (proj2 Hwt eq_refl). done. }
      assert (kinv None E k1) as Hk1.
      { split; [|by apply tq_inv_handled|done]. apply (sched_timeouts None k); [apply tq_frame_upd| |done].
        intros u _. destruct (decide (u = t)) as [->|Hne]; [left; by apply pending_prevented|right].
        unfold k1. rewrite dl_upd, decide_False; [done|]. congruence. }
      assert (kinv (Some t) E (_unpend_thread k1 t)) as Hk2 by (by apply kinv_unpend).
      set (k2 := _unpend_thread k1 t) in *.
      assert (kinv (Some t) E (upd_timeout k2 (TOthread t) (with_to_wait_q None))) as Hk3.
      { destruct Hk2 as [S2 T2 U2]. assert (Hm : forall x, dl (upd_timeout k2 (TOthread t) (with_to_wait_q None)) x = dl k2 x).
        { intros x. rewrite dl_upd. by case_decide; subst. }
        split; [apply (sched_timeouts _ k2); [apply tq_frame_upd| |done]; intros u _; right; by rewrite Hm| |done].
        destruct T2 as [[J1 J2 J3 J4 J5 J6 J7 J8] J9].
        split; [|unfold expiry_list; by rewrite (expiries_ext _ (dl k2))]. split; try done.
        - intros x. rewrite Hm. apply J2.
        - erewrite sum_deltas_ext; [exact J3|]. intros; apply Hm.
        - intros x. rewrite Hm. apply J4.
        - intros x. rewrite Hm. apply J5.
        - intros u Hu. rewrite tmo_upd_timeout. case_decide as Eu; [|by apply J6]. simplify_eq. by apply J6.
        - intros u Hu Hx. unfold waits. rewrite tmo_upd_timeout, decide_False by congruence. by apply J7.
        - intros m Hm'. rewrite tmo_upd_timeout. by apply J8. }
      split; [|by rewrite handling_ready_thread].
      apply kinv_ready_thread; [done|apply unpend_not_pending|].
      intros _. by rewrite tmo_upd_timeout, decide_True.
    + (* the thread was sleeping, or its start was delayed *)
      assert (_is_thread_pending k t = false) as Hp by (by apply Hwt).
      assert (_is_thread_ready k t = false) as Hr by (by eapply timed_not_ready).
      destruct (kinv_open (TOthread t :: E) k t) as [S1 T1 U1]; [done..|].
      split; [|by rewrite handling_ready_thread].
      apply kinv_ready_thread; [|done|].
      * split; [|by apply tq_inv_handled|done]. apply (sched_timeouts _ k); [apply tq_frame_upd| |done].
        intros u Hu. right. unfold k1. rewrite dl_upd, decide_False; [done|]. congruence.
      * intros _. by rewrite Hw.
  - rewrite (ti_timer _ _ _ H2 m Hin).
    assert (kinv None E k1) as Hk1.
    { split; [|by apply tq_inv_handled|done]. apply (sched_timeouts None k); [apply tq_frame_upd| |done].
      intros u _. right. unfold k1. by rewrite dl_upd. }
    destruct (func (tmo k1 (TOtimer m))) as [f|]; [|done].
    split; [by apply func_ok|exact (func_handling f m k1 E Hk1 Ho Hh)].
Qed.

Lemma kinv_handle_expired E k :
  kinv None E k -> handling_timeouts k = true -> kinv None [] (_handle_expired_timeouts timeout_func k E).
Proof.
  revert k. induction E as [|o E IH]; intros k Hi Hh; [done|]. simpl.
  destruct (kinv_handle_one E k o Hi (or_intror Hh)) as [H1 H2]. apply IH; [done|by rewrite H2].
Qed.

(** The clock does not skip a timeout: [ticks] does not exceed the first delta. *)
Lemma kinv_handle_timeouts k (ticks : Z) :
  kinv None [] k -> (forall hd, head (timeout_q k) = Some hd -> 0 <= ticks <= dl k hd) ->
  kinv None [] (handle_timeouts timeout_func k ticks).
Proof.
  intros Hi Ht. unfold handle_timeouts. destruct (head (timeout_q k)) as [hd|] eqn:Hh; [|done]. cbv zeta.
  set (k1 := set_handling _ true).
  assert (ticking k1) as H1 by (apply ticking_handling, kinv_tick; auto).
  pose proof (kinv_dequeue k1 H1) as Hdq.
  destruct (dequeue_expired _ k1 []) as [k2 E]. destruct Hdq as (_ & H2 & _ & _ & Hfr).
  apply kinv_handling, kinv_handle_expired; [done|]. by rewrite Hfr.
Qed.

End Handlers.

End KInv.
