(* ===== verification/Sched.v ===== *)
(** * The scheduler's services (kernel/sched.c, kernel/sys_clock.c)

    Pending threads, context switches, the thread-level services of sched.c,
    the system clock and the interrupt exit path of the native_posix board.  A
    service that may switch returns the state right after the switch, with the
    new [current]; what the caller sees when it is switched in again is its
    [retval].  Each service runs with interrupts locked and is one step. *)

From S2P Require Import Prelude DList ListStore Kernel Ksched ReadyQ TimeoutQ KInv.

Local Open Scope Z_scope.

(** ** Definitions *)

Section Sched.
Context `{KConfig}.
Implicit Types (k : kernel) (t : tid) (wait_q : qid).
Variable timeout_func : positive -> toid -> kernel -> kernel.

Definition _TICK_ALIGN : Z := 1.

(** the optimised conversion of include/kernel.h, in 32-bit unsigned arithmetic *)
Definition _ms_to_ticks (ms : Z) : Z := s32 (u32 (u32 ms + (ms_per_tick - 1)) / ms_per_tick).

Definition __ticks_to_ms (ticks : Z) : Z := s64 (u64 (u64 ticks * ms_per_tick)).

(** [__swap] of arch/posix: the return value of the thread switched out is
    [-EAGAIN] unless [_set_thread_return_value] changes it. *)
Definition __swap k : kernel :=
  let k := upd_thread k (current k) (with_retval (- EAGAIN)) in
  set_current k (cache k).

Definition _update_time_slice_before_swap k : kernel :=
  set_slice k 0 (time_slice_duration k) (time_slice_prio_ceiling k).

Definition _Swap k : kernel := __swap (_update_time_slice_before_swap k).

(** The end of the services that may be called from an interrupt handler. *)
Definition swap_or_unlock k : kernel := if negb (_is_in_isr k) && _must_switch_threads k then _Swap k else k.

Definition _reschedule_threads k : kernel := if _must_switch_threads k then _Swap k else k.

Definition k_sched_lock k : kernel := _sched_lock k.

Definition k_sched_unlock k : kernel :=
  let k := upd_thread k (current k) (fun x => with_locked (u8 (sched_locked x + 1)) x) in
  _reschedule_threads k.

(** The [SYS_DLIST_FOR_EACH_CONTAINER] loop of [_pend_thread]: the first
    thread of lower priority. *)
Fixpoint pend_insert_point k t (l : list tid) : option tid :=
  match l with
  | [] => None
  | pending :: l => if _is_t1_higher_prio_than_t2 k t pending then Some pending else pend_insert_point k t l
  end.

Definition _pend_thread k t wait_q (timeout : Z) : kernel :=
  let k := set_queues k (Lst.insert_before (queues k) wait_q (pend_insert_point k t (queues k !!! wait_q)) t) in
  let k := _mark_thread_as_pending k t in
  if negb (timeout =? K_FOREVER) then
    let ticks := s32 (_TICK_ALIGN + _ms_to_ticks timeout) in
    _add_thread_timeout timeout_func k t (Some wait_q) ticks
  else k.

Definition _pend_current_thread k wait_q (timeout : Z) : kernel :=
  let k := _remove_thread_from_ready_q k (current k) in
  _pend_thread k (current k) wait_q timeout.

Definition _impl_k_thread_priority_get k t : Z := prio (thr k t).

Definition _impl_k_thread_priority_set k t (prio : Z) : kernel :=
  _reschedule_threads (_thread_priority_set k t prio).

(** The system call: refused unless the argument is a thread object
    ([_SYSCALL_OBJ]), the priority is valid and not higher. *)
Definition syscall_k_thread_priority_set k (obj_ok : bool) t (p : Z) : option kernel :=
  if obj_ok && _VALID_PRIO p false && (s8 p >=? prio (thr k t)) then Some (_impl_k_thread_priority_set k t p)
  else None.

Definition _impl_k_yield k : kernel :=
  let k := _move_thread_to_end_of_prio_q k (current k) in
  if bool_decide (current k = _get_next_ready_thread k) then k else _Swap k.

Definition _impl_k_sleep k (duration : Z) : kernel :=
  if duration =? 0 then _impl_k_yield k
  else
    let ticks := s32 (_TICK_ALIGN + _ms_to_ticks duration) in
    let k := _remove_thread_from_ready_q k (current k) in
    let k := _add_thread_timeout timeout_func k (current k) None ticks in
    _Swap k.

Definition _impl_k_wakeup k t : kernel :=
  if _is_thread_pending k t then k
  else
    let '(k, r) := _abort_thread_timeout k t in
    if r =? _INACTIVE then k
    else
      let k := _ready_thread k t in
      if _is_in_isr k then k else _reschedule_threads k.

Definition _impl_k_current_get k : tid := current k.

Definition k_sched_time_slice_set k (duration_in_ms prio : Z) : kernel := set_slice k 0 duration_in_ms prio.

Definition _is_thread_time_slicing k t : bool :=
  if negb (time_slice_duration k >? 0) || _is_idle_thread_ptr t
     || _is_prio_higher (prio (thr k t)) (time_slice_prio_ceiling k)
  then false
  else Lst.has_multiple_nodes (queues k) (RQ (_get_ready_q_q_index (prio (thr k t)))).

Definition _impl_k_is_preempt_thread k : bool := negb (_is_in_isr k) && _is_preempt k (current k).

(** ** The system clock *)

Definition _tick_get_32 k : Z := u32 (tick_count k).
Definition _impl_k_uptime_get_32 k : Z := u32 (__ticks_to_ms (_tick_get_32 k)).
Definition _tick_get k : Z := s64 (tick_count k).
Definition _impl_k_uptime_get k : Z := __ticks_to_ms (_tick_get k).

(** the new reference time and the result *)
Definition k_uptime_delta k (reftime : Z) : Z * Z :=
  let uptime := _impl_k_uptime_get k in
  let delta := s64 (uptime - reftime) in
  (uptime, delta).

Definition k_uptime_delta_32 k (reftime : Z) : Z * Z :=
  let '(reftime, delta) := k_uptime_delta k reftime in (reftime, u32 delta).

Definition handle_time_slicing k (ticks : Z) : kernel :=
  if negb (_is_thread_time_slicing k (current k)) then k
  else
    let elapsed := s32 (time_slice_elapsed k + __ticks_to_ms ticks) in
    let k := set_slice k elapsed (time_slice_duration k) (time_slice_prio_ceiling k) in
    if elapsed >=? time_slice_duration k then
      let k := set_slice k 0 (time_slice_duration k) (time_slice_prio_ceiling k) in
      _move_thread_to_end_of_prio_q k (current k)
    else k.

Definition _nano_sys_clock_tick_announce k (ticks : Z) : kernel :=
  let k := set_tick_count k (u64 (tick_count k + ticks)) in
  let k := handle_timeouts timeout_func k ticks in
  handle_time_slicing k ticks.

(** ** Interrupts (boards/posix/native_posix/irq_handler.c)

    [posix_irq_handler] around the interrupt handlers it vectors to: the entry
    and the exit, which switches threads when the interrupt is not nested and
    a normal ISR ran. *)

Definition irq_enter k : kernel := set_nested k (nested k + 1).

Definition irq_exit k (may_swap outermost : bool) : kernel :=
  let k := set_nested k (nested k - 1) in
  if may_swap && outermost && (preempt (thr k (current k)) <? _NON_PREEMPT_THRESHOLD)
     && negb (bool_decide (cache k = current k))
  then __swap k else k.

End Sched.

(** ** What the scheduler guarantees *)

Section Guarantees.
Context `{KConfig}.
Implicit Types (k : kernel) (t u : tid) (X : option tid) (E : list toid).

(** No thread that can run has a higher priority than the current one. *)
Definition top k : Prop :=
  forall u, _is_thread_ready k u = true -> prio (thr k (current k)) <= prio (thr k u).

(** The invariant between two steps: the state is well formed, the current
    thread can run and, at thread level, is the one that must run unless it
    cannot be preempted. *)
Record sys_inv k : Prop := {
  sy_kinv : kinv None [] k;
  sy_current : _is_thread_ready k (current k) = true;
  sy_top : nested k = 0 -> _is_preempt k (current k) = true -> top k
}.

Lemma cache_best k :
  sched_inv None k ->
  _is_thread_ready k (cache k) = true /\
  (forall u, _is_thread_ready k u = true -> prio (thr k (cache k)) <= prio (thr k u)) /\
  _get_highest_ready_prio k = prio (thr k (cache k)).
Proof.
  intros Hi. pose proof (si_rq _ _ Hi) as Hr.
  destruct (sched_nonempty _ _ Hi) as [j Hj].
  destruct (highest_exists _ _ _ Hr Hj) as (i & Hh & _).
  destruct (cache_on_highest _ _ _ Hr Hh) as [Hc Hix].
  pose proof (highest_range _ _ _ Hr Hh) as Hrange.
  split; [by apply (ri_rq _ _ Hr) in Hc as (_ & ? & _)|]. split.
  - intros u Hu. assert (u ∈ queues k !!! RQ (_get_ready_q_q_index (prio (thr k u)))) as Hin
      by (by apply (ri_rq _ _ Hr)).
    destruct (decide (_get_ready_q_q_index (prio (thr k u)) < i)) as [Hlt|Hge].
    + rewrite (proj2 Hh _ Hlt) in Hin. by apply not_elem_of_nil in Hin.
    + unfold _get_ready_q_q_index in *. lia.
  - pose proof (highest_prio_of_bits k i (ri_words _ _ Hr) (ri_bits _ _ Hr) ltac:(lia) Hh) as Hp.
    unfold _get_ready_q_q_index in *. lia.
Qed.

Lemma is_preempt_spec k t :
  0 <= sched_locked (thr k t) < 2 ^ 8 -> prio_range (prio (thr k t)) ->
  _is_preempt k t = true <-> sched_locked (thr k t) = 0 /\ 0 <= prio (thr k t).
Proof.
  intros Hl Hp%prio_range_s8. unfold _is_preempt, preempt, _PREEMPT_THRESHOLD, _NON_PREEMPT_THRESHOLD.
  rewrite Z.leb_le. set (l := sched_locked (thr k t)) in *. set (p := prio (thr k t)) in *.
  assert (Z.lor (Z.shiftl l 8) (u8 p) = l * 2 ^ 8 + u8 p) as ->.
  { rewrite Z.shiftl_mul_pow2 by lia.
    rewrite <- Z.add_lor_land. replace (Z.land (l * 2 ^ 8) (u8 p)) with 0; [lia|].
    symmetry. apply Z.bits_inj'. intros n Hn. rewrite Z.bits_0, Z.land_spec.
    destruct (decide (n < 8)) as [Hlt|Hge].
    - rewrite Z.mul_pow2_bits_low by lia. done.
    - unfold u8. rewrite Z.mod_pow2_bits_high by lia. apply andb_false_r. }
  unfold u8. split.
  - intros Hle. destruct (decide (0 <= p)) as [Hp0|Hp0].
    + rewrite (Z.mod_small p) in Hle by lia. lia.
    + replace (p mod 2 ^ 8) with (p + 2 ^ 8) in Hle by (rewrite <- (Z.mod_add p 1), Z.mod_small; lia). lia.
  - intros [-> Hp0]. rewrite Z.mod_small by lia. lia.
Qed.

(** Fields the invariant does not mention. *)
Lemma kinv_same X E k k' :
  queues k' = queues k -> prio_bmap k' = prio_bmap k -> cache k' = cache k ->
  threads k' = threads k -> timeouts k' = timeouts k -> timeout_q k' = timeout_q k ->
  kinv X E k -> kinv X E k'.
Proof.
  intros Hq Hb Hc Ht Hm Htq [H1 H2 H3].
  assert (forall u, thr k' u = thr k u) as Hthr by (intros u; unfold thr; by rewrite Ht).
  assert (forall u, _is_thread_pending k' u = _is_thread_pending k u) as Hp
    by (intros u; apply pending_ext; by rewrite Hthr).
  split; [| |unfold untimed; by rewrite Hq, Htq].
  - apply (sched_inv_agree X k); try done.
    + intros u. rewrite Hthr. apply (ri_prio _ _ (si_rq _ _ H1)).
    + intros u _. rewrite Hthr. split; [done|]. split; [|done]. apply ready_ext; [by rewrite Hthr|].
      unfold tmo. by rewrite Hm.
  - apply (tq_inv_agree X _ _ k); try done. by right.
Qed.

(** With the queues unchanged, so is who can run. *)
Lemma ready_same X k k' u :
  rq_inv X k -> rq_inv X k' -> queues k' = queues k -> X <> Some u ->
  _is_thread_ready k' u = _is_thread_ready k u.
Proof.
  intros H1 H2 Hq Hx. apply eq_bool_prop_intro. rewrite !Is_true_true. split; intros Hr.
  - assert (u ∈ queues k' !!! RQ (_get_ready_q_q_index (prio (thr k' u)))) as Hin by (by apply (ri_rq _ _ H2)).
    rewrite Hq in Hin. by apply (ri_rq _ _ H1) in Hin as (_ & ? & _).
  - assert (u ∈ queues k !!! RQ (_get_ready_q_q_index (prio (thr k u)))) as Hin by (by apply (ri_rq _ _ H1)).
    rewrite <- Hq in Hin. by apply (ri_rq _ _ H2) in Hin as (_ & ? & _).
Qed.

Lemma kinv_swap E k : kinv None E k -> kinv None E (__swap k).
Proof.
  intros Hi. unfold __swap. cbv zeta.
  apply (kinv_same _ _ (upd_thread k (current k) (with_retval (- EAGAIN)))); try done.
  by apply kinv_upd_other.
Qed.

Lemma swap_sys k : kinv None [] k -> sys_inv (__swap k).
Proof.
  intros Hi. pose proof (kinv_swap _ _ Hi) as Hi'. destruct (cache_best _ (ki_sched _ _ _ Hi')) as (Hr & Ht & _).
  split; [done|exact Hr|]. intros _ _. exact Ht.
Qed.

Lemma Swap_sys k : kinv None [] k -> sys_inv (_Swap k).
Proof. intros Hi. apply swap_sys. by apply (kinv_same _ _ k). Qed.

Lemma resched_sys k :
  kinv None [] k -> _is_thread_ready k (current k) = true -> sys_inv (_reschedule_threads k).
Proof.
  intros Hi Hr. unfold _reschedule_threads. destruct (_must_switch_threads k) eqn:Em; [by apply Swap_sys|].
  split; [done|done|]. intros _ Hp u Hu. unfold _must_switch_threads in Em. rewrite Hp in Em. simpl in Em.
  destruct (cache_best _ (ki_sched _ _ _ Hi)) as (_ & Ht & Eh). specialize (Ht u Hu).
  unfold __must_switch_threads, _is_prio_higher, _is_prio1_higher_than_prio2 in Em.
  apply Z.ltb_ge in Em. lia.
Qed.

(** A step that makes no thread ready keeps the current thread on top. *)
Lemma sys_shrink k k' :
  sys_inv k -> kinv None [] k' -> current k' = current k -> nested k' = nested k ->
  thr k' (current k) = thr k (current k) -> _is_thread_ready k' (current k) = true ->
  (forall u, _is_thread_ready k' u = true -> _is_thread_ready k u = true /\ prio (thr k' u) = prio (thr k u)) ->
  sys_inv k'.
Proof.
  intros [H1 H2 H3] Hk Hc Hn Ht Hr Hu. split; [done|by rewrite Hc|]. rewrite Hn, Hc. unfold _is_preempt. rewrite Ht.
  intros Hz Hp u Hru. rewrite Hc, Ht. destruct (Hu u Hru) as [Hru' ->]. by apply H3.
Qed.

(** Services that may be called from an ISR do not switch there. *)
Lemma isr_or_resched_sys k :
  kinv None [] k -> _is_thread_ready k (current k) = true ->
  sys_inv (if _is_in_isr k then k else _reschedule_threads k).
Proof.
  intros Hi Hr. unfold _is_in_isr. destruct (Z.eqb_spec (nested k) 0) as [|Hn]; simpl; [by apply resched_sys|].
  by split.
Qed.

End Guarantees.

(** ** Services *)

(** Insertion behind the threads of the same or a higher priority. *)
Fixpoint ins_prio (pr : tid -> Z) (t : tid) (l : list tid) : list tid :=
  match l with
  | [] => [t]
  | u :: l => if pr t <? pr u then t :: u :: l else u :: ins_prio pr t l
  end.

Lemma elem_of_ins_prio (f : tid -> Z) e l x : x ∈ ins_prio f e l <-> x = e \/ x ∈ l.
Proof. induction l as [|u l IH]; cbn; [set_solver|]. destruct (f e <? f u); set_solver. Qed.

Section Services.
Context `{KConfig}.
Implicit Types (k : kernel) (t u : tid) (w : positive) (E : list toid).
Variable tf : positive -> toid -> kernel -> kernel.

(** A timeout in milliseconds whose number of ticks is representable. *)
Definition timeout_ok (ms : Z) : Prop := 0 < s32 (_TICK_ALIGN + _ms_to_ticks ms).

Lemma timeout_ok_range (ms : Z) : 0 <= ms < 2 ^ 31 - 1 -> timeout_ok ms.
Proof.
  intros Hms. unfold timeout_ok, _ms_to_ticks, _TICK_ALIGN. pose proof ms_per_tick_range as Hm.
  rewrite (u32_small ms), u32_small by lia.
  assert (0 <= (ms + (ms_per_tick - 1)) / ms_per_tick <= ms) as Hq.
  { split; [apply Z.div_pos; lia|]. destruct (decide (ms = 0)) as [->|].
    - rewrite Z.div_small by lia. done.
    - apply Z.div_le_upper_bound; nia. }
  rewrite !s32_small by (rewrite ?s32_small; lia). lia.
Qed.

(** Where [_pend_thread] inserts: after every thread of the same or a higher
    priority it meets before the first of a lower one. *)
Lemma pend_insert_split k t (l : list tid) :
  NoDup l ->
  exists l1 l2, l = l1 ++ l2 /\ Forall (fun u => prio (thr k u) <= prio (thr k t)) l1 /\
    (forall u, head l2 = Some u -> prio (thr k t) < prio (thr k u)) /\
    match pend_insert_point k t l with
    | Some p => Lst.ins_before p t l = l1 ++ t :: l2
    | None => l ++ [t] = l1 ++ t :: l2
    end.
Proof.
  induction l as [|a l IH]; intros Hnd; simpl.
  - exists [], []. split; [done|]. split; [done|]. split; [done|done].
  - apply NoDup_cons in Hnd as [Ha Hnd].
    unfold _is_t1_higher_prio_than_t2, _is_prio1_higher_than_prio2.
    destruct (Z.ltb_spec (prio (thr k t)) (prio (thr k a))) as [Hlt|Hge].
    + exists [], (a :: l). split; [done|]. split; [done|]. split; [by intros u [= <-]|].
      simpl. by rewrite decide_True.
    + destruct (IH Hnd) as (l1 & l2 & -> & Hf & Hh & Hp). exists (a :: l1), l2.
      split; [done|]. split; [by constructor|]. split; [done|].
      destruct (pend_insert_point k t (l1 ++ l2)) as [p|] eqn:Ep; [|simpl; by rewrite Hp].
      assert (p <> a) as Hne.
      { intros ->. apply Ha. clear -Ep. induction (l1 ++ l2) as [|b l' IH]; [done|]. simpl in Ep.
        destruct (_is_t1_higher_prio_than_t2 k t b); simplify_eq; [left|right; auto]. }
      rewrite decide_False by congruence. simpl. by rewrite Hp.
Qed.

Lemma pend_queues k t w :
  NoDup (queues k !!! WQ w) ->
  let Q := Lst.insert_before (queues k) (WQ w) (pend_insert_point k t (queues k !!! WQ w)) t in
  exists l1 l2, queues k !!! WQ w = l1 ++ l2 /\ Q !!! WQ w = l1 ++ t :: l2 /\
    Forall (fun u => prio (thr k u) <= prio (thr k t)) l1 /\
    (forall u, head l2 = Some u -> prio (thr k t) < prio (thr k u)) /\
    (forall q, q <> WQ w -> Q !!! q = queues k !!! q).
Proof.
  intros Hnd Q. destruct (pend_insert_split k t _ Hnd) as (l1 & l2 & Hl & Hf & Hh & Hp).
  exists l1, l2. split; [done|]. unfold Q, Lst.insert_before.
  destruct (pend_insert_point k t (queues k !!! WQ w)).
  - split; [rewrite lookup_total_insert_eq; exact Hp|]. split; [done|]. split; [done|].
    intros q Hq. by rewrite lookup_total_insert_ne.
  - split; [rewrite Lst.append_same; exact Hp|]. split; [done|]. split; [done|].
    intros q Hq. by rewrite Lst.append_other.
Qed.

Lemma kinv_mark_pending E k t :
  kinv (Some t) E k ->
  kinv (Some t) E (_mark_thread_as_pending k t) /\ _is_thread_pending (_mark_thread_as_pending k t) t = true.
Proof.
  intros Hi. split.
  - apply kinv_upd_transit; [|done]. apply (ri_prio _ _ (si_rq _ _ (ki_sched _ _ _ Hi))).
  - rewrite pending_spec. unfold _mark_thread_as_pending, _set_thread_states. rewrite thr_upd_same.
    change _THREAD_PENDING with (Z.shiftl 1 1). rewrite st_bit_set by done. apply orb_true_r.
Qed.

Lemma kinv_pend E k t w (timeout : Z) :
  kinv (Some t) E k -> TOthread t ∉ timeout_q k ++ E ->
  timeout = K_FOREVER \/ (timeout_ok timeout /\ forall m, WQ w <> timer_wq m) ->
  kinv None E (_pend_thread tf k t (WQ w) timeout).
Proof.
  intros Hi Hto Hok. unfold _pend_thread. cbv zeta.
  destruct (kinv_mark_pending _ _ _ Hi) as [Hk0 Hp0]. set (k0 := _mark_thread_as_pending k t) in *.
  set (Q := Lst.insert_before _ _ _ t).
  pose proof (si_rq _ _ (ki_sched _ _ _ Hk0)) as Hr0.
  destruct (pend_queues k t w (ri_nodup _ _ Hr0 (WQ w))) as (l1 & l2 & Hl & Hq & _ & _ & Ho). fold Q in Hq, Ho.
  change (_mark_thread_as_pending (set_queues k Q) t) with (set_queues k0 Q).
  set (k1 := set_queues k0 Q).
  assert (kinv None E k1) as Hk1.
  { destruct Hk0 as [[S1 S2 S3] T U]. split.
    - split; [by apply (wq_insert_inv k0 k1 t w l1 l2)|done|done].
    - apply (tq_inv_agree (Some t) _ _ k0); try done. intros u Hu _. right. split; [|done].
      intros [= <-]. done.
    - intros m u Hu. destruct (decide (timer_wq m = WQ w)) as [Em|Em].
      + change (u ∈ Q !!! timer_wq m) in Hu. rewrite Em, Hq in Hu.
        assert (u = t \/ u ∈ l1 ++ l2) as [->|Hu'] by (rewrite elem_of_app in *; rewrite elem_of_cons in Hu; tauto); [done|].
        rewrite <- Hl in Hu'. apply (U m). by rewrite Em.
      + apply (U m). change (u ∈ Q !!! timer_wq m) in Hu. by rewrite Ho in Hu. }
  destruct (Z.eqb_spec timeout K_FOREVER) as [->|Hne]; cbn [negb]; [done|].
  destruct Hok as [|[Hok Hnt]]; [done|]. unfold timeout_ok in Hok. unfold _add_thread_timeout.
  apply kinv_add_timeout; [done|done|pose proof (s32_range (_TICK_ALIGN + _ms_to_ticks timeout)); lia|].
  split; [done|]. split; [right; split; [by apply pending_prevented|]|right].
  { intros m Hu. change (t ∈ Q !!! timer_wq m) in Hu. rewrite Ho in Hu by (intros E0; by apply (Hnt m)).
    by apply (in_transit_free _ _ t (timer_wq m) Hr0) in Hu. }
  change (Some (WQ w) = None <-> _is_thread_pending k0 t = false). by rewrite Hp0.
Qed.

(** Blocking the current thread, and switching to the next one. *)
Lemma pend_current_kinv k w (timeout : Z) :
  kinv None [] k -> _is_thread_ready k (current k) = true -> current k <> idle_thread ->
  timeout = K_FOREVER \/ (timeout_ok timeout /\ forall m, WQ w <> timer_wq m) ->
  kinv None [] (_pend_current_thread tf k (WQ w) timeout).
Proof.
  intros H1 H2 Hc Hok. unfold _pend_current_thread. cbv zeta.
  pose proof (kinv_remove _ _ _ H1 H2 Hc) as Hr.
  assert (timeout_q (_remove_thread_from_ready_q k (current k)) = timeout_q k /\
          current (_remove_thread_from_ready_q k (current k)) = current k) as [Hq ->].
  { rewrite remove_unfold. unfold removed. by destruct (Lst.is_empty _ _). }
  apply kinv_pend; [done| |done]. rewrite Hq. eapply ready_off_queue; [apply H1|done].
Qed.

(** Blocking changes the state of the blocked thread only. *)
Lemma pend_current_thr k (q : qid) (timeout : Z) u :
  timeout = K_FOREVER \/ timeout_ok timeout -> u <> current k ->
  thr (_Swap (_pend_current_thread tf k q timeout)) u = thr k u.
Proof.
  intros Hok Hu. unfold _pend_current_thread. cbv zeta. set (k1 := _remove_thread_from_ready_q k (current k)).
  assert (current k1 = current k /\ thr k1 u = thr k u) as [Hc <-].
  { split; [|apply remove_thr]. unfold k1. rewrite remove_unfold. unfold removed. by destruct (Lst.is_empty _ _). }
  set (k2 := _pend_thread tf k1 (current k1) q timeout).
  assert (current k2 = current k /\ thr k2 u = thr k1 u) as [Hc2 <-].
  { unfold k2, _pend_thread. cbv zeta. set (k3 := _mark_thread_as_pending _ _).
    assert (thr k3 u = thr k1 u) as <- by (rewrite <- Hc in Hu; exact (thr_upd_other (set_queues k1 _) (current k1) u _ Hu)).
    destruct (Z.eqb_spec timeout K_FOREVER) as [|Hne]; cbn [negb]; [by rewrite <- Hc|].
    destruct Hok as [|Hok]; [done|]. unfold timeout_ok in Hok. unfold _add_thread_timeout.
    assert (s32 (_TICK_ALIGN + _ms_to_ticks timeout) <> 0) as Hnz by lia.
    rewrite (add_timeout_frame tf k3 (Some (current k1)) (TOthread (current k1)) (Some q) _ Hnz). split; [by rewrite <- Hc|done]. }
  rewrite <- Hc2 in Hu.
  exact (thr_upd_other (_update_time_slice_before_swap k2) (current k2) u (with_retval (- EAGAIN)) Hu).
Qed.

(** The blocked thread is pending; otherwise its state is the same. *)
Lemma pend_current_bit k (q : qid) (timeout n : Z) :
  timeout = K_FOREVER \/ timeout_ok timeout -> 0 <= n < 8 -> n <> 1 ->
  st_bit (thr (_Swap (_pend_current_thread tf k q timeout)) (current k)) n = st_bit (thr k (current k)) n.
Proof.
  intros Hok Hn Hn1. unfold _pend_current_thread. cbv zeta. set (k1 := _remove_thread_from_ready_q k (current k)).
  assert (current k1 = current k) as Hc by (unfold k1; rewrite remove_unfold; unfold removed; by destruct (Lst.is_empty _ _)).
  rewrite <- (remove_thr k (current k) (current k)). fold k1. rewrite Hc. set (t := current k) in *.
  set (k2 := _pend_thread tf k1 t q timeout).
  assert (current k2 = t /\ st_bit (thr k2 t) n = st_bit (thr k1 t) n) as [Hc2 <-].
  { unfold k2, _pend_thread. cbv zeta. set (k3 := _mark_thread_as_pending _ _).
    assert (st_bit (thr k3 t) n = st_bit (thr k1 t) n) as <-.
    { unfold k3, _mark_thread_as_pending, _set_thread_states. rewrite thr_upd_same. change _THREAD_PENDING with (Z.shiftl 1 1).
      rewrite st_bit_set by lia. rewrite bool_decide_false by done. apply orb_false_r. }
    destruct (Z.eqb_spec timeout K_FOREVER) as [|Hne]; cbn [negb]; [done|].
    destruct Hok as [|Hok]; [done|]. unfold timeout_ok in Hok. unfold _add_thread_timeout.
    assert (s32 (_TICK_ALIGN + _ms_to_ticks timeout) <> 0) as Hnz by lia.
    by rewrite (add_timeout_frame tf k3 (Some t) (TOthread t) (Some q) _ Hnz). }
  change (st_bit (thr (upd_thread (_update_time_slice_before_swap k2) (current k2) (with_retval (- EAGAIN))) t) n = st_bit (thr k2 t) n).
  rewrite Hc2, thr_upd_same. done.
Qed.

Lemma pend_current_sys k w (timeout : Z) :
  sys_inv k -> current k <> idle_thread ->
  timeout = K_FOREVER \/ (timeout_ok timeout /\ forall m, WQ w <> timer_wq m) ->
  sys_inv (_Swap (_pend_current_thread tf k (WQ w) timeout)).
Proof. intros [H1 H2 H3] Hc Hok. by apply Swap_sys, pend_current_kinv. Qed.

(** What a wait does to the wait queue. *)
Lemma pend_thread_queues k t (q : qid) (timeout : Z) :
  timeout = K_FOREVER \/ timeout_ok timeout ->
  queues (_pend_thread tf k t q timeout)
  = Lst.insert_before (queues k) q (pend_insert_point k t (queues k !!! q)) t.
Proof.
  intros Hok. unfold _pend_thread. cbv zeta. destruct (Z.eqb_spec timeout K_FOREVER) as [->|Hne]; cbn [negb]; [done|].
  destruct Hok as [|Hok]; [done|]. unfold timeout_ok in Hok. unfold _add_thread_timeout.
  rewrite (add_timeout_frame tf (_mark_thread_as_pending _ t) (Some t) (TOthread t) (Some q) _) by lia. done.
Qed.

Lemma pend_ins_prio k t w :
  NoDup (queues k !!! WQ w) ->
  Lst.insert_before (queues k) (WQ w) (pend_insert_point k t (queues k !!! WQ w)) t !!! WQ w
  = ins_prio (fun u => prio (thr k u)) t (queues k !!! WQ w).
Proof.
  intros Hnd. destruct (pend_queues k t w Hnd) as (l1 & l2 & E & -> & H1 & H2 & _). rewrite E. clear -H1 H2.
  induction H1 as [|u l1 Hu _ IH]; simpl.
  - destruct l2 as [|u l2]; [done|]. simpl. specialize (H2 u eq_refl). destruct (Z.ltb_spec (prio (thr k t)) (prio (thr k u))); [done|lia].
  - destruct (Z.ltb_spec (prio (thr k t)) (prio (thr k u))); [lia|]. by rewrite IH.
Qed.

Lemma pend_current_wq k w (timeout : Z) :
  kinv None [] k -> _is_thread_ready k (current k) = true -> timeout = K_FOREVER \/ timeout_ok timeout ->
  queues (_Swap (_pend_current_thread tf k (WQ w) timeout)) !!! WQ w
  = ins_prio (fun u => prio (thr k u)) (current k) (queues k !!! WQ w).
Proof.
  intros H1 H2 Hok. change (queues (_Swap ?x)) with (queues x). unfold _pend_current_thread. cbv zeta.
  pose proof (remove_wq_eq [] k (current k) w H1 H2) as Hw.
  assert (forall u, thr (_remove_thread_from_ready_q k (current k)) u = thr k u) as Ht by (intros u; apply remove_thr).
  assert (current (_remove_thread_from_ready_q k (current k)) = current k) as Hc.
  { rewrite remove_unfold. unfold removed. by destruct (Lst.is_empty _ _). }
  revert Hw Ht Hc. generalize (_remove_thread_from_ready_q k (current k)) as k1. intros k1 Hw Ht Hc.
  rewrite pend_thread_queues, pend_ins_prio, Hc by (done || rewrite Hw; apply (ri_nodup _ _ (si_rq _ _ (ki_sched _ _ _ H1)))).
  rewrite Hw. clear -Ht. induction (queues k !!! WQ w) as [|u l IH]; [done|]. simpl. by rewrite !Ht, IH.
Qed.

(** The timeouts a caller of a blocking service may give. *)
Definition wait_ok (timeout : Z) : Prop := timeout = K_NO_WAIT \/ timeout = K_FOREVER \/ timeout_ok timeout.

(** Waiting for a kernel object. *)
Lemma object_wait (p : positive) (timeout : Z) :
  wait_ok timeout -> timeout <> K_NO_WAIT ->
  timeout = K_FOREVER \/ (timeout_ok timeout /\ forall m, object_wq p <> timer_wq m).
Proof. intros [|[|]] Hn; [done|by left|by right]. Qed.

Lemma pend_object_wq k (p : positive) (timeout : Z) :
  sys_inv k -> wait_ok timeout -> timeout <> K_NO_WAIT ->
  queues (_Swap (_pend_current_thread tf k (object_wq p) timeout)) !!! object_wq p
  = ins_prio (fun u => prio (thr k u)) (current k) (queues k !!! object_wq p).
Proof. intros Hs Ht Hn. apply pend_current_wq; [apply Hs|apply Hs|]. destruct Ht as [|[|]]; auto. done. Qed.

Lemma pend_object_sys k (p : positive) (timeout : Z) :
  sys_inv k -> current k <> idle_thread -> wait_ok timeout -> timeout <> K_NO_WAIT ->
  sys_inv (_Swap (_pend_current_thread tf k (object_wq p) timeout)).
Proof. intros Hs Hc Ht Hn. apply pend_current_sys; [done|done|]. by apply object_wait. Qed.

Lemma Swap_ready k u : _is_thread_ready (_Swap k) u = _is_thread_ready k u.
Proof.
  apply ready_ext; [|done].
  change (thr (_Swap k) u) with (thr (upd_thread k (current k) (with_retval (- EAGAIN))) u).
  rewrite thr_upd_thread. by destruct (decide _) as [->|].
Qed.

(** The other threads that can run still can. *)
Lemma pend_current_others k w (timeout : Z) u :
  kinv None [] k -> _is_thread_ready k (current k) = true -> current k <> idle_thread ->
  timeout = K_FOREVER \/ (timeout_ok timeout /\ forall m, WQ w <> timer_wq m) -> u <> current k -> _is_thread_ready k u = true ->
  _is_thread_ready (_Swap (_pend_current_thread tf k (WQ w) timeout)) u = true.
Proof.
  intros Hi Hr Hc Hok Hu Hru. rewrite Swap_ready.
  pose proof (pend_current_kinv k w timeout Hi Hr Hc Hok) as Hk.
  set (i := _get_ready_q_q_index (prio (thr k u))).
  assert (u ∈ queues k !!! RQ i) as Hin by (by apply (ri_rq _ _ (si_rq _ _ (ki_sched _ _ _ Hi)))).
  assert (u ∈ queues (_pend_current_thread tf k (WQ w) timeout) !!! RQ i) as Hin'; [|by apply (ri_rq _ _ (si_rq _ _ (ki_sched _ _ _ Hk))) in Hin' as (_ & ? & _)].
  unfold _pend_current_thread. cbv zeta. rewrite pend_thread_queues by tauto. rewrite Lst.insert_before_other by done.
  rewrite remove_unfold. change (queues (set_cache (removed k (current k)) _)) with (queues (removed k (current k))).
  rewrite removed_queue, list_elem_of_filter. done.
Qed.

Lemma Swap_queues k : queues (_Swap k) = queues k.
Proof. done. Qed.

(** Outside timeout handling the first waiter is the head of the queue. *)
Lemma unpend_first_head k (q : qid) :
  handling_timeouts k = false ->
  _unpend_first_thread k q =
  match queues k !!! q with [] => (k, None) | t :: _ => (_unpend_thread k t, Some t) end.
Proof.
  intros Hh. unfold _unpend_first_thread, _find_first_thread_to_unpend, Lst.peek_head. rewrite Hh.
  by destruct (queues k !!! q).
Qed.

Lemma value_with_data k t (data : Z) :
  _set_thread_return_value_with_data k t 0 data = upd_thread k t (fun x => with_swap_data data (with_retval 0 x)).
Proof.
  unfold _set_thread_return_value_with_data, _set_thread_return_value, upd_thread, thr. cbv zeta.
  cbn [threads set_threads]. rewrite lookup_total_insert_eq, insert_insert_eq. done.
Qed.

(** Waking a thread keeps the others as they are. *)
Lemma unpend_ready k t u : u <> t -> _is_thread_ready (_unpend_thread k t) u = _is_thread_ready k u.
Proof.
  intros Hu. apply ready_ext; [|done].
  unfold _unpend_thread, _mark_thread_as_not_pending, _reset_thread_states. by rewrite thr_upd_other.
Qed.

Lemma ready_thread_ready k t u : u <> t -> _is_thread_ready (_ready_thread k t) u = _is_thread_ready k u.
Proof.
  intros Hu. unfold _ready_thread. cbv zeta.
  assert (_is_thread_ready (_mark_thread_as_started k t) u = _is_thread_ready k u) as E.
  { apply ready_ext; [|done]. rewrite started_thr. by rewrite decide_False. }
  destruct (_is_thread_ready (_mark_thread_as_started k t) t); exact E.
Qed.

Lemma abort_ready X E k o u :
  kinv X E k -> o ∉ E -> (forall t, o = TOthread t -> X = Some t) -> X <> Some u ->
  _is_thread_ready (fst (_abort_timeout k o)) u = _is_thread_ready k u.
Proof.
  intros Hi HoE Hx Hu. eapply ready_same; [apply Hi|apply (kinv_abort X E k o Hi HoE Hx)| |done].
  by rewrite (abort_frame k o).
Qed.

Lemma wake_ready E k t u :
  kinv None E k -> _is_thread_pending k t = true -> TOthread t ∉ E -> u <> t ->
  _is_thread_ready (_ready_thread (fst (_abort_thread_timeout (_unpend_thread k t) t)) t) u = _is_thread_ready k u.
Proof.
  intros Hi Hp HE Hu. rewrite ready_thread_ready by done. unfold _abort_thread_timeout.
  rewrite (abort_ready (Some t) E); [by apply unpend_ready|by apply kinv_unpend|done|congruence|congruence].
Qed.

Lemma current_abort k o : current (fst (_abort_timeout k o)) = current k.
Proof. by rewrite (abort_frame k o). Qed.

Lemma current_ready_thread k t : current (_ready_thread k t) = current k.
Proof. unfold _ready_thread. cbv zeta. by destruct (_is_thread_ready _ _). Qed.

Lemma nested_ready_thread k t : nested (_ready_thread k t) = nested k.
Proof. unfold _ready_thread. cbv zeta. by destruct (_is_thread_ready _ _). Qed.

Lemma nested_abort k o : nested (fst (_abort_timeout k o)) = nested k.
Proof. by rewrite (abort_frame k o). Qed.

Lemma current_move_to_end k t : current (_move_thread_to_end_of_prio_q k t) = current k.
Proof. unfold _move_thread_to_end_of_prio_q. cbv zeta. by destruct (Lst.is_tail _ _ _). Qed.

Lemma remove_current k t : current (_remove_thread_from_ready_q k t) = current k.
Proof. rewrite remove_unfold. unfold removed. by destruct (Lst.is_empty _ _). Qed.

Lemma yield_sys k : sys_inv k -> sys_inv (_impl_k_yield k).
Proof.
  intros [H1 H2 H3]. unfold _impl_k_yield. cbv zeta.
  pose proof (kinv_move_to_end _ _ _ H1 H2) as Hm. set (k1 := _move_thread_to_end_of_prio_q k (current k)) in *.
  case_bool_decide as Ec; [|by apply Swap_sys].
  destruct (cache_best _ (ki_sched _ _ _ Hm)) as (Hr & Ht & _). unfold _get_next_ready_thread in Ec.
  split; [done|by rewrite Ec|]. intros _ _ u Hu. rewrite Ec. by apply Ht.
Qed.

(** The running thread is taken off its ready queue and its timeout queued. *)
Lemma sleeping_spec k (duration : Z) :
  sys_inv k -> current k <> idle_thread -> timeout_ok duration ->
  let t := current k in
  let n := s32 (_TICK_ALIGN + _ms_to_ticks duration) in
  let k' := _add_thread_timeout tf (_remove_thread_from_ready_q k t) t None n in
  kinv None [] k' /\ expiry_list k' = tq_insert (TOthread t) n (expiry_list k) /\
  _is_thread_ready k' t = false /\ (forall u, u <> t -> _is_thread_ready k' u = _is_thread_ready k u).
Proof.
  intros [H1 H2 _] Hc Hd t n k'. pose proof (kinv_remove _ _ _ H1 H2 Hc) as Hr. fold t in Hr.
  destruct (remove_timeouts k t) as [Hq Hto]. unfold k'. clear k'. set (k1 := _remove_thread_from_ready_q k t) in *.
  assert (TOthread t ∉ timeout_q k1 ++ []) as Hoff.
  { rewrite Hq. eapply ready_off_queue; [apply H1|done]. }
  destruct (kinv_add_timeout (Some t) [] k1 (TOthread t) (Some t) None n tf) as (Hk2 & He & Hfr & Hin & Hw); [done|done| |by auto|].
  { pose proof (s32_range (_TICK_ALIGN + _ms_to_ticks duration)). unfold timeout_ok in Hd. fold n in Hd |- *. lia. }
  unfold _add_thread_timeout. set (k2 := _add_timeout _ _ _ _ _ _) in *.
  assert (_is_thread_ready k2 t = false) as Hn.
  { eapply timed_not_ready; [apply Hk2|]. apply elem_of_app. by left. }
  split; [|split; [|split; [done|]]].
  - apply (kinv_close _ _ t); [done|done| |by intros _].
    rewrite (tq_frame_pending _ _ _ Hfr). unfold k1. rewrite remove_pending. by apply ready_not_pending.
  - rewrite He. unfold expiry_list. rewrite Hq. f_equal. apply expiries_ext. intros o _. unfold dl, tmo. by rewrite Hto.
  - intros u Hu. transitivity (_is_thread_ready k1 u); [|apply remove_ready].
    apply (ready_same (Some t)); [apply Hr|apply Hk2|by rewrite Hfr|congruence].
Qed.

Lemma sleep_sys k (duration : Z) :
  sys_inv k -> current k <> idle_thread -> duration = 0 \/ timeout_ok duration ->
  sys_inv (_impl_k_sleep tf k duration).
Proof.
  intros Hs Hc Hd. unfold _impl_k_sleep. cbv zeta.
  destruct (Z.eqb_spec duration 0) as [->|Hne]; [by apply yield_sys|]. destruct Hd as [|Hd]; [done|].
  apply Swap_sys. rewrite remove_current. by apply sleeping_spec.
Qed.

Lemma abort_active X E k o :
  tq_inv X E k -> o ∉ E -> snd (_abort_timeout k o) <> _INACTIVE -> o ∈ timeout_q k.
Proof.
  intros Hi HoE Hr. destruct (decide (o ∈ timeout_q k)) as [|Ho]; [done|].
  rewrite abort_inactive in Hr; [done|]. by apply (ti_inactive _ _ _ Hi).
Qed.

Lemma abort_inactive_same k o k1 : _abort_timeout k o = (k1, _INACTIVE) -> k1 = k.
Proof. unfold _abort_timeout. destruct (_ =? _); [congruence|]. by intros [=]. Qed.

Lemma wakeup_sys k t : sys_inv k -> sys_inv (_impl_k_wakeup k t).
Proof.
  intros [H1 H2 H3]. unfold _impl_k_wakeup. destruct (_is_thread_pending k t) eqn:Hp; [done|].
  unfold _abort_thread_timeout. destruct (_abort_timeout k (TOthread t)) as [k1 r] eqn:Ea.
  destruct (Z.eqb_spec r _INACTIVE) as [->|Hr].
  { apply abort_inactive_same in Ea as ->. by split. }
  assert (TOthread t ∈ timeout_q k) as Hin.
  { eapply abort_active; [apply H1|apply not_elem_of_nil|]. by rewrite Ea. }
  assert (_is_thread_ready k t = false) as Hnr.
  { eapply timed_not_ready; [apply H1|]. apply elem_of_app. by left. }
  pose proof (kinv_open _ _ _ H1 Hnr Hp) as Ho.
  assert (k1 = fst (_abort_timeout k (TOthread t))) as Ek by (by rewrite Ea).
  assert (current k <> t) as Hct by congruence.
  assert (kinv None [] (_ready_thread k1 t)) as Hk.
  { rewrite Ek. apply kinv_ready_thread.
    - apply kinv_abort; [done|apply not_elem_of_nil|congruence].
    - by rewrite abort_pending.
    - intros Hx. apply (abort_off (Some t)) in Hx; [done|apply Ho|apply not_elem_of_nil]. }
  apply isr_or_resched_sys; [done|].
  rewrite current_ready_thread, Ek, current_abort, ready_thread_ready by done.
  rewrite (abort_ready (Some t) []); [done|done|apply not_elem_of_nil|congruence|congruence].
Qed.

Lemma priority_set_ready k t (p : Z) u :
  _is_thread_ready (_thread_priority_set k t p) u = _is_thread_ready k u.
Proof.
  unfold _thread_priority_set. cbv zeta. destruct (_is_thread_ready k t) eqn:Er.
  - change (_is_thread_ready (upd_thread (_remove_thread_from_ready_q k t) t (with_prio (s8 p))) u = _is_thread_ready k u).
    rewrite <- (remove_ready k t u). apply ready_ext; [|done]. rewrite thr_upd_thread. by case_decide; subst.
  - apply ready_ext; [|done]. rewrite thr_upd_thread. by case_decide; subst.
Qed.

Lemma priority_set_thr k t (p : Z) u :
  thr (_thread_priority_set k t p) u = if decide (u = t) then with_prio (s8 p) (thr k t) else thr k u.
Proof.
  unfold _thread_priority_set. cbv zeta. destruct (_is_thread_ready k t) eqn:Er; [|apply thr_upd_thread].
  change (thr (upd_thread (_remove_thread_from_ready_q k t) t (with_prio (s8 p))) u =
    if decide (u = t) then with_prio (s8 p) (thr k t) else thr k u).
  rewrite thr_upd_thread, !remove_thr. done.
Qed.

(** [k_sched_unlock] changes the lock count of the current thread, and its
    return value when it is switched out. *)
Lemma sched_unlock_frame k :
  queues (k_sched_unlock k) = queues k /\ timeouts (k_sched_unlock k) = timeouts k /\
  timeout_q (k_sched_unlock k) = timeout_q k /\ handling_timeouts (k_sched_unlock k) = handling_timeouts k /\
  (forall u, u <> current k -> thr (k_sched_unlock k) u = thr k u) /\
  (forall u, prio (thr (k_sched_unlock k) u) = prio (thr k u)).
Proof.
  unfold k_sched_unlock, _reschedule_threads. cbv zeta. set (k1 := upd_thread k (current k) _).
  assert (forall u, u <> current k -> thr k1 u = thr k u) as H1 by (intros u Hu; by apply thr_upd_other).
  assert (forall u, prio (thr k1 u) = prio (thr k u)) as H2.
  { intros u. unfold k1. rewrite thr_upd_thread. destruct (decide _) as [->|]; done. }
  destruct (_must_switch_threads k1); split_and!; try done.
  - intros u Hu. rewrite <- H1 by done.
    exact (thr_upd_other (_update_time_slice_before_swap k1) (current k1) u (with_retval (- EAGAIN)) Hu).
  - intros u. rewrite <- H2. change (prio (thr (upd_thread (_update_time_slice_before_swap k1) (current k1) (with_retval (- EAGAIN))) u) = prio (thr k1 u)).
    rewrite thr_upd_thread. destruct (decide _) as [->|]; done.
Qed.

Lemma current_priority_set k t (p : Z) : current (_thread_priority_set k t p) = current k.
Proof.
  unfold _thread_priority_set. cbv zeta. destruct (_is_thread_ready k t); [|done].
  change (current (_remove_thread_from_ready_q k t) = current k).
  rewrite remove_unfold. unfold removed. by destruct (Lst.is_empty _ _).
Qed.

Lemma priority_set_sys k t (p : Z) :
  sys_inv k -> t <> idle_thread -> prio_range p -> sys_inv (_impl_k_thread_priority_set k t p).
Proof.
  intros [H1 H2 H3] Ht Hp. apply resched_sys; [by apply kinv_priority_set|].
  by rewrite priority_set_ready, current_priority_set.
Qed.

Lemma sched_lock_sys k :
  sys_inv k -> sched_locked (thr k (current k)) <> 1 -> 0 <= sched_locked (thr k (current k)) < 2 ^ 8 ->
  sys_inv (k_sched_lock k).
Proof.
  intros [H1 H2 H3] Hne Hl. unfold k_sched_lock, _sched_lock.
  assert (kinv None [] (upd_thread k (current k) (fun x => with_locked (u8 (sched_locked x - 1)) x))) as Hk
    by (by apply kinv_upd_other).
  set (k1 := upd_thread k (current k) _) in *.
  split; [done| |].
  - rewrite <- H2. apply ready_ext; [|done]. unfold k1. by rewrite thr_upd_same.
  - intros _ Hp. apply is_preempt_spec in Hp; [| |apply (ri_prio _ _ (si_rq _ _ (ki_sched _ _ _ Hk)))].
    all: unfold k1 in *; change (current (upd_thread k (current k) (fun x => with_locked (u8 (sched_locked x - 1)) x))) with (current k) in *;
      rewrite thr_upd_same in *; cbn [sched_locked with_locked] in *.
    + destruct Hp as [Hp _]. unfold u8 in Hp. exfalso.
      destruct (decide (sched_locked (thr k (current k)) = 0)) as [E|].
      * rewrite E in Hp. done.
      * rewrite Z.mod_small in Hp by lia. lia.
    + apply u8_range.
Qed.

Lemma sched_unlock_sys k : sys_inv k -> sys_inv (k_sched_unlock k).
Proof.
  intros [H1 H2 H3]. apply resched_sys; [by apply kinv_upd_other|].
  rewrite <- H2. apply ready_ext; [|done]. by rewrite thr_upd_same.
Qed.

Lemma irq_enter_sys k : sys_inv k -> 0 <= nested k -> sys_inv (irq_enter k).
Proof.
  intros [H1 H2 H3] Hn. split; [by apply (kinv_same _ _ k)|done|].
  unfold irq_enter. simpl. lia.
Qed.

Lemma irq_exit_sys k (outermost : bool) :
  sys_inv k -> 0 < nested k -> outermost = true \/ 1 < nested k -> sys_inv (irq_exit k true outermost).
Proof.
  intros [H1 H2 H3] Hn Ho. unfold irq_exit. cbv zeta. set (k1 := set_nested k (nested k - 1)).
  assert (kinv None [] k1) as Hk by (by apply (kinv_same _ _ k)).
  destruct (_ && _) eqn:Eb; [by apply swap_sys|]. split; [done|done|].
  intros Hz Hp. change (nested k1) with (nested k - 1) in Hz. destruct Ho as [->|]; [|lia]. cbn [andb] in Eb.
  destruct (preempt (thr k1 (current k1)) <? _NON_PREEMPT_THRESHOLD) eqn:El.
  - cbn [andb] in Eb. case_bool_decide as Ec; [|done].
    destruct (cache_best _ (ki_sched _ _ _ Hk)) as (_ & Ht & _). intros u Hu. rewrite <- Ec. by apply Ht.
  - unfold _is_preempt, _PREEMPT_THRESHOLD in Hp. apply Z.leb_le in Hp. apply Z.ltb_ge in El. lia.
Qed.

(** ** The clock interrupt *)

(** What a step in an interrupt keeps for the thread it interrupts. *)
Definition keeps k k' : Prop :=
  current k' = current k /\ nested k' = nested k /\ handling_timeouts k' = handling_timeouts k /\
  (_is_thread_ready k (current k) = true -> _is_thread_ready k' (current k) = true).

Lemma keeps_trans k1 k2 k3 : keeps k1 k2 -> keeps k2 k3 -> keeps k1 k3.
Proof. intros (A1 & A2 & A3 & A4) (B1 & B2 & B3 & B4). unfold keeps. rewrite A1 in *. rewrite B1, B2, B3. split_and!; [done|congruence|congruence|auto]. Qed.

End Services.

(** ** Waking the first waiter of an object *)

Section WakeFirst.
Context `{KConfig}.
Implicit Types (k : kernel) (t u : tid) (E : list toid) (w : positive).

Lemma first_not_expired_spec k (l : list tid) t :
  first_not_expired k l = Some t -> t ∈ l /\ dl k (TOthread t) <> _EXPIRED.
Proof.
  induction l as [|a l IH]; simpl; [done|]. unfold _is_thread_timeout_expired. fold (dl k (TOthread a)).
  destruct (Z.eqb_spec (dl k (TOthread a)) _EXPIRED) as [E0|E0].
  - intros [Ht Hx]%IH. split; [by right|done].
  - intros [= ->]. split; [left|done].
Qed.

Lemma find_first_spec k w t :
  _find_first_thread_to_unpend k (WQ w) None = Some t ->
  t ∈ queues k !!! WQ w /\ (handling_timeouts k = true -> dl k (TOthread t) <> _EXPIRED).
Proof.
  unfold _find_first_thread_to_unpend. destruct (handling_timeouts k).
  - assert (nodes_after None (queues k !!! WQ w) = queues k !!! WQ w) as -> by (by destruct (queues k !!! WQ w)).
    intros Ht%first_not_expired_spec. tauto.
  - unfold Lst.peek_head. destruct (queues k !!! WQ w); intros; simplify_eq/=. split; [left|done].
Qed.

(** A thread found for unpending is pending, and its timeout is not among the
    expired ones. *)
Lemma find_first_kinv E k w t :
  kinv None E k -> E = [] \/ handling_timeouts k = true ->
  _find_first_thread_to_unpend k (WQ w) None = Some t ->
  t ∈ queues k !!! WQ w /\ _is_thread_pending k t = true /\ TOthread t ∉ E.
Proof.
  intros Hi HE [Hin Hx]%find_first_spec. split; [done|]. split.
  - by apply (ri_wq _ _ (si_rq _ _ (ki_sched _ _ _ Hi))) in Hin as [_ ?].
  - destruct HE as [->|HE]; [apply not_elem_of_nil|]. intros Ht.
    apply (Hx HE). by apply (ti_expired _ _ _ (ki_tq _ _ _ Hi)).
Qed.

Lemma pending_not_current k t :
  _is_thread_pending k t = true -> _is_thread_ready k (current k) = true -> current k <> t.
Proof. intros Hp Hc E0. rewrite E0 in Hc. by rewrite pending_not_ready in Hc. Qed.

Lemma wake_keeps E k t :
  kinv None E k -> _is_thread_pending k t = true -> TOthread t ∉ E ->
  keeps k (_ready_thread (fst (_abort_thread_timeout (_unpend_thread k t) t)) t).
Proof.
  intros Hi Hp HE. unfold keeps.
  rewrite current_ready_thread, nested_ready_thread, handling_ready_thread. unfold _abort_thread_timeout.
  rewrite current_abort, nested_abort. split; [done|]. split; [done|].
  split; [by rewrite (abort_frame (_unpend_thread k t) (TOthread t))|]. intros Hc.
  rewrite (wake_ready E k t) by (done || by apply pending_not_current). done.
Qed.

Lemma keeps_upd k t f :
  (forall x, thread_state (f x) = thread_state x) -> keeps k (upd_thread k t f).
Proof.
  intros Hs. split; [done|]. split; [done|]. split; [done|]. intros Hc. etransitivity; [|exact Hc].
  apply ready_ext; [|done]. rewrite thr_upd_thread. destruct (decide _) as [->|]; by rewrite ?Hs.
Qed.

Lemma keeps_refl k : keeps k k.
Proof. by split. Qed.

(** What waking a thread [t] comes to, in the terms of the objects: it leaves
    its wait queue, waits for nothing any more and the other waiters stay. *)
Lemma ready_thread_thr k t u :
  thr (_ready_thread k t) u =
  if decide (u = t) then with_state (u8 (Z.land (thread_state (thr k t)) (Z.lnot _THREAD_PRESTART))) (thr k t)
  else thr k u.
Proof.
  rewrite <- started_thr. unfold _ready_thread. cbv zeta. by destruct (_is_thread_ready _ _).
Qed.

Lemma wake_wq k t w :
  queues (_ready_thread (fst (_abort_thread_timeout (_unpend_thread k t) t)) t) !!! WQ w
  = filter (fun u => u <> t) (queues k !!! WQ w).
Proof.
  rewrite ready_thread_wq. unfold _abort_thread_timeout.
  rewrite (abort_frame (_unpend_thread k t) (TOthread t)). apply Lst.lookup_remove.
Qed.

Lemma wake_thr k t u :
  let k' := _ready_thread (fst (_abort_thread_timeout (_unpend_thread k t) t)) t in
  (u <> t -> thr k' u = thr k u) /\ prio (thr k' u) = prio (thr k u) /\ retval (thr k' u) = retval (thr k u) /\
  swap_data (thr k' u) = swap_data (thr k u) /\ sched_locked (thr k' u) = sched_locked (thr k u).
Proof.
  intros k'. unfold k'. rewrite ready_thread_thr. unfold _abort_thread_timeout.
  rewrite (abort_frame (_unpend_thread k t) (TOthread t)).
  change (thr (set_timeouts (set_timeout_q (_unpend_thread k t) _) _) ?x) with (thr (_unpend_thread k t) x) in |- *.
  unfold _unpend_thread, _mark_thread_as_not_pending, _reset_thread_states. cbv zeta.
  destruct (decide (u = t)) as [->|Hne].
  - change (thr (set_timeouts (set_timeout_q ?k1 _) _) t) with (thr k1 t). rewrite thr_upd_same. done.
  - change (thr (set_timeouts (set_timeout_q ?k1 _) _) u) with (thr k1 u). rewrite thr_upd_other by done. done.
Qed.

Lemma wake_not_pending k t :
  _is_thread_pending (_ready_thread (fst (_abort_thread_timeout (_unpend_thread k t) t)) t) t = false.
Proof.
  rewrite pending_spec, ready_thread_thr, decide_True by done.
  change _THREAD_PRESTART with (Z.shiftl 1 2). rewrite st_bit_clear by done.
  rewrite <- pending_spec. unfold _abort_thread_timeout. by rewrite abort_pending, unpend_not_pending.
Qed.

(** Nothing but its wait keeps a waiting thread from running: it is no dummy, has not
    ended and is not suspended. *)
Definition may_run k t : Prop := st_bit (thr k t) 0 = false /\ st_bit (thr k t) 3 = false /\ st_bit (thr k t) 4 = false.

Lemma ready_may_run k t : _is_thread_ready k t = true -> may_run k t.
Proof.
  intros [Hp _]%ready_spec. unfold prevented in Hp. rewrite !orb_false_iff in Hp. by destruct Hp as [[[[? ?] ?] ?] ?].
Qed.

Lemma wake_inactive k t :
  kinv None [] k -> _is_thread_pending k t = true ->
  dl (_ready_thread (fst (_abort_thread_timeout (_unpend_thread k t) t)) t) (TOthread t) = _INACTIVE.
Proof.
  intros Hi Hp. assert (kinv (Some t) [] (_unpend_thread k t)) as Hu by (by apply kinv_unpend).
  unfold dl, tmo. rewrite (proj2 (ready_thread_timeouts _ t)).
  assert (TOthread t ∉ (@nil toid)) as Hn by apply not_elem_of_nil.
  pose proof (kinv_abort (Some t) [] _ (TOthread t) Hu Hn ltac:(congruence)) as Ha.
  apply (ti_inactive _ _ _ (ki_tq _ _ _ Ha)); [|done]. intros Hin.
  apply (abort_off (Some t) [] _ (TOthread t) (ki_tq _ _ _ Hu) Hn). apply elem_of_app. by left.
Qed.

(** Waking is complete: the thread can run. *)
Lemma wake_makes_ready k t :
  kinv None [] k -> _is_thread_pending k t = true -> may_run k t ->
  _is_thread_ready (_ready_thread (fst (_abort_thread_timeout (_unpend_thread k t) t)) t) t = true.
Proof.
  intros Hi Hp (H0 & H3 & H4). apply ready_spec. split; [|by apply wake_inactive].
  assert (forall n, 0 <= n < 8 -> st_bit (thr (_ready_thread (fst (_abort_thread_timeout (_unpend_thread k t) t)) t) t) n
    = st_bit (thr k t) n && bool_decide (n <> 1) && bool_decide (n <> 2)) as Hb.
  { intros n Hn. rewrite ready_thread_thr, decide_True by done. change _THREAD_PRESTART with (Z.shiftl 1 2). rewrite st_bit_clear by lia.
    f_equal. unfold _abort_thread_timeout. rewrite (abort_frame (_unpend_thread k t) (TOthread t)).
    change (st_bit (thr (_unpend_thread k t) t) n = st_bit (thr k t) n && bool_decide (n <> 1)).
    unfold _unpend_thread, _mark_thread_as_not_pending, _reset_thread_states. rewrite thr_upd_same.
    change _THREAD_PENDING with (Z.shiftl 1 1). by rewrite st_bit_clear by lia. }
  unfold prevented. rewrite !Hb by lia. change (thr (set_queues k _) t) with (thr k t) in *. rewrite H0, H3, H4.
  cbn. by rewrite !andb_false_r.
Qed.

(** What a service owes to the thread it wakes: the thread waits no more, and is on its
    ready queue unless something else keeps it from running. *)
Record runs_again k k' t : Prop := {
  ra_sys : sys_inv k';
  ra_pending : _is_thread_pending k' t = false;
  ra_ready : may_run k t -> _is_thread_ready k' t = true;
  ra_queue : may_run k t -> t ∈ queues k' !!! RQ (_get_ready_q_q_index (prio (thr k' t)))
}.

Lemma runs_again_intro k k' t :
  sys_inv k' -> _is_thread_pending k' t = false -> (may_run k t -> _is_thread_ready k' t = true) -> runs_again k k' t.
Proof.
  intros Hs Hp Hr. split; [done..|]. intros Hm. apply (ri_rq _ _ (si_rq _ _ (ki_sched _ _ _ (sy_kinv _ Hs)))). auto.
Qed.

(** The end of a service: in an ISR nothing more, else reschedule. *)
Lemma service_end k k1 :
  sys_inv k -> kinv None [] k1 -> keeps k k1 ->
  sys_inv (if _is_in_isr k1 then k1 else _reschedule_threads k1).
Proof.
  intros [H1 H2 H3] Hk (E1 & E2 & _ & E4). apply isr_or_resched_sys; [done|]. rewrite E1. auto.
Qed.

Lemma service_swap k k1 :
  sys_inv k -> kinv None [] k1 -> keeps k k1 ->
  sys_inv (swap_or_unlock k1).
Proof.
  intros Hs Hk Hkp. pose proof (service_end k _ Hs Hk Hkp) as Hend. unfold swap_or_unlock, _reschedule_threads in *.
  destruct (_is_in_isr k1); [done|]. by destruct (_must_switch_threads k1).
Qed.

(** A waiter is woken with a value: the object writes its return value and
    its data with [f], before ([handoff]) or after ([woken]) making it ready. *)
Definition woken k t (f : k_thread -> k_thread) : kernel :=
  upd_thread (_ready_thread (fst (_abort_thread_timeout (_unpend_thread k t) t)) t) t f.

Definition handoff k t (f : k_thread -> k_thread) : kernel :=
  _ready_thread (fst (_abort_thread_timeout (upd_thread (_unpend_thread k t) t f) t)) t.

Section Values.
Variable f : k_thread -> k_thread.
Hypothesis f_prio : forall x, prio (f x) = prio x.
Hypothesis f_state : forall x, thread_state (f x) = thread_state x.

Lemma woken_kinv E k t :
  kinv None E k -> _is_thread_pending k t = true -> TOthread t ∉ E ->
  kinv None E (woken k t f) /\ keeps k (woken k t f).
Proof.
  intros Hi Hp HE. split; [by apply kinv_upd_other, kinv_wake|].
  eapply keeps_trans; [by apply (wake_keeps E)|by apply keeps_upd].
Qed.

Lemma handoff_kinv E k t :
  kinv None E k -> _is_thread_pending k t = true -> TOthread t ∉ E ->
  kinv None E (handoff k t f) /\ keeps k (handoff k t f).
Proof.
  intros Hi Hp HE. assert (kinv (Some t) E (upd_thread (_unpend_thread k t) t f)) as H1.
  { apply kinv_upd_other; [done|done|]. by apply kinv_unpend. }
  assert (_is_thread_pending (upd_thread (_unpend_thread k t) t f) t = false) as Hnp.
  { rewrite <- (unpend_not_pending k t). apply pending_ext. by rewrite thr_upd_same. }
  unfold handoff, _abort_thread_timeout. set (k1 := upd_thread (_unpend_thread k t) t f) in *. split.
  - apply kinv_ready_thread; [by apply kinv_abort; [|done|congruence]|by rewrite abort_pending|].
    intros Hin. by apply (abort_off (Some t) E) in Hin; [|apply H1|].
  - unfold keeps. rewrite current_ready_thread, nested_ready_thread, handling_ready_thread, current_abort, nested_abort.
    split; [done|]. split; [done|]. split; [by rewrite (abort_frame k1 (TOthread t))|].
    intros Hc. pose proof (pending_not_current _ _ Hp Hc) as Hne. rewrite ready_thread_ready by done.
    rewrite (abort_ready (Some t) E); [|done|done|congruence|congruence].
    etransitivity; [|exact Hc]. rewrite <- (unpend_ready k t) by done. apply ready_ext; [|done].
    unfold k1. by rewrite thr_upd_other.
Qed.

Lemma woken_wq k t w : queues (woken k t f) !!! WQ w = filter (fun u => u <> t) (queues k !!! WQ w).
Proof. unfold woken. rewrite <- (wake_wq k t w). done. Qed.

Lemma handoff_wq k t w : queues (handoff k t f) !!! WQ w = filter (fun u => u <> t) (queues k !!! WQ w).
Proof.
  unfold handoff, _abort_thread_timeout. rewrite ready_thread_wq.
  rewrite (abort_frame (upd_thread (_unpend_thread k t) t f) (TOthread t)). apply Lst.lookup_remove.
Qed.

Lemma woken_pending k t : _is_thread_pending (woken k t f) t = false.
Proof. rewrite <- (wake_not_pending k t). apply pending_ext. unfold woken. by rewrite thr_upd_same, f_state. Qed.

(** What the woken thread finds: the value of [f]. *)
Lemma woken_thr k t :
  (forall (g : k_thread -> Z), (forall s x, g (with_state s x) = g x) ->
     (forall x y, g x = g y -> g (f x) = g (f y)) -> g (thr (woken k t f) t) = g (f (thr k t))) /\
  (forall u, u <> t -> thr (woken k t f) u = thr k u).
Proof.
  split.
  - intros g Hg Hgf. unfold woken. rewrite thr_upd_same. apply Hgf. rewrite ready_thread_thr, decide_True, Hg by done.
    unfold _abort_thread_timeout. rewrite (abort_frame (_unpend_thread k t) (TOthread t)).
    change (g (thr (_unpend_thread k t) t) = g (thr k t)). unfold _unpend_thread, _mark_thread_as_not_pending, _reset_thread_states.
    by rewrite thr_upd_same, Hg.
  - intros u Hu. unfold woken. rewrite thr_upd_other by done. by apply (wake_thr k t u).
Qed.

Lemma handoff_thr k t :
  (forall (g : k_thread -> Z), (forall s x, g (with_state s x) = g x) ->
     (forall x y, g x = g y -> g (f x) = g (f y)) -> g (thr (handoff k t f) t) = g (f (thr k t))) /\
  (forall u, u <> t -> thr (handoff k t f) u = thr k u).
Proof.
  unfold handoff, _abort_thread_timeout. set (k1 := upd_thread (_unpend_thread k t) t f).
  assert (forall u, thr (fst (_abort_timeout k1 (TOthread t))) u = thr k1 u) as Ha
    by (intros u; by rewrite (abort_frame k1 (TOthread t))).
  split.
  - intros g Hg Hgf. rewrite ready_thread_thr, decide_True, Hg, Ha by done. unfold k1. rewrite thr_upd_same.
    apply Hgf. unfold _unpend_thread, _mark_thread_as_not_pending, _reset_thread_states. by rewrite thr_upd_same, Hg.
  - intros u Hu. rewrite ready_thread_thr, decide_False, Ha by done. unfold k1. rewrite thr_upd_other by done.
    unfold _unpend_thread, _mark_thread_as_not_pending, _reset_thread_states. by rewrite thr_upd_other.
Qed.

Lemma handoff_pending k t : _is_thread_pending (handoff k t f) t = false.
Proof.
  rewrite pending_spec. unfold handoff, _abort_thread_timeout. rewrite ready_thread_thr, decide_True by done.
  change _THREAD_PRESTART with (Z.shiftl 1 2). rewrite st_bit_clear by done.
  rewrite (abort_frame _ (TOthread t)).
  change (st_bit (thr (upd_thread (_unpend_thread k t) t f) t) 1 && bool_decide (1 <> 2) = false).
  rewrite thr_upd_same. unfold st_bit. rewrite f_state. fold (st_bit (thr (_unpend_thread k t) t) 1).
  rewrite <- pending_spec. by rewrite unpend_not_pending.
Qed.

(** What the waiter and the queues look like when the service is over. *)
Record served_with k k' t : Prop := {
  sw_value : forall (g : k_thread -> Z), (forall s x, g (with_state s x) = g x) ->
    (forall x y, g x = g y -> g (f x) = g (f y)) -> g (thr k' t) = g (f (thr k t));
  sw_pending : _is_thread_pending k' t = false;
  sw_wq : forall w, queues k' !!! WQ w = filter (fun u => u <> t) (queues k !!! WQ w)
}.

Lemma woken_served k t : served_with k (woken k t f) t.
Proof. split; [apply woken_thr|apply woken_pending|apply woken_wq]. Qed.

Lemma handoff_served k t : served_with k (handoff k t f) t.
Proof. split; [apply handoff_thr|apply handoff_pending|apply handoff_wq]. Qed.

Lemma Swap_served k k1 t : current k1 <> t -> served_with k k1 t -> served_with k (_Swap k1) t.
Proof.
  intros Hc [H1 H2 H3]. assert (thr (_Swap k1) t = thr k1 t) as Ht.
  { change (thr (_Swap k1) t) with (thr (upd_thread k1 (current k1) (with_retval (- EAGAIN))) t). by rewrite thr_upd_other. }
  split; [by rewrite Ht|by rewrite (pending_ext k1); [|rewrite Ht]|done].
Qed.

Lemma service_served k k1 t :
  current k1 <> t -> served_with k k1 t -> served_with k (swap_or_unlock k1) t.
Proof. intros Hc Hs. unfold swap_or_unlock. destruct (_ && _); [by apply Swap_served|done]. Qed.

Lemma served_first k k' t w l :
  kinv None [] k -> queues k !!! WQ w = t :: l -> served_with k k' t -> queues k' !!! WQ w = l.
Proof.
  intros Hi Hq [_ _ H3]. rewrite H3, Hq.
  pose proof (ri_nodup _ _ (si_rq _ _ (ki_sched _ _ _ Hi)) (WQ w)) as Hnd. rewrite Hq in Hnd.
  by rewrite (filter_ne_split t [] l).
Qed.

Lemma woken_runs k t : sys_inv k -> _is_thread_pending k t = true -> runs_again k (swap_or_unlock (woken k t f)) t.
Proof.
  intros Hs Hp. destruct (woken_kinv [] k t (sy_kinv _ Hs) Hp) as [Hk Hkp]; [apply not_elem_of_nil|].
  pose proof (pending_not_current k t Hp (sy_current _ Hs)) as Hne.
  apply runs_again_intro; [by apply (service_swap k)| |].
  - apply (sw_pending k _ t), service_served; [by rewrite (proj1 Hkp)|apply woken_served].
  - intros Hm. assert (_is_thread_ready (woken k t f) t = true) as Hr.
    { rewrite <- (wake_makes_ready k t (sy_kinv _ Hs) Hp Hm). apply ready_ext; [|done]. unfold woken. by rewrite thr_upd_same, f_state. }
    unfold swap_or_unlock. destruct (_ && _); [by rewrite Swap_ready|done].
Qed.

End Values.

(** The thread that a blocking call switches to: the best one of those that can run. *)
Lemma pend_object_next (tf : positive -> toid -> kernel -> kernel) k (p : positive) (timeout : Z) :
  sys_inv k -> current k <> idle_thread -> wait_ok timeout -> timeout <> K_NO_WAIT ->
  let k' := _Swap (_pend_current_thread tf k (object_wq p) timeout) in
  sys_inv k' /\ _is_thread_pending k' (current k) = true /\ current k' <> current k /\
  (forall u, _is_thread_ready k' u = true -> prio (thr k' (current k')) <= prio (thr k' u)).
Proof.
  intros Hs Hc Ht Hn k'. pose proof (pend_object_sys tf k p timeout Hs Hc Ht Hn) as Hs'. fold k' in Hs'.
  assert (current k ∈ queues k' !!! object_wq p) as Hin by (unfold k'; rewrite pend_object_wq by done; by apply elem_of_ins_prio; left).
  apply (ri_wq _ _ (si_rq _ _ (ki_sched _ _ _ (sy_kinv _ Hs')))) in Hin as [_ Hp]. split; [done|]. split; [done|].
  split; [by apply pending_not_current; [|apply Hs']|]. intros u Hu. change (current k') with (cache k').
  by apply cache_best; [apply Hs'|].
Qed.

(** A thread on a wait queue is not the current one. *)
Lemma waiter_not_current k w t :
  sys_inv k -> t ∈ queues k !!! WQ w -> current k <> t /\ _is_thread_pending k t = true.
Proof.
  intros Hs Ht. apply (ri_wq _ _ (si_rq _ _ (ki_sched _ _ _ (sy_kinv _ Hs)))) in Ht as [_ Hp].
  split; [|done]. apply (pending_not_current k t Hp), Hs.
Qed.

End WakeFirst.

(** What the clock interrupt needs of the functions it calls for the timers
    that expire (Timer.v has the instance of the kernel). *)
Class TimeoutHandler `{KConfig} (tf : positive -> toid -> kernel -> kernel) : Prop := {
  th_kinv : forall f m k E, kinv None E k -> TOtimer m ∉ timeout_q k ++ E ->
    E = [] \/ handling_timeouts k = true -> kinv None E (tf f (TOtimer m) k);
  th_keeps : forall f m k E, kinv None E k -> TOtimer m ∉ timeout_q k ++ E ->
    E = [] \/ handling_timeouts k = true -> keeps k (tf f (TOtimer m) k)
}.

Section Clock.
Context `{KConfig} (tf : positive -> toid -> kernel -> kernel) {Htf : TimeoutHandler tf}.
Implicit Types (k : kernel) (t u : tid) (E : list toid).

Lemma upd_timeout_ready k o f u :
  o <> TOthread u -> _is_thread_ready (upd_timeout k o f) u = _is_thread_ready k u.
Proof.
  intros Ho. apply ready_ext; [done|]. rewrite tmo_upd_timeout, decide_False by congruence. done.
Qed.

Lemma handle_one_keeps E k o :
  kinv None (o :: E) k -> E = [] \/ handling_timeouts k = true ->
  keeps k (_handle_one_expired_timeout tf k o).
Proof.
  intros [H1 H2 Hun] HE. assert (o ∈ timeout_q k ++ o :: E) as Hin by (apply elem_of_app; right; left).
  unfold _handle_one_expired_timeout. cbv zeta. destruct o as [t|m].
  - rewrite (ti_thread _ _ _ H2 t Hin). unfold _unpend_thread_timing_out.
    pose proof (timed_not_ready _ _ _ _ H2 Hin) as Hnr.
    set (k1 := upd_timeout k (TOthread t) (with_delta _INACTIVE)).
    assert (forall u, u <> t -> _is_thread_ready k1 u = _is_thread_ready k u) as Hk1
      by (intros u Hu; apply upd_timeout_ready; congruence).
    destruct (to_wait_q (tmo k1 (TOthread t))); unfold keeps;
      rewrite current_ready_thread, nested_ready_thread, handling_ready_thread; (split; [done|]; split; [done|]; split; [done|]);
      intros Hc; assert (current k <> t) as Hne by congruence; rewrite ready_thread_ready by done.
    + rewrite upd_timeout_ready by congruence. by rewrite unpend_ready, Hk1.
    + by rewrite Hk1.
  - rewrite (ti_timer _ _ _ H2 m Hin).
    pose proof (ti_nodup _ _ _ H2) as Hnd. rewrite <- Permutation_middle in Hnd. apply NoDup_cons in Hnd as [Ho _].
    set (k1 := upd_timeout k (TOtimer m) (with_delta _INACTIVE)).
    assert (keeps k k1) as Hk1.
    { split; [done|]. split; [done|]. split; [done|]. intros Hc. by rewrite <- Hc; apply upd_timeout_ready. }
    assert (kinv None E k1) as Hi1.
    { split; [|by apply tq_inv_handled|].
      2:{ apply (untimed_agree (TOtimer m :: E) _ k); [done| |done]. intros x. change (timeout_q k1) with (timeout_q k).
          rewrite !elem_of_app, elem_of_cons. tauto. }
      apply (sched_timeouts None k); [apply tq_frame_upd| |done].
      intros u _. right. unfold k1. by rewrite dl_upd. }
    destruct (func (tmo k1 (TOtimer m))); [|done].
    eapply keeps_trans; [exact Hk1|]. by apply (th_keeps _ _ _ E).
Qed.

Lemma th_handling f m k E :
  kinv None E k -> TOtimer m ∉ timeout_q k ++ E -> E = [] \/ handling_timeouts k = true ->
  handling_timeouts (tf f (TOtimer m) k) = handling_timeouts k.
Proof. intros H1 H2 H3. by destruct (th_keeps f m k E H1 H2 H3) as (_ & _ & ? & _). Qed.

Lemma handle_expired_keeps E k :
  kinv None E k -> handling_timeouts k = true -> keeps k (_handle_expired_timeouts tf k E).
Proof.
  revert k. induction E as [|o E IH]; intros k Hi Hh; [by split|]. simpl.
  eapply keeps_trans; [by eapply handle_one_keeps; [|right]|].
  destruct (kinv_handle_one tf th_kinv th_handling E k o Hi (or_intror Hh)) as [H1 H2].
  apply IH; [done|by rewrite H2].
Qed.

Lemma ready_sched_frame k k' u :
  sched_inv None k -> sched_inv None k' -> tq_frame k k' -> _is_thread_ready k' u = _is_thread_ready k u.
Proof. intros H1 H2 Hf. eapply ready_same; [apply H1|apply H2| |done]. by rewrite Hf. Qed.

Lemma ready_tq_frame E E' k k' u :
  kinv None E k -> kinv None E' k' -> tq_frame k k' -> _is_thread_ready k' u = _is_thread_ready k u.
Proof. intros [H1 _ _] [H2 _ _]. by apply ready_sched_frame. Qed.

Lemma handle_timeouts_keeps k (ticks : Z) :
  kinv None [] k -> (forall hd, head (timeout_q k) = Some hd -> 0 <= ticks <= dl k hd) ->
  current (handle_timeouts tf k ticks) = current k /\ nested (handle_timeouts tf k ticks) = nested k /\
  (_is_thread_ready k (current k) = true -> _is_thread_ready (handle_timeouts tf k ticks) (current k) = true).
Proof.
  intros Hi Ht. unfold handle_timeouts. destruct (head (timeout_q k)) as [hd|] eqn:Hh; [|by split]. cbv zeta.
  pose proof (kinv_tick _ _ ticks Hi Hh (Ht hd eq_refl)) as H0.
  set (k0 := upd_timeout k hd _) in *. set (k1 := set_handling k0 true).
  assert (ticking k1) as H1 by (by apply ticking_handling).
  pose proof (kinv_dequeue k1 H1) as Hdq.
  destruct (dequeue_expired _ k1 []) as [k2 E]. destruct Hdq as (_ & H2 & _ & _ & Hfr).
  destruct (handle_expired_keeps E k2 H2) as (B1 & B2 & _ & B4); [by rewrite Hfr|].
  assert (current k2 = current k /\ nested k2 = nested k /\
    (_is_thread_ready k (current k) = true -> _is_thread_ready k2 (current k) = true)) as (E1 & E2 & E3).
  { split; [by rewrite Hfr|]. split; [by rewrite Hfr|]. intros Hc.
    rewrite (ready_sched_frame _ _ _ (tk_sched _ H1) (ki_sched _ _ _ H2) Hfr). change (_is_thread_ready k0 (current k) = true).
    by rewrite (ready_sched_frame _ _ _ (ki_sched _ _ _ Hi) (tk_sched _ H0) (tq_frame_upd _ _ _)). }
  rewrite E1 in *. split; [exact B1|]. split; [exact (eq_trans B2 E2)|]. intros Hc. apply B4, E3, Hc.
Qed.

Lemma time_slicing_sys k (ticks : Z) : sys_inv k -> nested k <> 0 -> sys_inv (handle_time_slicing k ticks).
Proof.
  intros [H1 H2 H3] Hn. unfold handle_time_slicing. cbv zeta.
  destruct (negb _); [by split|]. destruct (_ >=? _); [|split; [by apply (kinv_same _ _ k)|done|done]].
  set (k1 := set_slice _ 0 _ _).
  assert (kinv None [] k1) as Hk1 by (by apply (kinv_same _ _ k)).
  assert (current (_move_thread_to_end_of_prio_q k1 (current k1)) = current k /\
          nested (_move_thread_to_end_of_prio_q k1 (current k1)) = nested k /\
          _is_thread_ready (_move_thread_to_end_of_prio_q k1 (current k1)) (current k) = true) as (Ec & En & Er).
  { unfold _move_thread_to_end_of_prio_q. cbv zeta. by destruct (Lst.is_tail _ _ _). }
  split; [by apply kinv_move_to_end|by rewrite Ec|by rewrite En].
Qed.

(** A clock tick, in the clock's ISR. *)
Lemma tick_announce_sys k (ticks : Z) :
  sys_inv k -> nested k <> 0 ->
  (forall hd, head (timeout_q k) = Some hd -> 0 <= ticks <= dl k hd) ->
  sys_inv (_nano_sys_clock_tick_announce tf k ticks).
Proof.
  intros [H1 H2 H3] Hn Ht. unfold _nano_sys_clock_tick_announce. cbv zeta.
  set (k1 := set_tick_count k _). assert (kinv None [] k1) as Hk1 by (by apply (kinv_same _ _ k)).
  destruct (handle_timeouts_keeps k1 ticks Hk1 Ht) as (Ec & En & Er).
  apply time_slicing_sys; [|by rewrite En].
  split; [apply kinv_handle_timeouts; [apply th_kinv|apply th_handling|done|done]|rewrite Ec; by apply Er|].
  rewrite En. done.
Qed.

End Clock.
