(* ===== verification/Types.v ===== *)
(** * Machine widths

    The model keeps C integers as [Z] and reduces them where the code computes.
    [typed] says that every field of the kernel's data holds a value of its C type;
    the operations of the scheduler and of the timeout queue keep it so. *)

From S2P Require Import Prelude DList ListStore Kernel Ksched ReadyQ TimeoutQ KInv Sched.

Local Open Scope Z_scope.

Definition is_u8 (x : Z) : Prop := 0 <= x < 2 ^ 8.
Definition is_s8 (x : Z) : Prop := - 2 ^ 7 <= x < 2 ^ 7.
Definition is_u32 (x : Z) : Prop := 0 <= x < 2 ^ 32.
Definition is_s32 (x : Z) : Prop := - 2 ^ 31 <= x < 2 ^ 31.
Definition is_u64 (x : Z) : Prop := 0 <= x < 2 ^ 64.

(** The fields of [struct _thread_base], [struct _timeout], [struct k_timer]. *)
Record thread_typed (x : k_thread) : Prop := {
  tt_options : is_u8 (user_options x);
  tt_state : is_u8 (thread_state x);
  tt_prio : is_s8 (prio x);
  tt_locked : is_u8 (sched_locked x);
  tt_retval : is_s32 (retval x)
}.

Record timer_typed (x : k_timer) : Prop := { mt_period : is_s32 (period x); mt_status : is_u32 (status x) }.

Record typed (k : kernel) : Prop := {
  ty_threads : forall t, thread_typed (thr k t);
  ty_timeouts : forall o, is_s32 (delta_ticks_from_prev (tmo k o));
  ty_timers : forall m, timer_typed (timers k !!! m);
  ty_bmap : Forall is_u32 (prio_bmap k);
  ty_ticks : is_u64 (tick_count k);
  ty_nested : 0 <= nested k
}.

(** What a function of the application, called with the kernel, must do. *)
Class TypedFunc {A B} (cb : A -> B -> kernel -> kernel) : Prop := { tf_typed : forall a b k, typed k -> typed (cb a b k) }.

Create HintDb ty discriminated.
#[export] Hint Constants Opaque : ty.
#[export] Hint Extern 0 (TypedFunc _) => (typeclasses eauto) : ty.

(** ** Reductions give values of their type *)

Lemma u8_is x : is_u8 (u8 x).
Proof. apply u8_range. Qed.

Lemma u32_is x : is_u32 (u32 x).
Proof. apply u32_range. Qed.

Lemma u64_is x : is_u64 (u64 x).
Proof. unfold is_u64, u64. apply Z.mod_pos_bound. lia. Qed.

Lemma s8_is x : is_s8 (s8 x).
Proof. unfold is_s8, s8. pose proof (Z.mod_pos_bound (x + 2 ^ 7) (2 ^ 8)). lia. Qed.

Lemma s32_is x : is_s32 (s32 x).
Proof. apply s32_range. Qed.

#[export] Hint Resolve u8_is u32_is u64_is s8_is s32_is : ty.
#[export] Hint Extern 1 (is_s32 _) => (by vm_compute) : ty.

(** ** Updates *)

Section Updates.
Implicit Types (k : kernel) (t : tid) (o : toid).

Lemma ty_upd_thread k t f : (forall x, thread_typed x -> thread_typed (f x)) -> typed k -> typed (upd_thread k t f).
Proof.
  intros Hf [H1 H2 H3 H4 H5 H6]. split; try done. intros u. rewrite thr_upd_thread. destruct (decide (u = t)); [by apply Hf|done].
Qed.

Lemma ty_upd_timeout k o f :
  (is_s32 (delta_ticks_from_prev (tmo k o)) -> is_s32 (delta_ticks_from_prev (f (tmo k o)))) -> typed k -> typed (upd_timeout k o f).
Proof.
  intros Hf [H1 H2 H3 H4 H5 H6]. split; try done. intros u. rewrite tmo_upd_timeout. destruct (decide (u = o)) as [->|]; [by apply Hf|done].
Qed.

Lemma ty_set_timers k m x : timer_typed x -> typed k -> typed (set_timers k (<[m := x]> (timers k))).
Proof.
  intros Hx [H1 H2 H3 H4 H5 H6]. split; try done. intros u. cbn [timers set_timers].
  destruct (decide (u = m)) as [->|]; [by rewrite lookup_total_insert_eq|by rewrite lookup_total_insert_ne].
Qed.

Lemma ty_set_bmap k i (w : Z) : typed k -> typed (set_bmap k (<[i := u32 w]> (prio_bmap k))).
Proof. intros [H1 H2 H3 H4 H5 H6]. split; try done. cbn [prio_bmap set_bmap]. apply Forall_insert; [done|apply u32_is]. Qed.

Lemma ty_set_queues k q : typed k -> typed (set_queues k q).
Proof. by intros []. Qed.
Lemma ty_set_cache k t : typed k -> typed (set_cache k t).
Proof. by intros []. Qed.
Lemma ty_set_current k t : typed k -> typed (set_current k t).
Proof. by intros []. Qed.
Lemma ty_set_nested k (n : Z) : 0 <= n -> typed k -> typed (set_nested k n).
Proof. by intros ? []. Qed.
Lemma ty_set_timeout_q k l : typed k -> typed (set_timeout_q k l).
Proof. by intros []. Qed.
Lemma ty_set_handling k b : typed k -> typed (set_handling k b).
Proof. by intros []. Qed.
Lemma ty_set_slice k (a b c : Z) : typed k -> typed (set_slice k a b c).
Proof. by intros []. Qed.
Lemma ty_set_tick_count k (n : Z) : typed k -> typed (set_tick_count k (u64 n)).
Proof. intros []. split; try done. apply u64_is. Qed.

(** ** Fields of a thread *)

Lemma tt_with_state x (s : Z) : thread_typed x -> thread_typed (with_state (u8 s) x).
Proof. intros []. split; try done. apply u8_is. Qed.
Lemma tt_with_prio x (p : Z) : thread_typed x -> thread_typed (with_prio (s8 p) x).
Proof. intros []. split; try done. apply s8_is. Qed.
Lemma tt_with_locked x (n : Z) : thread_typed x -> thread_typed (with_locked (u8 n) x).
Proof. intros []. split; try done. apply u8_is. Qed.
Lemma tt_with_options x (n : Z) : thread_typed x -> thread_typed (with_options (u8 n) x).
Proof. intros []. split; try done. apply u8_is. Qed.
Lemma tt_with_swap_data x (d : Z) : thread_typed x -> thread_typed (with_swap_data d x).
Proof. by intros []. Qed.
Lemma tt_with_retval x (r : Z) : is_s32 r -> thread_typed x -> thread_typed (with_retval r x).
Proof. by intros ? []. Qed.

End Updates.

#[export] Hint Resolve ty_upd_thread ty_upd_timeout ty_set_timers ty_set_bmap ty_set_queues ty_set_cache ty_set_current ty_set_nested
  ty_set_timeout_q ty_set_handling ty_set_slice ty_set_tick_count : ty.
#[export] Hint Resolve tt_with_state tt_with_prio tt_with_locked tt_with_options tt_with_swap_data tt_with_retval : ty.

(** Prove [typed] of an operation from its parts. *)
Ltac typ := cbv zeta; repeat case_match; cbn [fst snd]; eauto 12 with ty.

Section Sched.
Context `{KConfig}.
Implicit Types (k : kernel) (t : tid) (o : toid) (l : list toid).

Lemma ty_set_states k t (s : Z) : typed k -> typed (_set_thread_states k t s).
Proof. intros. unfold _set_thread_states. typ. Qed.
Lemma ty_reset_states k t (s : Z) : typed k -> typed (_reset_thread_states k t s).
Proof. intros. unfold _reset_thread_states. typ. Qed.
Lemma ty_set_bit k (p : Z) : typed k -> typed (_set_ready_q_prio_bit k p).
Proof. intros. unfold _set_ready_q_prio_bit. typ. Qed.
Lemma ty_clear_bit k (p : Z) : typed k -> typed (_clear_ready_q_prio_bit k p).
Proof. intros. unfold _clear_ready_q_prio_bit. typ. Qed.
Lemma ty_sched_lock k : typed k -> typed (_sched_lock k).
Proof. intros. unfold _sched_lock. typ. Qed.
Lemma ty_unlock_no_reschedule k : typed k -> typed (_sched_unlock_no_reschedule k).
Proof. intros. unfold _sched_unlock_no_reschedule. typ. Qed.
Lemma ty_retval k t (v : Z) : is_s32 v -> typed k -> typed (_set_thread_return_value k t v).
Proof. intros. unfold _set_thread_return_value. typ. Qed.
#[local] Hint Resolve ty_set_states ty_reset_states ty_set_bit ty_clear_bit ty_sched_lock ty_unlock_no_reschedule ty_retval : ty.

Lemma ty_retval_data k t (v d : Z) : is_s32 v -> typed k -> typed (_set_thread_return_value_with_data k t v d).
Proof. intros. unfold _set_thread_return_value_with_data. typ. Qed.
Lemma ty_add_ready k t : typed k -> typed (_add_thread_to_ready_q k t).
Proof. intros. unfold _add_thread_to_ready_q. typ. Qed.
Lemma ty_remove_ready k t : typed k -> typed (_remove_thread_from_ready_q k t).
Proof. intros. unfold _remove_thread_from_ready_q. typ. Qed.
Lemma ty_move_end k t : typed k -> typed (_move_thread_to_end_of_prio_q k t).
Proof. intros. unfold _move_thread_to_end_of_prio_q. typ. Qed.
Lemma ty_mark_suspended k t : typed k -> typed (_mark_thread_as_suspended k t).
Proof. intros. unfold _mark_thread_as_suspended. typ. Qed.
Lemma ty_mark_not_suspended k t : typed k -> typed (_mark_thread_as_not_suspended k t).
Proof. intros. unfold _mark_thread_as_not_suspended. typ. Qed.
Lemma ty_mark_pending k t : typed k -> typed (_mark_thread_as_pending k t).
Proof. intros. unfold _mark_thread_as_pending. typ. Qed.
Lemma ty_mark_not_pending k t : typed k -> typed (_mark_thread_as_not_pending k t).
Proof. intros. unfold _mark_thread_as_not_pending. typ. Qed.
Lemma ty_mark_polling k t : typed k -> typed (_mark_thread_as_polling k t).
Proof. intros. unfold _mark_thread_as_polling. typ. Qed.
Lemma ty_mark_not_polling k t : typed k -> typed (_mark_thread_as_not_polling k t).
Proof. intros. unfold _mark_thread_as_not_polling. typ. Qed.
Lemma ty_mark_started k t : typed k -> typed (_mark_thread_as_started k t).
Proof. intros. unfold _mark_thread_as_started. typ. Qed.
#[local] Hint Resolve ty_retval_data ty_add_ready ty_remove_ready ty_move_end ty_mark_suspended ty_mark_not_suspended ty_mark_pending ty_mark_not_pending ty_mark_polling ty_mark_not_polling ty_mark_started : ty.

Lemma ty_ready k t : typed k -> typed (_ready_thread k t).
Proof. intros. unfold _ready_thread. typ. Qed.
Lemma ty_unpend k t : typed k -> typed (_unpend_thread k t).
Proof. intros. unfold _unpend_thread. typ. Qed.
Lemma ty_thread_priority_set k t (p : Z) : typed k -> typed (_thread_priority_set k t p).
Proof. intros. unfold _thread_priority_set. typ. Qed.
Lemma ty_swap k : typed k -> typed (__swap k).
Proof. intros. unfold __swap. typ. Qed.
#[local] Hint Resolve ty_ready ty_unpend ty_thread_priority_set ty_swap : ty.

Lemma ty_unpend_first k q : typed k -> typed (fst (_unpend_first_thread k q)).
Proof. intros. unfold _unpend_first_thread. typ. Qed.
Lemma ty_Swap k : typed k -> typed (_Swap k).
Proof. intros. unfold _Swap, _update_time_slice_before_swap. typ. Qed.
#[local] Hint Resolve ty_unpend_first ty_Swap : ty.

Lemma ty_swap_or_unlock k : typed k -> typed (swap_or_unlock k).
Proof. intros. unfold swap_or_unlock. typ. Qed.
Lemma ty_reschedule k : typed k -> typed (_reschedule_threads k).
Proof. intros. unfold _reschedule_threads. typ. Qed.
#[local] Hint Resolve ty_swap_or_unlock ty_reschedule : ty.

End Sched.

#[export] Hint Resolve ty_set_states ty_reset_states ty_set_bit ty_clear_bit ty_sched_lock ty_unlock_no_reschedule ty_retval
  ty_retval_data ty_add_ready ty_remove_ready ty_move_end ty_mark_suspended ty_mark_not_suspended ty_mark_pending
  ty_mark_not_pending ty_mark_polling ty_mark_not_polling ty_mark_started ty_ready ty_unpend ty_thread_priority_set
  ty_swap ty_unpend_first ty_Swap ty_swap_or_unlock ty_reschedule : ty.

Section Timeouts.
Context `{KConfig} (tf : positive -> toid -> kernel -> kernel) {Htf : TypedFunc tf}.
Implicit Types (k : kernel) (t : tid) (o : toid) (l : list toid).

Lemma ty_tf (f : positive) o k : typed k -> typed (tf f o k).
Proof. apply tf_typed. Qed.
#[local] Hint Resolve ty_tf : ty.

Lemma ty_delta k o : typed k -> is_s32 (delta_ticks_from_prev (tmo k o)).
Proof. intros Hk. apply Hk. Qed.
#[local] Hint Resolve ty_delta : ty.

Lemma ty_with_delta k o (d : Z) : is_s32 d -> typed k -> typed (upd_timeout k o (with_delta d)).
Proof. intros Hd Hk. by apply ty_upd_timeout. Qed.
#[local] Hint Resolve ty_with_delta : ty.

Lemma ty_init_timeout k o f : typed k -> typed (_init_timeout k o f).
Proof. intros Hk. apply ty_upd_timeout; [intros _; by vm_compute|done]. Qed.

Lemma ty_timing_out k t o : typed k -> typed (_unpend_thread_timing_out k t o).
Proof. intros Hk. unfold _unpend_thread_timing_out. case_match; [|done]. apply ty_upd_timeout; [done|]. eauto with ty. Qed.
#[local] Hint Resolve ty_init_timeout ty_timing_out : ty.

Lemma ty_handle_one k o : typed k -> typed (_handle_one_expired_timeout tf k o).
Proof. intros. unfold _handle_one_expired_timeout. typ. Qed.
#[local] Hint Resolve ty_handle_one : ty.

Lemma ty_handle_expired l : forall k, typed k -> typed (_handle_expired_timeouts tf k l).
Proof. induction l; intros; cbn [_handle_expired_timeouts]; eauto with ty. Qed.

Lemma ty_abort_timeout k o : typed k -> typed (fst (_abort_timeout k o)).
Proof.
  intros Hk. unfold _abort_timeout. cbv zeta. case_match; [done|]. cbn [fst]. apply ty_with_delta; [by vm_compute|]. apply ty_set_timeout_q.
  repeat case_match; try done. apply ty_upd_timeout; [|done]. intros _. apply s32_is.
Qed.

Lemma ty_add_loop o l : forall k, typed k -> typed (add_timeout_loop k o l).
Proof.
  induction l as [|x l IH]; intros k Hk; cbn [add_timeout_loop]; [eauto with ty|]. case_match.
  - apply ty_set_timeout_q, ty_upd_timeout; [|done]. intros _. apply s32_is.
  - apply IH. eauto with ty.
Qed.
#[local] Hint Resolve ty_add_loop ty_abort_timeout ty_handle_expired : ty.

Lemma ty_add_timeout k th o w (n : Z) : is_s32 n -> typed k -> typed (_add_timeout tf k th o w n).
Proof.
  intros Hn Hk. unfold _add_timeout. cbv zeta. set (k1 := upd_timeout k o _). assert (typed k1) by (by apply ty_upd_timeout). typ.
Qed.
#[local] Hint Resolve ty_add_timeout : ty.

Lemma ty_dequeue fuel : forall k l, typed k -> typed (fst (dequeue_expired fuel k l)).
Proof.
  induction fuel as [|n IH]; intros k l Hk; cbn [dequeue_expired]; [done|]. repeat case_match; try done. apply IH. eauto with ty.
Qed.

Lemma ty_handle_timeouts k (n : Z) : typed k -> typed (handle_timeouts tf k n).
Proof.
  intros Hk. unfold handle_timeouts. case_match; [|done]. cbv zeta. set (k1 := set_handling _ true).
  assert (typed k1) as H1 by (apply ty_set_handling, ty_upd_timeout; [intros _; apply s32_is|done]).
  pose proof (ty_dequeue (length (timeout_q k1)) k1 [] H1) as H2. destruct (dequeue_expired _ _ _) as [k2 l]. eauto with ty.
Qed.
#[local] Hint Resolve ty_handle_timeouts : ty.

Lemma ty_abort_thread_timeout k t : typed k -> typed (fst (_abort_thread_timeout k t)).
Proof. intros. unfold _abort_thread_timeout. typ. Qed.
#[local] Hint Resolve ty_abort_thread_timeout : ty.
Lemma ty_add_thread_timeout k t w (n : Z) : is_s32 n -> typed k -> typed (_add_thread_timeout tf k t w n).
Proof. intros. unfold _add_thread_timeout. typ. Qed.
#[local] Hint Resolve ty_add_thread_timeout : ty.
Lemma ty_pend_thread k t w (n : Z) : typed k -> typed (_pend_thread tf k t w n).
Proof. intros. unfold _pend_thread. typ. Qed.
#[local] Hint Resolve ty_pend_thread : ty.
Lemma ty_pend_current k w (n : Z) : typed k -> typed (_pend_current_thread tf k w n).
Proof. intros. unfold _pend_current_thread. typ. Qed.
#[local] Hint Resolve ty_pend_current : ty.
Lemma ty_k_sched_lock k : typed k -> typed (k_sched_lock k).
Proof. intros. unfold k_sched_lock. typ. Qed.
#[local] Hint Resolve ty_k_sched_lock : ty.
Lemma ty_k_sched_unlock k : typed k -> typed (k_sched_unlock k).
Proof. intros. unfold k_sched_unlock. typ. Qed.
#[local] Hint Resolve ty_k_sched_unlock : ty.
Lemma ty_priority_set k t (p : Z) : typed k -> typed (_impl_k_thread_priority_set k t p).
Proof. intros. unfold _impl_k_thread_priority_set. typ. Qed.
#[local] Hint Resolve ty_priority_set : ty.
Lemma ty_yield k : typed k -> typed (_impl_k_yield k).
Proof. intros. unfold _impl_k_yield. typ. Qed.
#[local] Hint Resolve ty_yield : ty.
Lemma ty_sleep k (n : Z) : typed k -> typed (_impl_k_sleep tf k n).
Proof. intros. unfold _impl_k_sleep. typ. Qed.
#[local] Hint Resolve ty_sleep : ty.

Lemma ty_wakeup k t : typed k -> typed (_impl_k_wakeup k t).
Proof.
  intros Hk. unfold _impl_k_wakeup. pose proof (ty_abort_thread_timeout k t Hk) as H1. destruct (_abort_thread_timeout k t). typ.
Qed.
#[local] Hint Resolve ty_wakeup : ty.

Lemma ty_time_slicing k (n : Z) : typed k -> typed (handle_time_slicing k n).
Proof. intros. unfold handle_time_slicing. typ. Qed.
#[local] Hint Resolve ty_time_slicing : ty.
Lemma ty_tick k (n : Z) : typed k -> typed (_nano_sys_clock_tick_announce tf k n).
Proof. intros. unfold _nano_sys_clock_tick_announce. typ. Qed.
#[local] Hint Resolve ty_tick : ty.
Lemma ty_irq_enter k : typed k -> typed (irq_enter k).
Proof. intros Hk. apply ty_set_nested; [|done]. pose proof (ty_nested _ Hk). lia. Qed.
#[local] Hint Resolve ty_irq_enter : ty.
Lemma ty_irq_exit k a b : 0 < nested k -> typed k -> typed (irq_exit k a b).
Proof.
  intros Hn Hk. unfold irq_exit. cbv zeta. set (k1 := set_nested k _). assert (typed k1) by (apply ty_set_nested; [lia|done]). typ.
Qed.
#[local] Hint Resolve ty_irq_exit : ty.

End Timeouts.

#[export] Hint Resolve ty_tf ty_delta ty_with_delta ty_init_timeout ty_timing_out ty_handle_one ty_abort_timeout
  ty_add_timeout ty_handle_timeouts ty_abort_thread_timeout ty_add_thread_timeout ty_pend_thread ty_pend_current ty_k_sched_lock
  ty_k_sched_unlock ty_priority_set ty_yield ty_sleep ty_wakeup ty_time_slicing ty_tick
  ty_irq_enter ty_irq_exit : ty.
