(* ===== verification/Thread.v ===== *)
(** * Threads (kernel/thread.c, kernel/thread_abort.c) and the boot sequence
    (kernel/init.c)

    Creation, start, suspension, resumption, cancellation and abortion of
    threads.  The stack and the entry point of a thread belong to the
    architecture code and are not part of the state; [CONFIG_THREAD_MONITOR] is
    off.  The abort handlers of the application are a parameter. *)

From S2P Require Import Prelude DList ListStore Kernel Ksched ReadyQ TimeoutQ KInv Sched Types.

Local Open Scope Z_scope.

Module Thread.

Section Thread.
Context `{KConfig}.
Implicit Types (k : kernel) (t : tid).
Variable timeout_func : positive -> toid -> kernel -> kernel.
(** [thread->fn_abort()] *)
Variable abort_call : positive -> kernel -> kernel.

Definition k_is_in_isr k : bool := _is_in_isr k.

Definition _thread_essential_set k : kernel :=
  upd_thread k (current k) (fun x => with_options (u8 (Z.lor (user_options x) K_ESSENTIAL)) x).
Definition _thread_essential_clear k : kernel :=
  upd_thread k (current k) (fun x => with_options (u8 (Z.land (user_options x) (Z.lnot K_ESSENTIAL))) x).
Definition _is_thread_essential k : bool := negb (Z.land (user_options (thr k (current k))) K_ESSENTIAL =? 0).

(** The wait loop of [k_busy_wait] on the successive values of the cycle
    counter: the number of reads until it returns, [None] when the readings
    given run out first. *)
Definition cycles_to_wait (usec_to_wait hw_cycles_per_sec : Z) : Z :=
  u32 (u64 (usec_to_wait * hw_cycles_per_sec) / 1000000).

Fixpoint k_busy_wait (start cycles : Z) (reads : list Z) : option nat :=
  match reads with
  | [] => None
  | c :: reads => if u32 (c - start) >=? cycles then Some 1%nat
                  else option_map S (k_busy_wait start cycles reads)
  end.

Definition _init_thread_base k t (priority initial_state options : Z) : kernel :=
  let k := upd_thread k t (fun x => mk_thread (u8 options) (u8 initial_state) (s8 priority) 0
                                      (swap_data x) (retval x) (fn_abort x)) in
  _init_thread_timeout k t.

Definition _new_thread_init k t (prio options : Z) : kernel :=
  let k := _init_thread_base k t prio _THREAD_PRESTART options in
  upd_thread k t (fun x => mk_thread (user_options x) (thread_state x) (Kernel.prio x) (sched_locked x)
                             (swap_data x) (retval x) None).

(** [_new_thread] is [_new_thread_init] and the initial stack frame. *)
Definition _setup_new_thread k t (prio options : Z) : kernel := _new_thread_init k t prio options.

Definition _impl_k_thread_start k t : kernel :=
  if _has_thread_started k t then k
  else
    let k := _mark_thread_as_started k t in
    if _is_thread_ready k t then
      let k := _add_thread_to_ready_q k t in
      if _must_switch_threads k then _Swap k else k
    else k.

Definition schedule_new_thread k t (delay : Z) : kernel :=
  if delay =? 0 then _impl_k_thread_start k t
  else _add_thread_timeout timeout_func k t None (s32 (_TICK_ALIGN + _ms_to_ticks delay)).

Definition _impl_k_thread_create k t (prio options delay : Z) : kernel :=
  let k := _setup_new_thread k t prio options in
  if negb (delay =? K_FOREVER) then schedule_new_thread k t delay else k.

Definition _impl_k_thread_cancel k t : kernel * Z :=
  if _has_thread_started k t || negb (_is_thread_timeout_active k t) then (k, - EINVAL)
  else (fst (_abort_thread_timeout k t), 0).

Definition _k_thread_single_start k t : kernel :=
  let k := _mark_thread_as_started k t in
  if _is_thread_ready k t then _add_thread_to_ready_q k t else k.

Definition _k_thread_single_suspend k t : kernel :=
  let k := if _is_thread_ready k t then _remove_thread_from_ready_q k t else k in
  _mark_thread_as_suspended k t.

Definition _impl_k_thread_suspend k t : kernel :=
  let k := _k_thread_single_suspend k t in
  if bool_decide (t = current k) then _Swap k else k.

Definition _k_thread_single_resume k t : kernel :=
  let k := _mark_thread_as_not_suspended k t in
  if _is_thread_ready k t then _add_thread_to_ready_q k t else k.

Definition _impl_k_thread_resume k t : kernel := _reschedule_threads (_k_thread_single_resume k t).

Definition _k_thread_single_abort k t : kernel :=
  let k := match fn_abort (thr k t) with Some f => abort_call f k | None => k end in
  let k :=
    if _is_thread_ready k t then _remove_thread_from_ready_q k t
    else
      let k := if _is_thread_pending k t then _unpend_thread k t else k in
      if _is_thread_timeout_active k t then fst (_abort_thread_timeout k t) else k in
  _set_thread_states k t _THREAD_DEAD.

Definition _impl_k_thread_abort k t : kernel :=
  let k := _k_thread_single_abort k t in
  if bool_decide (current k = t) then _Swap k else _reschedule_threads k.

(** [struct _static_thread_data]: thread, priority, options and delay *)
Record static_thread := mk_static { init_thread : tid; init_prio : Z; init_options : Z; init_delay : Z }.

Definition _init_static_threads k (l : list static_thread) : kernel :=
  let k := fold_left (fun k d => _setup_new_thread k (init_thread d) (init_prio d) (init_options d)) l k in
  let k := _sched_lock k in
  let k := fold_left (fun k d => if negb (init_delay d =? K_FOREVER)
                                 then schedule_new_thread k (init_thread d) (init_delay d) else k) l k in
  k_sched_unlock k.

(** ** Boot (kernel/init.c) *)

Definition _SYS_INIT_LEVEL_PRE_KERNEL_1 : Z := 0.
Definition _SYS_INIT_LEVEL_PRE_KERNEL_2 : Z := 1.

(** [_kernel] on entry, all zeroes; no thread is initialised yet.  The time
    slice variables have their configured values. *)
Definition zero_kernel (slice_size slice_prio : Z) : kernel :=
  mk_kernel 1%positive 0 1%positive (repeat 0 (Z.to_nat K_NUM_PRIO_BITMAPS)) ∅ [] false ∅ ∅ ∅ 0 slice_size slice_prio 0.

(** the loop over the ready queues *)
Definition init_ready_q k : kernel :=
  set_queues k (fold_left (fun Q ii => Lst.init Q (RQ (Z.of_nat ii))) (seq 0 (Z.to_nat K_NUM_PRIORITIES)) (queues k)).

Definition prepare_multithreading k (dummy_thread main_thread : tid) (main_prio : Z) : kernel :=
  let k := set_current k dummy_thread in
  let k := upd_thread k dummy_thread (fun x => mk_thread K_ESSENTIAL _THREAD_DUMMY (prio x) (sched_locked x)
                                                 (swap_data x) (retval x) (fn_abort x)) in
  let k := init_ready_q k in
  let k := set_cache k main_thread in
  let k := _setup_new_thread k main_thread main_prio K_ESSENTIAL in
  let k := _mark_thread_as_started k main_thread in
  let k := _add_thread_to_ready_q k main_thread in
  let k := _setup_new_thread k idle_thread K_LOWEST_THREAD_PRIO K_ESSENTIAL in
  let k := _mark_thread_as_started k idle_thread in
  let k := _add_thread_to_ready_q k idle_thread in
  set_timeout_q k [].

Definition switch_to_main_thread k : kernel := _Swap k.

(** The initialisation functions of the devices of each level, in the order in
    which the linker puts them (kernel/device.c). *)
Variable config_levels : Z -> list (kernel -> kernel).

Definition _sys_device_do_config_level k (level : Z) : kernel :=
  fold_left (fun k init => init k) (config_levels level) k.

Definition _Cstart (slice_size slice_prio : Z) (dummy_thread main_thread : tid) (main_prio : Z) : kernel :=
  let k := prepare_multithreading (zero_kernel slice_size slice_prio) dummy_thread main_thread main_prio in
  let k := _sys_device_do_config_level k _SYS_INIT_LEVEL_PRE_KERNEL_1 in
  let k := _sys_device_do_config_level k _SYS_INIT_LEVEL_PRE_KERNEL_2 in
  switch_to_main_thread k.

End Thread.

(** ** Theorems *)

Section Proofs.
Context `{KConfig}.
Implicit Types (k : kernel) (t u : tid).
Variable tf : positive -> toid -> kernel -> kernel.

(** A thread object that is in no queue: not initialised yet, or dead. *)
Record off k t : Prop := {
  off_ready : _is_thread_ready k t = false;
  off_pending : _is_thread_pending k t = false;
  off_timeout : TOthread t ∉ timeout_q k
}.

Definition new_thread (p o : Z) (x : k_thread) : k_thread :=
  mk_thread (u8 o) (u8 _THREAD_PRESTART) (s8 p) 0 (swap_data x) (retval x) None.

Lemma setup_thr k t (p o : Z) u :
  thr (_setup_new_thread k t p o) u = if decide (u = t) then new_thread p o (thr k t) else thr k u.
Proof.
  unfold _setup_new_thread, _new_thread_init. rewrite thr_upd_thread.
  unfold _init_thread_base. cbv zeta.
  change (thr (_init_thread_timeout ?k1 t) ?v) with (thr k1 v). rewrite !thr_upd_thread.
  destruct (decide (u = t)); [|done]. by rewrite decide_True.
Qed.

Lemma setup_frame k t (p o : Z) :
  queues (_setup_new_thread k t p o) = queues k /\ prio_bmap (_setup_new_thread k t p o) = prio_bmap k /\
  cache (_setup_new_thread k t p o) = cache k /\ current (_setup_new_thread k t p o) = current k /\
  nested (_setup_new_thread k t p o) = nested k /\ timeout_q (_setup_new_thread k t p o) = timeout_q k.
Proof. done. Qed.

Lemma setup_tmo k t (p o : Z) x :
  tmo (_setup_new_thread k t p o) x =
  if decide (x = TOthread t) then mk_timeout None None _INACTIVE None else tmo k x.
Proof.
  unfold _setup_new_thread, _new_thread_init, _init_thread_base, _init_thread_timeout, _init_timeout. cbv zeta.
  change (tmo (upd_thread ?k1 t ?f) x) with (tmo k1 x). by rewrite tmo_upd_timeout.
Qed.

(** [setup_new_thread] is an update of the thread, then of its timeout. *)
Lemma setup_unfold k t (p o : Z) :
  _setup_new_thread k t p o = _init_thread_timeout (upd_thread k t (new_thread p o)) t.
Proof.
  unfold _setup_new_thread, _new_thread_init, _init_thread_base, _init_thread_timeout, _init_timeout, upd_timeout, upd_thread.
  cbv zeta. unfold thr. cbn [threads set_threads set_timeouts]. rewrite lookup_total_insert_eq, insert_insert_eq. done.
Qed.

Lemma setup_states k t (p o : Z) :
  _is_thread_ready (_setup_new_thread k t p o) t = false /\
  _is_thread_pending (_setup_new_thread k t p o) t = false /\
  _has_thread_started (_setup_new_thread k t p o) t = false.
Proof.
  split; [|split].
  - apply not_true_is_false. rewrite ready_spec. intros [Hp _]. rewrite setup_thr, decide_True in Hp by done. done.
  - by rewrite pending_spec, setup_thr, decide_True.
  - by rewrite has_started_spec, setup_thr, decide_True.
Qed.

Lemma setup_kinv k t (p o : Z) :
  kinv None [] k -> off k t -> prio_range p -> kinv None [] (_setup_new_thread k t p o).
Proof.
  intros Hi [O1 O2 O3] Hp. destruct (setup_states k t p o) as (S1 & S2 & _).
  apply (kinv_close _ _ t); [|done|done|].
  - rewrite setup_unfold. set (k1 := upd_thread k t (new_thread p o)).
    assert (kinv (Some t) [] k1) as H1.
    { apply kinv_upd_transit; [|by apply kinv_open]. cbn [prio new_thread].
      rewrite s8_small; [done|]. apply prio_range_s8 in Hp. lia. }
    apply (kinv_off_timeout (Some t) [] k1 _ (TOthread t)); [apply tq_frame_upd|done| | | |done].
    + intros x Hx. unfold _init_thread_timeout, _init_timeout. by rewrite tmo_upd_timeout, decide_False.
    + unfold _init_thread_timeout, _init_timeout. by rewrite dl_upd, decide_True.
    + rewrite app_nil_r. exact O3.
  - intros Hx. rewrite app_nil_r in Hx. by apply O3 in Hx.
Qed.

Lemma setup_ready k t (p o : Z) u :
  u <> t -> _is_thread_ready (_setup_new_thread k t p o) u = _is_thread_ready k u.
Proof.
  intros Hu. apply ready_ext; [by rewrite setup_thr, decide_False|].
  rewrite setup_tmo, decide_False by congruence. done.
Qed.

(** Marking a thread as started when it is not ready keeps it off the queues. *)
Lemma started_pending k t u : _is_thread_pending (_mark_thread_as_started k t) u = _is_thread_pending k u.
Proof.
  rewrite !pending_spec, started_thr. destruct (decide (u = t)) as [->|]; [|done].
  change _THREAD_PRESTART with (Z.shiftl 1 2). rewrite st_bit_clear by done. apply andb_true_r.
Qed.

Lemma not_started_not_ready k t : _has_thread_started k t = false -> _is_thread_ready k t = false.
Proof.
  rewrite has_started_spec. intros Hs%negb_false_iff. apply not_true_is_false. rewrite ready_spec. unfold prevented.
  rewrite Hs, !orb_true_r. by intros [].
Qed.

(** Putting back a thread that some change of its state may have made ready;
    the timeout of a thread that is not pending has no wait queue. *)
Lemma kinv_requeue k t :
  kinv (Some t) [] k -> _is_thread_pending k t = false ->
  (TOthread t ∈ timeout_q k -> to_wait_q (tmo k (TOthread t)) = None) ->
  kinv None [] (if _is_thread_ready k t then _add_thread_to_ready_q k t else k).
Proof.
  intros Hi Hp Hw. destruct (_is_thread_ready k t) eqn:Er; [by apply kinv_add|].
  apply (kinv_close _ _ t); [done|done|done|]. by rewrite app_nil_r.
Qed.

Lemma waits_none k t :
  kinv None [] k -> _is_thread_pending k t = false -> TOthread t ∈ timeout_q k -> to_wait_q (tmo k (TOthread t)) = None.
Proof.
  intros Hi Hp Ht. apply (ti_waits _ _ _ (ki_tq _ _ _ Hi) t); [by rewrite app_nil_r|done|done].
Qed.

Lemma current_ne k t : _is_thread_ready k (current k) = true -> _is_thread_ready k t = false -> current k <> t.
Proof. congruence. Qed.

Lemma start_sys k t : sys_inv k -> sys_inv (_impl_k_thread_start k t).
Proof.
  intros Hs. pose proof Hs as [H1 H2 H3]. unfold _impl_k_thread_start. destruct (_has_thread_started k t) eqn:Es; [done|]. cbv zeta.
  pose proof (not_started_not_ready _ _ Es) as Hr. pose proof (current_ne _ _ H2 Hr) as Hc.
  assert (forall u, u <> t -> _is_thread_ready (_mark_thread_as_started k t) u = _is_thread_ready k u) as Hru.
  { intros u Hu. apply ready_ext; [|done]. by rewrite started_thr, decide_False. }
  assert (forall u, u <> t -> thr (_mark_thread_as_started k t) u = thr k u) as Htu.
  { intros u Hu. by rewrite started_thr, decide_False. }
  pose proof (started_pending k t t) as Hp1. set (k1 := _mark_thread_as_started k t) in *.
  destruct (_is_thread_ready k1 t) eqn:Er.
  - (* the thread is ready now: it was on no queue *)
    pose proof (ready_not_pending _ _ Er) as Hnp. rewrite Hnp in Hp1.
    pose proof (kinv_open _ _ _ H1 Hr (eq_sym Hp1)) as Ho.
    assert (kinv (Some t) [] k1) as Hk1.
    { apply kinv_upd_transit; [|done]. apply (ri_prio _ _ (si_rq _ _ (ki_sched _ _ _ H1))). }
    pose proof (resched_sys _ (kinv_add _ _ _ Hk1 Er)) as Hend. unfold _reschedule_threads in Hend. apply Hend.
    change (_is_thread_ready k1 (current k) = true). by rewrite Hru.
  - apply (sys_shrink k); [done| |done|done|by apply Htu|by rewrite Hru|].
    + unfold k1, _mark_thread_as_started, _reset_thread_states. apply kinv_upd_same; [done|by rewrite Hr|done|done].
    + intros u Hu. assert (u <> t) as Hne by congruence. rewrite Hru in Hu by done. by rewrite Htu.
Qed.

(** Adding a timeout for a thread that has not started. *)
Lemma schedule_sys k t (delay : Z) :
  sys_inv k -> _has_thread_started k t = false -> _is_thread_pending k t = false -> TOthread t ∉ timeout_q k ->
  t <> idle_thread -> delay = 0 \/ timeout_ok delay -> sys_inv (schedule_new_thread tf k t delay).
Proof.
  intros Hs Hns Hp Ht Hi Hd. unfold schedule_new_thread. destruct (Z.eqb_spec delay 0) as [|Hne]; [by apply start_sys|].
  destruct Hd as [|Hd]; [done|]. unfold timeout_ok in Hd. pose proof Hs as [H1 H2 H3].
  pose proof (not_started_not_ready _ _ Hns) as Hr. pose proof (kinv_open _ _ _ H1 Hr Hp) as Ho.
  unfold _add_thread_timeout. set (n := s32 _) in *.
  destruct (kinv_add_timeout (Some t) [] k (TOthread t) (Some t) None n tf) as (Hk & _ & Hf & Hin & Hw);
    [done|by rewrite app_nil_r|pose proof (s32_range (_TICK_ALIGN + _ms_to_ticks delay)); lia|by auto|].
  set (k' := _add_timeout _ _ _ _ _ _) in *.
  assert (_is_thread_ready k' t = false) as Hr'.
  { eapply timed_not_ready; [apply Hk|]. apply elem_of_app. by left. }
  assert (kinv None [] k') as Hk'.
  { apply (kinv_close _ _ t); [done|done| |by intros _]. by rewrite (tq_frame_pending _ _ _ Hf). }
  assert (forall u, thr k' u = thr k u) as Hthr by (intros u; by rewrite Hf).
  assert (forall u, _is_thread_ready k' u = _is_thread_ready k u) as Hru.
  { intros u. apply (ready_tq_frame [] []); done. }
  apply (sys_shrink k); [done|done|by rewrite Hf|by rewrite Hf|done|by rewrite Hru|].
  intros u Hu. rewrite Hru in Hu. by rewrite Hthr.
Qed.

Lemma setup_sys k t (p o : Z) :
  sys_inv k -> off k t -> prio_range p -> sys_inv (_setup_new_thread k t p o).
Proof.
  intros Hs Ho Hp. pose proof Hs as [H1 H2 H3]. pose proof (current_ne _ _ H2 (off_ready _ _ Ho)) as Hc.
  apply (sys_shrink k); [done|by apply setup_kinv|done|done| | |].
  - by rewrite setup_thr, decide_False.
  - by rewrite setup_ready.
  - intros u Hu. destruct (decide (u = t)) as [->|Hne]; [by rewrite (proj1 (setup_states k t p o)) in Hu|].
    rewrite setup_ready in Hu by done. by rewrite setup_thr, decide_False.
Qed.

Lemma create_sys k t (p o delay : Z) :
  sys_inv k -> off k t -> t <> idle_thread -> prio_range p -> delay = K_FOREVER \/ delay = 0 \/ timeout_ok delay ->
  sys_inv (_impl_k_thread_create tf k t p o delay).
Proof.
  intros Hs Ho Hi Hp Hd. unfold _impl_k_thread_create. cbv zeta.
  pose proof (setup_sys k t p o Hs Ho Hp) as H1. destruct (setup_states k t p o) as (_ & S2 & S3).
  destruct (Z.eqb_spec delay K_FOREVER); cbn [negb]; [done|].
  apply schedule_sys; [done|done|done|apply Ho|done|]. tauto.
Qed.

(** Suspension and abortion take the thread off the queues. *)
Lemma set_state_not_ready k t (n : Z) :
  0 <= n < 5 -> _is_thread_ready (upd_thread k t (fun x => with_state (u8 (Z.lor (thread_state x) (Z.shiftl 1 n))) x)) t = false.
Proof.
  intros Hn. apply not_true_is_false. rewrite ready_spec, thr_upd_same. set (x := with_state _ _). intros [Hp _].
  assert (st_bit x n = true) as Hb.
  { unfold x. rewrite st_bit_set by lia. rewrite bool_decide_true by done. apply orb_true_r. }
  unfold prevented in Hp. rewrite !orb_false_iff in Hp. destruct Hp as ((((P0 & P1) & P2) & P3) & P4).
  assert (n = 0 \/ n = 1 \/ n = 2 \/ n = 3 \/ n = 4) as E by lia.
  destruct E as [->|[->|[->|[->| ->]]]]; congruence.
Qed.

Lemma set_state_pending k t (n : Z) :
  0 <= n -> n <> 1 ->
  _is_thread_pending (upd_thread k t (fun x => with_state (u8 (Z.lor (thread_state x) (Z.shiftl 1 n))) x)) t
  = _is_thread_pending k t.
Proof.
  intros Hn Hne. rewrite !pending_spec, thr_upd_same, st_bit_set by lia.
  rewrite (bool_decide_false (1 = n)) by lia. apply orb_false_r.
Qed.

Lemma single_suspend_kinv k t :
  kinv None [] k -> t <> idle_thread ->
  let k' := _k_thread_single_suspend k t in
  kinv None [] k' /\ current k' = current k /\ nested k' = nested k /\ _is_thread_ready k' t = false /\
  (forall u, u <> t -> thr k' u = thr k u /\ _is_thread_ready k' u = _is_thread_ready k u).
Proof.
  intros Hi Ht k'. unfold k', _k_thread_single_suspend, _mark_thread_as_suspended, _set_thread_states, _THREAD_SUSPENDED. cbv zeta.
  set (k1 := if _is_thread_ready k t then _ else k).
  assert (current k1 = current k /\ nested k1 = nested k /\ (forall u, thr k1 u = thr k u) /\
    (forall u, _is_thread_ready k1 u = _is_thread_ready k u)) as (E1 & E2 & E3 & E4).
  { unfold k1. destruct (_is_thread_ready k t); [|done].
    split; [|split; [|split; intros u; [apply remove_thr|apply remove_ready]]];
      rewrite remove_unfold; unfold removed; by destruct (Lst.is_empty _ _). }
  set (k2 := upd_thread k1 t _).
  assert (_is_thread_ready k2 t = false) as Hr2 by (by apply set_state_not_ready).
  assert (_is_thread_pending k2 t = _is_thread_pending k1 t) as Hp2 by (by apply set_state_pending).
  split; [|split; [exact E1|split; [exact E2|split; [done|]]]].
  - destruct (_is_thread_ready k t) eqn:Er; unfold k1 in *.
    + pose proof (kinv_remove _ _ _ Hi Er Ht) as Hr.
      apply (kinv_close _ _ t); [|done| |].
      * apply kinv_upd_transit; [|done]. apply (ri_prio _ _ (si_rq _ _ (ki_sched _ _ _ Hr))).
      * rewrite Hp2, remove_pending. by apply ready_not_pending.
      * intros Hx. change (timeout_q k2) with (timeout_q (_remove_thread_from_ready_q k t)) in Hx.
        rewrite (proj1 (remove_timeouts k t)) in Hx. by apply (ready_off_queue _ _ _ _ (ki_tq _ _ _ Hi) Er) in Hx.
    + apply kinv_upd_same; [done|by rewrite Er|done|done].
  - intros u Hu. split; [unfold k2; by rewrite thr_upd_other|]. rewrite <- E4. apply ready_ext; [|done].
    unfold k2. by rewrite thr_upd_other.
Qed.

(** At interrupt level the current thread is not to be suspended. *)
Lemma suspend_sys k t :
  sys_inv k -> t <> idle_thread -> sys_inv (_impl_k_thread_suspend k t).
Proof.
  intros Hs Ht. destruct (single_suspend_kinv k t (sy_kinv _ Hs) Ht) as (Hk & Hc & Hn & Hr & Hu).
  unfold _impl_k_thread_suspend. cbv zeta. set (k1 := _k_thread_single_suspend k t) in *.
  case_bool_decide as Ec; [by apply Swap_sys|]. rewrite Hc in Ec. destruct (Hu (current k)) as [Ht1 Ht2]; [done|].
  apply (sys_shrink k); [done|done|done|done|done|rewrite Ht2; apply Hs|].
  intros u Hru. assert (u <> t) as Hne by congruence. destruct (Hu u Hne) as [-> E]. by rewrite <- E.
Qed.

(** Resuming: the thread must not be runnable already (see
    [resume_ready_corrupts]). *)
Lemma resume_sys k t :
  sys_inv k -> _is_thread_ready k t = false -> sys_inv (_impl_k_thread_resume k t).
Proof.
  intros [H1 H2 H3] Hr. unfold _impl_k_thread_resume, _k_thread_single_resume. cbv zeta.
  pose proof (current_ne _ _ H2 Hr) as Hc.
  assert (forall u, u <> t -> _is_thread_ready (_mark_thread_as_not_suspended k t) u = _is_thread_ready k u) as Hru.
  { intros u Hu. apply ready_ext; [|done]. unfold _mark_thread_as_not_suspended, _reset_thread_states. by rewrite thr_upd_other. }
  assert (_is_thread_pending (_mark_thread_as_not_suspended k t) t = _is_thread_pending k t) as Hp1.
  { rewrite !pending_spec. unfold _mark_thread_as_not_suspended, _reset_thread_states. rewrite thr_upd_same.
    change _THREAD_SUSPENDED with (Z.shiftl 1 4). rewrite st_bit_clear by done. apply andb_true_r. }
  destruct (_is_thread_ready (_mark_thread_as_not_suspended k t) t) eqn:Er.
  - pose proof (ready_not_pending _ _ Er) as Hnp. rewrite Hnp in Hp1.
    pose proof (kinv_open _ _ _ H1 Hr (eq_sym Hp1)) as Ho. apply resched_sys.
    + apply kinv_add; [|done]. apply kinv_upd_transit; [|done]. apply (ri_prio _ _ (si_rq _ _ (ki_sched _ _ _ H1))).
    + change (_is_thread_ready (_mark_thread_as_not_suspended k t) (current k) = true). by rewrite Hru.
  - apply resched_sys; [|by rewrite Hru].
    apply kinv_upd_same; [done|etransitivity; [exact Er|done]|exact Hp1|done].
Qed.

Lemma cancel_sys k t : sys_inv k -> sys_inv (fst (_impl_k_thread_cancel k t)).
Proof.
  intros Hs. pose proof Hs as [H1 H2 H3]. unfold _impl_k_thread_cancel.
  destruct (_has_thread_started k t) eqn:Es; [done|]. cbn [orb]. destruct (negb _) eqn:Ea; [done|]. cbn [fst].
  pose proof (not_started_not_ready _ _ Es) as Hr. pose proof (current_ne _ _ H2 Hr) as Hc.
  assert (TOthread t ∉ (@nil toid)) as Hn by apply not_elem_of_nil. unfold _abort_thread_timeout.
  assert (forall u, thr (fst (_abort_timeout k (TOthread t))) u = thr k u) as Hthr
    by (intros u; by rewrite (abort_frame k (TOthread t))).
  assert (prevented (thr k t) = true) as Hpv.
  { rewrite has_started_spec in Es. apply negb_false_iff in Es. unfold prevented. by rewrite Es, !orb_true_r. }
  pose proof (kinv_abort_prevented None [] k (TOthread t) H1 Hn ltac:(intros u [= <-]; by right)) as Ha.
  assert (forall u, _is_thread_ready (fst (_abort_timeout k (TOthread t))) u = _is_thread_ready k u) as Hru.
  { intros u. apply (ready_tq_frame [] []); [done|done|apply abort_frame]. }
  apply (sys_shrink k); [done|done|apply current_abort|apply nested_abort|apply Hthr|by rewrite Hru|].
  intros u Hu. rewrite Hru in Hu. by rewrite Hthr.
Qed.

End Proofs.

(** ** Abortion *)

(** What an abort handler must do. *)
Class AbortCallback `{KConfig} (cb : positive -> kernel -> kernel) : Prop := {
  ab_kinv : forall f k, kinv None [] k -> kinv None [] (cb f k);
  ab_keeps : forall f k, kinv None [] k -> keeps k (cb f k);
  ab_typed : forall f k, typed k -> typed (cb f k)
}.

Section Abort.
Context `{KConfig} (abort_call : positive -> kernel -> kernel) {Hab : AbortCallback abort_call}.
Implicit Types (k : kernel) (t u : tid).

(** The thread is taken off every queue, whatever state it is in. *)
Definition detached k t : kernel :=
  if _is_thread_ready k t then _remove_thread_from_ready_q k t
  else
    let k := if _is_thread_pending k t then _unpend_thread k t else k in
    if _is_thread_timeout_active k t then fst (_abort_thread_timeout k t) else k.

Lemma detached_spec k t :
  kinv None [] k -> t <> idle_thread ->
  kinv (Some t) [] (detached k t) /\ current (detached k t) = current k /\ nested (detached k t) = nested k /\
  _is_thread_pending (detached k t) t = false /\ TOthread t ∉ timeout_q (detached k t) ++ [] /\
  (forall u, u <> t -> _is_thread_ready (detached k t) u = _is_thread_ready k u).
Proof.
  intros Hi Ht. unfold detached. destruct (_is_thread_ready k t) eqn:Er.
  - split; [by apply kinv_remove|].
    assert (current (_remove_thread_from_ready_q k t) = current k /\ nested (_remove_thread_from_ready_q k t) = nested k) as [-> ->].
    { rewrite remove_unfold. unfold removed. by destruct (Lst.is_empty _ _). }
    split; [done|]. split; [done|]. split; [rewrite remove_pending; by apply ready_not_pending|].
    split; [rewrite (proj1 (remove_timeouts k t)); by apply (ready_off_queue _ _ _ _ (ki_tq _ _ _ Hi))|].
    intros u _. apply remove_ready.
  - cbv zeta. set (k1 := if _is_thread_pending k t then _ else k).
    assert (kinv (Some t) [] k1 /\ current k1 = current k /\ nested k1 = nested k /\ _is_thread_pending k1 t = false /\
      (forall u, u <> t -> _is_thread_ready k1 u = _is_thread_ready k u)) as (H1 & Hc & Hn & Hp & Hu).
    { unfold k1. destruct (_is_thread_pending k t) eqn:Ep.
      - split; [by apply kinv_unpend|]. split; [done|]. split; [done|]. split; [apply unpend_not_pending|].
        intros u. apply unpend_ready.
      - split; [by apply kinv_open|done]. }
    assert (TOthread t ∉ (@nil toid)) as Hnil by apply not_elem_of_nil.
    destruct (_is_thread_timeout_active k1 t) eqn:Ea.
    + unfold _abort_thread_timeout. split; [by apply kinv_abort; [|done|congruence]|].
      rewrite current_abort, nested_abort, abort_pending. split; [done|]. split; [done|]. split; [done|].
      split; [by apply (abort_off (Some t)); [apply H1|]|].
      intros u Hne. rewrite (abort_ready (Some t) []); [by apply Hu|done|done|congruence|congruence].
    + split; [done|]. split; [done|]. split; [done|]. split; [done|]. split; [|done].
      intros Hx. apply (tq_active _ _ _ _ (ki_tq _ _ _ H1)) in Hx. unfold _is_thread_timeout_active in Ea.
      apply negb_false_iff, Z.eqb_eq in Ea. done.
Qed.

Lemma abort_sys k t :
  sys_inv k -> t <> idle_thread -> sys_inv (_impl_k_thread_abort abort_call k t).
Proof.
  intros [H1 H2 H3] Ht. unfold _impl_k_thread_abort, _k_thread_single_abort. cbv zeta.
  set (k0 := match fn_abort (thr k t) with Some f => abort_call f k | None => k end).
  assert (kinv None [] k0 /\ keeps k k0) as [Hk0 (Kc & Kn & _ & Kr)].
  { unfold k0. destruct (fn_abort (thr k t)); [split; [by apply ab_kinv|by apply ab_keeps]|split; [done|apply keeps_refl]]. }
  fold (detached k0 t). destruct (detached_spec k0 t Hk0 Ht) as (D1 & D2 & D3 & D4 & D5 & D6).
  set (k1 := detached k0 t) in *. unfold _set_thread_states, _THREAD_DEAD. set (k2 := upd_thread k1 t _).
  assert (kinv None [] k2) as Hk2.
  { apply (kinv_close _ _ t); [| | |by intros Hx; apply D5 in Hx].
    - apply kinv_upd_transit; [|done]. apply (ri_prio _ _ (si_rq _ _ (ki_sched _ _ _ D1))).
    - by apply set_state_not_ready.
    - unfold k2. by rewrite set_state_pending. }
  case_bool_decide as Ec; [by apply Swap_sys|]. apply resched_sys; [done|].
  change (current k2) with (current k1) in *. assert (current k1 = current k) as E by congruence. rewrite E in *.
  rewrite <- (Kr H2), <- (D6 (current k)) by done. apply ready_ext; [|done]. unfold k2. by rewrite thr_upd_other.
Qed.

(** An aborted thread is dead and waits for nothing. *)
Lemma abort_dead k t :
  sys_inv k -> t <> idle_thread ->
  let k' := _impl_k_thread_abort abort_call k t in
  st_bit (thr k' t) 3 = true /\ _is_thread_pending k' t = false.
Proof.
  intros [H1 H2 H3] Ht k'. unfold k', _impl_k_thread_abort, _k_thread_single_abort. cbv zeta. clear k'.
  set (k0 := match fn_abort (thr k t) with Some f => abort_call f k | None => k end).
  assert (kinv None [] k0) as Hk0 by (unfold k0; destruct (fn_abort (thr k t)); [by apply ab_kinv|done]).
  fold (detached k0 t). destruct (detached_spec k0 t Hk0 Ht) as (_ & _ & _ & Hp & _).
  revert Hp. generalize (detached k0 t) as k1. intros k1 Hp. unfold _set_thread_states, _THREAD_DEAD.
  set (k2 := upd_thread k1 t _).
  assert (st_bit (thr k2 t) 3 = true /\ _is_thread_pending k2 t = false) as [Hb Hp2].
  { unfold k2. split; [|by rewrite set_state_pending]. rewrite thr_upd_same, st_bit_set by lia.
    by rewrite bool_decide_true, orb_true_r. }
  assert (forall u, thread_state (thr (_Swap k2) u) = thread_state (thr k2 u)) as Hsw.
  { intros u. unfold _Swap, __swap. cbv zeta. change (thr (set_current ?a ?b) u) with (thr a u). rewrite thr_upd_thread.
    destruct (decide _) as [->|]; done. }
  assert (forall k', (forall u, thread_state (thr k' u) = thread_state (thr k2 u)) ->
    st_bit (thr k' t) 3 = true /\ _is_thread_pending k' t = false) as Hsame.
  { intros k' Hk. unfold st_bit. rewrite Hk, (pending_ext k2 k') by apply Hk. done. }
  apply Hsame. intros u. case_bool_decide; [apply Hsw|]. unfold _reschedule_threads.
  destruct (_must_switch_threads k2); [apply Hsw|done].
Qed.

End Abort.

(** ** Boot establishes the invariant *)

(** What the initialisation function of a device may do before the kernel runs:
    it cannot use the services of the scheduler. *)
Class PreKernelInit `{KConfig} (i : kernel -> kernel) : Prop := {
  pk_kinv : forall k, kinv None [] k -> kinv None [] (i k);
  pk_cache : forall k, cache (i k) = cache k;
  pk_prio : forall k, prio (thr (i k) (cache k)) = prio (thr k (cache k));
  pk_typed : forall k, typed k -> typed (i k)
}.

Section Boot.
Context `{KConfig}.
Implicit Types (k : kernel) (t u : tid) (levels : Z -> list (kernel -> kernel)).

Definition pre_kernel levels : Prop :=
  Forall PreKernelInit (levels _SYS_INIT_LEVEL_PRE_KERNEL_1) /\
  Forall PreKernelInit (levels _SYS_INIT_LEVEL_PRE_KERNEL_2).

Lemma tq_inv_empty k : timeout_q k = [] -> (forall o, dl k o = _INACTIVE) -> tq_inv None [] k.
Proof.
  intros Hq Hd. split; [|unfold expiry_list; by rewrite Hq].
  split; rewrite ?Hq; try (intros ? Hx; by apply not_elem_of_nil in Hx); try done; try constructor.
Qed.

Lemma init_ready_q_empty k q : (forall q, queues k !!! q = []) -> queues (init_ready_q k) !!! q = [].
Proof.
  intros Hk. unfold init_ready_q. cbn [queues set_queues]. generalize (seq 0 (Z.to_nat K_NUM_PRIORITIES)) as l.
  revert Hk. generalize (queues k) as Q. intros Q HQ l. revert Q HQ.
  induction l as [|i l IH]; intros Q HQ; simpl; [apply HQ|]. apply IH. intros q'. unfold Lst.init.
  destruct (decide (q' = RQ (Z.of_nat i))) as [->|]; [by rewrite lookup_total_insert_eq|by rewrite lookup_total_insert_ne].
Qed.

(** Setting up, marking as started and queuing one of the first threads. *)
Definition booted k t (p o : Z) : kernel :=
  _add_thread_to_ready_q (_mark_thread_as_started (_setup_new_thread k t p o) t) t.

(** The state before the first thread is set up. *)
Definition boot_state (slice_size slice_prio : Z) (dummy main : tid) : kernel :=
  set_cache (init_ready_q (upd_thread (set_current (zero_kernel slice_size slice_prio) dummy) dummy
    (fun x => mk_thread K_ESSENTIAL _THREAD_DUMMY (prio x) (sched_locked x) (swap_data x) (retval x) (fn_abort x)))) main.

Lemma Cstart_unfold levels (slice_size slice_prio : Z) (dummy main : tid) (main_prio : Z) :
  _Cstart levels slice_size slice_prio dummy main main_prio =
  _Swap (_sys_device_do_config_level levels (_sys_device_do_config_level levels
    (set_timeout_q (booted (booted (boot_state slice_size slice_prio dummy main) main main_prio K_ESSENTIAL)
                          idle_thread K_LOWEST_THREAD_PRIO K_ESSENTIAL) [])
    _SYS_INIT_LEVEL_PRE_KERNEL_1) _SYS_INIT_LEVEL_PRE_KERNEL_2).
Proof. reflexivity. Qed.

(** The devices of a level leave the kernel well formed and make no thread
    ready. *)
Lemma config_level_spec levels k (level : Z) :
  Forall PreKernelInit (levels level) -> kinv None [] k ->
  let k' := _sys_device_do_config_level levels k level in
  kinv None [] k' /\ cache k' = cache k /\ prio (thr k' (cache k)) = prio (thr k (cache k)).
Proof.
  unfold _sys_device_do_config_level. intros Hf. revert k.
  induction Hf as [|i l Hi _ IH]; intros k Hk; simpl; [done|].
  destruct (IH (i k) (pk_kinv (i := i) k Hk)) as (H1 & H2 & H3). rewrite (pk_cache (i := i)) in H2, H3.
  split; [exact H1|]. split; [exact H2|]. by rewrite H3, (pk_prio (i := i)).
Qed.

Lemma pre_kernel_spec levels k :
  pre_kernel levels -> kinv None [] k ->
  let k' := _sys_device_do_config_level levels (_sys_device_do_config_level levels k _SYS_INIT_LEVEL_PRE_KERNEL_1)
              _SYS_INIT_LEVEL_PRE_KERNEL_2 in
  kinv None [] k' /\ cache k' = cache k /\ prio (thr k' (cache k)) = prio (thr k (cache k)).
Proof.
  intros [H1 H2] Hk. destruct (config_level_spec levels k _ H1 Hk) as (A1 & A2 & A3).
  destruct (config_level_spec levels _ _ H2 A1) as (B1 & B2 & B3). cbv zeta in *. rewrite A2 in B2, B3.
  split; [exact B1|]. split; [exact B2|]. by rewrite B3.
Qed.

Lemma boot_thread k t (p o : Z) :
  rq_inv None k -> timeout_q k = [] -> (forall x, dl k x = _INACTIVE) ->
  _is_thread_ready k t = false -> _is_thread_pending k t = false -> prio_range p ->
  cache k = t \/ (exists i, queues k !!! RQ i <> []) ->
  let k' := booted k t p o in
  rq_inv None k' /\ timeout_q k' = [] /\ (forall x, dl k' x = _INACTIVE) /\ _is_thread_ready k' t = true /\
  (forall u, u <> t -> _is_thread_ready k' u = _is_thread_ready k u /\ _is_thread_pending k' u = _is_thread_pending k u).
Proof.
  intros Hi Hq Hd Hr Hp Hpr Hc k'. set (k1 := _setup_new_thread k t p o). set (k2 := _mark_thread_as_started k1 t).
  assert (forall u, thr k2 u = if decide (u = t) then with_state 0 (new_thread p o (thr k t)) else thr k u) as Hthr.
  { intros u. unfold k2. rewrite started_thr. unfold k1. rewrite !setup_thr. by repeat case_decide. }
  assert (forall x, dl k2 x = _INACTIVE) as Hd2.
  { intros x. change (dl k1 x = _INACTIVE). unfold dl, k1. rewrite setup_tmo. case_decide; [done|apply Hd]. }
  assert (forall u, u <> t -> _is_thread_ready k2 u = _is_thread_ready k u /\ _is_thread_pending k2 u = _is_thread_pending k u) as Hu.
  { intros u Hne. split; [apply ready_ext|apply pending_ext]; try (by rewrite Hthr, decide_False).
    fold (dl k2 (TOthread u)) (dl k (TOthread u)). by rewrite Hd2, Hd. }
  assert (_is_thread_ready k2 t = true) as Hr2.
  { apply ready_spec. split; [by rewrite Hthr, decide_True|apply Hd2]. }
  assert (rq_inv (Some t) k2) as H2.
  { apply (rq_inv_agree (Some t) k); try done.
    - intros u. rewrite Hthr. case_decide; [|apply (ri_prio _ _ Hi)]. cbn. rewrite s8_small; [done|].
      apply prio_range_s8 in Hpr. lia.
    - intros u Hx. assert (u <> t) as Hne by congruence. split; [by rewrite Hthr, decide_False|by apply Hu].
    - by apply rq_open. }
  split; [by apply add_inv|]. split; [done|]. split; [exact Hd2|]. split; [exact Hr2|exact Hu].
Qed.

(** No thread exists and every queue is empty. *)
Record blank k : Prop := {
  blank_queues : forall q, queues k !!! q = [];
  blank_thread : forall u, thread_state (thr k u) = _THREAD_DUMMY /\ prio (thr k u) = 0;
  blank_bmap : prio_bmap k = repeat 0 (Z.to_nat K_NUM_PRIO_BITMAPS);
  blank_timeout_q : timeout_q k = [];
  blank_timeouts : forall x, dl k x = _INACTIVE
}.

Lemma blank_off k u : blank k -> _is_thread_ready k u = false /\ _is_thread_pending k u = false.
Proof.
  intros Hb. destruct (blank_thread _ Hb u) as [Es _]. split; [|by rewrite pending_spec; unfold st_bit; rewrite Es].
  apply not_true_is_false. rewrite ready_spec. unfold prevented, st_bit. rewrite Es. by intros [].
Qed.

Lemma blank_rq k : blank k -> rq_inv None k.
Proof.
  intros Hb. assert (forall t q, t ∈ queues k !!! q -> False) as Hin.
  { intros t q. rewrite (blank_queues _ Hb). apply not_elem_of_nil. }
  split.
  - intros u. rewrite (proj2 (blank_thread _ Hb u)). unfold prio_range, K_HIGHEST_THREAD_PRIO, K_LOWEST_THREAD_PRIO.
    pose proof coop_range. pose proof preempt_range. lia.
  - intros u i. rewrite (proj1 (blank_off k u Hb)). split; [intros Hx; by apply Hin in Hx|by intros (_ & ? & _)].
  - intros u w Hx. by apply Hin in Hx.
  - intros u _ Hx. by rewrite (proj2 (blank_off k u Hb)) in Hx.
  - intros u w w' Hx. by apply Hin in Hx.
  - intros q. rewrite (blank_queues _ Hb). constructor.
  - rewrite (blank_bmap _ Hb). split; [|apply Forall_forall; intros w Hw; apply list_elem_of_In, repeat_spec in Hw; lia].
    rewrite repeat_length, Z2Nat.id; [done|]. pose proof (num_bitmaps_bound 0). unfold K_NUM_PRIORITIES in *.
    pose proof coop_range. pose proof preempt_range. lia.
  - intros i Hi. rewrite bool_decide_false by (rewrite (blank_queues _ Hb); naive_solver).
    rewrite (blank_bmap _ Hb). unfold bit_at. by rewrite nth_repeat, Z.testbit_0_l.
  - intros i [Hx _]. by rewrite (blank_queues _ Hb) in Hx.
Qed.

Lemma boot_blank (slice_size slice_prio : Z) (dummy main : tid) :
  blank (boot_state slice_size slice_prio dummy main).
Proof.
  split.
  - intros q. apply init_ready_q_empty. intros q'. change ((∅ : gmap qid (list tid)) !!! q' = []). by rewrite lookup_total_empty.
  - intros u. unfold boot_state. match goal with |- context [set_cache (init_ready_q ?k) _] => change (thr (set_cache (init_ready_q k) main) u) with (thr k u) end.
    rewrite thr_upd_thread. change (thr _ ?x) with ((∅ : gmap tid k_thread) !!! x). rewrite !lookup_total_empty. by case_decide.
  - done.
  - done.
  - intros x. unfold dl. change (tmo _ x) with ((∅ : gmap toid _timeout) !!! x). by rewrite lookup_total_empty.
Qed.

Lemma boot_kinv (slice_size slice_prio : Z) (dummy main : tid) (main_prio : Z) :
  main <> idle_thread -> prio_range main_prio ->
  kinv None [] (set_timeout_q (booted (booted (boot_state slice_size slice_prio dummy main) main main_prio K_ESSENTIAL)
                          idle_thread K_LOWEST_THREAD_PRIO K_ESSENTIAL) []).
Proof.
  intros Hne Hp.
  pose proof (boot_blank slice_size slice_prio dummy main) as Hb.
  assert (cache (boot_state slice_size slice_prio dummy main) = main) as Hc by done.
  revert Hb Hc. generalize (boot_state slice_size slice_prio dummy main) as k0. intros k0 Hb Hc.
  destruct (blank_off k0 main Hb) as [Hm1 Hm2]. destruct (blank_off k0 idle_thread Hb) as [Hi1 Hi2].
  destruct (boot_thread k0 main main_prio K_ESSENTIAL (blank_rq k0 Hb) (blank_timeout_q _ Hb) (blank_timeouts _ Hb)
    Hm1 Hm2 Hp (or_introl Hc)) as (H1 & Hq1 & Hd1 & Hr1 & Hu1).
  destruct (Hu1 idle_thread) as [E1 E2]; [done|]. rewrite <- E1 in Hi1. rewrite <- E2 in Hi2.
  revert H1 Hq1 Hd1 Hr1 Hi1 Hi2. clear. generalize (booted k0 main main_prio K_ESSENTIAL) as k1. intros k1 H1 Hq1 Hd1 Hr1 Hi1 Hi2.
  assert (prio_range K_LOWEST_THREAD_PRIO) as Hlow.
  { unfold prio_range, K_HIGHEST_THREAD_PRIO, K_LOWEST_THREAD_PRIO. pose proof coop_range. pose proof preempt_range. lia. }
  destruct (boot_thread k1 idle_thread K_LOWEST_THREAD_PRIO K_ESSENTIAL H1 Hq1 Hd1 Hi1 Hi2 Hlow) as (H2 & Hq2 & Hd2 & Hr2 & _).
  { right. exists (_get_ready_q_q_index (prio (thr k1 main))). intros E.
    assert (main ∈ queues k1 !!! RQ (_get_ready_q_q_index (prio (thr k1 main)))) as Hin by (by apply (ri_rq _ _ H1)).
    rewrite E in Hin. by apply not_elem_of_nil in Hin. }
  revert H2 Hq2 Hd2 Hr2. generalize (booted k1 idle_thread K_LOWEST_THREAD_PRIO K_ESSENTIAL) as k2. intros k2 H2 Hq2 Hd2 Hr2.
  apply (kinv_same _ _ k2); try reflexivity; [by rewrite Hq2|].
  split; [by split|by apply tq_inv_empty|]. intros m u _. rewrite Hq2. apply not_elem_of_nil.
Qed.

Lemma boot_sys levels (slice_size slice_prio : Z) (dummy main : tid) (main_prio : Z) :
  pre_kernel levels -> main <> idle_thread -> prio_range main_prio ->
  sys_inv (_Cstart levels slice_size slice_prio dummy main main_prio).
Proof.
  intros Hl Hne Hp. rewrite Cstart_unfold. apply Swap_sys.
  exact (proj1 (pre_kernel_spec levels _ Hl (boot_kinv slice_size slice_prio dummy main main_prio Hne Hp))).
Qed.

End Boot.
End Thread.
