(* ===== verification/Demo.v ===== *)
(** * A concrete system

    The configuration of the native_posix board with the default numbers of
    priorities, and a few states an application reaches: they are the concrete
    instances at which the theorems of the other files are applied.  The main
    thread is thread 3; threads 4 (of main's priority), 5 (of a lower one) and
    6 (cooperative) are created by it. *)

From S2P Require Import Prelude DList ListStore Kernel Ksched ReadyQ TimeoutQ KInv Sched Thread.

Local Open Scope Z_scope.

Module Demo.

Definition config : KConfig.
Proof. refine (Build_KConfig 16 15 0 10 1%positive _ _ _); abstract lia. Defined.

#[local] Existing Instance config.

(** An application that has no timers and no abort handlers. *)
Definition no_tf (_ : positive) (_ : toid) (k : kernel) : kernel := k.
Definition no_abort (_ : positive) (k : kernel) : kernel := k.

#[export] Instance no_tf_handler : TimeoutHandler no_tf.
Proof. split; [done|intros; apply keeps_refl]. Qed.

#[export] Instance no_abort_callback : Thread.AbortCallback no_abort.
Proof. split; [done|intros; apply keeps_refl|done]. Qed.

(** It has no devices whose initialisation concerns the scheduler. *)
Definition no_devices (_ : Z) : list (kernel -> kernel) := [].

Lemma no_devices_init : Thread.pre_kernel no_devices.
Proof. split; constructor. Qed.

(** After the boot sequence main runs, at priority 0. *)
Definition k_boot : kernel := Thread._Cstart no_devices 0 0 2 3 0.
(** Main has created thread 4. *)
Definition k_two : kernel := Thread._impl_k_thread_create no_tf k_boot 4 0 0 0.
(** It has created thread 5 as well. *)
Definition k_three : kernel := Thread._impl_k_thread_create no_tf k_two 5 5 0 0.
(** Main waits for object 7, with a timeout of 100 ms; thread 4 runs. *)
Definition k_timed : kernel := _Swap (_pend_current_thread no_tf k_three (object_wq 7) 100).
(** Thread 4 waits for object 7 as well, for ever; thread 5 runs. *)
Definition k_wait : kernel := _Swap (_pend_current_thread no_tf k_timed (object_wq 7) K_FOREVER).

Lemma in_prio_range (p : Z) : -16 <= p <= 15 -> prio_range p.
Proof. done. Qed.

Lemma k_boot_sys : sys_inv k_boot.
Proof. by apply Thread.boot_sys; [apply no_devices_init| |apply in_prio_range]. Qed.

Ltac off_thread := split; [vm_compute; reflexivity|vm_compute; reflexivity|
  let H := fresh in intros H; apply (bool_decide_pack _) in H; vm_compute in H; exact H].

Lemma k_two_sys : sys_inv k_two.
Proof.
  apply Thread.create_sys; [apply k_boot_sys|off_thread|done|by apply in_prio_range|by right; left].
Qed.

Lemma k_three_sys : sys_inv k_three.
Proof.
  apply Thread.create_sys; [apply k_two_sys|off_thread|done|by apply in_prio_range|by right; left].
Qed.

Lemma k_timed_sys : sys_inv k_timed.
Proof. apply (pend_object_sys no_tf); [apply k_three_sys|by vm_compute|by right; right|by vm_compute]. Qed.

Lemma k_wait_sys : sys_inv k_wait.
Proof. apply (pend_object_sys no_tf); [apply k_timed_sys|by vm_compute|by right; left|by vm_compute]. Qed.

End Demo.
