(* ===== verification/Scheduling.v ===== *)
(** * What the scheduler and the timeout queue do

    The behaviour of the operations of kernel/sched.c, kernel/sys_clock.c and
    kernel/include/timeout_q.h, stated on the ready queues, on the wait queues
    and on the absolute expiry times of the timeout queue. *)

From stdpp Require Import sorting.
From S2P Require Import Prelude DList ListStore Kernel Ksched ReadyQ TimeoutQ KInv Sched Thread Demo.

Local Open Scope Z_scope.

Module Scheduling.

(** ** Expiry times across a tick *)

Section Expiries.
Implicit Types (l : list toid) (d : toid -> Z).

Lemma expiries_sub d acc c l :
  expiries d (acc - c) l = (fun oe => (oe.1, oe.2 - c)) <$> expiries d acc l.
Proof.
  revert acc. induction l as [|o l IH]; intros acc; [done|]. simpl.
  replace (acc - c + d o) with (acc + d o - c) by lia. by rewrite IH.
Qed.

(** Taking [n] off the first delta takes [n] off every expiry. *)
Lemma expiries_tick d d' n hd l :
  d' hd = d hd - n -> (forall o, o ∈ l -> d' o = d o) ->
  expiries d' 0 (hd :: l) = (fun oe => (oe.1, oe.2 - n)) <$> expiries d 0 (hd :: l).
Proof.
  intros Hh Hl. simpl. rewrite Hh, (expiries_ext d' d) by done.
  replace (0 + (d hd - n)) with (0 + d hd - n) by lia. by rewrite expiries_sub.
Qed.

Lemma filter_zero_nil d acc l :
  (forall o, o ∈ l -> 0 <= d o) -> 0 < acc ->
  filter (fun oe => oe.2 = 0) (expiries d acc l) = [] /\
  filter (fun oe => 0 < oe.2) (expiries d acc l) = expiries d acc l.
Proof.
  intros Hd Ha. assert (Forall (fun oe => 0 < oe.2) (expiries d acc l)) as Hp.
  { apply Forall_forall. intros e He. apply expiries_le in He; [lia|done]. }
  split; [|by apply filter_all]. apply filter_none. eapply Forall_impl; [exact Hp|]. intros e He E. simpl in He. lia.
Qed.

(** The due timeouts are those that expire now; the others stay. *)
Lemma due_expiries d l :
  (forall o, o ∈ l -> 0 <= d o) ->
  due d l = (filter (fun oe => oe.2 = 0) (expiries d 0 l)).*1 /\
  forall r, l = due d l ++ r -> expiries d 0 r = filter (fun oe => 0 < oe.2) (expiries d 0 l).
Proof.
  induction l as [|o l IH]; intros Hd; [split; [done|]; by intros [] |]. simpl.
  assert (forall p, p ∈ l -> 0 <= d p) as Hl by (intros p Hp; apply Hd; by right).
  destruct (Z.eqb_spec (d o) 0) as [E|E].
  - rewrite E. rewrite (filter_cons_True (fun oe => oe.2 = 0)), (filter_cons_False (fun oe => 0 < oe.2)) by (cbn; lia).
    destruct (IH Hl) as [IH1 IH2]. split; [by rewrite IH1 at 1|]. intros r [= Hr]. by apply IH2.
  - assert (0 < d o) as Hp by (pose proof (Hd o ltac:(left)); lia).
    destruct (filter_zero_nil d (0 + d o) l Hl ltac:(lia)) as [E1 E2].
    rewrite (filter_cons_False (fun oe => oe.2 = 0)), (filter_cons_True (fun oe => 0 < oe.2)) by (cbn; lia).
    rewrite E1, E2. split; [done|]. intros r Hr. simpl in Hr. by rewrite <- Hr.
Qed.

End Expiries.

Section Claims.
Context `{KConfig} (tf : positive -> toid -> kernel -> kernel).
Implicit Types (k : kernel) (t u : tid) (w : positive) (o : toid).

(** The cached next thread is ready, no ready thread has a higher
    priority, the bitmap search agrees on that priority, and the thread is
    the first of its ready queue. *)
Theorem next_thread_is_highest k :
  sched_inv None k ->
  let t := _get_next_ready_thread k in
  _is_thread_ready k t = true /\
  (forall u, _is_thread_ready k u = true -> prio (thr k t) <= prio (thr k u)) /\
  _get_highest_ready_prio k = prio (thr k t) /\
  head (queues k !!! RQ (_get_ready_q_q_index (prio (thr k t)))) = Some t /\
  _get_ready_q_head k = t.
Proof.
  intros Hi t. destruct (cache_best k Hi) as (Hr & Hb & Hp). split; [done|]. split; [done|]. split; [done|].
  pose proof (si_rq _ _ Hi) as Hrq. destruct (sched_nonempty _ _ Hi) as [j Hj].
  destruct (highest_exists _ _ _ Hrq Hj) as (i & Hh & _). pose proof (highest_range _ _ _ Hrq Hh) as Hir.
  pose proof (cache_on_highest _ _ _ Hrq Hh) as [_ Ei]. pose proof (ri_cache _ _ Hrq _ Hh) as Hc.
  rewrite Ei in Hc. split; [exact Hc|].
  assert (Some (_get_ready_q_head k) = Some t) as [= E]; [|done].
  rewrite <- (ready_q_head_of_bits k i (ri_words _ _ Hrq) (ri_bits _ _ Hrq) ltac:(lia) Hh). by rewrite Ei.
Qed.

(** The single comparison of [preempt] with the threshold says that the
    thread has a preemptible priority and has not locked the scheduler. *)
Theorem preempt_comparison k t :
  0 <= sched_locked (thr k t) < 2 ^ 8 -> prio_range (prio (thr k t)) ->
  _is_preempt k t = true <-> sched_locked (thr k t) = 0 /\ 0 <= prio (thr k t).
Proof. apply is_preempt_spec. Qed.

(** [k_yield] is round robin: the caller goes to the end of the queue of its
    priority, and the thread that was behind it runs. *)
Theorem yield_round_robin k u (l : list tid) :
  sys_inv k -> cache k = current k ->
  let q := RQ (_get_ready_q_q_index (prio (thr k (current k)))) in
  queues k !!! q = current k :: u :: l ->
  current (_impl_k_yield k) = u /\ queues (_impl_k_yield k) !!! q = u :: l ++ [current k].
Proof.
  intros [H1 H2 _] Hc q Hq. pose proof (si_rq _ _ (ki_sched _ _ _ H1)) as Hrq.
  pose proof (move_to_end_queue k (current k) q Hrq H2) as Hm. cbv zeta in Hm. rewrite decide_True in Hm by done.
  fold q in Hm. rewrite Hq in Hm. pose proof (ri_nodup _ _ Hrq q) as Hnd. rewrite Hq in Hnd.
  rewrite (filter_ne_split (current k) [] (u :: l)) in Hm by done. cbn [app] in Hm.
  pose proof (sched_move_to_end _ _ (ki_sched _ _ _ H1) H2) as Hs.
  pose proof (current_move_to_end k (current k)) as Ec.
  unfold _impl_k_yield. cbv zeta. set (k1 := _move_thread_to_end_of_prio_q k (current k)) in *.
  assert (highest k1 (_get_ready_q_q_index (prio (thr k (current k))))) as Hh.
  { destruct (sched_nonempty _ _ (ki_sched _ _ _ H1)) as [j Hj]. destruct (highest_exists _ _ _ Hrq Hj) as (i & Hi & _).
    destruct (cache_on_highest _ _ _ Hrq Hi) as [_ Ei]. rewrite Hc in Ei. subst i. split; [fold q; by rewrite Hm|].
    intros j' Hlt. unfold k1. rewrite move_to_end_queue, decide_False by (done || congruence || (intros [= ->]; lia)).
    by apply (proj2 Hi). }
  pose proof (ri_cache _ _ (si_rq _ _ Hs) _ Hh) as Hcc. fold q in Hcc. rewrite Hm in Hcc. injection Hcc as Hcc.
  unfold _get_next_ready_thread. rewrite Ec, bool_decide_false; [split; [exact (eq_sym Hcc)|exact Hm]|].
  rewrite <- Hcc. intros E. apply NoDup_cons in Hnd as [Hn _]. apply Hn. rewrite E. left.
Qed.

(** ** Wait queues *)

Definition by_prio k (l : list tid) : Prop := StronglySorted (fun a b => prio (thr k a) <= prio (thr k b)) l.

Lemma sorted_tail_above k (p : Z) (l : list tid) :
  by_prio k l -> (forall u, head l = Some u -> p < prio (thr k u)) -> Forall (fun u => p < prio (thr k u)) l.
Proof.
  intros Hs Hh. destruct l as [|a l]; [done|]. pose proof (Hh a eq_refl) as Ha.
  constructor; [done|]. apply StronglySorted_inv in Hs as [_ Hf]. eapply Forall_impl; [exact Hf|]. intros u Hu. simpl in Hu. lia.
Qed.

(** [_pend_thread] puts a thread on a wait queue that is in priority order
    behind the threads of the same or a higher priority and before all the
    others; the order is kept and no other queue changes. *)
Theorem pend_in_priority_order k t w (timeout : Z) :
  NoDup (queues k !!! WQ w) -> t ∉ queues k !!! WQ w -> by_prio k (queues k !!! WQ w) ->
  timeout = K_FOREVER \/ timeout_ok timeout ->
  let k' := _pend_thread tf k t (WQ w) timeout in
  exists l1 l2, queues k !!! WQ w = l1 ++ l2 /\ queues k' !!! WQ w = l1 ++ t :: l2 /\
    Forall (fun u => prio (thr k u) <= prio (thr k t)) l1 /\
    Forall (fun u => prio (thr k t) < prio (thr k u)) l2 /\
    by_prio k (queues k' !!! WQ w) /\ (forall q, q <> WQ w -> queues k' !!! q = queues k !!! q).
Proof.
  intros Hnd Ht Hs Hok k'. destruct (pend_queues k t w Hnd) as (l1 & l2 & E & E' & H1 & H2 & Ho).
  exists l1, l2. unfold k'. rewrite pend_thread_queues by done. rewrite E in Hs.
  apply StronglySorted_app in Hs as (Hc & Hs1 & Hs2).
  pose proof (sorted_tail_above k _ l2 Hs2 H2) as Hab.
  split_and!; [done|done|done|done| |done]. rewrite E'. unfold by_prio. apply StronglySorted_app.
  split_and!; [|done|].
  - intros a b Ha [->|Hb]%elem_of_cons; [by apply (proj1 (Forall_forall _ _) H1)|by apply Hc].
  - constructor; [done|]. eapply Forall_impl; [exact Hab|]. intros u Hu. simpl in Hu. lia.
Qed.

(** ** The timeout queue *)

(** C4. The timeout queue stores differences, and [_add_timeout] changes two of them; on
    the list of absolute expiry times this is the insertion of the new timeout in front of
    the first one that does not expire before it.  All other timeouts keep their expiry and
    their order, no difference becomes negative or wraps around, the thread and the wait
    queue are recorded, and nothing but the queue and its timeouts changes.  The new
    timeout is not in the queue, and no expiry is 2^31 ticks ahead or more. *)
Theorem add_timeout_keeps_expiries k o (thread : option tid) (wait_q : option qid) (n : Z) :
  NoDup (o :: timeout_q k) -> (forall x, x ∈ timeout_q k -> 0 <= dl k x) ->
  sum_deltas (dl k) (timeout_q k) < 2 ^ 31 -> 0 < n < 2 ^ 31 ->
  let k' := _add_timeout tf k thread o wait_q n in
  expiry_list k' = tq_insert o n (expiry_list k) /\
  (forall x, x ∈ timeout_q k' -> 0 <= dl k' x) /\
  to_thread (tmo k' o) = thread /\ to_wait_q (tmo k' o) = wait_q /\ func (tmo k' o) = func (tmo k o) /\
  tq_frame k k'.
Proof.
  intros Hnd Hp Hsum Hn. pose proof (proj1 (NoDup_cons _ _) Hnd) as [Ho _].
  unfold _add_timeout. cbv zeta. destruct (Z.eqb_spec n 0); [lia|]. set (k1 := upd_timeout k o _).
  assert (forall x, x ∈ timeout_q k -> dl k1 x = dl k x) as Hd.
  { intros x Hx. unfold dl, k1. rewrite tmo_upd_timeout, decide_False; [done|]. by intros ->. }
  change (timeout_q k1) with (timeout_q k).
  destruct (add_timeout_loop_spec (timeout_q k) k1 o [] 0 n) as (l' & Q1 & Q2 & _ & Q4 & _ & Q6 & Q7); try done.
  { intros x Hx. rewrite Hd by done. by apply Hp. }
  { by rewrite (sum_deltas_ext _ (dl k)). }
  { unfold dl, k1. rewrite tmo_upd_timeout, decide_True by done. simpl. lia. } { lia. }
  destruct (Q6 o) as (F1 & F2 & F3). unfold k1 in F1, F2, F3. rewrite tmo_upd_timeout, decide_True in F1, F2, F3 by done.
  unfold expiry_list. simpl in Q1. rewrite Q1, Q2. split_and!; [f_equal; by apply expiries_ext|done|done|done|done|].
  by rewrite Q7.
Qed.

(** [_abort_timeout] takes the timeout off the queue and leaves the expiry
    times of all others as they were; a timeout that is not active is left
    alone and reported as such. *)
Theorem abort_timeout_keeps_expiries k o :
  tq_inv None [] k ->
  expiry_list (fst (_abort_timeout k o)) = filter (fun e => e.1 <> o) (expiry_list k) /\
  snd (_abort_timeout k o) = (if decide (o ∈ timeout_q k) then 0 else _INACTIVE) /\
  dl (fst (_abort_timeout k o)) o = _INACTIVE.
Proof.
  intros Hi. pose proof (ti_nodup _ _ _ Hi) as Hnd. rewrite app_nil_r in Hnd.
  pose proof (ti_pos _ _ _ Hi) as Hp. pose proof (ti_sum _ _ _ Hi) as Hs. split; [by eapply abort_expiries|].
  case_decide as Ho.
  - destruct (list_elem_of_split_l _ _ Ho) as (l1 & l2 & Hq & _).
    destruct (abort_timeout_spec k o l1 l2 Hq Hnd Hp Hs) as (Hr & _ & Hd & _). split; [done|]. by rewrite Hd, decide_True.
  - assert (dl k o = _INACTIVE) as Hd by (apply (ti_inactive _ _ _ Hi); [done|apply not_elem_of_nil]).
    by rewrite abort_inactive.
Qed.


(** [k_sleep]: the caller cannot run until its timeout, which is queued for
    [_TICK_ALIGN] ticks more than the duration; no other thread changes, and
    the next thread of the ready queues runs. *)
Theorem sleep_until_timeout k (duration : Z) :
  sys_inv k -> current k <> idle_thread -> duration <> 0 -> timeout_ok duration ->
  let k' := _impl_k_sleep tf k duration in
  _is_thread_ready k' (current k) = false /\
  expiry_list k' = tq_insert (TOthread (current k)) (s32 (_TICK_ALIGN + _ms_to_ticks duration)) (expiry_list k) /\
  (forall u, u <> current k -> _is_thread_ready k' u = _is_thread_ready k u) /\
  current k' = _get_next_ready_thread k'.
Proof.
  intros Hs Hc Hd Hok k'. unfold k', _impl_k_sleep. cbv zeta. destruct (Z.eqb_spec duration 0); [done|].
  rewrite remove_current. destruct (sleeping_spec tf k duration Hs Hc Hok) as (_ & He & Hr & Hu).
  revert He Hr Hu. generalize (_add_thread_timeout tf (_remove_thread_from_ready_q k (current k)) (current k) None
    (s32 (_TICK_ALIGN + _ms_to_ticks duration))) as k2. intros k2 He Hr Hu.
  split; [by rewrite Swap_ready|]. split; [exact He|]. split; [|done]. intros u Hne. rewrite Swap_ready. by apply Hu.
Qed.

End Claims.
(** ** The theorems at concrete states *)

Section Witnesses.
Import Demo.
#[local] Existing Instance config.

Lemma k_wait_tq : tq_inv None [] k_wait.
Proof. apply k_wait_sys. Qed.

Lemma next_thread_is_highest_witness :
  _is_thread_ready k_wait 5 = true /\ _get_highest_ready_prio k_wait = prio (thr k_wait 5) /\ _get_ready_q_head k_wait = 5%positive.
Proof.
  destruct (next_thread_is_highest k_wait (ki_sched _ _ _ (sy_kinv _ k_wait_sys))) as (H1 & _ & H3 & _ & H5).
  split; [exact H1|]. split; [exact H3|exact H5].
Defined.

Lemma preempt_comparison_witness : _is_preempt k_wait 5 = true <-> sched_locked (thr k_wait 5) = 0 /\ 0 <= prio (thr k_wait 5).
Proof. apply (preempt_comparison k_wait 5); [vm_compute; by split|vm_compute; by split]. Defined.

Lemma yield_round_robin_witness : current (_impl_k_yield k_two) = 4%positive.
Proof.
  refine (proj1 (yield_round_robin k_two 4 [] k_two_sys _ _)); vm_compute; reflexivity.
Defined.

(** Thread 4 waits behind thread 3, which has the same priority. *)
Lemma pend_in_priority_order_witness :
  exists l1 l2, queues k_timed !!! object_wq 7 = l1 ++ l2 /\
    queues (_pend_thread no_tf k_timed 4 (object_wq 7) K_FOREVER) !!! object_wq 7 = l1 ++ 4%positive :: l2.
Proof.
  destruct (pend_in_priority_order no_tf k_timed 4 14 K_FOREVER) as (l1 & l2 & H1 & H2 & _).
  - apply (bool_decide_unpack _). vm_compute. exact I.
  - apply (bool_decide_unpack _). vm_compute. exact I.
  - vm_compute. repeat constructor.
  - by left.
  - exists l1, l2. split; [exact H1|exact H2].
Defined.

Lemma add_timeout_keeps_expiries_witness :
  expiry_list (_add_timeout no_tf k_wait None (TOtimer 9) None 4) = [(TOtimer 9, 4); (TOthread 3, 11)].
Proof.
  destruct (add_timeout_keeps_expiries no_tf k_wait (TOtimer 9) None None 4) as [H1 _].
  - apply (bool_decide_unpack _). vm_compute. exact I.
  - apply (ti_pos _ _ _ k_wait_tq).
  - vm_compute. reflexivity.
  - lia.
  - rewrite H1. vm_compute. reflexivity.
Defined.

Lemma abort_timeout_keeps_expiries_witness :
  expiry_list (fst (_abort_timeout k_wait (TOthread 3))) = [] /\ snd (_abort_timeout k_wait (TOthread 3)) = 0.
Proof.
  destruct (abort_timeout_keeps_expiries k_wait (TOthread 3) k_wait_tq) as (H1 & H2 & _).
  rewrite H1, H2. vm_compute. split; reflexivity.
Defined.


Lemma sleep_until_timeout_witness :
  expiry_list (_impl_k_sleep no_tf k_wait 50) = [(TOthread 5, 6); (TOthread 3, 11)].
Proof.
  destruct (sleep_until_timeout no_tf k_wait 50 k_wait_sys) as (_ & H2 & _); [vm_compute; congruence|lia|vm_compute; reflexivity|].
  rewrite H2. vm_compute. reflexivity.
Defined.

End Witnesses.
End Scheduling.
