(* ===== verification/Lifecycle.v ===== *)
(** * The life of a thread

    What creation, start, suspension, resumption and abortion of a thread do
    (kernel/thread.c, kernel/thread_abort.c), what runs at the end of the boot
    sequence (kernel/init.c), and that [k_busy_wait] ends. *)

From S2P Require Import Prelude DList ListStore Kernel Ksched ReadyQ TimeoutQ KInv Sched Thread Demo.

Local Open Scope Z_scope.

Module Lifecycle.

Section Claims.
Context `{KConfig} (tf : positive -> toid -> kernel -> kernel).
Context (abort_call : positive -> kernel -> kernel) {Hab : Thread.AbortCallback abort_call}.
Implicit Types (k : kernel) (t u : tid).

(** A thread that is not ready and waits for no object is on no queue. *)
Lemma off_queues k t (q : qid) :
  sys_inv k -> _is_thread_ready k t = false -> _is_thread_pending k t = false -> t ∉ queues k !!! q.
Proof.
  intros [H1 _ _] Hr Hp Hin. pose proof (si_rq _ _ (ki_sched _ _ _ H1)) as Hrq. destruct q as [i|w].
  - apply (ri_rq _ _ Hrq) in Hin as (_ & Hx & _). congruence.
  - apply (ri_wq _ _ Hrq) in Hin as [_ Hx]. congruence.
Qed.

(** An aborted thread is dead: whatever it was doing, it is on no ready or
    wait queue, it cannot be made ready, it does not run, and the kernel's
    invariant holds. *)
Theorem abort_ends_thread k t :
  sys_inv k -> t <> idle_thread ->
  let k' := Thread._impl_k_thread_abort abort_call k t in
  sys_inv k' /\ _is_thread_prevented_from_running k' t = true /\ (forall q, t ∉ queues k' !!! q) /\ current k' <> t.
Proof.
  intros Hs Ht k'. pose proof (Thread.abort_sys abort_call k t Hs Ht) as Hs'. fold k' in Hs'.
  destruct (Thread.abort_dead abort_call k t Hs Ht) as [Hd Hp]. fold k' in Hd, Hp.
  assert (prevented (thr k' t) = true) as Hpv by (unfold prevented; by rewrite Hd, !orb_true_r).
  assert (_is_thread_ready k' t = false) as Hr.
  { apply not_true_is_false. intros [Hx _]%ready_spec. congruence. }
  split; [done|]. split; [by rewrite prevented_spec|]. split; [intros q; by apply off_queues|].
  intros E. pose proof (sy_current _ Hs') as Hc. rewrite E in Hc. congruence.
Qed.

(** A suspended thread does not run and is not ready. *)
Theorem suspend_stops_thread k t :
  sys_inv k -> t <> idle_thread ->
  let k' := Thread._impl_k_thread_suspend k t in
  sys_inv k' /\ _is_thread_ready k' t = false /\ current k' <> t /\
  (forall u, u <> t -> _is_thread_ready k' u = _is_thread_ready k u).
Proof.
  intros Hs Ht k'. pose proof (Thread.suspend_sys k t Hs Ht) as Hs'. fold k' in Hs'.
  destruct (Thread.single_suspend_kinv k t (sy_kinv _ Hs) Ht) as (_ & _ & _ & Hr & Hu).
  assert (forall u, _is_thread_ready k' u = _is_thread_ready (Thread._k_thread_single_suspend k t) u) as E.
  { intros u. unfold k', Thread._impl_k_thread_suspend. cbv zeta. case_bool_decide; [apply Swap_ready|done]. }
  assert (_is_thread_ready k' t = false) as Hr' by (by rewrite E).
  split; [done|]. split; [done|]. split.
  - intros Ec. pose proof (sy_current _ Hs') as Hc. rewrite Ec in Hc. congruence.
  - intros u Hne. rewrite E. by apply Hu.
Qed.

(** [k_thread_create] without a delay makes the new thread ready with the
    given priority; with [K_FOREVER] it waits for [k_thread_start]. *)
Theorem create_makes_ready k t (p o delay : Z) :
  sys_inv k -> Thread.off k t -> t <> idle_thread -> prio_range p -> delay = 0 \/ delay = K_FOREVER ->
  let k' := Thread._impl_k_thread_create tf k t p o delay in
  sys_inv k' /\ prio (thr k' t) = p /\ _is_thread_ready k' t = (delay =? 0).
Proof.
  intros Hs Ho Ht Hp Hd k'.
  assert (sys_inv k') as Hs' by (apply Thread.create_sys; [done|done|done|done|naive_solver]).
  destruct (Thread.setup_states k t p o) as (Hr0 & _ & Hst). pose proof (Thread.setup_thr k t p o t) as Ethr.
  rewrite decide_True in Ethr by done. pose proof (Thread.setup_tmo k t p o (TOthread t)) as Etmo. rewrite decide_True in Etmo by done.
  split; [done|]. unfold k', Thread._impl_k_thread_create. cbv zeta. destruct Hd as [-> | ->].
  - cbn [negb Z.eqb K_FOREVER]. unfold Thread.schedule_new_thread. cbn [Z.eqb]. unfold Thread._impl_k_thread_start. rewrite Hst.
    revert Ethr Etmo. generalize (Thread._setup_new_thread k t p o) as k1. intros k1 Ethr Etmo. cbv zeta.
    assert (thr (_mark_thread_as_started k1 t) t = with_state 0 (Thread.new_thread p o (thr k t))) as Hm.
    { rewrite started_thr, decide_True by done. by rewrite Ethr. }
    assert (_is_thread_ready (_mark_thread_as_started k1 t) t = true) as Hr.
    { apply ready_spec. rewrite Hm. split; [done|]. change (tmo (_mark_thread_as_started k1 t)) with (tmo k1). by rewrite Etmo. }
    rewrite Hr. set (k2 := _add_thread_to_ready_q _ t).
    assert (prio (thr k2 t) = p /\ _is_thread_ready k2 t = true) as [Hp2 Hr2].
    { split; [|exact Hr]. change (thr k2 t) with (thr (_mark_thread_as_started k1 t) t). rewrite Hm. cbn. apply s8_small.
      apply prio_range_s8 in Hp. lia. }
    destruct (_must_switch_threads k2); [|done]. rewrite Swap_ready. split; [|done].
    change (thr (_Swap k2) t) with (thr (upd_thread k2 (current k2) (with_retval (- EAGAIN))) t). rewrite thr_upd_thread.
    by destruct (decide _) as [<-|].
  - rewrite Z.eqb_refl. cbn [negb]. split; [|exact Hr0]. rewrite Ethr. cbn. apply s8_small. apply prio_range_s8 in Hp. lia.
Qed.

(** Suspending a ready thread and resuming it makes it ready again, and
    leaves every other thread as it was. *)
Theorem suspend_resume_roundtrip k t :
  sys_inv k -> t <> idle_thread -> _is_thread_ready k t = true ->
  let k' := Thread._impl_k_thread_resume (Thread._impl_k_thread_suspend k t) t in
  sys_inv k' /\ forall u, _is_thread_ready k' u = _is_thread_ready k u.
Proof.
  intros Hs Ht Hr k'. pose proof (Thread.suspend_sys k t Hs Ht) as Hs1.
  destruct (Thread.single_suspend_kinv k t (sy_kinv _ Hs) Ht) as (_ & _ & _ & Hr1 & Hu1).
  assert (forall u, _is_thread_ready (Thread._impl_k_thread_suspend k t) u
    = _is_thread_ready (Thread._k_thread_single_suspend k t) u) as E1.
  { intros u. unfold Thread._impl_k_thread_suspend. cbv zeta. case_bool_decide; [apply Swap_ready|done]. }
  assert (thread_state (thr (Thread._impl_k_thread_suspend k t) t) = u8 (Z.lor (thread_state (thr k t)) (Z.shiftl 1 4)) /\
    tmo (Thread._impl_k_thread_suspend k t) (TOthread t) = tmo k (TOthread t)) as [Est Eto].
  { unfold Thread._impl_k_thread_suspend, Thread._k_thread_single_suspend, _mark_thread_as_suspended, _set_thread_states.
    cbv zeta. rewrite Hr. pose proof (remove_thr k t t) as Er. pose proof (proj2 (remove_timeouts k t)) as Eto.
    revert Er Eto. generalize (_remove_thread_from_ready_q k t) as k1. intros k1 Er Eto. rewrite <- Er.
    assert (tmo k1 (TOthread t) = tmo k (TOthread t)) as <- by (unfold tmo; by rewrite Eto).
    set (k2 := upd_thread k1 t _). case_bool_decide as Ec; (split; [|done]).
    - change (thr (_Swap k2) t) with (thr (upd_thread k2 (current k2) (with_retval (- EAGAIN))) t).
      rewrite <- Ec, thr_upd_same. cbn [thread_state with_retval]. unfold k2. by rewrite thr_upd_same.
    - unfold k2. by rewrite thr_upd_same. }
  pose proof (Thread.resume_sys _ t Hs1 ltac:(by rewrite E1)) as Hs2. fold k' in Hs2. split; [done|].
  revert E1 Est Eto Hs1 Hs2. unfold k', Thread._impl_k_thread_resume, Thread._k_thread_single_resume. cbv zeta. clear k'.
  generalize (Thread._impl_k_thread_suspend k t) as k1. intros k1 E1 Est Eto _ _ u.
  set (k2 := _mark_thread_as_not_suspended k1 t).
  assert (_is_thread_ready k2 u = _is_thread_ready k u) as E2.
  { destruct (decide (u = t)) as [->|Hne].
    - rewrite Hr. apply ready_spec in Hr as [Hpv Hto]. apply ready_spec. split.
      + revert Hpv. unfold k2, _mark_thread_as_not_suspended, _reset_thread_states, prevented. rewrite thr_upd_same.
        change _THREAD_SUSPENDED with (Z.shiftl 1 4). rewrite !st_bit_clear by lia.
        assert (forall n, 0 <= n < 8 -> n <> 4 -> st_bit (thr k1 t) n = st_bit (thr k t) n) as Eb.
        { intros n Hn Hn4. unfold st_bit at 1. rewrite Est.
          change (st_bit (with_state (u8 (Z.lor (thread_state (thr k t)) (Z.shiftl 1 4))) (thr k t)) n = st_bit (thr k t) n).
          rewrite st_bit_set, bool_decide_false by lia. apply orb_false_r. }
        rewrite !Eb by lia. destruct (st_bit (thr k t) 0), (st_bit (thr k t) 1), (st_bit (thr k t) 2), (st_bit (thr k t) 3), (st_bit (thr k t) 4), (st_bit (thr k1 t) 4); done.
      + change (tmo k2) with (tmo k1). by rewrite Eto.
    - rewrite <- (proj2 (Hu1 u Hne)), <- E1. apply ready_ext; [|done].
      unfold k2, _mark_thread_as_not_suspended, _reset_thread_states. by rewrite thr_upd_other. }
  rewrite <- E2. assert (forall k3, _is_thread_ready (_reschedule_threads k3) u = _is_thread_ready k3 u) as Ers.
  { intros k3. unfold _reschedule_threads. destruct (_must_switch_threads k3); [apply Swap_ready|done]. }
  rewrite Ers. by destruct (_is_thread_ready k2 t).
Qed.

(** ** Boot *)

Lemma booted_thr k t (p o : Z) u :
  thr (Thread.booted k t p o) u = if decide (u = t) then with_state 0 (Thread.new_thread p o (thr k t)) else thr k u.
Proof.
  change (thr (Thread.booted k t p o) u) with (thr (_mark_thread_as_started (Thread._setup_new_thread k t p o) t) u).
  rewrite started_thr, !Thread.setup_thr. by repeat case_decide.
Qed.

Lemma booted_cache k t (p o : Z) :
  cache (Thread.booted k t p o) =
  if prio (thr (Thread.booted k t p o) t) <? prio (thr (Thread.booted k t p o) (cache k)) then t else cache k.
Proof. reflexivity. Qed.

(** Main is the thread to run next when the devices are initialised. *)
Lemma boot_main (slice_size slice_prio : Z) (dummy main : tid) (main_prio : Z) :
  main <> idle_thread -> prio_range main_prio ->
  let k := set_timeout_q (Thread.booted (Thread.booted (Thread.boot_state slice_size slice_prio dummy main) main main_prio K_ESSENTIAL)
                          idle_thread K_LOWEST_THREAD_PRIO K_ESSENTIAL) [] in
  cache k = main /\ prio (thr k main) = main_prio.
Proof.
  intros Hne Hp. cbv zeta.
  assert (cache (Thread.boot_state slice_size slice_prio dummy main) = main) as Hc by reflexivity.
  revert Hc. generalize (Thread.boot_state slice_size slice_prio dummy main) as k0. intros k0 Hc.
  pose proof (booted_cache k0 main main_prio K_ESSENTIAL) as C1. rewrite Hc, Z.ltb_irrefl in C1.
  pose proof (booted_thr k0 main main_prio K_ESSENTIAL main) as T1. rewrite decide_True in T1 by done.
  assert (s8 main_prio = main_prio) as Es by (apply s8_small; apply prio_range_s8 in Hp; lia).
  assert (prio (thr (Thread.booted k0 main main_prio K_ESSENTIAL) main) = main_prio) as P1 by (rewrite T1; exact Es).
  revert C1 P1. generalize (Thread.booted k0 main main_prio K_ESSENTIAL) as k1. intros k1 C1 P1.
  pose proof (booted_cache k1 idle_thread K_LOWEST_THREAD_PRIO K_ESSENTIAL) as C2. rewrite C1 in C2.
  rewrite !booted_thr, decide_True, (decide_False (P := main = idle_thread)) in C2 by done.
  change (prio (with_state 0 ?x)) with (prio x) in C2. cbn [prio Thread.new_thread] in C2. rewrite P1 in C2.
  assert (prio (thr (Thread.booted k1 idle_thread K_LOWEST_THREAD_PRIO K_ESSENTIAL) main) = main_prio) as P2.
  { rewrite booted_thr, decide_False by done. exact P1. }
  assert (cache (Thread.booted k1 idle_thread K_LOWEST_THREAD_PRIO K_ESSENTIAL) = main) as Hc2.
  { rewrite C2. destruct (Z.ltb_spec (s8 K_LOWEST_THREAD_PRIO) main_prio) as [Hlt|]; [|done].
    unfold prio_range, K_LOWEST_THREAD_PRIO in *. rewrite s8_small in Hlt by (pose proof preempt_range; lia). lia. }
  revert Hc2 P2. generalize (Thread.booted k1 idle_thread K_LOWEST_THREAD_PRIO K_ESSENTIAL) as k2. intros k2 Hc2 P2.
  split; [exact Hc2|exact P2].
Qed.

(** C30. When the initialisation functions of the devices leave the scheduler
    alone, then at the end of [_Cstart] the main thread runs, at its configured
    priority, and the kernel's invariant holds. *)
Theorem boot_runs_main levels (slice_size slice_prio : Z) (dummy main : tid) (main_prio : Z) :
  Thread.pre_kernel levels -> main <> idle_thread -> prio_range main_prio ->
  let k := Thread._Cstart levels slice_size slice_prio dummy main main_prio in
  sys_inv k /\ current k = main /\ prio (thr k main) = main_prio.
Proof.
  intros Hl Hne Hp k. split; [by apply Thread.boot_sys|]. unfold k. rewrite Thread.Cstart_unfold. clear k.
  destruct (Thread.pre_kernel_spec levels _ Hl (Thread.boot_kinv slice_size slice_prio dummy main main_prio Hne Hp)) as (_ & D1 & D2).
  destruct (boot_main slice_size slice_prio dummy main main_prio Hne Hp) as [E1 E2].
  cbv zeta in D1, D2. rewrite E1 in D1, D2. rewrite E2 in D2. revert D1 D2.
  generalize (Thread._sys_device_do_config_level levels (Thread._sys_device_do_config_level levels
    (set_timeout_q (Thread.booted (Thread.booted (Thread.boot_state slice_size slice_prio dummy main) main main_prio K_ESSENTIAL)
      idle_thread K_LOWEST_THREAD_PRIO K_ESSENTIAL) []) Thread._SYS_INIT_LEVEL_PRE_KERNEL_1) Thread._SYS_INIT_LEVEL_PRE_KERNEL_2) as k2.
  intros k2 D1 D2. split; [exact D1|].
  change (thr (_Swap k2) main) with (thr (upd_thread k2 (current k2) (with_retval (- EAGAIN))) main).
  rewrite thr_upd_thread. by destruct (decide _) as [<-|].
Qed.

End Claims.

(** ** Busy waiting *)

(** [k_busy_wait] returns at the first reading of the cycle counter that is
    at least the requested number of cycles after the start, also when the
    32-bit counter wraps in between. *)
Theorem busy_wait_ends (start cycles : Z) (elapsed : list Z) (last : Z) :
  0 <= cycles < 2 ^ 32 -> Forall (fun e => 0 <= e < cycles) elapsed -> cycles <= last < 2 ^ 32 ->
  Thread.k_busy_wait start cycles ((fun e => u32 (start + e)) <$> (elapsed ++ [last])) = Some (S (length elapsed)).
Proof.
  intros Hc He Hl. assert (forall e, 0 <= e < 2 ^ 32 -> u32 (u32 (start + e) - start) = e) as Hw.
  { intros e Hr. unfold u32. rewrite Zminus_mod_idemp_l. replace (start + e - start) with e by lia. by apply Z.mod_small. }
  induction He as [|e elapsed He _ IH]; cbn [app fmap list_fmap Thread.k_busy_wait length].
  - rewrite Hw by lia. rewrite Z.geb_leb. by destruct (Z.leb_spec cycles last); [|lia].
  - rewrite Hw by lia. rewrite Z.geb_leb. destruct (Z.leb_spec cycles e); [lia|]. by rewrite IH.
Qed.

(** ** The theorems at concrete states *)

Section Witnesses.
Import Demo.
#[local] Existing Instance config.

Lemma abort_ends_thread_witness : 3%positive ∉ queues (Thread._impl_k_thread_abort no_abort k_wait 3) !!! object_wq 7.
Proof.
  apply (abort_ends_thread no_abort k_wait 3 k_wait_sys). vm_compute. congruence.
Defined.

Lemma suspend_stops_thread_witness : current (Thread._impl_k_thread_suspend k_wait 5) <> 5%positive.
Proof.
  destruct (suspend_stops_thread k_wait 5 k_wait_sys) as (_ & _ & H & _); [vm_compute; congruence|exact H].
Defined.

Lemma create_makes_ready_witness : _is_thread_ready (Thread._impl_k_thread_create no_tf k_wait 6 (-1) 0 0) 6 = true.
Proof.
  destruct (create_makes_ready no_tf k_wait 6 (-1) 0 0 k_wait_sys) as (_ & _ & H).
  - off_thread.
  - vm_compute. congruence.
  - apply in_prio_range. lia.
  - by left.
  - exact H.
Defined.

Lemma suspend_resume_roundtrip_witness :
  _is_thread_ready (Thread._impl_k_thread_resume (Thread._impl_k_thread_suspend k_two 4) 4) 4 = _is_thread_ready k_two 4.
Proof.
  apply (suspend_resume_roundtrip k_two 4 k_two_sys); [vm_compute; congruence|vm_compute; reflexivity].
Defined.

Lemma boot_runs_main_witness : current (Thread._Cstart no_devices 0 0 2 3 0) = 3%positive.
Proof.
  apply (boot_runs_main no_devices 0 0 2 3 0); [apply no_devices_init|vm_compute; congruence|apply in_prio_range; lia].
Defined.

(** The counter wraps between the second and the third reading. *)
Lemma busy_wait_ends_witness : Thread.k_busy_wait (2 ^ 32 - 5) 8 [2 ^ 32 - 4; 2 ^ 32 - 1; 3] = Some 3%nat.
Proof.
  refine (busy_wait_ends (2 ^ 32 - 5) 8 [1; 4] 8 _ _ _); [lia|repeat constructor; lia|lia].
Defined.

End Witnesses.
End Lifecycle.
