(* ===== verification/Atomic.v ===== *)
(** * Atomic operations (kernel/atomic_c.c, include/atomic.h)

    Every operation is one critical section: it yields the new value of the
    target and the return value.  The operations on bits work on an array of
    32-bit words; they are shown to be those of an array of bits. *)

From S2P Require Import Prelude DList ListStore Kernel Ksched ReadyQ.

Local Open Scope Z_scope.

Module Atomic.

Implicit Types (target value bit : Z) (a : list Z).

Definition atomic_cas target (old_value new_value : Z) : Z * Z :=
  if target =? old_value then (new_value, 1) else (target, 0).
Definition atomic_add target value : Z * Z := (s32 (target + value), target).
Definition atomic_sub target value : Z * Z := (s32 (target - value), target).
Definition atomic_inc target : Z * Z := (s32 (target + 1), target).
Definition atomic_dec target : Z * Z := (s32 (target - 1), target).
Definition atomic_get target : Z := target.
Definition atomic_set target value : Z * Z := (value, target).
Definition atomic_clear target : Z * Z := (0, target).
Definition atomic_or target value : Z * Z := (Z.lor target value, target).
Definition atomic_xor target value : Z * Z := (Z.lxor target value, target).
Definition atomic_and target value : Z * Z := (Z.land target value, target).
Definition atomic_nand target value : Z * Z := (Z.lnot (Z.land target value), target).

(** ** Bits of an array *)

Definition ATOMIC_BITS : Z := 32.
Definition ATOMIC_MASK bit : Z := s32 (Z.shiftl 1 (Z.land bit (ATOMIC_BITS - 1))).

(** the index of [ATOMIC_ELEM] *)
Definition ATOMIC_ELEM bit : nat := Z.to_nat (bit / ATOMIC_BITS).

Definition atomic_test_bit a bit : Z :=
  let val := atomic_get (a !!! ATOMIC_ELEM bit) in
  Z.land 1 (Z.shiftr val (Z.land bit (ATOMIC_BITS - 1))).

Definition atomic_test_and_clear_bit a bit : list Z * bool :=
  let mask := ATOMIC_MASK bit in
  let '(new, old) := atomic_and (a !!! ATOMIC_ELEM bit) (Z.lnot mask) in
  (<[ATOMIC_ELEM bit := new]> a, negb (Z.land old mask =? 0)).

Definition atomic_test_and_set_bit a bit : list Z * bool :=
  let mask := ATOMIC_MASK bit in
  let '(new, old) := atomic_or (a !!! ATOMIC_ELEM bit) mask in
  (<[ATOMIC_ELEM bit := new]> a, negb (Z.land old mask =? 0)).

Definition atomic_clear_bit a bit : list Z :=
  let mask := ATOMIC_MASK bit in
  <[ATOMIC_ELEM bit := fst (atomic_and (a !!! ATOMIC_ELEM bit) (Z.lnot mask))]> a.

Definition atomic_set_bit a bit : list Z :=
  let mask := ATOMIC_MASK bit in
  <[ATOMIC_ELEM bit := fst (atomic_or (a !!! ATOMIC_ELEM bit) mask)]> a.

(** ** The array of bits *)

Definition is_s32 (x : Z) : Prop := - 2 ^ 31 <= x < 2 ^ 31.

Lemma s32_sign (x j : Z) : is_s32 x -> 31 <= j -> Z.testbit x j = Z.testbit x 31.
Proof.
  intros Hx Hj. destruct (decide (0 <= x)).
  - rewrite !(testbit_above x 31) by (unfold is_s32 in Hx; lia). done.
  - assert (forall i, 31 <= i -> Z.testbit x i = true) as Ht; [|by rewrite !Ht by lia].
    intros i Hi. apply negb_false_iff. rewrite <- Z.lnot_spec by lia.
    apply (testbit_above _ 31); [lia|unfold is_s32, Z.lnot in *; lia|done].
Qed.

Lemma sign_s32 (x : Z) : (forall j, 31 <= j -> Z.testbit x j = Z.testbit x 31) -> is_s32 x.
Proof.
  assert (forall y, (forall j, 31 <= j -> Z.testbit y j = false) -> 0 <= y < 2 ^ 31) as Hpos.
  { intros y Hy. assert (y = y mod 2 ^ 31) as ->; [|apply Z.mod_pos_bound; lia]. apply Z.bits_inj'. intros j Hj.
    destruct (decide (j < 31)); [by rewrite Z.mod_pow2_bits_low by lia|]. by rewrite Z.mod_pow2_bits_high, Hy by lia. }
  intros Hs. destruct (Z.testbit x 31) eqn:E.
  - assert (0 <= Z.lnot x < 2 ^ 31); [|unfold is_s32, Z.lnot in *; lia]. apply Hpos. intros j Hj. by rewrite Z.lnot_spec, Hs by lia.
  - pose proof (Hpos x Hs). unfold is_s32. lia.
Qed.

(** A 32-bit integer is determined by its 32 bits. *)
Lemma s32_ext (x y : Z) : is_s32 x -> is_s32 y -> (forall j, 0 <= j < 32 -> Z.testbit x j = Z.testbit y j) -> x = y.
Proof.
  intros Hx Hy Hb. apply Z.bits_inj'. intros j Hj. destruct (decide (j < 32)); [apply Hb; lia|].
  rewrite (s32_sign x j), (s32_sign y j) by (done || lia). apply Hb. lia.
Qed.

Definition abit a (n : Z) : bool := Z.testbit (a !!! ATOMIC_ELEM n) (n mod 32).
Definition in_array a (n : Z) : Prop := 0 <= n < 32 * Z.of_nat (length a).
Definition words_s32 a : Prop := Forall is_s32 a.

Lemma lor_s32 (x y : Z) : is_s32 x -> is_s32 y -> is_s32 (Z.lor x y).
Proof. intros Hx Hy. apply sign_s32. intros j Hj. by rewrite !Z.lor_spec, (s32_sign x j), (s32_sign y j). Qed.

Lemma land_s32 (x y : Z) : is_s32 x -> is_s32 y -> is_s32 (Z.land x y).
Proof. intros Hx Hy. apply sign_s32. intros j Hj. by rewrite !Z.land_spec, (s32_sign x j), (s32_sign y j). Qed.

Lemma lnot_s32 (x : Z) : is_s32 x -> is_s32 (Z.lnot x).
Proof. unfold is_s32, Z.lnot. lia. Qed.

Lemma mask_s32 bit : is_s32 (ATOMIC_MASK bit).
Proof. unfold is_s32, ATOMIC_MASK, s32. pose proof (Z.mod_pos_bound (Z.shiftl 1 (Z.land bit (ATOMIC_BITS - 1)) + 2 ^ 31) (2 ^ 32) ltac:(lia)). lia. Qed.

Lemma mask_bits bit (j : Z) : 0 <= j < 32 -> Z.testbit (ATOMIC_MASK bit) j = bool_decide (j = bit mod 32).
Proof.
  intros Hj. unfold ATOMIC_MASK. change (ATOMIC_BITS - 1) with 0x1f. rewrite land_1f, testbit_s32 by lia.
  apply testbit_shl1. pose proof (Z.mod_pos_bound bit 32 ltac:(lia)). lia.
Qed.

(** The test of the mask is the test of the bit. *)
Lemma land_mask (x : Z) bit : is_s32 x -> negb (Z.land x (ATOMIC_MASK bit) =? 0) = Z.testbit x (bit mod 32).
Proof.
  intros Hx. pose proof (Z.mod_pos_bound bit 32 ltac:(lia)) as Hb. destruct (Z.testbit x (bit mod 32)) eqn:E.
  - apply negb_true_iff, Z.eqb_neq. intros E0. apply (f_equal (fun y => Z.testbit y (bit mod 32))) in E0.
    by rewrite Z.land_spec, E, mask_bits, bool_decide_true, Z.bits_0 in E0 by done.
  - apply negb_false_iff, Z.eqb_eq. apply s32_ext; [by apply land_s32, mask_s32|done|].
    intros j Hj. rewrite Z.land_spec, Z.bits_0, mask_bits by done. case_bool_decide as Ej; [by rewrite Ej, E|apply andb_false_r].
Qed.

Lemma elem_in a (n : Z) : in_array a n -> (ATOMIC_ELEM n < length a)%nat.
Proof.
  intros Hn. unfold ATOMIC_ELEM, in_array, ATOMIC_BITS in *. apply Nat2Z.inj_lt. rewrite Z2Nat.id by (apply Z.div_pos; lia).
  apply Z.div_lt_upper_bound; lia.
Qed.

Lemma elem_s32 a (n : Z) : words_s32 a -> in_array a n -> is_s32 (a !!! ATOMIC_ELEM n).
Proof. intros Hw Hn. apply (Forall_lookup_total_1 _ _ _ Hw), elem_in, Hn. Qed.

(** Storing a word that differs from the old one in one bit only. *)
Lemma abit_store a bit (w : Z) (v : bool) (n : Z) :
  in_array a bit -> in_array a n ->
  (forall j, 0 <= j < 32 -> Z.testbit w j = if decide (j = bit mod 32) then v else Z.testbit (a !!! ATOMIC_ELEM bit) j) ->
  abit (<[ATOMIC_ELEM bit := w]> a) n = if decide (n = bit) then v else abit a n.
Proof.
  intros Hb Hn Hw. pose proof (Z.mod_pos_bound n 32 ltac:(lia)). pose proof (Z.div_mod n 32 ltac:(lia)). pose proof (Z.div_mod bit 32 ltac:(lia)).
  unfold abit. destruct (decide (n / 32 = bit / 32)) as [E|E].
  - assert (ATOMIC_ELEM n = ATOMIC_ELEM bit) as En by (unfold ATOMIC_ELEM, ATOMIC_BITS; by rewrite E).
    rewrite En, list_lookup_total_insert_eq, Hw by (done || by apply elem_in). destruct (decide (n = bit)) as [->|].
    + by rewrite decide_True.
    + by rewrite decide_False by lia.
  - rewrite list_lookup_total_insert_ne; [by rewrite decide_False by congruence|]. unfold ATOMIC_ELEM, ATOMIC_BITS. unfold in_array in *.
    intros E'. apply E. apply Z2Nat.inj in E'; [done|apply Z.div_pos; lia..].
Qed.

Lemma store_wf a (i : nat) (w : Z) : words_s32 a -> is_s32 w -> words_s32 (<[i := w]> a).
Proof. intros. by apply Forall_insert. Qed.

Lemma test_and_set_spec a bit :
  words_s32 a -> in_array a bit ->
  let '(a', r) := atomic_test_and_set_bit a bit in
  r = abit a bit /\ words_s32 a' /\ length a' = length a /\ a' = atomic_set_bit a bit /\
  forall n, in_array a n -> abit a' n = if decide (n = bit) then true else abit a n.
Proof.
  intros Hw Hb. pose proof (elem_s32 a bit Hw Hb) as He. unfold atomic_test_and_set_bit, atomic_or.
  split; [by apply land_mask|]. split; [by apply store_wf, lor_s32, mask_s32|]. split; [apply length_insert|]. split; [done|].
  intros n Hn. apply abit_store; [done|done|]. intros j Hj. rewrite Z.lor_spec, mask_bits by done.
  destruct (decide (j = bit mod 32)); [rewrite bool_decide_true by done; apply orb_true_r|rewrite bool_decide_false by done; apply orb_false_r].
Qed.

Lemma test_and_clear_spec a bit :
  words_s32 a -> in_array a bit ->
  let '(a', r) := atomic_test_and_clear_bit a bit in
  r = abit a bit /\ words_s32 a' /\ length a' = length a /\ a' = atomic_clear_bit a bit /\
  forall n, in_array a n -> abit a' n = if decide (n = bit) then false else abit a n.
Proof.
  intros Hw Hb. pose proof (elem_s32 a bit Hw Hb) as He. unfold atomic_test_and_clear_bit, atomic_and.
  split; [by apply land_mask|]. split; [by apply store_wf, land_s32, lnot_s32, mask_s32|]. split; [apply length_insert|]. split; [done|].
  intros n Hn. apply abit_store; [done|done|]. intros j Hj. rewrite Z.land_spec, Z.lnot_spec, mask_bits by lia.
  destruct (decide (j = bit mod 32)); [rewrite bool_decide_true by done; apply andb_false_r|rewrite bool_decide_false by done; apply andb_true_r].
Qed.

Lemma test_bit_spec a bit : in_array a bit -> atomic_test_bit a bit = Z.b2z (abit a bit).
Proof.
  intros Hb. unfold atomic_test_bit, atomic_get, abit. cbv zeta. change (ATOMIC_BITS - 1) with 0x1f. rewrite land_1f.
  pose proof (Z.mod_pos_bound bit 32 ltac:(lia)). rewrite Z.land_comm. change 1 with (Z.ones 1). rewrite Z.land_ones by lia.
  change (2 ^ 1) with 2. rewrite <- Z.bit0_mod, Z.shiftr_spec by lia. done.
Qed.

(** The operations on bits are those of an array of bits: each returns the old
    value of its bit, changes that bit only, and keeps the words in range. *)
Theorem atomic_bits_spec a bit :
  words_s32 a -> in_array a bit ->
  atomic_test_bit a bit = Z.b2z (abit a bit) /\
  (let '(a', r) := atomic_test_and_set_bit a bit in
   r = abit a bit /\ words_s32 a' /\ a' = atomic_set_bit a bit /\
   forall n, in_array a n -> abit a' n = if decide (n = bit) then true else abit a n) /\
  (let '(a', r) := atomic_test_and_clear_bit a bit in
   r = abit a bit /\ words_s32 a' /\ a' = atomic_clear_bit a bit /\
   forall n, in_array a n -> abit a' n = if decide (n = bit) then false else abit a n).
Proof.
  intros Hw Hb. pose proof (test_and_set_spec a bit Hw Hb) as H1. pose proof (test_and_clear_spec a bit Hw Hb) as H2.
  split; [by apply test_bit_spec|]. destruct (atomic_test_and_set_bit a bit), (atomic_test_and_clear_bit a bit). tauto.
Qed.

End Atomic.
