(* ===== verification/Timer.v ===== *)
(** * Timers (kernel/timer.c)

    A timer [m] has its timeout [TOtimer m] on the timeout queue and its wait
    queue [timer_wq m]; its other fields are in [timers k].  The functions the
    application attaches to a timer are parameters. *)

From S2P Require Import Prelude DList ListStore Kernel Ksched ReadyQ TimeoutQ KInv Sched Types Thread Demo.

Local Open Scope Z_scope.

Module Timer.

Section Timer.
Context `{KConfig}.
Implicit Types (k : kernel) (m : positive).

(** [timer->expiry_fn(timer)] and [timer->stop_fn(timer)] *)
Variable expiry_call stop_call : positive -> positive -> kernel -> kernel.

Definition tm k m : k_timer := timers k !!! m.

Definition upd_timer k m (f : k_timer -> k_timer) : kernel :=
  set_timers k (<[m := f (tm k m)]> (timers k)).

Definition with_status (s : Z) (x : k_timer) : k_timer :=
  mk_timer (expiry_fn x) (stop_fn x) (period x) s (user_data x).

(** [period] is an [s32_t]. *)
Definition timer_period k m : Z := s32 (period (tm k m)).

(** the address of [_timer_expiration_handler] *)
Definition timer_handler : positive := 1%positive.

(** [tf] is what [_add_timeout] may call at once, which it never does here:
    the period is positive. *)
Definition _timer_expiration_handler (tf : positive -> toid -> kernel -> kernel) k m : kernel :=
  let k := if timer_period k m >? 0
           then _add_timeout tf k None (TOtimer m) (Some (timer_wq m)) (timer_period k m) else k in
  let k := upd_timer k m (fun x => with_status (u32 (status x + 1)) x) in
  let k := match expiry_fn (tm k m) with
           | Some f => expiry_call f m k
           | None => k
           end in
  match Lst.peek_head (queues k) (timer_wq m) with
  | None => k
  | Some t =>
      let k := _unpend_thread k t in
      let k := _ready_thread k t in
      _set_thread_return_value k t 0
  end.

(** What the timeouts of the kernel call: the handler of timers. *)
Definition no_func : positive -> toid -> kernel -> kernel := fun _ _ k => k.

Definition timer_func : positive -> toid -> kernel -> kernel := fun f o k =>
  match o with
  | TOtimer m => if bool_decide (f = timer_handler) then _timer_expiration_handler no_func k m else k
  | TOthread _ => k
  end.

Definition k_timer_init k m (expiry_fn stop_fn : option positive) : kernel :=
  let k := set_timers k (<[m := mk_timer expiry_fn stop_fn (period (tm k m)) 0 0]> (timers k)) in
  let k := set_queues k (Lst.init (queues k) (timer_wq m)) in
  _init_timeout k (TOtimer m) (Some timer_handler).

Definition _impl_k_timer_start k m (duration period : Z) : kernel :=
  let period_in_ticks := _ms_to_ticks period in
  let duration_in_ticks := _ms_to_ticks duration in
  let k := if negb (delta_ticks_from_prev (tmo k (TOtimer m)) =? _INACTIVE)
           then fst (_abort_timeout k (TOtimer m)) else k in
  let k := upd_timer k m (fun x => mk_timer (expiry_fn x) (stop_fn x) period_in_ticks 0 (user_data x)) in
  _add_timeout timer_func k None (TOtimer m) (Some (timer_wq m)) duration_in_ticks.

Definition _impl_k_timer_stop k m : kernel :=
  let '(k, r) := _abort_timeout k (TOtimer m) in
  if r =? _INACTIVE then k
  else
    let k := match stop_fn (tm k m) with
             | Some f => stop_call f m k
             | None => k
             end in
    let '(k, pending_thread) := _unpend_first_thread k (timer_wq m) in
    let k := match pending_thread with
             | Some t => _ready_thread k t
             | None => k
             end in
    if _is_in_isr k then k else _reschedule_threads k.

Definition _impl_k_timer_status_get k m : kernel * Z :=
  let result := status (tm k m) in
  (upd_timer k m (with_status 0), result).

(** The call up to the switch, if it waits; [k_timer_status_sync_resume] is
    the rest of the call when the thread runs again. *)
Definition _impl_k_timer_status_sync k m : kernel * option Z :=
  let result := status (tm k m) in
  if (result =? 0) && negb (delta_ticks_from_prev (tmo k (TOtimer m)) =? _INACTIVE) then
    (_Swap (_pend_current_thread timer_func k (timer_wq m) K_FOREVER), None)
  else (upd_timer k m (with_status 0), Some result).

Definition k_timer_status_sync_resume k m : kernel * Z :=
  let result := status (tm k m) in
  (upd_timer k m (with_status 0), result).

(** The sum of the deltas up to the timeout. *)
Fixpoint remaining_ticks k (o : toid) (l : list toid) : Z :=
  match l with
  | [] => 0
  | t :: l => if decide (t = o) then delta_ticks_from_prev (tmo k t)
              else delta_ticks_from_prev (tmo k t) + remaining_ticks k o l
  end.

Definition _timeout_remaining_get k (o : toid) : Z :=
  let remaining_ticks := if delta_ticks_from_prev (tmo k o) =? _INACTIVE then 0
                         else s32 (remaining_ticks k o (timeout_q k)) in
  s32 (__ticks_to_ms remaining_ticks).

Definition _impl_k_timer_user_data_set k m (data : Z) : kernel :=
  upd_timer k m (fun x => mk_timer (expiry_fn x) (stop_fn x) (period x) (status x) data).
Definition _impl_k_timer_user_data_get k m : Z := user_data (tm k m).

End Timer.

(** ** What the application's functions must do *)

Class KernelCallback `{KConfig} (cb : positive -> positive -> kernel -> kernel) : Prop := {
  cb_kinv : forall f m k E, kinv None E k -> E = [] \/ handling_timeouts k = true -> kinv None E (cb f m k);
  cb_keeps : forall f m k E, kinv None E k -> E = [] \/ handling_timeouts k = true -> keeps k (cb f m k);
  cb_typed : forall f m k, typed k -> typed (cb f m k)
}.

Section Proofs.
Context `{KConfig} (expiry_call stop_call : positive -> positive -> kernel -> kernel).
Context {Hex : KernelCallback expiry_call} {Hst : KernelCallback stop_call}.
Implicit Types (k : kernel) (m : positive) (E : list toid).

(** The knot: since a period is positive, the handler never calls itself
    through [_add_timeout]. *)
Lemma handler_func_irrelevant tf tf' k m :
  _timer_expiration_handler expiry_call tf k m = _timer_expiration_handler expiry_call tf' k m.
Proof.
  unfold _timer_expiration_handler. destruct (timer_period k m >? 0) eqn:Ep; [|done].
  unfold _add_timeout. destruct (Z.eqb_spec (timer_period k m) 0); [|done].
  apply Z.gtb_lt in Ep. lia.
Qed.

(** A thread on a timer's wait queue leaves it. *)
Lemma timer_wake E k m t :
  kinv None E k -> t ∈ queues k !!! timer_wq m ->
  kinv None E (_ready_thread (_unpend_thread k t) t) /\ keeps k (_ready_thread (_unpend_thread k t) t).
Proof.
  intros Hi Ht. assert (_is_thread_pending k t = true) as Hp.
  { by apply (ri_wq _ _ (si_rq _ _ (ki_sched _ _ _ Hi))) in Ht as [_ ?]. }
  split.
  - apply kinv_ready_thread; [by apply kinv_unpend|apply unpend_not_pending|].
    intros Hx. by apply (ki_untimed _ _ _ Hi m t) in Ht.
  - split; [by rewrite current_ready_thread|]. split; [by rewrite nested_ready_thread|].
    split; [by rewrite handling_ready_thread|]. intros Hc.
    assert (current k <> t) as Hne by (intros E0; rewrite E0, pending_not_ready in Hc; done).
    by rewrite ready_thread_ready, unpend_ready.
Qed.

Lemma peek_head_elem k (q : qid) t : Lst.peek_head (queues k) q = Some t -> t ∈ queues k !!! q.
Proof. unfold Lst.peek_head. destruct (queues k !!! q); intros; simplify_eq/=. left. Qed.

Lemma handler_kinv tf k m E :
  kinv None E k -> TOtimer m ∉ timeout_q k ++ E -> E = [] \/ handling_timeouts k = true ->
  kinv None E (_timer_expiration_handler expiry_call tf k m) /\
  keeps k (_timer_expiration_handler expiry_call tf k m).
Proof.
  intros Hi Hm HE. unfold _timer_expiration_handler. cbv zeta.
  set (k1 := if timer_period k m >? 0 then _ else _).
  assert (kinv None E k1 /\ keeps k k1) as [H1 K1].
  { unfold k1. destruct (timer_period k m >? 0) eqn:Ep; [|by split].
    apply Z.gtb_lt in Ep. pose proof (s32_range (period (tm k m))) as Hp. fold (timer_period k m) in Hp.
    destruct (kinv_add_timeout None E k (TOtimer m) None (Some (timer_wq m)) (timer_period k m) tf)
      as (Ha & _ & Hf & _ & _); [done|done|lia|done|].
    split; [done|]. split; [by rewrite Hf|]. split; [by rewrite Hf|]. split; [by rewrite Hf|].
    by rewrite (ready_tq_frame _ _ _ _ _ Hi Ha Hf). }
  set (k2 := upd_timer k1 m _).
  assert (kinv None E k2) as H2 by (by apply (kinv_same _ _ k1)).
  assert (keeps k k2) as K2 by exact K1.
  set (k3 := match expiry_fn (tm k2 m) with Some f => expiry_call f m k2 | None => k2 end).
  assert (kinv None E k3 /\ keeps k k3) as [H3 K3].
  { assert (E = [] \/ handling_timeouts k2 = true) as HE2 by (destruct K2 as (_ & _ & -> & _); done).
    unfold k3. destruct (expiry_fn (tm k2 m)); [|done].
    split; [by apply cb_kinv|]. eapply keeps_trans; [exact K2|]. by apply (cb_keeps _ _ _ E). }
  destruct (Lst.peek_head (queues k3) (timer_wq m)) as [t|] eqn:Ht; [|done].
  apply peek_head_elem in Ht. destruct (timer_wake E k3 m t H3 Ht) as [H4 K4].
  split; [by apply kinv_upd_other|]. eapply keeps_trans; [exact K3|]. eapply keeps_trans; [exact K4|].
  split; [done|]. split; [done|]. split; [done|]. intros Hc. etransitivity; [|exact Hc]. apply ready_ext; [|done].
  unfold _set_thread_return_value. rewrite thr_upd_thread. destruct (decide _) as [E0|]; [by rewrite E0|done].
Qed.

#[export] Instance timer_func_handler : TimeoutHandler (timer_func expiry_call).
Proof.
  split; intros f m k E Hi Hm HE; unfold timer_func; case_bool_decide; try done; apply (handler_kinv no_func k m E Hi Hm HE).
Qed.

(** ** The services *)

(** [_add_timeout] of no tick: the handler runs at once. *)
Lemma kinv_add_timeout_now E k m :
  kinv None E k -> TOtimer m ∉ timeout_q k ++ E -> E = [] \/ handling_timeouts k = true ->
  let k' := _add_timeout (timer_func expiry_call) k None (TOtimer m) (Some (timer_wq m)) 0 in
  kinv None E k' /\ keeps k k'.
Proof.
  intros Hi Hm HE k'. unfold k', _add_timeout. cbn [Z.eqb]. unfold _handle_one_expired_timeout. cbv zeta.
  set (k1 := upd_timeout k _ _). set (k2 := upd_timeout k1 _ _).
  assert (to_thread (tmo k1 (TOtimer m)) = None) as -> by (unfold k1; by rewrite tmo_upd_timeout, decide_True).
  assert (kinv None E k2) as H2.
  { apply (kinv_off_timeout None E k k2 (TOtimer m)); [|done| | |done|done].
    - eapply tq_frame_trans; apply tq_frame_upd.
    - intros x Hx. unfold k2, k1. by rewrite !tmo_upd_timeout, !decide_False.
    - unfold k2. by rewrite dl_upd, decide_True. }
  assert (keeps k k2) as K2.
  { split; [done|]. split; [done|]. split; [done|]. intros Hc. etransitivity; [|exact Hc].
    unfold k2, k1. by rewrite !upd_timeout_ready. }
  destruct (func (tmo k2 (TOtimer m))); [|done].
  split; [by apply th_kinv|]. eapply keeps_trans; [exact K2|]. by apply (th_keeps _ _ _ E).
Qed.

Lemma ms_to_ticks_nonneg (ms : Z) : 0 <= ms < 2 ^ 31 -> 0 <= _ms_to_ticks ms < 2 ^ 31.
Proof.
  intros Hms. unfold _ms_to_ticks. pose proof ms_per_tick_range as Hp.
  rewrite (u32_small ms), u32_small by lia.
  assert (0 <= (ms + (ms_per_tick - 1)) / ms_per_tick <= ms) as Hq.
  { split; [apply Z.div_pos; lia|]. destruct (decide (ms = 0)) as [->|].
    - rewrite Z.div_small by lia. done.
    - apply Z.div_le_upper_bound; nia. }
  rewrite s32_small; lia.
Qed.

(** Before the new timeout is added the old one is off the queue. *)
Lemma rearm_spec k m f :
  kinv None [] k ->
  let k' := upd_timer (if negb (delta_ticks_from_prev (tmo k (TOtimer m)) =? _INACTIVE)
                       then fst (_abort_timeout k (TOtimer m)) else k) m f in
  kinv None [] k' /\ TOtimer m ∉ timeout_q k' ++ [] /\ queues k' = queues k /\ threads k' = threads k /\
  current k' = current k /\ nested k' = nested k /\ handling_timeouts k' = handling_timeouts k /\
  expiry_list k' = filter (fun e => e.1 <> TOtimer m) (expiry_list k).
Proof.
  intros Hi k'. unfold k'. destruct (Z.eqb_spec (delta_ticks_from_prev (tmo k (TOtimer m))) _INACTIVE) as [E0|E0]; cbn [negb].
  - assert (TOtimer m ∉ timeout_q k ++ []) as Hx.
    { intros Hx. by apply (tq_active _ _ _ _ (ki_tq _ _ _ Hi)) in Hx. }
    split; [by apply (kinv_same _ _ k)|]. split; [exact Hx|]. rewrite app_nil_r in Hx. rewrite expiries_off by done. done.
  - assert (TOtimer m ∉ (@nil toid)) as Hn by apply not_elem_of_nil.
    assert (kinv None [] (fst (_abort_timeout k (TOtimer m)))) as Ha by (by apply kinv_abort).
    pose proof (abort_off None [] k (TOtimer m) (ki_tq _ _ _ Hi) Hn) as Ho.
    pose proof (abort_expiries None k (TOtimer m) (ki_tq _ _ _ Hi)) as Hx.
    pose proof (abort_frame k (TOtimer m)) as Hf. revert Ha Ho Hf Hx. generalize (fst (_abort_timeout k (TOtimer m))) as k1.
    intros k1 Ha Ho Hf Hx. split; [by apply (kinv_same _ _ k1)|]. split; [exact Ho|].
    change (expiry_list (upd_timer k1 m f)) with (expiry_list k1). rewrite Hx.
    unfold upd_timer. cbn [queues threads current nested handling_timeouts set_timers]. by rewrite Hf.
Qed.

Lemma same_ready k k' u :
  kinv None [] k -> kinv None [] k' -> queues k' = queues k -> _is_thread_ready k' u = _is_thread_ready k u.
Proof. intros H1 H2 Hq. eapply ready_same; [apply H1|apply H2|done|done]. Qed.

(** Starting a timer, at thread or interrupt level.  At thread level a timer
    that expires at once may wake a thread, and the caller is not switched. *)
Lemma timer_start_kinv k m (duration p : Z) :
  kinv None [] k -> 0 <= duration < 2 ^ 31 ->
  let k' := _impl_k_timer_start expiry_call k m duration p in kinv None [] k' /\ keeps k k'.
Proof.
  intros Hi Hd k'. unfold k', _impl_k_timer_start. cbv zeta.
  destruct (rearm_spec k m (fun x => mk_timer (expiry_fn x) (stop_fn x) (_ms_to_ticks p) 0 (user_data x)) Hi)
    as (H2 & O2 & Eq & _ & Ec & En & Eh & _). set (k2 := upd_timer _ m _) in *.
  assert (keeps k k2) as K2.
  { split; [done|]. split; [done|]. split; [done|]. by rewrite (same_ready k k2). }
  pose proof (ms_to_ticks_nonneg duration Hd) as Ht.
  destruct (decide (_ms_to_ticks duration = 0)) as [->|Hne].
  - destruct (kinv_add_timeout_now [] k2 m H2 O2 (or_introl eq_refl)) as [H3 K3].
    split; [exact H3|]. eapply keeps_trans; [exact K2|exact K3].
  - destruct (kinv_add_timeout None [] k2 (TOtimer m) None (Some (timer_wq m)) (_ms_to_ticks duration) (timer_func expiry_call))
      as (H3 & _ & Hf & _ & _); [done|done|lia|done|].
    split; [exact H3|]. eapply keeps_trans; [exact K2|].
    split; [by rewrite Hf|]. split; [by rewrite Hf|]. split; [by rewrite Hf|].
    by rewrite (ready_tq_frame _ _ _ _ _ H2 H3 Hf).
Qed.

(** A timer started for the future makes no thread ready. *)
Lemma timer_start_sys k m (duration p : Z) :
  sys_inv k -> 0 <= duration < 2 ^ 31 -> nested k <> 0 \/ _ms_to_ticks duration <> 0 ->
  sys_inv (_impl_k_timer_start expiry_call k m duration p).
Proof.
  intros Hs Hd Hor. destruct (timer_start_kinv k m duration p (sy_kinv _ Hs) Hd) as [H3 (Ec & En & _ & Er)].
  destruct Hor as [Hn|Hne].
  { split; [done|rewrite Ec; apply Er, Hs|congruence]. }
  pose proof (ms_to_ticks_nonneg duration Hd) as Ht. unfold _impl_k_timer_start in *. cbv zeta in *.
  destruct (rearm_spec k m (fun x => mk_timer (expiry_fn x) (stop_fn x) (_ms_to_ticks p) 0 (user_data x)) (sy_kinv _ Hs))
    as (H2 & O2 & Eq & Et & _). set (k2 := upd_timer _ m _) in *.
  destruct (kinv_add_timeout None [] k2 (TOtimer m) None (Some (timer_wq m)) (_ms_to_ticks duration) (timer_func expiry_call))
    as (_ & _ & Hf & _ & _); [done|done|lia|done|].
  revert H3 Ec En Er Hf. generalize (_add_timeout (timer_func expiry_call) k2 None (TOtimer m) (Some (timer_wq m)) (_ms_to_ticks duration)) as k3.
  intros k3 H3 Ec En Er Hf. assert (queues k3 = queues k) as Hq by (by rewrite Hf).
  assert (forall u, thr k3 u = thr k u) as Hthr by (intros u; unfold thr; rewrite Hf; by rewrite <- Et).
  apply (sys_shrink k); [done|done|done|done|apply Hthr|apply Er, Hs|].
  intros u Hu. rewrite Hthr. split; [|done]. by rewrite <- (same_ready k k3 u (sy_kinv _ Hs) H3 Hq).
Qed.

Lemma timer_stop_sys k m : sys_inv k -> sys_inv (_impl_k_timer_stop stop_call k m).
Proof.
  intros Hs. pose proof (sy_kinv _ Hs) as Hi. unfold _impl_k_timer_stop.
  destruct (_abort_timeout k (TOtimer m)) as [k1 r] eqn:Ea.
  assert (k1 = fst (_abort_timeout k (TOtimer m))) as Ek by (by rewrite Ea).
  destruct (Z.eqb_spec r _INACTIVE) as [->|Hr].
  { by apply abort_inactive_same in Ea as ->. }
  assert (TOtimer m ∉ (@nil toid)) as Hn by apply not_elem_of_nil.
  assert (kinv None [] k1 /\ keeps k k1) as [H1 K1].
  { rewrite Ek. split; [by apply kinv_abort|].
    split; [apply current_abort|]. split; [apply nested_abort|]. split; [by rewrite (abort_frame k (TOtimer m))|].
    by rewrite (abort_ready None []). }
  set (k2 := match stop_fn (tm k1 m) with Some f => stop_call f m k1 | None => k1 end).
  assert (kinv None [] k2 /\ keeps k k2) as [H2 K2].
  { unfold k2. destruct (stop_fn (tm k1 m)) as [f|]; [|done].
    split; [apply cb_kinv; auto|]. eapply keeps_trans; [exact K1|]. apply (cb_keeps _ _ _ []); auto. }
  unfold _unpend_first_thread. destruct (_find_first_thread_to_unpend k2 (timer_wq m) None) as [t|] eqn:Ef.
  - apply find_first_spec in Ef as [Ht _]. destruct (timer_wake [] k2 m t H2 Ht) as [H3 K3].
    apply (service_end k); [done|done|]. eapply keeps_trans; done.
  - by apply (service_end k).
Qed.

Lemma timer_status_sync_sys k m :
  sys_inv k -> current k <> idle_thread -> sys_inv (fst (_impl_k_timer_status_sync expiry_call k m)).
Proof.
  intros Hs Hc. unfold _impl_k_timer_status_sync. destruct (_ && _).
  - apply pend_current_sys; [done|done|by left].
  - destruct Hs as [H1 H2 H3]. split; [by apply (kinv_same _ _ k)|done|done].
Qed.

(** ** Remaining time *)

Lemma remaining_sum k o (l : list toid) acc :
  o ∈ l -> (o, acc + remaining_ticks k o l) ∈ expiries (dl k) acc l.
Proof.
  revert acc. induction l as [|a l IH]; intros acc Ho; [by apply not_elem_of_nil in Ho|]. simpl.
  case_decide as Ea.
  - subst. left.
  - right. rewrite Z.add_assoc. apply IH. apply elem_of_cons in Ho as [->|]; done.
Qed.

(** ** Main theorems *)

(** [k_timer_start] cancels a running period and queues the timer for the
    duration in ticks; the other timeouts keep their expiry times, the status
    is reset and the new period is recorded. *)
Theorem timer_start_schedules k m (duration p : Z) :
  kinv None [] k -> 0 < _ms_to_ticks duration < 2 ^ 31 ->
  let k' := _impl_k_timer_start expiry_call k m duration p in
  expiry_list k' = tq_insert (TOtimer m) (_ms_to_ticks duration) (filter (fun e => e.1 <> TOtimer m) (expiry_list k)) /\
  status (tm k' m) = 0 /\ period (tm k' m) = _ms_to_ticks p.
Proof.
  intros Hi Ht k'. unfold k', _impl_k_timer_start. cbv zeta.
  destruct (rearm_spec k m (fun x => mk_timer (expiry_fn x) (stop_fn x) (_ms_to_ticks p) 0 (user_data x)) Hi)
    as (H2 & O2 & _ & _ & _ & _ & _ & Ex). set (k2 := upd_timer _ m _) in *.
  destruct (kinv_add_timeout None [] k2 (TOtimer m) None (Some (timer_wq m)) (_ms_to_ticks duration) (timer_func expiry_call))
    as (_ & He & Hf & _ & _); [done|done|lia|done|]. rewrite He, Ex. split; [done|].
  assert (tm k2 m = mk_timer (expiry_fn (tm k2 m)) (stop_fn (tm k2 m)) (_ms_to_ticks p) 0 (user_data (tm k2 m))) as E.
  { unfold k2, upd_timer, tm at 1. cbn [timers set_timers]. rewrite lookup_total_insert_eq.
    unfold tm. cbn [timers set_timers]. by rewrite lookup_total_insert_eq. }
  unfold tm in *. rewrite Hf. cbn [timers set_timeouts set_timeout_q]. rewrite E. done.
Qed.

(** The remaining time of a running timer is the time of its expiry, in
    milliseconds, and 0 for a timer that is not running. *)
Theorem remaining_is_expiry k o :
  tq_inv None [] k ->
  if decide (o ∈ timeout_q k)
  then exists e, (o, e) ∈ expiry_list k /\ _timeout_remaining_get k o = s32 (__ticks_to_ms e)
  else _timeout_remaining_get k o = 0.
Proof.
  intros Hi. unfold _timeout_remaining_get. case_decide as Ho.
  - pose proof (ti_pos _ _ _ Hi) as Hp. pose proof (remaining_sum k o (timeout_q k) 0 Ho) as Hr.
    exists (remaining_ticks k o (timeout_q k)). split; [exact Hr|].
    destruct (Z.eqb_spec (delta_ticks_from_prev (tmo k o)) _INACTIVE) as [E|_].
    { pose proof (Hp o Ho) as H0. unfold dl in H0. rewrite E in H0. done. }
    apply expiries_le in Hr; [|done]. pose proof (ti_sum _ _ _ Hi). simpl in Hr.
    by rewrite (s32_small (remaining_ticks _ _ _)) by lia.
  - assert (dl k o = _INACTIVE) as Hd by (apply (ti_inactive _ _ _ Hi); [done|apply not_elem_of_nil]).
    unfold dl in Hd. by rewrite Hd.
Qed.

End Proofs.

Section Witnesses.
Import Demo.
#[local] Existing Instance config.

Definition no_call (_ _ : positive) (k : kernel) : kernel := k.

#[export] Instance no_call_callback : KernelCallback no_call.
Proof. split; [done|intros; apply keeps_refl|done]. Qed.

Lemma timer_start_schedules_witness :
  expiry_list (_impl_k_timer_start no_call k_wait 9 40 20) = [(TOtimer 9, 4); (TOthread 3, 11)].
Proof.
  rewrite (proj1 (timer_start_schedules no_call k_wait 9 40 20 (sy_kinv _ k_wait_sys) ltac:(vm_compute; by split))).
  vm_compute. reflexivity.
Defined.

Lemma remaining_is_expiry_witness : exists e, (TOthread 3, e) ∈ expiry_list k_wait /\ _timeout_remaining_get k_wait (TOthread 3) = s32 (__ticks_to_ms e).
Proof.
  pose proof (remaining_is_expiry k_wait (TOthread 3) (ki_tq _ _ _ (sy_kinv _ k_wait_sys))) as H.
  destruct (decide (TOthread 3 ∈ timeout_q k_wait)) as [_|Hn]; [exact H|].
  exfalso. apply Hn. apply (bool_decide_unpack _). vm_compute. exact I.
Defined.

End Witnesses.
End Timer.
