(* ===== verification/Sem.v ===== *)
(** * Semaphores (kernel/sem.c)

    A semaphore is a record of its own, with the address of its wait queue;
    the operations take and return it next to the kernel state. *)

From S2P Require Import Prelude DList ListStore Kernel Ksched ReadyQ TimeoutQ KInv Sched Thread Demo.

Local Open Scope Z_scope.

Module Sem.

Record k_sem := mk_sem { wait_q : positive; count : Z; limit : Z }.

Section Sem.
Context `{KConfig}.
Implicit Types (k : kernel) (sem : k_sem).
Variable timeout_func : positive -> toid -> kernel -> kernel.

Definition wq sem : qid := object_wq (wait_q sem).

Definition with_count (n : Z) sem : k_sem := mk_sem (wait_q sem) n (limit sem).

Definition _impl_k_sem_init k (w : positive) (initial_count limit : Z) : kernel * k_sem :=
  let sem := mk_sem w (u32 initial_count) (u32 limit) in
  (set_queues k (Lst.init (queues k) (wq sem)), sem).

Definition increment_count_up_to_limit sem : k_sem :=
  with_count (u32 (count sem + (if negb (count sem =? limit sem) then 1 else 0))) sem.

(** the flag says whether [_Swap] must be called *)
Definition do_sem_give k sem : kernel * k_sem * bool :=
  match _unpend_first_thread k (wq sem) with
  | (k, None) => (k, increment_count_up_to_limit sem, false)
  | (k, Some thread) =>
      let k := fst (_abort_thread_timeout k thread) in
      let k := _ready_thread k thread in
      let k := _set_thread_return_value k thread 0 in
      (k, sem, negb (_is_in_isr k) && _must_switch_threads k)
  end.

Definition _sem_give_non_preemptible k sem : kernel * k_sem :=
  match _unpend_first_thread k (wq sem) with
  | (k, None) => (k, increment_count_up_to_limit sem)
  | (k, Some thread) =>
      let k := fst (_abort_thread_timeout k thread) in
      let k := _ready_thread k thread in
      (_set_thread_return_value k thread 0, sem)
  end.

Definition _impl_k_sem_give k sem : kernel * k_sem :=
  let '(k, sem, swap) := do_sem_give k sem in
  (if swap then _Swap k else k, sem).

(** The result of the call, or [None] when the thread blocks; it returns its
    [retval] when it runs again. *)
Definition _impl_k_sem_take k sem (timeout : Z) : kernel * k_sem * option Z :=
  if count sem >? 0 then (k, with_count (u32 (count sem - 1)) sem, Some 0)
  else if timeout =? K_NO_WAIT then (k, sem, Some (- EBUSY))
  else (_Swap (_pend_current_thread timeout_func k (wq sem) timeout), sem, None).

(** include/kernel.h *)
Definition _impl_k_sem_reset sem : k_sem := with_count 0 sem.
Definition _impl_k_sem_count_get sem : Z := count sem.

End Sem.

(** ** Theorems *)

Section Proofs.
Context `{KConfig}.
Implicit Types (k : kernel) (sem : k_sem) (t : tid).
Variable tf : positive -> toid -> kernel -> kernel.

(** No count is kept while a thread waits. *)
Record sem_ok k sem : Prop := {
  so_limit : 0 < limit sem < 2 ^ 32;
  so_count : 0 <= count sem <= limit sem;
  so_waiters : 0 < count sem -> queues k !!! wq sem = []
}.

Lemma increment_spec sem :
  0 <= count sem <= limit sem -> limit sem < 2 ^ 32 ->
  increment_count_up_to_limit sem = with_count (Z.min (count sem + 1) (limit sem)) sem.
Proof.
  intros Hc Hl. unfold increment_count_up_to_limit. f_equal.
  destruct (Z.eqb_spec (count sem) (limit sem)); simpl; rewrite u32_small; lia.
Qed.

(** The state in which [k_sem_give] has made the first waiter ready. *)
Definition given k t : kernel := woken k t (with_retval 0).

Lemma do_give_found k sem t :
  _find_first_thread_to_unpend k (wq sem) None = Some t ->
  do_sem_give k sem = (given k t, sem, negb (_is_in_isr (given k t)) && _must_switch_threads (given k t)).
Proof. intros Hf. unfold do_sem_give, _unpend_first_thread. rewrite Hf. reflexivity. Qed.

Lemma do_give_none k sem :
  _find_first_thread_to_unpend k (wq sem) None = None ->
  do_sem_give k sem = (k, increment_count_up_to_limit sem, false).
Proof. intros Hf. unfold do_sem_give, _unpend_first_thread. by rewrite Hf. Qed.

Lemma give_found k sem t :
  _find_first_thread_to_unpend k (wq sem) None = Some t ->
  _impl_k_sem_give k sem = (swap_or_unlock (given k t), sem).
Proof. intros Hf. unfold _impl_k_sem_give. rewrite (do_give_found _ _ _ Hf). generalize (given k t). reflexivity. Qed.

Lemma give_waiter k sem t l :
  handling_timeouts k = false -> queues k !!! wq sem = t :: l ->
  _impl_k_sem_give k sem = (swap_or_unlock (given k t), sem).
Proof.
  intros Hh Hq. apply give_found. unfold _find_first_thread_to_unpend, Lst.peek_head. by rewrite Hh, Hq.
Qed.

Lemma give_free k sem :
  handling_timeouts k = false -> queues k !!! wq sem = [] ->
  _impl_k_sem_give k sem = (k, increment_count_up_to_limit sem).
Proof.
  intros Hh Hq. unfold _impl_k_sem_give, do_sem_give. rewrite unpend_first_head, Hq by done. done.
Qed.

Lemma give_sys k sem : sys_inv k -> sys_inv (fst (_impl_k_sem_give k sem)).
Proof.
  intros Hs. destruct (_find_first_thread_to_unpend k (wq sem) None) as [t|] eqn:Ef;
    [|unfold _impl_k_sem_give; by rewrite do_give_none].
  rewrite (give_found _ _ _ Ef).
  destruct (find_first_kinv [] k _ t (sy_kinv _ Hs) (or_introl eq_refl) Ef) as (_ & Hp & HE).
  destruct (woken_kinv (with_retval 0) ltac:(done) ltac:(done) [] k t (sy_kinv _ Hs) Hp HE) as [Hk Hkp].
  by apply (service_swap k).
Qed.

(** Giving inside an interrupt or from a timer's function. *)
Lemma give_isr_kinv E k sem :
  kinv None E k -> E = [] \/ handling_timeouts k = true -> nested k <> 0 ->
  kinv None E (fst (_impl_k_sem_give k sem)) /\ keeps k (fst (_impl_k_sem_give k sem)).
Proof.
  intros Hi HE Hn. unfold _impl_k_sem_give.
  destruct (_find_first_thread_to_unpend k (wq sem) None) as [t|] eqn:Ef;
    [|rewrite do_give_none by done; split; [done|apply keeps_refl]].
  rewrite (do_give_found _ _ _ Ef).
  destruct (find_first_kinv E k _ t Hi HE Ef) as (_ & Hp & HtE).
  destruct (woken_kinv (with_retval 0) ltac:(done) ltac:(done) E k t Hi Hp HtE) as [Hk Hkp]. fold (given k t) in Hk, Hkp.
  assert (_is_in_isr (given k t) = true) as ->; [|done].
  unfold _is_in_isr. destruct Hkp as (_ & -> & _). destruct (Z.eqb_spec (nested k) 0); done.
Qed.

Lemma take_sys k sem (timeout : Z) :
  sys_inv k -> current k <> idle_thread -> wait_ok timeout ->
  sys_inv (fst (fst (_impl_k_sem_take tf k sem timeout))).
Proof.
  intros Hs Hc Ht. unfold _impl_k_sem_take. destruct (count sem >? 0); [done|].
  destruct (Z.eqb_spec timeout K_NO_WAIT); [done|]. cbn [fst].
  by apply pend_object_sys.
Qed.

Lemma give_sem_ok k sem :
  sys_inv k -> handling_timeouts k = false -> sem_ok k sem ->
  sem_ok (fst (_impl_k_sem_give k sem)) (snd (_impl_k_sem_give k sem)).
Proof.
  intros Hs Hh [Hl Hc Hw]. destruct (queues k !!! wq sem) as [|t l] eqn:Hq.
  - rewrite give_free, increment_spec by (done || lia).
    split; cbn [limit count with_count snd fst wait_q wq]; [done|lia|by intros _].
  - rewrite (give_waiter k sem t l) by done. cbn [snd fst]. split; [done|done|].
    intros Hp. by specialize (Hw Hp).
Qed.

Lemma take_sem_ok k sem (timeout : Z) :
  sem_ok k sem ->
  sem_ok (fst (fst (_impl_k_sem_take tf k sem timeout))) (snd (fst (_impl_k_sem_take tf k sem timeout))).
Proof.
  intros [Hl Hc Hw]. unfold _impl_k_sem_take. destruct (Z.gtb_spec (count sem) 0) as [Hp|Hz].
  - cbn [fst snd]. split; cbn [limit count with_count wait_q wq]; [done|rewrite u32_small; lia|].
    intros _. by apply Hw.
  - destruct (timeout =? K_NO_WAIT); cbn [fst snd]; (split; [done|done|lia]).
Qed.

(** The waiter a give wakes: the first of the queue, which returns 0 from its
    [k_sem_take] and waits for nothing any more; the others wait on. *)
Lemma given_spec k t l sem :
  sys_inv k -> queues k !!! wq sem = t :: l ->
  let k' := given k t in
  queues k' !!! wq sem = l /\ retval (thr k' t) = 0 /\ _is_thread_pending k' t = false /\
  dl k' (TOthread t) = _INACTIVE /\ (forall u, u <> t -> thr k' u = thr k u).
Proof.
  intros Hs Hq k'. pose proof (sy_kinv _ Hs) as Hi.
  pose proof (ri_nodup _ _ (si_rq _ _ (ki_sched _ _ _ Hi)) (wq sem)) as Hnd. rewrite Hq in Hnd.
  assert (_is_thread_pending k t = true) as Hp.
  { assert (t ∈ queues k !!! wq sem) as Hin by (rewrite Hq; left).
    by apply (ri_wq _ _ (si_rq _ _ (ki_sched _ _ _ Hi))) in Hin as [_ ?]. }
  unfold k', given. split.
  { etransitivity; [apply (woken_wq _ k t (xO (wait_q sem)))|].
    change (filter (fun u => u <> t) (queues k !!! wq sem) = l). rewrite Hq. apply (filter_ne_split t [] l Hnd). }
  split; [by apply (woken_thr (with_retval 0) k t)|].
  split; [by apply woken_pending|]. split; [|by apply woken_thr].
  etransitivity; [|exact (wake_inactive k t Hi Hp)]. reflexivity.
Qed.

(** ** The semaphore of the kernel implements a counting semaphore

    The abstract state is the count and the queue of the threads that wait. *)

Definition abs : Type := Z * list tid.
Definition abs_of k sem : abs := (count sem, queues k !!! wq sem).

Definition spec_give (lim : Z) (s : abs) : abs :=
  match s with
  | (c, []) => (Z.min (c + 1) lim, [])
  | (c, _ :: l) => (c, l)
  end.

Definition spec_take (pr : tid -> Z) (t : tid) (timeout : Z) (s : abs) : abs * option Z :=
  let '(c, ws) := s in
  if 0 <? c then ((c - 1, ws), Some 0)
  else if timeout =? K_NO_WAIT then ((c, ws), Some (- EBUSY))
  else ((c, ins_prio pr t ws), None).

(** C13. [k_sem_give], outside of the handling of a tick, is the give of a counting
    semaphore: the first thread that waits takes the unit, and otherwise the count goes
    up to the limit.  The woken thread returns 0 from its take, with its timeout
    cancelled, and is on its ready queue, unless it has been suspended or aborted; the
    kernel's invariant is kept. *)
Theorem sem_give_refines k sem :
  sys_inv k -> handling_timeouts k = false -> sem_ok k sem ->
  let '(k', sem') := _impl_k_sem_give k sem in
  sys_inv k' /\ sem_ok k' sem' /\ abs_of k' sem' = spec_give (limit sem) (abs_of k sem) /\
  (forall t, head (queues k !!! wq sem) = Some t ->
     retval (thr k' t) = 0 /\ dl k' (TOthread t) = _INACTIVE /\ runs_again k k' t).
Proof.
  intros Hs Hh Hok. pose proof (give_sem_ok k sem Hs Hh Hok) as Hok'. pose proof (give_sys k sem Hs) as Hs'. unfold abs_of, spec_give.
  destruct (queues k !!! wq sem) as [|t l] eqn:Hq.
  - rewrite give_free in * by done. cbn [fst snd] in Hok', Hs'. split; [done|]. split; [done|]. split; [|done].
    rewrite increment_spec by (destruct Hok; lia). unfold wq in *. cbn [count with_count wait_q]. by rewrite Hq.
  - rewrite (give_waiter k sem t l) in * by done. cbn [fst snd] in Hok', Hs'.
    destruct (waiter_not_current k (xO (wait_q sem)) t Hs) as [Hne Hp].
    { change (t ∈ queues k !!! wq sem). rewrite Hq. left. }
    destruct (woken_kinv (with_retval 0) ltac:(done) ltac:(done) [] k t (sy_kinv _ Hs) Hp) as [_ (Ec & _)]; [apply not_elem_of_nil|].
    pose proof (service_served (with_retval 0) k (given k t) t ltac:(unfold given; by rewrite Ec)
      (woken_served (with_retval 0) ltac:(done) k t)) as Hsv.
    split; [done|]. split; [done|]. split; [f_equal; exact (served_first _ k _ t _ l (sy_kinv _ Hs) Hq Hsv)|]. intros ? [= <-].
    split; [by apply (sw_value _ _ _ _ Hsv retval)|]. split; [|exact (woken_runs (with_retval 0) ltac:(done) ltac:(done) k t Hs Hp)].
    destruct (given_spec k t l sem Hs Hq) as (_ & _ & _ & Hd & _). revert Hd. generalize (given k t) as k1.
    intros k1 <-. unfold swap_or_unlock. by destruct (_ && _).
Qed.

(** C14. [k_sem_take], called by a thread that may wait, is the take of a counting
    semaphore: it takes a unit if there is one, fails with [-EBUSY] if the caller cannot
    wait, and otherwise queues the caller by priority and switches to another thread,
    of the highest priority among those that can run. *)
Theorem sem_take_refines k sem (timeout : Z) :
  sys_inv k -> sem_ok k sem -> current k <> idle_thread -> wait_ok timeout ->
  let '(k', sem', r) := _impl_k_sem_take tf k sem timeout in
  sys_inv k' /\ sem_ok k' sem' /\ (abs_of k' sem', r) = spec_take (fun u => prio (thr k u)) (current k) timeout (abs_of k sem) /\
  (r <> None -> k' = k) /\
  (r = None -> _is_thread_pending k' (current k) = true /\ current k' <> current k /\
     forall u, _is_thread_ready k' u = true -> prio (thr k' (current k')) <= prio (thr k' u)).
Proof.
  intros Hs Hok Hi Ht. pose proof (take_sem_ok k sem timeout Hok) as Hok'. destruct Hok as [Hl Hc Hw].
  unfold _impl_k_sem_take, spec_take, abs_of in *. rewrite Z.gtb_ltb in *. destruct (Z.ltb_spec 0 (count sem)).
  - cbn [fst snd] in Hok'. split; [done|]. split; [done|]. split; [|done]. cbn [count with_count]. by rewrite u32_small by lia.
  - destruct (Z.eqb_spec timeout K_NO_WAIT); cbn [fst snd] in Hok'; [done|].
    destruct (pend_object_next tf k (wait_q sem) timeout Hs Hi Ht) as (N1 & N2 & N3 & N4); [done|].
    split; [exact N1|]. split; [done|]. split; [unfold wq; by rewrite pend_object_wq|]. by split.
Qed.

End Proofs.

Section Witnesses.
Import Demo.
#[local] Existing Instance config.

Definition sem7 : k_sem := mk_sem 7 0 3.

Lemma sem7_ok k : sem_ok k sem7.
Proof. by split. Qed.

(** Thread 3 is the first of the two that wait. *)
Lemma sem_give_refines_witness :
  let '(k', sem') := _impl_k_sem_give k_wait sem7 in abs_of k' sem' = (0, [4%positive]).
Proof.
  pose proof (sem_give_refines k_wait sem7 k_wait_sys ltac:(vm_compute; reflexivity) (sem7_ok _)) as H.
  destruct (_impl_k_sem_give k_wait sem7) as [k' sem']. destruct H as (_ & _ & H & _). rewrite H. vm_compute. reflexivity.
Defined.

Lemma sem_take_refines_witness :
  let '(k', sem', r) := _impl_k_sem_take no_tf k_timed sem7 K_FOREVER in
  abs_of k' sem' = (0, [3%positive; 4%positive]) /\ r = None.
Proof.
  pose proof (sem_take_refines no_tf k_timed sem7 K_FOREVER k_timed_sys (sem7_ok _) ltac:(vm_compute; congruence) (or_intror (or_introl eq_refl))) as H.
  destruct (_impl_k_sem_take no_tf k_timed sem7 K_FOREVER) as [[k' sem'] r]. destruct H as (_ & _ & H & _).
  assert (spec_take (fun u => prio (thr k_timed u)) (current k_timed) K_FOREVER (abs_of k_timed sem7)
    = ((0, [3%positive; 4%positive]), None)) as E by (vm_compute; reflexivity).
  rewrite E in H. split; [exact (f_equal fst H)|exact (f_equal snd H)].
Defined.

End Witnesses.
End Sem.
