(* ===== verification/Mutex.v ===== *)
(** * Mutexes (kernel/mutex.c)

    Reentrant locks with priority inheritance.  Dereferencing a [NULL] owner
    is [None] in the functions that can do it. *)

From S2P Require Import Prelude DList ListStore Kernel Ksched ReadyQ TimeoutQ KInv Sched Thread Demo.

Local Open Scope Z_scope.

Module Mutex.

Record k_mutex := mk_mutex {
  wait_q : positive;
  owner : option tid;
  lock_count : Z;
  owner_orig_prio : Z
}.

Section Mutex.
Context `{KConfig}.
Implicit Types (k : kernel) (mutex : k_mutex).
Variable timeout_func : positive -> toid -> kernel -> kernel.

Definition wq mutex : qid := object_wq (wait_q mutex).

(** [owner_orig_prio] is left as it is in memory. *)
Definition _impl_k_mutex_init k (mutex : k_mutex) : kernel * k_mutex :=
  (set_queues k (Lst.init (queues k) (wq mutex)), mk_mutex (wait_q mutex) None 0 (owner_orig_prio mutex)).

Definition new_prio_for_inheritance (target limit : Z) : Z :=
  let new_prio := if _is_prio_higher target limit then target else limit in
  _get_new_prio_with_ceiling new_prio.

Definition adjust_owner_prio k mutex (new_prio : Z) : option kernel :=
  match owner mutex with
  | None => None
  | Some o => Some (if negb (prio (thr k o) =? new_prio) then _thread_priority_set k o new_prio else k)
  end.

(** The call up to its return or up to the switch; with [None] as the result
    the thread is blocked and [k_mutex_lock_resume] is the rest of the call. *)
Definition _impl_k_mutex_lock k mutex (timeout : Z) : option (kernel * k_mutex * option Z) :=
  let k := _sched_lock k in
  if (lock_count mutex =? 0) || bool_decide (owner mutex = Some (current k)) then
    let orig := if lock_count mutex =? 0 then prio (thr k (current k)) else owner_orig_prio mutex in
    let mutex := mk_mutex (wait_q mutex) (Some (current k)) (u32 (lock_count mutex + 1)) orig in
    Some (k_sched_unlock k, mutex, Some 0)
  else if timeout =? K_NO_WAIT then Some (k_sched_unlock k, mutex, Some (- EBUSY))
  else
    match owner mutex with
    | None => None
    | Some o =>
        let new_prio := new_prio_for_inheritance (prio (thr k (current k))) (prio (thr k o)) in
        match (if _is_prio_higher new_prio (prio (thr k o)) then adjust_owner_prio k mutex new_prio else Some k) with
        | None => None
        | Some k =>
            Some (_Swap (_pend_current_thread timeout_func k (wq mutex) timeout), mutex, None)
        end
    end.

(** What follows [_Swap] in [k_mutex_lock]: [got_mutex] is its result. *)
Definition k_mutex_lock_resume k mutex (got_mutex : Z) : option (kernel * Z) :=
  if got_mutex =? 0 then Some (k_sched_unlock k, 0)
  else
    let waiter := Lst.peek_head (queues k) (wq mutex) in
    let new_prio := owner_orig_prio mutex in
    let new_prio := match waiter with
                    | Some w => new_prio_for_inheritance (prio (thr k w)) new_prio
                    | None => new_prio
                    end in
    match adjust_owner_prio k mutex new_prio with
    | None => None
    | Some k => Some (k_sched_unlock k, - EAGAIN)
    end.

Definition _impl_k_mutex_unlock k mutex : option (kernel * k_mutex) :=
  let k := _sched_lock k in
  let mutex := mk_mutex (wait_q mutex) (owner mutex) (u32 (lock_count mutex - 1)) (owner_orig_prio mutex) in
  if negb (lock_count mutex =? 0) then Some (k_sched_unlock k, mutex)
  else
    match adjust_owner_prio k mutex (owner_orig_prio mutex) with
    | None => None
    | Some k =>
        let '(k, new_owner) := _unpend_first_thread k (wq mutex) in
        match new_owner with
        | Some t =>
            let k := fst (_abort_thread_timeout k t) in
            let k := _ready_thread k t in
            let k := _set_thread_return_value k t 0 in
            let mutex := mk_mutex (wait_q mutex) (Some t) (u32 (lock_count mutex + 1)) (prio (thr k t)) in
            Some (k_sched_unlock k, mutex)
        | None =>
            let mutex := mk_mutex (wait_q mutex) None (lock_count mutex) (owner_orig_prio mutex) in
            Some (k_sched_unlock k, mutex)
        end
    end.

End Mutex.

(** ** Theorems *)

Section Proofs.
Context `{KConfig}.
Implicit Types (k : kernel) (mutex : k_mutex) (t : tid).
Variable tf : positive -> toid -> kernel -> kernel.
Hypothesis ceiling_ok : prio_range PRIORITY_CEILING.

Lemma new_prio_range (p q : Z) : prio_range p -> prio_range q -> prio_range (new_prio_for_inheritance p q).
Proof.
  intros Hp Hq. unfold new_prio_for_inheritance, _get_new_prio_with_ceiling.
  destruct (_is_prio_higher p q); destruct (_is_under_prio_ceiling _); done.
Qed.

(** Inheritance raises, and not above the ceiling unless it was. *)
Lemma new_prio_spec (p q : Z) :
  new_prio_for_inheritance p q = Z.max (Z.min p q) PRIORITY_CEILING.
Proof.
  unfold new_prio_for_inheritance, _get_new_prio_with_ceiling, _is_under_prio_ceiling, _is_prio_higher,
    _is_prio1_higher_than_prio2.
  destruct (Z.ltb_spec p q); rewrite Z.geb_leb; destruct (Z.leb_spec PRIORITY_CEILING p) ||
    destruct (Z.leb_spec PRIORITY_CEILING q); try lia.
  all: destruct (Z.leb_spec PRIORITY_CEILING q); lia.
Qed.

(** A lock step inside the kernel: well formed, current runnable. *)
Definition running k : Prop := kinv None [] k /\ _is_thread_ready k (current k) = true.

Lemma running_lock k : running k -> running (_sched_lock k).
Proof.
  intros [H1 H2]. split; [by apply kinv_upd_other|].
  etransitivity; [|exact H2]. apply ready_ext; [|done]. unfold _sched_lock.
  change (current (upd_thread k (current k) _)) with (current k). by rewrite thr_upd_same.
Qed.

Lemma running_unlock k : running k -> sys_inv (k_sched_unlock k).
Proof.
  intros [H1 H2]. apply resched_sys; [by apply kinv_upd_other|].
  etransitivity; [|exact H2]. apply ready_ext; [|done]. by rewrite thr_upd_same.
Qed.

Lemma running_adjust k mutex (p : Z) k' :
  running k -> owner mutex <> Some idle_thread -> prio_range p ->
  adjust_owner_prio k mutex p = Some k' -> running k' /\ keeps k k' /\ queues k' !!! wq mutex = queues k !!! wq mutex.
Proof.
  intros [H1 H2] Ho Hp. unfold adjust_owner_prio. destruct (owner mutex) as [o|]; [|done]. intros [= <-].
  destruct (prio (thr k o) =? p); cbn [negb]; [by split; [|split; [apply keeps_refl|]]|].
  assert (keeps k (_thread_priority_set k o p)) as Hk.
  { split; [apply current_priority_set|]. split; [|split; [|by rewrite priority_set_ready]];
    unfold _thread_priority_set; cbv zeta; (destruct (_is_thread_ready k o); [|done]);
    match goal with |- ?f _ = _ => change (f (_remove_thread_from_ready_q k o) = f k) end;
    rewrite remove_unfold; unfold removed; by destruct (Lst.is_empty _ _). }
  split; [|split; [done|]].
  - split; [apply kinv_priority_set; congruence|]. destruct Hk as (-> & _ & _ & Hr). auto.
  - by apply (priority_set_wq [] k o p (xO (wait_q mutex))).
Qed.

(** Owned exactly when the count is positive; threads wait only for a mutex
    that is owned; the priority to restore is a valid one. *)
Record mutex_ok k mutex : Prop := {
  mo_count : 0 <= lock_count mutex < 2 ^ 32;
  mo_owner : lock_count mutex = 0 <-> owner mutex = None;
  mo_waiters : owner mutex = None -> queues k !!! wq mutex = [];
  mo_idle : owner mutex <> Some idle_thread;
  mo_prio : owner mutex <> None -> prio_range (owner_orig_prio mutex)
}.

Lemma unlock_wq k (q : qid) : queues (k_sched_unlock k) !!! q = queues k !!! q.
Proof. by rewrite (proj1 (sched_unlock_frame k)). Qed.

Lemma running_prio k t : running k -> prio_range (prio (thr k t)).
Proof. intros [Hk _]. apply (ri_prio _ _ (si_rq _ _ (ki_sched _ _ _ Hk))). Qed.

(** [k_mutex_lock] does not fault, and keeps the invariants on every path. *)
Lemma lock_sys k mutex (timeout : Z) :
  sys_inv k -> mutex_ok k mutex -> current k <> idle_thread -> lock_count mutex + 1 < 2 ^ 32 ->
  wait_ok timeout ->
  exists k' mutex' r, _impl_k_mutex_lock tf k mutex timeout = Some (k', mutex', r) /\
    sys_inv k' /\ mutex_ok k' mutex'.
Proof.
  intros [Hk Hc _] [M1 M2 M3 M4 M5] Hidle Hmax Ht. unfold _impl_k_mutex_lock. cbv zeta.
  assert (running (_sched_lock k)) as Hrun by (by apply running_lock).
  set (k1 := _sched_lock k) in *. change (current k1) with (current k) in *.
  assert (queues k1 = queues k) as Hq1 by done.
  destruct (Z.eqb_spec (lock_count mutex) 0) as [E0|E0]; cbn [orb].
  - eexists _, _, _. split; [done|]. split; [by apply running_unlock|].
    split; cbn [lock_count owner owner_orig_prio wait_q wq];
      [apply u32_range|rewrite u32_small by lia; split; [lia|done]|done|congruence|].
    intros _. by apply running_prio.
  - case_bool_decide as Eo.
    + eexists _, _, _. split; [done|]. split; [by apply running_unlock|].
      split; cbn [lock_count owner owner_orig_prio wait_q wq];
        [apply u32_range|rewrite u32_small by lia; split; [lia|done]|done|congruence|].
      intros _. apply M5. by rewrite Eo.
    + destruct (Z.eqb_spec timeout K_NO_WAIT) as [->|Hnw].
      * eexists _, _, _. split; [done|]. split; [by apply running_unlock|].
        split; try done. intros Hn. rewrite unlock_wq, Hq1. auto.
      * destruct (owner mutex) as [o|] eqn:Eown; [|exfalso; by apply E0, M2].
        set (p := new_prio_for_inheritance _ _).
        assert (prio_range p) as Hp by (apply new_prio_range; by apply running_prio).
        set (adj := if _is_prio_higher _ _ then _ else _).
        assert (exists k2, adj = Some k2 /\ running k2 /\ keeps k1 k2) as (k2 & -> & Hr2 & Hk2).
        { unfold adj. destruct (_is_prio_higher p (prio (thr k1 o))).
          - destruct (adjust_owner_prio k1 mutex p) as [k2|] eqn:Ea.
            + apply running_adjust in Ea as (? & ? & _); [by exists k2|done|congruence|done].
            + unfold adjust_owner_prio in Ea. by rewrite Eown in Ea.
          - exists k1. split; [done|]. split; [done|apply keeps_refl]. }
        eexists _, _, _. split; [done|]. destruct Hr2 as [Hki Hrd]. split.
        -- apply Swap_sys, pend_current_kinv; [done|done| |].
           ++ destruct Hk2 as (-> & _). done.
           ++ by apply object_wait.
        -- split; rewrite ?Eown; try done.
Qed.

(** The state after [adjust_owner_prio] for a current owner. *)
Lemma adjust_current k mutex (p : Z) :
  running k -> owner mutex = Some (current k) -> current k <> idle_thread -> prio_range p ->
  exists k', adjust_owner_prio k mutex p = Some k' /\ running k' /\ keeps k k' /\
    queues k' !!! wq mutex = queues k !!! wq mutex /\ prio (thr k' (current k)) = p /\
    (forall u, u <> current k -> thr k' u = thr k u).
Proof.
  intros Hr Ho Hi Hp. destruct (adjust_owner_prio k mutex p) as [k'|] eqn:Ea.
  - exists k'. split; [done|]. pose proof Ea as Ea'.
    apply running_adjust in Ea' as (H1 & H2 & H3); [|done|congruence|done]. split; [done|]. split; [done|].
    split; [done|]. unfold adjust_owner_prio in Ea. rewrite Ho in Ea. injection Ea as <-.
    destruct (Z.eqb_spec (prio (thr k (current k))) p) as [E|E]; cbn [negb]; [done|].
    split; [|intros u Hu; by rewrite priority_set_thr, decide_False].
    rewrite priority_set_thr, decide_True by done. cbn. apply s8_small. apply prio_range_s8 in Hp. lia.
  - unfold adjust_owner_prio in Ea. by rewrite Ho in Ea.
Qed.

(** The last unlock: the priority of the owner is restored and the mutex goes
    to the first waiter, or is free. *)
Lemma unlock_last k mutex :
  sys_inv k -> mutex_ok k mutex -> handling_timeouts k = false ->
  owner mutex = Some (current k) -> lock_count mutex = 1 ->
  exists k' mutex', _impl_k_mutex_unlock k mutex = Some (k', mutex') /\
    sys_inv k' /\ mutex_ok k' mutex' /\ prio (thr k' (current k)) = owner_orig_prio mutex /\
    match queues k !!! wq mutex with
    | [] => owner mutex' = None /\ lock_count mutex' = 0
    | t :: l => owner mutex' = Some t /\ lock_count mutex' = 1 /\ owner_orig_prio mutex' = prio (thr k t) /\
                queues k' !!! wq mutex = l /\ retval (thr k' t) = 0 /\ _is_thread_pending k' t = false
    end.
Proof.
  intros [Hk Hc _] [M1 M2 M3 M4 M5] Hh Ho Hl. unfold _impl_k_mutex_unlock. cbv zeta. cbn [lock_count owner owner_orig_prio].
  rewrite Hl. change (u32 (1 - 1)) with 0. cbn [Z.eqb negb].
  assert (running (_sched_lock k)) as Hrun by (by apply running_lock). set (k1 := _sched_lock k) in *.
  set (mx := mk_mutex (wait_q mutex) (owner mutex) 0 (owner_orig_prio mutex)).
  assert (prio_range (owner_orig_prio mutex)) as Hp by (apply M5; by rewrite Ho).
  destruct (adjust_current k1 mx (owner_orig_prio mutex)) as (k2 & -> & Hr2 & (Kc & _ & Kh & _) & Hq2 & Hp2 & Ht2);
    [done|done|change (current k1) with (current k); congruence|done|].
  change (current k1) with (current k) in *. change (queues k1 !!! wq mx) with (queues k !!! wq mutex) in Hq2.
  change (handling_timeouts k1) with (handling_timeouts k) in Kh. rewrite Hh in Kh.
  unfold _unpend_first_thread, _find_first_thread_to_unpend, Lst.peek_head. rewrite Kh, Hq2.
  destruct (queues k !!! wq mutex) as [|t l] eqn:Hq; cbn [head].
  - eexists _, _. split; [done|]. split; [by apply running_unlock|].
    assert (queues (k_sched_unlock k2) !!! wq mutex = []) as Hq' by (rewrite unlock_wq; exact Hq2).
    split; [split; done|]. split; [|done]. destruct (sched_unlock_frame k2) as (_ & _ & _ & _ & _ & Hpr).
    by rewrite Hpr.
  - destruct Hr2 as [Hk2 Hc2]. assert (_is_thread_pending k2 t = true) as Hpd.
    { assert (t ∈ queues k2 !!! wq mx) as Hin by (rewrite Hq2; left).
      by apply (ri_wq _ _ (si_rq _ _ (ki_sched _ _ _ Hk2))) in Hin as [_ ?]. }
    assert (TOthread t ∉ (@nil toid)) as Hn by apply not_elem_of_nil.
    pose proof (kinv_wake [] k2 t Hk2 Hpd Hn) as Hk3. pose proof (wake_keeps [] k2 t Hk2 Hpd Hn) as Hkp.
    pose proof (wake_wq k2 t (xO (wait_q mutex))) as Hw3. pose proof (wake_not_pending k2 t) as Hnp.
    assert (t <> current k) as Hne.
    { rewrite Kc in Hc2. pose proof (pending_not_current k2 t Hpd) as Hne. rewrite Kc in Hne. by intros ->; apply Hne. }
    pose proof (fun u => proj1 (proj2 (wake_thr k2 t u))) as Hpr3.
    set (k3 := _ready_thread _ t) in *. set (k4 := _set_thread_return_value k3 t 0).
    assert (running k4) as Hr4.
    { split; [by apply kinv_upd_other|]. destruct (keeps_trans _ _ _ Hkp (keeps_upd k3 t (with_retval 0) ltac:(done)))
        as (Ec & _ & _ & Er). fold (_set_thread_return_value k3 t 0) in Ec, Er. fold k4 in Ec, Er. rewrite Ec. auto. }
    assert (current k4 = current k) as Hc4 by (rewrite <- Kc; apply Hkp).
    assert (prio (thr k4 t) = prio (thr k t)) as Hpt.
    { unfold k4, _set_thread_return_value. rewrite thr_upd_same. cbn [prio with_retval].
      rewrite Hpr3, Ht2 by done. unfold k1, _sched_lock. by rewrite thr_upd_other. }
    destruct (sched_unlock_frame k4) as (_ & _ & _ & _ & Hu & Hpr). rewrite Hc4 in Hu.
    eexists _, _. split; [done|]. split; [by apply running_unlock|]. rewrite Hpt.
    pose proof (ri_nodup _ _ (si_rq _ _ (ki_sched _ _ _ Hk)) (wq mutex)) as Hnd. rewrite Hq in Hnd.
    split; [|split; [|split; [done|split; [done|split; [done|split; [|split]]]]]].
    + split; cbn [lock_count owner owner_orig_prio]; try done.
      * intros [= ->]. pose proof (si_idle _ _ (ki_sched _ _ _ Hk2)) as Hid.
        by rewrite (pending_not_ready _ _ Hpd) in Hid.
      * intros _. apply (ri_prio _ _ (si_rq _ _ (ki_sched _ _ _ Hk))).
    + rewrite Hpr. unfold k4, _set_thread_return_value. rewrite thr_upd_other by congruence. by rewrite Hpr3.
    + rewrite unlock_wq. etransitivity; [exact Hw3|]. change (WQ (xO (wait_q mutex))) with (wq mx). rewrite Hq2.
      apply (filter_ne_split t [] l Hnd).
    + rewrite Hu by done. unfold k4, _set_thread_return_value. by rewrite thr_upd_same.
    + rewrite <- Hnp. apply pending_ext. rewrite Hu by done. unfold k4, _set_thread_return_value. by rewrite thr_upd_same.
Qed.

(** Unlocking, nested or not, and the rest of a lock call after the wait. *)
Lemma unlock_sys k mutex :
  sys_inv k -> mutex_ok k mutex -> handling_timeouts k = false -> owner mutex = Some (current k) ->
  exists k' mutex', _impl_k_mutex_unlock k mutex = Some (k', mutex') /\ sys_inv k' /\ mutex_ok k' mutex'.
Proof.
  intros Hs Hm Hh Ho. destruct (decide (lock_count mutex = 1)) as [E1|E1].
  { destruct (unlock_last k mutex Hs Hm Hh Ho E1) as (k' & mutex' & ? & ? & ? & _). by exists k', mutex'. }
  destruct Hm as [M1 M2 M3 M4 M5]. assert (lock_count mutex <> 0) as E0.
  { intros E0. apply M2 in E0. congruence. }
  unfold _impl_k_mutex_unlock. cbv zeta. cbn [lock_count].
  rewrite u32_small by lia. destruct (Z.eqb_spec (lock_count mutex - 1) 0); [lia|]. cbn [negb].
  eexists _, _. split; [done|]. split.
  - apply running_unlock, running_lock. by split; apply Hs.
  - split; cbn [lock_count owner owner_orig_prio]; [lia| |by rewrite Ho|done|done].
    rewrite Ho. split; [lia|done].
Qed.

Lemma lock_resume_sys k mutex (got_mutex : Z) k' r :
  sys_inv k -> mutex_ok k mutex -> k_mutex_lock_resume k mutex got_mutex = Some (k', r) ->
  sys_inv k' /\ r = (if got_mutex =? 0 then 0 else - EAGAIN).
Proof.
  intros [Hk Hc _] [M1 M2 M3 M4 M5]. assert (running k) as Hr by done. unfold k_mutex_lock_resume.
  destruct (got_mutex =? 0); [intros [= <- <-]; split; [by apply running_unlock|done]|].
  set (p := match Lst.peek_head _ _ with Some _ => _ | None => _ end).
  destruct (adjust_owner_prio k mutex p) as [k1|] eqn:Ea; [|done]. intros [= <- <-]. split; [|done].
  apply running_unlock. assert (prio_range (owner_orig_prio mutex)) as Hp.
  { apply M5. intros Eo. unfold adjust_owner_prio in Ea. by rewrite Eo in Ea. }
  apply (running_adjust k mutex p k1) in Ea as (? & _); try done.
  unfold p. destruct (Lst.peek_head _ _); [|done]. apply new_prio_range; [by apply running_prio|done].
Qed.

(** Priority inheritance: when a thread blocks on a mutex, the owner runs at
    the higher of its own priority and the thread's, limited by the ceiling. *)
Lemma lock_inherits k mutex o (timeout : Z) k' mutex' :
  sys_inv k -> mutex_ok k mutex -> owner mutex = Some o -> o <> current k ->
  timeout = K_FOREVER \/ timeout_ok timeout ->
  _impl_k_mutex_lock tf k mutex timeout = Some (k', mutex', None) ->
  mutex' = mutex /\ prio (thr k' o) = Z.min (prio (thr k o)) (Z.max (prio (thr k (current k))) PRIORITY_CEILING).
Proof.
  intros [Hk Hc _] [M1 M2 M3 M4 M5] Ho Hne Ht. unfold _impl_k_mutex_lock. cbv zeta.
  set (k1 := _sched_lock k). change (current k1) with (current k).
  assert (running k1) as Hrun by (by apply running_lock).
  assert (forall u, prio (thr k1 u) = prio (thr k u)) as Hp1.
  { intros u. unfold k1, _sched_lock. rewrite thr_upd_thread. destruct (decide _) as [->|]; done. }
  destruct (lock_count mutex =? 0); cbn [orb]; [done|]. rewrite Ho, bool_decide_false by congruence.
  destruct (timeout =? K_NO_WAIT); [done|]. rewrite !Hp1, new_prio_spec.
  set (p := Z.max _ _). assert (prio_range p) as Hp.
  { unfold p. rewrite <- new_prio_spec, <- !Hp1. apply new_prio_range; by apply running_prio. }
  unfold _is_prio_higher, _is_prio1_higher_than_prio2, adjust_owner_prio. rewrite Ho, !Hp1.
  destruct (Z.ltb_spec p (prio (thr k o))) as [Hlt|Hge].
  - destruct (Z.eqb_spec (prio (thr k o)) p); [lia|]. cbn [negb]. intros [= <- <-]. split; [done|].
    rewrite pend_current_thr; [|done|by rewrite current_priority_set].
    rewrite priority_set_thr, decide_True by done. cbn.
    rewrite s8_small by (apply prio_range_s8 in Hp; lia). unfold p in *. lia.
  - intros [= <- <-]. split; [done|]. rewrite pend_current_thr, Hp1 by done. unfold p in *. lia.
Qed.

(** ** Main theorems *)

(** Locking a mutex that is free, or that the caller owns, succeeds at once:
    the caller is the owner, the count goes up by one, and the priority to
    restore is the one the caller had at its first lock. *)
Theorem lock_available k mutex (timeout : Z) :
  sys_inv k -> mutex_ok k mutex -> current k <> idle_thread -> lock_count mutex + 1 < 2 ^ 32 ->
  owner mutex = None \/ owner mutex = Some (current k) -> wait_ok timeout ->
  exists k' mutex', _impl_k_mutex_lock tf k mutex timeout = Some (k', mutex', Some 0) /\
    sys_inv k' /\ mutex_ok k' mutex' /\ owner mutex' = Some (current k) /\ lock_count mutex' = lock_count mutex + 1 /\
    owner_orig_prio mutex' = (if lock_count mutex =? 0 then prio (thr k (current k)) else owner_orig_prio mutex).
Proof.
  intros Hs Hm Hc Hlt Ho Ht. destruct (lock_sys k mutex timeout Hs Hm Hc Hlt Ht) as (k' & mutex' & r & E & Hs' & Hm').
  exists k', mutex'. revert E. unfold _impl_k_mutex_lock. cbv zeta.
  assert ((lock_count mutex =? 0) || bool_decide (owner mutex = Some (current (_sched_lock k))) = true) as Hor.
  { destruct Ho as [Ho|Ho]; [apply (mo_owner _ _ Hm) in Ho; by rewrite Ho|].
    rewrite Ho, bool_decide_true by done. apply orb_true_r. }
  rewrite Hor. intros [= <- <- <-]. cbn [owner lock_count owner_orig_prio].
  split; [done|]. split; [done|]. split; [done|]. split; [done|].
  split; [apply u32_small; destruct Hm; lia|].
  destruct (lock_count mutex =? 0); [|done]. unfold _sched_lock. by rewrite thr_upd_same.
Qed.

(** C7. A thread that waits for a mutex lends its priority: the owner runs at
    the better of the two, limited by the priority ceiling. *)
Theorem lock_contended_inherits k mutex o (timeout : Z) k' mutex' :
  sys_inv k -> mutex_ok k mutex -> owner mutex = Some o -> o <> current k ->
  timeout = K_FOREVER \/ timeout_ok timeout ->
  _impl_k_mutex_lock tf k mutex timeout = Some (k', mutex', None) ->
  mutex' = mutex /\ prio (thr k' o) = Z.min (prio (thr k o)) (Z.max (prio (thr k (current k))) PRIORITY_CEILING).
Proof. apply lock_inherits. Qed.

(** C8. The last unlock gives the owner its own priority back and hands the
    mutex to the first thread that waits, which returns 0 from its lock; with
    no waiter the mutex becomes free. *)
Theorem unlock_hands_over k mutex :
  sys_inv k -> mutex_ok k mutex -> handling_timeouts k = false ->
  owner mutex = Some (current k) -> lock_count mutex = 1 ->
  exists k' mutex', _impl_k_mutex_unlock k mutex = Some (k', mutex') /\
    sys_inv k' /\ mutex_ok k' mutex' /\ prio (thr k' (current k)) = owner_orig_prio mutex /\
    match queues k !!! wq mutex with
    | [] => owner mutex' = None /\ lock_count mutex' = 0
    | t :: l => owner mutex' = Some t /\ lock_count mutex' = 1 /\ owner_orig_prio mutex' = prio (thr k t) /\
                queues k' !!! wq mutex = l /\ retval (thr k' t) = 0 /\ _is_thread_pending k' t = false
    end.
Proof. apply unlock_last. Qed.

End Proofs.

Section Witnesses.
Import Demo.
#[local] Existing Instance config.

(** Mutex 7, free; and owned by thread 5, which runs while 3 and 4 wait. *)
Definition mutex7 : k_mutex := mk_mutex 7 None 0 0.
Definition mutex7_5 : k_mutex := mk_mutex 7 (Some 5%positive) 1 5.

Lemma mutex7_ok : mutex_ok k_boot mutex7.
Proof. by split. Qed.

Lemma mutex7_5_ok : mutex_ok k_wait mutex7_5.
Proof. by split. Qed.

Lemma ceiling_in_range : prio_range PRIORITY_CEILING.
Proof. by apply in_prio_range. Qed.

Lemma lock_available_witness :
  exists k' mutex', _impl_k_mutex_lock no_tf k_boot mutex7 K_NO_WAIT = Some (k', mutex', Some 0) /\
    owner mutex' = Some 3%positive /\ lock_count mutex' = 1.
Proof.
  destruct (lock_available no_tf ceiling_in_range k_boot mutex7 K_NO_WAIT k_boot_sys mutex7_ok) as (k' & mutex' & H1 & _ & _ & H2 & H3 & _).
  - vm_compute. congruence.
  - vm_compute. reflexivity.
  - by left.
  - by left.
  - exists k', mutex'. split; [exact H1|]. split; [exact H2|exact H3].
Defined.

Lemma mutex7_5_ok' : mutex_ok k_three mutex7_5.
Proof. by split. Qed.

(** Main waits for a mutex that thread 5 owns. *)
Definition k_lent : kernel :=
  match _impl_k_mutex_lock no_tf k_three mutex7_5 K_FOREVER with Some (k, _, _) => k | None => k_three end.

Lemma lock_contended_inherits_witness : prio (thr k_three 5) = 5 /\ prio (thr k_lent 5) = 0.
Proof.
  split; [vm_compute; reflexivity|].
  rewrite (proj2 (lock_contended_inherits no_tf ceiling_in_range k_three mutex7_5 5 K_FOREVER k_lent mutex7_5 k_three_sys
    mutex7_5_ok' eq_refl ltac:(vm_compute; congruence) (or_introl eq_refl) ltac:(vm_compute; reflexivity))).
  vm_compute. reflexivity.
Defined.

(** Thread 5 owned the mutex with a low priority. *)
Lemma unlock_hands_over_witness :
  exists k' mutex', _impl_k_mutex_unlock k_wait mutex7_5 = Some (k', mutex') /\ owner mutex' = Some 3%positive.
Proof.
  destruct (unlock_hands_over k_wait mutex7_5 k_wait_sys mutex7_5_ok) as (k' & mutex' & H1 & _ & _ & _ & H2).
  - vm_compute. reflexivity.
  - vm_compute. reflexivity.
  - reflexivity.
  - exists k', mutex'. split; [exact H1|].
    assert (queues k_wait !!! wq mutex7_5 = [3%positive; 4%positive]) as E by (vm_compute; reflexivity).
    rewrite E in H2. apply H2.
Defined.

End Witnesses.
End Mutex.
