(* ===== verification/SList.v ===== *)
(** * Singly linked lists (include/misc/slist.h)

    The operations on memory: [heap] holds the [next] field of each node and
    [slist] is [sys_slist_t].  [sl h list ns] says that the list is the sequence
    of nodes [ns]; the theorems give the effect of each operation on it. *)

From S2P Require Import Prelude.

Module SList.

Abbreviation loc := positive.

(** the [next] field of each node; [None] is [NULL] *)
Abbreviation heap := (gmap loc (option loc)).

(** [sys_slist_t]: its [head] and its [tail] *)
Record slist := mk_slist { s_head : option loc; s_tail : option loc }.

Implicit Types (h : heap) (lst : slist) (node : loc).

Definition next h node : option loc := h !!! node.
Definition set_next h node (n : option loc) : heap := <[node := n]> h.

Definition sys_slist_init : slist := mk_slist None None.

Definition sys_slist_is_empty lst : bool := bool_decide (s_head lst = None).
Definition sys_slist_peek_head lst : option loc := s_head lst.
Definition sys_slist_peek_tail lst : option loc := s_tail lst.
Definition sys_slist_peek_next_no_check h node : option loc := next h node.
Definition sys_slist_peek_next h (node : option loc) : option loc :=
  match node with Some n => sys_slist_peek_next_no_check h n | None => None end.

Definition sys_slist_prepend h lst node : heap * slist :=
  let h := set_next h node (s_head lst) in
  let lst := mk_slist (Some node) (s_tail lst) in
  (h, match s_tail lst with None => mk_slist (s_head lst) (s_head lst) | Some _ => lst end).

Definition sys_slist_append h lst node : heap * slist :=
  let h := set_next h node None in
  match s_tail lst with
  | None => (h, mk_slist (Some node) (Some node))
  | Some t => (set_next h t (Some node), mk_slist (s_head lst) (Some node))
  end.

Definition sys_slist_append_list h lst (hd tl : option loc) : heap * slist :=
  match s_tail lst with
  | None => (h, mk_slist hd tl)
  | Some t => (set_next h t hd, mk_slist (s_head lst) tl)
  end.

(** the list and the appended list, in that order *)
Definition sys_slist_merge_slist h lst (list_to_append : slist) : heap * slist * slist :=
  let '(h, lst) := sys_slist_append_list h lst (s_head list_to_append) (s_tail list_to_append) in
  (h, lst, sys_slist_init).

Definition sys_slist_insert h lst (prev : option loc) node : heap * slist :=
  match prev with
  | None => sys_slist_prepend h lst node
  | Some p =>
      match next h p with
      | None => sys_slist_append h lst node
      | Some n => (set_next (set_next h node (Some n)) p (Some node), lst)
      end
  end.

(** [None]: the list was empty, which the caller excludes. *)
Definition sys_slist_get_not_empty h lst : option (slist * loc) :=
  match s_head lst with
  | None => None
  | Some node =>
      let lst := mk_slist (next h node) (s_tail lst) in
      Some (if bool_decide (s_tail lst = Some node) then mk_slist (s_head lst) (s_head lst) else lst, node)
  end.

Definition sys_slist_get h lst : slist * option loc :=
  if sys_slist_is_empty lst then (lst, None)
  else match sys_slist_get_not_empty h lst with
       | Some (lst, node) => (lst, Some node)
       | None => (lst, None)
       end.

Definition sys_slist_remove h lst (prev_node : option loc) node : heap * slist :=
  let '(h, lst) :=
    match prev_node with
    | None =>
        let lst := mk_slist (next h node) (s_tail lst) in
        (h, if bool_decide (s_tail lst = Some node) then mk_slist (s_head lst) (s_head lst) else lst)
    | Some p =>
        (set_next h p (next h node),
         if bool_decide (s_tail lst = Some node) then mk_slist (s_head lst) (Some p) else lst)
    end in
  (set_next h node None, lst).

(** The walk of [SYS_Slist_FOR_EACH_NODE]; [fuel] bounds the nodes visited. *)
Fixpoint find_and_remove_from (fuel : nat) h lst (prev test : option loc) node : heap * slist * bool :=
  match fuel, test with
  | S fuel, Some t =>
      if decide (t = node) then (sys_slist_remove h lst prev node, true)
      else find_and_remove_from fuel h lst (Some t) (next h t) node
  | _, _ => (h, lst, false)
  end.

Definition sys_slist_find_and_remove (fuel : nat) h lst node : heap * slist * bool :=
  find_and_remove_from fuel h lst None (s_head lst) node.

(** ** Well-formed lists *)

Definition hd_or (ns : list loc) (e : option loc) : option loc :=
  match ns with [] => e | a :: _ => Some a end.

(** The nodes [ns] are chained, the last one pointing to [e]. *)
Fixpoint seg h (ns : list loc) (e : option loc) : Prop :=
  match ns with
  | [] => True
  | a :: r => next h a = hd_or r e /\ seg h r e
  end.

Record sl h lst (ns : list loc) : Prop := {
  sl_head : s_head lst = head ns;
  sl_tail : s_tail lst = last ns;
  sl_seg : seg h ns None;
  sl_nodup : NoDup ns
}.

Implicit Types (ns : list loc) (e : option loc).

Lemma next_set h a b x : next (set_next h a x) b = if decide (b = a) then x else next h b.
Proof.
  unfold next, set_next. case_decide; subst; [by rewrite lookup_total_insert_eq|by rewrite lookup_total_insert_ne].
Qed.

Lemma seg_app h l1 l2 e : seg h (l1 ++ l2) e <-> seg h l1 (hd_or l2 e) /\ seg h l2 e.
Proof.
  induction l1 as [|a l1 IH]; simpl; [tauto|]. rewrite IH.
  destruct l1; simpl; tauto.
Qed.

Lemma seg_frame h a x ns e : a ∉ ns -> seg h ns e -> seg (set_next h a x) ns e.
Proof.
  induction ns as [|b ns IH]; simpl; [done|]. intros Ha [H1 H2]. apply not_elem_of_cons in Ha as [Hab Ha].
  rewrite next_set, decide_False by congruence. auto.
Qed.

(** Changing the pointer of the last node. *)
Lemma seg_relink h s t e e' : t ∉ s -> seg h (s ++ [t]) e -> seg (set_next h t e') (s ++ [t]) e'.
Proof.
  rewrite !seg_app. simpl. intros Ht [H1 _]. split; [by apply seg_frame|].
  by rewrite next_set, decide_True.
Qed.

Lemma sl_nil h lst ns : sl h lst ns -> s_head lst = None <-> ns = [].
Proof. intros []. rewrite sl_head0. by destruct ns. Qed.

Lemma sl_snoc ns : ns = [] \/ exists s t, ns = s ++ [t].
Proof. destruct ns as [|a l]; [by left|right]. destruct (snoc_inv a l) as (s & t & E). by exists s, t. Qed.

Lemma sl_init h : sl h sys_slist_init [].
Proof. split; [done..|constructor]. Qed.

Lemma sl_is_empty h lst ns : sl h lst ns -> sys_slist_is_empty lst = bool_decide (ns = []).
Proof. intros Hs. unfold sys_slist_is_empty. apply bool_decide_ext. by apply (sl_nil h). Qed.

Lemma sl_prepend h lst ns node :
  sl h lst ns -> node ∉ ns ->
  let '(h', lst') := sys_slist_prepend h lst node in sl h' lst' (node :: ns).
Proof.
  intros [H1 H2 H3 H4] Hn. unfold sys_slist_prepend. cbn [s_head s_tail].
  assert (seg (set_next h node (s_head lst)) (node :: ns) None) as Hseg.
  { simpl. rewrite next_set, decide_True by done. split; [rewrite H1; by destruct ns|by apply seg_frame]. }
  assert (NoDup (node :: ns)) as Hnd by (by apply NoDup_cons).
  destruct (s_tail lst) as [t|] eqn:Et.
  - split; [done| |done|done]. cbn [s_tail]. rewrite H2. by destruct ns.
  - split; [done| |done|done]. cbn [s_tail]. destruct ns as [|a l]; [done|].
    destruct (snoc_inv a l) as (s & t & E). by rewrite E, last_snoc in H2.
Qed.

Lemma sl_append_seg h lst ns hd tl ms :
  sl h lst ns -> seg h ms None -> NoDup (ns ++ ms) -> ms <> [] -> hd = head ms -> tl = last ms ->
  let '(h', lst') := sys_slist_append_list h lst hd tl in sl h' lst' (ns ++ ms).
Proof.
  intros [H1 H2 H3 H4] Hms Hnd Hne -> ->. unfold sys_slist_append_list.
  destruct (sl_snoc ns) as [->|(s & t & ->)].
  - rewrite H2. simpl. by split.
  - rewrite H2, last_snoc.
    apply NoDup_app in Hnd as Hnd'. destruct Hnd' as (N1 & N2 & N3).
    apply NoDup_app in N1 as N1'. destruct N1' as (N4 & N5 & _).
    split; cbn [s_head s_tail].
    + rewrite H1. destruct s; done.
    + destruct (sl_snoc ms) as [->|(s' & t' & ->)]; [done|]. by rewrite app_assoc, !last_snoc.
    + apply seg_app. split.
      * assert (hd_or ms None = head ms) as -> by (by destruct ms).
        apply (seg_relink h s t None); [|done]. intros Hs. apply (N5 t Hs). left.
      * apply seg_frame; [|done]. apply N2. rewrite elem_of_app. right. left.
    + done.
Qed.

Lemma append_as_list h lst node :
  sys_slist_append h lst node = sys_slist_append_list (set_next h node None) lst (Some node) (Some node).
Proof. unfold sys_slist_append, sys_slist_append_list. by destruct (s_tail lst). Qed.

Lemma sl_frame h lst ns a x : a ∉ ns -> sl h lst ns -> sl (set_next h a x) lst ns.
Proof. intros Ha [H1 H2 H3 H4]. split; [done..|by apply seg_frame|done]. Qed.

Lemma sl_append h lst ns node :
  sl h lst ns -> node ∉ ns ->
  let '(h', lst') := sys_slist_append h lst node in sl h' lst' (ns ++ [node]).
Proof.
  intros Hs Hn. rewrite append_as_list.
  apply (sl_append_seg (set_next h node None) lst ns (Some node) (Some node) [node]); try done.
  - by apply sl_frame.
  - simpl. by rewrite next_set, decide_True.
  - apply NoDup_app. split; [apply Hs|]. split; [|apply NoDup_singleton].
    intros x Hx ->%list_elem_of_singleton. done.
Qed.

Lemma sl_next h lst l1 a l2 : sl h lst (l1 ++ a :: l2) -> next h a = head l2.
Proof. intros [_ _ H3 _]. apply seg_app in H3 as [_ [H3 _]]. rewrite H3. by destruct l2. Qed.

(** Insertion after [prev], at the head when it is [NULL]. *)
Lemma sl_insert h lst l1 l2 prev node :
  sl h lst (l1 ++ l2) -> node ∉ l1 ++ l2 -> prev = last l1 ->
  let '(h', lst') := sys_slist_insert h lst prev node in sl h' lst' (l1 ++ node :: l2).
Proof.
  intros Hs Hn ->. destruct (sl_snoc l1) as [->|(s & p & ->)].
  - by apply sl_prepend.
  - rewrite last_snoc. simpl. rewrite <- app_assoc in Hs. simpl in Hs.
    rewrite (sl_next _ _ _ _ _ Hs). destruct l2 as [|b l2]; cbn [head].
    + rewrite app_nil_r in Hn. by apply sl_append.
    + destruct Hs as [H1 H2 H3 H4].
      assert (Hperm : Permutation ((s ++ [p]) ++ node :: b :: l2) (node :: s ++ p :: b :: l2)).
      { rewrite <- Permutation_middle, <- app_assoc. done. }
      split.
      * rewrite H1. destruct s; done.
      * rewrite H2. destruct (snoc_inv b l2) as (s' & t' & E). rewrite E.
        replace (s ++ p :: s' ++ [t']) with ((s ++ p :: s') ++ [t']) by (by rewrite <- app_assoc).
        replace ((s ++ [p]) ++ node :: s' ++ [t']) with (((s ++ [p]) ++ node :: s') ++ [t']) by (by rewrite <- app_assoc).
        by rewrite !last_snoc.
      * rewrite <- app_assoc in Hn. simpl in Hn.
        apply NoDup_app in H4 as (N1 & N2 & N3). apply NoDup_cons in N3 as [N3 N4].
        assert (p ∉ s) as Hps by (intros Hp; apply (N2 p Hp); left).
        assert (node <> p) as Hnp by (intros ->; apply Hn, elem_of_app; right; left).
        apply seg_app in H3 as [H3 H5]. destruct H5 as [H5 H6].
        apply seg_app. split.
        -- cbn [hd_or]. apply (seg_relink _ s p (Some b)); [done|]. apply seg_app. split.
           ++ apply seg_frame; [set_solver|done].
           ++ simpl. rewrite next_set, decide_False by congruence. by split.
        -- split; [rewrite next_set, decide_False by done; by rewrite next_set, decide_True|].
           apply seg_frame; [done|]. apply seg_frame; [|done]. intros Hx. apply Hn, elem_of_app. right. by right.
      * rewrite Hperm. apply NoDup_cons. split; [|done].
        rewrite <- app_assoc in Hn. done.
Qed.

Lemma sl_get h lst node ns :
  sl h lst (node :: ns) ->
  let '(lst', r) := sys_slist_get h lst in r = Some node /\ sl h lst' ns.
Proof.
  intros [H1 H2 [H3 H3'] H4]. apply NoDup_cons in H4 as [H4 H5].
  unfold sys_slist_get, sys_slist_is_empty, sys_slist_get_not_empty. rewrite H1. cbn [head].
  rewrite bool_decide_false by done. split; [done|]. cbn [s_tail s_head].
  assert (hd_or ns None = head ns) as Hh by (by destruct ns).
  case_bool_decide as Et; split; cbn [s_head s_tail]; try (by rewrite H3).
  - destruct (sl_snoc ns) as [->|(s & t & ->)]; [by rewrite H3|].
    rewrite H2, app_comm_cons, last_snoc in Et. simplify_eq. exfalso. apply H4, elem_of_app. right. left.
  - done.
  - done.
  - rewrite H2. destruct (sl_snoc ns) as [->|(s & t & ->)]; [by rewrite H2 in Et|].
    by rewrite app_comm_cons, !last_snoc.
  - done.
  - done.
Qed.

Lemma sl_get_empty h lst : sl h lst [] -> sys_slist_get h lst = (lst, None).
Proof. intros [H1 _ _ _]. unfold sys_slist_get, sys_slist_is_empty. by rewrite H1. Qed.

(** Removal of a node whose predecessor is known. *)
Lemma sl_remove h lst l1 node l2 :
  sl h lst (l1 ++ node :: l2) ->
  let '(h', lst') := sys_slist_remove h lst (last l1) node in sl h' lst' (l1 ++ l2).
Proof.
  intros Hs. pose proof (sl_next _ _ _ _ _ Hs) as Hnx. destruct Hs as [H1 H2 H3 H4].
  apply NoDup_app in H4 as H4'. destruct H4' as (N1 & N2 & N3). apply NoDup_cons in N3 as [N3 N4].
  assert (node ∉ l1) as Hn1 by (intros Hx; apply (N2 node Hx); left).
  assert (NoDup (l1 ++ l2)) as Hnd.
  { apply NoDup_app. split; [done|]. split; [|done]. intros x Hx Hx2. apply (N2 x Hx). by right. }
  apply seg_app in H3 as [H3 [H3' H3'']].
  assert (Ht : s_tail lst = Some node <-> l2 = []).
  { rewrite H2. destruct (sl_snoc l2) as [->|(s & t & ->)]; [by rewrite last_snoc|].
    replace (l1 ++ node :: s ++ [t]) with ((l1 ++ node :: s) ++ [t]) by (by rewrite <- app_assoc).
    rewrite last_snoc. split; [|by destruct s]. intros [= ->]. exfalso. apply N3, elem_of_app. right. left. }
  unfold sys_slist_remove. rewrite Hnx. destruct (sl_snoc l1) as [->|(s & p & ->)].
  - cbn [last s_tail s_head app]. split.
    + by case_bool_decide.
    + case_bool_decide as Eb; cbn [s_tail].
      * apply Ht in Eb as ->. done.
      * rewrite H2. destruct (sl_snoc l2) as [->|(s & t & ->)]; [by destruct Eb; apply Ht|].
        by rewrite app_nil_l, app_comm_cons, !last_snoc.
    + by apply seg_frame.
    + done.
  - rewrite last_snoc. cbn [s_head]. split.
    + case_bool_decide; cbn [s_head]; rewrite H1; by destruct s.
    + case_bool_decide as Eb; cbn [s_tail].
      * apply Ht in Eb as ->. by rewrite app_nil_r, last_snoc.
      * rewrite H2. destruct (sl_snoc l2) as [->|(s' & t & ->)]; [by destruct Eb; apply Ht|].
        replace ((s ++ [p]) ++ node :: s' ++ [t]) with (((s ++ [p]) ++ node :: s') ++ [t]) by (by rewrite <- app_assoc).
        by rewrite app_assoc, !last_snoc.
    + apply NoDup_app in N1 as N1'. destruct N1' as (_ & N5 & _).
      apply seg_frame; [intros [Hx|Hx]%elem_of_app; done|]. apply seg_app. split.
      * assert (hd_or l2 None = head l2) as -> by (by destruct l2).
        apply (seg_relink h s p (Some node)); [|done]. intros Hp. apply (N5 p Hp). left.
      * apply seg_frame; [|done]. intros Hp. apply (N2 p); [apply elem_of_app; right; left|by right].
    + done.
Qed.

(** The search from the suffix [l2], after the prefix [l1]. *)
Lemma find_and_remove_from_spec l2 : forall fuel h lst l1 node,
  sl h lst (l1 ++ l2) -> node ∉ l1 -> (length l2 <= fuel)%nat ->
  let '(h', lst', r) := find_and_remove_from fuel h lst (last l1) (head l2) node in
  r = bool_decide (node ∈ l2) /\ sl h' lst' (l1 ++ filter (fun x => x <> node) l2).
Proof.
  induction l2 as [|a l2 IH]; intros fuel h lst l1 node Hs Hn Hf.
  - destruct fuel; cbn [find_and_remove_from head]; (split; [|done]); symmetry; apply bool_decide_false, not_elem_of_nil.
  - destruct fuel as [|fuel]; [simpl in Hf; lia|]. cbn [find_and_remove_from head].
    destruct (decide (a = node)) as [->|Hne].
    + pose proof (sl_remove _ _ _ _ _ Hs) as Hr. destruct (sys_slist_remove h lst (last l1) node) as [h' lst'].
      split; [symmetry; apply bool_decide_true; left|].
      rewrite filter_cons_False by tauto. rewrite filter_ne_id; [done|].
      pose proof (sl_nodup _ _ _ Hs) as Hnd. apply NoDup_app in Hnd as (_ & _ & Hnd).
      by apply NoDup_cons in Hnd as [? _].
    + rewrite (sl_next _ _ _ _ _ Hs). rewrite filter_cons_True by done.
      specialize (IH fuel h lst (l1 ++ [a]) node). rewrite <- app_assoc in IH. rewrite last_snoc in IH.
      destruct (find_and_remove_from fuel h lst (Some a) (head l2) node) as [[h' lst'] r].
      destruct IH as [-> IH]; [done|rewrite not_elem_of_app, list_elem_of_singleton; naive_solver|simpl in Hf; lia|].
      split; [|by rewrite <- app_assoc in IH].
      apply bool_decide_ext. rewrite elem_of_cons. naive_solver.
Qed.

Lemma sl_find_and_remove fuel h lst ns node :
  sl h lst ns -> (length ns <= fuel)%nat ->
  let '(h', lst', r) := sys_slist_find_and_remove fuel h lst node in
  r = bool_decide (node ∈ ns) /\ sl h' lst' (filter (fun x => x <> node) ns).
Proof.
  intros Hs Hf. unfold sys_slist_find_and_remove. rewrite (sl_head _ _ _ Hs).
  apply (find_and_remove_from_spec ns fuel h lst [] node); [done|apply not_elem_of_nil|done].
Qed.

(** ** Every sequence of operations

    [spec] is the sequence the list stands for; [exec] works on memory. *)

Inductive op :=
  | Prepend (n : loc)
  | Append (n : loc)
  | Insert (prev n : loc)
  | Get
  | FindAndRemove (n : loc).

Fixpoint ins_after (p n : loc) ns : list loc :=
  match ns with
  | [] => []
  | x :: ns => if decide (x = p) then x :: n :: ns else x :: ins_after p n ns
  end.

Definition spec (o : op) ns : list loc * option loc :=
  match o with
  | Prepend n => (n :: ns, None)
  | Append n => (ns ++ [n], None)
  | Insert p n => (ins_after p n ns, None)
  | Get => (tail ns, head ns)
  | FindAndRemove n => (filter (fun x => x <> n) ns, if bool_decide (n ∈ ns) then Some n else None)
  end.

Definition exec (o : op) (s : heap * slist * nat) : heap * slist * nat * option loc :=
  let '(h, lst, len) := s in
  match o with
  | Prepend n => (sys_slist_prepend h lst n, S len, None)
  | Append n => (sys_slist_append h lst n, S len, None)
  | Insert p n => (sys_slist_insert h lst (Some p) n, S len, None)
  | Get => let '(lst, r) := sys_slist_get h lst in (h, lst, len, r)
  | FindAndRemove n =>
      let '(h, lst, r) := sys_slist_find_and_remove len h lst n in (h, lst, len, if r : bool then Some n else None)
  end.

(** A node is inserted only when it is not on the list, and after one that is. *)
Definition pre (o : op) ns : Prop :=
  match o with
  | Prepend n | Append n => n ∉ ns
  | Insert p n => n ∉ ns /\ p ∈ ns
  | _ => True
  end.

Fixpoint run_spec (os : list op) ns : list loc * list (option loc) :=
  match os with
  | [] => (ns, [])
  | o :: os => let '(ns, r) := spec o ns in let '(ns, rs) := run_spec os ns in (ns, r :: rs)
  end.

Fixpoint run_exec (os : list op) (s : heap * slist * nat) : heap * slist * nat * list (option loc) :=
  match os with
  | [] => (s, [])
  | o :: os => let '(s, r) := exec o s in let '(s, rs) := run_exec os s in (s, r :: rs)
  end.

Fixpoint run_pre (os : list op) ns : Prop :=
  match os with
  | [] => True
  | o :: os => pre o ns /\ run_pre os (fst (spec o ns))
  end.

Lemma ins_after_split p n l1 l2 : p ∉ l1 -> ins_after p n (l1 ++ p :: l2) = (l1 ++ [p]) ++ n :: l2.
Proof.
  induction l1 as [|x l1 IH]; intros Hp; simpl; [by rewrite decide_True|].
  rewrite decide_False by set_solver. rewrite IH by set_solver. done.
Qed.

(** [len] counts the insertions: enough fuel for the search. *)
Lemma exec_refines o h lst len ns :
  sl h lst ns -> (length ns <= len)%nat -> pre o ns ->
  let '(h', lst', len', r) := exec o (h, lst, len) in
  sl h' lst' (fst (spec o ns)) /\ (length (fst (spec o ns)) <= len')%nat /\ r = snd (spec o ns).
Proof.
  intros Hs Hl Hp. destruct o as [n|n|p n| |n]; cbn [exec spec pre fst snd] in Hp |- *.
  - pose proof (sl_prepend h lst ns n Hs Hp) as Hx. destruct (sys_slist_prepend h lst n).
    simpl. split_and!; [done|lia|done].
  - pose proof (sl_append h lst ns n Hs Hp) as Hx. destruct (sys_slist_append h lst n).
    rewrite length_app. simpl. split_and!; [done|lia|done].
  - destruct Hp as [Hn (l1 & l2 & -> & Hp)%list_elem_of_split_l]. rewrite ins_after_split by done.
    replace (l1 ++ p :: l2) with ((l1 ++ [p]) ++ l2) in Hs, Hn by (by rewrite <- app_assoc).
    pose proof (sl_insert h lst (l1 ++ [p]) l2 (Some p) n Hs Hn ltac:(by rewrite last_snoc)) as Hx.
    destruct (sys_slist_insert h lst (Some p) n). rewrite !length_app in *. simpl in *. split_and!; [done|lia|done].
  - destruct ns as [|a ns]; [by rewrite sl_get_empty|].
    pose proof (sl_get h lst a ns Hs) as Hx. destruct (sys_slist_get h lst) as [lst' r]. simpl in *.
    destruct Hx as [-> Hx]. split_and!; [done|lia|done].
  - pose proof (sl_find_and_remove len h lst ns n Hs Hl) as Hx.
    destruct (sys_slist_find_and_remove len h lst n) as [[h' lst'] r]. destruct Hx as [-> Hx].
    split_and!; [done| |done]. pose proof (length_filter (fun x => x <> n) ns). lia.
Qed.

Lemma run_refines os : forall h lst len ns,
  sl h lst ns -> (length ns <= len)%nat -> run_pre os ns ->
  let '(h', lst', len', rs) := run_exec os (h, lst, len) in
  sl h' lst' (fst (run_spec os ns)) /\ rs = snd (run_spec os ns).
Proof.
  induction os as [|o os IH]; intros h lst len ns Hs Hl Hp; [done|]. cbn [run_exec run_spec].
  destruct Hp as [Hp1 Hp2]. pose proof (exec_refines o h lst len ns Hs Hl Hp1) as Hx.
  destruct (exec o (h, lst, len)) as [[[h1 lst1] len1] r]. destruct (spec o ns) as [ns1 r']. cbn [fst snd] in *.
  destruct Hx as (Hx1 & Hx2 & ->). specialize (IH h1 lst1 len1 ns1 Hx1 Hx2 Hp2).
  destruct (run_exec os (h1, lst1, len1)) as [[[h2 lst2] len2] rs]. destruct (run_spec os ns1) as [ns2 rs'].
  cbn [fst snd] in *. destruct IH as [IH ->]. done.
Qed.

(** C19. The linked list implements a sequence: any run of operations whose
    arguments are legal leaves a well-formed list that holds the sequence the
    same run gives on sequences, and returns the same results. *)
Theorem slist_implements_sequence os h lst len ns :
  sl h lst ns -> (length ns <= len)%nat -> run_pre os ns ->
  let '(h', lst', len', rs) := run_exec os (h, lst, len) in
  sl h' lst' (fst (run_spec os ns)) /\ rs = snd (run_spec os ns).
Proof. apply run_refines. Qed.

Lemma slist_implements_sequence_witness :
  let '(h', lst', len', rs) :=
    run_exec [Append 1; Append 2; Prepend 3; Insert 1 4; FindAndRemove 1; Get] (∅, sys_slist_init, 0%nat) in
  rs = [None; None; None; None; Some 1%positive; Some 3%positive].
Proof.
  pose proof (slist_implements_sequence [Append 1; Append 2; Prepend 3; Insert 1 4; FindAndRemove 1; Get]
    ∅ sys_slist_init 0 [] (sl_init ∅) ltac:(simpl; lia)) as H.
  destruct (run_exec _ _) as [[[h' lst'] len'] rs]. apply H. simpl. set_solver.
Defined.

End SList.
