(* ===== verification/Queue.v ===== *)
(** * Queues (kernel/queue.c)

    The data items are the nodes of a [sys_slist_t]: the operations thread the
    memory [h] of SList.v next to the kernel state.  [NULL] is 0 as the data of
    a thread and [None] as a node. *)

From S2P Require Import Prelude DList ListStore Kernel Ksched ReadyQ TimeoutQ KInv Sched Thread Demo SList.

Local Open Scope Z_scope.

Module Queue.
Import SList.

Record k_queue := mk_queue { data_q : slist; wait_q : positive }.

Section Queue.
Context `{KConfig}.
Implicit Types (k : kernel) (h : SList.heap) (queue : k_queue).
Variable timeout_func : positive -> toid -> kernel -> kernel.

Definition wq queue : qid := object_wq (wait_q queue).

Definition set_data_q queue (l : slist) : k_queue := mk_queue l (wait_q queue).

(** a pointer as the data of a thread *)
Definition ptr (data : option SList.loc) : Z := match data with Some p => Z.pos p | None => 0 end.

Definition k_queue_init k (w : positive) : kernel * k_queue :=
  let queue := mk_queue sys_slist_init w in
  (set_queues k (Lst.init (queues k) (wq queue)), queue).

Definition prepare_thread_to_run k (thread : tid) (data : option SList.loc) : kernel :=
  let k := fst (_abort_thread_timeout k thread) in
  let k := _ready_thread k thread in
  _set_thread_return_value_with_data k thread 0 (ptr data).

Definition k_queue_cancel_wait k queue : kernel :=
  match _unpend_first_thread k (wq queue) with
  | (k, Some t) => swap_or_unlock (prepare_thread_to_run k t None)
  | (k, None) => k
  end.

Definition k_queue_insert k h queue (prev : option SList.loc) (data : SList.loc) : kernel * SList.heap * k_queue :=
  match _unpend_first_thread k (wq queue) with
  | (k, Some t) => (swap_or_unlock (prepare_thread_to_run k t (Some data)), h, queue)
  | (k, None) =>
      let '(h, l) := sys_slist_insert h (data_q queue) prev data in
      (k, h, set_data_q queue l)
  end.

(** The tail is read before [k_queue_insert] locks interrupts. *)
Definition k_queue_append k h queue (data : SList.loc) : kernel * SList.heap * k_queue :=
  k_queue_insert k h queue (s_tail (data_q queue)) data.

Definition k_queue_prepend k h queue (data : SList.loc) : kernel * SList.heap * k_queue :=
  k_queue_insert k h queue None data.

(** The loop of [k_queue_append_list]: it serves the waiters while there are
    items; the number of waiters is enough fuel. *)
Fixpoint serve_waiters (fuel : nat) k h queue (hd : option SList.loc) : kernel * option SList.loc :=
  match fuel, hd with
  | S fuel, Some p =>
      match _unpend_first_thread k (wq queue) with
      | (k, Some t) => serve_waiters fuel (prepare_thread_to_run k t hd) h queue (next h p)
      | (k, None) => (k, hd)
      end
  | _, _ => (k, hd)
  end.

Definition k_queue_append_list k h queue (hd tl : option SList.loc) : kernel * SList.heap * k_queue :=
  let first_thread := _peek_first_pending_thread k (wq queue) in
  let '(k, hd) := serve_waiters (S (length (queues k !!! wq queue))) k h queue hd in
  let '(h, queue) :=
    match hd with
    | Some _ => let '(h, l) := sys_slist_append_list h (data_q queue) hd tl in (h, set_data_q queue l)
    | None => (h, queue)
    end in
  (match first_thread with Some _ => swap_or_unlock k | None => k end, h, queue).

(** the list merged is empty afterwards *)
Definition k_queue_merge_slist k h queue (l : slist) : kernel * SList.heap * k_queue * slist :=
  (k_queue_append_list k h queue (s_head l) (s_tail l), sys_slist_init).

(** The data, or [None] when the thread blocks; [k_queue_get_resume] is the
    rest of the call. *)
Definition k_queue_get k h queue (timeout : Z) : kernel * k_queue * option Z :=
  if negb (sys_slist_is_empty (data_q queue)) then
    match sys_slist_get_not_empty h (data_q queue) with
    | Some (l, p) => (k, set_data_q queue l, Some (Z.pos p))
    | None => (k, queue, Some 0)
    end
  else if timeout =? K_NO_WAIT then (k, queue, Some 0)
  else (_Swap (_pend_current_thread timeout_func k (wq queue) timeout), queue, None).

Definition k_queue_get_resume k : Z :=
  if negb (retval (thr k (current k)) =? 0) then 0 else swap_data (thr k (current k)).

(** include/kernel.h *)
Definition k_queue_remove (fuel : nat) h queue (data : SList.loc) : SList.heap * k_queue * bool :=
  let '(h, l, r) := sys_slist_find_and_remove fuel h (data_q queue) data in (h, set_data_q queue l, r).
Definition k_queue_is_empty queue : bool := sys_slist_is_empty (data_q queue).
Definition k_queue_peek_head queue : option SList.loc := sys_slist_peek_head (data_q queue).
Definition k_queue_peek_tail queue : option SList.loc := sys_slist_peek_tail (data_q queue).

End Queue.

(** ** Theorems *)

Section Proofs.
Context `{KConfig}.
Implicit Types (k : kernel) (h : SList.heap) (queue : k_queue) (t : tid).
Variable tf : positive -> toid -> kernel -> kernel.

(** The items form a list, and no item is kept while a thread waits. *)
Record queue_ok k h queue (items : list SList.loc) : Prop := {
  qo_list : sl h (data_q queue) items;
  qo_waiters : items <> [] -> queues k !!! wq queue = []
}.

Definition with_data (data : option SList.loc) (x : k_thread) : k_thread :=
  with_swap_data (ptr data) (with_retval 0 x).

(** the state when a waiter got [data] *)
Definition served k t (data : option SList.loc) : kernel := woken k t (with_data data).

Lemma prepare_served k t data :
  prepare_thread_to_run (_unpend_thread k t) t data = served k t data.
Proof.
  unfold prepare_thread_to_run, served, woken. cbv zeta. by rewrite value_with_data.
Qed.

Lemma served_kinv E k w t data :
  kinv None E k -> E = [] \/ handling_timeouts k = true ->
  _find_first_thread_to_unpend k (WQ w) None = Some t ->
  kinv None E (served k t data) /\ keeps k (served k t data).
Proof.
  intros Hi HE Hf. destruct (find_first_kinv E k w t Hi HE Hf) as (_ & Hp & HtE). by apply woken_kinv.
Qed.

Lemma insert_sys k h queue prev data : sys_inv k -> sys_inv (fst (fst (k_queue_insert k h queue prev data))).
Proof.
  intros Hs. unfold k_queue_insert, _unpend_first_thread.
  destruct (_find_first_thread_to_unpend k (wq queue) None) as [t|] eqn:Ef.
  - cbn [fst]. rewrite prepare_served. destruct (served_kinv [] k _ t (Some data) (sy_kinv _ Hs) (or_introl eq_refl) Ef) as [Hk Hkp].
    by apply (service_swap k).
  - by destruct (sys_slist_insert h (data_q queue) prev data).
Qed.

Lemma cancel_wait_sys k queue : sys_inv k -> sys_inv (k_queue_cancel_wait k queue).
Proof.
  intros Hs. unfold k_queue_cancel_wait, _unpend_first_thread.
  destruct (_find_first_thread_to_unpend k (wq queue) None) as [t|] eqn:Ef; [|done].
  rewrite prepare_served. destruct (served_kinv [] k _ t None (sy_kinv _ Hs) (or_introl eq_refl) Ef) as [Hk Hkp].
  by apply (service_swap k).
Qed.

Lemma serve_waiters_kinv fuel : forall k h queue hd,
  kinv None [] k ->
  kinv None [] (fst (serve_waiters fuel k h queue hd)) /\ keeps k (fst (serve_waiters fuel k h queue hd)).
Proof.
  induction fuel as [|fuel IH]; intros k h queue hd Hi; [split; [done|apply keeps_refl]|].
  cbn [serve_waiters]. destruct hd as [p|]; [|split; [done|apply keeps_refl]].
  unfold _unpend_first_thread. destruct (_find_first_thread_to_unpend k (wq queue) None) as [t|] eqn:Ef;
    [|split; [done|apply keeps_refl]].
  rewrite prepare_served. destruct (served_kinv [] k _ t (Some p) Hi (or_introl eq_refl) Ef) as [Hk Hkp].
  destruct (IH (served k t (Some p)) h queue (next h p) Hk) as [Hk2 Hkp2].
  split; [done|]. by eapply keeps_trans.
Qed.

Lemma append_list_sys k h queue hd tl : sys_inv k -> sys_inv (fst (fst (k_queue_append_list k h queue hd tl))).
Proof.
  intros Hs. unfold k_queue_append_list.
  pose proof (serve_waiters_kinv (S (length (queues k !!! wq queue))) k h queue hd (sy_kinv _ Hs)) as [Hk Hkp].
  destruct (_peek_first_pending_thread k (wq queue)) as [ft|] eqn:Ep;
    destruct (serve_waiters _ k h queue hd) as [k1 hd1] eqn:Ew; cbn [fst] in *;
    destruct (match hd1 with Some _ => _ | None => _ end) as [h2 q2]; cbn [fst].
  - by apply (service_swap k).
  - unfold _peek_first_pending_thread, Lst.peek_head in Ep.
    assert (queues k !!! wq queue = []) as Hq by (by destruct (queues k !!! wq queue)).
    assert (k1 = k) as ->; [|done]. rewrite Hq in Ew. cbn [length serve_waiters] in Ew.
    destruct hd as [p|]; [|congruence]. unfold _unpend_first_thread in Ew.
    assert (_find_first_thread_to_unpend k (wq queue) None = None) as E.
    { unfold _find_first_thread_to_unpend, Lst.peek_head. rewrite Hq. by destruct (handling_timeouts k). }
    rewrite E in Ew. congruence.
Qed.

Lemma queue_get_sys k h queue (timeout : Z) :
  sys_inv k -> current k <> idle_thread -> wait_ok timeout ->
  sys_inv (fst (fst (k_queue_get tf k h queue timeout))).
Proof.
  intros Hs Hc Ht. unfold k_queue_get. destruct (negb _); [by destruct (sys_slist_get_not_empty _ _) as [[]|]|].
  destruct (Z.eqb_spec timeout K_NO_WAIT); [done|]. cbn [fst].
  by apply pend_object_sys.
Qed.

(** Appending, then taking: first in, first out. *)
Lemma append_no_waiter k h queue items data :
  handling_timeouts k = false -> queues k !!! wq queue = [] -> sl h (data_q queue) items -> data ∉ items ->
  let '(k', h', queue') := k_queue_append k h queue data in
  k' = k /\ wait_q queue' = wait_q queue /\ sl h' (data_q queue') (items ++ [data]).
Proof.
  intros Hh Hq Hs Hd. unfold k_queue_append, k_queue_insert. rewrite unpend_first_head, Hq by done.
  pose proof (sl_insert h (data_q queue) items [] (last items) data) as Hx. rewrite app_nil_r in Hx.
  rewrite (sl_tail _ _ _ Hs). specialize (Hx Hs Hd eq_refl).
  destruct (sys_slist_insert h (data_q queue) (last items) data) as [h' l]. done.
Qed.

Lemma get_available k h queue items data (timeout : Z) :
  sl h (data_q queue) (data :: items) ->
  let '(k', queue', r) := k_queue_get tf k h queue timeout in
  k' = k /\ r = Some (Z.pos data) /\ wait_q queue' = wait_q queue /\ sl h (data_q queue') items.
Proof.
  intros Hs. unfold k_queue_get. rewrite (sl_is_empty _ _ _ Hs), bool_decide_false by done. cbn [negb].
  pose proof (sl_get h (data_q queue) data items Hs) as Hx. unfold sys_slist_get in Hx.
  rewrite (sl_is_empty _ _ _ Hs), bool_decide_false in Hx by done.
  destruct (sys_slist_get_not_empty h (data_q queue)) as [[l p]|]; [|by destruct Hx].
  by destruct Hx as [[= ->] Hx].
Qed.

(** ** Main theorems *)

Lemma insert_waiter k h queue prev data t l :
  handling_timeouts k = false -> queues k !!! wq queue = t :: l ->
  k_queue_insert k h queue prev data = (swap_or_unlock (served k t (Some data)), h, queue).
Proof.
  intros Hh Hq. unfold k_queue_insert. rewrite unpend_first_head, Hq by done. rewrite prepare_served.
  generalize (served k t (Some data)). reflexivity.
Qed.

(** The effect of [k_queue_append], with and without a waiter. *)
Lemma append_spec k h queue items data :
  sys_inv k -> handling_timeouts k = false -> queue_ok k h queue items -> data ∉ items ->
  let '(k', h', queue') := k_queue_append k h queue data in
  match queues k !!! wq queue with
  | [] => k' = k /\ queue_ok k' h' queue' (items ++ [data])
  | t :: l => items = [] /\ queue_ok k' h' queue' [] /\ queues k' !!! wq queue' = l /\
              swap_data (thr k' t) = ptr (Some data) /\ retval (thr k' t) = 0 /\ runs_again k k' t
  end.
Proof.
  intros Hs Hh [Hl Hw] Hd. destruct (queues k !!! wq queue) as [|t l] eqn:Hq.
  - pose proof (append_no_waiter k h queue items data Hh Hq Hl Hd) as Ha.
    destruct (k_queue_append k h queue data) as [[k' h'] queue']. destruct Ha as (-> & Ew & Ha).
    split; [done|]. split; [done|]. intros _. unfold wq. by rewrite Ew.
  - destruct items as [|i items]; [|by specialize (Hw ltac:(done))].
    unfold k_queue_append. rewrite (insert_waiter k h queue _ data t l) by done.
    destruct (waiter_not_current k (xO (wait_q queue)) t Hs) as [Hne Hp].
    { change (t ∈ queues k !!! wq queue). rewrite Hq. left. }
    destruct (served_kinv [] k (xO (wait_q queue)) t (Some data) (sy_kinv _ Hs) (or_introl eq_refl)) as [_ (Ec & _)].
    { change (WQ (xO (wait_q queue))) with (wq queue). unfold _find_first_thread_to_unpend, Lst.peek_head. by rewrite Hh, Hq. }
    pose proof (service_served (with_data (Some data)) k (served k t (Some data)) t ltac:(by rewrite Ec)
      (woken_served (with_data (Some data)) ltac:(done) k t)) as Hsv.
    split; [done|]. split; [by split|]. split; [exact (served_first _ k _ t _ l (sy_kinv _ Hs) Hq Hsv)|].
    split; [by apply (sw_value _ _ _ _ Hsv swap_data)|]. split; [by apply (sw_value _ _ _ _ Hsv retval)|].
    exact (woken_runs (with_data (Some data)) ltac:(done) ltac:(done) k t Hs Hp).
Qed.

(** C17. [k_queue_append], outside of the handling of a tick, puts the item at the end of
    the queue or, when threads wait, gives it to the first of them: that thread has the
    item and waits no more, and is on its ready queue, unless it has been suspended or
    aborted; the others wait on. *)
Theorem queue_append_refines k h queue items data :
  sys_inv k -> handling_timeouts k = false -> queue_ok k h queue items -> data ∉ items ->
  let '(k', h', queue') := k_queue_append k h queue data in
  match queues k !!! wq queue with
  | [] => k' = k /\ queue_ok k' h' queue' (items ++ [data])
  | t :: l => items = [] /\ queue_ok k' h' queue' [] /\ queues k' !!! wq queue' = l /\
              swap_data (thr k' t) = ptr (Some data) /\ retval (thr k' t) = 0 /\ runs_again k k' t
  end.
Proof. apply append_spec. Qed.

(** C18. [k_queue_get] takes the first item; on an empty queue it returns [NULL]
    to a caller that cannot wait and otherwise queues the caller by priority. *)
Theorem queue_get_refines k h queue items (timeout : Z) :
  sys_inv k -> queue_ok k h queue items -> wait_ok timeout ->
  let '(k', queue', r) := k_queue_get tf k h queue timeout in
  match items with
  | data :: rest => k' = k /\ r = Some (ptr (Some data)) /\ queue_ok k' h queue' rest
  | [] => queue' = queue /\
          if timeout =? K_NO_WAIT then k' = k /\ r = Some (ptr None)
          else r = None /\ queues k' !!! wq queue = ins_prio (fun u => prio (thr k u)) (current k) (queues k !!! wq queue)
  end.
Proof.
  intros Hs [Hl Hw] Ht. destruct items as [|data rest].
  - unfold k_queue_get. rewrite (sl_is_empty _ _ _ Hl), bool_decide_true by done. cbn [negb].
    destruct (Z.eqb_spec timeout K_NO_WAIT); [done|]. split; [done|]. split; [done|]. by apply pend_object_wq.
  - pose proof (get_available k h queue rest data timeout Hl) as Hg.
    destruct (k_queue_get tf k h queue timeout) as [[k' queue'] r]. destruct Hg as (-> & -> & Ew & Hg).
    split; [done|]. split; [done|]. split; [done|]. intros _. unfold wq. rewrite Ew. by apply Hw.
Qed.

End Proofs.

Section Witnesses.
Import Demo.
#[local] Existing Instance config.

Definition queue7 : k_queue := mk_queue sys_slist_init 7.

Lemma queue7_ok k : queue_ok k ∅ queue7 [].
Proof. split; [apply sl_init|done]. Qed.

Lemma queue_append_refines_witness :
  let '(k', h', queue') := k_queue_append k_wait ∅ queue7 21 in
  queues k' !!! wq queue' = [4%positive] /\ swap_data (thr k' 3) = 21.
Proof.
  pose proof (queue_append_refines k_wait ∅ queue7 [] 21 k_wait_sys ltac:(vm_compute; reflexivity) (queue7_ok _)
    ltac:(apply not_elem_of_nil)) as H.
  assert (queues k_wait !!! wq queue7 = [3%positive; 4%positive]) as E by (vm_compute; reflexivity). rewrite E in H.
  destruct (k_queue_append k_wait ∅ queue7 21) as [[k' h'] queue']. destruct H as (_ & _ & H1 & H2 & _). by split.
Defined.

Lemma queue_get_refines_witness :
  let '(k', queue', r) := k_queue_get no_tf k_boot ∅ queue7 K_NO_WAIT in k' = k_boot /\ r = Some 0.
Proof.
  pose proof (queue_get_refines no_tf k_boot ∅ queue7 [] K_NO_WAIT k_boot_sys (queue7_ok _) (or_introl eq_refl)) as H.
  destruct (k_queue_get no_tf k_boot ∅ queue7 K_NO_WAIT) as [[k' queue'] r]. exact (proj2 H).
Defined.

End Witnesses.
End Queue.
