(* ===== verification/WorkQ.v ===== *)
(** * Work queues (kernel/work_q.c, include/kernel.h)

    The state has the kernel, the memory of the list nodes, the queue of each
    work queue, the work items by address and the delayed ones; a delayed item
    and the work item in it have the same address.  The timeout of a delayed item
    is the timeout object [TOtimer m] with [work_timeout] as its function: the
    clock takes it off the timeout queue, and [work_timeout] is the step that
    then follows. *)

From S2P Require Import Prelude DList ListStore Kernel Ksched ReadyQ TimeoutQ KInv Sched Thread Demo Atomic Timer SList Queue.

Local Open Scope Z_scope.

Module WorkQ.
Import SList Atomic.

Record k_work := mk_work { handler : positive; flags : list Z }.

(** [struct k_delayed_work] besides its [work] *)
Record k_delayed_work := mk_delayed { timeout : positive; work_q : option positive }.

#[export] Instance k_work_inhabited : Inhabited k_work := populate (mk_work 1 [0]).
#[export] Instance k_delayed_work_inhabited : Inhabited k_delayed_work := populate (mk_delayed 1 None).
#[export] Instance k_queue_inhabited : Inhabited Queue.k_queue := populate (Queue.mk_queue sys_slist_init 1).

Definition K_WORK_STATE_PENDING : Z := 0.

Record state := mk_state {
  ker : kernel;
  mem : SList.heap;
  queue_of : gmap positive Queue.k_queue;
  works : gmap SList.loc k_work;
  delayed : gmap SList.loc k_delayed_work
}.

Section WorkQ.
Context `{KConfig}.
Implicit Types (s : state) (q : positive) (w : SList.loc).
Variable timeout_func : positive -> toid -> kernel -> kernel.

Definition set_ker s (k : kernel) : state := mk_state k (mem s) (queue_of s) (works s) (delayed s).
Definition set_flags s w (fl : list Z) : state :=
  mk_state (ker s) (mem s) (queue_of s) (<[w := mk_work (handler (works s !!! w)) fl]> (works s)) (delayed s).
Definition set_queue s q (k : kernel) (h : SList.heap) (queue : Queue.k_queue) : state :=
  mk_state k h (<[q := queue]> (queue_of s)) (works s) (delayed s).
Definition set_work_q s w (wq : option positive) : state :=
  mk_state (ker s) (mem s) (queue_of s) (works s) (<[w := mk_delayed (timeout (delayed s !!! w)) wq]> (delayed s)).

Definition k_work_init s w (h : positive) : state :=
  let fl := atomic_clear_bit (flags (works s !!! w)) K_WORK_STATE_PENDING in
  mk_state (ker s) (mem s) (queue_of s) (<[w := mk_work h fl]> (works s)) (delayed s).

Definition k_work_submit_to_queue s q w : state :=
  let '(fl, pending) := atomic_test_and_set_bit (flags (works s !!! w)) K_WORK_STATE_PENDING in
  let s := set_flags s w fl in
  if negb pending then
    let '(k, h, queue) := Queue.k_queue_append (ker s) (mem s) (queue_of s !!! q) w in set_queue s q k h queue
  else s.

Definition k_work_pending s w : bool := negb (atomic_test_bit (flags (works s !!! w)) K_WORK_STATE_PENDING =? 0).

(** The thread of the work queue runs [work_q_main] from its creation on. *)
Definition k_work_q_start s q (w : positive) (thread : tid) (prio : Z) : state :=
  let '(k, queue) := Queue.k_queue_init (ker s) w in
  set_queue s q (Thread._impl_k_thread_create timeout_func k thread prio 0 0) (mem s) queue.

(** The system work queue (kernel/system_work_q.c), at the configured priority. *)
Definition k_sys_work_q : positive := 1%positive.
Definition k_sys_work_q_init s (w : positive) (thread : tid) (priority : Z) : state :=
  k_work_q_start s k_sys_work_q w thread priority.
Definition k_work_submit s w : state := k_work_submit_to_queue s k_sys_work_q w.

(** One turn of the loop of [work_q_main]: the first line, which may block, and
    the rest of it.  [run] is what the handlers of the application do. *)
Definition work_q_get s q : state * option Z :=
  let '(k, queue, r) := Queue.k_queue_get timeout_func (ker s) (mem s) (queue_of s !!! q) K_FOREVER in
  (set_queue s q k (mem s) queue, r).

Definition work_q_process (run : positive -> SList.loc -> state -> state) s (work : Z) : state :=
  match work with
  | Zpos w =>
      let h := handler (works s !!! w) in
      let '(fl, pending) := atomic_test_and_clear_bit (flags (works s !!! w)) K_WORK_STATE_PENDING in
      let s := set_flags s w fl in
      let s := if pending then run h w s else s in
      set_ker s (_impl_k_yield (ker s))
  | _ => s
  end.

(** ** Delayed work *)

(** the address of [work_timeout] *)
Definition work_timeout_func : positive := 2%positive.

Definition delayed_timeout s w : toid := TOtimer (timeout (delayed s !!! w)).

(** [None]: the item is attached to no work queue *)
Definition work_timeout s w : option state :=
  match work_q (delayed s !!! w) with
  | Some q => Some (k_work_submit_to_queue s q w)
  | None => None
  end.

Definition k_delayed_work_init s w (h : positive) : state :=
  let s := k_work_init s w h in
  let s := set_ker s (_init_timeout (ker s) (delayed_timeout s w) (Some work_timeout_func)) in
  set_work_q s w None.

(** [fuel] bounds the search in the queue *)
Definition k_delayed_work_cancel (fuel : nat) s w : state * Z :=
  match work_q (delayed s !!! w) with
  | None => (s, - EINVAL)
  | Some q =>
      if k_work_pending s w then
        match Queue.k_queue_remove fuel (mem s) (queue_of s !!! q) w with
        | (h, queue, true) => (set_work_q (set_queue s q (ker s) h queue) w None, 0)
        | (_, _, false) => (s, - EINVAL)
        end
      else (set_work_q (set_ker s (fst (_abort_timeout (ker s) (delayed_timeout s w)))) w None, 0)
  end.

Definition k_delayed_work_submit_to_queue (fuel : nat) s q w (delay : Z) : state * Z :=
  let wq := work_q (delayed s !!! w) in
  if bool_decide (wq <> None /\ wq <> Some q) then (s, - EADDRINUSE)
  else
    let '(s, err) := if bool_decide (wq = Some q) then k_delayed_work_cancel fuel s w else (s, 0) in
    if err <? 0 then (s, err)
    else
      let s := set_work_q s w (Some q) in
      (if delay =? 0 then k_work_submit_to_queue s q w
       else set_ker s (_add_timeout timeout_func (ker s) None (delayed_timeout s w) None
                         (s32 (_TICK_ALIGN + _ms_to_ticks delay))), 0).

Definition k_delayed_work_submit (fuel : nat) s w (delay : Z) : state * Z :=
  k_delayed_work_submit_to_queue fuel s k_sys_work_q w delay.

Definition k_delayed_work_remaining_get s w : Z := Timer._timeout_remaining_get (ker s) (delayed_timeout s w).

End WorkQ.

(** ** The queue of the pending items *)

Section Proofs.
Context `{KConfig}.
Implicit Types (s : state) (q : positive) (w : SList.loc) (l : list SList.loc).
Variable tf : positive -> toid -> kernel -> kernel.

Definition pending s w : bool := abit (flags (works s !!! w)) K_WORK_STATE_PENDING.

Definition flags_ok s : Prop := forall w, words_s32 (flags (works s !!! w)) /\ length (flags (works s !!! w)) = 1%nat.

(** [l] are the items on queue [q], each marked as pending. *)
Record queue_holds s q l : Prop := {
  qh_flags : flags_ok s;
  qh_queue : Queue.queue_ok (ker s) (mem s) (queue_of s !!! q) l;
  qh_pending : forall w, w ∈ l -> pending s w = true
}.

Lemma pending_in_array s w : flags_ok s -> in_array (flags (works s !!! w)) K_WORK_STATE_PENDING.
Proof. intros Hf. unfold in_array, K_WORK_STATE_PENDING. rewrite (proj2 (Hf w)). lia. Qed.

Lemma work_pending_spec s w : flags_ok s -> k_work_pending s w = pending s w.
Proof. intros Hf. unfold k_work_pending. rewrite test_bit_spec by by apply pending_in_array. fold (pending s w). by destruct (pending s w). Qed.

Lemma set_flags_ok s w fl : flags_ok s -> words_s32 fl -> length fl = 1%nat -> flags_ok (set_flags s w fl).
Proof.
  intros Hf H1 H2 u. cbn [works set_flags]. destruct (decide (u = w)) as [->|].
  - by rewrite lookup_total_insert_eq.
  - by rewrite lookup_total_insert_ne.
Qed.

Lemma pending_set_flags s w fl u :
  pending (set_flags s w fl) u = if decide (u = w) then abit fl K_WORK_STATE_PENDING else pending s u.
Proof.
  unfold pending. cbn [works set_flags]. destruct (decide (u = w)) as [->|].
  - by rewrite lookup_total_insert_eq.
  - by rewrite lookup_total_insert_ne.
Qed.

(** Submitting an item that is pending changes nothing. *)
Lemma submit_pending s q w :
  flags_ok s -> pending s w = true ->
  let s' := k_work_submit_to_queue s q w in
  ker s' = ker s /\ mem s' = mem s /\ queue_of s' = queue_of s /\ forall u, pending s' u = pending s u.
Proof.
  intros Hf Hp. unfold k_work_submit_to_queue. pose proof (test_and_set_spec _ _ (proj1 (Hf w)) (pending_in_array s w Hf)) as Ht.
  destruct (atomic_test_and_set_bit _ _) as [fl r]. destruct Ht as (-> & _ & _ & _ & Hb). fold (pending s w). rewrite Hp. cbn [negb].
  split_and!; try done. intros u. rewrite pending_set_flags. destruct (decide (u = w)) as [->|]; [|done].
  by rewrite Hb, decide_True by (done || by apply pending_in_array).
Qed.

(** Submitting one that is not marks it and appends it to the queue. *)
Lemma submit_idle s q w :
  flags_ok s -> pending s w = false ->
  exists s1, (forall u, pending s1 u = if decide (u = w) then true else pending s u) /\ flags_ok s1 /\
    ker s1 = ker s /\ mem s1 = mem s /\ queue_of s1 = queue_of s /\ delayed s1 = delayed s /\
    k_work_submit_to_queue s q w =
      let '(k, h, queue) := Queue.k_queue_append (ker s) (mem s) (queue_of s !!! q) w in set_queue s1 q k h queue.
Proof.
  intros Hf Hp. unfold k_work_submit_to_queue. pose proof (test_and_set_spec _ _ (proj1 (Hf w)) (pending_in_array s w Hf)) as Ht.
  destruct (atomic_test_and_set_bit _ _) as [fl r]. destruct Ht as (-> & H1 & H2 & _ & Hb). fold (pending s w). rewrite Hp. cbn [negb].
  exists (set_flags s w fl). split_and!; try done.
  - intros u. rewrite pending_set_flags. destruct (decide (u = w)); [|done]. by rewrite Hb, decide_True by (done || by apply pending_in_array).
  - apply set_flags_ok; [done|done|]. rewrite H2. apply Hf.
Qed.

Lemma pending_set_queue s q k h queue u : pending (set_queue s q k h queue) u = pending s u.
Proof. done. Qed.

Lemma submit_spec s q w l :
  sys_inv (ker s) -> handling_timeouts (ker s) = false -> queue_holds s q l ->
  let s' := k_work_submit_to_queue s q w in
  if pending s w then ker s' = ker s /\ mem s' = mem s /\ queue_of s' = queue_of s /\ forall u, pending s' u = pending s u
  else
    (forall u, pending s' u = if decide (u = w) then true else pending s u) /\
    match queues (ker s) !!! Queue.wq (queue_of s !!! q) with
    | [] => ker s' = ker s /\ queue_holds s' q (l ++ [w])
    | t :: ts => l = [] /\ queue_holds s' q [] /\ queues (ker s') !!! Queue.wq (queue_of s' !!! q) = ts /\
                 swap_data (thr (ker s') t) = Zpos w /\ retval (thr (ker s') t) = 0 /\ runs_again (ker s) (ker s') t
    end.
Proof.
  intros Hs Hh [Hf Hq Hl]. cbv zeta. destruct (pending s w) eqn:Ep; [by apply submit_pending|].
  destruct (submit_idle s q w Hf Ep) as (s1 & Hp & Hf1 & Ek & Em & Eq & _ & ->).
  assert (w ∉ l) as Hw by (intros Hx; rewrite (Hl w Hx) in Ep; done).
  pose proof (Queue.append_spec (ker s) (mem s) (queue_of s !!! q) l w Hs Hh Hq Hw) as Ha.
  destruct (Queue.k_queue_append _ _ _ _) as [[k' h'] queue']. split; [done|].
  destruct (queues (ker s) !!! Queue.wq (queue_of s !!! q)) as [|t ts].
  - destruct Ha as [-> Ha]. split; [done|]. split; [done|cbn; by rewrite lookup_total_insert_eq|].
    intros u Hu. rewrite pending_set_queue, Hp. destruct (decide (u = w)); [done|].
    apply Hl. by apply elem_of_app in Hu as [Hu|Hu%list_elem_of_singleton].
  - destruct Ha as (El & Ha & Hb & Hc). split; [done|]. cbn [ker queue_of set_queue]. rewrite lookup_total_insert_eq.
    split; [split; [done|cbn; by rewrite lookup_total_insert_eq|intros u Hu; by apply elem_of_nil in Hu]|]. by split.
Qed.

(** The queue's thread takes the first item, and runs its handler when the item
    is no longer marked as pending, so that the handler can submit it again. *)
Lemma process_spec s q w l run :
  queue_holds s q (w :: l) ->
  exists s1 s2, work_q_get tf s q = (s1, Some (Zpos w)) /\ ker s1 = ker s /\ queue_holds s1 q l /\
    work_q_process run s1 (Zpos w) = set_ker (run (handler (works s !!! w)) w s2) (_impl_k_yield (ker (run (handler (works s !!! w)) w s2))) /\
    ker s2 = ker s /\ mem s2 = mem s1 /\ queue_of s2 = queue_of s1 /\
    forall u, pending s2 u = if decide (u = w) then false else pending s u.
Proof.
  intros [Hf [Hq Hw] Hl]. unfold work_q_get. pose proof (Queue.get_available tf (ker s) (mem s) (queue_of s !!! q) l w K_FOREVER Hq) as Hg.
  destruct (Queue.k_queue_get _ _ _ _ _) as [[k' queue'] r]. destruct Hg as (-> & -> & Ew & Hg).
  set (s1 := set_queue s q (ker s) (mem s) queue'). exists s1. unfold work_q_process.
  pose proof (test_and_clear_spec _ _ (proj1 (Hf w)) (pending_in_array s w Hf)) as Ht. change (works s1) with (works s).
  destruct (atomic_test_and_clear_bit _ _) as [fl r]. destruct Ht as (-> & H1 & H2 & _ & Hb). fold (pending s w). rewrite (Hl w) by left.
  exists (set_flags s1 w fl). split_and!; try done.
  - split; [done| |intros u Hu; apply Hl; by right]. cbn. rewrite lookup_total_insert_eq. split; [done|].
    intros _. unfold Queue.wq. rewrite Ew. by apply Hw.
  - intros u. rewrite pending_set_flags. change (pending s1 u) with (pending s u). destruct (decide (u = w)); [|done].
    by rewrite Hb, decide_True by (done || by apply pending_in_array).
Qed.

Lemma cancel_pending fuel s q w l :
  queue_holds s q l -> w ∈ l -> work_q (delayed s !!! w) = Some q -> (length l <= fuel)%nat ->
  exists s', k_delayed_work_cancel fuel s w = (s', 0) /\ ker s' = ker s /\
    queue_holds s' q (filter (fun u => u <> w) l) /\ (forall u, pending s' u = pending s u).
Proof.
  intros [Hf [Hq Hw] Hl] Hin Ew Hlen. unfold k_delayed_work_cancel. rewrite Ew, work_pending_spec, (Hl w Hin) by done.
  unfold Queue.k_queue_remove. pose proof (sl_find_and_remove fuel (mem s) (Queue.data_q (queue_of s !!! q)) l w Hq Hlen) as Hr.
  destruct (sys_slist_find_and_remove _ _ _ _) as [[h lst] r]. destruct Hr as [-> Hr]. rewrite bool_decide_true by done.
  eexists. split; [done|]. split; [done|]. split; [|done]. split; [done| |intros u [_ Hu]%list_elem_of_filter; by apply Hl].
  cbn. rewrite lookup_total_insert_eq. split; [done|]. intros _. apply Hw. intros ->. by apply elem_of_nil in Hin.
Qed.

(** ** The kernel's invariant *)

Lemma submit_sys s q w : sys_inv (ker s) -> sys_inv (ker (k_work_submit_to_queue s q w)).
Proof.
  intros Hs. unfold k_work_submit_to_queue. destruct (atomic_test_and_set_bit _ _) as [fl r]. destruct (negb r); [|done].
  pose proof (Queue.insert_sys (ker s) (mem s) (queue_of s !!! q) (s_tail (Queue.data_q (queue_of s !!! q))) w Hs) as Hk.
  unfold Queue.k_queue_append. cbn [ker mem queue_of set_flags]. by destruct (Queue.k_queue_insert _ _ _ _ _) as [[k h] queue].
Qed.

(** Timeouts that are not a thread's come and go without a change to the threads. *)
Lemma timer_change_sys k k' : sys_inv k -> kinv None [] k' -> tq_frame k k' -> sys_inv k'.
Proof.
  intros Hs Hk Hf. assert (queues k' = queues k) as Hq by by rewrite Hf.
  assert (forall u, thr k' u = thr k u) as Ht by (intros u; unfold thr; by rewrite Hf).
  assert (forall u, _is_thread_ready k' u = _is_thread_ready k u) as Hr by (intros u; by apply Timer.same_ready; [apply Hs|..]).
  apply (sys_shrink k); [done|done|by rewrite Hf|by rewrite Hf|apply Ht|rewrite Hr; apply Hs|]. intros u Hu. by rewrite <- Hr, Ht.
Qed.

Lemma abort_timer_spec k (m : positive) :
  sys_inv k ->
  let k' := fst (_abort_timeout k (TOtimer m)) in
  sys_inv k' /\ TOtimer m ∉ timeout_q k' ++ [] /\ tq_frame k k' /\
  expiry_list k' = filter (fun e => e.1 <> TOtimer m) (expiry_list k).
Proof.
  intros Hs k'. assert (TOtimer m ∉ (@nil toid)) as Hn by apply not_elem_of_nil. pose proof (sy_kinv _ Hs) as Hi.
  pose proof (abort_frame k (TOtimer m)) as Hf. split; [|split; [by apply (abort_off None), Hn; apply Hi|split; [done|by apply (abort_expiries None); apply Hi]]].
  apply (timer_change_sys k); [done|by apply kinv_abort|done].
Qed.

Lemma add_timer_spec k (m : positive) (n : Z) :
  sys_inv k -> TOtimer m ∉ timeout_q k ++ [] -> 0 < n < 2 ^ 31 ->
  let k' := _add_timeout tf k None (TOtimer m) None n in
  sys_inv k' /\ expiry_list k' = tq_insert (TOtimer m) n (expiry_list k).
Proof.
  intros Hs Ho Hn. destruct (kinv_add_timeout None [] k (TOtimer m) None None n tf (sy_kinv _ Hs) Ho Hn eq_refl) as (Hk & He & Hf & _).
  split; [|done]. by apply (timer_change_sys k).
Qed.

(** The item is idle or counts down for queue [q]. *)
Record counting_down s q w : Prop := {
  cd_flags : flags_ok s;
  cd_pending : pending s w = false;
  cd_queue : work_q (delayed s !!! w) = None \/ work_q (delayed s !!! w) = Some q;
  cd_detached : work_q (delayed s !!! w) = None -> delayed_timeout s w ∉ timeout_q (ker s) ++ []
}.

Lemma set_work_q_timeout s w wq : delayed_timeout (set_work_q s w wq) w = delayed_timeout s w.
Proof. unfold delayed_timeout. cbn. by rewrite lookup_total_insert_eq. Qed.

Lemma cancel_counting fuel s q w :
  sys_inv (ker s) -> flags_ok s -> pending s w = false -> work_q (delayed s !!! w) = Some q ->
  exists s', k_delayed_work_cancel fuel s w = (s', 0) /\ sys_inv (ker s') /\ works s' = works s /\ queue_of s' = queue_of s /\
    work_q (delayed s' !!! w) = None /\ delayed_timeout s' w = delayed_timeout s w /\ delayed_timeout s w ∉ timeout_q (ker s') ++ [] /\
    expiry_list (ker s') = filter (fun e => e.1 <> delayed_timeout s w) (expiry_list (ker s)).
Proof.
  intros Hs Hf Hp Ew. unfold k_delayed_work_cancel. rewrite Ew, work_pending_spec, Hp by done.
  destruct (abort_timer_spec (ker s) (timeout (delayed s !!! w)) Hs) as (H1 & H2 & _ & H3).
  eexists. split; [done|]. split; [done|]. split; [done|]. split; [done|]. split; [cbn; by rewrite lookup_total_insert_eq|].
  split; [by rewrite set_work_q_timeout|]. by split.
Qed.

Lemma work_cancel_sys fuel s w : sys_inv (ker s) -> sys_inv (ker (fst (k_delayed_work_cancel fuel s w))).
Proof.
  intros Hs. unfold k_delayed_work_cancel. destruct (work_q _) as [q|]; [|done]. destruct (k_work_pending s w).
  - by destruct (Queue.k_queue_remove _ _ _ _) as [[h queue] []].
  - apply (abort_timer_spec (ker s) (timeout (delayed s !!! w)) Hs).
Qed.

(** Without a delay the item is submitted, whatever its state. *)
Lemma submit_now_sys fuel s q w : sys_inv (ker s) -> sys_inv (ker (fst (k_delayed_work_submit_to_queue tf fuel s q w 0))).
Proof.
  intros Hs. unfold k_delayed_work_submit_to_queue. cbv zeta. case_bool_decide; [done|].
  match goal with |- context [if ?c then k_delayed_work_cancel _ _ _ else _] =>
    assert (sys_inv (ker (fst (if c then k_delayed_work_cancel fuel s w else (s, 0))))) as Hc by (destruct c; [by apply work_cancel_sys|done]);
    destruct (if c then k_delayed_work_cancel fuel s w else (s, 0)) as [s1 err] end.
  destruct (err <? 0); [done|]. by apply submit_sys.
Qed.

(** Starting a countdown: the lemma of the theorem below. *)
Lemma delayed_submit_spec fuel s q w (delay : Z) :
  sys_inv (ker s) -> counting_down s q w -> delay <> 0 -> timeout_ok delay ->
  exists s', k_delayed_work_submit_to_queue tf fuel s q w delay = (s', 0) /\ sys_inv (ker s') /\
    work_q (delayed s' !!! w) = Some q /\ pending s' w = false /\ queue_of s' = queue_of s /\
    expiry_list (ker s') = tq_insert (delayed_timeout s w) (s32 (_TICK_ALIGN + _ms_to_ticks delay))
                             (filter (fun e => e.1 <> delayed_timeout s w) (expiry_list (ker s))).
Proof.
  intros Hs [Hf Hp Hq Hd] Hne Ht. unfold k_delayed_work_submit_to_queue. rewrite bool_decide_false by (destruct Hq as [-> | ->]; naive_solver).
  assert (exists s1, (if bool_decide (work_q (delayed s !!! w) = Some q) then k_delayed_work_cancel fuel s w else (s, 0)) = (s1, 0) /\
    sys_inv (ker s1) /\ works s1 = works s /\ queue_of s1 = queue_of s /\ delayed_timeout s1 w = delayed_timeout s w /\
    delayed_timeout s w ∉ timeout_q (ker s1) ++ [] /\ expiry_list (ker s1) = filter (fun e => e.1 <> delayed_timeout s w) (expiry_list (ker s)))
    as (s1 & -> & Hs1 & Ew & Eq & Et & Ho & Ex).
  { case_bool_decide as Eq.
    - destruct (cancel_counting fuel s q w Hs Hf Hp Eq) as (s1 & E & H1 & H2 & H3 & _ & H4). by exists s1.
    - destruct Hq as [Hq|]; [|done]. exists s. specialize (Hd Hq). split_and!; try done.
      symmetry. apply expiries_off. by rewrite app_nil_r in Hd. }
  cbn [Z.ltb Z.compare]. destruct (Z.eqb_spec delay 0) as [|_]; [done|]. cbv zeta. rewrite set_work_q_timeout.
  change (ker (set_work_q s1 w (Some q))) with (ker s1). rewrite <- Et in Ho.
  destruct (add_timer_spec (ker s1) (timeout (delayed s1 !!! w)) (s32 (_TICK_ALIGN + _ms_to_ticks delay)) Hs1 Ho) as [Hk He].
  { split; [exact Ht|apply s32_range]. }
  eexists. split; [done|]. split; [exact Hk|]. split; [cbn; by rewrite lookup_total_insert_eq|].
  split; [unfold pending; cbn; by rewrite Ew|]. split; [done|]. cbn [ker set_ker]. fold (delayed_timeout s1 w) in He. by rewrite <- Ex, <- Et.
Qed.

(** ** Main theorems *)

(** C27. Outside of the handling of a tick, submitting a work item that is already
    pending has no effect; otherwise the item becomes pending and goes to the end of the
    queue or, when the work queue's thread waits for work, straight to that thread,
    which waits no more and is on its ready queue, unless it has been suspended or
    aborted. *)
Theorem work_submit_refines s q w l :
  sys_inv (ker s) -> handling_timeouts (ker s) = false -> queue_holds s q l ->
  let s' := k_work_submit_to_queue s q w in
  if pending s w then ker s' = ker s /\ mem s' = mem s /\ queue_of s' = queue_of s /\ forall u, pending s' u = pending s u
  else
    (forall u, pending s' u = if decide (u = w) then true else pending s u) /\
    match queues (ker s) !!! Queue.wq (queue_of s !!! q) with
    | [] => ker s' = ker s /\ queue_holds s' q (l ++ [w])
    | t :: ts => l = [] /\ queue_holds s' q [] /\ queues (ker s') !!! Queue.wq (queue_of s' !!! q) = ts /\
                 swap_data (thr (ker s') t) = Zpos w /\ retval (thr (ker s') t) = 0 /\ runs_again (ker s) (ker s') t
    end.
Proof. apply submit_spec. Qed.

(** [k_delayed_work_cancel] of an item that waits in its work queue takes it
    off the queue but leaves it marked as pending, so it can never be submitted
    again: every later submission is without effect. *)
Theorem cancel_loses_work fuel s q w l :
  queue_holds s q l -> w ∈ l -> work_q (delayed s !!! w) = Some q -> (length l <= fuel)%nat ->
  exists s', k_delayed_work_cancel fuel s w = (s', 0) /\ queue_holds s' q (filter (fun u => u <> w) l) /\
    forall q', let s2 := k_work_submit_to_queue s' q' w in ker s2 = ker s' /\ queue_of s2 = queue_of s' /\ pending s2 w = true.
Proof.
  intros Hh Hin Ew Hlen. destruct (cancel_pending fuel s q w l Hh Hin Ew Hlen) as (s' & E & _ & Hh' & Hp).
  exists s'. split; [done|]. split; [done|]. intros q'. assert (pending s' w = true) as Hw by (rewrite Hp; by apply (qh_pending _ _ _ Hh)).
  destruct (submit_pending s' q' w (qh_flags _ _ _ Hh') Hw) as (H1 & _ & H2 & H3). cbv zeta. by rewrite H3.
Qed.

(** Submitting a delayed item with a delay starts its countdown, and restarts
    it when the item still counts down: afterwards the item's timeout is due after
    the new delay and at no other time, every other timeout keeps its time, and
    the item is attached to the work queue. *)
Theorem delayed_submit_restarts fuel s q w (delay : Z) :
  sys_inv (ker s) -> counting_down s q w -> delay <> 0 -> timeout_ok delay ->
  exists s', k_delayed_work_submit_to_queue tf fuel s q w delay = (s', 0) /\ sys_inv (ker s') /\
    work_q (delayed s' !!! w) = Some q /\ pending s' w = false /\ queue_of s' = queue_of s /\
    expiry_list (ker s') = tq_insert (delayed_timeout s w) (s32 (_TICK_ALIGN + _ms_to_ticks delay))
                             (filter (fun e => e.1 <> delayed_timeout s w) (expiry_list (ker s))).
Proof. apply delayed_submit_spec. Qed.

End Proofs.

Section Witnesses.
Import Demo.
#[local] Existing Instance config.

(** Work item 21 is a delayed one, with timeout object 30; work queue 1. *)
Definition work0 : state :=
  mk_state k_boot ∅ {[1%positive := Queue.mk_queue sys_slist_init 9]} {[21%positive := mk_work 5 [0]]} {[21%positive := mk_delayed 30 None]}.

(** It has been submitted without a delay. *)
Definition work1 : state := fst (k_delayed_work_submit_to_queue no_tf 2 work0 1 21 0).

Lemma work0_flags : flags_ok work0.
Proof.
  intros w. cbn [works work0]. destruct (decide (w = 21%positive)) as [->|].
  - rewrite lookup_total_singleton. split; [by repeat constructor|done].
  - rewrite lookup_total_alt, lookup_singleton_ne by done. split; [by repeat constructor|done].
Qed.

Lemma work0_holds : queue_holds work0 1 [].
Proof. split; [apply work0_flags|split; [apply sl_init|done]|intros w []%elem_of_nil]. Qed.

Lemma work1_holds : queue_holds work1 1 [21%positive].
Proof.
  pose proof (submit_spec (set_work_q work0 21 (Some 1%positive)) 1 21 [] k_boot_sys ltac:(by vm_compute)) as H.
  assert (queue_holds (set_work_q work0 21 (Some 1%positive)) 1 []) as Hh by (split; apply work0_holds).
  specialize (H Hh). assert (pending (set_work_q work0 21 (Some 1%positive)) 21 = false) as Ep by by vm_compute. rewrite Ep in H.
  assert (queues k_boot !!! Queue.wq (queue_of work0 !!! 1%positive) = []) as Eq by by vm_compute.
  destruct H as [_ H]. cbn [ker queue_of set_work_q] in H. change (ker work0) with k_boot in H. rewrite Eq in H. exact (proj2 H).
Qed.

Lemma work_submit_refines_witness : queue_holds (k_work_submit_to_queue work0 1 21) 1 [21%positive].
Proof.
  pose proof (work_submit_refines work0 1 21 [] k_boot_sys ltac:(by vm_compute) work0_holds) as H.
  assert (pending work0 21 = false) as Ep by by vm_compute. rewrite Ep in H. destruct H as [_ H].
  assert (queues k_boot !!! Queue.wq (queue_of work0 !!! 1%positive) = []) as Eq by by vm_compute.
  change (ker work0) with k_boot in H. rewrite Eq in H. exact (proj2 H).
Defined.

Lemma cancel_loses_work_witness :
  exists s', k_delayed_work_cancel 2 work1 21 = (s', 0) /\ queue_of (k_work_submit_to_queue s' 1 21) = queue_of s'.
Proof.
  destruct (cancel_loses_work 2 work1 1 21 [21%positive] work1_holds) as (s' & E & _ & H); [by left|by vm_compute|simpl; lia|].
  exists s'. split; [exact E|]. apply H.
Defined.

Lemma delayed_submit_restarts_witness :
  exists s', k_delayed_work_submit_to_queue no_tf 2 work0 1 21 50 = (s', 0) /\ work_q (delayed s' !!! 21%positive) = Some 1%positive.
Proof.
  destruct (delayed_submit_restarts no_tf 2 work0 1 21 50 k_boot_sys) as (s' & E & _ & H & _).
  - split; [apply work0_flags|by vm_compute|by left; vm_compute|]. intros _. apply (bool_decide_unpack _). vm_compute. exact I.
  - done.
  - by apply timeout_ok_range.
  - exists s'. by split.
Defined.

End Witnesses.

End WorkQ.
