(* ===== verification/Alert.v ===== *)
(** * Alerts (kernel/alert.c)

    An alert is delivered by a work item of the system work queue, which calls
    the alert's handler once for every time the alert was sent; or it is counted
    in a semaphore.  The handlers are functions of the application. *)

From S2P Require Import Prelude DList ListStore Kernel Ksched ReadyQ TimeoutQ KInv Sched Thread Demo Atomic Timer Sem SList Queue WorkQ.

Local Open Scope Z_scope.

Module Alert.

(** [K_ALERT_DEFAULT], [K_ALERT_IGNORE], or a function *)
Inductive k_alert_handler := K_ALERT_DEFAULT | K_ALERT_IGNORE | alert_fn (f : positive).

(** [work_item] is the address of the work item in the alert. *)
Record k_alert := mk_alert {
  handler : k_alert_handler;
  send_count : Z;
  work_item : SList.loc;
  sem : Sem.k_sem
}.

#[export] Instance k_alert_inhabited : Inhabited k_alert := populate (mk_alert K_ALERT_IGNORE 0 1 (Sem.mk_sem 1 0 0)).

Record state := mk_state { base : WorkQ.state; alerts : gmap positive k_alert }.

Section Alert.
Context `{KConfig}.
Implicit Types (s : state) (a : positive).
Variable timeout_func : positive -> toid -> kernel -> kernel.

(** [(alert->handler)(alert)], with its result *)
Variable call : positive -> positive -> state -> state * Z.

Definition set_alert s a (x : k_alert) : state := mk_state (base s) (<[a := x]> (alerts s)).
Definition set_send_count s a (n : Z) : state :=
  let x := alerts s !!! a in set_alert s a (mk_alert (handler x) n (work_item x) (sem x)).

(** [k_sem_give(&alert->sem)] *)
Definition give_sem s a : state :=
  let x := alerts s !!! a in
  let '(k, sm) := Sem._impl_k_sem_give (WorkQ.ker (base s)) (sem x) in
  mk_state (WorkQ.set_ker (base s) k) (<[a := mk_alert (handler x) (send_count x) (work_item x) sm]> (alerts s)).

(** The body of the loop of [_alert_deliver], up to the test of the count; only
    alerts with a function get this far. *)
Definition deliver_one s a : state :=
  match handler (alerts s !!! a) with
  | alert_fn f => let '(s, r) := call f a s in if r =? 0 then s else give_sem s a
  | _ => s
  end.

(** [None] when the fuel runs out *)
Fixpoint _alert_deliver (fuel : nat) s a : option state :=
  match fuel with
  | O => None
  | S fuel =>
      let s := deliver_one s a in
      let '(new, old) := Atomic.atomic_dec (send_count (alerts s !!! a)) in
      let s := set_send_count s a new in
      if old =? 1 then Some s else _alert_deliver fuel s a
  end.

(** the handler of the work items of alerts *)
Definition alert_work_handler : positive := 1%positive.

(** [w] is the wait queue of the semaphore, [item] the address of the work item *)
Definition k_alert_init s a (h : k_alert_handler) (max_num_pending_alerts : Z) (w : positive) (item : SList.loc) : state :=
  let '(k, sm) := Sem._impl_k_sem_init (WorkQ.ker (base s)) w 0 max_num_pending_alerts in
  let b := WorkQ.set_ker (base s) k in
  let b := WorkQ.mk_state (WorkQ.ker b) (WorkQ.mem b) (WorkQ.queue_of b)
             (<[item := WorkQ.mk_work alert_work_handler [0]]> (WorkQ.works b)) (WorkQ.delayed b) in
  mk_state b (<[a := mk_alert h 0 item sm]> (alerts s)).

Definition _impl_k_alert_send s a : state :=
  match handler (alerts s !!! a) with
  | K_ALERT_IGNORE => s
  | K_ALERT_DEFAULT => give_sem s a
  | alert_fn _ =>
      let '(new, old) := Atomic.atomic_inc (send_count (alerts s !!! a)) in
      let s := set_send_count s a new in
      if old =? 0 then mk_state (WorkQ.k_work_submit (base s) (work_item (alerts s !!! a))) (alerts s) else s
  end.

Definition _impl_k_alert_recv s a (timeout : Z) : state * option Z :=
  let x := alerts s !!! a in
  let '(k, sm, r) := Sem._impl_k_sem_take timeout_func (WorkQ.ker (base s)) (sem x) timeout in
  (mk_state (WorkQ.set_ker (base s) k) (<[a := mk_alert (handler x) (send_count x) (work_item x) sm]> (alerts s)), r).

End Alert.

(** ** Theorems *)

Section Sends.
Context `{KConfig}.
Implicit Types (s : state) (a : positive).

Lemma set_alert_same s a x : alerts (set_alert s a x) !!! a = x.
Proof. apply lookup_total_insert_eq. Qed.

(** Sending [n] times. *)
Fixpoint sends (n : nat) s a : state :=
  match n with
  | O => s
  | S n => sends n (_impl_k_alert_send s a) a
  end.

Lemma send_counted s a f (c : Z) :
  handler (alerts s !!! a) = alert_fn f -> send_count (alerts s !!! a) = c -> 0 < c < 2 ^ 31 - 1 ->
  let s' := _impl_k_alert_send s a in
  base s' = base s /\ handler (alerts s' !!! a) = alert_fn f /\ send_count (alerts s' !!! a) = c + 1.
Proof.
  intros Hh Hc Hr. unfold _impl_k_alert_send. rewrite Hh. unfold Atomic.atomic_inc. rewrite Hc, (proj2 (Z.eqb_neq c 0)), s32_small by lia.
  unfold set_send_count. cbv zeta. by rewrite set_alert_same.
Qed.

Lemma sends_counted n : forall s a f (c : Z),
  handler (alerts s !!! a) = alert_fn f -> send_count (alerts s !!! a) = c -> 0 < c -> c + Z.of_nat n < 2 ^ 31 ->
  base (sends n s a) = base s /\ handler (alerts (sends n s a) !!! a) = alert_fn f /\ send_count (alerts (sends n s a) !!! a) = c + Z.of_nat n.
Proof.
  induction n as [|n IH]; intros s a f c Hh Hc H0 Hr; cbn [sends]; [split_and!; try done; lia|].
  destruct (send_counted s a f c Hh Hc ltac:(lia)) as (E1 & E2 & E3).
  destruct (IH (_impl_k_alert_send s a) a f (c + 1) E2 E3 ltac:(lia) ltac:(lia)) as (I1 & I2 & I3). split_and!; [congruence|done|lia].
Qed.

(** The first of several sends submits the work item, the others only count. *)
Lemma sends_submit n s a f :
  handler (alerts s !!! a) = alert_fn f -> send_count (alerts s !!! a) = 0 -> Z.of_nat (S n) < 2 ^ 31 ->
  let s1 := sends (S n) s a in
  base s1 = WorkQ.k_work_submit (base s) (work_item (alerts s !!! a)) /\ handler (alerts s1 !!! a) = alert_fn f /\
  send_count (alerts s1 !!! a) = Z.of_nat (S n).
Proof.
  intros Hh Hc Hr. cbn [sends]. set (s0 := _impl_k_alert_send s a).
  assert (base s0 = WorkQ.k_work_submit (base s) (work_item (alerts s !!! a)) /\ handler (alerts s0 !!! a) = alert_fn f /\
          send_count (alerts s0 !!! a) = 1) as (E1 & E2 & E3).
  { unfold s0, _impl_k_alert_send. rewrite Hh. unfold Atomic.atomic_inc, set_send_count. rewrite Hc. cbn [Z.eqb base alerts]. cbv zeta.
    by rewrite set_alert_same. }
  destruct (sends_counted n s0 a f 1 E2 E3 ltac:(lia) ltac:(lia)) as (I1 & I2 & I3). split_and!; [congruence|done|lia].
Qed.

End Sends.

Section Proofs.
Context `{KConfig}.
Implicit Types (s : state) (a : positive).
Variable call : positive -> positive -> state -> state * Z.

(** How many times the alert is sent while its handler runs, by the handler, by other
    threads or by interrupts; its record is changed in no other way meanwhile. *)
Variable late : positive -> positive -> state -> nat.
Hypothesis call_sends : forall f a s, alerts (fst (call f a s)) !!! a = alerts (sends (late f a s) s a) !!! a.

Definition late_of s a : nat := match handler (alerts s !!! a) with alert_fn f => late f a s | _ => 0 end.

Lemma deliver_one_count s a f (c : Z) :
  handler (alerts s !!! a) = alert_fn f -> send_count (alerts s !!! a) = c -> 0 < c -> c + Z.of_nat (late_of s a) < 2 ^ 31 ->
  send_count (alerts (deliver_one call s a) !!! a) = c + Z.of_nat (late_of s a) /\
  handler (alerts (deliver_one call s a) !!! a) = alert_fn f.
Proof.
  unfold late_of, deliver_one. intros Hh Hc H0 Hr. rewrite Hh in *.
  destruct (sends_counted (late f a s) s a f c Hh Hc H0 Hr) as (_ & I2 & I3).
  pose proof (call_sends f a s) as Hs. destruct (call f a s) as [s1 r]. cbn [fst] in Hs.
  destruct (r =? 0); [by rewrite Hs|]. unfold give_sem. destruct (Sem._impl_k_sem_give _ _) as [k sm].
  cbn [alerts]. rewrite lookup_total_insert_eq. cbn. by rewrite Hs.
Qed.

(** One delivery with the decrement of the count, and [n] of them. *)
Definition delivery s a : state := let s1 := deliver_one call s a in set_send_count s1 a (send_count (alerts s1 !!! a) - 1).

Fixpoint deliveries (n : nat) s a : state :=
  match n with
  | O => s
  | S n => deliveries n (delivery s a) a
  end.

(** How many times the alert is sent during the first [n] deliveries. *)
Fixpoint late_in (n : nat) s a : nat :=
  match n with
  | O => 0
  | S n => late_of s a + late_in n (delivery s a) a
  end.

(** With [c] sends that wait at the beginning and [bound] in all, the loop ends after a
    delivery for each of them, and not before. *)
Lemma deliver_spec (bound : nat) : forall fuel s a f (c : nat),
  handler (alerts s !!! a) = alert_fn f -> send_count (alerts s !!! a) = Z.of_nat c -> (0 < c)%nat ->
  (forall m, (m <= bound)%nat -> (c + late_in m s a <= bound)%nat) -> Z.of_nat bound < 2 ^ 31 -> (bound <= fuel)%nat ->
  exists n, n = (c + late_in n s a)%nat /\ (forall m, (m < n)%nat -> (m < c + late_in m s a)%nat) /\
    _alert_deliver call fuel s a = Some (deliveries n s a) /\ send_count (alerts (deliveries n s a) !!! a) = 0.
Proof.
  induction bound as [|bound IH]; intros fuel s a f c Hh Hc H0 Hb Hr Hf; [specialize (Hb 0%nat ltac:(lia)); lia|].
  destruct fuel as [|fuel]; [lia|]. pose proof (Hb 1%nat ltac:(lia)) as Hb1. cbn [late_in] in Hb1.
  destruct (deliver_one_count s a f (Z.of_nat c) Hh Hc ltac:(lia) ltac:(lia)) as [Ec Eh].
  assert (_alert_deliver call (S fuel) s a = if bool_decide (c + late_of s a = 1)%nat then Some (delivery s a) else _alert_deliver call fuel (delivery s a) a) as E.
  { cbn [_alert_deliver]. cbv zeta. unfold Atomic.atomic_dec, delivery. rewrite !Ec, s32_small by lia.
    case_bool_decide as E1; [rewrite (proj2 (Z.eqb_eq _ 1)) by lia|rewrite (proj2 (Z.eqb_neq _ 1)) by lia]; done. }
  assert (handler (alerts (delivery s a) !!! a) = alert_fn f /\ send_count (alerts (delivery s a) !!! a) = Z.of_nat (c + late_of s a - 1)) as [Dh Dc].
  { unfold delivery, set_send_count. rewrite set_alert_same, Ec. cbn [handler send_count]. split; [done|lia]. }
  rewrite E. case_bool_decide as E1.
  - exists 1%nat. cbn [late_in deliveries]. split_and!; [lia| |done|rewrite Dc; lia]. intros m Hm. assert (m = 0%nat) as -> by lia. cbn [late_in]. lia.
  - destruct (IH fuel (delivery s a) a f (c + late_of s a - 1)%nat Dh Dc ltac:(lia)) as (n & Hn & Hm & Hd & Hz); [|lia|lia|].
    { intros m Hle. specialize (Hb (S m) ltac:(lia)). cbn [late_in] in Hb. lia. }
    exists (S n). cbn [late_in deliveries]. split_and!; [lia| |done|done].
    intros [|m] Hlt; cbn [late_in]; [lia|]. specialize (Hm m ltac:(lia)). lia.
Qed.


End Proofs.

Section Witnesses.
Import Demo.
#[local] Existing Instance config.

(** Alert 1 with handler 4, which always asks for the semaphore, and sends the alert
    once more when it runs for the third time. *)
Definition alert0 : state := k_alert_init (mk_state WorkQ.work0 ∅) 1 (alert_fn 4) 10 8 22.
Definition late4 (_ a : positive) (s : state) : nat :=
  if (send_count (alerts s !!! a) =? 1) && (Sem.count (sem (alerts s !!! a)) =? 2) then 1 else 0.
Definition call4 (f a : positive) (s : state) : state * Z := (sends (late4 f a s) s a, 1).

Lemma late4_bound m : (m <= 4)%nat -> (3 + late_in call4 late4 m (sends 3 alert0 1) 1 <= 4)%nat.
Proof. intros Hm. do 5 (destruct m as [|m]; [apply (bool_decide_unpack _); vm_compute; exact I|]). lia. Qed.


End Witnesses.

End Alert.
