(* ===== verification/MsgQ.v ===== *)
(** * Message queues (kernel/msg_q.c)

    A ring buffer of [max_msgs] messages of [msg_size] bytes.  Pointers into
    the buffer are offsets from [buffer_start]; the memory of the callers is
    [mem], from an address to the [msg_size] bytes there. *)

From S2P Require Import Prelude DList ListStore Kernel Ksched ReadyQ TimeoutQ KInv Sched Thread Demo.

(** [memcpy(buf + off, data, length data)] *)
Definition splice (off : nat) (data buf : list Z) : list Z :=
  take off buf ++ data ++ drop (off + length data) buf.

Module MsgQ.

Record k_msgq := mk_msgq {
  wait_q : positive;
  msg_size : nat;
  max_msgs : nat;
  buffer : list Z;
  buffer_end : nat;
  read_ptr : nat;
  write_ptr : nat;
  used_msgs : nat
}.

Section MsgQ.
Context `{KConfig}.
Implicit Types (k : kernel) (q : k_msgq) (mem : gmap Z (list Z)).
Variable timeout_func : positive -> toid -> kernel -> kernel.

Definition wq q : qid := object_wq (wait_q q).

Definition _impl_k_msgq_init k (w : positive) (buf : list Z) (size max : nat) : kernel * k_msgq :=
  let q := mk_msgq w size max buf (max * size) 0 0 0 in
  (set_queues k (Lst.init (queues k) (wq q)), q).

(** copying a message into the buffer, and advancing [write_ptr] *)
Definition put_message q (data : list Z) : k_msgq :=
  let w := (write_ptr q + msg_size q)%nat in
  mk_msgq (wait_q q) (msg_size q) (max_msgs q) (splice (write_ptr q) data (buffer q)) (buffer_end q) (read_ptr q)
    (if decide (w = buffer_end q) then 0 else w) (used_msgs q + 1).

(** copying the first message out, and advancing [read_ptr] *)
Definition get_message q : k_msgq * list Z :=
  let r := (read_ptr q + msg_size q)%nat in
  (mk_msgq (wait_q q) (msg_size q) (max_msgs q) (buffer q) (buffer_end q)
     (if decide (r = buffer_end q) then 0 else r) (write_ptr q) (used_msgs q - 1),
   take (msg_size q) (drop (read_ptr q) (buffer q))).

(** waking a thread that waits on the queue *)
Definition wake_thread k (t : tid) (value : Z) : kernel :=
  let k := _set_thread_return_value k t value in
  let k := fst (_abort_thread_timeout k t) in
  _ready_thread k t.

(** [_current->base.swap_data = data] comes after the current thread is made
    pending, and before it is switched out. *)
Definition block_current k q (data timeout : Z) : kernel :=
  let k := _pend_current_thread timeout_func k (wq q) timeout in
  _Swap (upd_thread k (current k) (with_swap_data data)).

(** the result is [None] when the thread blocks *)
Definition _impl_k_msgq_put k mem q (data timeout : Z) : kernel * gmap Z (list Z) * k_msgq * option Z :=
  if (used_msgs q <? max_msgs q)%nat then
    match _unpend_first_thread k (wq q) with
    | (k, Some t) =>
        let mem := <[swap_data (thr k t) := mem !!! data]> mem in
        (swap_or_unlock (wake_thread k t 0), mem, q, Some 0%Z)
    | (k, None) => (k, mem, put_message q (mem !!! data), Some 0%Z)
    end
  else if (timeout =? K_NO_WAIT)%Z then (k, mem, q, Some (- ENOMSG)%Z)
  else (block_current k q data timeout, mem, q, None).

Definition _impl_k_msgq_get k mem q (data timeout : Z) : kernel * gmap Z (list Z) * k_msgq * option Z :=
  if (0 <? used_msgs q)%nat then
    let '(q, msg) := get_message q in
    let mem := <[data := msg]> mem in
    match _unpend_first_thread k (wq q) with
    | (k, Some t) =>
        let q := put_message q (mem !!! swap_data (thr k t)) in
        (swap_or_unlock (wake_thread k t 0), mem, q, Some 0%Z)
    | (k, None) => (k, mem, q, Some 0%Z)
    end
  else if (timeout =? K_NO_WAIT)%Z then (k, mem, q, Some (- ENOMSG)%Z)
  else (block_current k q data timeout, mem, q, None).

(** The loop of [k_msgq_purge]; each turn unpends a thread. *)
Fixpoint purge_waiters (fuel : nat) k q : kernel :=
  match fuel with
  | O => k
  | S fuel =>
      match _unpend_first_thread k (wq q) with
      | (k, Some t) => purge_waiters fuel (wake_thread k t (- ENOMSG)) q
      | (k, None) => k
      end
  end.

Definition _impl_k_msgq_purge k q : kernel * k_msgq :=
  let k := purge_waiters (S (length (queues k !!! wq q))) k q in
  (_reschedule_threads k,
   mk_msgq (wait_q q) (msg_size q) (max_msgs q) (buffer q) (buffer_end q) (write_ptr q) (write_ptr q) 0).

Definition _impl_k_msgq_num_free_get q : nat := max_msgs q - used_msgs q.
Definition _impl_k_msgq_num_used_get q : nat := used_msgs q.

End MsgQ.

(** ** The ring buffer holds a sequence *)

Section Ring.
Implicit Types (q : k_msgq) (data buf : list Z).

Definition slot q (i : nat) : list Z := take (msg_size q) (drop (i * msg_size q) (buffer q)).

Fixpoint slots q (r n : nat) : list (list Z) :=
  match n with
  | O => []
  | S n => slot q (r mod max_msgs q) :: slots q (r + 1) n
  end.

(** [read_ptr] and [write_ptr] are the bounds of the messages in the ring. *)
Record ring_ok q (r : nat) : Prop := {
  rg_size : 0 < msg_size q;
  rg_max : 0 < max_msgs q;
  rg_len : length (buffer q) = max_msgs q * msg_size q;
  rg_end : buffer_end q = max_msgs q * msg_size q;
  rg_r : r < max_msgs q;
  rg_read : read_ptr q = r * msg_size q;
  rg_used : used_msgs q <= max_msgs q;
  rg_write : write_ptr q = ((r + used_msgs q) mod max_msgs q) * msg_size q
}.

(** The messages in the queue, the oldest first. *)
Definition contents q (r : nat) : list (list Z) := slots q r (used_msgs q).

Lemma length_splice off data buf :
  off + length data <= length buf -> length (splice off data buf) = length buf.
Proof. intros Hl. unfold splice. rewrite !length_app, length_take, length_drop. lia. Qed.

Lemma lookup_splice off data buf i :
  off + length data <= length buf ->
  splice off data buf !! i = if decide (off <= i < off + length data) then data !! (i - off) else buf !! i.
Proof.
  intros Hl. unfold splice. case_decide as E.
  - rewrite lookup_app_r by (rewrite length_take; lia). rewrite length_take, lookup_app_l by lia. f_equal. lia.
  - destruct (decide (i < off)).
    + rewrite lookup_app_l by (rewrite length_take; lia). by rewrite lookup_take_lt.
    + rewrite lookup_app_r by (rewrite length_take; lia). rewrite length_take.
      rewrite lookup_app_r by lia. rewrite lookup_drop. f_equal. lia.
Qed.

Lemma slot_lookup q i j : j < msg_size q -> slot q i !! j = buffer q !! (i * msg_size q + j).
Proof. intros Hj. unfold slot. rewrite lookup_take_lt by done. by rewrite lookup_drop. Qed.

Lemma length_slot q r i : ring_ok q r -> i < max_msgs q -> length (slot q i) = msg_size q.
Proof.
  intros Hr Hi. unfold slot. rewrite length_take, length_drop, (rg_len _ _ Hr).
  assert (i * msg_size q + msg_size q <= max_msgs q * msg_size q) by nia. lia.
Qed.

Lemma slot_ext q (i : nat) (l : list Z) :
  length (slot q i) = msg_size q -> length l = msg_size q ->
  (forall j, j < msg_size q -> buffer q !! (i * msg_size q + j) = l !! j) -> slot q i = l.
Proof.
  intros H1 H2 Hj. apply list_eq. intros j. destruct (decide (j < msg_size q)) as [Hlt|Hge].
  - rewrite slot_lookup by done. by apply Hj.
  - rewrite !lookup_ge_None_2 by lia. done.
Qed.

(** Writing one slot leaves the others alone. *)
Lemma slot_write q q' r w i data :
  ring_ok q r -> length data = msg_size q -> w < max_msgs q -> i < max_msgs q ->
  msg_size q' = msg_size q -> buffer q' = splice (w * msg_size q) data (buffer q) ->
  slot q' i = if decide (i = w) then data else slot q i.
Proof.
  intros Hr Hd Hw Hi Hs Hb. pose proof (rg_len _ _ Hr) as Hlen. pose proof (rg_size _ _ Hr) as Hsz.
  assert (forall x, x < max_msgs q -> x * msg_size q + msg_size q <= max_msgs q * msg_size q) as Hfit by (intros; nia).
  pose proof (Hfit w Hw). pose proof (Hfit i Hi).
  apply slot_ext; [| |intros j Hj; rewrite Hb, lookup_splice by lia].
  - unfold slot. rewrite Hb, Hs, length_take, length_drop, length_splice by lia. lia.
  - rewrite Hs. case_decide; [done|]. by eapply length_slot.
  - rewrite Hs in *. rewrite Hd. destruct (decide (i = w)) as [->|Hne].
    + rewrite decide_True by lia. f_equal. lia.
    + rewrite decide_False; [by rewrite slot_lookup|].
      destruct (decide (i < w)).
      * assert (i * msg_size q + msg_size q <= w * msg_size q) by nia. lia.
      * assert (w * msg_size q + msg_size q <= i * msg_size q) by nia. lia.
Qed.

Lemma length_slots q r n : length (slots q r n) = n.
Proof. revert r. induction n as [|n IH]; intros r; simpl; [done|]. by rewrite IH. Qed.

Lemma slots_snoc q r n : slots q r (S n) = slots q r n ++ [slot q ((r + n) mod max_msgs q)].
Proof.
  revert r. induction n as [|n IH]; intros r.
  - simpl. by rewrite Nat.add_0_r.
  - cbn [slots] in IH |- *. rewrite IH. by replace (r + 1 + n) with (r + S n) by lia.
Qed.

Lemma slots_ext q q' r n :
  max_msgs q' = max_msgs q -> (forall j, j < n -> slot q' ((r + j) mod max_msgs q) = slot q ((r + j) mod max_msgs q)) ->
  slots q' r n = slots q r n.
Proof.
  intros Hm. revert r. induction n as [|n IH]; intros r Hs; simpl; [done|]. rewrite Hm. f_equal.
  - specialize (Hs 0 ltac:(lia)). by rewrite Nat.add_0_r in Hs.
  - apply IH. intros j Hj. replace (r + 1 + j) with (r + (S j)) by lia. apply Hs. lia.
Qed.

Lemma wrap_ptr (i max size : nat) :
  0 < size -> i < max ->
  (if decide (i * size + size = max * size) then 0 else i * size + size) = ((i + 1) mod max) * size.
Proof.
  intros Hs Hi. destruct (decide (i + 1 = max)) as [<-|Hne].
  - rewrite decide_True by lia. by rewrite Nat.Div0.mod_same.
  - rewrite decide_False by nia. rewrite Nat.mod_small by lia. lia.
Qed.

(** Distinct positions of the ring. *)
Lemma mod_ne (r a b max : nat) : a < b -> b < a + max -> (r + a) mod max <> (r + b) mod max.
Proof.
  intros Hab Hm E. assert (max <> 0) as Hz by lia.
  pose proof (Nat.div_mod (r + a) max Hz). pose proof (Nat.div_mod (r + b) max Hz).
  rewrite E in *. assert ((r + b) / max - (r + a) / max = 0 \/ 1 <= (r + b) / max - (r + a) / max) as [|] by lia; nia.
Qed.

Lemma put_message_ok q r data :
  ring_ok q r -> used_msgs q < max_msgs q -> length data = msg_size q ->
  ring_ok (put_message q data) r /\ contents (put_message q data) r = contents q r ++ [data].
Proof.
  intros Hr Hu Hd. pose proof Hr as [R1 R2 R3 R4 R5 R6 R7 R8].
  set (w := (r + used_msgs q) mod max_msgs q). assert (w < max_msgs q) as Hw by (apply Nat.mod_upper_bound; lia).
  assert (w * msg_size q + msg_size q <= max_msgs q * msg_size q) as Hfit by nia.
  split.
  - split; cbn [msg_size max_msgs buffer buffer_end read_ptr write_ptr used_msgs put_message]; try done; try lia.
    + rewrite length_splice; [done|]. rewrite R8. fold w. lia.
    + rewrite R4, R8. fold w. rewrite wrap_ptr by lia. f_equal. unfold w.
      rewrite Nat.add_assoc. by rewrite Nat.Div0.add_mod_idemp_l.
  - unfold contents. cbn [used_msgs put_message]. rewrite Nat.add_1_r, slots_snoc.
    assert (forall i, i < max_msgs q -> slot (put_message q data) i = if decide (i = w) then data else slot q i) as Hsl.
    { intros i Hi. apply (slot_write q _ r); try done. cbn [buffer put_message]. by rewrite R8. }
    f_equal.
    + apply slots_ext; [done|]. intros j Hj. rewrite Hsl by (apply Nat.mod_upper_bound; lia).
      rewrite decide_False; [done|]. unfold w. apply mod_ne; lia.
    + cbn [max_msgs put_message]. fold w. rewrite Hsl by done. by rewrite decide_True.
Qed.

Lemma get_message_ok q r :
  ring_ok q r -> 0 < used_msgs q ->
  let r' := (r + 1) mod max_msgs q in
  ring_ok (fst (get_message q)) r' /\
  contents q r = snd (get_message q) :: contents (fst (get_message q)) r'.
Proof.
  intros Hr Hu r'. pose proof Hr as [R1 R2 R3 R4 R5 R6 R7 R8].
  assert (r' < max_msgs q) as Hr' by (apply Nat.mod_upper_bound; lia).
  split.
  - split; cbn [fst msg_size max_msgs buffer buffer_end read_ptr write_ptr used_msgs get_message]; try done; try lia.
    + rewrite R4, R6. by rewrite wrap_ptr by lia.
    + rewrite R8. f_equal. unfold r'. rewrite Nat.Div0.add_mod_idemp_l. f_equal. lia.
  - unfold contents. cbn [fst snd used_msgs get_message]. destruct (used_msgs q) as [|n] eqn:En; [lia|].
    cbn [slots]. f_equal; [unfold slot; by rewrite Nat.mod_small, R6 by lia|].
    replace (S n - 1) with n by lia. clear.
    assert (forall n a b, a mod max_msgs q = b mod max_msgs q -> slots q a n = slots q b n) as Hmod.
    { clear. induction n as [|n IH]; intros a b E; simpl; [done|]. rewrite E. f_equal. apply IH.
      rewrite (Nat.Div0.add_mod a), (Nat.Div0.add_mod b), E. done. }
    transitivity (slots q r' n).
    + apply Hmod. unfold r'. by rewrite Nat.Div0.mod_mod.
    + symmetry. apply slots_ext; done.
Qed.

End Ring.

(** ** The queue in the kernel *)

Section Proofs.
Context `{KConfig}.
Implicit Types (k : kernel) (q : k_msgq) (mem : gmap Z (list Z)) (t : tid).
Variable tf : positive -> toid -> kernel -> kernel.

Lemma wake_handoff k t (v : Z) : wake_thread (_unpend_thread k t) t v = handoff k t (with_retval v).
Proof. reflexivity. Qed.

Lemma wake_kinv k w t (v : Z) :
  kinv None [] k -> _find_first_thread_to_unpend k (WQ w) None = Some t ->
  kinv None [] (handoff k t (with_retval v)) /\ keeps k (handoff k t (with_retval v)).
Proof.
  intros Hi Hf. destruct (find_first_kinv [] k w t Hi (or_introl eq_refl) Hf) as (_ & Hp & HE). by apply handoff_kinv.
Qed.

Lemma block_sys k q (data timeout : Z) :
  sys_inv k -> current k <> idle_thread -> wait_ok timeout -> timeout <> K_NO_WAIT ->
  sys_inv (block_current tf k q data timeout).
Proof.
  intros [H1 H2 _] Hc Ht Hn. unfold block_current. cbv zeta. apply Swap_sys, kinv_upd_other; [done|done|].
  apply pend_current_kinv; [done|done|done|]. by apply object_wait.
Qed.

Lemma msgq_put_sys k mem q (data timeout : Z) :
  sys_inv k -> current k <> idle_thread -> wait_ok timeout ->
  sys_inv (fst (fst (fst (_impl_k_msgq_put tf k mem q data timeout)))).
Proof.
  intros Hs Hc Ht. unfold _impl_k_msgq_put. destruct (_ <? _)%nat.
  - unfold _unpend_first_thread. destruct (_find_first_thread_to_unpend k (wq q) None) as [t|] eqn:Ef; [|done].
    cbn [fst]. rewrite wake_handoff. destruct (wake_kinv k _ t 0 (sy_kinv _ Hs) Ef) as [Hk Hkp].
    by apply (service_swap k).
  - destruct (Z.eqb_spec timeout K_NO_WAIT); [done|]. by apply block_sys.
Qed.

Lemma msgq_get_sys k mem q (data timeout : Z) :
  sys_inv k -> current k <> idle_thread -> wait_ok timeout ->
  sys_inv (fst (fst (fst (_impl_k_msgq_get tf k mem q data timeout)))).
Proof.
  intros Hs Hc Ht. unfold _impl_k_msgq_get. destruct (_ <? _)%nat.
  - cbn [get_message]. unfold _unpend_first_thread. set (q' := mk_msgq _ _ _ _ _ _ _ _).
    destruct (_find_first_thread_to_unpend k (wq q') None) as [t|] eqn:Ef; [|done].
    cbn [fst]. rewrite wake_handoff. destruct (wake_kinv k _ t 0 (sy_kinv _ Hs) Ef) as [Hk Hkp].
    by apply (service_swap k).
  - destruct (Z.eqb_spec timeout K_NO_WAIT); [done|]. by apply block_sys.
Qed.

Lemma purge_waiters_kinv fuel : forall k q,
  kinv None [] k -> kinv None [] (purge_waiters fuel k q) /\ keeps k (purge_waiters fuel k q).
Proof.
  induction fuel as [|fuel IH]; intros k q Hi; [split; [done|apply keeps_refl]|]. cbn [purge_waiters].
  unfold _unpend_first_thread. destruct (_find_first_thread_to_unpend k (wq q) None) as [t|] eqn:Ef;
    [|split; [done|apply keeps_refl]].
  rewrite wake_handoff. destruct (wake_kinv k _ t (- ENOMSG) Hi Ef) as [Hk Hkp].
  destruct (IH _ q Hk) as [Hk2 Hkp2]. split; [done|]. by eapply keeps_trans.
Qed.

Lemma purge_sys k q : sys_inv k -> sys_inv (fst (_impl_k_msgq_purge k q)).
Proof.
  intros [H1 H2 H3]. unfold _impl_k_msgq_purge. cbn [fst].
  destruct (purge_waiters_kinv (S (length (queues k !!! wq q))) k q H1) as [Hk (Ec & _ & _ & Er)].
  apply resched_sys; [done|]. rewrite Ec. auto.
Qed.

(** Threads wait only on a full or on an empty queue. *)
Record msgq_ok k q (r : nat) : Prop := {
  mq_ring : ring_ok q r;
  mq_waiters : 0 < used_msgs q < max_msgs q -> queues k !!! wq q = []
}.

Lemma swap_or_unlock_queues k : queues (swap_or_unlock k) = queues k.
Proof. unfold swap_or_unlock. by destruct (_ && _). Qed.

(** [k_msgq_put] on a queue that is not full: the message goes to the first
    thread that waits for one, or at the end of the queue. *)
Lemma put_spec k mem q r (data timeout : Z) :
  msgq_ok k q r -> handling_timeouts k = false -> used_msgs q < max_msgs q -> length (mem !!! data) = msg_size q ->
  let '(k', mem', q', res) := _impl_k_msgq_put tf k mem q data timeout in
  res = Some 0%Z /\ ring_ok q' r /\
  match queues k !!! wq q with
  | [] => k' = k /\ mem' = mem /\ contents q' r = contents q r ++ [mem !!! data]
  | t :: l => q' = q /\ contents q r = [] /\ mem' !!! swap_data (thr k t) = mem !!! data
  end.
Proof.
  intros [Hr Hw] Hh Hu Hd. unfold _impl_k_msgq_put. destruct (Nat.ltb_spec (used_msgs q) (max_msgs q)); [|lia].
  rewrite unpend_first_head by done. destruct (queues k !!! wq q) as [|t l] eqn:Hq.
  - destruct (put_message_ok q r (mem !!! data) Hr Hu Hd) as [H1 H2]. done.
  - split; [done|]. split; [done|]. split; [done|]. split.
    + unfold contents. destruct (used_msgs q) as [|n]; [done|]. by discriminate Hw; lia.
    + assert (swap_data (thr (_unpend_thread k t) t) = swap_data (thr k t)) as ->.
      { unfold _unpend_thread, _mark_thread_as_not_pending, _reset_thread_states. by rewrite thr_upd_same. }
      by rewrite lookup_total_insert_eq.
Qed.

(** [k_msgq_get] on a queue with messages: the oldest one is copied out; the
    message of the first thread that waits to write takes its place at the
    end. *)
Lemma get_spec k mem q r (data timeout : Z) :
  msgq_ok k q r -> handling_timeouts k = false -> 0 < used_msgs q ->
  (forall t, t ∈ queues k !!! wq q -> swap_data (thr k t) <> data /\ length (mem !!! swap_data (thr k t)) = msg_size q) ->
  let '(k', mem', q', res) := _impl_k_msgq_get tf k mem q data timeout in
  res = Some 0%Z /\ exists msg rest, contents q r = msg :: rest /\ mem' !!! data = msg /\
  let r' := (r + 1) mod max_msgs q in
  ring_ok q' r' /\
  contents q' r' = rest ++ match queues k !!! wq q with [] => [] | t :: _ => [mem !!! swap_data (thr k t)] end.
Proof.
  intros [Hr Hw] Hh Hu Hdat. unfold _impl_k_msgq_get. destruct (Nat.ltb_spec 0 (used_msgs q)); [|lia].
  destruct (get_message_ok q r Hr Hu) as [G1 G2]. destruct (get_message q) as [q1 msg] eqn:Eg. cbn [fst snd] in *.
  assert (wq q1 = wq q /\ msg_size q1 = msg_size q /\ max_msgs q1 = max_msgs q /\ used_msgs q1 = used_msgs q - 1) as (Ew & Es & Em & Eu)
    by (by injection Eg as <- _).
  rewrite Ew, unpend_first_head by done. destruct (queues k !!! wq q) as [|t l] eqn:Hq.
  - split; [done|]. exists msg, (contents q1 ((r + 1) mod max_msgs q)). rewrite app_nil_r.
    split; [done|]. split; [by rewrite lookup_total_insert_eq|]. done.
  - split; [done|]. exists msg, (contents q1 ((r + 1) mod max_msgs q)).
    split; [done|]. split; [by rewrite lookup_total_insert_eq|].
    assert (swap_data (thr (_unpend_thread k t) t) = swap_data (thr k t)) as ->.
    { unfold _unpend_thread, _mark_thread_as_not_pending, _reset_thread_states. by rewrite thr_upd_same. }
    destruct (Hdat t ltac:(left)) as [Hne Hlen]. rewrite lookup_total_insert_ne by congruence.
    apply put_message_ok; [done|rewrite Eu, Em; pose proof (rg_used _ _ Hr); lia|by rewrite Es].
Qed.

(** ** Main theorems *)

Lemma block_current_wq k q (data timeout : Z) :
  sys_inv k -> wait_ok timeout -> timeout <> K_NO_WAIT ->
  queues (block_current tf k q data timeout) !!! wq q = ins_prio (fun u => prio (thr k u)) (current k) (queues k !!! wq q).
Proof. intros Hs Ht Hn. unfold wq. exact (pend_object_wq tf k (wait_q q) timeout Hs Ht Hn). Qed.

(** A thread that waits on the queue is woken with the result 0. *)
Lemma wake_first k q t l :
  sys_inv k -> queues k !!! wq q = t :: l ->
  let k' := swap_or_unlock (wake_thread (_unpend_thread k t) t 0) in
  queues k' !!! wq q = l /\ retval (thr k' t) = 0%Z /\ _is_thread_pending k' t = false.
Proof.
  intros Hs Hq k'. unfold k'. clear k'. rewrite wake_handoff.
  destruct (waiter_not_current k (xO (wait_q q)) t Hs) as [Hne Hp].
  { change (t ∈ queues k !!! wq q). rewrite Hq. left. }
  destruct (handoff_kinv (with_retval 0) ltac:(done) ltac:(done) [] k t (sy_kinv _ Hs) Hp) as [_ (Ec & _)]; [apply not_elem_of_nil|].
  pose proof (service_served (with_retval 0) k (handoff k t (with_retval 0)) t ltac:(by rewrite Ec)
    (handoff_served (with_retval 0) ltac:(done) k t)) as Hsv.
  split; [exact (served_first _ k _ t _ l (sy_kinv _ Hs) Hq Hsv)|].
  split; [by apply (sw_value _ _ _ _ Hsv retval)|apply Hsv].
Qed.

(** C15. [k_msgq_put] on a queue that is not full appends the message or hands it
    to the first thread that waits for one; on a full queue it fails with
    [-ENOMSG] for a caller that cannot wait and otherwise queues the caller. *)
Theorem msgq_put_refines k mem q r (data timeout : Z) :
  sys_inv k -> msgq_ok k q r -> handling_timeouts k = false -> wait_ok timeout -> length (mem !!! data) = msg_size q ->
  let '(k', mem', q', res) := _impl_k_msgq_put tf k mem q data timeout in
  if (used_msgs q <? max_msgs q)%nat then
    res = Some 0%Z /\ ring_ok q' r /\
    match queues k !!! wq q with
    | [] => k' = k /\ mem' = mem /\ contents q' r = contents q r ++ [mem !!! data]
    | t :: l => q' = q /\ contents q r = [] /\ mem' !!! swap_data (thr k t) = mem !!! data /\
                queues k' !!! wq q = l /\ retval (thr k' t) = 0%Z /\ _is_thread_pending k' t = false
    end
  else mem' = mem /\ q' = q /\
    if (timeout =? K_NO_WAIT)%Z then k' = k /\ res = Some (- ENOMSG)%Z
    else res = None /\ queues k' !!! wq q = ins_prio (fun u => prio (thr k u)) (current k) (queues k !!! wq q).
Proof.
  intros Hs Hq Hh Ht Hd. destruct (Nat.ltb_spec (used_msgs q) (max_msgs q)) as [Hlt|Hge].
  - pose proof (put_spec k mem q r data timeout Hq Hh Hlt Hd) as Hp. unfold _impl_k_msgq_put in *.
    destruct (Nat.ltb_spec (used_msgs q) (max_msgs q)); [|lia]. rewrite unpend_first_head in * by done.
    destruct (queues k !!! wq q) as [|t l] eqn:Ew; [exact Hp|]. destruct Hp as (H1 & H2 & H3 & H4 & H5).
    split_and!; [done..| | |]; by apply (wake_first k q t l).
  - unfold _impl_k_msgq_put. destruct (Nat.ltb_spec (used_msgs q) (max_msgs q)); [lia|].
    destruct (Z.eqb_spec timeout K_NO_WAIT); [done|]. split_and!; try done. by apply block_current_wq.
Qed.

(** C16. [k_msgq_get] on a queue with messages copies the oldest one out and puts
    the message of the first thread that waits to write at the end; on an
    empty queue it fails with [-ENOMSG] or queues the caller. *)
Theorem msgq_get_refines k mem q r (data timeout : Z) :
  sys_inv k -> msgq_ok k q r -> handling_timeouts k = false -> wait_ok timeout ->
  (forall t, t ∈ queues k !!! wq q -> swap_data (thr k t) <> data /\ length (mem !!! swap_data (thr k t)) = msg_size q) ->
  let '(k', mem', q', res) := _impl_k_msgq_get tf k mem q data timeout in
  match contents q r with
  | msg :: rest =>
      let r' := ((r + 1) mod max_msgs q)%nat in
      res = Some 0%Z /\ mem' !!! data = msg /\ ring_ok q' r' /\
      contents q' r' = rest ++ match queues k !!! wq q with [] => [] | t :: _ => [mem !!! swap_data (thr k t)] end
  | [] => mem' = mem /\ q' = q /\
      if (timeout =? K_NO_WAIT)%Z then k' = k /\ res = Some (- ENOMSG)%Z
      else res = None /\ queues k' !!! wq q = ins_prio (fun u => prio (thr k u)) (current k) (queues k !!! wq q)
  end.
Proof.
  intros Hs Hq Hh Ht Hd. destruct (contents q r) as [|msg rest] eqn:Ec.
  - assert (used_msgs q = 0) as E0 by (unfold contents in Ec; by destruct (used_msgs q)).
    unfold _impl_k_msgq_get. rewrite E0. cbn [Nat.ltb Nat.leb].
    destruct (Z.eqb_spec timeout K_NO_WAIT); [done|]. split_and!; try done. by apply block_current_wq.
  - assert (0 < used_msgs q) as Hu by (unfold contents in Ec; destruct (used_msgs q); [done|lia]).
    pose proof (get_spec k mem q r data timeout Hq Hh Hu Hd) as Hg.
    destruct (_impl_k_msgq_get tf k mem q data timeout) as [[[k' mem'] q'] res].
    destruct Hg as (-> & msg' & rest' & E & Hm & Hr & Hc). rewrite Ec in E. by injection E as <- <-.
Qed.

End Proofs.

Section Witnesses.
Import Demo.
#[local] Existing Instance config.

(** Two slots of two bytes, one message in the second. *)
Definition msgq9 : k_msgq := mk_msgq 9 2 2 [0; 0; 5; 6]%Z 4 2 0 1.
Definition mem9 : gmap Z (list Z) := {[ 100%Z := [7; 8]%Z ]}.

Lemma msgq9_ok : msgq_ok k_wait msgq9 1.
Proof. split; [split; simpl; (lia || reflexivity)|intros _; vm_compute; reflexivity]. Qed.

Lemma msgq_put_refines_witness :
  let '(k', mem', q', res) := _impl_k_msgq_put no_tf k_wait mem9 msgq9 100 K_NO_WAIT in
  res = Some 0%Z /\ contents q' 1 = [[5; 6]; [7; 8]]%Z.
Proof.
  pose proof (msgq_put_refines no_tf k_wait mem9 msgq9 1 100 K_NO_WAIT k_wait_sys msgq9_ok ltac:(vm_compute; reflexivity)
    (or_introl eq_refl) ltac:(vm_compute; reflexivity)) as H.
  assert (queues k_wait !!! wq msgq9 = []) as E by (vm_compute; reflexivity). rewrite E in H.
  destruct (_impl_k_msgq_put no_tf k_wait mem9 msgq9 100 K_NO_WAIT) as [[[k' mem'] q'] res].
  destruct H as (H1 & _ & _ & _ & H2). split; [exact H1|]. rewrite H2. vm_compute. reflexivity.
Defined.

Lemma msgq_get_refines_witness :
  let '(k', mem', q', res) := _impl_k_msgq_get no_tf k_wait mem9 msgq9 200 K_NO_WAIT in
  res = Some 0%Z /\ mem' !!! 200%Z = [5; 6]%Z /\ contents q' 0 = [].
Proof.
  pose proof (msgq_get_refines no_tf k_wait mem9 msgq9 1 200 K_NO_WAIT k_wait_sys msgq9_ok ltac:(vm_compute; reflexivity)
    (or_introl eq_refl)) as H.
  assert (queues k_wait !!! wq msgq9 = []) as E by (vm_compute; reflexivity). rewrite E in H.
  assert (contents msgq9 1 = [[5; 6]%Z]) as Ec by (vm_compute; reflexivity). rewrite Ec in H.
  specialize (H (fun t Ht => False_ind _ (not_elem_of_nil t Ht))).
  destruct (_impl_k_msgq_get no_tf k_wait mem9 msgq9 200 K_NO_WAIT) as [[[k' mem'] q'] res].
  destruct H as (H1 & H2 & _ & H3).
  split; [exact H1|]. split; [exact H2|exact H3].
Defined.

End Witnesses.
End MsgQ.
