(* ===== verification/Stack.v ===== *)
(** * Stacks (kernel/stack.c)

    A stack of 32-bit words; [base], [next] and [top] are indices into the
    caller's buffer. *)

From S2P Require Import Prelude DList ListStore Kernel Ksched ReadyQ TimeoutQ KInv Sched Thread Demo.

Local Open Scope Z_scope.

Module Stack.

Record k_stack := mk_stack { wait_q : positive; buffer : list Z; next : nat; top : nat }.

Section Stack.
Context `{KConfig}.
Implicit Types (k : kernel) (stack : k_stack).
Variable timeout_func : positive -> toid -> kernel -> kernel.

Definition wq stack : qid := object_wq (wait_q stack).

Definition _impl_k_stack_init k (w : positive) (buf : list Z) (num_entries : nat) : kernel * k_stack :=
  let stack := mk_stack w buf 0 num_entries in
  (set_queues k (Lst.init (queues k) (wq stack)), stack).

(** [None]: the write is outside the buffer ([__ASSERT(next != top)]). *)
Definition _impl_k_stack_push k stack (data : Z) : option (kernel * k_stack) :=
  match _unpend_first_thread k (wq stack) with
  | (k, Some t) =>
      let k := fst (_abort_thread_timeout k t) in
      let k := _ready_thread k t in
      let k := _set_thread_return_value_with_data k t 0 data in
      Some (if negb (_is_in_isr k) && _must_switch_threads k then _Swap k else k, stack)
  | (k, None) =>
      if (next stack <? top stack)%nat
      then Some (k, mk_stack (wait_q stack) (<[next stack := u32 data]> (buffer stack)) (S (next stack)) (top stack))
      else None
  end.

(** The result and the data popped; [None] when the thread blocks. *)
Definition _impl_k_stack_pop k stack (timeout : Z) : kernel * k_stack * option (Z * option Z) :=
  if (0 <? next stack)%nat then
    let n := (next stack - 1)%nat in
    (k, mk_stack (wait_q stack) (buffer stack) n (top stack), Some (0, buffer stack !! n))
  else if timeout =? K_NO_WAIT then (k, stack, Some (- EBUSY, None))
  else (_Swap (_pend_current_thread timeout_func k (wq stack) timeout), stack, None).

(** the rest of the call when the thread runs again *)
Definition k_stack_pop_resume k : Z * option Z :=
  let result := retval (thr k (current k)) in
  (result, if result =? 0 then Some (u32 (swap_data (thr k (current k)))) else None).

End Stack.

(** ** Theorems *)

Section Proofs.
Context `{KConfig}.
Implicit Types (k : kernel) (stack : k_stack) (t : tid).
Variable tf : positive -> toid -> kernel -> kernel.

(** The words pushed, the last one first; words wait only without readers. *)
Record stack_ok k stack (items : list Z) : Prop := {
  st_len : length (buffer stack) = top stack;
  st_next : (next stack <= top stack)%nat;
  st_items : items = reverse (take (next stack) (buffer stack));
  st_waiters : items <> [] -> queues k !!! wq stack = []
}.

Definition pushed k t (data : Z) : kernel :=
  woken k t (fun x => with_swap_data data (with_retval 0 x)).

Lemma push_found k stack (data : Z) t :
  _find_first_thread_to_unpend k (wq stack) None = Some t ->
  _impl_k_stack_push k stack data =
  Some (swap_or_unlock (pushed k t data), stack).
Proof.
  intros Hf. unfold _impl_k_stack_push, _unpend_first_thread. rewrite Hf. cbv zeta. rewrite value_with_data. reflexivity.
Qed.

Lemma push_sys k stack (data : Z) k' stack' :
  sys_inv k -> _impl_k_stack_push k stack data = Some (k', stack') -> sys_inv k'.
Proof.
  intros Hs. destruct (_find_first_thread_to_unpend k (wq stack) None) as [t|] eqn:Ef.
  - rewrite (push_found _ _ _ _ Ef).
    destruct (find_first_kinv [] k _ t (sy_kinv _ Hs) (or_introl eq_refl) Ef) as (_ & Hp & HE).
    destruct (woken_kinv (fun x => with_swap_data data (with_retval 0 x)) ltac:(done) ltac:(done) [] k t (sy_kinv _ Hs) Hp HE)
      as [Hk Hkp]. fold (pushed k t data) in Hk, Hkp.
    pose proof (service_swap k _ Hs Hk Hkp) as Hend. revert Hend. generalize (pushed k t data). by intros k1 ? [= <- _].
  - unfold _impl_k_stack_push, _unpend_first_thread. rewrite Ef. destruct (_ <? _)%nat; [|done]. by intros [= <- _].
Qed.

Lemma pop_sys k stack (timeout : Z) :
  sys_inv k -> current k <> idle_thread -> wait_ok timeout ->
  sys_inv (fst (fst (_impl_k_stack_pop tf k stack timeout))).
Proof.
  intros Hs Hc Ht. unfold _impl_k_stack_pop. destruct (_ <? _)%nat; [done|].
  destruct (Z.eqb_spec timeout K_NO_WAIT); [done|]. cbn [fst].
  by apply pend_object_sys.
Qed.

(** Pushing on a stack with room and no reader; popping a word. *)
Lemma push_spec k stack items (data : Z) :
  stack_ok k stack items -> handling_timeouts k = false -> queues k !!! wq stack = [] ->
  (next stack < top stack)%nat ->
  exists stack', _impl_k_stack_push k stack data = Some (k, stack') /\ wait_q stack' = wait_q stack /\
    stack_ok k stack' (u32 data :: items).
Proof.
  intros [S1 S2 S3 S4] Hh Hq Hn. unfold _impl_k_stack_push, _unpend_first_thread, _find_first_thread_to_unpend, Lst.peek_head.
  rewrite Hh, Hq. cbn [head]. destruct (Nat.ltb_spec (next stack) (top stack)); [|lia].
  eexists. split; [done|]. split; [done|]. split; cbn [buffer next top wait_q]; [|lia| |by intros _].
  - by rewrite length_insert.
  - rewrite (take_S_r _ _ (u32 data)), reverse_snoc, S3 by (apply list_lookup_insert_eq; lia).
    rewrite take_insert_ge by lia. done.
Qed.

Lemma pop_spec k stack items (data timeout : Z) :
  stack_ok k stack (data :: items) ->
  exists stack', _impl_k_stack_pop tf k stack timeout = (k, stack', Some (0, Some data)) /\
    wait_q stack' = wait_q stack /\ (next stack' < top stack')%nat /\ stack_ok k stack' items.
Proof.
  intros [S1 S2 S3 S4]. unfold _impl_k_stack_pop.
  destruct (next stack) as [|n] eqn:En; [by rewrite take_0 in S3|]. cbn [Nat.ltb Nat.leb Nat.sub]. rewrite Nat.sub_0_r.
  destruct (lookup_lt_is_Some_2 (buffer stack) n) as [x Hx]; [lia|].
  rewrite (take_S_r _ _ x), reverse_snoc in S3 by done. injection S3 as -> ->.
  eexists. rewrite Hx. split; [done|]. split; [done|]. split; [simpl; lia|]. split; cbn [buffer next top]; [done|lia|done|].
  intros _. by apply S4.
Qed.

(** ** Main theorems *)

(** [k_stack_push] puts the word on the stack or, when threads wait, gives it
    to the first of them; a push with no room and no waiter would write past
    the buffer, which the code only asserts not to happen. *)
Theorem stack_push_refines k stack items (data : Z) :
  sys_inv k -> stack_ok k stack items -> handling_timeouts k = false ->
  match queues k !!! wq stack with
  | [] => if (next stack <? top stack)%nat
          then exists stack', _impl_k_stack_push k stack data = Some (k, stack') /\ stack_ok k stack' (u32 data :: items)
          else _impl_k_stack_push k stack data = None
  | t :: l => exists k', _impl_k_stack_push k stack data = Some (k', stack) /\ items = [] /\
          queues k' !!! wq stack = l /\ swap_data (thr k' t) = data /\ retval (thr k' t) = 0 /\ _is_thread_pending k' t = false
  end.
Proof.
  intros Hs Hok Hh. destruct (queues k !!! wq stack) as [|t l] eqn:Hq.
  - destruct (Nat.ltb_spec (next stack) (top stack)) as [Hlt|Hge].
    + destruct (push_spec k stack items data Hok Hh Hq Hlt) as (stack' & ? & _ & ?). by exists stack'.
    + unfold _impl_k_stack_push. rewrite unpend_first_head, Hq by done. by destruct (Nat.ltb_spec (next stack) (top stack)); [lia|].
  - exists (swap_or_unlock (pushed k t data)). split.
    { apply push_found. unfold _find_first_thread_to_unpend, Lst.peek_head. by rewrite Hh, Hq. }
    split; [destruct items; [done|]; by rewrite (st_waiters _ _ _ Hok) in Hq|].
    destruct (waiter_not_current k (xO (wait_q stack)) t Hs) as [Hne Hp].
    { change (t ∈ queues k !!! wq stack). rewrite Hq. left. }
    set (f := fun x => with_swap_data data (with_retval 0 x)).
    destruct (woken_kinv f ltac:(done) ltac:(done) [] k t (sy_kinv _ Hs) Hp) as [_ (Ec & _)]; [apply not_elem_of_nil|].
    pose proof (service_served f k (pushed k t data) t ltac:(unfold pushed; fold f; by rewrite Ec) (woken_served f ltac:(done) k t)) as Hsv.
    split; [exact (served_first _ k _ t _ l (sy_kinv _ Hs) Hq Hsv)|].
    split; [by apply (sw_value _ _ _ _ Hsv swap_data)|]. split; [by apply (sw_value _ _ _ _ Hsv retval)|apply Hsv].
Qed.

(** A push followed by a pop returns the pushed word, as 32 bits, and leaves
    the stack as it was. *)
Theorem push_pop_roundtrip k stack items (data timeout : Z) :
  stack_ok k stack items -> handling_timeouts k = false -> queues k !!! wq stack = [] -> (next stack < top stack)%nat ->
  exists stack' stack'', _impl_k_stack_push k stack data = Some (k, stack') /\
    _impl_k_stack_pop tf k stack' timeout = (k, stack'', Some (0, Some (u32 data))) /\ stack_ok k stack'' items.
Proof.
  intros Hok Hh Hq Hn. destruct (push_spec k stack items data Hok Hh Hq Hn) as (stack' & E & _ & Hok').
  destruct (pop_spec k stack' items (u32 data) timeout Hok') as (stack'' & E' & _ & _ & Hok''). by exists stack', stack''.
Qed.

End Proofs.

Section Witnesses.
Import Demo.
#[local] Existing Instance config.

Definition stack7 : k_stack := mk_stack 7 [0; 0; 0] 0 3.
Definition stack9 : k_stack := mk_stack 9 [11; 12; 0] 2 3.

Lemma stack7_ok k : stack_ok k stack7 [].
Proof. split; [done|simpl; lia|done|done]. Qed.

Lemma stack9_ok : stack_ok k_wait stack9 [12; 11].
Proof. split; [done|simpl; lia|done|intros _; vm_compute; reflexivity]. Qed.

Lemma stack_push_refines_witness :
  exists k', _impl_k_stack_push k_wait stack7 33 = Some (k', stack7) /\ swap_data (thr k' 3) = 33.
Proof.
  pose proof (stack_push_refines k_wait stack7 [] 33 k_wait_sys (stack7_ok _) ltac:(vm_compute; reflexivity)) as H.
  assert (queues k_wait !!! wq stack7 = [3%positive; 4%positive]) as E by (vm_compute; reflexivity). rewrite E in H.
  destruct H as (k' & H1 & _ & _ & H2 & _). exists k'. split; [exact H1|exact H2].
Defined.

Lemma push_pop_roundtrip_witness :
  exists stack' stack'', _impl_k_stack_push k_wait stack9 33 = Some (k_wait, stack') /\
    _impl_k_stack_pop no_tf k_wait stack' K_NO_WAIT = (k_wait, stack'', Some (0, Some (u32 33))).
Proof.
  destruct (push_pop_roundtrip no_tf k_wait stack9 [12; 11] 33 K_NO_WAIT stack9_ok) as (s' & s'' & H1 & H2 & _).
  - vm_compute. reflexivity.
  - vm_compute. reflexivity.
  - simpl. lia.
  - exists s', s''. split; [exact H1|exact H2].
Defined.

End Witnesses.
End Stack.
