(* ===== verification/MemSlab.v ===== *)
(** * Memory slabs (kernel/mem_slab.c)

    Blocks are addresses; the first word of a free block points to the next
    free block, 0 being [NULL].  [mem] is the memory of those words. *)

From S2P Require Import Prelude DList ListStore Kernel Ksched ReadyQ TimeoutQ KInv Sched Thread Demo.

Local Open Scope Z_scope.

Module MemSlab.

Record k_mem_slab := mk_slab {
  wait_q : positive;
  num_blocks : nat;
  block_size : Z;
  buffer : Z;
  free_list : Z;
  num_used : Z
}.

Abbreviation memory := (gmap Z Z).

Section MemSlab.
Context `{KConfig}.
Implicit Types (k : kernel) (slab : k_mem_slab) (mem : memory).
Variable timeout_func : positive -> toid -> kernel -> kernel.

Definition wq slab : qid := object_wq (wait_q slab).

Definition set_free slab (fl used : Z) : k_mem_slab :=
  mk_slab (wait_q slab) (num_blocks slab) (block_size slab) (buffer slab) fl used.

(** The [for] loop of [create_free_list]: [n] blocks are left, [p] is the
    next one. *)
Fixpoint free_loop (n : nat) mem (fl p size : Z) : memory * Z :=
  match n with
  | O => (mem, fl)
  | S n => free_loop n (<[p := fl]> mem) p (p + size) size
  end.

Definition create_free_list mem slab : memory * k_mem_slab :=
  let '(mem, fl) := free_loop (num_blocks slab) mem 0 (buffer slab) (block_size slab) in
  (mem, set_free slab fl (num_used slab)).

Definition k_mem_slab_init k mem (w : positive) (buf size : Z) (blocks : nat) : kernel * memory * k_mem_slab :=
  let slab := mk_slab w blocks size buf 0 0 in
  let '(mem, slab) := create_free_list mem slab in
  (set_queues k (Lst.init (queues k) (wq slab)), mem, slab).

(** The result and [*mem]; [None] when the thread blocks. *)
Definition k_mem_slab_alloc k mem slab (timeout : Z) : kernel * k_mem_slab * option (Z * option Z) :=
  if negb (free_list slab =? 0) then
    (k, set_free slab (mem !!! free_list slab) (u32 (num_used slab + 1)), Some (0, Some (free_list slab)))
  else if timeout =? K_NO_WAIT then (k, slab, Some (- ENOMEM, Some 0))
  else (_Swap (_pend_current_thread timeout_func k (wq slab) timeout), slab, None).

Definition k_mem_slab_alloc_resume k : Z * option Z :=
  let result := retval (thr k (current k)) in
  (result, if result =? 0 then Some (swap_data (thr k (current k))) else None).

Definition k_mem_slab_free k mem slab (block : Z) : kernel * memory * k_mem_slab :=
  match _unpend_first_thread k (wq slab) with
  | (k, Some t) =>
      let k := _set_thread_return_value_with_data k t 0 block in
      let k := fst (_abort_thread_timeout k t) in
      let k := _ready_thread k t in
      (if _must_switch_threads k then _Swap k else k, mem, slab)
  | (k, None) => (k, <[block := free_list slab]> mem, set_free slab block (u32 (num_used slab - 1)))
  end.

Definition k_mem_slab_num_used_get slab : Z := num_used slab.
Definition k_mem_slab_num_free_get slab : Z := u32 (Z.of_nat (num_blocks slab) - num_used slab).

End MemSlab.

(** ** The free list *)

Section FreeList.
Implicit Types (mem : memory) (l : list Z).

(** [fl] points to the chain of the blocks [l]. *)
Fixpoint chain mem (fl : Z) l : Prop :=
  match l with
  | [] => fl = 0
  | b :: l => fl = b /\ b <> 0 /\ chain mem (mem !!! b) l
  end.

Lemma chain_frame mem fl l b x : b ∉ l -> chain mem fl l -> chain (<[b := x]> mem) fl l.
Proof.
  revert fl. induction l as [|a l IH]; intros fl Hb; [done|]. simpl. intros (-> & Ha & Hc).
  apply not_elem_of_cons in Hb as [Hne Hb]. rewrite lookup_total_insert_ne by done. auto.
Qed.

Lemma chain_nil mem fl l : chain mem fl l -> fl = 0 <-> l = [].
Proof. destruct l; simpl; [tauto|]. intros (-> & Hb & _). done. Qed.

(** The blocks of a slab: [n] addresses [size] apart from [p]. *)
Fixpoint blocks (n : nat) (p size : Z) : list Z :=
  match n with
  | O => []
  | S n => p :: blocks n (p + size) size
  end.

Lemma elem_of_blocks n p size b :
  b ∈ blocks n p size <-> exists j, (j < n)%nat /\ b = p + Z.of_nat j * size.
Proof.
  revert p. induction n as [|n IH]; intros p; simpl.
  - rewrite elem_of_nil. split; [done|]. intros (j & ? & _). lia.
  - rewrite elem_of_cons, IH. split.
    + intros [->|(j & Hj & ->)]; [exists 0%nat; lia|exists (S j); lia].
    + intros ([|j] & Hj & ->); [left; lia|right; exists j; lia].
Qed.

Lemma NoDup_blocks n p size : 0 < size -> NoDup (blocks n p size).
Proof.
  intros Hs. revert p. induction n as [|n IH]; intros p; simpl; [constructor|]. apply NoDup_cons.
  split; [|apply IH]. rewrite elem_of_blocks. intros (j & _ & E). nia.
Qed.

(** The loop chains all the blocks, the last one first. *)
Lemma free_loop_chain n : forall mem fl p size l,
  0 < size -> (forall b, b ∈ blocks n p size -> b <> 0 /\ b ∉ l) -> chain mem fl l ->
  let '(mem', fl') := free_loop n mem fl p size in chain mem' fl' (rev (blocks n p size) ++ l).
Proof.
  induction n as [|n IH]; intros mem fl p size l Hs Hb Hc; [done|]. simpl.
  specialize (IH (<[p := fl]> mem) p (p + size) size (p :: l) Hs).
  destruct (free_loop n (<[p := fl]> mem) p (p + size) size) as [mem' fl'].
  rewrite <- app_assoc. apply IH.
  - intros b Hin. destruct (Hb b) as [H1 H2]; [by right|]. split; [done|]. apply not_elem_of_cons. split; [|done].
    pose proof (NoDup_blocks (S n) p size Hs) as Hnd. simpl in Hnd. apply NoDup_cons in Hnd as [Hnd _].
    intros ->. done.
  - simpl. destruct (Hb p ltac:(left)) as [H1 H2]. rewrite lookup_total_insert_eq.
    split; [done|]. split; [done|]. by apply chain_frame.
Qed.

End FreeList.

(** ** Theorems *)

Section Proofs.
Context `{KConfig}.
Implicit Types (k : kernel) (slab : k_mem_slab) (mem : memory) (t : tid).
Variable tf : positive -> toid -> kernel -> kernel.

(** The free blocks [l] are distinct blocks of the slab, the others are used;
    a block is free only when no thread waits for one. *)
Record slab_ok k mem slab (l : list Z) : Prop := {
  sb_size : 0 < block_size slab;
  sb_num : Z.of_nat (num_blocks slab) < 2 ^ 32;
  sb_nonnull : forall b, b ∈ blocks (num_blocks slab) (buffer slab) (block_size slab) -> b <> 0;
  sb_chain : chain mem (free_list slab) l;
  sb_nodup : NoDup l;
  sb_blocks : forall b, b ∈ l -> b ∈ blocks (num_blocks slab) (buffer slab) (block_size slab);
  sb_used : num_used slab = Z.of_nat (num_blocks slab) - Z.of_nat (length l);
  sb_waiters : l <> [] -> queues k !!! wq slab = []
}.

Lemma length_blocks n p size : length (blocks n p size) = n.
Proof. revert p. induction n as [|n IH]; intros p; simpl; [done|]. by rewrite IH. Qed.

(** A free block is one of the slab: there are no more than [num_blocks]. *)
Lemma slab_free_bound k mem slab l : slab_ok k mem slab l -> (length l <= num_blocks slab)%nat.
Proof.
  intros Hs. rewrite <- (length_blocks (num_blocks slab) (buffer slab) (block_size slab)).
  apply submseteq_length, NoDup_submseteq; apply Hs.
Qed.

Lemma init_ok k mem (w : positive) (buf size : Z) (n : nat) :
  0 < size -> Z.of_nat n < 2 ^ 32 -> (forall b, b ∈ blocks n buf size -> b <> 0) ->
  let '(k', mem', slab) := k_mem_slab_init k mem w buf size n in
  slab_ok k' mem' slab (rev (blocks n buf size)).
Proof.
  intros Hs Hn Hb. unfold k_mem_slab_init, create_free_list. cbn [num_blocks buffer block_size].
  pose proof (free_loop_chain n mem 0 buf size [] Hs) as Hc.
  destruct (free_loop n mem 0 buf size) as [mem' fl]. rewrite app_nil_r in Hc.
  split; cbn [block_size num_blocks buffer free_list num_used set_free]; try done.
  - apply Hc; [|done]. intros b Hin. split; [by apply Hb|apply not_elem_of_nil].
  - rewrite <- Permutation_rev. by apply NoDup_blocks.
  - intros b. by rewrite elem_of_rev.
  - rewrite length_rev, length_blocks. lia.
  - intros _. cbn [queues set_queues]. apply lookup_total_insert_eq.
Qed.

Lemma alloc_spec k mem slab b l (timeout : Z) :
  slab_ok k mem slab (b :: l) ->
  exists slab', k_mem_slab_alloc tf k mem slab timeout = (k, slab', Some (0, Some b)) /\
    slab_ok k mem slab' l /\ b ∉ l /\ num_used slab' = num_used slab + 1.
Proof.
  intros Hs. pose proof (slab_free_bound _ _ _ _ Hs) as Hlen. destruct Hs as [S1 S2 S3 S4 S5 S6 S7 S8].
  unfold k_mem_slab_alloc. destruct S4 as (-> & Hb & Hc). apply NoDup_cons in S5 as [S5 S5'].
  destruct (Z.eqb_spec b 0); [done|]. cbn [negb].
  eexists. split; [done|]. cbn [length] in *.
  assert (u32 (num_used slab + 1) = num_used slab + 1) as E by (apply u32_small; lia).
  split; [split|split]; cbn [block_size num_blocks buffer free_list num_used set_free wait_q]; try done.
  - intros x Hx. apply S6. by right.
  - rewrite E. lia.
  - intros _. by apply S8.
Qed.

Lemma free_spec k mem slab l (b : Z) :
  slab_ok k mem slab l -> handling_timeouts k = false -> queues k !!! wq slab = [] ->
  b ∈ blocks (num_blocks slab) (buffer slab) (block_size slab) -> b ∉ l ->
  let '(k', mem', slab') := k_mem_slab_free k mem slab b in
  k' = k /\ slab_ok k mem' slab' (b :: l).
Proof.
  intros Hs Hh Hq Hb Hl.
  assert (length (b :: l) <= num_blocks slab)%nat as Hlen.
  { rewrite <- (length_blocks (num_blocks slab) (buffer slab) (block_size slab)).
    apply submseteq_length, NoDup_submseteq; [apply NoDup_cons; split; [done|apply Hs]|].
    intros x [->|Hx]%elem_of_cons; [done|by apply Hs]. }
  destruct Hs as [S1 S2 S3 S4 S5 S6 S7 S8].
  unfold k_mem_slab_free, _unpend_first_thread, _find_first_thread_to_unpend, Lst.peek_head. rewrite Hh, Hq. cbn [head].
  split; [done|]. cbn [length] in Hlen.
  split; cbn [block_size num_blocks buffer free_list num_used set_free wait_q]; try done.
  - simpl. rewrite lookup_total_insert_eq. split; [done|]. split; [by apply S3|]. by apply chain_frame.
  - by apply NoDup_cons.
  - intros x [->|Hx]%elem_of_cons; auto.
  - rewrite u32_small by lia. simpl. lia.
Qed.

(** At thread level (the function does not check for an ISR). *)
Lemma free_sys k mem slab (b : Z) :
  sys_inv k -> sys_inv (fst (fst (k_mem_slab_free k mem slab b))).
Proof.
  intros Hs. unfold k_mem_slab_free, _unpend_first_thread.
  destruct (_find_first_thread_to_unpend k (wq slab) None) as [t|] eqn:Ef; [|done]. cbn [fst].
  destruct (find_first_kinv [] k _ t (sy_kinv _ Hs) (or_introl eq_refl) Ef) as (_ & Hp & HE).
  destruct (handoff_kinv (fun x => with_swap_data b (with_retval 0 x)) ltac:(done) ltac:(done) [] k t (sy_kinv _ Hs) Hp HE)
    as [Hk (Ec & _ & _ & Er)].
  set (k1 := handoff _ _ _) in *.
  assert (_ready_thread (fst (_abort_thread_timeout (_set_thread_return_value_with_data (_unpend_thread k t) t 0 b) t)) t = k1) as ->.
  { unfold k1, handoff. by rewrite value_with_data. }
  pose proof (resched_sys k1 Hk) as Hend. unfold _reschedule_threads in Hend. apply Hend. rewrite Ec. apply Er, Hs.
Qed.

Lemma alloc_sys k mem slab (timeout : Z) :
  sys_inv k -> current k <> idle_thread -> wait_ok timeout ->
  sys_inv (fst (fst (k_mem_slab_alloc tf k mem slab timeout))).
Proof.
  intros Hs Hc Ht. unfold k_mem_slab_alloc. destruct (negb _); [done|].
  destruct (Z.eqb_spec timeout K_NO_WAIT); [done|]. cbn [fst].
  by apply pend_object_sys.
Qed.

(** ** Main theorems *)

(** [k_mem_slab_init] chains every block of the buffer exactly once. *)
Theorem slab_init_chains_all k mem (w : positive) (buf size : Z) (n : nat) :
  0 < size -> Z.of_nat n < 2 ^ 32 -> (forall b, b ∈ blocks n buf size -> b <> 0) ->
  let '(k', mem', slab) := k_mem_slab_init k mem w buf size n in
  slab_ok k' mem' slab (rev (blocks n buf size)) /\ k_mem_slab_num_used_get slab = 0.
Proof.
  intros H1 H2 H3. pose proof (init_ok k mem w buf size n H1 H2 H3) as Hi.
  unfold k_mem_slab_init, create_free_list in *. cbn [num_blocks buffer block_size] in *.
  by destruct (free_loop n mem 0 buf size) as [mem' fl].
Qed.

(** [k_mem_slab_alloc] takes the first free block, which is then in use and
    on the free list no more; with no free block it fails with [-ENOMEM] or
    queues the caller. *)
Theorem slab_alloc_refines k mem slab l (timeout : Z) :
  sys_inv k -> slab_ok k mem slab l -> wait_ok timeout ->
  let '(k', slab', r) := k_mem_slab_alloc tf k mem slab timeout in
  match l with
  | b :: rest => k' = k /\ r = Some (0, Some b) /\ slab_ok k mem slab' rest /\ b ∉ rest /\
                 num_used slab' = num_used slab + 1
  | [] => slab' = slab /\
          if timeout =? K_NO_WAIT then k' = k /\ r = Some (- ENOMEM, Some 0)
          else r = None /\ queues k' !!! wq slab = ins_prio (fun u => prio (thr k u)) (current k) (queues k !!! wq slab)
  end.
Proof.
  intros Hs Hok Ht. destruct l as [|b rest].
  - unfold k_mem_slab_alloc. rewrite (proj2 (chain_nil _ _ _ (sb_chain _ _ _ _ Hok)) eq_refl). cbn [negb Z.eqb].
    destruct (Z.eqb_spec timeout K_NO_WAIT); [done|]. split; [done|]. split; [done|]. by apply pend_object_wq.
  - destruct (alloc_spec k mem slab b rest timeout Hok) as (slab' & -> & ? & ? & ?). done.
Qed.

(** Freeing a block that is in use, with nobody waiting, makes it the next
    one to be allocated, and an allocation then restores the slab. *)
Theorem slab_free_alloc_roundtrip k mem slab l (b timeout : Z) :
  slab_ok k mem slab l -> handling_timeouts k = false -> queues k !!! wq slab = [] ->
  b ∈ blocks (num_blocks slab) (buffer slab) (block_size slab) -> b ∉ l ->
  let '(k', mem', slab') := k_mem_slab_free k mem slab b in
  k' = k /\ slab_ok k mem' slab' (b :: l) /\
  exists slab'', k_mem_slab_alloc tf k mem' slab' timeout = (k, slab'', Some (0, Some b)) /\ slab_ok k mem' slab'' l.
Proof.
  intros Hok Hh Hq Hb Hl. pose proof (free_spec k mem slab l b Hok Hh Hq Hb Hl) as Hf.
  destruct (k_mem_slab_free k mem slab b) as [[k' mem'] slab']. destruct Hf as [-> Hf]. split; [done|]. split; [done|].
  destruct (alloc_spec k mem' slab' b l timeout Hf) as (slab'' & ? & ? & _). by exists slab''.
Qed.

End Proofs.

Section Witnesses.
Import Demo.
#[local] Existing Instance config.

Definition slab_state : kernel * memory * k_mem_slab := k_mem_slab_init k_boot ∅ 9 1000 16 3.

Lemma blocks_nonnull : forall b, b ∈ blocks 3 1000 16 -> b <> 0.
Proof. intros b. rewrite elem_of_blocks. intros (j & _ & ->). lia. Qed.

Lemma slab_init_chains_all_witness :
  let '(k', mem', slab) := slab_state in slab_ok k' mem' slab [1032; 1016; 1000] /\ k_mem_slab_num_used_get slab = 0.
Proof. exact (slab_init_chains_all k_boot ∅ 9 1000 16 3 ltac:(lia) ltac:(lia) blocks_nonnull). Defined.

Definition slab9 : k_mem_slab := mk_slab 9 3 16 1000 1016 1.
Definition mem9 : memory := {[ 1016 := 1000; 1000 := 0 ]}.

Lemma slab9_ok : slab_ok k_wait mem9 slab9 [1016; 1000].
Proof.
  split; try done.
  - apply blocks_nonnull.
  - apply (bool_decide_unpack _). vm_compute. exact I.
  - intros b Hb. apply elem_of_cons in Hb as [->|Hb]; [|apply list_elem_of_singleton in Hb as ->];
      apply (bool_decide_unpack _); vm_compute; exact I.
Qed.

Lemma slab_alloc_refines_witness :
  let '(k', slab', r) := k_mem_slab_alloc no_tf k_wait mem9 slab9 K_NO_WAIT in r = Some (0, Some 1016).
Proof.
  pose proof (slab_alloc_refines no_tf k_wait mem9 slab9 [1016; 1000] K_NO_WAIT k_wait_sys slab9_ok (or_introl eq_refl)) as H.
  destruct (k_mem_slab_alloc no_tf k_wait mem9 slab9 K_NO_WAIT) as [[k' slab'] r]. apply H.
Defined.

Lemma slab_free_alloc_roundtrip_witness :
  let '(k', mem', slab') := k_mem_slab_free k_wait mem9 slab9 1032 in
  exists slab'', k_mem_slab_alloc no_tf k_wait mem' slab' K_NO_WAIT = (k_wait, slab'', Some (0, Some 1032)).
Proof.
  pose proof (slab_free_alloc_roundtrip no_tf k_wait mem9 slab9 [1016; 1000] 1032 K_NO_WAIT slab9_ok
    ltac:(vm_compute; reflexivity) ltac:(vm_compute; reflexivity)
    ltac:(apply (bool_decide_unpack _); vm_compute; exact I) ltac:(apply (bool_decide_unpack _); vm_compute; exact I)) as H.
  destruct (k_mem_slab_free k_wait mem9 slab9 1032) as [[k' mem'] slab']. destruct H as (_ & _ & slab'' & H & _).
  exists slab''. exact H.
Defined.

End Witnesses.
End MemSlab.
