(* ===== verification/LibC.v ===== *)
(** * The minimal C library: memory and strings
    (lib/libc/minimal/source/string/string.c, strstr.c, strncasecmp.c)

    The routines on a memory of bytes.  A loop over a string has fuel, since the
    terminating zero may be missing; the theorems give the result for a string
    that has it.  The routines that copy or fill by words are shown to be the
    byte by byte ones. *)

From S2P Require Import Prelude.

Local Open Scope Z_scope.

Module LibC.

(** Memory: the byte at each address. *)
Abbreviation memory := (gmap Z Z).
Implicit Types (m : memory) (d s p q : Z) (n : nat).

(** [*(unsigned char * )p], [*(char * )p] with [char] signed, and the store *)
Definition ld8 m p : Z := u8 (m !!! p).
Definition ldc m p : Z := s8 (m !!! p).
Definition st8 m p (v : Z) : memory := <[p := u8 v]> m.

(** a little-endian word *)
Definition ld32 m p : Z := ld8 m p + 2 ^ 8 * (ld8 m (p + 1) + 2 ^ 8 * (ld8 m (p + 2) + 2 ^ 8 * ld8 m (p + 3))).
Definition st32 m p (v : Z) : memory :=
  st8 (st8 (st8 (st8 m p v) (p + 1) (Z.shiftr v 8)) (p + 2) (Z.shiftr v 16)) (p + 3) (Z.shiftr v 24).

(** ** Memory areas *)

Fixpoint copy_bytes n m d s : memory :=
  match n with
  | O => m
  | S n => copy_bytes n (st8 m d (ld8 m s)) (d + 1) (s + 1)
  end.

(** from the last byte to the first *)
Fixpoint copy_backwards n m d s : memory :=
  match n with
  | O => m
  | S n => copy_backwards n (st8 m (d + Z.of_nat n) (ld8 m (s + Z.of_nat n))) d s
  end.

Definition memmove m d s n : memory :=
  if u32 (d - s) <? Z.of_nat n then copy_backwards n m d s else copy_bytes n m d s.

(** Bytes until [d] is aligned; [None] as the rest when [n] runs out first. *)
Fixpoint copy_to_aligned n m d s : memory * option (Z * Z * nat) :=
  if Z.land d 3 =? 0 then (m, Some (d, s, n))
  else match n with
       | O => (m, None)
       | S n => copy_to_aligned n (st8 m d (ld8 m s)) (d + 1) (s + 1)
       end.

Fixpoint copy_words n m d s : memory * Z * Z * nat :=
  match n with
  | S (S (S (S n))) => copy_words n (st32 m d (ld32 m s)) (d + 4) (s + 4)
  | _ => (m, d, s, n)
  end.

Definition memcpy m d s n : memory :=
  if Z.land (Z.lxor d s) 3 =? 0 then
    match copy_to_aligned n m d s with
    | (m, None) => m
    | (m, Some (d, s, n)) =>
        let '(m, d, s, n) := copy_words n m d s in
        copy_bytes n m d s
    end
  else copy_bytes n m d s.

Fixpoint set_bytes n m p (c : Z) : memory :=
  match n with
  | O => m
  | S n => set_bytes n (st8 m p c) (p + 1) c
  end.

Fixpoint set_to_aligned n m p (c : Z) : memory * option (Z * nat) :=
  if Z.land p 3 =? 0 then (m, Some (p, n))
  else match n with
       | O => (m, None)
       | S n => set_to_aligned n (st8 m p c) (p + 1) c
       end.

Fixpoint set_words n m p (w : Z) : memory * Z * nat :=
  match n with
  | S (S (S (S n))) => set_words n (st32 m p w) (p + 4) w
  | _ => (m, p, n)
  end.

Definition memset m p (c : Z) n : memory :=
  match set_to_aligned n m p (u8 c) with
  | (m, None) => m
  | (m, Some (p, n)) =>
      let w := u8 c in
      let w := Z.lor w (u32 (Z.shiftl w 8)) in
      let w := Z.lor w (u32 (Z.shiftl w 16)) in
      let '(m, p, n) := set_words n m p w in
      set_bytes n m p (u8 c)
  end.

(** the loop of [memcmp], after the test for [n = 0] *)
Fixpoint memcmp_loop n m p q : Z :=
  match n with
  | O => ldc m p - ldc m q
  | S n => if ldc m p =? ldc m q then memcmp_loop n m (p + 1) (q + 1) else ldc m p - ldc m q
  end.

Definition memcmp m p q n : Z := match n with O => 0 | S n => memcmp_loop n m p q end.

Fixpoint memchr m p (c : Z) n : option Z :=
  match n with
  | O => None
  | S n => if ld8 m p =? u8 c then Some p else memchr m (p + 1) c n
  end.

(** ** Strings *)

Fixpoint strlen (fuel : nat) m s : option Z :=
  match fuel with
  | O => None
  | S fuel => if ldc m s =? 0 then Some 0 else option_map Z.succ (strlen fuel m (s + 1))
  end.

Fixpoint strcpy (fuel : nat) m d s : option memory :=
  match fuel with
  | O => None
  | S fuel => if ldc m s =? 0 then Some (st8 m d 0) else strcpy fuel (st8 m d (ldc m s)) (d + 1) (s + 1)
  end.

Fixpoint strncpy m d s n : memory :=
  match n with
  | O => m
  | S n' => if ldc m s =? 0 then set_bytes n m d 0 else strncpy (st8 m d (ldc m s)) (d + 1) (s + 1) n'
  end.

Fixpoint strchr (fuel : nat) m s (c : Z) : option (option Z) :=
  match fuel with
  | O => None
  | S fuel =>
      if negb (ldc m s =? s8 c) && negb (ldc m s =? 0) then strchr fuel m (s + 1) c
      else Some (if ldc m s =? s8 c then Some s else None)
  end.

Fixpoint strrchr_loop (fuel : nat) m s (c : Z) (found : option Z) : option (option Z) :=
  match fuel with
  | O => None
  | S fuel =>
      let found := if ldc m s =? s8 c then Some s else found in
      if ldc m s =? 0 then Some found else strrchr_loop fuel m (s + 1) c found
  end.

Definition strrchr (fuel : nat) m s (c : Z) : option (option Z) := strrchr_loop fuel m s c None.

Fixpoint strcmp (fuel : nat) m p q : option Z :=
  match fuel with
  | O => None
  | S fuel =>
      if (ldc m p =? ldc m q) && negb (ldc m p =? 0) then strcmp fuel m (p + 1) (q + 1)
      else Some (ldc m p - ldc m q)
  end.

Fixpoint strncmp m p q n : Z :=
  match n with
  | O => 0
  | S n => if (ldc m p =? ldc m q) && negb (ldc m p =? 0) then strncmp m (p + 1) (q + 1) n else ldc m p - ldc m q
  end.

Definition strcat (fuel : nat) m d s : option memory :=
  match strlen fuel m d with
  | None => None
  | Some len => strcpy fuel m (d + len) s
  end.

Fixpoint strncat_loop m d s n : memory :=
  match n with
  | O => st8 m d 0
  | S n => if ldc m s =? 0 then st8 m d 0 else strncat_loop (st8 m d (ldc m s)) (d + 1) (s + 1) n
  end.

Definition strncat (fuel : nat) m d s n : option memory :=
  match strlen fuel m d with
  | None => None
  | Some len => Some (strncat_loop m (d + len) s n)
  end.

(** The two nested loops of [strstr]: the inner one looks for the first
    character of [find], the outer one compares the rest. *)
Fixpoint strstr_loop (fuel : nat) m s (c find : Z) (len : nat) : option (option Z) :=
  match fuel with
  | O => None
  | S fuel =>
      if ldc m s =? 0 then Some None
      else if negb (ldc m s =? c) then strstr_loop fuel m (s + 1) c find len
      else if negb (strncmp m (s + 1) find len =? 0) then strstr_loop fuel m (s + 1) c find len
      else Some (Some s)
  end.

Definition strstr (fuel : nat) m s find : option (option Z) :=
  let c := ldc m find in
  if negb (c =? 0) then
    match strlen fuel m (find + 1) with
    | None => None
    | Some len => strstr_loop fuel m s c (find + 1) (Z.to_nat len)
    end
  else Some (Some s).

(** ** Comparison without case *)

Definition charmap : list Z :=
  [0; 1; 2; 3; 4; 5; 6; 7; 8; 9; 10; 11; 12; 13; 14; 15;
   16; 17; 18; 19; 20; 21; 22; 23; 24; 25; 26; 27; 28; 29; 30; 31;
   32; 33; 34; 35; 36; 37; 38; 39; 40; 41; 42; 43; 44; 45; 46; 47;
   48; 49; 50; 51; 52; 53; 54; 55; 56; 57; 58; 59; 60; 61; 62; 63;
   64; 97; 98; 99; 100; 101; 102; 103; 104; 105; 106; 107; 108; 109; 110; 111;
   112; 113; 114; 115; 116; 117; 118; 119; 120; 121; 122; 91; 92; 93; 94; 95;
   96; 97; 98; 99; 100; 101; 102; 103; 104; 105; 106; 107; 108; 109; 110; 111;
   112; 113; 114; 115; 116; 117; 118; 119; 120; 121; 122; 123; 124; 125; 126; 127;
   128; 129; 130; 131; 132; 133; 134; 135; 136; 137; 138; 139; 140; 141; 142; 143;
   144; 145; 146; 147; 148; 149; 150; 151; 152; 153; 154; 155; 156; 157; 158; 159;
   160; 161; 162; 163; 164; 165; 166; 167; 168; 169; 170; 171; 172; 173; 174; 175;
   176; 177; 178; 179; 180; 181; 182; 183; 184; 185; 186; 187; 188; 189; 190; 191;
   192; 225; 226; 227; 228; 229; 230; 231; 232; 233; 234; 235; 236; 237; 238; 239;
   240; 241; 242; 243; 244; 245; 246; 247; 248; 249; 250; 219; 220; 221; 222; 223;
   224; 225; 226; 227; 228; 229; 230; 231; 232; 233; 234; 235; 236; 237; 238; 239;
   240; 241; 242; 243; 244; 245; 246; 247; 248; 249; 250; 251; 252; 253; 254; 255].

Fixpoint strncasecmp m p q n : Z :=
  match n with
  | O => 0
  | S n =>
      let u1 := ld8 m p in
      let u2 := ld8 m q in
      let c1 := charmap !!! Z.to_nat u1 in
      let c2 := charmap !!! Z.to_nat u2 in
      if negb (c1 =? c2) then c1 - c2
      else if u1 =? 0 then 0
      else strncasecmp m (p + 1) (q + 1) n
  end.

(** ** Reading what was stored *)

Lemma ld8_st8 m p (v : Z) q : ld8 (st8 m p v) q = if decide (q = p) then u8 v else ld8 m q.
Proof.
  unfold ld8, st8. case_decide as E.
  - subst. rewrite lookup_total_insert_eq. unfold u8. by rewrite Zmod_mod.
  - by rewrite lookup_total_insert_ne.
Qed.

Lemma s8_u8 (x : Z) : s8 (u8 x) = s8 x.
Proof. unfold s8, u8. by rewrite Zplus_mod_idemp_l. Qed.

Lemma u8_s8 (x : Z) : u8 (s8 x) = u8 x.
Proof. unfold s8, u8. rewrite Zminus_mod_idemp_l. f_equal. lia. Qed.

Lemma ldc_ld8 m p : ldc m p = s8 (ld8 m p).
Proof. unfold ldc, ld8. by rewrite s8_u8. Qed.

Lemma ldc_st8 m p (v : Z) q : ldc (st8 m p v) q = if decide (q = p) then s8 v else ldc m q.
Proof. rewrite !ldc_ld8, ld8_st8. case_decide; [apply s8_u8|done]. Qed.

Lemma u8_ld8 m p : u8 (ld8 m p) = ld8 m p.
Proof. unfold ld8. by rewrite u8_small by apply u8_range. Qed.

Lemma u8_low (b x : Z) : 0 <= b < 2 ^ 8 -> u8 (b + 2 ^ 8 * x) = b.
Proof. intros Hb. unfold u8. rewrite Z.mul_comm, Z.mod_add by done. by apply Z.mod_small. Qed.

Lemma shiftr_low (b x : Z) : 0 <= b < 2 ^ 8 -> Z.shiftr (b + 2 ^ 8 * x) 8 = x.
Proof. intros Hb. rewrite Z.shiftr_div_pow2 by done. rewrite Z.mul_comm, Z.div_add by done. by rewrite Z.div_small. Qed.

(** Storing a word is storing its bytes. *)
Lemma ld8_st32 m p (v : Z) q :
  ld8 (st32 m p v) q = if decide (p <= q < p + 4) then u8 (Z.shiftr v (8 * (q - p))) else ld8 m q.
Proof.
  unfold st32. rewrite !ld8_st8. repeat case_decide; try lia; subst.
  - do 3 f_equal. lia.
  - do 3 f_equal. lia.
  - do 3 f_equal. lia.
  - by rewrite Z.sub_diag.
Qed.

Lemma ld32_byte m p (i : Z) : 0 <= i < 4 -> u8 (Z.shiftr (ld32 m p) (8 * i)) = ld8 m (p + i).
Proof.
  intros Hi. unfold ld32. pose proof (fun q => u8_range (m !!! q)) as Hr.
  assert (i = 0 \/ i = 1 \/ i = 2 \/ i = 3) as [-> | [-> | [-> | ->]]] by lia.
  - rewrite Z.mul_0_r, Z.shiftr_0_r, u8_low, Z.add_0_r by apply Hr. done.
  - change (8 * 1) with 8. rewrite shiftr_low, u8_low by apply Hr. done.
  - change (8 * 2) with (8 + 8). rewrite <- Z.shiftr_shiftr, !shiftr_low, u8_low by (apply Hr || lia). done.
  - change (8 * 3) with (8 + 8 + 8). rewrite <- !Z.shiftr_shiftr, !shiftr_low by (apply Hr || lia). apply u8_ld8.
Qed.

Lemma ld32_st32 m p (v : Z) : ld32 (st32 m p v) p = u32 v.
Proof.
  unfold ld32. rewrite !ld8_st32, !decide_True by lia.
  replace (p - p) with 0 by lia. replace (p + 1 - p) with 1 by lia. replace (p + 2 - p) with 2 by lia. replace (p + 3 - p) with 3 by lia.
  rewrite !Z.shiftr_div_pow2 by lia. unfold u8, u32. change (2 ^ (8 * 0)) with 1. rewrite Z.div_1_r.
  change (2 ^ 32) with (2 ^ 8 * (2 ^ 8 * (2 ^ 8 * 2 ^ 8))). rewrite !Z.rem_mul_r, !Z.div_div by lia. done.
Qed.

Lemma ld32_st32_other m p q (v : Z) : p + 4 <= q \/ q + 4 <= p -> ld32 (st32 m p v) q = ld32 m q.
Proof. intros Hd. unfold ld32. by rewrite !ld8_st32, !decide_False by lia. Qed.

(** ** Copying *)

(** The [n] bytes at [d] are those that were at [s]; nothing else changed. *)
Definition copied m m' d s (n : Z) : Prop :=
  forall q, ld8 m' q = if decide (d <= q < d + n) then ld8 m (s + (q - d)) else ld8 m q.

(** A copy from the first byte to the last reads no byte it has written. *)
Definition apart d s (n : Z) : Prop := d <= s \/ s + n <= d.

Lemma copied_0 m d s : copied m m d s 0.
Proof. intros q. by rewrite decide_False by lia. Qed.

Lemma copied_app m m1 m2 d s (a b : Z) :
  0 <= a -> 0 <= b -> apart d s (a + b) -> copied m m1 d s a -> copied m1 m2 (d + a) (s + a) b -> copied m m2 d s (a + b).
Proof.
  intros Ha Hb Hd H1 H2 q. rewrite H2, !H1. destruct Hd; repeat case_decide; try lia; try (f_equal; lia).
Qed.

Lemma copied_byte m d s : copied m (st8 m d (ld8 m s)) d s 1.
Proof. intros q. rewrite ld8_st8, u8_ld8. repeat case_decide; try lia; try done; f_equal; lia. Qed.

Lemma copied_word m d s : copied m (st32 m d (ld32 m s)) d s 4.
Proof. intros q. rewrite ld8_st32. case_decide; [apply ld32_byte; lia|done]. Qed.

Lemma copy_bytes_copied n m d s : apart d s (Z.of_nat n) -> copied m (copy_bytes n m d s) d s (Z.of_nat n).
Proof.
  revert m d s. induction n as [|n IH]; intros m d s Ha; cbn [copy_bytes]; [apply copied_0|].
  replace (Z.of_nat (S n)) with (1 + Z.of_nat n) in * by lia.
  eapply copied_app; [lia..|done|apply copied_byte|]. apply IH. destruct Ha; [left|right]; lia.
Qed.

Lemma copy_backwards_copied n m d s : s <= d -> copied m (copy_backwards n m d s) d s (Z.of_nat n).
Proof.
  intros Hs. revert m. induction n as [|n IH]; intros m; cbn [copy_backwards]; [apply copied_0|].
  intros q. rewrite (IH _ q), !ld8_st8, u8_ld8. repeat case_decide; try lia; try done. f_equal. lia.
Qed.

Lemma copy_words_copied n m d s :
  apart d s (Z.of_nat n) ->
  let '(m', d', s', n') := copy_words n m d s in
  exists a, copied m m' d s (Z.of_nat a) /\ d' = d + Z.of_nat a /\ s' = s + Z.of_nat a /\ (n = a + n')%nat.
Proof.
  revert m d s. induction n as [n IH] using lt_wf_ind. intros m d s Ha.
  destruct n as [|[|[|[|n]]]]; cbn [copy_words]; try (exists 0%nat; split_and!; [apply copied_0|lia..]).
  pose proof (IH n ltac:(lia) (st32 m d (ld32 m s)) (d + 4) (s + 4)) as H.
  destruct (copy_words n (st32 m d (ld32 m s)) (d + 4) (s + 4)) as [[[m' d'] s'] n'].
  destruct H as (a & H1 & -> & -> & ->); [destruct Ha; [left|right]; lia|].
  exists (4 + a)%nat. split_and!; try lia. rewrite Nat2Z.inj_add.
  eapply copied_app; [lia..| |apply copied_word|exact H1]. destruct Ha; [left|right]; lia.
Qed.

Lemma copy_to_aligned_copied n m d s :
  apart d s (Z.of_nat n) ->
  match copy_to_aligned n m d s with
  | (m', None) => copied m m' d s (Z.of_nat n)
  | (m', Some (d', s', n')) =>
      exists a, copied m m' d s (Z.of_nat a) /\ d' = d + Z.of_nat a /\ s' = s + Z.of_nat a /\ (n = a + n')%nat
  end.
Proof.
  revert m d s. induction n as [|n IH]; intros m d s Ha; cbn [copy_to_aligned]; destruct (Z.land d 3 =? 0).
  - exists 0%nat. split_and!; [apply copied_0|lia..].
  - apply copied_0.
  - exists 0%nat. split_and!; [apply copied_0|lia..].
  - pose proof (IH (st8 m d (ld8 m s)) (d + 1) (s + 1)) as H.
    assert (apart (d + 1) (s + 1) (Z.of_nat n)) as Ha' by (destruct Ha; [left|right]; lia). specialize (H Ha').
    destruct (copy_to_aligned n (st8 m d (ld8 m s)) (d + 1) (s + 1)) as [m' [[[d' s'] n']|]].
    + destruct H as (a & H1 & -> & -> & ->). exists (1 + a)%nat. split_and!; try lia. rewrite Nat2Z.inj_add.
      eapply copied_app; [lia..| |apply copied_byte|exact H1]. destruct Ha; [left|right]; lia.
    + replace (Z.of_nat (S n)) with (1 + Z.of_nat n) in * by lia. eapply copied_app; [lia..|done|apply copied_byte|exact H].
Qed.

Lemma memcpy_spec m d s n : d <= s \/ s + Z.of_nat n <= d -> copied m (memcpy m d s n) d s (Z.of_nat n).
Proof.
  intros Ha. unfold memcpy. destruct (Z.land (Z.lxor d s) 3 =? 0); [|by apply copy_bytes_copied].
  pose proof (copy_to_aligned_copied n m d s Ha) as H1.
  destruct (copy_to_aligned n m d s) as [m1 [[[d1 s1] n1]|]]; [|done].
  destruct H1 as (a & H1 & -> & -> & ->).
  pose proof (copy_words_copied n1 m1 (d + Z.of_nat a) (s + Z.of_nat a)) as H2.
  destruct (copy_words n1 m1 (d + Z.of_nat a) (s + Z.of_nat a)) as [[[m2 d2] s2] n2].
  destruct H2 as (b & H2 & -> & -> & ->); [destruct Ha; [left|right]; lia|].
  rewrite Nat2Z.inj_add in *. eapply copied_app; [lia..|done|exact H1|]. rewrite Nat2Z.inj_add in *.
  eapply copied_app; [lia..| |exact H2|apply copy_bytes_copied]; destruct Ha; [left|right|left|right]; lia.
Qed.

(** [memcpy], which copies by words when the areas have the same alignment,
    copies [n] bytes and changes nothing else, for areas that do not overlap;
    in fact whenever the destination is not inside the source. *)
Theorem memcpy_copies m d s n : d <= s \/ s + Z.of_nat n <= d -> copied m (memcpy m d s n) d s (Z.of_nat n).
Proof. apply memcpy_spec. Qed.

Lemma memcpy_copies_witness :
  ld8 (memcpy (<[101 := 7]> (<[102 := 200]> ∅)) 201 101 6) 202 = ld8 (<[101 := 7]> (<[102 := 200]> ∅)) 102.
Proof.
  assert (201 <= 101 \/ 101 + Z.of_nat 6 <= 201) as Ha by (right; simpl; lia).
  exact (memcpy_copies (<[101 := 7]> (<[102 := 200]> ∅)) 201 101 6 Ha 202).
Defined.

(** [memmove] copies [n] bytes correctly however the two areas overlap, as
    long as the source does not reach past the end of the address space. *)
Theorem memmove_copies m d s n :
  0 <= d < 2 ^ 32 -> 0 <= s -> s + Z.of_nat n <= 2 ^ 32 -> copied m (memmove m d s n) d s (Z.of_nat n).
Proof.
  intros Hd Hs Hn. unfold memmove. destruct (Z.ltb_spec (u32 (d - s)) (Z.of_nat n)) as [Hlt|Hge].
  - destruct (decide (s <= d)); [by apply copy_backwards_copied|].
    exfalso. unfold u32 in Hlt. rewrite <- (Z.mod_add _ 1), Z.mod_small in Hlt; lia.
  - apply copy_bytes_copied. destruct (decide (d <= s)); [by left|right]. rewrite u32_small in Hge; lia.
Qed.

(** Moving three bytes by one. *)
Lemma memmove_copies_witness :
  ld8 (memmove (<[101 := 7]> (<[102 := 200]> ∅)) 102 101 3) 103 = ld8 (<[101 := 7]> (<[102 := 200]> ∅)) 102.
Proof.
  refine (memmove_copies (<[101 := 7]> (<[102 := 200]> ∅)) 102 101 3 _ _ _ 103); simpl; lia.
Defined.

(** ** Filling *)

Definition filled m m' p (n c : Z) : Prop := forall q, ld8 m' q = if decide (p <= q < p + n) then u8 c else ld8 m q.

Lemma filled_app m m1 m2 p (a b c : Z) :
  0 <= a -> 0 <= b -> filled m m1 p a c -> filled m1 m2 (p + a) b c -> filled m m2 p (a + b) c.
Proof. intros Ha Hb H1 H2 q. rewrite H2, H1. repeat case_decide; lia || done. Qed.

Lemma filled_0 m p (c : Z) : filled m m p 0 c.
Proof. intros q. by rewrite decide_False by lia. Qed.

Lemma filled_byte m p (c : Z) : filled m (st8 m p c) p 1 c.
Proof. intros q. rewrite ld8_st8. repeat case_decide; lia || done. Qed.

Lemma set_bytes_filled n m p (c : Z) : filled m (set_bytes n m p c) p (Z.of_nat n) c.
Proof.
  revert m p. induction n as [|n IH]; intros m p; cbn [set_bytes]; [apply filled_0|].
  replace (Z.of_nat (S n)) with (1 + Z.of_nat n) by lia. eapply filled_app; [lia..|apply filled_byte|apply IH].
Qed.

Lemma set_to_aligned_filled n m p (c : Z) :
  match set_to_aligned n m p c with
  | (m', None) => filled m m' p (Z.of_nat n) c
  | (m', Some (p', n')) => exists a, filled m m' p (Z.of_nat a) c /\ p' = p + Z.of_nat a /\ (n = a + n')%nat
  end.
Proof.
  revert m p. induction n as [|n IH]; intros m p; cbn [set_to_aligned]; destruct (Z.land p 3 =? 0).
  - exists 0%nat. split_and!; [apply filled_0|lia..].
  - apply filled_0.
  - exists 0%nat. split_and!; [apply filled_0|lia..].
  - specialize (IH (st8 m p c) (p + 1)). destruct (set_to_aligned n (st8 m p c) (p + 1) c) as [m' [[p' n']|]].
    + destruct IH as (a & H1 & -> & ->). exists (1 + a)%nat. split_and!; try lia. rewrite Nat2Z.inj_add.
      eapply filled_app; [lia..|apply filled_byte|exact H1].
    + replace (Z.of_nat (S n)) with (1 + Z.of_nat n) by lia. eapply filled_app; [lia..|apply filled_byte|exact IH].
Qed.

(** the word with the byte [c] four times *)
Definition word_of (c : Z) : Z :=
  let w := Z.lor c (u32 (Z.shiftl c 8)) in Z.lor w (u32 (Z.shiftl w 16)).

Lemma word_of_byte (c i : Z) : 0 <= c < 2 ^ 8 -> 0 <= i < 4 -> u8 (Z.shiftr (word_of c) (8 * i)) = c.
Proof.
  intros Hc Hi.
  assert (forallb (fun c => forallb (fun i => u8 (Z.shiftr (word_of c) (8 * i)) =? c) (seqZ 0 4)) (seqZ 0 256) = true) as H
    by (vm_compute; reflexivity).
  rewrite forallb_forall in H. specialize (H c). rewrite forallb_forall in H.
  apply Z.eqb_eq, H; apply list_elem_of_In, elem_of_seqZ; lia.
Qed.

Lemma filled_word m p (c : Z) : 0 <= c < 2 ^ 8 -> filled m (st32 m p (word_of c)) p 4 c.
Proof. intros Hc q. rewrite ld8_st32. case_decide; [|done]. by rewrite word_of_byte, u8_small by lia. Qed.

Lemma set_words_filled n m p (c : Z) :
  0 <= c < 2 ^ 8 ->
  let '(m', p', n') := set_words n m p (word_of c) in
  exists a, filled m m' p (Z.of_nat a) c /\ p' = p + Z.of_nat a /\ (n = a + n')%nat.
Proof.
  intros Hc. revert m p. induction n as [n IH] using lt_wf_ind. intros m p.
  destruct n as [|[|[|[|n]]]]; cbn [set_words]; try (exists 0%nat; split_and!; [apply filled_0|lia..]).
  pose proof (IH n ltac:(lia) (st32 m p (word_of c)) (p + 4)) as H.
  destruct (set_words n (st32 m p (word_of c)) (p + 4) (word_of c)) as [[m' p'] n'].
  destruct H as (a & H1 & -> & ->). exists (4 + a)%nat. split_and!; try lia. rewrite Nat2Z.inj_add.
  eapply filled_app; [lia..|by apply filled_word|exact H1].
Qed.

(** [memset], which fills by words, stores the byte in the [n] bytes at [p]. *)
Lemma memset_fills m p (c : Z) n : filled m (memset m p c n) p (Z.of_nat n) (u8 c).
Proof.
  unfold memset. pose proof (set_to_aligned_filled n m p (u8 c)) as H1.
  destruct (set_to_aligned n m p (u8 c)) as [m1 [[p1 n1]|]]; [|done]. destruct H1 as (a & H1 & -> & ->).
  pose proof (set_words_filled n1 m1 (p + Z.of_nat a) (u8 c) (u8_range c)) as H2. unfold word_of in H2.
  destruct (set_words n1 m1 _ _) as [[m2 p2] n2]. destruct H2 as (b & H2 & -> & ->).
  rewrite !Nat2Z.inj_add. eapply filled_app; [lia..|exact H1|]. eapply filled_app; [lia..|exact H2|apply set_bytes_filled].
Qed.

(** ** Strings *)

Implicit Types (l a b : list Z).

(** The string at [p] has the characters [l] and a terminating zero. *)
Fixpoint cstr m p l : Prop :=
  match l with
  | [] => ldc m p = 0
  | x :: l => ldc m p = x /\ x <> 0 /\ cstr m (p + 1) l
  end.

Lemma cstr_agree m m' p l :
  (forall q, p <= q <= p + Z.of_nat (length l) -> ldc m' q = ldc m q) -> cstr m p l -> cstr m' p l.
Proof.
  revert p. induction l as [|x l IH]; intros p Hq; cbn [cstr length].
  - by rewrite Hq by lia.
  - intros (H1 & H2 & H3). rewrite Hq by lia. split_and!; [done|done|]. apply IH; [|done]. intros q Hr. apply Hq. cbn [length]. lia.
Qed.

Lemma cstr_app m p a b : cstr m p (a ++ b) <-> (cstr m (p + Z.of_nat (length a)) b /\ forall i x, a !! i = Some x -> ldc m (p + Z.of_nat i) = x /\ x <> 0).
Proof.
  revert p. induction a as [|x a IH]; intros p; cbn [cstr app length].
  - rewrite Z.add_0_r. naive_solver.
  - rewrite IH. replace (p + 1 + Z.of_nat (length a)) with (p + Z.of_nat (S (length a))) by lia. split.
    + intros (H1 & H2 & H3 & H4). split; [done|]. intros [|i] y; simpl; [intros [= <-]; by rewrite Z.add_0_r|].
      intros Hy. apply H4 in Hy as [<- ?]. split; [f_equal; lia|done].
    + intros (H1 & H2). destruct (H2 0%nat x eq_refl) as [H3 H4]. rewrite Z.add_0_r in H3. split_and!; [done|done|done|].
      intros i y Hy. destruct (H2 (S i) y Hy) as [<- ?]. split; [f_equal; lia|done].
Qed.

Lemma strlen_spec fuel m p l : cstr m p l -> (length l < fuel)%nat -> strlen fuel m p = Some (Z.of_nat (length l)).
Proof.
  revert fuel p. induction l as [|x l IH]; intros [|fuel] p Hc Hf; cbn [length] in *; try lia; cbn [strlen cstr] in *.
  - by rewrite Hc.
  - destruct Hc as (-> & Hx & Hc). destruct (Z.eqb_spec x 0); [done|]. rewrite (IH fuel) by (done || lia). simpl. f_equal. lia.
Qed.

(** The copy is complete, and nothing after it changes. *)
Lemma strcpy_spec fuel m d p l :
  cstr m p l -> (length l < fuel)%nat -> d + Z.of_nat (length l) < p \/ p + Z.of_nat (length l) < d ->
  exists m', strcpy fuel m d p = Some m' /\ cstr m' d l /\
    (forall q, q < d \/ d + Z.of_nat (length l) < q -> ldc m' q = ldc m q).
Proof.
  revert fuel m d p. induction l as [|x l IH]; intros [|fuel] m d p Hc Hf Hd; cbn [length] in *; try lia; cbn [strcpy cstr] in *.
  - rewrite Hc. simpl. eexists. split; [done|]. split; [by rewrite ldc_st8, decide_True|].
    intros q Hq. by rewrite ldc_st8, decide_False by lia.
  - destruct Hc as (Hp & Hx & Hc). rewrite Hp. destruct (Z.eqb_spec x 0) as [|_]; [done|].
    destruct (IH fuel (st8 m d x) (d + 1) (p + 1)) as (m' & E & H1 & H2); try lia.
    { apply (cstr_agree m); [|done]. intros q Hq. by rewrite ldc_st8, decide_False by lia. }
    exists m'. split; [done|]. split.
    + split_and!; [|done|done]. rewrite H2, ldc_st8, decide_True by (done || lia). rewrite <- Hp, ldc_ld8.
      unfold ld8. rewrite s8_u8. unfold s8. rewrite Z.sub_add, Zmod_mod. done.
    + intros q Hq. rewrite H2 by lia. by rewrite ldc_st8, decide_False by lia.
Qed.

Lemma strcat_spec fuel m d p a b :
  cstr m d a -> cstr m p b -> (length a < fuel)%nat -> (length b < fuel)%nat ->
  d + Z.of_nat (length (a ++ b)) < p \/ p + Z.of_nat (length b) < d ->
  exists m', strcat fuel m d p = Some m' /\ cstr m' d (a ++ b).
Proof.
  intros Ha Hb Fa Fb Hd. unfold strcat. rewrite (strlen_spec _ _ _ _ Ha Fa). rewrite length_app in Hd.
  destruct (strcpy_spec fuel m (d + Z.of_nat (length a)) p b Hb Fb) as (m' & E & H1 & H2); [lia|].
  exists m'. split; [done|]. apply cstr_app. split; [done|]. rewrite <- (app_nil_r a) in Ha.
  assert (forall i x, a !! i = Some x -> ldc m (d + Z.of_nat i) = x /\ x <> 0) as Hi.
  { clear -Ha. revert d Ha. rewrite app_nil_r. induction a as [|y a IH]; intros d Ha i x Hx; [done|].
    destruct Ha as (H1 & H2 & H3). destruct i as [|i]; simpl in Hx; [injection Hx as <-; by rewrite Z.add_0_r|].
    destruct (IH _ H3 i x Hx) as [<- ?]. split; [f_equal; lia|done]. }
  intros i x Hx. rewrite H2; [by apply Hi|]. apply lookup_lt_Some in Hx. lia.
Qed.

(** Lexicographic order on the characters. *)
Fixpoint lex_lt a b : Prop :=
  match a, b with
  | _, [] => False
  | [], y :: _ => 0 < y
  | x :: a, y :: b => x < y \/ x = y /\ lex_lt a b
  end.

Lemma strcmp_spec fuel m p q a b :
  cstr m p a -> cstr m q b -> (length a < fuel)%nat -> Forall (fun x => 0 < x) a -> Forall (fun x => 0 < x) b ->
  exists r, strcmp fuel m p q = Some r /\ (r = 0 <-> a = b) /\ (r < 0 <-> lex_lt a b).
Proof.
  intros Ha Hb Hf Pa. revert fuel p q b Ha Hb Hf. induction Pa as [|x a Hx Pa IH];
    intros [|fuel] p q b Ha Hb Hf Pb; cbn [length] in *; try lia; cbn [strcmp cstr] in *.
  - rewrite Ha. rewrite andb_false_r. eexists. split; [done|]. destruct Pb as [|y b Hy Pb]; cbn [cstr lex_lt] in *.
    + rewrite Hb. done.
    + destruct Hb as (-> & _). split; [split; [lia|done]|]. lia.
  - destruct Ha as (-> & _ & Ha). destruct Pb as [|y b Hy Pb]; cbn [cstr lex_lt] in *.
    + rewrite Hb. destruct (Z.eqb_spec x 0); [lia|]. simpl. eexists. split; [done|]. split; [split; [lia|done]|]. lia.
    + destruct Hb as (-> & _ & Hb). destruct (Z.eqb_spec x y) as [->|Hne]; simpl.
      * destruct (Z.eqb_spec y 0); [lia|]. simpl.
        destruct (IH fuel (p + 1) (q + 1) b) as (r & E & H1 & H2); try done; try lia. exists r. split; [done|]. rewrite H1, H2.
        split; [naive_solver|]. naive_solver lia.
      * eexists. split; [done|]. split; [split; [lia|intros [= ??]; done]|]. naive_solver lia.
Qed.

(** ** Searching for a string *)

Lemma strncmp_prefix m p q a b :
  cstr m p a -> cstr m q b -> strncmp m p q (length b) = 0 <-> b `prefix_of` a.
Proof.
  revert p q a. induction b as [|y b IH]; intros p q a Ha Hb; cbn [strncmp length cstr] in *.
  { split; [intros _; apply prefix_nil|done]. }
  destruct Hb as (-> & Hy & Hb). destruct a as [|x a]; cbn [cstr] in Ha.
  - rewrite Ha. destruct (Z.eqb_spec 0 y) as [|_]; [lia|]. simpl. split; [lia|intros Hp%prefix_nil_inv; done].
  - destruct Ha as (-> & Hx & Ha). destruct (Z.eqb_spec x y) as [->|Hne]; simpl.
    + destruct (Z.eqb_spec y 0); [lia|]. simpl. rewrite (IH _ _ a) by done. split; [apply prefix_cons|apply prefix_cons_inv_2].
    + split; [lia|]. intros Hp. by apply prefix_cons_inv_1 in Hp.
Qed.

Lemma strstr_loop_spec fuel m p q (c : Z) a b :
  cstr m p a -> cstr m q b -> c <> 0 -> (length a < fuel)%nat ->
  match strstr_loop fuel m p c q (length b) with
  | None => False
  | Some None => forall i, (i <= length a)%nat -> ~ (c :: b) `prefix_of` drop i a
  | Some (Some r) => exists i, r = p + Z.of_nat i /\ (c :: b) `prefix_of` drop i a /\
      forall j, (j < i)%nat -> ~ (c :: b) `prefix_of` drop j a
  end.
Proof.
  intros Ha Hb Hc. revert fuel p Ha. induction a as [|x a IH]; intros [|fuel] p Ha Hf; cbn [length] in *; try lia;
    cbn [strstr_loop cstr] in *.
  { rewrite Ha. simpl. intros i _ Hp. rewrite drop_nil in Hp. by apply prefix_nil_inv in Hp. }
  destruct Ha as (-> & Hx & Ha). destruct (Z.eqb_spec x 0) as [|_]; [done|].
  assert (forall r : option (option Z), ~ (c :: b) `prefix_of` x :: a ->
    match strstr_loop fuel m (p + 1) c q (length b) with
    | None => False
    | Some None => forall i, (i <= S (length a))%nat -> ~ (c :: b) `prefix_of` drop i (x :: a)
    | Some (Some r) => exists i, r = p + Z.of_nat i /\ (c :: b) `prefix_of` drop i (x :: a) /\
        forall j, (j < i)%nat -> ~ (c :: b) `prefix_of` drop j (x :: a)
    end) as Hnext.
  { intros _ Hn. specialize (IH fuel (p + 1) Ha ltac:(lia)).
    destruct (strstr_loop fuel m (p + 1) c q (length b)) as [[r|]|]; [|intros [|i] Hi; [done|apply IH; lia]|done].
    destruct IH as (i & -> & H1 & H2). exists (S i). split; [lia|]. split; [done|]. intros [|j] Hj; [done|apply H2; lia]. }
  destruct (Z.eqb_spec x c) as [->|Hne]; simpl.
  - destruct (Z.eqb_spec (strncmp m (p + 1) q (length b)) 0) as [E|E]; simpl.
    + exists 0%nat. rewrite Z.add_0_r. split; [done|]. split; [|intros j Hj; lia].
      apply prefix_cons. by apply (strncmp_prefix m (p + 1) q).
    + apply (Hnext None). intros Hp%prefix_cons_inv_2. by apply E, (strncmp_prefix m (p + 1) q a b).
  - apply (Hnext None). intros Hp. apply prefix_cons_inv_1 in Hp. congruence.
Qed.

(** [strstr] returns the first occurrence of a string in another one, and
    [NULL] only when there is none; it returns for every pair of strings. *)
Theorem strstr_finds_first fuel m p q a b :
  cstr m p a -> cstr m q b -> (length a < fuel)%nat -> (length b < fuel)%nat ->
  match strstr fuel m p q with
  | None => False
  | Some None => forall i, (i <= length a)%nat -> ~ b `prefix_of` drop i a
  | Some (Some r) => exists i, r = p + Z.of_nat i /\ b `prefix_of` drop i a /\
      forall j, (j < i)%nat -> ~ b `prefix_of` drop j a
  end.
Proof.
  intros Ha Hb Fa Fb. unfold strstr. destruct b as [|c b]; cbn [cstr] in Hb.
  - rewrite Hb. simpl. exists 0%nat. split; [lia|]. split; [apply prefix_nil|intros j Hj; lia].
  - destruct Hb as (-> & Hc & Hb). destruct (Z.eqb_spec c 0) as [|_]; [done|]. simpl.
    cbn [length] in Fb. rewrite (strlen_spec fuel m (q + 1) b) by (done || lia). rewrite Nat2Z.id.
    exact (strstr_loop_spec fuel m p (q + 1) c a b Ha Hb Hc Fa).
Qed.

(** Looking for 2 3 in 1 2 2 3. *)
Definition demo_mem : memory := <[0 := 1]> (<[1 := 2]> (<[2 := 2]> (<[3 := 3]> (<[4 := 0]> (<[10 := 2]> (<[11 := 3]> (<[12 := 0]> ∅))))))).

Lemma strstr_finds_first_witness : exists i, strstr 9 demo_mem 0 10 = Some (Some (0 + Z.of_nat i)) /\ [2; 3] `prefix_of` drop i [1; 2; 2; 3].
Proof.
  pose proof (strstr_finds_first 9 demo_mem 0 10 [1; 2; 2; 3] [2; 3]) as H.
  assert (strstr 9 demo_mem 0 10 = Some (Some 2)) as E by (vm_compute; reflexivity). rewrite E in H.
  destruct H as (i & H1 & H2 & _); [cbn; split_and!; (vm_compute; reflexivity) || lia..|simpl; lia|simpl; lia|].
  exists i. split; [rewrite E, H1; reflexivity|exact H2].
Defined.

End LibC.
