(* ===== verification/MemPool.v ===== *)
(** * Memory pools: the block allocator (kernel/mempool.c)

    A pool is a buffer of [n_max] blocks of [max_sz] bytes, each of which can be
    split into quarters, level by level.  Every level has a bit for each of its
    blocks, which is set when the block is free, and a list of the free blocks,
    whose nodes are the blocks themselves.

    The critical sections of the code ([alloc_block], [break_block] and one
    level of [free_block]) are the atomic steps; the invariant is kept by each
    of them, so it holds however the calls of several threads interleave. *)

From S2P Require Import Prelude DList ListStore.

Local Open Scope Z_scope.

Module MemPool.

(** [struct k_mem_pool_lvl], less the free list: one word, a union of the bits
    themselves (up to [max_inline_level]) and the address of an array of words. *)
Record k_mem_pool_lvl := mk_lvl { bits : Z }.
Definition bits_p (lv : k_mem_pool_lvl) : Z := bits lv.

#[export] Instance lvl_inhabited : Inhabited k_mem_pool_lvl := populate (mk_lvl 0).

(** [struct k_mem_pool]; [free_list] has the lists of all levels and [words] is
    the memory behind the buffer, where the arrays of bits are. *)
Record k_mem_pool := mk_pool {
  buf : Z;
  max_sz : Z;
  n_max : Z;
  n_levels : nat;
  max_inline_level : nat;
  levels : list k_mem_pool_lvl;
  words : list Z;
  free_list : gmap nat (list Z);
  wait_q : positive
}.

(** [struct k_mem_block] with its [id] *)
Record k_mem_block := mk_block { data : Z; id_pool : Z; id_level : nat; id_block : Z }.

Implicit Types (p : k_mem_pool) (l i : nat) (bn lsz block : Z).

Definition set_levels p (ls : list k_mem_pool_lvl) : k_mem_pool :=
  mk_pool (buf p) (max_sz p) (n_max p) (n_levels p) (max_inline_level p) ls (words p) (free_list p) (wait_q p).
Definition set_pool_words p (ws : list Z) : k_mem_pool :=
  mk_pool (buf p) (max_sz p) (n_max p) (n_levels p) (max_inline_level p) (levels p) ws (free_list p) (wait_q p).
Definition set_free_list p (fl : gmap nat (list Z)) : k_mem_pool :=
  mk_pool (buf p) (max_sz p) (n_max p) (n_levels p) (max_inline_level p) (levels p) (words p) fl (wait_q p).
Definition set_max_inline p l : k_mem_pool :=
  mk_pool (buf p) (max_sz p) (n_max p) (n_levels p) l (levels p) (words p) (free_list p) (wait_q p).

Definition _ALIGN4 (n : Z) : Z := (n + 3) / 4 * 4.

Definition block_ptr p lsz bn : Z := buf p + lsz * bn.
Definition block_num p block (sz : Z) : Z := (block - buf p) / sz.
Definition level_empty p l : bool := Lst.is_empty (free_list p) l.

Definition buf_size p : Z := n_max p * max_sz p.
Definition block_fits p block (bsz : Z) : bool := u32 (block + bsz - 1 - buf p) <? buf_size p.

(** ** The free bits

    [get_bit_ptr] yields a word and a bit in it; [None] is a word outside of the
    array, which for an inline level is any word but the first. *)

Definition word_index p (ptr bn : Z) : Z := (ptr - (buf p + buf_size p)) / 4 + bn / 32.

Definition get_word p l bn : option Z :=
  let lv := levels p !!! l in
  if (l <=? max_inline_level p)%nat then (if bn / 32 =? 0 then Some (bits lv) else None)
  else let w := word_index p (bits_p lv) bn in
       if w <? 0 then None else words p !! Z.to_nat w.

Definition put_word p l bn (w : Z) : k_mem_pool :=
  if (l <=? max_inline_level p)%nat then set_levels p (<[l := mk_lvl w]> (levels p))
  else set_pool_words p (<[Z.to_nat (word_index p (bits_p (levels p !!! l)) bn) := w]> (words p)).

Definition set_free_bit p l bn : option k_mem_pool :=
  match get_word p l bn with
  | None => None
  | Some w => Some (put_word p l bn (Z.lor w (Z.shiftl 1 (Z.land bn 0x1f))))
  end.

Definition clear_free_bit p l bn : option k_mem_pool :=
  match get_word p l bn with
  | None => None
  | Some w => Some (put_word p l bn (Z.land w (Z.lnot (Z.shiftl 1 (Z.land bn 0x1f)))))
  end.

Definition partner_bits p l bn : option Z :=
  match get_word p l bn with
  | None => None
  | Some w => Some (Z.land (Z.shiftr w (4 * (Z.land bn 0x1f / 4))) 0xf)
  end.

(** ** Initialisation *)

(** the loop over the levels, from [i] on; [bits] is the next free word *)
Fixpoint init_levels (n : nat) i (sz bits : Z) p : k_mem_pool :=
  match n with
  | O => p
  | S n =>
      let nblocks := buf_size p / sz in
      let p := set_free_list p (Lst.init (free_list p) i) in
      if nblocks <? 32 then init_levels n (S i) (_ALIGN4 (sz / 4)) bits (set_max_inline p i)
      else init_levels n (S i) (_ALIGN4 (sz / 4)) (bits + 4 * ((nblocks + 31) / 32))
             (set_levels p (<[i := mk_lvl bits]> (levels p)))
  end.

(** the loop over the blocks of level 0 *)
Fixpoint init_blocks (n : nat) bn p : option k_mem_pool :=
  match n with
  | O => Some p
  | S n =>
      let p := set_free_list p (Lst.append (free_list p) 0%nat (block_ptr p (max_sz p) bn)) in
      match set_free_bit p 0 bn with
      | None => None
      | Some p => init_blocks n (bn + 1) p
      end
  end.

Definition init_mem_pool p : option k_mem_pool :=
  init_blocks (Z.to_nat (n_max p)) 0 (init_levels (n_levels p) 0 (max_sz p) (buf p + buf_size p) p).

(** ** The layout of a pool: [K_MEM_POOL_DEFINE] and its helpers *)

Definition _MPOOL_HAVE_LVL (max min : Z) l : Z := if min <=? Z.shiftr max (2 * Z.of_nat l) then 1 else 0.

(** the sums over the levels 0 to 15 *)
Definition sum_levels (f : nat -> Z) (ls : list nat) : Z := foldr (fun l s => f l + s) 0 ls.

Definition __MPOOL_LVLS (maxsz minsz : Z) : Z := sum_levels (_MPOOL_HAVE_LVL maxsz minsz) (seq 0 16).

(** [sizeof(sys_dnode_t)] *)
Definition _MPOOL_MINBLK : Z := 8.

Definition _MPOOL_LVLS (max min : Z) : Z := __MPOOL_LVLS max (if _MPOOL_MINBLK <=? min then min else _MPOOL_MINBLK).

Definition _MPOOL_LBIT_WORDS_UNCLAMPED (n_max : Z) l : Z := (Z.shiftl n_max (2 * Z.of_nat l) + 31) / 32.

Definition _MPOOL_LBIT_WORDS (n_max : Z) l : Z :=
  if _MPOOL_LBIT_WORDS_UNCLAMPED n_max l <? 2 then 0 else _MPOOL_LBIT_WORDS_UNCLAMPED n_max l.

Definition _MPOOL_LBIT_BYTES (maxsz minsz : Z) l (n_max : Z) : Z :=
  if Z.of_nat l <=? _MPOOL_LVLS maxsz minsz then 4 * _MPOOL_LBIT_WORDS n_max l else 0.

Definition _MPOOL_BITS_SIZE (maxsz minsz n_max : Z) : Z :=
  sum_levels (fun l => _MPOOL_LBIT_BYTES maxsz minsz l n_max) (seq 0 16).

(** What is not given is zero. *)
Definition K_MEM_POOL_DEFINE (addr minsz maxsz nmax : Z) (w : positive) : k_mem_pool :=
  let n := Z.to_nat (_MPOOL_LVLS maxsz minsz) in
  mk_pool addr maxsz nmax n 0 (repeat (mk_lvl 0) n)
    (repeat 0 (Z.to_nat (_MPOOL_BITS_SIZE maxsz minsz nmax / 4))) ∅ w.

(** ** Blocks *)

(** the table [lsizes] *)
Fixpoint lsize p l : Z :=
  match l with
  | O => _ALIGN4 (max_sz p)
  | S l => _ALIGN4 (lsize p l / 4)
  end.

Definition alloc_block p l lsz : option (k_mem_pool * option Z) :=
  match Lst.peek_head (free_list p) l with
  | None => Some (p, None)
  | Some block =>
      let p := set_free_list p (Lst.remove (free_list p) block) in
      match clear_free_bit p l (block_num p block lsz) with
      | None => None
      | Some p => Some (p, Some block)
      end
  end.

(** the loop of [free_block] that takes the four partners apart *)
Fixpoint unlink_partners (n : nat) (i : Z) p l lsz bn : option k_mem_pool :=
  match n with
  | O => Some p
  | S n =>
      let b := Z.land bn (Z.lnot 3) + i in
      match clear_free_bit p l b with
      | None => None
      | Some p =>
          let p := if negb (b =? bn) && block_fits p (block_ptr p lsz b) lsz
                   then set_free_list p (Lst.remove (free_list p) (block_ptr p lsz b)) else p in
          unlink_partners n (i + 1) p l lsz bn
      end
  end.

(** One critical section of [free_block]: the pool, and the block of the level
    above that the tail call frees, if any. *)
Definition free_step p l lsz bn : option (k_mem_pool * option Z) :=
  let block := block_ptr p lsz bn in
  match set_free_bit p l bn with
  | None => None
  | Some p =>
      let append := Some (if block_fits p block lsz
                          then set_free_list p (Lst.append (free_list p) l block) else p, None) in
      match l with
      | O => append
      | S _ =>
          match partner_bits p l bn with
          | None => None
          | Some pb =>
              if pb =? 0xf then
                match unlink_partners 4 0 p l lsz bn with
                | None => None
                | Some p => Some (p, Some (bn / 4))
                end
              else append
          end
      end
  end.

Fixpoint free_block p l bn : option k_mem_pool :=
  match free_step p l (lsize p l) bn with
  | None => None
  | Some (p, None) => Some p
  | Some (p, Some bn') => match l with O => Some p | S l => free_block p l bn' end
  end.

(** the loop of [break_block]: the quarters from [i] on *)
Fixpoint break_loop (n : nat) (i : Z) p block l lsz bn : option k_mem_pool :=
  match n with
  | O => Some p
  | S n =>
      let block2 := lsz * i + block in
      match set_free_bit p (S l) (4 * bn + i) with
      | None => None
      | Some p =>
          let p := if block_fits p block2 lsz then set_free_list p (Lst.append (free_list p) (S l) block2) else p in
          break_loop n (i + 1) p block l lsz bn
      end
  end.

Definition break_block p block l : option (k_mem_pool * Z) :=
  match break_loop 3 1 p block l (lsize p (S l)) (block_num p block (lsize p l)) with
  | None => None
  | Some p => Some (p, block)
  end.

(** the walk down the levels: [alloc_l] and [free_l], [None] for -1 *)
Fixpoint find_levels (n : nat) i p (size : Z) (alloc_l free_l : option nat) : option nat * option nat :=
  match n with
  | O => (alloc_l, free_l)
  | S n =>
      if lsize p i <? size then (alloc_l, free_l)
      else find_levels n (S i) p size (Some i) (if negb (level_empty p i) then Some i else free_l)
  end.

(** [for (from_l = free_l; from_l < alloc_l; from_l++)] *)
Fixpoint break_levels (n : nat) from_l p blk : option (k_mem_pool * Z) :=
  match n with
  | O => Some (p, blk)
  | S n =>
      match break_block p blk from_l with
      | None => None
      | Some (p, blk) => break_levels n (S from_l) p blk
      end
  end.

(** The return code and the block descriptor; the bit-fields of [id] hold 8, 4
    and 20 bits. *)
Definition pool_alloc p (pool_id size : Z) : option (k_mem_pool * Z * option k_mem_block) :=
  match find_levels (n_levels p) 0 p size None None with
  | (Some alloc_l, Some free_l) =>
      match alloc_block p free_l (lsize p free_l) with
      | None => None
      | Some (p, None) => Some (p, - EAGAIN, None)
      | Some (p, Some blk) =>
          match break_levels (alloc_l - free_l) free_l p blk with
          | None => None
          | Some (p, blk) =>
              Some (p, 0, Some (mk_block blk (pool_id mod 2 ^ 8) (alloc_l mod 16)
                                  (block_num p blk (lsize p alloc_l) mod 2 ^ 20)))
          end
      end
  | _ => Some (p, - ENOMEM, None)
  end.

(** ** The shape of a pool *)

Definition nblocks p l : Z := n_max p * 4 ^ Z.of_nat l.
Definition in_pool p l bn : Prop := (l < n_levels p)%nat /\ 0 <= bn < nblocks p l.

#[export] Instance in_pool_dec p l bn : Decision (in_pool p l bn).
Proof. unfold in_pool. apply _. Defined.

Definition bit p l bn : bool :=
  bool_decide (in_pool p l bn) && match get_word p l bn with Some w => Z.testbit w (bn mod 32) | None => false end.

(** the words in use for the levels below [l] *)
Fixpoint word_off p l : Z :=
  match l with
  | O => 0
  | S l => word_off p l + if nblocks p l <? 32 then 0 else (nblocks p l + 31) / 32
  end.

(** The documented restrictions on the sizes (a power of 4 times a multiple of
    4), at most 32 blocks of the largest size, and room for the bits. *)
Record pool_wf p : Prop := {
  pw_levels : (0 < n_levels p)%nat;
  pw_length : length (levels p) = n_levels p;
  pw_n : 1 <= n_max p <= 32;
  pw_size : exists mn, 0 < mn /\ max_sz p = 4 ^ Z.of_nat (n_levels p) * mn;
  pw_buf : buf_size p < 2 ^ 32;
  pw_words : forall l, (l < n_levels p)%nat ->
    if (l <=? max_inline_level p)%nat then nblocks p l <= 32
    else 32 <= nblocks p l /\ bits_p (levels p !!! l) = buf p + buf_size p + 4 * word_off p l;
  pw_room : word_off p (n_levels p) <= Z.of_nat (length (words p))
}.

(** Two pools with the same layout. *)
Record same_shape p p' : Prop := {
  sh_buf : buf p' = buf p;
  sh_max_sz : max_sz p' = max_sz p;
  sh_n_max : n_max p' = n_max p;
  sh_n_levels : n_levels p' = n_levels p;
  sh_inline : max_inline_level p' = max_inline_level p;
  sh_wait_q : wait_q p' = wait_q p
}.

Lemma same_shape_refl p : same_shape p p.
Proof. by split. Qed.

Lemma same_shape_trans p1 p2 p3 : same_shape p1 p2 -> same_shape p2 p3 -> same_shape p1 p3.
Proof. intros [] []. split; congruence. Qed.

Lemma lsize_shape p p' l : same_shape p p' -> lsize p' l = lsize p l.
Proof. intros Hs. induction l as [|l IH]; simpl; [by rewrite (sh_max_sz _ _ Hs)|by rewrite IH]. Qed.

Lemma in_pool_shape p p' l bn : same_shape p p' -> in_pool p' l bn <-> in_pool p l bn.
Proof. intros [? ? En El ? ?]. unfold in_pool, nblocks. by rewrite En, El. Qed.

(** ** Free bits *)

Lemma nblocks_pos p l : pool_wf p -> 1 <= nblocks p l.
Proof. intros Hw. pose proof (pw_n _ Hw). pose proof (Z.pow_pos_nonneg 4 (Z.of_nat l) ltac:(lia) ltac:(lia)). unfold nblocks. nia. Qed.

Lemma word_off_mono p l l' : pool_wf p -> (l <= l')%nat -> 0 <= word_off p l <= word_off p l'.
Proof.
  intros Hw. assert (forall k, word_off p k <= word_off p (S k)) as Hs.
  { intros k. cbn [word_off]. pose proof (nblocks_pos p k Hw). destruct (_ <? _); [lia|].
    pose proof (Z.div_pos (nblocks p k + 31) 32 ltac:(lia) ltac:(lia)). lia. }
  intros Hl. split; [clear Hl; induction l as [|l IH]; [done|specialize (Hs l); lia]|].
  induction Hl as [|m Hm IH]; [lia|]. specialize (Hs m). lia.
Qed.

(** The words of a level with an array of its own. *)
Lemma word_index_spec p l bn :
  pool_wf p -> in_pool p l bn -> (l <=? max_inline_level p)%nat = false ->
  word_index p (bits_p (levels p !!! l)) bn = word_off p l + bn / 32 /\
  0 <= word_off p l /\ word_off p l <= word_off p l + bn / 32 < word_off p (S l) /\
  word_off p l + bn / 32 < Z.of_nat (length (words p)).
Proof.
  intros Hw [Hl Hb] E. pose proof (pw_words _ Hw l Hl) as Hx. rewrite E in Hx. destruct Hx as [Hn Hp].
  pose proof (word_off_mono p l l Hw ltac:(lia)). pose proof (word_off_mono p (S l) (n_levels p) Hw ltac:(lia)).
  pose proof (pw_room _ Hw). pose proof (Z.div_pos bn 32 ltac:(lia) ltac:(lia)).
  assert (bn / 32 < (nblocks p l + 31) / 32) as Hlt.
  { pose proof (Z.div_mod bn 32 ltac:(lia)). pose proof (Z.mod_pos_bound bn 32 ltac:(lia)).
    pose proof (Z.div_mod (nblocks p l + 31) 32 ltac:(lia)). pose proof (Z.mod_pos_bound (nblocks p l + 31) 32 ltac:(lia)). lia. }
  assert (word_off p (S l) = word_off p l + (nblocks p l + 31) / 32) as Eo.
  { cbn [word_off]. destruct (Z.ltb_spec (nblocks p l) 32); [lia|done]. }
  split_and!; try lia. unfold word_index. rewrite Hp.
  replace (buf p + buf_size p + 4 * word_off p l - (buf p + buf_size p)) with (word_off p l * 4) by lia. by rewrite Z.div_mul.
Qed.

Lemma get_word_some p l bn : pool_wf p -> in_pool p l bn -> exists w, get_word p l bn = Some w.
Proof.
  intros Hw Hin. pose proof Hin as [Hl Hb]. pose proof (pw_words _ Hw l Hl) as Hx. unfold get_word.
  destruct (l <=? max_inline_level p)%nat eqn:E.
  - rewrite Z.div_small by lia. eauto.
  - destruct (word_index_spec p l bn Hw Hin E) as (-> & ? & ? & ?). cbv zeta. rewrite (proj2 (Z.ltb_ge _ _)) by lia.
    apply lookup_lt_is_Some. lia.
Qed.

Lemma get_put_word p l bn (w : Z) l' bn' :
  pool_wf p -> in_pool p l bn -> in_pool p l' bn' ->
  get_word (put_word p l bn w) l' bn' = if decide (l' = l /\ bn' / 32 = bn / 32) then Some w else get_word p l' bn'.
Proof.
  intros Hw Hin Hin'. pose proof Hin as [Hl Hb]. pose proof Hin' as [Hl' Hb'].
  pose proof (pw_words _ Hw l Hl) as Hx. pose proof (pw_words _ Hw l' Hl') as Hx'. pose proof (pw_length _ Hw).
  unfold get_word, put_word. destruct (l <=? max_inline_level p)%nat eqn:E; cbn [levels words set_levels set_pool_words max_inline_level].
  - destruct (decide (l' = l)) as [->|Hne].
    + rewrite E, list_lookup_total_insert_eq by lia. rewrite !Z.div_small by lia. by rewrite decide_True.
    + rewrite list_lookup_total_insert_ne by done. by rewrite decide_False by tauto.
  - destruct (word_index_spec p l bn Hw Hin E) as (-> & ? & ? & ?).
    destruct (l' <=? max_inline_level p)%nat eqn:E'; [rewrite decide_False; [done|intros [-> _]; congruence]|].
    change (word_index (set_pool_words p _)) with (word_index p).
    destruct (word_index_spec p l' bn' Hw Hin' E') as (-> & ? & ? & ?). cbv zeta. rewrite (proj2 (Z.ltb_ge _ _)) by lia.
    destruct (decide (l' = l /\ bn' / 32 = bn / 32)) as [[-> ->]|Hne]; [apply list_lookup_insert_eq; lia|].
    apply list_lookup_insert_ne. intros Eq. apply Z2Nat.inj in Eq; [|lia|lia]. apply Hne.
    assert (l' = l) as ->; [|split; [done|lia]].
    destruct (Nat.lt_trichotomy l l') as [Hlt|[->|Hlt]]; [|done|].
    + pose proof (word_off_mono p (S l) l' Hw Hlt). lia.
    + pose proof (word_off_mono p (S l') l Hw Hlt). lia.
Qed.

Lemma word_off_ext p p' l : n_max p' = n_max p -> word_off p' l = word_off p l.
Proof. intros E. induction l as [|l IH]; [done|]. cbn [word_off]. unfold nblocks. by rewrite IH, E. Qed.

Lemma put_word_wf p l bn (w : Z) : pool_wf p -> pool_wf (put_word p l bn w).
Proof.
  intros Hw. unfold put_word. destruct (l <=? max_inline_level p)%nat eqn:E; destruct Hw as [? Hlen ? ? ? Hx Hr]; split; try done.
  - cbn [levels set_levels]. by rewrite length_insert.
  - intros l' Hl'. specialize (Hx l' Hl'). cbn [max_inline_level levels set_levels] in *. destruct (l' <=? _)%nat eqn:E'; [done|].
    rewrite list_lookup_total_insert_ne by (intros ->; congruence). by rewrite (word_off_ext p).
  - by rewrite (word_off_ext p).
  - intros l' Hl'. specialize (Hx l' Hl'). cbn [max_inline_level levels set_pool_words] in *. destruct (l' <=? _)%nat eqn:E'; [done|].
    by rewrite (word_off_ext p).
  - rewrite (word_off_ext p) by done. cbn [words set_pool_words]. by rewrite length_insert.
Qed.

(** A word stored at a block's bit that differs from the old one only there. *)
Lemma bit_put_word p l bn (w w0 : Z) (v : bool) :
  pool_wf p -> in_pool p l bn -> get_word p l bn = Some w0 ->
  (forall k, 0 <= k < 32 -> Z.testbit w k = if bool_decide (k = bn mod 32) then v else Z.testbit w0 k) ->
  let p' := put_word p l bn w in
  same_shape p p' /\ free_list p' = free_list p /\ wait_q p' = wait_q p /\ pool_wf p' /\
  forall l' bn', 0 <= bn' -> bit p' l' bn' = if decide (l' = l /\ bn' = bn) then v else bit p l' bn'.
Proof.
  intros Hw Hin Hg Hk p'. assert (same_shape p p') as Hs by (unfold p', put_word; by destruct (_ <=? _)%nat).
  split_and!; [done|unfold p', put_word; by destruct (_ <=? _)%nat..|by apply put_word_wf|].
  intros l' bn' Hb'. unfold bit. rewrite (bool_decide_ext _ _ (in_pool_shape p p' l' bn' Hs)).
  destruct (bool_decide_reflect (in_pool p l' bn')) as [Hin'|Hn]; cbn [andb]; [|by rewrite decide_False by (intros [-> ->]; done)].
  unfold p'. rewrite (get_put_word p l bn w l' bn') by done.
  pose proof (Z.mod_pos_bound bn' 32 ltac:(lia)). pose proof (Z.div_mod bn' 32 ltac:(lia)). pose proof (Z.div_mod bn 32 ltac:(lia)).
  destruct (decide (l' = l /\ bn' / 32 = bn / 32)) as [[-> E]|E].
  - rewrite Hk by done. destruct (decide (l = l /\ bn' = bn)) as [[_ ->]|E'].
    + by rewrite bool_decide_true.
    + rewrite bool_decide_false by lia. assert (get_word p l bn' = get_word p l bn) as ->.
      { unfold get_word, word_index. by rewrite E. }
      by rewrite Hg.
  - rewrite decide_False; [done|]. intros [-> ->]. tauto.
Qed.

Lemma bit_index bn : Z.land bn 0x1f = bn mod 32.
Proof. change 0x1f with (Z.ones 5). by rewrite Z.land_ones. Qed.

Lemma set_free_bit_spec p l bn :
  pool_wf p -> in_pool p l bn ->
  exists p', set_free_bit p l bn = Some p' /\ same_shape p p' /\ free_list p' = free_list p /\ wait_q p' = wait_q p /\ pool_wf p' /\
  forall l' bn', 0 <= bn' -> bit p' l' bn' = if decide (l' = l /\ bn' = bn) then true else bit p l' bn'.
Proof.
  intros Hw Hin. destruct (get_word_some p l bn Hw Hin) as [w Hg]. unfold set_free_bit. rewrite Hg.
  eexists. split; [done|]. apply (bit_put_word p l bn _ w true); try done. intros k Hk.
  pose proof (Z.mod_pos_bound bn 32 ltac:(lia)). rewrite bit_index, Z.shiftl_1_l, lor_pow2_spec by lia.
  case_bool_decide; [by rewrite orb_true_r|by rewrite orb_false_r].
Qed.

Lemma clear_free_bit_spec p l bn :
  pool_wf p -> in_pool p l bn ->
  exists p', clear_free_bit p l bn = Some p' /\ same_shape p p' /\ free_list p' = free_list p /\ wait_q p' = wait_q p /\ pool_wf p' /\
  forall l' bn', 0 <= bn' -> bit p' l' bn' = if decide (l' = l /\ bn' = bn) then false else bit p l' bn'.
Proof.
  intros Hw Hin. destruct (get_word_some p l bn Hw Hin) as [w Hg]. unfold clear_free_bit. rewrite Hg.
  eexists. split; [done|]. apply (bit_put_word p l bn _ w false); try done. intros k Hk.
  pose proof (Z.mod_pos_bound bn 32 ltac:(lia)). rewrite bit_index, Z.shiftl_1_l, clear_pow2_spec by lia.
  destruct (decide (k = bn mod 32)); [rewrite bool_decide_false, bool_decide_true by tauto; apply andb_false_r|].
  rewrite bool_decide_true, bool_decide_false by tauto. apply andb_true_r.
Qed.

(** The test for four free partners. *)
Lemma partner_bits_spec p k bn (l := S k) :
  pool_wf p -> in_pool p l bn ->
  exists pb, partner_bits p l bn = Some pb /\ (pb = 0xf <-> forall i : Z, 0 <= i < 4 -> bit p l (4 * (bn / 4) + i) = true).
Proof.
  intros Hw Hin. destruct (get_word_some p l bn Hw Hin) as [w Hg]. unfold partner_bits. rewrite Hg, bit_index.
  eexists. split; [done|]. pose proof Hin as [_ Hb]. set (g := bn mod 32 / 4).
  pose proof (Z.mod_pos_bound bn 32 ltac:(lia)). pose proof (Z.div_mod bn 32 ltac:(lia)).
  assert (0 <= g < 8) as Hg8 by (unfold g; split; [apply Z.div_pos; lia|apply Z.div_lt_upper_bound; lia]).
  assert (bn / 4 = 8 * (bn / 32) + g) as Eq.
  { unfold g. rewrite (Z.div_mod bn 32) at 1 by lia. replace (32 * (bn / 32)) with (8 * (bn / 32) * 4) by lia.
    by rewrite Z.div_add_l by lia. }
  assert (forall i : Z, 0 <= i < 4 -> bit p l (4 * (bn / 4) + i) = Z.testbit w (4 * g + i)) as Hbit.
  { intros i Hi. assert ((4 * (bn / 4) + i) / 32 = bn / 32) as Ed by (symmetry; apply (Z.div_unique_pos _ _ _ (4 * g + i)); lia).
    assert ((4 * (bn / 4) + i) mod 32 = 4 * g + i) as Em by (symmetry; apply (Z.mod_unique_pos _ _ (bn / 32)); lia).
    assert (in_pool p l (4 * (bn / 4) + i)) as Hin'.
    { destruct Hin as [Hl Hn]. split; [done|]. unfold nblocks, l in *. rewrite Nat2Z.inj_succ, Z.pow_succ_r in * by lia.
      pose proof (Z.div_mod bn 4 ltac:(lia)). pose proof (Z.mod_pos_bound bn 4 ltac:(lia)). lia. }
    unfold bit. rewrite bool_decide_true by done. cbn [andb].
    assert (get_word p l (4 * (bn / 4) + i) = get_word p l bn) as -> by (unfold get_word, word_index; by rewrite Ed).
    by rewrite Hg, Em. }
  change 0xf with (Z.ones 4). split.
  - intros E i Hi. rewrite Hbit by done. apply (f_equal (fun x => Z.testbit x i)) in E.
    rewrite Z.land_spec, Z.ones_spec_low, andb_true_r, Z.shiftr_spec in E by lia. by rewrite Z.add_comm.
  - intros Hall. apply Z.bits_inj'. intros i Hi. rewrite Z.land_spec. destruct (Z.ltb_spec i 4).
    + rewrite Z.ones_spec_low, andb_true_r, Z.shiftr_spec by lia. rewrite Z.add_comm, <- Hbit by lia. by apply Hall.
    + rewrite Z.ones_spec_high by lia. apply andb_false_r.
Qed.

(** ** Sizes and addresses *)

Definition addr p l bn : Z := block_ptr p (lsize p l) bn.

Lemma align4_mul (x : Z) : _ALIGN4 (4 * x) = 4 * x.
Proof. unfold _ALIGN4. replace (4 * x + 3) with (x * 4 + 3) by lia. rewrite Z.div_add_l by done. change (3 / 4) with 0. lia. Qed.

(** The sizes are exact: four blocks of a level make one of the level above. *)
Lemma lsize_spec p l : pool_wf p -> (l < n_levels p)%nat -> lsize p l * 4 ^ Z.of_nat l = max_sz p /\ 0 < lsize p l.
Proof.
  intros Hw Hl. destruct (pw_size _ Hw) as (mn & Hmn & Es).
  assert (forall l, (l < n_levels p)%nat -> lsize p l = 4 ^ Z.of_nat (n_levels p - l) * mn) as H.
  { clear l Hl. induction l as [|l IH]; intros Hl; cbn [lsize].
    - rewrite Es, Nat.sub_0_r. destruct (n_levels p) as [|n]; [lia|].
      rewrite Nat2Z.inj_succ, Z.pow_succ_r, <- Z.mul_assoc by lia. apply align4_mul.
    - rewrite IH by lia. replace (n_levels p - l)%nat with (S (n_levels p - S l)) by lia.
      rewrite Nat2Z.inj_succ, Z.pow_succ_r, <- Z.mul_assoc, Z.mul_comm, Z.div_mul by lia.
      replace (n_levels p - S l)%nat with (S (n_levels p - S (S l))) by lia.
      rewrite Nat2Z.inj_succ, Z.pow_succ_r, <- Z.mul_assoc by lia. apply align4_mul. }
  rewrite (H l Hl). split; [|pose proof (Z.pow_pos_nonneg 4 (Z.of_nat (n_levels p - l)) ltac:(lia) ltac:(lia)); nia].
  rewrite Es. rewrite <- Z.mul_assoc, (Z.mul_comm mn), Z.mul_assoc, <- Z.pow_add_r by lia. do 2 f_equal. lia.
Qed.

Lemma lsize_quarter p l : pool_wf p -> (S l < n_levels p)%nat -> lsize p (S l) * 4 = lsize p l.
Proof.
  intros Hw Hl. destruct (lsize_spec p l Hw ltac:(lia)) as [H1 _]. destruct (lsize_spec p (S l) Hw Hl) as [H2 _].
  rewrite Nat2Z.inj_succ, Z.pow_succ_r in H2 by lia. pose proof (Z.pow_pos_nonneg 4 (Z.of_nat l) ltac:(lia) ltac:(lia)). nia.
Qed.

Lemma block_num_addr p l bn : pool_wf p -> (l < n_levels p)%nat -> block_num p (addr p l bn) (lsize p l) = bn.
Proof.
  intros Hw Hl. destruct (lsize_spec p l Hw Hl) as [_ Hs]. unfold block_num, addr, block_ptr.
  replace (buf p + lsize p l * bn - buf p) with (bn * lsize p l) by lia. apply Z.div_mul. lia.
Qed.

(** A block ends within the buffer. *)
Lemma block_end p l bn : pool_wf p -> in_pool p l bn -> lsize p l * bn + lsize p l <= buf_size p.
Proof.
  intros Hw [Hl Hb]. destruct (lsize_spec p l Hw Hl) as [H1 H2]. unfold buf_size, nblocks in *. rewrite <- H1.
  replace (lsize p l * bn + lsize p l) with (lsize p l * (bn + 1)) by lia.
  replace (n_max p * (lsize p l * 4 ^ Z.of_nat l)) with (lsize p l * (n_max p * 4 ^ Z.of_nat l)) by lia.
  apply Z.mul_le_mono_nonneg_l; lia.
Qed.

Lemma block_fits_in p l bn : pool_wf p -> in_pool p l bn -> block_fits p (addr p l bn) (lsize p l) = true.
Proof.
  intros Hw Hin. pose proof (block_end p l bn Hw Hin). pose proof (pw_buf _ Hw). destruct Hin as [Hl Hb].
  destruct (lsize_spec p l Hw Hl) as [_ Hs]. unfold block_fits, addr, block_ptr. apply Z.ltb_lt.
  assert (0 <= lsize p l * bn) by (apply Z.mul_nonneg_nonneg; lia). rewrite u32_small; lia.
Qed.

(** ** Blocks inside blocks *)

(** Block [bn'] of level [l'] is block [bn] of level [l] or a part of it. *)
Definition within l bn l' bn' : Prop := (l <= l')%nat /\ bn' / 4 ^ Z.of_nat (l' - l) = bn.

Lemma within_refl l bn : within l bn l bn.
Proof. split; [done|]. rewrite Nat.sub_diag. apply Z.div_1_r. Qed.

Lemma div_pow4 (x : Z) (a b : nat) : x / 4 ^ Z.of_nat a / 4 ^ Z.of_nat b = x / 4 ^ Z.of_nat (a + b).
Proof. rewrite Z.div_div, <- Z.pow_add_r by lia. by rewrite Nat2Z.inj_add. Qed.

Lemma within_trans l1 b1 l2 b2 l3 b3 : within l1 b1 l2 b2 -> within l2 b2 l3 b3 -> within l1 b1 l3 b3.
Proof.
  intros [H1 E1] [H2 E2]. split; [lia|]. rewrite <- E1, <- E2, div_pow4. do 3 f_equal. lia.
Qed.

Lemma within_same l b b' : within l b l b' -> b = b'.
Proof. intros [_ E]. rewrite Nat.sub_diag in E. simpl in E. rewrite Z.div_1_r in E. done. Qed.

Lemma within_child l b b' : within l b (S l) b' <-> b' / 4 = b.
Proof. unfold within. replace (S l - l)%nat with 1%nat by lia. change (4 ^ Z.of_nat 1) with 4. naive_solver lia. Qed.

(** Of two blocks that a third one is a part of, one is a part of the other. *)
Lemma within_linear l1 b1 l2 b2 l3 b3 : within l1 b1 l3 b3 -> within l2 b2 l3 b3 -> (l1 <= l2)%nat -> within l1 b1 l2 b2.
Proof.
  intros [H1 E1] [H2 E2] Hle. split; [done|]. rewrite <- E1, <- E2, div_pow4. do 3 f_equal. lia.
Qed.

(** Blocks that are not part of one another do not overlap. *)
Lemma disjoint_blocks p l b l' b' :
  pool_wf p -> in_pool p l b -> in_pool p l' b' -> (l <= l')%nat -> ~ within l b l' b' ->
  addr p l b + lsize p l <= addr p l' b' \/ addr p l' b' + lsize p l' <= addr p l b.
Proof.
  intros Hw [Hl Hb] [Hl' Hb'] Hle Hn. destruct (lsize_spec p l Hw Hl) as [H1 H2]. destruct (lsize_spec p l' Hw Hl') as [H3 H4].
  set (k := (l' - l)%nat). assert (lsize p l = lsize p l' * 4 ^ Z.of_nat k) as Es.
  { pose proof (Z.pow_pos_nonneg 4 (Z.of_nat l) ltac:(lia) ltac:(lia)).
    assert (4 ^ Z.of_nat l' = 4 ^ Z.of_nat k * 4 ^ Z.of_nat l) as E by (rewrite <- Z.pow_add_r by lia; f_equal; unfold k; lia).
    rewrite E in H3. nia. }
  set (q := 4 ^ Z.of_nat k) in *. assert (0 < q) as Hq by (apply Z.pow_pos_nonneg; lia).
  assert (b' / q <> b) as Hne by (intros E; apply Hn; split; [done|exact E]).
  pose proof (Z.div_mod b' q ltac:(lia)) as Hd. pose proof (Z.mod_pos_bound b' q Hq).
  unfold addr, block_ptr. rewrite Es. destruct (Z.lt_trichotomy (b' / q) b) as [Hlt|[|Hgt]]; [right|done|left]; nia.
Qed.

(** Two blocks with the same address: one is the first part of the other. *)
Lemma addr_within p l b l' b' :
  pool_wf p -> in_pool p l b -> in_pool p l' b' -> (l <= l')%nat -> addr p l b = addr p l' b' -> within l b l' b'.
Proof.
  intros Hw Hi Hi' Hle E. destruct (decide (b' / 4 ^ Z.of_nat (l' - l) = b)) as [|Hne]; [by split|exfalso].
  destruct (disjoint_blocks p l b l' b' Hw Hi Hi' Hle) as [H|H]; [intros [_ ?]; done| |].
  - pose proof (proj2 (lsize_spec p l Hw (proj1 Hi))). lia.
  - pose proof (proj2 (lsize_spec p l' Hw (proj1 Hi'))). lia.
Qed.

(** ** Partitions of the buffer

    A set of blocks none of which is a part of another one, and which has a part
    of every block of the last level. *)

Definition antichain (P : nat -> Z -> Prop) : Prop :=
  forall l b l' b', P l b -> P l' b' -> within l b l' b' -> l = l' /\ b = b'.
Definition covers (P : nat -> Z -> Prop) (last : nat) (n : Z) : Prop :=
  forall u, 0 <= u < n -> exists l b, P l b /\ within l b last u.

Definition split_set (P : nat -> Z -> Prop) l b : nat -> Z -> Prop :=
  fun l' b' => P l' b' /\ ~ (l' = l /\ b' = b) \/ l' = S l /\ b' / 4 = b.
Definition merge_set (P : nat -> Z -> Prop) l b : nat -> Z -> Prop :=
  fun l' b' => P l' b' /\ ~ (l' = S l /\ b' / 4 = b) \/ l' = l /\ b' = b.

Lemma antichain_equiv P Q : (forall l b, P l b <-> Q l b) -> antichain P -> antichain Q.
Proof. intros E H l b l' b' H1 H2. by apply H; apply E. Qed.

Lemma covers_equiv P Q last n : (forall l b, P l b <-> Q l b) -> covers P last n -> covers Q last n.
Proof. intros E H u Hu. destruct (H u Hu) as (l & b & H1 & H2). exists l, b. split; [by apply E|done]. Qed.

Lemma split_antichain P l b : antichain P -> P l b -> antichain (split_set P l b).
Proof.
  intros Ha Hp l1 b1 l2 b2 [[H1 N1]|[-> H1]] [[H2 N2]|[-> H2]] Hw.
  - by apply Ha.
  - destruct (decide (l1 = S l)) as [->|]; [by apply within_same in Hw as ->|]. exfalso. apply N1.
    apply Ha; [done|done|]. apply (within_linear l1 b1 l b (S l) b2); [done|by apply within_child|]. destruct Hw. lia.
  - exfalso. apply N2. destruct (Ha l b l2 b2) as [-> ->]; [done|done| |done].
    eapply within_trans; [|exact Hw]. by apply within_child.
  - by apply within_same in Hw as ->.
Qed.

Lemma split_covers P l b last n : covers P last n -> (l < last)%nat -> covers (split_set P l b) last n.
Proof.
  intros Hc Hl u Hu. destruct (Hc u Hu) as (l1 & b1 & H1 & H2). destruct (decide (l1 = l /\ b1 = b)) as [[-> ->]|N].
  - exists (S l), (u / 4 ^ Z.of_nat (last - S l)). split; [|by split].
    right. split; [done|]. apply (within_child l b). eapply within_linear; [exact H2|by split|lia].
  - exists l1, b1. split; [by left|done].
Qed.

Lemma merge_antichain P l b : antichain P -> (forall b', b' / 4 = b -> P (S l) b') -> antichain (merge_set P l b).
Proof.
  intros Ha Hp l1 b1 l2 b2 [[H1 N1]|[-> ->]] [[H2 N2]|[-> ->]] Hw; [by apply Ha| | |done].
  - exfalso. assert (4 * b / 4 = b) as E4 by (rewrite Z.mul_comm; by apply Z.div_mul).
    destruct (Ha l1 b1 (S l) (4 * b)) as [-> _]; [done|by apply Hp| |destruct Hw; lia].
    eapply within_trans; [exact Hw|by apply within_child].
  - destruct (decide (l2 = l)) as [->|Hne]; [by apply within_same in Hw as ->|]. exfalso.
    set (c := b2 / 4 ^ Z.of_nat (l2 - S l)). assert (within (S l) c l2 b2) as Hc by (split; [destruct Hw; lia|done]).
    assert (c / 4 = b) as E4 by (apply (within_child l b); eapply within_linear; [exact Hw|exact Hc|lia]).
    destruct (Ha (S l) c l2 b2) as [El Ec]; [by apply Hp|done|done|]. apply N2. by rewrite <- Ec.
Qed.

Lemma merge_covers P l b last n : covers P last n -> covers (merge_set P l b) last n.
Proof.
  intros Hc u Hu. destruct (Hc u Hu) as (l1 & b1 & H1 & H2). destruct (decide (l1 = S l /\ b1 / 4 = b)) as [[-> E]|N].
  - exists l, b. split; [by right|]. eapply within_trans; [|exact H2]. by apply within_child.
  - exists l1, b1. split; [by left|done].
Qed.

(** ** The invariant *)

Implicit Types (A : gset (nat * Z)).

(** The blocks that are not split: the free ones, and those in [A], which the
    callers hold. *)
Definition leaf p A l b : Prop := 0 <= b /\ (bit p l b = true \/ (l, b) ∈ A).

Record pool_inv p A : Prop := {
  pi_wf : pool_wf p;
  pi_free : forall l b, 0 <= b -> bit p l b = true -> in_pool p l b;
  pi_held : forall l b, (l, b) ∈ A -> in_pool p l b /\ bit p l b = false;
  pi_nodup : forall l, NoDup (free_list p !!! l);
  pi_list : forall l a, a ∈ free_list p !!! l <-> exists b, 0 <= b /\ bit p l b = true /\ a = addr p l b;
  pi_anti : antichain (leaf p A);
  pi_cover : covers (leaf p A) (n_levels p - 1) (nblocks p (n_levels p - 1));
  pi_merged : forall l b, 0 <= b -> exists i : Z, 0 <= i < 4 /\ bit p (S l) (4 * b + i) = false
}.

Lemma addr_shape p p' l b : same_shape p p' -> addr p' l b = addr p l b.
Proof. intros Hs. unfold addr, block_ptr. by rewrite (lsize_shape p p' l Hs), (sh_buf _ _ Hs). Qed.

Lemma nblocks_shape p p' l : same_shape p p' -> nblocks p' l = nblocks p l.
Proof. intros Hs. unfold nblocks. by rewrite (sh_n_max _ _ Hs). Qed.

Lemma leaf_in p A l b : pool_inv p A -> leaf p A l b -> in_pool p l b.
Proof. intros Hi [Hb [H|H]]; [by apply (pi_free _ _ Hi)|by apply (pi_held _ _ Hi)]. Qed.

(** Different free or held blocks have different addresses. *)
Lemma addr_inj p A l b l' b' :
  pool_inv p A -> leaf p A l b -> leaf p A l' b' -> addr p l b = addr p l' b' -> l = l' /\ b = b'.
Proof.
  intros Hi H1 H2 E. pose proof (leaf_in _ _ _ _ Hi H1) as I1. pose proof (leaf_in _ _ _ _ Hi H2) as I2.
  destruct (decide (l <= l')%nat).
  - apply (pi_anti _ _ Hi); [done|done|]. by apply (addr_within p l b l' b'); [apply Hi|..].
  - destruct (pi_anti _ _ Hi l' b' l b) as [-> ->]; [done|done| |done].
    apply (addr_within p l' b' l b); [apply Hi|done|done|lia|done].
Qed.

Lemma set_free_list_wf p fl : pool_wf p -> pool_wf (set_free_list p fl).
Proof.
  intros [? ? ? ? ? Hx Hr]. split; try done; [|by rewrite (word_off_ext p)].
  intros l Hl. specialize (Hx l Hl). cbn [max_inline_level levels set_free_list] in *. by rewrite (word_off_ext p).
Qed.

(** Taking a block off a free list. *)
Lemma alloc_block_inv p A l :
  pool_inv p A -> (l < n_levels p)%nat ->
  exists p' r, alloc_block p l (lsize p l) = Some (p', r) /\ same_shape p p' /\
    match r with
    | None => p' = p /\ free_list p !!! l = []
    | Some a => exists b, a = addr p l b /\ 0 <= b /\ bit p l b = true /\ pool_inv p' ({[(l, b)]} ∪ A)
    end.
Proof.
  intros Hi Hl. unfold alloc_block, Lst.peek_head. destruct (free_list p !!! l) as [|a fl] eqn:El; simpl.
  { exists p, None. split; [done|]. split; [apply same_shape_refl|done]. }
  assert (a ∈ free_list p !!! l) as Ha by (rewrite El; left).
  apply (pi_list _ _ Hi) in Ha as (b & Hb & Hbit & ->).
  set (p1 := set_free_list p (Lst.remove (free_list p) (addr p l b))).
  change (block_num p1 (addr p l b) (lsize p l)) with (block_num p (addr p l b) (lsize p l)).
  rewrite block_num_addr by (done || apply Hi).
  destruct (clear_free_bit_spec p1 l b) as (p' & -> & Hs & Ef & _ & Hw & Hc).
  { apply set_free_list_wf, Hi. } { by apply (pi_free _ _ Hi). }
  exists p', (Some (addr p l b)). split; [done|]. split; [exact (same_shape_trans p p1 p' ltac:(done) Hs)|].
  exists b. split_and!; [done|done|done|]. assert (same_shape p p') as Hs' by exact (same_shape_trans p p1 p' ltac:(done) Hs).
  change (free_list p1) with (Lst.remove (free_list p) (addr p l b)) in Ef. change (bit p1) with (bit p) in Hc.
  assert (forall l' b', leaf p' ({[(l, b)]} ∪ A) l' b' <-> leaf p A l' b') as Hleaf.
  { intros l' b'. unfold leaf. split; intros [H0 H1]; (split; [done|]).
    - rewrite Hc in H1 by done. case_decide as E; [destruct E as [-> ->]; by left|]. set_solver.
    - rewrite Hc by done. case_decide as E; [destruct E as [-> ->]; right; set_solver|]. set_solver. }
  split.
  - done.
  - intros l' b' H0 H1. rewrite (in_pool_shape _ _ _ _ Hs'). rewrite Hc in H1 by done. case_decide; [done|by apply (pi_free _ _ Hi)].
  - intros l' b' H1. rewrite (in_pool_shape _ _ _ _ Hs'). apply elem_of_union in H1 as [[= -> ->]%elem_of_singleton|H1].
    + split; [by apply (pi_free _ _ Hi)|]. rewrite Hc, decide_True by done. done.
    + destruct (pi_held _ _ Hi _ _ H1) as [H2 H3]. split; [done|]. destruct H2 as [_ ?]. rewrite Hc by lia. by case_decide.
  - intros l'. rewrite Ef, Lst.lookup_remove. apply NoDup_filter, Hi.
  - intros l' a. rewrite Ef, Lst.elem_of_remove, (pi_list _ _ Hi). split.
    + intros [(b' & H0 & H1 & ->) Hne]. exists b'. rewrite (addr_shape _ _ _ _ Hs'), Hc, decide_False by (done || naive_solver). done.
    + intros (b' & H0 & H1 & ->). rewrite Hc in H1 by done. case_decide as E; [done|]. rewrite (addr_shape _ _ _ _ Hs').
      split; [by exists b'|]. intros Ea. apply E. apply (addr_inj p A); [done|by split; [|left]..|done].
  - eapply antichain_equiv; [|apply (pi_anti _ _ Hi)]. intros. by rewrite Hleaf.
  - rewrite (sh_n_levels _ _ Hs'), (nblocks_shape _ _ _ Hs'). eapply covers_equiv; [|apply (pi_cover _ _ Hi)]. intros. by rewrite Hleaf.
  - intros l' b' H0. destruct (pi_merged _ _ Hi l' b' H0) as (i & H1 & H2). exists i. split; [done|]. rewrite Hc by lia. by case_decide.
Qed.

(** The quarters [i] to 3 are marked as free and queued. *)
Lemma break_loop_spec n (i : Z) p l bn :
  pool_wf p -> in_pool p l bn -> (S l < n_levels p)%nat -> 0 <= i -> i + Z.of_nat n = 4 ->
  exists p', break_loop n i p (addr p l bn) l (lsize p (S l)) bn = Some p' /\ same_shape p p' /\ pool_wf p' /\
    (forall l' b', 0 <= b' -> bit p' l' b' = if decide (l' = S l /\ 4 * bn + i <= b' < 4 * bn + 4) then true else bit p l' b') /\
    (forall l', free_list p' !!! l' = free_list p !!! l' ++
       if decide (l' = S l) then (fun j => addr p (S l) (4 * bn + j)) <$> seqZ i (Z.of_nat n) else []).
Proof.
  revert i p. induction n as [|n IH]; intros i p Hw Hin Hl Hi Hn; cbn [break_loop].
  { exists p. split_and!; try done.
    - intros l' b' Hb'. by rewrite decide_False by lia.
    - intros l'. case_decide; by rewrite app_nil_r. }
  assert (in_pool p (S l) (4 * bn + i)) as Hc.
  { destruct Hin as [_ Hb]. split; [done|]. unfold nblocks in *. rewrite Nat2Z.inj_succ, Z.pow_succ_r by lia. lia. }
  destruct (set_free_bit_spec p (S l) (4 * bn + i) Hw Hc) as (p1 & -> & Hs & Ef & _ & Hw1 & Hb1).
  assert (lsize p (S l) * i + addr p l bn = addr p (S l) (4 * bn + i)) as Ea.
  { unfold addr, block_ptr. rewrite <- (lsize_quarter p l Hw Hl). lia. }
  rewrite Ea. assert (block_fits p1 (addr p (S l) (4 * bn + i)) (lsize p (S l)) = true) as ->.
  { rewrite <- (addr_shape p p1 _ _ Hs), <- (lsize_shape p p1 _ Hs). apply block_fits_in; [done|]. by apply (in_pool_shape p p1). }
  set (p2 := set_free_list p1 _). assert (same_shape p p2) as Hs2 by exact (same_shape_trans p p1 p2 Hs ltac:(done)).
  destruct (IH (i + 1) p2) as (p' & E & Hs' & Hw' & Hb' & Hf'); [by apply set_free_list_wf|by apply (in_pool_shape p p2)|
    by rewrite (sh_n_levels _ _ Hs2)|lia|lia|].
  rewrite (addr_shape _ _ _ _ Hs2), (lsize_shape _ _ _ Hs2) in E. exists p'. split; [exact E|].
  split_and!; [exact (same_shape_trans p p2 p' Hs2 Hs')|done| |].
  - intros l' b' H0. rewrite Hb' by done. change (bit p2) with (bit p1). rewrite Hb1 by done. repeat case_decide; lia || done.
  - intros l'. rewrite Hf'. assert (free_list p2 = Lst.append (free_list p1) (S l) (addr p (S l) (4 * bn + i))) as -> by done. rewrite Ef, Nat2Z.inj_succ, (seqZ_cons i) by lia.
    rewrite Z.pred_succ, <- Z.add_1_r. case_decide as El.
    + subst l'. rewrite Lst.append_same, <- app_assoc. cbn [fmap list_fmap app]. do 2 f_equal.
      apply list_fmap_ext. intros k x _. by rewrite (addr_shape _ _ _ _ Hs2).
    + by rewrite Lst.append_other.
Qed.

(** Splitting a block that is held: its first quarter is held instead. *)
Lemma break_block_inv p A l b :
  pool_inv p A -> (l, b) ∈ A -> (S l < n_levels p)%nat ->
  exists p', break_block p (addr p l b) l = Some (p', addr p (S l) (4 * b)) /\ same_shape p p' /\
    pool_inv p' ({[(S l, 4 * b)]} ∪ (A ∖ {[(l, b)]})).
Proof.
  intros Hi Ha Hl. pose proof (pi_wf _ _ Hi) as Hw. destruct (pi_held _ _ Hi _ _ Ha) as [Hin Hfalse]. pose proof Hin as [_ Hb].
  unfold break_block. rewrite block_num_addr by (done || lia).
  destruct (break_loop_spec 3 1 p l b Hw Hin Hl ltac:(lia) ltac:(done)) as (p' & -> & Hs & Hw' & Hb' & Hf').
  exists p'. split; [do 2 f_equal; unfold addr, block_ptr; rewrite <- (lsize_quarter p l Hw Hl); lia|]. split; [done|].
  assert (leaf p A l b) as Hlb by (split; [lia|by right]).
  assert (forall c, 4 * b <= c < 4 * b + 4 -> c / 4 = b) as Hdiv.
  { intros c Hc. symmetry. apply (Z.div_unique_pos _ _ _ (c - 4 * b)); lia. }
  assert (forall c, 0 <= c -> c / 4 = b -> 4 * b <= c < 4 * b + 4) as Hdiv'.
  { intros c H0 Hc. pose proof (Z.div_mod c 4 ltac:(lia)). pose proof (Z.mod_pos_bound c 4 ltac:(lia)). lia. }
  assert (forall c, leaf p A (S l) c -> c / 4 = b -> False) as Hno.
  { intros c Hc Hq. destruct (pi_anti _ _ Hi l b (S l) c Hlb Hc) as [? _]; [by apply within_child|lia]. }
  assert (forall l' b', leaf p' ({[(S l, 4 * b)]} ∪ (A ∖ {[(l, b)]})) l' b' <-> 0 <= b' /\ split_set (leaf p A) l b l' b') as Hleaf.
  { intros l' b'. unfold leaf, split_set. split.
    - intros [H0 H1]. split; [done|]. rewrite Hb' in H1 by done. destruct (decide (l' = S l /\ 4 * b + 1 <= b' < 4 * b + 4)) as [[-> Hr]|Hd].
      + right. split; [done|]. apply Hdiv. lia.
      + destruct H1 as [H1|H1]; [left; split; [by split; [|left]|intros [-> ->]; congruence]|].
        apply elem_of_union in H1 as [[= -> ->]%elem_of_singleton|H1]; [right; split; [done|apply Hdiv; lia]|].
        left. split; [split; [done|right; set_solver]|set_solver].
    - intros (H0 & [[[_ H1] H2]|[-> H2]]); (split; [done|]); rewrite Hb' by done.
      + case_decide; [by left|]. destruct H1 as [H1|H1]; [by left|right; set_solver].
      + apply Hdiv' in H2; [|done]. case_decide; [by left|]. right. assert (b' = 4 * b) as -> by lia. set_solver. }
  assert (antichain (split_set (leaf p A) l b)) as Hanti by (apply split_antichain; [apply Hi|done]).
  split.
  - done.
  - intros l' b' H0 H1. rewrite (in_pool_shape _ _ _ _ Hs). rewrite Hb' in H1 by done. case_decide as E; [|by apply (pi_free _ _ Hi)].
    destruct E as [-> ?]. split; [done|]. unfold nblocks in *. rewrite Nat2Z.inj_succ, Z.pow_succ_r by lia. lia.
  - intros l' b' H1. rewrite (in_pool_shape _ _ _ _ Hs). apply elem_of_union in H1 as [[= -> ->]%elem_of_singleton|H1].
    + split; [split; [done|unfold nblocks in *; rewrite Nat2Z.inj_succ, Z.pow_succ_r by lia; lia]|].
      rewrite Hb', decide_False by lia. apply not_true_is_false. intros Ht.
      apply (Hno (4 * b)); [by split; [lia|left]|apply Hdiv; lia].
    + apply elem_of_difference in H1 as [H1 H2]. destruct (pi_held _ _ Hi _ _ H1) as [H3 H4]. split; [done|].
      destruct H3 as [_ H3]. rewrite Hb' by lia. case_decide as E; [|done]. exfalso. destruct E as [-> ?].
      apply (Hno b'); [by split; [lia|right]|apply Hdiv; lia].
  - intros l'. rewrite Hf'. apply NoDup_app. split_and!; [apply Hi| |].
    + intros a Ha1 Ha2. case_decide as E; [|by apply not_elem_of_nil in Ha2]. subst l'.
      apply list_elem_of_fmap in Ha2 as (j & -> & Hj%elem_of_seqZ). apply (pi_list _ _ Hi) in Ha1 as (c & H0 & H1 & Ec).
      assert (4 * b + j = c) as Ej.
      { apply (f_equal (fun a => block_num p a (lsize p (S l)))) in Ec. by rewrite !block_num_addr in Ec by done. }
      apply (Hno c); [by split; [|left]|apply Hdiv; lia].
    + case_decide; [|constructor]. apply NoDup_fmap_2_strong; [|apply NoDup_seqZ]. intros x y _ _ E.
      apply (f_equal (fun a => block_num p a (lsize p (S l)))) in E. rewrite !block_num_addr in E by done. lia.
  - intros l' a. rewrite Hf', elem_of_app, (pi_list _ _ Hi). split.
    + intros [(c & H0 & H1 & ->)|H1].
      * exists c. rewrite (addr_shape _ _ _ _ Hs), Hb' by done. split_and!; [done|by case_decide|done].
      * case_decide as E; [|by apply not_elem_of_nil in H1]. subst l'. apply list_elem_of_fmap in H1 as (j & -> & Hj%elem_of_seqZ).
        exists (4 * b + j). rewrite (addr_shape _ _ _ _ Hs), Hb', decide_True by lia. split_and!; [lia|done|done].
    + intros (c & H0 & H1 & ->). rewrite (addr_shape _ _ _ _ Hs). rewrite Hb' in H1 by done.
      destruct (decide (l' = S l /\ 4 * b + 1 <= c < 4 * b + 4)) as [[-> Hr]|]; [|left; by exists c].
      right. rewrite decide_True by done. apply list_elem_of_fmap. exists (c - 4 * b). split; [f_equal; lia|apply elem_of_seqZ; lia].
  - intros l1 b1 l2 b2 H1%Hleaf H2%Hleaf. apply Hanti; tauto.
  - rewrite (sh_n_levels _ _ Hs), (nblocks_shape _ _ _ Hs). intros u Hu.
    destruct (split_covers (leaf p A) l b _ _ (pi_cover _ _ Hi) ltac:(lia) u Hu) as (l1 & b1 & H1 & H2). exists l1, b1.
    split; [|done]. apply Hleaf. split; [|done]. destruct H2 as [_ <-]. apply Z.div_pos; [lia|]. apply Z.pow_pos_nonneg; lia.
  - intros l' b' H0. destruct (decide (l' = l /\ b' = b)) as [[-> ->]|Hne].
    + exists 0. split; [lia|]. rewrite Hb', decide_False by lia. apply not_true_is_false. intros Ht.
      apply (Hno (4 * b + 0)); [by split; [lia|left]|apply Hdiv; lia].
    + destruct (pi_merged _ _ Hi l' b' H0) as (i & H1 & H2). exists i. split; [done|]. rewrite Hb' by lia.
      case_decide as E; [|done]. exfalso. apply Hne. destruct E as [[= ->] Hr]. split; [done|].
      lia.
Qed.

Lemma partner_base bn : Z.land bn (Z.lnot 3) = 4 * (bn / 4).
Proof.
  change 3 with (Z.ones 2). rewrite <- Z.ldiff_land, Z.ldiff_ones_r by lia.
  rewrite Z.shiftl_mul_pow2, Z.shiftr_div_pow2 by lia. change (2 ^ 2) with 4. lia.
Qed.

(** The partners from [i] on lose their bits, and the others than [bn] their
    places in the free list. *)
Lemma unlink_partners_spec n (i : Z) p l bn :
  pool_wf p -> in_pool p (S l) bn -> 0 <= i -> i + Z.of_nat n = 4 ->
  exists p', unlink_partners n i p (S l) (lsize p (S l)) bn = Some p' /\ same_shape p p' /\ pool_wf p' /\
    (forall l' b', 0 <= b' -> bit p' l' b' =
       if decide (l' = S l /\ 4 * (bn / 4) + i <= b' < 4 * (bn / 4) + 4) then false else bit p l' b') /\
    (forall l', NoDup (free_list p !!! l') -> NoDup (free_list p' !!! l')) /\
    (forall l' a, a ∈ free_list p' !!! l' <-> a ∈ free_list p !!! l' /\
       forall b', 4 * (bn / 4) + i <= b' < 4 * (bn / 4) + 4 -> b' <> bn -> a <> addr p (S l) b').
Proof.
  revert i p. induction n as [|n IH]; intros i p Hw Hin Hi Hn; cbn [unlink_partners].
  { exists p. split_and!; try done.
    - intros l' b' Hb'. by rewrite decide_False by lia.
    - intros l' a. split; [intros Ha; split; [done|intros b' Hb'; lia]|by intros []]. }
  rewrite partner_base. assert (in_pool p (S l) (4 * (bn / 4) + i)) as Hc.
  { destruct Hin as [Hl Hb]. split; [done|]. unfold nblocks in *. rewrite Nat2Z.inj_succ, Z.pow_succ_r in * by lia.
    pose proof (Z.div_mod bn 4 ltac:(lia)). pose proof (Z.mod_pos_bound bn 4 ltac:(lia)).
    assert (bn / 4 < n_max p * 4 ^ Z.of_nat l) by (apply Z.div_lt_upper_bound; lia).
    pose proof (Z.div_pos bn 4 ltac:(lia) ltac:(lia)). lia. }
  destruct (clear_free_bit_spec p (S l) (4 * (bn / 4) + i) Hw Hc) as (p1 & -> & Hs & Ef & _ & Hw1 & Hb1).
  set (c := 4 * (bn / 4) + i) in *.
  assert (block_fits p1 (block_ptr p1 (lsize p (S l)) c) (lsize p (S l)) = true) as ->.
  { rewrite <- (lsize_shape p p1 _ Hs). apply (block_fits_in p1 (S l) c); [done|]. by apply (in_pool_shape p p1). }
  rewrite andb_true_r. assert (block_ptr p1 (lsize p (S l)) c = addr p (S l) c) as ->.
  { unfold addr, block_ptr. by rewrite (sh_buf _ _ Hs). }
  set (p2 := if negb (c =? bn) then set_free_list p1 (Lst.remove (free_list p1) (addr p (S l) c)) else p1).
  assert (same_shape p p2) as Hs2.
  { unfold p2. destruct (negb (c =? bn)); [|done]. by apply (same_shape_trans p p1). }
  destruct (IH (i + 1) p2) as (p' & E & Hs' & Hw' & Hb' & Hn' & Hf').
  { unfold p2. destruct (negb (c =? bn)); [by apply set_free_list_wf|done]. } { by apply (in_pool_shape p p2). } { lia. } { lia. }
  rewrite (lsize_shape _ _ _ Hs2) in E. exists p'. split; [exact E|].
  assert (forall l', NoDup (free_list p !!! l') -> NoDup (free_list p2 !!! l')) as Hn2.
  { intros l' H0. unfold p2. destruct (negb (c =? bn)); cbn [free_list set_free_list]; rewrite Ef; [|done].
    rewrite Lst.lookup_remove. by apply NoDup_filter. }
  assert (forall l' a, a ∈ free_list p2 !!! l' <-> a ∈ free_list p !!! l' /\ (c <> bn -> a <> addr p (S l) c)) as Hf2.
  { intros l' a. unfold p2. destruct (Z.eqb_spec c bn); cbn [negb free_list set_free_list]; rewrite Ef; [tauto|].
    rewrite Lst.elem_of_remove. tauto. }
  split_and!; [exact (same_shape_trans p p2 p' Hs2 Hs')|done| |by eauto|].
  - intros l' b' H0. rewrite Hb' by done. assert (bit p2 = bit p1) as -> by (unfold p2; by destruct (negb (c =? bn))).
    rewrite Hb1 by done. unfold c. repeat case_decide; lia || done.
  - intros l' a. rewrite Hf', Hf2. split.
    + intros [[H1 H2] H3]. split; [done|]. intros b' Hr Hne. destruct (decide (b' = c)) as [->|]; [by apply H2|].
      rewrite <- (addr_shape p p2 _ _ Hs2). apply H3; [unfold c in *; lia|done].
    + intros [H1 H2]. split; [split; [done|]|]; [intros; apply H2; [unfold c in *; lia|done]|].
      intros b' Hr Hne. rewrite (addr_shape p p2 _ _ Hs2). apply H2; [lia|done].
Qed.

(** Giving a block back without merging. *)
Lemma free_append_inv p A l b p1 :
  pool_inv p A -> (l, b) ∈ A -> same_shape p p1 -> pool_wf p1 -> free_list p1 = free_list p ->
  (forall l' b', 0 <= b' -> bit p1 l' b' = if decide (l' = l /\ b' = b) then true else bit p l' b') ->
  (l = 0%nat \/ exists i : Z, 0 <= i < 4 /\ bit p1 l (4 * (b / 4) + i) = false) ->
  pool_inv (set_free_list p1 (Lst.append (free_list p1) l (addr p l b))) (A ∖ {[(l, b)]}).
Proof.
  intros Hi Ha Hs Hw Ef Hb Hm. set (p2 := set_free_list _ _). assert (same_shape p p2) as Hs2 by exact (same_shape_trans p p1 p2 Hs ltac:(done)).
  destruct (pi_held _ _ Hi _ _ Ha) as [Hin Hfalse]. pose proof Hin as [Hl H0b]. change (bit p1) with (bit p2) in Hb, Hm.
  assert (forall l' b', leaf p2 (A ∖ {[(l, b)]}) l' b' <-> leaf p A l' b') as Hleaf.
  { intros l' b'. unfold leaf. split; intros [H0 H1]; (split; [done|]).
    - rewrite Hb in H1 by done. case_decide as E; [destruct E as [-> ->]; by right|]. set_solver.
    - rewrite Hb by done. case_decide as E; [by left|]. destruct H1; [by left|right; set_solver]. }
  split.
  - by apply set_free_list_wf.
  - intros l' b' H0 H1. rewrite (in_pool_shape _ _ _ _ Hs2). rewrite Hb in H1 by done.
    case_decide as E; [by destruct E as [-> ->]|by apply (pi_free _ _ Hi)].
  - intros l' b' H1. apply elem_of_difference in H1 as [H1 H2]. destruct (pi_held _ _ Hi _ _ H1) as [H3 H4].
    rewrite (in_pool_shape _ _ _ _ Hs2). split; [done|]. destruct H3 as [_ ?]. rewrite Hb by lia.
    case_decide as E; [|done]. destruct E as [-> ->]. set_solver.
  - intros l'. unfold p2. cbn [free_list set_free_list]. rewrite Ef. destruct (decide (l' = l)) as [->|]; [|rewrite Lst.append_other by done; apply Hi].
    rewrite Lst.append_same. apply NoDup_app. split_and!; [apply Hi| |apply NoDup_singleton].
    intros a H1 ->%list_elem_of_singleton. apply (pi_list _ _ Hi) in H1 as (c & H2 & H3 & Ec).
    destruct (addr_inj p A l b l c) as [_ ->]; [done|by split; [lia|right]|by split; [|left]|done|]. congruence.
  - intros l' a. unfold p2 at 1. cbn [free_list set_free_list]. rewrite Ef, Lst.elem_of_append, (pi_list _ _ Hi). split.
    + intros [(c & H1 & H2 & ->)|[-> ->]].
      * exists c. rewrite (addr_shape _ _ _ _ Hs2), Hb by done. split_and!; [done|by case_decide|done].
      * exists b. rewrite (addr_shape _ _ _ _ Hs2), Hb, decide_True by (done || lia). split_and!; [lia|done|done].
    + intros (c & H1 & H2 & ->). rewrite (addr_shape _ _ _ _ Hs2). rewrite Hb in H2 by done.
      case_decide as E; [destruct E as [-> ->]; by right|left; by exists c].
  - eapply antichain_equiv; [|apply (pi_anti _ _ Hi)]. intros. by rewrite Hleaf.
  - rewrite (sh_n_levels _ _ Hs2), (nblocks_shape _ _ _ Hs2). eapply covers_equiv; [|apply (pi_cover _ _ Hi)]. intros. by rewrite Hleaf.
  - intros l' b' H0. destruct (decide (l = S l' /\ b / 4 = b')) as [[-> <-]|Hne].
    + destruct Hm as [|Hm]; [lia|done].
    + destruct (pi_merged _ _ Hi l' b' H0) as (i & H1 & H2). exists i. split; [done|]. rewrite Hb by lia.
      case_decide as E; [|done]. exfalso. apply Hne. destruct E as [-> <-]. split; [done|].
      symmetry. apply (Z.div_unique_pos _ _ _ i); lia.
Qed.

(** Giving a block back when its partners are free: their parent is held
    instead, until the next turn gives it back. *)
Lemma free_merge_inv p A l b p' :
  pool_inv p A -> (S l, b) ∈ A -> same_shape p p' -> pool_wf p' ->
  (forall c, 0 <= c -> c / 4 = b / 4 -> c <> b -> bit p (S l) c = true) ->
  (forall l' b', 0 <= b' -> bit p' l' b' = if decide (l' = S l /\ b' / 4 = b / 4) then false else bit p l' b') ->
  (forall l', NoDup (free_list p' !!! l')) ->
  (forall l' a, a ∈ free_list p' !!! l' <-> a ∈ free_list p !!! l' /\
     forall c, 0 <= c -> c / 4 = b / 4 -> c <> b -> a <> addr p (S l) c) ->
  pool_inv p' ({[(l, b / 4)]} ∪ (A ∖ {[(S l, b)]})).
Proof.
  intros Hi Ha Hs Hw Hfree Hb Hnd Hf. destruct (pi_held _ _ Hi _ _ Ha) as [[Hl H0b] Hfalse].
  pose proof (Z.div_pos b 4 ltac:(lia) ltac:(lia)) as Hq.
  assert (forall c, 0 <= c -> c / 4 = b / 4 -> leaf p A (S l) c) as Hquart.
  { intros c H0 Hc. split; [done|]. destruct (decide (c = b)) as [->|]; [by right|left; by apply Hfree]. }
  assert (forall c, c / 4 = b / 4 -> 0 <= c) as Hpos.
  { intros c Hc. pose proof (Z.div_mod c 4 ltac:(lia)). pose proof (Z.mod_pos_bound c 4 ltac:(lia)). lia. }
  assert (forall l' b', leaf p' ({[(l, b / 4)]} ∪ (A ∖ {[(S l, b)]})) l' b' <-> merge_set (leaf p A) l (b / 4) l' b') as Hleaf.
  { intros l' b'. unfold leaf at 1, merge_set. split.
    - intros [H0 H1]. rewrite Hb in H1 by done. destruct (decide (l' = S l /\ b' / 4 = b / 4)) as [[-> Hr]|Hd].
      + destruct H1 as [|H1]; [done|]. apply elem_of_union in H1 as [[= ? ->]%elem_of_singleton|H1]; [lia|].
        apply elem_of_difference in H1 as [H1 H2]. exfalso. destruct (pi_held _ _ Hi _ _ H1) as [_ H3].
        rewrite Hfree in H3; [done|done|done|]. intros ->. by apply H2, elem_of_singleton.
      + destruct H1 as [H1|H1]; [left; by split; [split; [|left]|]|].
        apply elem_of_union in H1 as [[= -> ->]%elem_of_singleton|H1]; [by right|].
        left. split; [|done]. split; [done|right; set_solver].
    - intros [[[H0 H1] H2]|[-> ->]].
      + split; [done|]. rewrite Hb, decide_False by done. destruct H1 as [H1|H1]; [by left|right].
        apply elem_of_union_r, elem_of_difference. split; [done|]. intros [= -> ->]%elem_of_singleton. by apply H2.
      + split; [done|]. right. set_solver. }
  assert (bit p l (b / 4) = false) as Hpar.
  { apply not_true_is_false. intros Ht. destruct (pi_anti _ _ Hi l (b / 4) (S l) b) as [? _]; [by split; [|left]|by split; [lia|right]|by apply within_child|lia]. }
  split.
  - done.
  - intros l' b' H0 H1. rewrite (in_pool_shape _ _ _ _ Hs). rewrite Hb in H1 by done. case_decide; [done|by apply (pi_free _ _ Hi)].
  - intros l' b' H1. rewrite (in_pool_shape _ _ _ _ Hs). apply elem_of_union in H1 as [[= -> ->]%elem_of_singleton|H1].
    + split; [|rewrite Hb by done; by rewrite decide_False by lia]. split; [lia|]. split; [done|].
      unfold nblocks in *. rewrite Nat2Z.inj_succ, Z.pow_succ_r in H0b by lia. apply Z.div_lt_upper_bound; lia.
    + apply elem_of_difference in H1 as [H1 H2]. destruct (pi_held _ _ Hi _ _ H1) as [H3 H4]. split; [done|].
      destruct H3 as [_ ?]. rewrite Hb by lia. by case_decide.
  - done.
  - intros l' a. rewrite Hf, (pi_list _ _ Hi). split.
    + intros [(c & H1 & H2 & ->) H3]. exists c. rewrite (addr_shape _ _ _ _ Hs), Hb by done. split_and!; [done| |done].
      case_decide as E; [|done]. exfalso. destruct E as [-> E]. apply (H3 c); [done|done| |done]. intros ->. congruence.
    + intros (c & H1 & H2 & ->). rewrite (addr_shape _ _ _ _ Hs). rewrite Hb in H2 by done. case_decide as E; [done|].
      split; [by exists c|]. intros d Hd1 Hd2 Hd3 Ea. apply E.
      destruct (addr_inj p A l' c (S l) d) as [-> ->]; [done|by split; [|left]|by apply Hquart|done|done].
  - eapply antichain_equiv; [intros; symmetry; apply Hleaf|]. apply merge_antichain; [apply Hi|]. intros c Hc. apply Hquart; [by apply Hpos|done].
  - rewrite (sh_n_levels _ _ Hs), (nblocks_shape _ _ _ Hs). eapply covers_equiv; [intros; symmetry; apply Hleaf|]. apply merge_covers, Hi.
  - intros l' b' H0. destruct (pi_merged _ _ Hi l' b' H0) as (i & H1 & H2). exists i. split; [done|]. rewrite Hb by lia. by case_decide.
Qed.

(** One critical section of [free_block]. *)
Lemma free_step_inv p A l b :
  pool_inv p A -> (l, b) ∈ A ->
  exists p' r, free_step p l (lsize p l) b = Some (p', r) /\ same_shape p p' /\
    match r with
    | None => pool_inv p' (A ∖ {[(l, b)]})
    | Some b' => exists l', l = S l' /\ b' = b / 4 /\ pool_inv p' ({[(l', b / 4)]} ∪ (A ∖ {[(l, b)]}))
    end.
Proof.
  intros Hi Ha. pose proof (pi_wf _ _ Hi) as Hw. destruct (pi_held _ _ Hi _ _ Ha) as [Hin Hfalse]. pose proof Hin as [_ H0b].
  unfold free_step. fold (addr p l b).
  destruct (set_free_bit_spec p l b Hw Hin) as (p1 & -> & Hs & Ef & _ & Hw1 & Hb1).
  assert (block_fits p1 (addr p l b) (lsize p l) = true) as Hfit.
  { rewrite <- (addr_shape p p1 _ _ Hs), <- (lsize_shape p p1 _ Hs). apply block_fits_in; [done|]. by apply (in_pool_shape p p1). }
  rewrite Hfit. destruct l as [|l].
  { eexists _, _. split; [done|]. split; [by apply (same_shape_trans p p1)|]. apply free_append_inv; auto. }
  destruct (partner_bits_spec p1 l b Hw1) as (pb & -> & Hpb); [by apply (in_pool_shape p p1)|].
  pose proof (Z.div_pos b 4 ltac:(lia) ltac:(lia)) as Hq.
  destruct (Z.eqb_spec pb 0xf) as [E|E].
  - pose proof (proj1 Hpb E) as Hall. destruct (unlink_partners_spec 4 0 p1 l b Hw1) as (p2 & E2 & Hs2 & Hw2 & Hb2 & Hn2 & Hf2);
      [by apply (in_pool_shape p p1)|lia|done|].
    rewrite (lsize_shape p p1 _ Hs) in E2. rewrite E2. eexists _, _. split; [done|].
    split; [exact (same_shape_trans p p1 p2 Hs Hs2)|]. exists l. split_and!; [done|done|].
    assert (forall c, 0 <= c -> c / 4 = b / 4 <-> 4 * (b / 4) + 0 <= c < 4 * (b / 4) + 4) as Hquart.
    { intros c H0. pose proof (Z.div_mod c 4 ltac:(lia)). pose proof (Z.mod_pos_bound c 4 ltac:(lia)). lia. }
    apply (free_merge_inv p A l b p2); try done.
    + exact (same_shape_trans p p1 p2 Hs Hs2).
    + intros c H0 Hc Hne. apply Hquart in Hc; [|done]. specialize (Hall (c - 4 * (b / 4)) ltac:(lia)).
      rewrite Hb1 in Hall by lia. rewrite decide_False in Hall by lia. rewrite <- Hall. f_equal. lia.
    + intros l' b' H0. rewrite Hb2, Hb1 by done. destruct (decide (l' = S l /\ b' / 4 = b / 4)) as [[-> Hc]|Hn].
      * by rewrite decide_True by (split; [done|by apply Hquart]).
      * rewrite decide_False by (intros [-> Hr]; apply Hn; split; [done|by apply Hquart]).
        by rewrite decide_False by (intros [-> ->]; by apply Hn).
    + intros l'. apply Hn2. rewrite Ef. apply Hi.
    + intros l' a. rewrite Hf2, Ef. split; intros [H1 H2]; (split; [done|]).
      * intros c H0 Hc Hne. rewrite <- (addr_shape p p1 _ _ Hs). apply H2; [by apply Hquart|done].
      * intros c Hc Hne. rewrite (addr_shape p p1 _ _ Hs). apply H2; [lia|apply Hquart; lia|done].
  - eexists _, _. split; [done|]. split; [by apply (same_shape_trans p p1)|]. apply free_append_inv; try done. right.
    destruct (bit p1 (S l) (4 * (b / 4) + 0)) eqn:E0; [|by exists 0].
    destruct (bit p1 (S l) (4 * (b / 4) + 1)) eqn:E1; [|by exists 1].
    destruct (bit p1 (S l) (4 * (b / 4) + 2)) eqn:E2; [|by exists 2].
    destruct (bit p1 (S l) (4 * (b / 4) + 3)) eqn:E3; [|by exists 3].
    exfalso. apply E, (proj2 Hpb). intros i Hx. assert (i = 0 \/ i = 1 \/ i = 2 \/ i = 3) as [-> | [-> | [-> | ->]]] by lia; done.
Qed.

(** ** Interleaved operations

    A state is the pool with the set of blocks that some caller holds, by level
    and number.  A step is one critical section: a caller takes a block off a
    free list, splits a block it holds and keeps the first quarter, or returns a
    block, which either ends its [free_block] or leaves it with the block of the
    level above. *)
Inductive pool_step : k_mem_pool * gset (nat * Z) -> k_mem_pool * gset (nat * Z) -> Prop :=
| step_alloc p A l p' a :
    (l < n_levels p)%nat -> alloc_block p l (lsize p l) = Some (p', Some a) ->
    pool_step (p, A) (p', {[(l, block_num p a (lsize p l))]} ∪ A)
| step_break p A l b p' a :
    (l, b) ∈ A -> (S l < n_levels p)%nat -> break_block p (addr p l b) l = Some (p', a) ->
    pool_step (p, A) (p', {[(S l, block_num p a (lsize p (S l)))]} ∪ (A ∖ {[(l, b)]}))
| step_free p A l b p' :
    (l, b) ∈ A -> free_step p l (lsize p l) b = Some (p', None) ->
    pool_step (p, A) (p', A ∖ {[(l, b)]})
| step_merge p A l b p' b' :
    (S l, b) ∈ A -> free_step p (S l) (lsize p (S l)) b = Some (p', Some b') ->
    pool_step (p, A) (p', {[(l, b')]} ∪ (A ∖ {[(S l, b)]})).

(** ** Freeing *)

Lemma free_block_inv p A l b :
  pool_inv p A -> (l, b) ∈ A ->
  exists p', free_block p l b = Some p' /\ same_shape p p' /\ pool_inv p' (A ∖ {[(l, b)]}) /\ rtc pool_step (p, A) (p', A ∖ {[(l, b)]}).
Proof.
  revert p A b. induction l as [|l IH]; intros p A b Hi Ha; cbn [free_block];
    destruct (free_step_inv p A _ b Hi Ha) as (p1 & r & Est & Hs & Hr); rewrite Est; destruct r as [b'|].
  - destruct Hr as (l' & ? & _). done.
  - exists p1. split_and!; try done. apply rtc_once. by constructor.
  - destruct Hr as (l' & [= <-] & -> & Hi1). destruct (IH p1 _ (b / 4) Hi1) as (p' & E & Hs' & Hi' & Hst); [set_solver|].
    assert (({[(l, b / 4)]} ∪ A ∖ {[(S l, b)]}) ∖ {[(l, b / 4)]} = A ∖ {[(S l, b)]}) as <-.
    2: { exists p'. split_and!; [done|by apply (same_shape_trans p p1)|done|]. eapply rtc_l; [by eapply step_merge|done]. }
    assert ((l, b / 4) ∉ A) as Hn; [|set_solver]. intros Hx.
    destruct (pi_anti _ _ Hi l (b / 4) (S l) b) as [? _]; [| |by apply within_child|lia].
    + split; [|by right]. apply (pi_held _ _ Hi _ _ Hx).
    + split; [|by right]. apply (pi_held _ _ Hi _ _ Ha).
  - exists p1. split_and!; try done. apply rtc_once. by constructor.
Qed.

(** ** Allocation *)

(** The walk finds the last level whose blocks are large enough, and the last
    one of those with a free block. *)
Lemma find_levels_spec n i p (size : Z) (al fl : option nat) :
  let '(al', fl') := find_levels n i p size al fl in
  (exists k, (k <= n)%nat /\ (forall j, (i <= j < i + k)%nat -> size <= lsize p j) /\ ((k < n)%nat -> lsize p (i + k) < size) /\
    al' = (if decide (k = 0)%nat then al else Some (i + k - 1)%nat) /\
    match fl' with
    | Some f => (i <= f < i + k)%nat /\ free_list p !!! f <> [] /\ (forall j, (f < j < i + k)%nat -> free_list p !!! j = []) \/
                fl = Some f /\ (forall j, (i <= j < i + k)%nat -> free_list p !!! j = [])
    | None => fl = None /\ (forall j, (i <= j < i + k)%nat -> free_list p !!! j = [])
    end).
Proof.
  revert i al fl. induction n as [|n IH]; intros i al fl; cbn [find_levels].
  { exists 0%nat. split_and!; try done; try lia. destruct fl; [right|]; (split; [done|intros; lia]). }
  destruct (Z.ltb_spec (lsize p i) size) as [Hlt|Hge].
  { exists 0%nat. split_and!; try done; try lia. - by rewrite Nat.add_0_r. - destruct fl; [right|]; (split; [done|intros; lia]). }
  specialize (IH (S i) (Some i) (if negb (level_empty p i) then Some i else fl)).
  destruct (find_levels n (S i) p size (Some i) _) as [al' fl']. destruct IH as (k & H1 & H2 & H3 & H4 & H5).
  exists (S k). split_and!; [lia| | | |].
  - intros j Hj. destruct (decide (j = i)) as [->|]; [done|]. apply H2. lia.
  - intros Hk. rewrite Nat.add_succ_r. apply H3. lia.
  - rewrite H4. rewrite (decide_False (P := S k = 0%nat)) by lia. case_decide; f_equal; lia.
  - unfold level_empty, Lst.is_empty in H5.
    destruct (bool_decide_reflect (free_list p !!! i = [])) as [Ee|Ee]; cbn [negb] in H5; destruct fl' as [f|].
    + destruct H5 as [(Hr & Hne & Hx)|[-> Hx]]; [left; split; [lia|split; [done|intros; apply Hx; lia]]|].
      right. split; [done|]. intros j Hj. destruct (decide (j = i)) as [->|]; [done|]. apply Hx. lia.
    + destruct H5 as [-> Hx]. split; [done|]. intros j Hj. destruct (decide (j = i)) as [->|]; [done|]. apply Hx. lia.
    + left. destruct H5 as [(Hr & Hne & Hx)|[[= <-] Hx]]; [split; [lia|split; [done|intros; apply Hx; lia]]|].
      split; [lia|split; [done|intros; apply Hx; lia]].
    + destruct H5 as [[=] _].
Qed.

(** Splitting a held block down to a level. *)
Lemma break_levels_inv n l p A b :
  pool_inv p A -> (l, b) ∈ A -> (l + n < n_levels p)%nat ->
  exists p', break_levels n l p (addr p l b) = Some (p', addr p (l + n) (4 ^ Z.of_nat n * b)) /\ same_shape p p' /\
    pool_inv p' ({[((l + n)%nat, 4 ^ Z.of_nat n * b)]} ∪ (A ∖ {[(l, b)]})) /\
    rtc pool_step (p, A) (p', {[((l + n)%nat, 4 ^ Z.of_nat n * b)]} ∪ (A ∖ {[(l, b)]})).
Proof.
  revert l p A b. induction n as [|n IH]; intros l p A b Hi Ha Hl; cbn [break_levels].
  { exists p. rewrite Nat.add_0_r, Z.mul_1_l. split; [done|]. split; [apply same_shape_refl|].
    by rewrite <- (union_difference_singleton_L (l, b) A Ha). }
  destruct (break_block_inv p A l b Hi Ha ltac:(lia)) as (p1 & Est & Hs & Hi1). rewrite Est.
  apply (step_break p A) in Est; [|done|lia]. rewrite (block_num_addr p (S l)) in Est by (apply Hi || lia).
  rewrite <- (addr_shape _ _ _ _ Hs). destruct (IH (S l) p1 _ (4 * b) Hi1) as (p' & -> & Hs' & Hi' & Hst); [set_solver|rewrite (sh_n_levels _ _ Hs); lia|].
  rewrite Nat2Z.inj_succ, Z.pow_succ_r by lia.
  replace (4 ^ Z.of_nat n * (4 * b)) with (4 * 4 ^ Z.of_nat n * b) in * by lia.
  replace (S l + n)%nat with (l + S n)%nat in * by lia. exists p'. split; [by rewrite (addr_shape _ _ _ _ Hs)|].
  split; [by apply (same_shape_trans p p1)|].
  assert (((({[(S l, 4 * b)]} ∪ A ∖ {[(l, b)]}) : gset (nat * Z)) ∖ {[(S l, 4 * b)]}) = A ∖ {[(l, b)]}) as E; [|rewrite E in Hi', Hst; split; [done|by eapply rtc_l]].
  assert ((S l, 4 * b) ∉ A) as Hn; [|set_solver]. intros Hx. destruct (pi_held _ _ Hi _ _ Ha) as [[_ ?] _].
  destruct (pi_anti _ _ Hi l b (S l) (4 * b)) as [? _]; [by split; [lia|right]|by split; [lia|right]| |lia].
  apply within_child. rewrite Z.mul_comm. by apply Z.div_mul.
Qed.

Lemma lsize_anti p l l' : pool_wf p -> (l <= l')%nat -> (l' < n_levels p)%nat -> lsize p l' <= lsize p l.
Proof.
  intros Hw Hle. induction Hle as [|m Hm IH]; intros Hl; [done|].
  pose proof (lsize_quarter p m Hw Hl). destruct (lsize_spec p (S m) Hw Hl). specialize (IH ltac:(lia)). lia.
Qed.

Lemma nblocks_le p l l' : pool_wf p -> (l <= l')%nat -> nblocks p l <= nblocks p l'.
Proof.
  intros Hw Hl. unfold nblocks. pose proof (pw_n _ Hw). pose proof (Z.pow_le_mono_r 4 (Z.of_nat l) (Z.of_nat l') ltac:(lia) ltac:(lia)). nia.
Qed.

(** The search gives up only when no free block is large enough. *)
Lemma find_levels_inv p A (size : Z) :
  pool_inv p A ->
  match find_levels (n_levels p) 0 p size None None with
  | (Some al, Some fl) => (fl <= al < n_levels p)%nat /\ size <= lsize p al /\ ((S al < n_levels p)%nat -> lsize p (S al) < size) /\
                          free_list p !!! fl <> []
  | _ => forall l b, 0 <= b -> bit p l b = true -> lsize p l < size
  end.
Proof.
  intros Hi. pose proof (pi_wf _ _ Hi) as Hw. pose proof (find_levels_spec (n_levels p) 0 p size None None) as H.
  destruct (find_levels _ _ _ _ _ _) as [al fl]. destruct H as (k & H1 & H2 & H3 & H4 & H5).
  assert ((forall j, (0 <= j < 0 + k)%nat -> free_list p !!! j = []) -> forall l b, 0 <= b -> bit p l b = true -> lsize p l < size) as Hnone.
  { intros He l b Hb Hbit. assert (free_list p !!! l <> []) as Hne.
    { assert (addr p l b ∈ free_list p !!! l) as Ha by (apply (pi_list _ _ Hi); eauto). intros E. rewrite E in Ha. by apply elem_of_nil in Ha. }
    destruct (pi_free _ _ Hi l b Hb Hbit) as [Hl _]. destruct (decide (l < k)%nat) as [Hk|Hk]; [destruct Hne; apply He; lia|].
    specialize (H3 ltac:(lia)). pose proof (lsize_anti p (0 + k) l Hw ltac:(lia) Hl). lia. }
  destruct fl as [f|].
  - destruct H5 as [(Hr & Hne & Hx)|[[=] _]]. rewrite decide_False in H4 by lia. subst al.
    split_and!; [lia|lia|apply H2; lia| |done]. intros Hs. replace (S (0 + k - 1))%nat with (0 + k)%nat in * by lia. apply H3. lia.
  - destruct H5 as [_ He]. destruct al; by apply Hnone.
Qed.

(** The whole of [pool_alloc]. *)
Lemma pool_alloc_inv p A (id size : Z) :
  pool_inv p A -> (n_levels p <= 16)%nat -> nblocks p (n_levels p - 1) <= 2 ^ 20 ->
  exists p' rc r, pool_alloc p id size = Some (p', rc, r) /\ same_shape p p' /\
  match r with
  | None => rc = - ENOMEM /\ p' = p /\ forall l b, 0 <= b -> bit p l b = true -> lsize p l < size
  | Some blk =>
      rc = 0 /\ id_pool blk = id mod 2 ^ 8 /\ data blk = addr p (id_level blk) (id_block blk) /\
      size <= lsize p (id_level blk) /\ ((S (id_level blk) < n_levels p)%nat -> lsize p (S (id_level blk)) < size) /\
      (id_level blk, id_block blk) ∉ A /\ pool_inv p' ({[(id_level blk, id_block blk)]} ∪ A) /\
      rtc pool_step (p, A) (p', {[(id_level blk, id_block blk)]} ∪ A)
  end.
Proof.
  intros Hi H16 H20. pose proof (pi_wf _ _ Hi) as Hw. unfold pool_alloc. pose proof (find_levels_inv p A size Hi) as Hf.
  destruct (find_levels _ _ _ _ _ _) as [[al|] [fl|]]; try (exists p, (- ENOMEM), None; split; [done|split; [apply same_shape_refl|done]]).
  destruct Hf as (Hl & Hsz & Hbest & Hne).
  destruct (alloc_block_inv p A fl Hi ltac:(lia)) as (p1 & r & Est & Hs & Hr). rewrite Est. destruct r as [a|]; [|by destruct Hr].
  destruct Hr as (b & -> & Hb & Hbit & Hi1). apply (step_alloc p A) in Est; [|lia]. rewrite block_num_addr in Est by (done || lia). pose proof (pi_free _ _ Hi fl b Hb Hbit) as [_ Hbn].
  rewrite <- (addr_shape p p1 _ _ Hs).
  destruct (break_levels_inv (al - fl) fl p1 _ b Hi1) as (p2 & -> & Hs2 & Hi2 & Hst); [set_solver|rewrite (sh_n_levels _ _ Hs); lia|].
  replace (fl + (al - fl))%nat with al in * by lia. set (c := 4 ^ Z.of_nat (al - fl) * b) in *.
  assert (same_shape p p2) as Hs' by by apply (same_shape_trans p p1).
  rewrite <- (addr_shape p1 p2 _ _ Hs2), (block_num_addr p2) by (apply Hi2 || (rewrite (sh_n_levels _ _ Hs'); lia)).
  pose proof (leaf_in p2 _ al c Hi2) as Hin. rewrite (in_pool_shape _ _ _ _ Hs') in Hin.
  destruct Hin as [_ Hc]; [split; [unfold c; nia|right; set_solver]|].
  pose proof (nblocks_le p al (n_levels p - 1) Hw ltac:(lia)).
  rewrite Nat.mod_small, (Z.mod_small c) by lia. eexists _, _, _. split; [done|]. split; [done|]. cbn [id_pool data id_level id_block].
  assert ((fl, b) ∉ A) as Hn by (intros Hx; apply (pi_held _ _ Hi) in Hx as [_ Hx]; congruence).
  split; [done|]. split; [done|]. split; [by rewrite (addr_shape _ _ _ _ Hs')|]. split; [done|]. split; [done|]. split.
  - intros Hx. assert (fl = al /\ b = c) as [E1 E2]; [|apply Hn; by rewrite E1, E2].
    apply (pi_anti _ _ Hi fl b al c); [by split; [|left]|by split; [lia|right]|]. split; [lia|]. unfold c.
    rewrite Z.mul_comm. apply Z.div_mul. pose proof (Z.pow_pos_nonneg 4 (Z.of_nat (al - fl)) ltac:(lia) ltac:(lia)). lia.
  - assert (({[(fl, b)]} ∪ A) ∖ {[(fl, b)]} = A) as E by set_solver. rewrite E in Hi2, Hst. split; [done|by eapply rtc_l].
Qed.

(** ** Coalescing *)

(** When no block is held, all memory is merged into the blocks of level 0. *)
Lemma all_merged p l b : pool_inv p ∅ -> 0 <= b -> bit p l b = true <-> l = 0%nat /\ b < n_max p.
Proof.
  intros Hi Hb. pose proof (pi_wf _ _ Hi) as Hw. pose proof (pw_levels _ Hw) as Hp.
  assert (forall d k, (n_levels p - 1 - k < d)%nat -> (0 < k)%nat -> forall c, 0 <= c -> bit p k c = false) as Hnone.
  { induction d as [|d IH]; intros k Hd Hk c Hc; [lia|]. apply not_true_is_false. intros Ht.
    pose proof (pi_free _ _ Hi k c Hc Ht) as [Hkl Hcn]. destruct k as [|k]; [lia|]. clear Hk.
    destruct (pi_merged _ _ Hi k (c / 4) ltac:(apply Z.div_pos; lia)) as (i & Hi4 & Hf).
    set (s := 4 * (c / 4) + i) in *. pose proof (Z.div_pos c 4 Hc ltac:(lia)) as H4.
    assert (s / 4 = c / 4) as Hs4 by (symmetry; apply (Z.div_unique_pos s 4 (c / 4) i); lia).
    (* a unit inside the partner s, and the free block over it *)
    set (m := (n_levels p - 1 - S k)%nat). pose proof (Z.pow_pos_nonneg 4 (Z.of_nat m) ltac:(lia) ltac:(lia)) as Hpm.
    assert (within (S k) s (n_levels p - 1) (s * 4 ^ Z.of_nat m)) as Hws by (split; [lia|]; fold m; apply Z.div_mul; lia).
    assert (0 <= s * 4 ^ Z.of_nat m < nblocks p (n_levels p - 1)) as Hu.
    { unfold nblocks in *. replace (n_levels p - 1)%nat with (S k + m)%nat by lia. rewrite Nat2Z.inj_add, Z.pow_add_r by lia.
      rewrite Nat2Z.inj_succ, Z.pow_succ_r in * by lia. pose proof (Z.div_mod c 4 ltac:(lia)). pose proof (Z.mod_pos_bound c 4 ltac:(lia)).
      assert (0 <= s < n_max p * (4 * 4 ^ Z.of_nat k)) as [? ?] by lia. rewrite Z.mul_assoc. split; [nia|]. apply Z.mul_lt_mono_pos_r; lia. }
    destruct (pi_cover _ _ Hi _ Hu) as (l' & c' & Hlf & Hw'). pose proof Hlf as [Hc' [Hbit|Hx]]; [|set_solver].
    destruct (decide (S k < l')%nat) as [Hlt|Hge].
    { pose proof (pi_free _ _ Hi l' c' Hc' Hbit) as [? _]. rewrite IH in Hbit by lia. done. }
    pose proof (within_linear _ _ _ _ _ _ Hw' Hws ltac:(lia)) as Hls.
    destruct (decide (l' = S k)) as [->|Hne]; [apply within_same in Hls as ->; congruence|].
    destruct (pi_anti _ _ Hi l' c' (S k) c) as [? _]; [done|by split; [|left]| |lia].
    apply (within_trans _ _ k (c / 4)); [|by apply within_child].
    apply (within_linear _ _ k (c / 4) (S k) s Hls); [by apply within_child|lia]. }
  split.
  - intros Ht. destruct l as [|l]; [|rewrite (Hnone (n_levels p) (S l)) in Ht by lia; done].
    pose proof (pi_free _ _ Hi _ _ Hb Ht) as [_ Hn]. unfold nblocks in Hn. lia.
  - intros [-> Hn]. set (m := (n_levels p - 1)%nat). pose proof (Z.pow_pos_nonneg 4 (Z.of_nat m) ltac:(lia) ltac:(lia)) as Hpm.
    destruct (pi_cover _ _ Hi (b * 4 ^ Z.of_nat m)) as (l' & c' & [Hc' [Hbit|Hx]] & Hwn); [|  |set_solver].
    { unfold nblocks. fold m. nia. }
    destruct l' as [|l']; [|rewrite (Hnone (n_levels p) (S l')) in Hbit by lia; done].
    destruct Hwn as [_ <-]. rewrite Nat.sub_0_r in Hbit. fold m in Hbit. by rewrite Z.div_mul in Hbit by lia.
Qed.

(** ** Initialisation *)

Lemma level_size p l (mn : Z) :
  0 < mn -> max_sz p = 4 ^ Z.of_nat (n_levels p) * mn -> (l <= n_levels p)%nat ->
  buf_size p / (4 ^ Z.of_nat (n_levels p - l) * mn) = nblocks p l.
Proof.
  intros Hmn Em Hl. unfold buf_size, nblocks. rewrite Em.
  replace (n_levels p) with (l + (n_levels p - l))%nat at 1 by lia. rewrite Nat2Z.inj_add, Z.pow_add_r by lia.
  pose proof (Z.pow_pos_nonneg 4 (Z.of_nat (n_levels p - l)) ltac:(lia) ltac:(lia)).
  replace (n_max p * (4 ^ Z.of_nat l * 4 ^ Z.of_nat (n_levels p - l) * mn))
    with (n_max p * 4 ^ Z.of_nat l * (4 ^ Z.of_nat (n_levels p - l) * mn)) by lia.
  apply Z.div_mul. nia.
Qed.

(** The loop over the levels: what it keeps, the lists, and the words. *)
Lemma init_levels_shape n i p (sz bits : Z) :
  let p' := init_levels n i sz bits p in
  buf p' = buf p /\ max_sz p' = max_sz p /\ n_max p' = n_max p /\ n_levels p' = n_levels p /\ words p' = words p /\
  length (levels p') = length (levels p).
Proof.
  revert i p sz bits. induction n as [|n IH]; intros i p sz bits; cbn [init_levels]; [done|].
  destruct (_ <? 32).
  - exact (IH (S i) (set_max_inline (set_free_list p (Lst.init (free_list p) i)) i) (_ALIGN4 (sz / 4)) bits).
  - set (p1 := set_levels _ _). destruct (IH (S i) p1 (_ALIGN4 (sz / 4)) (bits + 4 * ((buf_size p / sz + 31) / 32))) as (? & ? & ? & ? & ? & El).
    split_and!; try done. etransitivity; [exact El|]. apply length_insert.
Qed.

Lemma init_levels_lists n i p (sz bits : Z) l :
  free_list (init_levels n i sz bits p) !!! l = if decide (i <= l < i + n)%nat then [] else free_list p !!! l.
Proof.
  revert i p sz bits. induction n as [|n IH]; intros i p sz bits; cbn [init_levels]; [by rewrite decide_False by lia|].
  assert (Lst.init (free_list p) i !!! l = if decide (l = i) then [] else free_list p !!! l) as Hl.
  { unfold Lst.init. case_decide as E; [rewrite E; apply lookup_total_insert_eq|by rewrite lookup_total_insert_ne]. }
  destruct (_ <? 32); rewrite IH; cbn [free_list set_levels set_max_inline set_free_list]; rewrite Hl; repeat case_decide; done || lia.
Qed.

Lemma init_levels_words n i p (mn sz bits : Z) :
  0 < mn -> max_sz p = 4 ^ Z.of_nat (n_levels p) * mn -> (i + n = n_levels p)%nat -> length (levels p) = n_levels p ->
  (n <> 0%nat -> sz = 4 ^ Z.of_nat (n_levels p - i) * mn) -> bits = buf p + buf_size p + 4 * word_off p i ->
  let p' := init_levels n i sz bits p in
  (max_inline_level p' = max_inline_level p \/ (i <= max_inline_level p' < n_levels p)%nat /\ nblocks p (max_inline_level p') < 32) /\
  (forall l, (i <= l < n_levels p)%nat -> nblocks p l < 32 -> (l <= max_inline_level p')%nat) /\
  (forall l, (l < n_levels p)%nat ->
     levels p' !!! l = if bool_decide (i <= l)%nat && (32 <=? nblocks p l) then mk_lvl (buf p + buf_size p + 4 * word_off p l) else levels p !!! l) /\
  ((max_inline_level p <= i)%nat -> (max_inline_level p <= max_inline_level p')%nat).
Proof.
  intros Hmn. revert i p sz bits. induction n as [|n IH]; intros i p sz bits Em Hn Hlen Hsz Hbits; cbn [init_levels].
  { split_and!; [by left|intros; lia| |done]. intros l Hl. by rewrite bool_decide_false by lia. }
  specialize (Hsz ltac:(lia)). assert (buf_size p / sz = nblocks p i) as -> by (rewrite Hsz; apply level_size; auto; lia).
  assert (n <> 0%nat -> _ALIGN4 (sz / 4) = 4 ^ Z.of_nat (n_levels p - S i) * mn) as Hq.
  { intros Hn0. rewrite Hsz. replace (n_levels p - i)%nat with (S (n_levels p - S i)) by lia.
    rewrite Nat2Z.inj_succ, Z.pow_succ_r, <- Z.mul_assoc, Z.mul_comm, Z.div_mul by lia.
    replace (n_levels p - S i)%nat with (S (n_levels p - S (S i))) by lia.
    rewrite Nat2Z.inj_succ, Z.pow_succ_r, <- Z.mul_assoc by lia. apply align4_mul. }
  assert (word_off p (S i) = word_off p i + if nblocks p i <? 32 then 0 else (nblocks p i + 31) / 32) as Ho by done.
  assert (forall p1 : k_mem_pool, n_max p1 = n_max p -> forall l, word_off p1 l = word_off p l) as Hoff by (intros; by apply word_off_ext).
  destruct (Z.ltb_spec (nblocks p i) 32) as [E|E].
  - set (p1 := set_max_inline (set_free_list p (Lst.init (free_list p) i)) i).
    destruct (IH (S i) p1 (_ALIGN4 (sz / 4)) bits Em ltac:(cbn; lia) Hlen Hq) as (Hm & Hin & Hlv & Hge); [rewrite Hoff by done; change (buf_size p1) with (buf_size p); change (buf p1) with (buf p); lia|].
    specialize (Hge ltac:(cbn; lia)). change (max_inline_level p1) with i in *. change (n_levels p1) with (n_levels p) in *.
    cbv zeta. split_and!.
    + right. destruct Hm as [-> |[Hm Hb]]; [split; [lia|done]|split; [lia|done]].
    + intros l Hl Hb. destruct (decide (l = i)) as [->|]; [done|]. apply Hin; [lia|done].
    + intros l Hl. rewrite Hlv, Hoff by done. change (nblocks p1 l) with (nblocks p l).
      destruct (decide (l = i)) as [->|]; [rewrite bool_decide_false by lia; by rewrite (proj2 (Z.leb_gt _ _)), !andb_false_r by lia|].
      by rewrite (bool_decide_ext (S i <= l)%nat (i <= l)%nat) by lia.
    + lia.
  - set (p1 := set_levels _ _).
    destruct (IH (S i) p1 (_ALIGN4 (sz / 4)) (bits + 4 * ((nblocks p i + 31) / 32)) Em ltac:(cbn; lia)) as (Hm & Hin & Hlv & Hge);
      [cbn; by rewrite length_insert|done|rewrite Hoff by done; change (buf_size p1) with (buf_size p); change (buf p1) with (buf p); lia|].
    change (max_inline_level p1) with (max_inline_level p) in *. change (n_levels p1) with (n_levels p) in *.
    change (levels p1) with (<[i := mk_lvl bits]> (levels p)) in *. cbv zeta. split_and!.
    + destruct Hm as [Hm|[Hm Hb]]; [by left|right; split; [lia|done]].
    + intros l Hl Hb. destruct (decide (l = i)) as [->|]; [lia|]. apply Hin; [lia|done].
    + intros l Hl. rewrite Hlv, Hoff by done. change (nblocks p1 l) with (nblocks p l).
      destruct (decide (l = i)) as [->|].
      * rewrite bool_decide_false, bool_decide_true, (proj2 (Z.leb_le _ _)) by lia. cbn [andb]. rewrite list_lookup_total_insert_eq by lia. by rewrite Hbits.
      * rewrite list_lookup_total_insert_ne by done. by rewrite (bool_decide_ext (S i <= l)%nat (i <= l)%nat) by lia.
    + intros Hx. apply Hge. lia.
Qed.

(** The sizes of [K_MEM_POOL_DEFINE]: [k] splits into quarters from the largest
    block to the smallest. *)
Record sizes_ok (minsz maxsz nmax : Z) (k : nat) : Prop := {
  so_min : 8 <= minsz /\ minsz mod 4 = 0;
  so_max : maxsz = 4 ^ Z.of_nat k * minsz;
  so_levels : (k < 15)%nat;
  so_n : 1 <= nmax <= 32;
  so_total : nmax * maxsz < 2 ^ 32
}.

Lemma sum_levels_snoc (f : nat -> Z) (ls : list nat) l : sum_levels f (ls ++ [l]) = sum_levels f ls + f l.
Proof. induction ls as [|x ls IH]; simpl; lia. Qed.

Lemma mpool_lvls (minsz maxsz : Z) (k : nat) :
  8 <= minsz -> maxsz = 4 ^ Z.of_nat k * minsz -> (k < 15)%nat -> _MPOOL_LVLS maxsz minsz = Z.of_nat k + 1.
Proof.
  intros Hmn -> Hk. unfold _MPOOL_LVLS, _MPOOL_MINBLK. rewrite (proj2 (Z.leb_le _ _)) by lia. unfold __MPOOL_LVLS.
  assert (forall l, _MPOOL_HAVE_LVL (4 ^ Z.of_nat k * minsz) minsz l = if bool_decide (l <= k)%nat then 1 else 0) as Hl.
  { intros l. unfold _MPOOL_HAVE_LVL. rewrite Z.shiftr_div_pow2, Z.pow_mul_r by lia. change (2 ^ 2) with 4.
    pose proof (Z.pow_pos_nonneg 4 (Z.of_nat l) ltac:(lia) ltac:(lia)). case_bool_decide as E.
    - replace k with (l + (k - l))%nat by lia. rewrite Nat2Z.inj_add, Z.pow_add_r by lia.
      pose proof (Z.pow_pos_nonneg 4 (Z.of_nat (k - l)) ltac:(lia) ltac:(lia)).
      rewrite <- Z.mul_assoc, Z.mul_comm, Z.div_mul by lia. by rewrite (proj2 (Z.leb_le _ _)) by nia.
    - rewrite (proj2 (Z.leb_gt _ _)); [done|]. apply Z.div_lt_upper_bound; [done|].
      pose proof (Z.pow_lt_mono_r 4 (Z.of_nat k) (Z.of_nat l) ltac:(lia) ltac:(lia) ltac:(lia)). nia. }
  assert (forall m, sum_levels (_MPOOL_HAVE_LVL (4 ^ Z.of_nat k * minsz) minsz) (seq 0 m) = Z.of_nat (m `min` S k)) as Hs.
  { induction m as [|m IH]; [done|]. rewrite seq_S, sum_levels_snoc, IH, Hl. case_bool_decide; lia. }
  rewrite Hs. lia.
Qed.

(** The room behind the buffer is enough for the arrays of [init_mem_pool]: the
    word that [_MPOOL_LBIT_WORDS] leaves out for a level of exactly 32 blocks is
    made up for by the level that [_MPOOL_LBIT_BYTES] counts in excess. *)
Lemma bits_room p (minsz maxsz nmax : Z) (k : nat) :
  sizes_ok minsz maxsz nmax k -> n_max p = nmax -> word_off p (S k) <= _MPOOL_BITS_SIZE maxsz minsz nmax / 4.
Proof.
  intros Hs En. pose proof (so_n _ _ _ _ Hs). pose proof (so_levels _ _ _ _ Hs). set (v := _MPOOL_LBIT_WORDS nmax).
  assert (forall l, _MPOOL_LBIT_WORDS_UNCLAMPED nmax l = (nblocks p l + 31) / 32) as Hu.
  { intros l. unfold _MPOOL_LBIT_WORDS_UNCLAMPED, nblocks. by rewrite Z.shiftl_mul_pow2, Z.pow_mul_r, En by lia. }
  assert (forall l, 1 <= nblocks p l /\ nblocks p (S l) = 4 * nblocks p l) as Hnb.
  { intros l. unfold nblocks. rewrite Nat2Z.inj_succ, Z.pow_succ_r by lia. pose proof (Z.pow_pos_nonneg 4 (Z.of_nat l) ltac:(lia) ltac:(lia)). nia. }
  assert (forall l, 0 <= v l /\ (if nblocks p l <? 32 then 0 else (nblocks p l + 31) / 32) = v l + (if nblocks p l =? 32 then 1 else 0) /\
    (128 <= nblocks p l -> 1 <= v l)) as Hv.
  { intros l. unfold v, _MPOOL_LBIT_WORDS. rewrite Hu. destruct (Hnb l) as [? _].
    pose proof (Z.div_mod (nblocks p l + 31) 32 ltac:(lia)). pose proof (Z.mod_pos_bound (nblocks p l + 31) 32 ltac:(lia)).
    destruct (Z.ltb_spec (nblocks p l) 32), (Z.eqb_spec (nblocks p l) 32), (Z.ltb_spec ((nblocks p l + 31) / 32) 2); lia. }
  assert (forall m, word_off p m <= sum_levels v (seq 0 m) + (if 128 <=? nblocks p m then 1 else 0)) as Hw.
  { induction m as [|m IH]; [cbn; destruct (_ <=? _); lia|]. rewrite seq_S, sum_levels_snoc. cbn [word_off].
    destruct (Hv m) as (_ & -> & _). destruct (Hnb m) as [? ->].
    destruct (Z.leb_spec 128 (nblocks p m)), (Z.eqb_spec (nblocks p m) 32), (Z.leb_spec 128 (4 * nblocks p m)); cbn [Nat.add] in *; lia. }
  specialize (Hw (S k)). destruct (Hv (S k)) as (Hv0 & _ & Hv1).
  unfold _MPOOL_BITS_SIZE. set (f := fun l => _MPOOL_LBIT_BYTES maxsz minsz l nmax).
  assert (forall l, f l = if bool_decide (l <= S k)%nat then 4 * v l else 0) as Hf.
  { intros l. unfold f, _MPOOL_LBIT_BYTES. rewrite (mpool_lvls minsz maxsz k) by apply Hs. case_bool_decide.
    - by rewrite (proj2 (Z.leb_le _ _)) by lia.
    - by rewrite (proj2 (Z.leb_gt _ _)) by lia. }
  assert (forall m, (m <= S (S k))%nat -> sum_levels f (seq 0 m) = 4 * sum_levels v (seq 0 m)) as Hlow.
  { induction m as [|m IH]; intros Hm; [done|]. rewrite !seq_S, !sum_levels_snoc, IH, Hf by lia. rewrite bool_decide_true by (cbn; lia). lia. }
  assert (forall m, (S (S k) <= m)%nat -> sum_levels f (seq 0 m) = 4 * sum_levels v (seq 0 (S (S k)))) as Hhigh.
  { induction 1 as [|m Hm IH]; [by apply Hlow|]. rewrite seq_S, sum_levels_snoc, IH, Hf. rewrite bool_decide_false by (cbn; lia). lia. }
  rewrite (Hhigh 16%nat) by lia. rewrite Z.mul_comm, Z.div_mul by lia. rewrite (seq_S (S k)), sum_levels_snoc. cbn [Nat.add].
  destruct (Z.leb_spec 128 (nblocks p (S k))); lia.
Qed.

Lemma init_blocks_spec n bn p :
  pool_wf p -> 0 <= bn -> bn + Z.of_nat n = n_max p -> max_sz p = lsize p 0 -> (forall l, NoDup (free_list p !!! l)) ->
  (forall a, a ∈ free_list p !!! 0%nat <-> exists b, 0 <= b < bn /\ a = addr p 0 b) ->
  exists p', init_blocks n bn p = Some p' /\ same_shape p p' /\ pool_wf p' /\
    (forall l b, 0 <= b -> bit p' l b = if decide (l = 0%nat /\ bn <= b < n_max p) then true else bit p l b) /\
    (forall l, l <> 0%nat -> free_list p' !!! l = free_list p !!! l) /\ NoDup (free_list p' !!! 0%nat) /\
    (forall a, a ∈ free_list p' !!! 0%nat <-> exists b, 0 <= b < n_max p /\ a = addr p 0 b).
Proof.
  revert bn p. induction n as [|n IH]; intros bn p Hw Hb Hn Hsz Hnd Hf; cbn [init_blocks].
  { exists p. split_and!; try done; try apply same_shape_refl; replace (n_max p) with bn by lia; [|done].
    intros l b H0. by rewrite decide_False by lia. }
  pose proof (pw_levels _ Hw) as Hl. set (p1 := set_free_list p _).
  assert (pool_wf p1) as Hw1 by by apply set_free_list_wf.
  destruct (set_free_bit_spec p1 0 bn Hw1) as (p2 & -> & Hs2 & Ef & _ & Hw2 & Hb2); [split; [done|unfold nblocks; cbn; lia]|].
  assert (same_shape p p2) as Hs by by apply (same_shape_trans p p1). pose proof (lsize_spec p 0 Hw Hl) as [_ Hpos].
  assert (block_ptr p (max_sz p) bn = addr p 0 bn) as Ea by (unfold addr; by rewrite <- Hsz).
  destruct (IH (bn + 1) p2) as (p3 & E & Hs3 & Hw3 & Hb3 & Hn3 & Hd3 & Hf3); try done; try lia.
  - rewrite (sh_n_max _ _ Hs). lia.
  - by rewrite (sh_max_sz _ _ Hs), (lsize_shape p p2).
  - intros l. rewrite Ef. cbn [free_list p1 set_free_list]. unfold Lst.append. destruct (decide (l = 0%nat)) as [->|].
    + rewrite lookup_total_insert_eq, Ea. apply NoDup_app. split_and!; [done| |apply NoDup_singleton].
      intros a Ha ->%list_elem_of_singleton. apply Hf in Ha as (b & Hr & Hx). unfold addr, block_ptr in Hx. nia.
    + by rewrite lookup_total_insert_ne.
  - intros a. rewrite Ef. cbn [free_list p1 set_free_list]. unfold Lst.append. rewrite lookup_total_insert_eq, elem_of_app, list_elem_of_singleton, Hf, Ea.
    split.
    + intros [(b & Hr & ->)| ->]; [exists b|exists bn]; (split; [lia|by rewrite (addr_shape p p2)]).
    + intros (b & Hr & ->). rewrite (addr_shape p p2) by done. destruct (decide (b = bn)) as [->|]; [by right|left; exists b; split; [lia|done]].
  - exists p3. split; [done|]. split; [by apply (same_shape_trans p p2)|]. split_and!; try done.
    + intros l b H0. rewrite Hb3, Hb2, (sh_n_max _ _ Hs) by done. change (bit p1 l b) with (bit p l b).
      destruct (decide (l = 0%nat /\ bn + 1 <= b < n_max p)) as [E1|E1]; [by rewrite decide_True by lia|].
      destruct (decide (l = 0%nat /\ b = bn)) as [E2|E2]; [by rewrite decide_True by lia|]. by rewrite decide_False by lia.
    + intros l Hne. rewrite Hn3, Ef by done. cbn [free_list p1 set_free_list]. by apply lookup_total_insert_ne.
    + intros a. rewrite Hf3, (sh_n_max _ _ Hs). by setoid_rewrite (addr_shape p p2 0 _ Hs).
Qed.

(** A pool as it is defined, and after the loop over its levels. *)
Section defined.
  Context (a minsz maxsz nmax : Z) (k : nat) (w : positive) (Hs : sizes_ok minsz maxsz nmax k).

Let p := K_MEM_POOL_DEFINE a minsz maxsz nmax w.
Let p' := init_levels (n_levels p) 0 (max_sz p) (buf p + buf_size p) p.

Lemma define_shape :
  n_levels p = S k /\ length (levels p) = n_levels p /\ (forall l, levels p !!! l = mk_lvl 0) /\
  0 < minsz / 4 /\ max_sz p = 4 ^ Z.of_nat (n_levels p) * (minsz / 4).
Proof using Hs.
  pose proof Hs as [[Hmin Hmod] Emax Hk Hn Htot]. pose proof (mpool_lvls minsz maxsz k Hmin Emax Hk) as Hlv.
  assert (n_levels p = S k) as Enl by (cbn [p K_MEM_POOL_DEFINE n_levels]; lia).
  pose proof (Z.div_mod minsz 4 ltac:(lia)) as Hq. rewrite Hmod in Hq.
  split_and!; [done|apply repeat_length| |lia|].
  - intros l. rewrite list_lookup_total_alt. destruct (levels p !! l) as [x|] eqn:Ex; [|done].
    by apply list_elem_of_lookup_2, list_elem_of_In, repeat_spec in Ex as ->.
  - rewrite Enl, Nat2Z.inj_succ, Z.pow_succ_r by lia. cbn [p K_MEM_POOL_DEFINE max_sz]. lia.
Qed.

Lemma define_mono l l' : (l <= l')%nat -> nblocks p l <= nblocks p l'.
Proof using Hs.
  intros Hl. pose proof (so_n _ _ _ _ Hs). unfold nblocks. change (n_max p) with nmax.
  pose proof (Z.pow_le_mono_r 4 (Z.of_nat l) (Z.of_nat l') ltac:(lia) ltac:(lia)). nia.
Qed.

Lemma init_levels_defined :
  (max_inline_level p' = 0%nat \/ (max_inline_level p' < n_levels p)%nat /\ nblocks p (max_inline_level p') < 32) /\
  (forall l, (l < n_levels p)%nat -> nblocks p l < 32 -> (l <= max_inline_level p')%nat) /\
  (forall l, (l < n_levels p)%nat ->
     levels p' !!! l = if 32 <=? nblocks p l then mk_lvl (buf p + buf_size p + 4 * word_off p l) else mk_lvl 0).
Proof using Hs.
  destruct define_shape as (Enl & Hlen & Hzero & Hmn & Em).
  destruct (init_levels_words (n_levels p) 0 p (minsz / 4) (max_sz p) (buf p + buf_size p) Hmn Em) as (Hm & Hin & Hw & _);
    [done|done|rewrite Nat.sub_0_r; intros; exact Em|cbn [word_off]; lia|].
  fold p' in Hm, Hin, Hw. split_and!.
  - destruct Hm as [Hm|[Hm1 Hm2]]; [by left|right]. split; [lia|done].
  - intros l Hl Hb. by apply Hin; [lia|].
  - intros l Hl. rewrite Hw by done. rewrite bool_decide_true by lia. cbn [andb]. by rewrite Hzero.
Qed.

Lemma init_levels_wf : pool_wf p' /\ n_max p' = nmax /\ n_levels p' = S k /\ max_sz p' = lsize p' 0.
Proof using Hs.
  pose proof Hs as [_ _ Hk Hn Htot]. destruct define_shape as (Enl & Hlen & _ & Hmn & Em).
  destruct (init_levels_shape (n_levels p) 0 p (max_sz p) (buf p + buf_size p)) as (E1 & E2 & E3 & E4 & E5 & E6).
  fold p' in E1, E2, E3, E4, E5, E6. destruct init_levels_defined as (Hm & Hin & Hw).
  assert (forall l, nblocks p' l = nblocks p l) as Enb by (intros; unfold nblocks; by rewrite E3).
  assert (pool_wf p') as Hwf.
  { split; [rewrite E4; lia|congruence|by rewrite E3|rewrite E2, E4; eauto|unfold buf_size; by rewrite E2, E3| |].
    - intros l Hl. rewrite E4 in Hl. rewrite Enb, (word_off_ext p p' _ E3). unfold buf_size. rewrite E1, E2, E3. fold (buf_size p).
      destruct (Nat.leb_spec l (max_inline_level p')) as [Hle|Hgt].
      + destruct Hm as [Hm|[_ Hm]]; [|pose proof (define_mono l _ Hle); lia]. assert (l = 0%nat) as -> by lia.
        unfold nblocks. change (n_max p) with nmax. cbn. lia.
      + destruct (Z.ltb_spec (nblocks p l) 32) as [Hlt|Hge]; [apply Hin in Hlt; lia|]. split; [done|].
        by rewrite Hw, (proj2 (Z.leb_le _ _)) by lia.
    - rewrite E4, E5, Enl, (word_off_ext p p' _ E3). pose proof (bits_room p _ _ _ _ Hs eq_refl) as Hr.
      cbn [p K_MEM_POOL_DEFINE words]. rewrite repeat_length. lia. }
  split_and!; [done|by rewrite E3|congruence|]. pose proof (lsize_spec p' 0 Hwf (pw_levels _ Hwf)) as [Hz _].
  change (4 ^ Z.of_nat 0) with 1 in Hz. lia.
Qed.

(** No bit above level 0 is set. *)
Lemma init_levels_bits l (b : Z) : bit p' (S l) b = false.
Proof using Hs.
  destruct (init_levels_shape (n_levels p) 0 p (max_sz p) (buf p + buf_size p)) as (_ & _ & _ & E4 & E5 & _). fold p' in E4, E5.
  destruct init_levels_defined as (Hm & _ & Hw).
  unfold bit. destruct (bool_decide_reflect (in_pool p' (S l) b)) as [[Hl _]|]; [|done]. cbn [andb]. unfold get_word.
  rewrite E4 in Hl. destruct (Nat.leb_spec (S l) (max_inline_level p')) as [Hle|Hgt].
  - destruct (b / 32 =? 0); [|done]. rewrite Hw by done. destruct Hm as [Hm|[_ Hm]]; [lia|].
    pose proof (define_mono _ _ Hle). rewrite (proj2 (Z.leb_gt _ _)) by lia. apply Z.testbit_0_l.
  - cbv zeta. destruct (_ <? 0); [done|]. destruct (words p' !! _) as [x|] eqn:Ex; [|done]. rewrite E5 in Ex.
    apply list_elem_of_lookup_2, list_elem_of_In, repeat_spec in Ex as ->. apply Z.testbit_0_l.
Qed.

(** [init_mem_pool] makes the blocks of level 0 free, and nothing else. *)
Lemma init_mem_pool_inv :
  exists q, init_mem_pool p = Some q /\ pool_inv q ∅ /\ n_max q = nmax /\ n_levels q = S k /\ buf q = a /\ max_sz q = maxsz.
Proof using Hs.
  pose proof (so_n _ _ _ _ Hs) as Hn. destruct init_levels_wf as (Hwf & En & Enl & Esz).
  destruct (init_levels_shape (n_levels p) 0 p (max_sz p) (buf p + buf_size p)) as (E1 & E2 & _). fold p' in E1, E2.
  assert (forall l, free_list p' !!! l = []) as He.
  { intros l. unfold p'. rewrite init_levels_lists. case_decide; [done|]. cbn [p K_MEM_POOL_DEFINE free_list]. by rewrite lookup_total_empty. }
  unfold init_mem_pool. fold p'. change (n_max p) with nmax.
  destruct (init_blocks_spec (Z.to_nat nmax) 0 p') as (q & -> & Hq & Hwq & Hb & Hf & Hd & Hl); try done; try lia.
  { intros l. rewrite He. apply NoDup_nil_2. }
  { intros x. rewrite He. split; [by intros ?%elem_of_nil|intros (b & ? & _); lia]. }
  rewrite En in *. assert (forall l b, 0 <= b -> bit q l b = if decide (l = 0%nat /\ b < nmax) then true else false) as Hbit.
  { intros l b H0. rewrite Hb by done. destruct l as [|l]; [|rewrite init_levels_bits; by rewrite !decide_False by lia].
    destruct (decide (b < nmax)); [by rewrite !decide_True by lia|]. rewrite !decide_False by lia.
    unfold bit. rewrite bool_decide_false; [done|]. intros [_ Hx]. unfold nblocks in Hx. rewrite En in Hx. cbn in Hx. lia. }
  exists q. split; [done|]. split_and!; [|by rewrite (sh_n_max _ _ Hq)|by rewrite (sh_n_levels _ _ Hq)|by rewrite (sh_buf _ _ Hq)|by rewrite (sh_max_sz _ _ Hq)].
  split; [done| | | | | | |].
  - intros l b _. unfold bit. rewrite andb_true_iff, bool_decide_eq_true. tauto.
  - set_solver.
  - intros [|l]; [done|]. rewrite Hf, He by done. apply NoDup_nil_2.
  - intros [|l] x; setoid_rewrite (addr_shape p' q _ _ Hq).
    + rewrite Hl. split; [intros (b & Hx & ->)|intros (b & Hx & Hy & ->)]; exists b.
      * split; [lia|]. by rewrite Hbit, decide_True by lia.
      * rewrite Hbit in Hy by done. split; [|done]. case_decide; lia || done.
    + rewrite Hf, He by done. split; [by intros ?%elem_of_nil|intros (b & Hx & Hy & _)]. rewrite Hbit in Hy by done. by rewrite decide_False in Hy by lia.
  - intros l b l' b' [H1 [H2|H2]] [H3 [H4|H4]] Hwi; try (by apply elem_of_empty in H2); try (by apply elem_of_empty in H4).
    rewrite Hbit in H2, H4 by done. destruct (decide (l = 0%nat /\ b < nmax)) as [[-> _]|], (decide (l' = 0%nat /\ b' < nmax)) as [[-> _]|]; try done.
    split; [done|]. by apply within_same in Hwi.
  - intros u Hu. set (m := (n_levels q - 1)%nat) in *. pose proof (Z.pow_pos_nonneg 4 (Z.of_nat m) ltac:(lia) ltac:(lia)) as Hpm.
    exists 0%nat, (u / 4 ^ Z.of_nat m). split; [|split; [lia|by rewrite Nat.sub_0_r]].
    pose proof (Z.div_pos u (4 ^ Z.of_nat m) ltac:(lia) Hpm) as H0. split; [done|left]. rewrite Hbit, decide_True; [done| |done]. split; [done|].
    apply Z.div_lt_upper_bound; [done|]. unfold nblocks in Hu. rewrite (sh_n_max _ _ Hq), En in Hu. lia.
  - intros l b H0. exists 0. split; [lia|]. by rewrite Hbit, decide_False by lia.
Qed.

End defined.

(** More than 32 blocks of the largest size do not fit the bits of level 0:
    [max_inline_level] starts at 0, so that level counts as inline whatever its
    number of blocks. *)
Lemma init_blocks_fault n bn p : max_inline_level p = 0%nat -> 0 <= bn <= 32 -> 32 < bn + Z.of_nat n -> init_blocks n bn p = None.
Proof.
  revert bn p. induction n as [|n IH]; intros bn p Hm Hb Hn; [lia|]. cbn [init_blocks]. unfold set_free_bit, get_word.
  cbn [max_inline_level set_free_list]. rewrite Hm. cbn [Nat.leb]. destruct (decide (bn = 32)) as [->|]; [done|].
  rewrite (Z.div_small bn) by lia. cbn [Z.eqb]. apply IH; [|lia|lia]. unfold put_word. cbn [max_inline_level set_free_list]. by destruct (_ <=? _)%nat.
Qed.

Lemma init_overflow (a minsz maxsz nmax : Z) (k : nat) (w : positive) :
  8 <= minsz -> minsz mod 4 = 0 -> maxsz = 4 ^ Z.of_nat k * minsz -> (k < 15)%nat -> 33 <= nmax ->
  init_mem_pool (K_MEM_POOL_DEFINE a minsz maxsz nmax w) = None.
Proof.
  intros Hmin Hmod Emax Hk Hn. pose proof (mpool_lvls minsz maxsz k Hmin Emax Hk) as Hlv.
  set (p := K_MEM_POOL_DEFINE a minsz maxsz nmax w). assert (n_levels p = S k) as Enl by (cbn [p K_MEM_POOL_DEFINE n_levels]; lia).
  pose proof (Z.div_mod minsz 4 ltac:(lia)) as Hq. rewrite Hmod in Hq.
  assert (max_sz p = 4 ^ Z.of_nat (n_levels p) * (minsz / 4)) as Em.
  { rewrite Enl, Nat2Z.inj_succ, Z.pow_succ_r by lia. cbn [p K_MEM_POOL_DEFINE max_sz]. lia. }
  destruct (init_levels_words (n_levels p) 0 p (minsz / 4) (max_sz p) (buf p + buf_size p) ltac:(lia) Em) as (Hm & _);
    [done|apply repeat_length|rewrite Nat.sub_0_r; intros; exact Em|cbn [word_off]; lia|].
  unfold init_mem_pool. apply init_blocks_fault; [|lia|change (n_max p) with nmax; lia].
  destruct Hm as [Hm|[_ Hm]]; [done|]. exfalso. unfold nblocks in Hm. change (n_max p) with nmax in Hm.
  set (m := max_inline_level _) in Hm. pose proof (Z.pow_pos_nonneg 4 (Z.of_nat m) ltac:(lia) ltac:(lia)). nia.
Qed.

Lemma pool_step_inv s s' : pool_step s s' -> pool_inv s.1 s.2 -> same_shape s.1 s'.1 /\ pool_inv s'.1 s'.2.
Proof.
  intros [p A l p' a Hl E|p A l b p' a Ha Hl E|p A l b p' Ha E|p A l b p' b' Ha E] Hi; cbn [fst snd] in *.
  - destruct (alloc_block_inv p A l Hi Hl) as (p1 & r & E1 & Hs & Hr). rewrite E in E1. injection E1 as <- <-.
    destruct Hr as (b & -> & _ & _ & Hi1). rewrite block_num_addr; [done|apply Hi|done].
  - destruct (break_block_inv p A l b Hi Ha Hl) as (p1 & E1 & Hs & Hi1). rewrite E in E1. injection E1 as <- ->.
    rewrite block_num_addr; [done|apply Hi|done].
  - destruct (free_step_inv p A l b Hi Ha) as (p1 & r & E1 & Hs & Hr). rewrite E in E1. by injection E1 as <- <-.
  - destruct (free_step_inv p A (S l) b Hi Ha) as (p1 & r & E1 & Hs & Hr). rewrite E in E1. injection E1 as <- <-.
    by destruct Hr as (l' & [= <-] & -> & Hi1).
Qed.

(** The states that a defined pool reaches. *)
Definition pool_reaches (a minsz maxsz nmax : Z) (w : positive) p A : Prop :=
  exists q, init_mem_pool (K_MEM_POOL_DEFINE a minsz maxsz nmax w) = Some q /\ rtc pool_step (q, ∅) (p, A).

Lemma pool_reaches_inv (a minsz maxsz nmax : Z) (k : nat) (w : positive) p A :
  sizes_ok minsz maxsz nmax k -> pool_reaches a minsz maxsz nmax w p A ->
  pool_inv p A /\ n_max p = nmax /\ n_levels p = S k /\ buf p = a /\ max_sz p = maxsz.
Proof.
  intros Hs (q & Hq & Hr). destruct (init_mem_pool_inv a _ _ _ _ w Hs) as (q' & Hq' & Hi & En & El & Eb & Em).
  rewrite Hq in Hq'. injection Hq' as <-.
  change (let s' := (p, A) in pool_inv s'.1 s'.2 /\ n_max s'.1 = nmax /\ n_levels s'.1 = S k /\ buf s'.1 = a /\ max_sz s'.1 = maxsz).
  cbv zeta. remember (q, ∅ : gset (nat * Z)) as s eqn:Es.
  assert (pool_inv s.1 s.2 /\ n_max s.1 = nmax /\ n_levels s.1 = S k /\ buf s.1 = a /\ max_sz s.1 = maxsz) as H0 by by rewrite Es.
  clear Es Hq Hi En El Eb Em q. induction Hr as [|s s1 s2 Hst Hr IH]; [done|]. apply IH.
  destruct H0 as (H1 & H2 & H3 & H4 & H5). destruct (pool_step_inv _ _ Hst H1) as [[? ? ? ? ? ?] Hi]. split_and!; congruence || done.
Qed.

(** Different held or free blocks do not overlap. *)
Lemma leaves_disjoint p A l b l' b' :
  pool_inv p A -> leaf p A l b -> leaf p A l' b' -> (l, b) <> (l', b') ->
  addr p l b + lsize p l <= addr p l' b' \/ addr p l' b' + lsize p l' <= addr p l b.
Proof.
  intros Hi H1 H2 Hne. pose proof (leaf_in _ _ _ _ Hi H1). pose proof (leaf_in _ _ _ _ Hi H2). destruct (decide (l <= l')%nat).
  - apply disjoint_blocks; try done; [apply Hi|]. intros Hwi. apply Hne. by destruct (pi_anti _ _ Hi _ _ _ _ H1 H2 Hwi) as [-> ->].
  - apply or_comm, disjoint_blocks; try done; [apply Hi|lia|]. intros Hwi. apply Hne. by destruct (pi_anti _ _ Hi _ _ _ _ H2 H1 Hwi) as [-> ->].
Qed.

Lemma held_leaf p A l b : pool_inv p A -> (l, b) ∈ A -> leaf p A l b.
Proof. intros Hi Ha. split; [apply (pi_held _ _ Hi _ _ Ha)|by right]. Qed.

(** *** A small pool

    Two blocks of 64 bytes, split once into blocks of 16; two of the quarters of
    the first are held. *)
Definition demo_pool : k_mem_pool := K_MEM_POOL_DEFINE 0x1000 16 64 2 7.
Definition demo_free : k_mem_pool := default demo_pool (init_mem_pool demo_pool).
Definition demo_taken : k_mem_pool := default demo_free (fst <$> alloc_block demo_free 0 64).
Definition demo_split : k_mem_pool := default demo_taken (fst <$> break_block demo_taken 0x1000 0).
Definition demo_held : k_mem_pool := default demo_split (fst <$> alloc_block demo_split 1 16).

Lemma demo_sizes : sizes_ok 16 64 2 1.
Proof. split; try done; lia. Qed.

Lemma demo_reaches_free : pool_reaches 0x1000 16 64 2 7 demo_free ∅.
Proof. exists demo_free. split; [by vm_compute|apply rtc_refl]. Qed.

Lemma demo_reaches_held :
  pool_reaches 0x1000 16 64 2 7 demo_held
    ({[(1%nat, 1)]} ∪ ({[(1%nat, 0)]} ∪ (({[(0%nat, 0)]} ∪ ∅) ∖ {[(0%nat, 0)]}))).
Proof.
  exists demo_free. split; [by vm_compute|].
  eapply rtc_l; [apply (step_alloc demo_free ∅ 0 demo_taken 0x1000); [by vm_compute; lia|by vm_compute]|].
  eapply rtc_l; [apply (step_break demo_taken _ 0 0 demo_split 0x1000); [set_solver|by vm_compute; lia|by vm_compute]|].
  eapply rtc_l; [apply (step_alloc demo_split _ 1 demo_held 0x1010); [by vm_compute; lia|by vm_compute]|].
  apply rtc_refl.
Qed.

(** C9. Memory pools never hand out the same memory twice.  In every state that
    a pool defined with legal sizes reaches, by any interleaving of the critical
    sections of allocating and freeing callers, each held block lies in the
    pool's buffer, returning it does not touch memory outside the bit arrays, and
    two held blocks do not overlap. *)
Theorem mem_pool_blocks_disjoint (a minsz maxsz nmax : Z) (k : nat) (w : positive) p (A : gset (nat * Z)) :
  sizes_ok minsz maxsz nmax k -> pool_reaches a minsz maxsz nmax w p A ->
  (forall l b, (l, b) ∈ A ->
     a <= addr p l b /\ addr p l b + lsize p l <= a + nmax * maxsz /\ free_block p l b <> None) /\
  (forall l b l' b', (l, b) ∈ A -> (l', b') ∈ A -> (l, b) <> (l', b') ->
     addr p l b + lsize p l <= addr p l' b' \/ addr p l' b' + lsize p l' <= addr p l b).
Proof.
  intros Hs Hr. destruct (pool_reaches_inv _ _ _ _ _ _ _ _ Hs Hr) as (Hi & <- & _ & <- & <-). split.
  - intros l b Ha. destruct (pi_held _ _ Hi _ _ Ha) as [Hin _]. pose proof Hin as [Hl Hb].
    pose proof (block_end p l b (pi_wf _ _ Hi) Hin). destruct (lsize_spec p l (pi_wf _ _ Hi) Hl) as [_ ?].
    destruct (free_block_inv p A l b Hi Ha) as (p' & -> & _). unfold addr, block_ptr, buf_size in *. split_and!; [nia|lia|done].
  - intros. eapply leaves_disjoint; eauto using held_leaf.
Qed.

Lemma mem_pool_blocks_disjoint_witness :
  addr demo_held 1 0 + lsize demo_held 1 <= addr demo_held 1 1 \/ addr demo_held 1 1 + lsize demo_held 1 <= addr demo_held 1 0.
Proof.
  apply (proj2 (mem_pool_blocks_disjoint 0x1000 16 64 2 1 7 demo_held _ demo_sizes demo_reaches_held)); [set_solver|set_solver|done].
Defined.

(** C10. [pool_alloc] is exact.  In every reachable state it either returns a
    block of the smallest block size that holds the request, disjoint from every
    held block, and leaves a reachable state in which that block is held; or it
    returns [-ENOMEM] without a change, and then no free block of the pool is
    large enough. *)
Theorem pool_alloc_best_fit (a minsz maxsz nmax : Z) (k : nat) (w : positive) p (A : gset (nat * Z)) (id size : Z) :
  sizes_ok minsz maxsz nmax k -> nmax * 4 ^ Z.of_nat k <= 2 ^ 20 -> pool_reaches a minsz maxsz nmax w p A ->
  exists p' rc r, pool_alloc p id size = Some (p', rc, r) /\
  match r with
  | None => rc = - ENOMEM /\ p' = p /\ forall l b, 0 <= b -> bit p l b = true -> lsize p l < size
  | Some blk =>
      rc = 0 /\ size <= lsize p (id_level blk) /\ ((S (id_level blk) <= k)%nat -> lsize p (S (id_level blk)) < size) /\
      data blk = addr p (id_level blk) (id_block blk) /\
      (forall l b, (l, b) ∈ A -> addr p l b + lsize p l <= data blk \/ data blk + lsize p (id_level blk) <= addr p l b) /\
      pool_reaches a minsz maxsz nmax w p' ({[(id_level blk, id_block blk)]} ∪ A)
  end.
Proof.
  intros Hs H20 Hr. pose proof (so_levels _ _ _ _ Hs). destruct (pool_reaches_inv _ _ _ _ _ _ _ _ Hs Hr) as (Hi & En & El & _).
  destruct (pool_alloc_inv p A id size Hi) as (p' & rc & r & E & Hsh & Hx);
    [lia|unfold nblocks; rewrite En, El; replace (S k - 1)%nat with k by lia; done|].
  exists p', rc, r. split; [done|]. destruct r as [blk|]; [|done]. destruct Hx as (-> & _ & Ed & Hsz & Hbest & Hn & Hi' & Hst).
  split_and!; try done; [intros; apply Hbest; lia| |].
  - intros l b Ha. rewrite Ed, <- !(addr_shape p p' _ _ Hsh), <- !(lsize_shape p p' _ Hsh).
    apply (leaves_disjoint p' _ _ _ _ _ Hi'); [apply held_leaf; set_solver..|]. by intros [= -> ->].
  - destruct Hr as (q & Eq & Hq). exists q. split; [done|]. by etransitivity.
Qed.

Lemma pool_alloc_best_fit_witness :
  exists p' blk, pool_alloc demo_held 0 17 = Some (p', 0, Some blk) /\ 17 <= lsize demo_held (id_level blk).
Proof.
  destruct (pool_alloc_best_fit 0x1000 16 64 2 1 7 demo_held _ 0 17 demo_sizes ltac:(done) demo_reaches_held) as (p' & rc & [blk|] & E & H).
  - destruct H as (-> & H & _). exists p', blk. split; [exact E|exact H].
  - exfalso. destruct H as (_ & _ & H). assert (lsize demo_held 0 < 17) as Hx; [|by vm_compute in Hx].
    apply (H 0%nat 1); [lia|by vm_compute].
Defined.

(** C11. A pool does not fragment for good: whenever all blocks have been
    returned, in whatever order and interleaving, all of its memory has been
    merged into free blocks of the largest size, so that every request up to that
    size succeeds again. *)
Theorem mem_pool_coalesces (a minsz maxsz nmax : Z) (k : nat) (w : positive) p (id size : Z) :
  sizes_ok minsz maxsz nmax k -> nmax * 4 ^ Z.of_nat k <= 2 ^ 20 -> pool_reaches a minsz maxsz nmax w p ∅ -> size <= maxsz ->
  (forall l b, 0 <= b -> bit p l b = true <-> l = 0%nat /\ b < nmax) /\
  exists p' blk, pool_alloc p id size = Some (p', 0, Some blk).
Proof.
  intros Hs H20 Hr Hsz. pose proof (so_levels _ _ _ _ Hs). pose proof (so_n _ _ _ _ Hs).
  destruct (pool_reaches_inv _ _ _ _ _ _ _ _ Hs Hr) as (Hi & En & El & _ & Em).
  assert (forall l b, 0 <= b -> bit p l b = true <-> l = 0%nat /\ b < nmax) as Hall by (intros; rewrite <- En; by apply all_merged).
  split; [done|]. destruct (pool_alloc_inv p ∅ id size Hi) as (p' & rc & r & E & _ & Hx);
    [lia|unfold nblocks; rewrite En, El; replace (S k - 1)%nat with k by lia; done|].
  destruct r as [blk|]; [destruct Hx as (-> & _); eauto|]. destruct Hx as (_ & _ & Hx).
  specialize (Hx 0%nat 0 ltac:(lia) ltac:(apply Hall; lia)). destruct (lsize_spec p 0 (pi_wf _ _ Hi) (pw_levels _ (pi_wf _ _ Hi))) as [Hz _].
  change (4 ^ Z.of_nat 0) with 1 in Hz. lia.
Qed.

Lemma mem_pool_coalesces_witness : exists p' blk, pool_alloc demo_free 0 64 = Some (p', 0, Some blk).
Proof. apply (mem_pool_coalesces 0x1000 16 64 2 1 7 demo_free 0 64 demo_sizes ltac:(done) demo_reaches_free ltac:(done)). Defined.

(** [init_mem_pool] writes outside of a level's bits for every pool with
    more than 32 blocks of the largest size: [max_inline_level] is 0 then, and
    the bit of the 33rd block is looked for behind the word of level 0, which is
    the head of its free list. *)
Theorem pool_init_overflow (a minsz maxsz nmax : Z) (k : nat) (w : positive) :
  8 <= minsz -> minsz mod 4 = 0 -> maxsz = 4 ^ Z.of_nat k * minsz -> (k < 15)%nat -> 33 <= nmax ->
  init_mem_pool (K_MEM_POOL_DEFINE a minsz maxsz nmax w) = None.
Proof. apply init_overflow. Qed.

Lemma pool_init_overflow_witness : init_mem_pool (K_MEM_POOL_DEFINE 0x1000 16 64 33 1) = None.
Proof. apply (pool_init_overflow 0x1000 16 64 33 1 1); done || lia. Defined.

End MemPool.
