(* ===== verification/Heap.v ===== *)
(** * Memory pools: the kernel services (kernel/mempool.c)

    Allocation with a timeout, freeing, and the heap on top of a pool.  The pools
    are the array of the statically defined ones; a pointer to a pool is its
    index.  A call that waits is split at [_Swap]: the first part yields [None] as
    its result, and [k_mem_pool_alloc_resume] is one turn of the loop after it. *)

From S2P Require Import Prelude DList ListStore Kernel Ksched ReadyQ TimeoutQ KInv Sched Thread Demo LibC MemPool.
Import MemPool.

Local Open Scope Z_scope.

Module Heap.

Section Heap.
Context `{KConfig}.
Implicit Types (k : kernel) (pools : list k_mem_pool) (pid size timeout : Z) (m : LibC.memory).
Variable timeout_func : positive -> toid -> kernel -> kernel.

Definition wq (p : k_mem_pool) : qid := object_wq (wait_q p).

Definition get_pool pools pid : option k_mem_pool := pools !! Z.to_nat pid.
Definition set_pool pools pid (p : k_mem_pool) : list k_mem_pool := <[Z.to_nat pid := p]> pools.

(** the pools from number [i] on *)
Fixpoint init_pools k (ps : list k_mem_pool) : option (kernel * list k_mem_pool) :=
  match ps with
  | [] => Some (k, [])
  | p :: ps =>
      let k := set_queues k (Lst.init (queues k) (wq p)) in
      match init_mem_pool p with
      | None => None
      | Some p =>
          match init_pools k ps with
          | None => None
          | Some (k, ps) => Some (k, p :: ps)
          end
      end
  end.

Definition init_static_pools k pools : option (kernel * list k_mem_pool) := init_pools k pools.

(** One turn of the loop of [k_mem_pool_alloc], up to [_Swap]: the return value
    and the block, or [None] when the thread waits. *)
Definition alloc_turn k pools pid size timeout : option (kernel * list k_mem_pool * option (Z * option k_mem_block)) :=
  match get_pool pools pid with
  | None => None
  | Some p =>
      match pool_alloc p pid size with
      | None => None
      | Some (p, ret, block) =>
          let pools := set_pool pools pid p in
          if (ret =? 0) || (timeout =? K_NO_WAIT) || (ret =? - EAGAIN) || (negb (ret =? 0) && negb (ret =? - ENOMEM))
          then Some (k, pools, Some (ret, block))
          else Some (_Swap (_pend_current_thread timeout_func k (wq p) timeout), pools, None)
      end
  end.

(** The result comes with [end], which the caller's frame keeps while it waits. *)
Definition k_mem_pool_alloc k pools pid size timeout
    : option (kernel * list k_mem_pool * Z * option (Z * option k_mem_block)) :=
  let end_ := if 0 <? timeout then s64 (_tick_get k + _ms_to_ticks timeout) else 0 in
  match alloc_turn k pools pid size timeout with
  | None => None
  | Some (k, pools, r) => Some (k, pools, end_, r)
  end.

(** After [_Swap], with [timeout] and [end] as they are in the caller's frame; the
    new [timeout] comes with the result. *)
Definition k_mem_pool_alloc_resume k pools pid size timeout (end_ : Z)
    : option (kernel * list k_mem_pool * Z * option (Z * option k_mem_block)) :=
  let again timeout :=
    match alloc_turn k pools pid size timeout with
    | None => None
    | Some (k, pools, r) => Some (k, pools, timeout, r)
    end in
  if negb (timeout =? K_FOREVER) then
    let timeout := s32 (end_ - _tick_get k) in
    if timeout <? 0 then Some (k, pools, timeout, Some (- EAGAIN, None)) else again timeout
  else again timeout.

(** the loop of [k_mem_pool_free]; each turn takes the first thread off the list *)
Fixpoint wake_all (fuel : nat) k (q : qid) : kernel :=
  match fuel with
  | O => k
  | S fuel =>
      match Lst.peek_head (queues k) q with
      | None => k
      | Some th =>
          let k := _unpend_thread k th in
          let k := fst (_abort_thread_timeout k th) in
          wake_all fuel (_ready_thread k th) q
      end
  end.

Definition k_mem_pool_free k pools (block : k_mem_block) : option (kernel * list k_mem_pool) :=
  match get_pool pools (id_pool block) with
  | None => None
  | Some p =>
      match free_block p (id_level block) (id_block block) with
      | None => None
      | Some p =>
          let need_sched := negb (Lst.is_empty (queues k) (wq p)) in
          let k := wake_all (length (queues k !!! wq p)) k (wq p) in
          Some (if need_sched && negb (_is_in_isr k) then _reschedule_threads k else k, set_pool pools (id_pool block) p)
      end
  end.

(** ** The heap: pool number [heap] *)

(** [struct k_mem_block] in memory: the pointer, and the bit-fields of the id *)
Definition sizeof_block : Z := 8.
Definition id_word (b : k_mem_block) : Z := id_pool b + 2 ^ 8 * (Z.of_nat (id_level b) + 2 ^ 4 * id_block b).
Definition st_block m (a : Z) (b : k_mem_block) : LibC.memory := LibC.st32 (LibC.st32 m a (data b)) (a + 4) (id_word b).
Definition ld_block m (a : Z) : k_mem_block :=
  let w := LibC.ld32 m (a + 4) in
  mk_block (LibC.ld32 m a) (w mod 2 ^ 8) (Z.to_nat (w / 2 ^ 8 mod 2 ^ 4)) (w / 2 ^ 12).

(** the pointer, 0 for [NULL] *)
Definition k_malloc k pools m (heap size : Z) : option (kernel * list k_mem_pool * LibC.memory * Z) :=
  let size := u32 (size + sizeof_block) in
  match k_mem_pool_alloc k pools heap size K_NO_WAIT with
  | None | Some (_, _, _, None) => None
  | Some (k, pools, _, Some (ret, Some block)) =>
      if negb (ret =? 0) then Some (k, pools, m, 0)
      else Some (k, pools, st_block m (data block) block, data block + sizeof_block)
  | Some (k, pools, _, Some (_, None)) => Some (k, pools, m, 0)
  end.

Definition k_free k pools m (ptr : Z) : option (kernel * list k_mem_pool) :=
  if negb (ptr =? 0) then k_mem_pool_free k pools (ld_block m (ptr - sizeof_block)) else Some (k, pools).

Definition k_calloc k pools m (heap nmemb size : Z) : option (kernel * list k_mem_pool * LibC.memory * Z) :=
  let bounds := u32 (nmemb * size) in
  match k_malloc k pools m heap bounds with
  | None => None
  | Some (k, pools, m, ret) =>
      Some (k, pools, if negb (ret =? 0) then LibC.memset m ret 0 (Z.to_nat bounds) else m, ret)
  end.

End Heap.

(** ** Waking all waiters *)

Section Wake.
Context `{KConfig}.
Implicit Types (k : kernel) (t u : tid) (w : positive).

Lemma wake_all_spec n : forall k w,
  kinv None [] k -> (length (queues k !!! WQ w) <= n)%nat ->
  let k' := wake_all n k (WQ w) in
  kinv None [] k' /\ keeps k k' /\ queues k' !!! WQ w = [] /\
  (forall t, t ∈ queues k !!! WQ w -> _is_thread_pending k' t = false) /\
  (forall t, _is_thread_pending k t = false -> _is_thread_pending k' t = false) /\
  (forall w', w' <> w -> queues k' !!! WQ w' = queues k !!! WQ w').
Proof.
  induction n as [|n IH]; intros k w Hi Hn; cbn [wake_all].
  { destruct (queues k !!! WQ w) as [|] eqn:E; [|simpl in Hn; lia]. split_and!; try done. intros t []%elem_of_nil. }
  unfold Lst.peek_head. destruct (queues k !!! WQ w) as [|t l] eqn:Eq; cbn [head].
  { split_and!; try done. intros t []%elem_of_nil. }
  cbv zeta. set (k1 := _ready_thread _ t).
  assert (t ∈ queues k !!! WQ w) as Hin by (rewrite Eq; left).
  pose proof (ri_wq _ _ (si_rq _ _ (ki_sched _ _ _ Hi)) _ _ Hin) as [_ Hp].
  pose proof (ri_nodup _ _ (si_rq _ _ (ki_sched _ _ _ Hi)) (WQ w)) as Hnd. rewrite Eq in Hnd.
  assert (queues k1 !!! WQ w = l) as Eq1 by (unfold k1; rewrite wake_wq, Eq; by apply (filter_ne_split t [] l)).
  assert (forall u, u <> t -> _is_thread_pending k1 u = _is_thread_pending k u) as Hother.
  { intros u Hu. apply pending_ext. destruct (wake_thr k t u) as [E _]. fold k1 in E. by rewrite E. }
  assert (_is_thread_pending k1 t = false) as Ht by apply wake_not_pending.
  destruct (IH k1 w) as (I1 & I2 & I3 & I4 & I5 & I6);
    [by apply kinv_wake; [|done|apply not_elem_of_nil]|rewrite Eq1; simpl in Hn; lia|]. rewrite Eq1 in I4.
  split_and!; [done| |done| | |].
  - eapply keeps_trans; [|exact I2]. apply (wake_keeps []); [done|done|apply not_elem_of_nil].
  - intros u [->|Hu]%elem_of_cons; auto.
  - intros u Hu. apply I5. destruct (decide (u = t)) as [->|]; [done|by rewrite Hother].
  - intros w' Hw. rewrite I6 by done. unfold k1. rewrite wake_wq. apply filter_ne_id. intros Hu. apply Hw.
    by apply (ri_uniq _ _ (si_rq _ _ (ki_sched _ _ _ Hi)) t).
Qed.

End Wake.

(** ** The scheduler's invariant *)

Section Sys.
Context `{KConfig}.
Implicit Types (k : kernel) (pools : list k_mem_pool) (pid size timeout : Z).
Variable tf : positive -> toid -> kernel -> kernel.

Lemma alloc_turn_sys k pools pid size timeout k' pools' r :
  sys_inv k -> current k <> idle_thread -> wait_ok timeout ->
  alloc_turn tf k pools pid size timeout = Some (k', pools', r) -> sys_inv k'.
Proof.
  intros Hs Hc Ht. unfold alloc_turn. destruct (get_pool pools pid) as [p|]; [|done].
  destruct (pool_alloc p pid size) as [[[p1 ret] b]|]; [|done].
  destruct (Z.eqb_spec timeout K_NO_WAIT); [rewrite orb_true_r; by intros [= <- _ _]|].
  destruct (_ || _); intros [= <- _ _]; [done|]. by apply pend_object_sys.
Qed.

Lemma pool_alloc_sys k pools pid size timeout k' pools' e r :
  sys_inv k -> current k <> idle_thread -> wait_ok timeout ->
  k_mem_pool_alloc tf k pools pid size timeout = Some (k', pools', e, r) -> sys_inv k'.
Proof.
  intros Hs Hc Ht. unfold k_mem_pool_alloc. cbv zeta. destruct (alloc_turn _ _ _ _ _ _) as [[[k1 ps] r1]|] eqn:E; [|done].
  intros [= <- _ _ _]. by eapply alloc_turn_sys.
Qed.

Lemma pool_alloc_resume_sys k pools pid size timeout (end_ : Z) k' pools' t r :
  sys_inv k -> current k <> idle_thread -> timeout = K_FOREVER \/ s32 (end_ - _tick_get k) < 2 ^ 31 - 1 ->
  k_mem_pool_alloc_resume tf k pools pid size timeout end_ = Some (k', pools', t, r) -> sys_inv k'.
Proof.
  intros Hs Hc Ht. unfold k_mem_pool_alloc_resume. cbv zeta. destruct (Z.eqb_spec timeout K_FOREVER) as [->|Hne]; cbn [negb].
  - destruct (alloc_turn _ _ _ _ _ _) as [[[k1 ps] r1]|] eqn:E; [|done]. intros [= <- _ _ _].
    eapply alloc_turn_sys; [done|done|by right; left|exact E].
  - destruct (Z.ltb_spec (s32 (end_ - _tick_get k)) 0); [by intros [= <- _ _ _]|].
    destruct (alloc_turn _ _ _ _ _ _) as [[[k1 ps] r1]|] eqn:E; [|done]. intros [= <- _ _ _].
    eapply alloc_turn_sys; [done|done| |exact E]. right; right. apply timeout_ok_range. lia.
Qed.

Lemma pool_free_sys k pools b k' pools' : sys_inv k -> k_mem_pool_free k pools b = Some (k', pools') -> sys_inv k'.
Proof.
  intros Hs. unfold k_mem_pool_free. destruct (get_pool pools (id_pool b)) as [p|]; [|done].
  destruct (free_block p _ _) as [p1|]; [|done]. intros [= <- _].
  destruct (wake_all_spec (length (queues k !!! wq p1)) k _ (sy_kinv _ Hs) (Nat.le_refl _)) as (Hk & Hkp & _).
  pose proof (service_end k _ Hs Hk Hkp) as He. fold (wq p1) in *. unfold Lst.is_empty.
  case_bool_decide as Eq; cbn [negb andb]; [|by destruct (_is_in_isr _)].
  rewrite Eq. done.
Qed.

End Sys.

(** ** Blocks and their descriptors *)

Section Blocks.
Implicit Types (p : k_mem_pool) (A : gset (nat * Z)) (m : LibC.memory) (pools : list k_mem_pool).

(** Pool [heap] with the held blocks [A]; its memory is below 4 GB, and block
    numbers fit their bit-field. *)
Record heap_ok pools (heap : Z) p A : Prop := {
  hp_pool : get_pool pools heap = Some p;
  hp_id : 0 <= heap < 2 ^ 8;
  hp_inv : pool_inv p A;
  hp_levels : (n_levels p <= 16)%nat;
  hp_blocks : nblocks p (n_levels p - 1) <= 2 ^ 20;
  hp_low : 0 < buf p;
  hp_high : buf p + buf_size p <= 2 ^ 32
}.

Lemma heap_ok_set pools heap p A p' A' :
  heap_ok pools heap p A -> same_shape p p' -> pool_inv p' A' -> heap_ok (set_pool pools heap p') heap p' A'.
Proof.
  intros [H1 H2 H3 H4 H5 H6 H7] Hs Hi. split; [|done|done| | | |].
  - unfold get_pool, set_pool in *. apply list_lookup_insert_eq. by eapply lookup_lt_Some.
  - by rewrite (sh_n_levels _ _ Hs).
  - by rewrite (sh_n_levels _ _ Hs), (nblocks_shape _ _ _ Hs).
  - by rewrite (sh_buf _ _ Hs).
  - unfold buf_size. by rewrite (sh_buf _ _ Hs), (sh_n_max _ _ Hs), (sh_max_sz _ _ Hs).
Qed.

Lemma set_same pools (heap : Z) p : get_pool pools heap = Some p -> set_pool pools heap p = pools.
Proof. apply list_insert_id. Qed.

(** The addresses of a held block. *)
Lemma held_range pools heap p A l (b : Z) :
  heap_ok pools heap p A -> (l, b) ∈ A ->
  0 < addr p l b /\ 0 < lsize p l /\ addr p l b + lsize p l <= 2 ^ 32 /\ (l < 16)%nat /\ 0 <= b < 2 ^ 20.
Proof.
  intros Hh Ha. pose proof (hp_inv _ _ _ _ Hh) as Hi. pose proof (pi_wf _ _ Hi) as Hw.
  destruct (pi_held _ _ Hi _ _ Ha) as [Hin _]. pose proof Hin as [Hl Hb]. pose proof (block_end p l b Hw Hin).
  destruct (lsize_spec p l Hw Hl) as [_ ?]. pose proof (hp_low _ _ _ _ Hh). pose proof (hp_high _ _ _ _ Hh).
  pose proof (hp_levels _ _ _ _ Hh). pose proof (hp_blocks _ _ _ _ Hh). pose proof (nblocks_le p l (n_levels p - 1) Hw ltac:(lia)).
  unfold addr, block_ptr. split_and!; nia || lia.
Qed.

(** A descriptor is read back as it was written, as long as its bytes are kept. *)
Lemma ld_st_block m m2 (a : Z) (blk : k_mem_block) :
  0 <= data blk < 2 ^ 32 -> 0 <= id_pool blk < 2 ^ 8 -> (id_level blk < 16)%nat -> 0 <= id_block blk < 2 ^ 20 ->
  (forall q, a <= q < a + 8 -> LibC.ld8 m2 q = LibC.ld8 (st_block m a blk) q) -> ld_block m2 a = blk.
Proof.
  intros Hd Hp Hl Hb Hk. assert (LibC.ld32 m2 a = LibC.ld32 (st_block m a blk) a) as E1 by (unfold LibC.ld32; rewrite !Hk by lia; done).
  assert (LibC.ld32 m2 (a + 4) = LibC.ld32 (st_block m a blk) (a + 4)) as E2 by (unfold LibC.ld32; rewrite !Hk by lia; done).
  unfold ld_block. rewrite E1, E2. unfold st_block. rewrite LibC.ld32_st32_other, !LibC.ld32_st32 by lia.
  destruct blk as [d pl l b]. unfold id_word. cbn [data id_pool id_level id_block] in *. rewrite !u32_small by lia.
  replace (pl + 2 ^ 8 * (Z.of_nat l + 2 ^ 4 * b)) with (pl + (Z.of_nat l + b * 2 ^ 4) * 2 ^ 8) by lia.
  rewrite Z.mod_add, Z.mod_small, Z.div_add, (Z.div_small pl), Z.add_0_l by lia.
  rewrite Z.mod_add, Z.mod_small, Nat2Z.id by lia. f_equal.
  change (2 ^ 12) with (2 ^ 8 * 2 ^ 4). rewrite <- Z.div_div, Z.div_add, (Z.div_small pl), Z.add_0_l, Z.div_add, Z.div_small by lia. lia.
Qed.

End Blocks.

Section Theorems.
Context `{KConfig}.
Implicit Types (k : kernel) (pools : list k_mem_pool) (m : LibC.memory) (p : k_mem_pool) (A : gset (nat * Z)).
Variable tf : positive -> toid -> kernel -> kernel.

Lemma reschedule_pending k t : _is_thread_pending (_reschedule_threads k) t = _is_thread_pending k t.
Proof.
  unfold _reschedule_threads. destruct (_must_switch_threads k); [|done]. apply pending_ext.
  change (thr (_Swap k) t) with (thr (upd_thread k (current k) (with_retval (- EAGAIN))) t).
  rewrite thr_upd_thread. by destruct (decide _) as [->|].
Qed.

Lemma reschedule_queues k : queues (_reschedule_threads k) = queues k.
Proof. unfold _reschedule_threads. by destruct (_must_switch_threads k). Qed.

Lemma pool_free_spec k pools p A (blk : k_mem_block) :
  sys_inv k -> get_pool pools (id_pool blk) = Some p -> pool_inv p A -> (id_level blk, id_block blk) ∈ A ->
  exists k' p', k_mem_pool_free k pools blk = Some (k', set_pool pools (id_pool blk) p') /\ sys_inv k' /\ same_shape p p' /\
    pool_inv p' (A ∖ {[(id_level blk, id_block blk)]}) /\ queues k' !!! wq p = [] /\
    (forall t, t ∈ queues k !!! wq p -> _is_thread_pending k' t = false) /\
    (forall w, w <> xO (wait_q p) -> queues k' !!! WQ w = queues k !!! WQ w).
Proof.
  intros Hs Hg Hi Ha. destruct (free_block_inv p A _ _ Hi Ha) as (p' & E & Hsh & Hi' & _).
  assert (exists k', k_mem_pool_free k pools blk = Some (k', set_pool pools (id_pool blk) p') /\
    let k1 := wake_all (length (queues k !!! wq p)) k (wq p) in k' = k1 \/ k' = _reschedule_threads k1) as (k' & Ek & Hk').
  { unfold k_mem_pool_free. rewrite Hg, E. unfold wq. rewrite (sh_wait_q _ _ Hsh). eexists. split; [done|]. destruct (_ && _); auto. }
  destruct (wake_all_spec (length (queues k !!! wq p)) k _ (sy_kinv _ Hs) (Nat.le_refl _)) as (_ & _ & Hq & Hp & _ & Ho).
  fold (object_wq (wait_q p)) in Hq, Hp. fold (wq p) in Hq, Hp.
  exists k', p'. split; [done|]. split; [by eapply pool_free_sys|]. split; [done|]. split; [done|].
  cbv zeta in Hk'. destruct Hk' as [-> | ->]; [done|]. rewrite reschedule_queues. split; [done|]. split; [|done].
  intros t Ht. rewrite reschedule_pending. by apply Hp.
Qed.

(** Freeing a block returns it to its pool and wakes every thread that waits
    for memory of that pool, so that each can try again: the wait queue is empty
    afterwards, none of its threads is pending, no other wait queue changes, and
    the scheduler's invariant holds. *)
Theorem pool_free_wakes_all k pools p A (blk : k_mem_block) :
  sys_inv k -> get_pool pools (id_pool blk) = Some p -> pool_inv p A -> (id_level blk, id_block blk) ∈ A ->
  exists k' p', k_mem_pool_free k pools blk = Some (k', set_pool pools (id_pool blk) p') /\ sys_inv k' /\
    pool_inv p' (A ∖ {[(id_level blk, id_block blk)]}) /\ queues k' !!! wq p = [] /\
    (forall t, t ∈ queues k !!! wq p -> _is_thread_pending k' t = false) /\
    (forall w, w <> xO (wait_q p) -> queues k' !!! WQ w = queues k !!! WQ w).
Proof. intros Hs Hg Hi Ha. destruct (pool_free_spec k pools p A blk Hs Hg Hi Ha) as (k' & p' & H1 & H2 & _ & H3). eauto 10. Qed.

(** What [k_free] does with a pointer from [k_malloc], at any later time at which
    the block is still held and its descriptor has not been written over. *)
Definition frees m (heap ptr : Z) l (b : Z) : Prop :=
  forall k pools m2 p A,
    sys_inv k -> heap_ok pools heap p A -> (l, b) ∈ A -> (forall q, ptr - 8 <= q < ptr -> LibC.ld8 m2 q = LibC.ld8 m q) ->
    exists k' p', k_free k pools m2 ptr = Some (k', set_pool pools heap p') /\ sys_inv k' /\
      heap_ok (set_pool pools heap p') heap p' (A ∖ {[(l, b)]}).

Lemma malloc_spec k pools m heap p A (size : Z) :
  heap_ok pools heap p A ->
  exists pools' m' ptr, k_malloc tf k pools m heap size = Some (k, pools', m', ptr) /\
    (ptr = 0 /\ pools' = pools /\ m' = m /\ (forall l b, 0 <= b -> bit p l b = true -> lsize p l < u32 (size + 8)) \/
     exists p' l b, ptr = addr p l b + 8 /\ pools' = set_pool pools heap p' /\ same_shape p p' /\
       heap_ok pools' heap p' ({[(l, b)]} ∪ A) /\ (l, b) ∉ A /\ u32 (size + 8) <= lsize p l /\
       (forall q, LibC.ld8 m' q <> LibC.ld8 m q -> ptr - 8 <= q < ptr) /\ frees m' heap ptr l b).
Proof.
  intros Hh. unfold k_malloc, k_mem_pool_alloc, alloc_turn. cbv zeta. rewrite (hp_pool _ _ _ _ Hh). unfold sizeof_block.
  destruct (pool_alloc_inv p A heap (u32 (size + 8)) (hp_inv _ _ _ _ Hh) (hp_levels _ _ _ _ Hh) (hp_blocks _ _ _ _ Hh))
    as (p' & rc & r & -> & Hs & Hr). rewrite Z.eqb_refl, orb_true_r. cbn [orb]. destruct r as [blk|].
  - destruct Hr as (-> & Ep & Ed & Hsz & _ & Hn & Hi' & _). cbn [Z.eqb negb]. rewrite Z.mod_small in Ep by apply Hh.
    eexists _, _, _. split; [done|]. right. exists p', (id_level blk), (id_block blk).
    pose proof (heap_ok_set _ _ _ _ p' _ Hh Hs Hi') as Hh'.
    pose proof (held_range _ _ _ _ (id_level blk) (id_block blk) Hh' ltac:(set_solver)) as (R1 & R2 & R3 & R4 & R5).
    rewrite (addr_shape p p' _ _ Hs), (lsize_shape p p' _ Hs) in *. rewrite <- Ed in *.
    split; [done|]. split; [done|]. split; [done|]. split; [done|]. split; [done|]. split; [done|]. split.
    + intros q Hq. unfold st_block in Hq. rewrite !LibC.ld8_st32 in Hq. repeat case_decide; lia || done.
    + intros k2 pools2 m2 p2 A2 Hs2 Hh2 Ha2 Hm2. unfold k_free, sizeof_block. destruct (Z.eqb_spec (data blk + 8) 0); [lia|]. cbn [negb].
      replace (data blk + 8 - 8) with (data blk) in * by lia.
      rewrite (ld_st_block m m2 (data blk) blk); [|lia|rewrite Ep; apply Hh|done|done|intros; apply Hm2; lia].
      destruct (pool_free_spec k2 pools2 p2 A2 blk Hs2) as (k' & p3 & -> & Hk' & Hs3 & Hi3 & _);
        [rewrite Ep; apply Hh2|apply Hh2|done|]. rewrite Ep.
      exists k', p3. split; [done|]. split; [done|]. by apply (heap_ok_set _ _ p2 A2).
  - destruct Hr as (-> & -> & Hr). eexists _, _, _. split; [done|]. left. split; [done|]. split; [|done]. by apply set_same, Hh.
Qed.

(** C12. The heap, for requests that do not wrap around with the descriptor
    ([size] < 2^32 - 8): [k_malloc] returns [NULL], without a change, only when no free
    block holds the request and its descriptor; otherwise the [size] bytes at the
    pointer lie in a block that no other caller holds, nothing but the
    descriptor in front of them is written, and [k_free] on the pointer gives that
    same block back, at any later time, if the descriptor is intact then. *)
Theorem malloc_free_roundtrip k pools m heap p A (size : Z) :
  heap_ok pools heap p A -> 0 <= size < 2 ^ 32 - 8 ->
  exists pools' m' ptr, k_malloc tf k pools m heap size = Some (k, pools', m', ptr) /\
    (ptr = 0 /\ pools' = pools /\ m' = m /\ (forall l b, 0 <= b -> bit p l b = true -> lsize p l < size + 8) \/
     exists p' l b, heap_ok pools' heap p' ({[(l, b)]} ∪ A) /\ (l, b) ∉ A /\
       ptr = addr p l b + 8 /\ ptr + size <= addr p l b + lsize p l /\
       (forall q, LibC.ld8 m' q <> LibC.ld8 m q -> ptr - 8 <= q < ptr) /\ frees m' heap ptr l b).
Proof.
  intros Hh Hsz. destruct (malloc_spec k pools m heap p A size Hh) as (pools' & m' & ptr & E & Hr). exists pools', m', ptr.
  split; [done|]. rewrite (u32_small (size + 8)) in Hr by lia. destruct Hr as [Hr|(p' & l & b & -> & _ & _ & H1 & H2 & H3 & H4 & H5)]; [by left|].
  right. exists p', l, b. split_and!; try done; try lia.
Qed.

(** [k_malloc] adds the size of the descriptor without checking: a request
    within 8 bytes of 4 GB is taken for one of less than 8 bytes, and succeeds
    whenever a block is free, although the block is smaller than the request. *)
Theorem malloc_size_wraps k pools m heap p A (size : Z) l b :
  heap_ok pools heap p A -> 2 ^ 32 - 8 <= size < 2 ^ 32 -> 0 <= b -> bit p l b = true -> size + 8 - 2 ^ 32 <= lsize p l ->
  exists pools' m' ptr p' l' b', k_malloc tf k pools m heap size = Some (k, pools', m', ptr) /\
    ptr = addr p l' b' + 8 /\ heap_ok pools' heap p' ({[(l', b')]} ∪ A) /\ lsize p l' < size + 8.
Proof.
  intros Hh Hsz Hb Hbit Hfit. assert (u32 (size + 8) = size + 8 - 2 ^ 32) as Eu.
  { unfold u32. symmetry. apply (Z.mod_unique_pos _ _ 1); lia. }
  destruct (malloc_spec k pools m heap p A size Hh) as (pools' & m' & ptr & E & Hr). rewrite Eu in Hr.
  destruct Hr as [(_ & _ & _ & Hr)|(p' & l' & b' & -> & _ & Hs & Hh' & _)]; [specialize (Hr l b Hb Hbit); lia|].
  exists pools', m', (addr p l' b' + 8), p', l', b'. split_and!; try done.
  pose proof (held_range _ _ _ _ l' b' Hh' ltac:(set_solver)) as (R1 & R2 & R3 & _). rewrite (lsize_shape _ _ _ Hs), (addr_shape _ _ _ _ Hs) in *. lia.
Qed.

End Theorems.

(** ** Instances *)

Section Witnesses.
Import Demo.
#[local] Existing Instance config.

(** The two blocks held in [demo_held]. *)
Definition demo_blocks : gset (nat * Z) := {[(1%nat, 1)]} ∪ ({[(1%nat, 0)]} ∪ (({[(0%nat, 0)]} ∪ ∅) ∖ {[(0%nat, 0)]})).

Lemma demo_inv : pool_inv demo_held demo_blocks.
Proof. apply (pool_reaches_inv _ _ _ _ _ _ _ _ demo_sizes demo_reaches_held). Qed.

Lemma demo_heap : heap_ok [demo_held] 0 demo_held demo_blocks.
Proof. split; [done|done|apply demo_inv|vm_compute; lia|vm_compute; congruence|vm_compute; done|vm_compute; congruence]. Qed.

(** The main thread and thread 4 wait for the pool. *)
Lemma pool_free_wakes_all_witness :
  exists k' p', k_mem_pool_free k_wait [demo_held] (mk_block 0x1000 0 1 0) = Some (k', [p']) /\
    queues k' !!! wq demo_held = [] /\ _is_thread_pending k' 3 = false /\ _is_thread_pending k' 4 = false.
Proof.
  destruct (pool_free_wakes_all k_wait [demo_held] demo_held demo_blocks (mk_block 0x1000 0 1 0) k_wait_sys eq_refl demo_inv)
    as (k' & p' & E & _ & _ & Hq & Hp & _); [unfold demo_blocks; cbn; set_solver|].
  exists k', p'. split; [exact E|]. split; [exact Hq|].
  split; apply Hp; apply (bool_decide_unpack _); vm_compute; exact I.
Defined.

Lemma malloc_free_roundtrip_witness :
  exists pools' m' l b, k_malloc no_tf k_boot [demo_held] ∅ 0 20 = Some (k_boot, pools', m', addr demo_held l b + 8) /\
    addr demo_held l b + 8 + 20 <= addr demo_held l b + lsize demo_held l.
Proof.
  destruct (malloc_free_roundtrip no_tf k_boot [demo_held] ∅ 0 demo_held demo_blocks 20 demo_heap ltac:(lia)) as (pools' & m' & ptr & E & H).
  destruct H as [(_ & _ & _ & H)|(p' & l & b & _ & _ & -> & Hl & _)].
  - exfalso. assert (lsize demo_held 0 < 20 + 8) as Hx; [|by vm_compute in Hx]. apply (H 0%nat 1); [lia|by vm_compute].
  - exists pools', m', l, b. split; [exact E|exact Hl].
Defined.

Lemma malloc_size_wraps_witness :
  exists pools' m' ptr p' l' b', k_malloc no_tf k_boot [demo_held] ∅ 0 (2 ^ 32 - 1) = Some (k_boot, pools', m', ptr) /\
    ptr = addr demo_held l' b' + 8 /\ heap_ok pools' 0 p' ({[(l', b')]} ∪ demo_blocks) /\ lsize demo_held l' < 2 ^ 32 - 1 + 8.
Proof.
  apply (malloc_size_wraps no_tf k_boot [demo_held] ∅ 0 demo_held demo_blocks (2 ^ 32 - 1) 0 1 demo_heap);
    [lia|lia|by vm_compute|by vm_compute].
Defined.

End Witnesses.

End Heap.
