(* ===== verification/Resume.v ===== *)
(** * Calls that switch threads in the middle

    A call of the kernel that readies a thread of higher priority, or that waits,
    switches to another thread and goes on when its own thread is chosen again.
    [proc] is such a call: it has returned, or another thread runs and [swapped]
    has what is left of the call, as a function of the state in which its thread
    runs again.  [ends] is the return of a call in an environment, a relation
    between the state at a switch and the one at the next resumption. *)

From S2P Require Import Prelude DList ListStore Kernel Ksched.

Declare Scope proc_scope.
Delimit Scope proc_scope with proc.

Section Proc.
Context {S : Type}.

(** [fault]: the behaviour is undefined (an access through a bad pointer);
    [more]: the bound on the turns of a loop was too small. *)
Inductive proc (A : Type) : Type :=
| ret (s : S) (a : A)
| fault
| more
| swapped (s : S) (rest : S -> proc A).

#[global] Arguments ret {A} s a.
#[global] Arguments fault {A}.
#[global] Arguments more {A}.
#[global] Arguments swapped {A} s rest.

Fixpoint bind {A B} (m : proc A) (f : S -> A -> proc B) : proc B :=
  match m with
  | ret s a => f s a
  | fault => fault
  | more => more
  | swapped s rest => swapped s (fun s => bind (rest s) f)
  end.

(** [env s s']: the other threads and the interrupts turn [s], in which the
    thread is switched out, into [s'], in which it runs again. *)
Inductive ends (env : S -> S -> Prop) {A} : proc A -> S -> A -> Prop :=
| ends_ret s a : ends env (ret s a) s a
| ends_swapped s rest s1 s2 a : env s s1 -> ends env (rest s1) s2 a -> ends env (swapped s rest) s2 a.

Lemma ends_bind env {A B} (m : proc A) (f : S -> A -> proc B) s2 b :
  ends env (bind m f) s2 b <-> exists s1 a, ends env m s1 a /\ ends env (f s1 a) s2 b.
Proof.
  split.
  - revert s2 b. induction m as [s a| | |s rest IH]; intros s2 b He; simpl in He; try by inversion He.
    + exists s, a. split; [constructor|done].
    + inversion He as [|? ? s1 ? ? Henv Hr E1 E2 E3]; subst. apply IH in Hr as (s3 & a & H1 & H2).
      exists s3, a. split; [by econstructor|done].
  - intros (s1 & a & H1 & H2). revert H2. induction H1 as [s a|s rest s3 s4 a Henv _ IH]; intros H2; simpl; [done|].
    econstructor; [done|]. by apply IH.
Qed.

(** A call that returned without a switch returns in every environment, and
    only so. *)
Lemma ends_ret_inv env {A} s s' (a a' : A) : ends env (ret s a) s' a' -> s' = s /\ a' = a.
Proof. intros He. by inversion He. Qed.

(** The state when the call returns or another thread is switched to for the first
    time; [settles]: [P] holds then. *)
Definition reached {A} (m : proc A) : option S :=
  match m with
  | ret s _ | swapped s _ => Some s
  | fault | more => None
  end.

Definition settles (P : S -> Prop) {A} (m : proc A) : Prop := forall s, reached m = Some s -> P s.

Lemma settles_bind (P : S -> Prop) {A B} (m : proc A) (f : S -> A -> proc B) :
  settles P m -> (forall s a, P s -> settles P (f s a)) -> settles P (bind m f).
Proof. intros Hm Hf. destruct m as [s a| | |s rest]; cbn [bind]; [by apply Hf, Hm|done|done|]. intros s' [= <-]. by apply Hm. Qed.

End Proc.

#[global] Arguments proc : clear implicits.

Notation "'let*' ( s , a ) := m 'in' e" := (bind m (fun s a => e))
  (at level 10, s name, a name, m at level 100, e at level 200) : proc_scope.

(** Calls on states with a kernel in them. *)
Section Kernel.
Context {S : Type} (ker : S -> kernel).

(** The end of a call that may have switched threads: [s] is a state before the
    switch and [s1] the one after it. *)
Definition finished {A} (s s1 : S) (a : A) : proc S A :=
  if decide (current (ker s1) = current (ker s)) then ret s1 a else swapped s1 (fun s => ret s a).

(** A service that may have switched threads, in the middle of a call. *)
Definition serviced (s s1 : S) : proc S unit := finished s s1 tt.

(** After [_Swap]: its value when the thread runs again. *)
Definition waiting (s1 : S) : proc S Z :=
  swapped s1 (fun s => ret s (retval (thr (ker s) (current (ker s))))).

Lemma finished_same {A} s s1 (a : A) : current (ker s1) = current (ker s) -> finished s s1 a = ret s1 a.
Proof. intros E. unfold finished. by rewrite decide_True. Qed.

Lemma settles_finished (P : S -> Prop) {A} s s1 (a : A) : P s1 -> settles P (finished s s1 a).
Proof. intros Hp. unfold finished. by case_decide; intros s' [= <-]. Qed.

Lemma finished_bind {A B} s s1 (a : A) (b : B) : bind (finished s s1 a) (fun s _ => ret s b) = finished s s1 b.
Proof. unfold finished. by case_decide. Qed.

Lemma finished_from {A} s s' s1 (a : A) : current (ker s) = current (ker s') -> finished s s1 a = finished s' s1 a.
Proof. unfold finished. by intros ->. Qed.

End Kernel.
