(* ===== verification/Parking.v ===== *)
(** * Threads on no queue

    Mailboxes and pipes take threads off their wait queue and make them ready
    later, when their data have been copied; in between the threads are on no queue.
    This file has the invariant through such steps. *)

From S2P Require Import Prelude DList ListStore Kernel Ksched ReadyQ TimeoutQ KInv Sched.

Local Open Scope Z_scope.

Section Parking.
Context `{KConfig}.
Implicit Types (k : kernel) (t u : tid).

Lemma abort_upd_thread k t f o :
  fst (_abort_timeout (upd_thread k t f) o) = upd_thread (fst (_abort_timeout k o)) t f.
Proof.
  unfold _abort_timeout. change (tmo (upd_thread k t f) o) with (tmo k o). destruct (_ =? _); [done|]. cbn [fst].
  change (timeout_q (upd_thread k t f)) with (timeout_q k). destruct (negb _); [|done]. by destruct (next_after _ _).
Qed.

Lemma handoff_order k t f :
  _ready_thread (upd_thread (fst (_abort_thread_timeout (_unpend_thread k t) t)) t f) t = handoff k t f.
Proof. unfold handoff, _abort_thread_timeout. by rewrite abort_upd_thread. Qed.

(** The end of such a wait: [t], which is on no queue, runs again. *)
Definition released k t : kernel := _ready_thread (_mark_thread_as_not_pending (_set_thread_return_value k t 0) t) t.

Lemma not_pending_bit k t u :
  _is_thread_pending (_mark_thread_as_not_pending k t) u = _is_thread_pending k u && bool_decide (u <> t).
Proof.
  rewrite !pending_spec. unfold _mark_thread_as_not_pending, _reset_thread_states. rewrite thr_upd_thread.
  destruct (decide (u = t)) as [->|Hne].
  - change _THREAD_PENDING with (Z.shiftl 1 1). rewrite st_bit_clear by done. rewrite !bool_decide_eq_false_2 by tauto. by rewrite andb_false_r.
  - by rewrite bool_decide_eq_true_2, andb_true_r.
Qed.

Lemma released_spec k t :
  kinv (Some t) [] k -> TOthread t ∉ timeout_q k -> current k <> t ->
  kinv None [] (released k t) /\ keeps k (released k t) /\ retval (thr (released k t) t) = 0 /\
  _is_thread_pending (released k t) t = false /\ (forall u, u <> t -> thr (released k t) u = thr k u) /\
  forall w, queues (released k t) !!! WQ w = queues k !!! WQ w.
Proof.
  intros Hi Ht Hc. unfold released. set (k1 := _mark_thread_as_not_pending _ t).
  assert (kinv (Some t) [] k1) as H1.
  { apply kinv_upd_transit; [|by apply kinv_upd_other]. unfold _set_thread_return_value. rewrite thr_upd_same.
    apply (ri_prio _ _ (si_rq _ _ (ki_sched _ _ _ Hi))). }
  assert (_is_thread_pending k1 t = false) as Hp
    by (unfold k1; by rewrite not_pending_bit, bool_decide_eq_false_2, andb_false_r by tauto).
  assert (forall u, u <> t -> thr k1 u = thr k u) as Hu.
  { intros u Hne. unfold k1, _mark_thread_as_not_pending, _reset_thread_states, _set_thread_return_value. by rewrite !thr_upd_other. }
  split_and!.
  - apply kinv_ready_thread; [done|done|]. change (timeout_q k1) with (timeout_q k). rewrite app_nil_r. done.
  - unfold keeps. rewrite current_ready_thread, nested_ready_thread, handling_ready_thread. split; [done|]. split; [done|].
    split; [done|]. intros Hr. change (current k1) with (current k). rewrite ready_thread_ready by done. etransitivity; [|exact Hr].
    apply ready_ext; [by rewrite Hu|done].
  - rewrite ready_thread_thr, decide_True by done. cbn [retval with_state].
    unfold k1, _mark_thread_as_not_pending, _reset_thread_states. rewrite thr_upd_same. cbn [retval with_state].
    unfold _set_thread_return_value. by rewrite thr_upd_same.
  - rewrite pending_spec, ready_thread_thr, decide_True by done. change _THREAD_PRESTART with (Z.shiftl 1 2).
    rewrite st_bit_clear, andb_true_r by done. by rewrite <- pending_spec.
  - intros u Hne. rewrite ready_thread_thr, decide_False by done. by apply Hu.
  - intros w. by rewrite ready_thread_wq.
Qed.

(** A thread that is taken off its wait queue and not made ready. *)
Definition parked k t : kernel := fst (_abort_thread_timeout (_unpend_thread k t) t).

Lemma parked_spec k t :
  kinv None [] k -> _is_thread_pending k t = true ->
  kinv (Some t) [] (parked k t) /\ TOthread t ∉ timeout_q (parked k t) /\ current (parked k t) = current k /\
  nested (parked k t) = nested k /\ _is_thread_pending (parked k t) t = false /\
  (forall u, u <> t -> thr (parked k t) u = thr k u) /\
  (_is_thread_ready k (current k) = true -> _is_thread_ready (parked k t) (current k) = true) /\
  (forall g : k_thread -> Z, (forall n x, g (with_state n x) = g x) -> g (thr (parked k t) t) = g (thr k t)) /\
  forall w, queues (parked k t) !!! WQ w = filter (fun u => u <> t) (queues k !!! WQ w).
Proof.
  intros Hi Hp. pose proof (kinv_unpend _ _ _ Hi Hp) as H1. unfold parked, _abort_thread_timeout.
  pose proof (abort_frame (_unpend_thread k t) (TOthread t)) as Hf.
  split_and!.
  - apply kinv_abort; [done|apply not_elem_of_nil|congruence].
  - intros Hin. eapply (abort_off (Some t) []); [apply H1|apply not_elem_of_nil|]. rewrite app_nil_r. exact Hin.
  - by rewrite current_abort.
  - by rewrite nested_abort.
  - rewrite abort_pending. apply unpend_not_pending.
  - intros u Hu. rewrite Hf. change (thr (_unpend_thread k t) u = thr k u).
    unfold _unpend_thread, _mark_thread_as_not_pending, _reset_thread_states. by rewrite thr_upd_other.
  - intros Hc. pose proof (pending_not_current _ _ Hp Hc) as Hne.
    rewrite (abort_ready (Some t) []); [|done|apply not_elem_of_nil|congruence|congruence]. by rewrite unpend_ready.
  - intros g Hg. rewrite Hf. change (g (thr (_unpend_thread k t) t) = g (thr k t)).
    unfold _unpend_thread, _mark_thread_as_not_pending, _reset_thread_states. by rewrite thr_upd_same, Hg.
  - intros w. rewrite Hf. apply Lst.lookup_remove.
Qed.

Lemma dummy_spec k t : _is_thread_dummy k t = st_bit (thr k t) 0.
Proof. by apply (state_set_spec k t 0). Qed.

Lemma ready_not_dummy k t : _is_thread_ready k t = true -> _is_thread_dummy k t = false.
Proof.
  rewrite dummy_spec. intros [Hp _]%ready_spec. unfold prevented in Hp. by destruct (st_bit (thr k t) 0).
Qed.

Lemma parked_bit k t (n : Z) : 0 <= n < 8 -> st_bit (thr (parked k t) t) n = st_bit (thr k t) n && bool_decide (n <> 1).
Proof.
  intros Hn. unfold parked, _abort_thread_timeout. rewrite (abort_frame (_unpend_thread k t) (TOthread t)).
  change (st_bit (thr (_unpend_thread k t) t) n = st_bit (thr k t) n && bool_decide (n <> 1)).
  unfold _unpend_thread, _mark_thread_as_not_pending, _reset_thread_states. rewrite thr_upd_same.
  change _THREAD_PENDING with (Z.shiftl 1 1). by apply st_bit_clear.
Qed.

Lemma Swap_kinv X k : kinv X [] k -> kinv X [] (_Swap k).
Proof.
  intros Hi. unfold _Swap, __swap. cbv zeta.
  apply (kinv_same _ _ (upd_thread k (current k) (with_retval (- EAGAIN)))); try done. by apply kinv_upd_other.
Qed.

Lemma cache_ready X k : sched_inv X k -> X <> Some (cache k) /\ _is_thread_ready k (cache k) = true.
Proof.
  intros Hi. pose proof (si_rq _ _ Hi) as Hr. destruct (sched_nonempty _ _ Hi) as [j Hj].
  destruct (highest_exists _ _ _ Hr Hj) as (i & Hh & _). destruct (cache_on_highest _ _ _ Hr Hh) as [Hc _].
  by apply (ri_rq _ _ Hr) in Hc as (? & ? & _).
Qed.

(** The current thread waits on no queue, for somebody who knows it. *)
Definition unqueued k : kernel := let k := _remove_thread_from_ready_q k (current k) in _mark_thread_as_pending k (current k).

Lemma unqueued_spec k :
  kinv None [] k -> _is_thread_ready k (current k) = true -> current k <> idle_thread ->
  let k' := _Swap (unqueued k) in
  kinv (Some (current k)) [] k' /\ TOthread (current k) ∉ timeout_q k' /\ current k' <> current k /\
  _is_thread_ready k' (current k') = true /\ (forall u, u <> current k -> thr k' u = thr k u) /\
  swap_data (thr k' (current k)) = swap_data (thr k (current k)) /\ _is_thread_dummy k' (current k) = _is_thread_dummy k (current k) /\
  (forall w, queues k' !!! WQ w = queues k !!! WQ w).
Proof.
  intros Hi Hr Hc. unfold unqueued. cbv zeta. pose proof (kinv_remove _ _ _ Hi Hr Hc) as H1.
  destruct (remove_timeouts k (current k)) as [Eq _]. rewrite remove_current. set (k1 := _remove_thread_from_ready_q k (current k)) in *.
  destruct (kinv_mark_pending _ _ _ H1) as [H2 _]. set (k2 := _mark_thread_as_pending k1 (current k)) in *.
  pose proof (Swap_kinv _ _ H2) as H3. destruct (cache_ready _ _ (ki_sched _ _ _ H3)) as [Hx Hcr].
  assert (current k2 = current k) as Ec by (unfold k2; exact (remove_current k (current k))).
  assert (forall u, thr (_Swap k2) u = if decide (u = current k) then with_retval (- EAGAIN)
            (with_state (u8 (Z.lor (thread_state (thr k u)) _THREAD_PENDING)) (thr k u)) else thr k u) as Ht.
  { intros u. change (thr (_Swap k2) u) with (thr (upd_thread k2 (current k2) (with_retval (- EAGAIN))) u).
    rewrite Ec, thr_upd_thread. unfold k2, _mark_thread_as_pending, _set_thread_states.
    destruct (decide _) as [->|Hne]; [rewrite thr_upd_same|rewrite thr_upd_other by done]; unfold k1; by rewrite remove_thr. }
  split_and!; [done| | |exact Hcr| | | |].
  - change (timeout_q (_Swap k2)) with (timeout_q k1). rewrite Eq. intros Hin.
    apply (ready_off_queue None [] _ _ (ki_tq _ _ _ Hi) Hr). by apply elem_of_app; left.
  - intros E. apply Hx. f_equal. rewrite <- E. done.
  - intros u Hu. by rewrite Ht, decide_False.
  - by rewrite Ht, decide_True.
  - rewrite !dummy_spec, Ht, decide_True by done. change _THREAD_PENDING with (Z.shiftl 1 1).
    change (st_bit (with_retval ?r ?x) 0) with (st_bit x 0). rewrite st_bit_set by done. apply orb_false_r.
  - intros w. exact (remove_wq_eq [] k (current k) w Hi Hr).
Qed.

(** A change that concerns neither priorities nor who can run. *)
Lemma sys_upd_other k t f :
  (forall x, prio (f x) = prio x) -> (forall x, thread_state (f x) = thread_state x) ->
  (forall x, sched_locked (f x) = sched_locked x) -> sys_inv k -> sys_inv (upd_thread k t f).
Proof.
  intros Hp Hst Hl [H1 H2 H3].
  assert (forall u, prio (thr (upd_thread k t f) u) = prio (thr k u) /\
            sched_locked (thr (upd_thread k t f) u) = sched_locked (thr k u) /\
            _is_thread_ready (upd_thread k t f) u = _is_thread_ready k u) as Hu.
  { intros u. split_and!; [| |apply ready_ext; [|done]]; rewrite thr_upd_thread; destruct (decide _) as [->|]; by rewrite ?Hp, ?Hl, ?Hst. }
  split; [by apply kinv_upd_other|change (current (upd_thread k t f)) with (current k); by rewrite (proj2 (proj2 (Hu _)))|].
  change (current (upd_thread k t f)) with (current k). change (nested (upd_thread k t f)) with (nested k).
  unfold _is_preempt, preempt. rewrite (proj1 (Hu _)), (proj1 (proj2 (Hu _))). intros Hn Hpr u Hru.
  change (current (upd_thread k t f)) with (current k). rewrite !(proj1 (Hu _)). rewrite (proj2 (proj2 (Hu _))) in Hru. by apply (H3 Hn Hpr).
Qed.

Lemma resched_thr k t : current k <> t -> thr (_reschedule_threads k) t = thr k t.
Proof.
  intros Hc. unfold _reschedule_threads. destruct (_must_switch_threads k); [|done].
  exact (thr_upd_other (_update_time_slice_before_swap k) (current k) t (with_retval (- EAGAIN)) (not_eq_sym Hc)).
Qed.

Lemma resched_queues k : queues (_reschedule_threads k) = queues k.
Proof. unfold _reschedule_threads. by destruct (_must_switch_threads k). Qed.

(** ** Several threads at once

    Taking threads off their queue one after the other and making them ready
    afterwards is the same as waking each of them in turn. *)

Definition woken_up k t : kernel := _ready_thread (parked k t) t.

Lemma kernel_eq k k' :
  current k' = current k -> nested k' = nested k -> cache k' = cache k -> prio_bmap k' = prio_bmap k -> queues k' = queues k ->
  timeout_q k' = timeout_q k -> handling_timeouts k' = handling_timeouts k -> threads k' = threads k -> timeouts k' = timeouts k ->
  timers k' = timers k -> time_slice_elapsed k' = time_slice_elapsed k -> time_slice_duration k' = time_slice_duration k ->
  time_slice_prio_ceiling k' = time_slice_prio_ceiling k -> tick_count k' = tick_count k -> k' = k.
Proof. destruct k, k'; simpl; intros; subst; done. Qed.

Lemma abort_agree k k' o :
  timeouts k' = timeouts k -> timeout_q k' = timeout_q k ->
  timeouts (fst (_abort_timeout k' o)) = timeouts (fst (_abort_timeout k o)) /\
  timeout_q (fst (_abort_timeout k' o)) = timeout_q (fst (_abort_timeout k o)).
Proof.
  destruct k, k'. simpl. intros -> ->. unfold _abort_timeout, upd_timeout, tmo. cbn.
  destruct (_ =? _); [done|]. destruct (negb _); [|done]. by destruct (next_after _ _).
Qed.

Lemma remove_append (L : gmap qid (list tid)) (q : qid) t u : u <> t -> Lst.remove (Lst.append L q u) t = Lst.append (Lst.remove L t) q u.
Proof.
  intros Hne. unfold Lst.append. rewrite Lst.lookup_remove. unfold Lst.remove. rewrite fmap_insert, filter_app.
  by rewrite filter_cons_True.
Qed.

(** The fields of [parked k t]. *)
Lemma parked_fields k t :
  parked k t = set_timeouts (set_timeout_q (set_threads (set_queues k (Lst.remove (queues k) t))
      (<[t := with_state (u8 (Z.land (thread_state (thr k t)) (Z.lnot _THREAD_PENDING))) (thr k t)]> (threads k)))
    (timeout_q (fst (_abort_timeout k (TOthread t))))) (timeouts (fst (_abort_timeout k (TOthread t)))).
Proof.
  unfold parked, _abort_thread_timeout. pose proof (abort_frame (_unpend_thread k t) (TOthread t)) as Hf. unfold tq_frame in Hf. rewrite Hf.
  destruct (abort_agree k (_unpend_thread k t) (TOthread t) eq_refl eq_refl) as [-> ->]. reflexivity.
Qed.

Lemma next_after_elem o l n : next_after o l = Some n -> n ∈ l.
Proof.
  induction l as [|x l IH]; cbn; [done|]. destruct (decide (x = o)); [|intros Hn; right; auto].
  destruct l; intros; simplify_eq/=. right. left.
Qed.

Lemma parked_tmo k t u : u <> t -> TOthread u ∉ timeout_q k -> tmo (parked k t) (TOthread u) = tmo k (TOthread u).
Proof.
  intros Hne Hu. rewrite parked_fields. unfold tmo at 1. cbn [timeouts set_timeouts]. unfold _abort_timeout.
  destruct (_ =? _); [done|]. cbn [fst]. unfold upd_timeout. cbn [timeouts set_timeouts].
  rewrite lookup_total_insert_ne by congruence. change (timeouts (set_timeout_q ?k1 ?q)) with (timeouts k1).
  destruct (negb _); [|done]. destruct (next_after _ _) as [n|] eqn:En; [|done]. cbn [timeouts set_timeouts].
  rewrite lookup_total_insert_ne; [done|]. intros ->. apply Hu. by eapply next_after_elem.
Qed.

Lemma parked_prio k t u : prio (thr (parked k t) u) = prio (thr k u).
Proof.
  rewrite parked_fields. unfold thr at 1. cbn [threads set_timeouts set_timeout_q set_threads].
  destruct (decide (u = t)) as [->|]; [by rewrite lookup_total_insert_eq|by rewrite lookup_total_insert_ne].
Qed.

Lemma parked_other k t u : u <> t -> thr (parked k t) u = thr k u.
Proof.
  intros Hu. rewrite parked_fields. unfold thr at 1. cbn [threads set_timeouts set_timeout_q set_threads].
  by rewrite lookup_total_insert_ne.
Qed.

(** Parking a thread and making another one ready commute. *)
Lemma ready_parked k t u : u <> t -> TOthread u ∉ timeout_q k -> _ready_thread (parked k t) u = parked (_ready_thread k u) t.
Proof.
  intros Hne Hu. unfold _ready_thread. cbv zeta. set (f := fun x => with_state (u8 (Z.land (thread_state x) (Z.lnot _THREAD_PRESTART))) x).
  change (_mark_thread_as_started (parked k t) u) with (upd_thread (parked k t) u f).
  change (_mark_thread_as_started k u) with (upd_thread k u f).
  assert (upd_thread (parked k t) u f = parked (upd_thread k u f) t) as Es.
  { unfold upd_thread. rewrite (parked_other _ _ _ Hne). rewrite !parked_fields.
    destruct (abort_agree k (set_threads k (<[u := f (thr k u)]> (threads k))) (TOthread t) eq_refl eq_refl) as [-> ->].
    assert (thr (set_threads k (<[u := f (thr k u)]> (threads k))) t = thr k t) as -> by exact (lookup_total_insert_ne _ _ _ _ Hne).
    apply kernel_eq; try done. cbn [threads set_threads set_timeouts set_timeout_q set_queues]. by apply insert_insert_ne. }
  rewrite Es. set (k1 := upd_thread k u f). change (TOthread u ∉ timeout_q k1) in Hu.
  assert (_is_thread_ready (parked k1 t) u = _is_thread_ready k1 u) as Er
    by (apply ready_ext; [by rewrite parked_other|by rewrite parked_tmo]).
  rewrite Er. destruct (_is_thread_ready k1 u); [|done]. unfold _add_thread_to_ready_q.
  rewrite parked_prio. set (i := _get_ready_q_q_index (prio (thr k1 u))). cbv zeta.
  unfold _is_t1_higher_prio_than_t2. change (thr (set_queues ?a ?b) ?c) with (thr a c). change (cache (set_queues ?a ?b)) with (cache a).
  change (thr (_set_ready_q_prio_bit ?a ?b) ?c) with (thr a c). change (cache (_set_ready_q_prio_bit ?a ?b)) with (cache a).
  assert (cache (parked k1 t) = cache k1) as -> by (by rewrite parked_fields).
  rewrite !parked_prio. set (b := _is_prio1_higher_than_prio2 _ _).
  match goal with |- _ = parked ?k' t => set (k2 := k') end. rewrite (parked_fields k2 t), (parked_fields k1 t).
  destruct (abort_agree k1 k2 (TOthread t) eq_refl eq_refl) as [-> ->]. unfold k2. apply kernel_eq; try done.
  cbn [queues set_cache set_queues set_timeouts set_timeout_q set_threads _set_ready_q_prio_bit set_bmap]. symmetry. by apply remove_append.
Qed.

(** The threads of [l] parked one after the other, then made ready in order. *)
Definition parked_all k (l : list tid) : kernel := foldl parked k l.
Definition readied_all k (l : list tid) : kernel := foldl _ready_thread k l.
Definition woken_all k (l : list tid) : kernel := foldl woken_up k l.

Lemma parked_timeout_q k t o : o ∈ timeout_q (parked k t) -> o ∈ timeout_q k.
Proof. rewrite parked_fields. cbn [timeout_q set_timeouts set_timeout_q]. apply abort_sub. Qed.

Lemma ready_parked_all l : forall k u,
  u ∉ l -> TOthread u ∉ timeout_q k -> _ready_thread (parked_all k l) u = parked_all (_ready_thread k u) l.
Proof.
  induction l as [|t l IH]; intros k u Hu Ho; [done|]. apply not_elem_of_cons in Hu as [Hne Hu]. cbn.
  change (_ready_thread (parked_all (parked k t) l) u = parked_all (parked (_ready_thread k u) t) l).
  rewrite IH; [by rewrite ready_parked|done|]. intros Hin. apply Ho. by eapply parked_timeout_q.
Qed.

Lemma batch l : forall k,
  kinv None [] k -> NoDup l -> (forall t, t ∈ l -> _is_thread_pending k t = true) ->
  readied_all (parked_all k l) l = woken_all k l.
Proof.
  induction l as [|t l IH]; intros k Hk Hnd Hp; [done|]. apply NoDup_cons in Hnd as [Ht Hnd].
  assert (_is_thread_pending k t = true) as Hpt by (apply Hp; left).
  destruct (parked_spec k t Hk Hpt) as (K1 & K2 & _ & _ & K5 & K6 & _).
  change (readied_all (_ready_thread (parked_all (parked k t) l) t) l = woken_all (woken_up k t) l).
  rewrite ready_parked_all by done. apply IH; [|done|].
  - apply kinv_wake; [done|done|apply not_elem_of_nil].
  - intros u Hu. assert (u <> t) as Hne by (intros ->; done). rewrite <- (Hp u) by by right.
    apply pending_ext. unfold woken_up. rewrite ready_thread_thr, decide_False by done. by rewrite K6.
Qed.

(** What waking them comes to. *)
Lemma woken_all_spec l : forall k,
  kinv None [] k -> NoDup l -> (forall t, t ∈ l -> _is_thread_pending k t = true) ->
  kinv None [] (woken_all k l) /\ keeps k (woken_all k l) /\
  (forall t, t ∈ l -> _is_thread_pending (woken_all k l) t = false) /\
  (forall u, u ∉ l -> thr (woken_all k l) u = thr k u) /\
  (forall u, prio (thr (woken_all k l) u) = prio (thr k u)) /\
  (forall w, queues (woken_all k l) !!! WQ w = filter (fun u => u ∉ l) (queues k !!! WQ w)).
Proof.
  induction l as [|t l IH]; intros k Hk Hnd Hp.
  { split_and!; try done; [intros t []%elem_of_nil|]. intros w. cbn. symmetry. apply filter_all, Forall_forall. intros u _ []%elem_of_nil. }
  apply NoDup_cons in Hnd as [Ht Hnd]. assert (_is_thread_pending k t = true) as Hpt by (apply Hp; left).
  assert (kinv None [] (woken_up k t)) as Hk1 by (apply kinv_wake; [done|done|apply not_elem_of_nil]).
  pose proof (fun u => wake_thr k t u) as Hw. change (_ready_thread (fst (_abort_thread_timeout (_unpend_thread k t) t)) t) with (woken_up k t) in Hw.
  assert (forall u, u ∈ l -> _is_thread_pending (woken_up k t) u = true) as Hp1.
  { intros u Hu. rewrite <- (Hp u) by by right. apply pending_ext. destruct (Hw u) as [E _]. rewrite E; [done|by intros ->]. }
  destruct (IH (woken_up k t) Hk1 Hnd Hp1) as (I1 & I2 & I3 & I4 & I5 & I6).
  change (woken_all k (t :: l)) with (woken_all (woken_up k t) l). split_and!; [done| | | | |].
  - eapply keeps_trans; [|exact I2]. apply (wake_keeps []); [done|done|apply not_elem_of_nil].
  - intros u [->|Hu]%elem_of_cons; [|auto]. rewrite <- (wake_not_pending k t). apply pending_ext. by rewrite I4.
  - intros u [Hne Hu]%not_elem_of_cons. rewrite I4 by done. by apply Hw.
  - intros u. rewrite I5. by apply (Hw u).
  - intros w. rewrite I6. change (queues (woken_up k t)) with (queues (_ready_thread (fst (_abort_thread_timeout (_unpend_thread k t) t)) t)).
    rewrite wake_wq, list_filter_filter. apply list_filter_iff. intros u. rewrite not_elem_of_cons. tauto.
Qed.

(** They can all run, unless something else keeps them from it. *)
Lemma woken_all_ready l : forall k,
  kinv None [] k -> NoDup l -> (forall t, t ∈ l -> _is_thread_pending k t = true) ->
  (forall t, t ∈ l -> may_run k t -> _is_thread_ready (woken_all k l) t = true) /\
  (forall u, u ∉ l -> _is_thread_ready (woken_all k l) u = _is_thread_ready k u).
Proof.
  induction l as [|t l IH]; intros k Hk Hnd Hp; [split; [by intros t ?%elem_of_nil|done]|].
  apply NoDup_cons in Hnd as [Ht Hnd]. assert (_is_thread_pending k t = true) as Hpt by (apply Hp; left).
  assert (kinv None [] (woken_up k t)) as Hk1 by (apply kinv_wake; [done|done|apply not_elem_of_nil]).
  assert (forall u, u <> t -> thr (woken_up k t) u = thr k u) as Hw by (intros u Hu; by apply (wake_thr k t u)).
  destruct (IH (woken_up k t) Hk1 Hnd) as [I1 I2].
  { intros u Hu. rewrite <- (Hp u) by by right. apply pending_ext. rewrite Hw; [done|by intros ->]. }
  change (woken_all k (t :: l)) with (woken_all (woken_up k t) l). split.
  - intros u [->|Hu]%elem_of_cons Hm; [rewrite I2 by done; by apply wake_makes_ready|].
    apply I1; [done|]. unfold may_run. rewrite Hw; [done|by intros ->].
  - intros u [Hne Hu]%not_elem_of_cons. rewrite I2 by done. by apply (wake_ready []); [..|apply not_elem_of_nil|].
Qed.

(** Changes of another thread that are irrelevant to the scheduler commute with
    making a thread ready. *)
Lemma ready_upd_other k u c f :
  (forall x, prio (f x) = prio x) -> (forall x, thread_state (f x) = thread_state x) -> u <> c ->
  _ready_thread (upd_thread k c f) u = upd_thread (_ready_thread k u) c f.
Proof.
  intros Hp Hst Hne. unfold _ready_thread. cbv zeta. set (g := fun x => with_state (u8 (Z.land (thread_state x) (Z.lnot _THREAD_PRESTART))) x).
  change (_mark_thread_as_started (upd_thread k c f) u) with (upd_thread (upd_thread k c f) u g).
  change (_mark_thread_as_started k u) with (upd_thread k u g).
  assert (upd_thread (upd_thread k c f) u g = upd_thread (upd_thread k u g) c f) as ->.
  { unfold upd_thread. apply kernel_eq; try done. unfold thr. cbn [threads set_threads].
    rewrite !lookup_total_insert_ne by done. by apply insert_insert_ne. }
  set (k1 := upd_thread k u g). assert (forall v, prio (thr (upd_thread k1 c f) v) = prio (thr k1 v)) as Hpr.
  { intros v. rewrite thr_upd_thread. destruct (decide _) as [->|]; by rewrite ?Hp. }
  assert (_is_thread_ready (upd_thread k1 c f) u = _is_thread_ready k1 u) as -> by (apply ready_ext; [by rewrite thr_upd_other|done]).
  destruct (_is_thread_ready k1 u); [|done]. unfold _add_thread_to_ready_q. cbv zeta. rewrite Hpr.
  unfold _is_t1_higher_prio_than_t2. change (thr (set_queues ?a ?b) ?d) with (thr a d). change (cache (set_queues ?a ?b)) with (cache a).
  change (thr (_set_ready_q_prio_bit ?a ?b) ?d) with (thr a d). change (cache (_set_ready_q_prio_bit ?a ?b)) with (cache a).
  rewrite !Hpr. reflexivity.
Qed.

Lemma readied_upd_other l c f :
  (forall x, prio (f x) = prio x) -> (forall x, thread_state (f x) = thread_state x) -> c ∉ l ->
  forall k, readied_all (upd_thread k c f) l = upd_thread (readied_all k l) c f.
Proof.
  intros Hp Hst. induction l as [|u l IH]; intros Hc k; [done|]. apply not_elem_of_cons in Hc as [Hne Hc].
  change (readied_all (_ready_thread (upd_thread k c f) u) l = upd_thread (readied_all (_ready_thread k u) l) c f).
  rewrite ready_upd_other by done. by apply IH.
Qed.

Lemma parked_all_current l : forall k, current (parked_all k l) = current k.
Proof.
  induction l as [|t l IH]; intros k; [done|]. change (parked_all k (t :: l)) with (parked_all (parked k t) l).
  rewrite IH. by rewrite parked_fields.
Qed.

End Parking.
