(* ===== verification/Mailbox.v ===== *)
(** * Mailboxes (kernel/mailbox.c)

    A message descriptor is a structure of the application; its address is what
    a waiting thread has in its swap data, so sender and receiver see each
    other's descriptors through the store [msgs].  An asynchronous send uses a
    descriptor of the kernel, with a dummy thread that takes the place of the
    sender; a descriptor and its dummy thread have the same address, and the
    descriptor's message is at [async_tx_msg].  Two descriptors of one exchange are
    different objects. *)

From S2P Require Import Prelude DList ListStore Kernel Ksched ReadyQ TimeoutQ KInv Sched Thread Demo Sem Stack LibC MemPool Heap Resume Parking.

Local Open Scope Z_scope.
Local Open Scope proc_scope.

Module Mailbox.

(** [struct k_mbox_msg], less the fields of the legacy interface; [K_ANY], which
    is [NULL], is [None], and data pointers are 0 for [NULL]. *)
Record k_mbox_msg := mk_msg {
  size : Z;
  info : Z;
  tx_data : Z;
  tx_block : MemPool.k_mem_block;
  rx_source_thread : option tid;
  tx_target_thread : option tid;
  _syncing_thread : option tid;
  _async_sem : option positive
}.

Record k_mbox := mk_mbox { tx_msg_queue : positive; rx_msg_queue : positive }.

Definition no_block : MemPool.k_mem_block := MemPool.mk_block 0 0 0 0.

#[export] Instance k_mbox_msg_inhabited : Inhabited k_mbox_msg := populate (mk_msg 0 0 0 no_block None None None None).
#[export] Instance k_sem_inhabited : Inhabited Sem.k_sem := populate (Sem.mk_sem 1 0 0).

Record state := mk_state {
  ker : kernel;
  pools : list MemPool.k_mem_pool;
  mem : LibC.memory;
  msgs : gmap Z k_mbox_msg;
  sems : gmap positive Sem.k_sem;
  async_msg_free : Stack.k_stack
}.

Section Mailbox.
Context `{KConfig}.
Implicit Types (s : state) (mbox : k_mbox) (t : tid) (timeout tx rx : Z) (m : k_mbox_msg).
Variable timeout_func : positive -> toid -> kernel -> kernel.

Definition tx_q mbox : qid := object_wq (tx_msg_queue mbox).
Definition rx_q mbox : qid := object_wq (rx_msg_queue mbox).

Definition msg s (a : Z) : k_mbox_msg := msgs s !!! a.

Definition set_ker s (k : kernel) : state := mk_state k (pools s) (mem s) (msgs s) (sems s) (async_msg_free s).
Definition set_pools s (k : kernel) ps : state := mk_state k ps (mem s) (msgs s) (sems s) (async_msg_free s).
Definition set_mem s (h : LibC.memory) : state := mk_state (ker s) (pools s) h (msgs s) (sems s) (async_msg_free s).
Definition set_msg s (a : Z) m : state :=
  mk_state (ker s) (pools s) (mem s) (<[a := m]> (msgs s)) (sems s) (async_msg_free s).

Definition with_size n m : k_mbox_msg :=
  mk_msg n (info m) (tx_data m) (tx_block m) (rx_source_thread m) (tx_target_thread m) (_syncing_thread m) (_async_sem m).
Definition with_block b m : k_mbox_msg :=
  mk_msg (size m) (info m) (tx_data m) b (rx_source_thread m) (tx_target_thread m) (_syncing_thread m) (_async_sem m).
Definition with_source t m : k_mbox_msg :=
  mk_msg (size m) (info m) (tx_data m) (tx_block m) (Some t) (tx_target_thread m) (_syncing_thread m) (_async_sem m).
Definition with_target t m : k_mbox_msg :=
  mk_msg (size m) (info m) (tx_data m) (tx_block m) (rx_source_thread m) (Some t) (_syncing_thread m) (_async_sem m).
Definition with_syncing (t : option tid) m : k_mbox_msg :=
  mk_msg (size m) (info m) (tx_data m) (tx_block m) (rx_source_thread m) (tx_target_thread m) t (_async_sem m).
Definition with_sem (sem : option positive) m : k_mbox_msg :=
  mk_msg (size m) (info m) (tx_data m) (tx_block m) (rx_source_thread m) (tx_target_thread m) (_syncing_thread m) sem.

Definition with_data (p : Z) (b : MemPool.k_mem_block) : MemPool.k_mem_block :=
  MemPool.mk_block p (MemPool.id_pool b) (MemPool.id_level b) (MemPool.id_block b).

(** ** Asynchronous message descriptors *)

Definition CONFIG_NUM_MBOX_ASYNC_MSGS : nat := 10.

(** [&async->tx_msg]; the messages of the application have positive addresses *)
Definition async_tx_msg (async : tid) : Z := Zneg async.

Definition _mbox_async_free s (async : tid) : proc state unit :=
  match Stack._impl_k_stack_push (ker s) (async_msg_free s) (Zpos async) with
  | None => fault
  | Some (k, stack) => serviced ker s (mk_state k (pools s) (mem s) (msgs s) (sems s) stack)
  end.

(** the word popped is the address of the descriptor *)
Definition _mbox_async_alloc s : proc state tid :=
  let '(k, stack, r) := Stack._impl_k_stack_pop timeout_func (ker s) (async_msg_free s) K_FOREVER in
  let s := mk_state k (pools s) (mem s) (msgs s) (sems s) stack in
  match r with
  | Some (_, Some w) => ret s (Z.to_pos w)
  | Some (_, None) => fault
  | None => swapped s (fun s =>
      match Stack.k_stack_pop_resume (ker s) with
      | (_, Some w) => ret s (Z.to_pos w)
      | (_, None) => fault
      end)
  end.

(** [l] are the descriptors, in the order of the array *)
Fixpoint init_async s (l : list tid) : proc state unit :=
  match l with
  | [] => ret s tt
  | a :: l =>
      let s := set_ker s (Thread._init_thread_base (ker s) a 0 _THREAD_DUMMY 0) in
      let* (s, _) := _mbox_async_free s a in init_async s l
  end.

Definition init_mbox_module s (async_msg : list tid) : proc state unit := init_async s async_msg.

Definition k_mbox_init s (tx rx : positive) : state * k_mbox :=
  let mbox := mk_mbox tx rx in
  let k := set_queues (ker s) (Lst.init (queues (ker s)) (tx_q mbox)) in
  (set_ker s (set_queues k (Lst.init (queues k) (rx_q mbox))), mbox).

(** ** Matching *)

(** The sender's and the receiver's descriptor after a match; [None] is -1. *)
Definition _mbox_message_match (tx_msg rx_msg : k_mbox_msg) : option (k_mbox_msg * k_mbox_msg) :=
  if bool_decide ((tx_target_thread tx_msg = None \/ tx_target_thread tx_msg = tx_target_thread rx_msg) /\
                  (rx_source_thread rx_msg = None \/ rx_source_thread rx_msg = rx_source_thread tx_msg)) then
    let block := tx_block tx_msg in
    let '(data, block) :=
      if negb (tx_data tx_msg =? 0) then (tx_data tx_msg, with_data 0 block)
      else if negb (MemPool.data block =? 0) then (MemPool.data block, block)
      else (tx_data tx_msg, block) in
    Some (mk_msg (size tx_msg) (info rx_msg) (tx_data tx_msg) (tx_block tx_msg) (rx_source_thread tx_msg)
            (tx_target_thread rx_msg) (_syncing_thread tx_msg) (_async_sem tx_msg),
          mk_msg (if size rx_msg >? size tx_msg then size tx_msg else size rx_msg) (info tx_msg) data block
            (rx_source_thread tx_msg) (tx_target_thread rx_msg) (_syncing_thread tx_msg) (_async_sem rx_msg))
  else None.

(** The search of a queue: the first thread whose descriptor matches, and the
    two descriptors after it. *)
Fixpoint find_match (f : tid -> option (k_mbox_msg * k_mbox_msg)) (l : list tid)
    : option (tid * k_mbox_msg * k_mbox_msg) :=
  match l with
  | [] => None
  | t :: l => match f t with Some (tm, rm) => Some (t, tm, rm) | None => find_match f l end
  end.

(** ** Disposal *)

Definition give_sem s (sem : positive) : proc state unit :=
  let '(k, x) := Sem._impl_k_sem_give (ker s) (sems s !!! sem) in
  serviced ker s (mk_state k (pools s) (mem s) (msgs s) (<[sem := x]> (sems s)) (async_msg_free s)).

Definition free_block s rx : proc state unit :=
  if negb (MemPool.data (tx_block (msg s rx)) =? 0) then
    match Heap.k_mem_pool_free (ker s) (pools s) (tx_block (msg s rx)) with
    | None => fault
    | Some (k, ps) =>
        let* (s, _) := serviced ker s (set_pools s k ps) in
        ret (set_msg s rx (with_block (with_data 0 (tx_block (msg s rx))) (msg s rx))) tt
    end
  else ret s tt.

(** the end of a synchronous send *)
Definition wake_sender s t : proc state unit :=
  let k := _set_thread_return_value (ker s) t 0 in
  let k := _mark_thread_as_not_pending k t in
  serviced ker s (set_ker s (_reschedule_threads (_ready_thread k t))).

Definition _mbox_message_dispose s rx : proc state unit :=
  match _syncing_thread (msg s rx) with
  | None => ret s tt
  | Some _ =>
      let* (s, _) := free_block s rx in
      match _syncing_thread (msg s rx) with
      | None => fault
      | Some sending_thread =>
          let s := set_msg s rx (with_syncing None (msg s rx)) in
          let tx := swap_data (thr (ker s) sending_thread) in
          let s := set_msg s tx (with_size (size (msg s rx)) (msg s tx)) in
          if _is_thread_dummy (ker s) sending_thread then
            let async_sem := _async_sem (msg s tx) in
            let* (s, _) := _mbox_async_free s sending_thread in
            match async_sem with Some sem => give_sem s sem | None => ret s tt end
          else wake_sender s sending_thread
      end
  end.

(** ** Sending *)

Definition _mbox_message_put s mbox tx timeout : proc state Z :=
  let s := set_msg s tx (with_source (current (ker s)) (msg s tx)) in
  match _syncing_thread (msg s tx) with
  | None => fault
  | Some sending_thread =>
      let s := set_ker s (upd_thread (ker s) sending_thread (with_swap_data tx)) in
      let rx_of t := swap_data (thr (ker s) t) in
      match find_match (fun t => _mbox_message_match (msg s tx) (msg s (rx_of t))) (queues (ker s) !!! rx_q mbox) with
      | Some (receiving_thread, tx_msg, rx_msg) =>
          let s := set_msg (set_msg s tx tx_msg) (rx_of receiving_thread) rx_msg in
          let k := _unpend_thread (ker s) receiving_thread in
          let k := fst (_abort_thread_timeout k receiving_thread) in
          let k := _set_thread_return_value k receiving_thread 0 in
          let k := _ready_thread k receiving_thread in
          if _is_thread_dummy k sending_thread then
            let* (s, _) := serviced ker s (set_ker s (_reschedule_threads k)) in ret s 0
          else
            let k := _remove_thread_from_ready_q k (current k) in
            let k := _mark_thread_as_pending k (current k) in
            waiting ker (set_ker s (_Swap k))
      | None =>
          if timeout =? K_NO_WAIT then ret s (- ENOMSG)
          else if _is_thread_dummy (ker s) sending_thread then
            ret (set_ker s (_pend_thread timeout_func (ker s) sending_thread (tx_q mbox) K_FOREVER)) 0
          else waiting ker (set_ker s (_Swap (_pend_current_thread timeout_func (ker s) (tx_q mbox) timeout)))
      end
  end.

Definition k_mbox_put s mbox tx timeout : proc state Z :=
  let s := set_msg s tx (with_syncing (Some (current (ker s))) (msg s tx)) in
  _mbox_message_put s mbox tx timeout.

Definition k_mbox_async_put s mbox tx (sem : option positive) : proc state unit :=
  let* (s, async) := _mbox_async_alloc s in
  let k := upd_thread (ker s) async (with_prio (prio (thr (ker s) (current (ker s))))) in
  let s := set_ker s k in
  let s := set_msg s (async_tx_msg async) (with_sem sem (with_syncing (Some async) (msg s tx))) in
  let* (s, _) := _mbox_message_put s mbox (async_tx_msg async) K_FOREVER in ret s tt.

(** ** Receiving *)

Definition k_mbox_data_get s rx (buffer : Z) : proc state unit :=
  if buffer =? 0 then _mbox_message_dispose (set_msg s rx (with_size 0 (msg s rx))) rx
  else
    let m := msg s rx in
    let s := if negb (tx_data m =? 0) && (0 <? size m)
             then set_mem s (LibC.memcpy (mem s) buffer (tx_data m) (Z.to_nat (size m))) else s in
    _mbox_message_dispose s rx.

(** The rest of [k_mem_pool_alloc] after its first switch; [turns] bounds the
    number of times it finds no block and waits again. *)
Fixpoint alloc_resumed (turns : nat) s (pool size timeout end_ : Z) : proc state (Z * option MemPool.k_mem_block) :=
  match turns with
  | O => more
  | S turns =>
      match Heap.k_mem_pool_alloc_resume timeout_func (ker s) (pools s) pool size timeout end_ with
      | None => fault
      | Some (k, ps, _, Some r) => ret (set_pools s k ps) r
      | Some (k, ps, timeout, None) => swapped (set_pools s k ps) (fun s => alloc_resumed turns s pool size timeout end_)
      end
  end.

Definition pool_alloc turns s (pool size timeout : Z) : proc state (Z * option MemPool.k_mem_block) :=
  match Heap.k_mem_pool_alloc timeout_func (ker s) (pools s) pool size timeout with
  | None => fault
  | Some (k, ps, _, Some r) => ret (set_pools s k ps) r
  | Some (k, ps, end_, None) => swapped (set_pools s k ps) (fun s => alloc_resumed turns s pool size timeout end_)
  end.

(** The result, and the block that is stored for the caller. *)
Definition k_mbox_data_block_get turns s rx (pool : option Z) timeout : proc state (Z * option MemPool.k_mem_block) :=
  match pool with
  | None =>
      let* (s, _) := _mbox_message_dispose (set_msg s rx (with_size 0 (msg s rx))) rx in ret s (0, None)
  | Some pool =>
      let block := tx_block (msg s rx) in
      if negb (MemPool.data block =? 0) then
        let s := set_msg s rx (with_block (with_data 0 block) (msg s rx)) in
        let* (s, _) := _mbox_message_dispose s rx in ret s (0, Some block)
      else
        let* (s, r) := pool_alloc turns s pool (size (msg s rx)) timeout in
        match r with
        | (result, Some block) =>
            if negb (result =? 0) then ret s (result, None)
            else let* (s, _) := k_mbox_data_get s rx (MemPool.data block) in ret s (0, Some block)
        | (result, None) => ret s (result, None)
        end
  end.

Definition _mbox_message_data_check s rx (buffer : Z) : proc state Z :=
  if negb (buffer =? 0) then let* (s, _) := k_mbox_data_get s rx buffer in ret s 0
  else if size (msg s rx) =? 0 then let* (s, _) := _mbox_message_dispose s rx in ret s 0
  else ret s 0.

Definition k_mbox_get s mbox rx (buffer timeout : Z) : proc state Z :=
  let s := set_msg s rx (with_target (current (ker s)) (msg s rx)) in
  let tx_of t := swap_data (thr (ker s) t) in
  match find_match (fun t => _mbox_message_match (msg s (tx_of t)) (msg s rx)) (queues (ker s) !!! tx_q mbox) with
  | Some (sending_thread, tx_msg, rx_msg) =>
      let s := set_msg (set_msg s (tx_of sending_thread) tx_msg) rx rx_msg in
      let k := _unpend_thread (ker s) sending_thread in
      let s := set_ker s (fst (_abort_thread_timeout k sending_thread)) in
      _mbox_message_data_check s rx buffer
  | None =>
      if timeout =? K_NO_WAIT then ret s (- ENOMSG)
      else
        let k := _pend_current_thread timeout_func (ker s) (rx_q mbox) timeout in
        let k := upd_thread k (current k) (with_swap_data rx) in
        let* (s, result) := waiting ker (set_ker s (_Swap k)) in
        if result =? 0 then _mbox_message_data_check s rx buffer else ret s result
  end.

End Mailbox.

(** ** Receiving *)

Section Receive.
Context `{KConfig}.
Implicit Types (s : state) (mbox : k_mbox) (a t u : tid) (timeout tx rx : Z).
Variable tf : positive -> toid -> kernel -> kernel.

(** The message at [rx] has been received from thread [a], which waits for its
    disposal on no queue. *)
Record held s rx a : Prop := {
  hd_kinv : kinv (Some a) [] (ker s);
  hd_off : TOthread a ∉ timeout_q (ker s);
  hd_current : current (ker s) <> a;
  hd_ready : _is_thread_ready (ker s) (current (ker s)) = true;
  hd_sync : _syncing_thread (msg s rx) = Some a;
  hd_addr : swap_data (thr (ker s) a) <> rx
}.

(** The sender [a] runs again, with the size of what was received. *)
Record disposed s s' rx a : Prop := {
  ds_sys : sys_inv (ker s');
  ds_value : retval (thr (ker s') a) = 0;
  ds_pending : _is_thread_pending (ker s') a = false;
  ds_rx : msg s' rx = with_syncing None (msg s rx);
  ds_tx : msg s' (swap_data (thr (ker s) a)) = with_size (size (msg s rx)) (msg s (swap_data (thr (ker s) a)));
  ds_wq : forall w, queues (ker s') !!! WQ w = queues (ker s) !!! WQ w
}.

Lemma msg_set s (x : Z) m (y : Z) : msg (set_msg s x m) y = if decide (y = x) then m else msg s y.
Proof.
  unfold msg. cbn [msgs set_msg]. destruct (decide (y = x)) as [->|]; [by rewrite lookup_total_insert_eq|by rewrite lookup_total_insert_ne].
Qed.

Lemma dispose_spec s rx a :
  held s rx a -> _is_thread_dummy (ker s) a = false -> MemPool.data (tx_block (msg s rx)) = 0 ->
  exists s', _mbox_message_dispose s rx = finished ker s s' tt /\ disposed s s' rx a /\ mem s' = mem s.
Proof.
  intros [Hk Ho Hc Hr Hs Ha] Hd Hb. unfold _mbox_message_dispose, free_block. rewrite Hs, Hb. cbn [Z.eqb negb bind].
  rewrite Hs. set (s1 := set_msg s rx _). set (s2 := set_msg s1 _ _).
  change (ker s2) with (ker s). rewrite Hd. unfold wake_sender, serviced. fold (released (ker s2) a).
  change (ker s2) with (ker s). eexists. split; [by apply finished_from|].
  destruct (released_spec (ker s) a Hk Ho Hc) as (R1 & R2 & R3 & R4 & R5 & R6).
  assert (current (released (ker s) a) <> a) as Hne by (by rewrite (proj1 R2)).
  split; [|done]. split; cbn [ker set_ker].
  - apply resched_sys; [done|]. destruct R2 as (-> & _ & _ & R2). by apply R2.
  - by rewrite resched_thr.
  - etransitivity; [|exact R4]. apply pending_ext. by rewrite resched_thr.
  - change (msg (set_ker s2 ?k) rx) with (msg s2 rx). unfold s2, s1. change (ker (set_msg s rx ?m)) with (ker s).
    by rewrite msg_set, decide_False, msg_set, decide_True.
  - change (msg (set_ker s2 ?k) ?x) with (msg s2 x). unfold s2, s1. change (ker (set_msg s rx ?m)) with (ker s).
    rewrite msg_set, decide_True by done. rewrite (msg_set s rx _ rx), decide_True by done. cbn [size with_syncing].
    by rewrite msg_set, decide_False.
  - intros w. by rewrite resched_queues.
Qed.

(** Retrieving the data is copying them and disposing of the message. *)
Lemma data_get_copies s rx (buffer : Z) :
  buffer <> 0 -> tx_data (msg s rx) <> 0 -> 0 <= size (msg s rx) -> LibC.apart buffer (tx_data (msg s rx)) (size (msg s rx)) ->
  exists m', k_mbox_data_get s rx buffer = _mbox_message_dispose (set_mem s m') rx /\
    LibC.copied (mem s) m' buffer (tx_data (msg s rx)) (size (msg s rx)).
Proof.
  intros Hbuf Hd Hsz Hap. unfold k_mbox_data_get. destruct (Z.eqb_spec buffer 0); [done|].
  destruct (Z.eqb_spec (tx_data (msg s rx)) 0); [done|]. cbn [negb andb].
  destruct (Z.ltb_spec 0 (size (msg s rx))) as [Hlt|Hle].
  - eexists. split; [done|]. rewrite <- (Z2Nat.id (size (msg s rx))) at 2 by done. apply LibC.memcpy_spec. by rewrite Z2Nat.id.
  - exists (mem s). split; [by destruct s|]. replace (size (msg s rx)) with 0 by lia. apply LibC.copied_0.
Qed.

Lemma data_get_spec s rx a (buffer : Z) :
  held s rx a -> _is_thread_dummy (ker s) a = false -> MemPool.data (tx_block (msg s rx)) = 0 -> buffer <> 0 ->
  tx_data (msg s rx) <> 0 -> 0 <= size (msg s rx) -> LibC.apart buffer (tx_data (msg s rx)) (size (msg s rx)) ->
  exists s', k_mbox_data_get s rx buffer = finished ker s s' tt /\ disposed s s' rx a /\
    LibC.copied (mem s) (mem s') buffer (tx_data (msg s rx)) (size (msg s rx)).
Proof.
  intros Hh Hr Hb Hbuf Hd Hsz Hap. destruct (data_get_copies s rx buffer Hbuf Hd Hsz Hap) as (m' & -> & Hc).
  destruct (dispose_spec (set_mem s m') rx a) as (s' & E & D & Em); [by destruct Hh|done|done|].
  exists s'. rewrite E. split; [by apply finished_from|]. split; [by destruct D|by rewrite Em].
Qed.

(** Who may exchange a message with whom. *)
Definition compatible (m n : k_mbox_msg) : Prop :=
  (tx_target_thread m = None \/ tx_target_thread m = tx_target_thread n) /\
  (rx_source_thread n = None \/ rx_source_thread n = rx_source_thread m).

Lemma match_none m n : ~ compatible m n -> _mbox_message_match m n = None.
Proof. intros Hc. unfold _mbox_message_match. by rewrite bool_decide_eq_false_2. Qed.

(** The descriptors of a match, for a sender with a buffer of its own. *)
Definition tx_matched (m n : k_mbox_msg) : k_mbox_msg :=
  mk_msg (size m) (info n) (tx_data m) (tx_block m) (rx_source_thread m) (tx_target_thread n) (_syncing_thread m) (_async_sem m).
Definition rx_matched (m n : k_mbox_msg) : k_mbox_msg :=
  mk_msg (size m `min` size n) (info m) (tx_data m) (with_data 0 (tx_block m)) (rx_source_thread m) (tx_target_thread n)
    (_syncing_thread m) (_async_sem n).

Lemma match_some m n :
  compatible m n -> tx_data m <> 0 -> _mbox_message_match m n = Some (tx_matched m n, rx_matched m n).
Proof.
  intros Hc Hd. unfold _mbox_message_match. rewrite bool_decide_eq_true_2 by done.
  destruct (Z.eqb_spec (tx_data m) 0); [done|]. cbn [negb]. unfold tx_matched, rx_matched.
  destruct (Z.gtb_spec (size n) (size m)); [rewrite Z.min_l by lia|rewrite Z.min_r by lia]; done.
Qed.

Lemma find_match_first f l1 t l2 x y :
  (forall u, u ∈ l1 -> f u = None) -> f t = Some (x, y) -> find_match f (l1 ++ t :: l2) = Some (t, x, y).
Proof.
  intros H1 H2. induction l1 as [|u l1 IH]; cbn; [by rewrite H2|]. rewrite H1 by left. apply IH. intros v Hv. apply H1. by right.
Qed.

Lemma find_match_none f l : (forall u, u ∈ l -> f u = None) -> find_match f l = None.
Proof. intros Hn. induction l as [|u l IH]; cbn; [done|]. rewrite Hn by left. apply IH. intros v Hv. apply Hn. by right. Qed.

(** What the current thread asks for with the descriptor at [rx]. *)
Definition receiving s rx : k_mbox_msg := with_target (current (ker s)) (msg s rx).

(** Thread [a] is the first one that waits with a message for the receiver. *)
Record first_sender s mbox rx a (l1 l2 : list tid) : Prop := {
  fs_queue : queues (ker s) !!! tx_q mbox = l1 ++ a :: l2;
  fs_addr : forall t, t ∈ l1 ++ a :: l2 -> swap_data (thr (ker s) t) <> rx;
  fs_others : forall t, t ∈ l1 -> ~ compatible (msg s (swap_data (thr (ker s) t))) (receiving s rx);
  fs_match : compatible (msg s (swap_data (thr (ker s) a))) (receiving s rx);
  fs_data : tx_data (msg s (swap_data (thr (ker s) a))) <> 0;
  fs_sync : _syncing_thread (msg s (swap_data (thr (ker s) a))) = Some a
}.

(** The state after the match, before the data are looked at. *)
Definition received s rx a : state :=
  let tx := swap_data (thr (ker s) a) in
  let s' := set_msg s rx (receiving s rx) in
  set_ker (set_msg (set_msg s' tx (tx_matched (msg s tx) (receiving s rx))) rx (rx_matched (msg s tx) (receiving s rx)))
    (parked (ker s) a).

Lemma get_matched s mbox rx a l1 l2 (buffer timeout : Z) :
  first_sender s mbox rx a l1 l2 ->
  k_mbox_get tf s mbox rx buffer timeout = _mbox_message_data_check (received s rx a) rx buffer.
Proof.
  intros [Hq Ha Ho Hm Hd Hs]. unfold k_mbox_get. fold (receiving s rx). set (s0 := set_msg s rx (receiving s rx)).
  change (ker s0) with (ker s). rewrite Hq.
  assert (forall t, t ∈ l1 ++ a :: l2 -> msg s0 (swap_data (thr (ker s) t)) = msg s (swap_data (thr (ker s) t))) as E.
  { intros t Ht. unfold s0. by rewrite msg_set, decide_False by by apply Ha. }
  assert (msg s0 rx = receiving s rx) as Erx by (unfold s0; by rewrite msg_set, decide_True).
  assert (a ∈ l1 ++ a :: l2) as Hina by (apply elem_of_app; right; left).
  rewrite Erx. erewrite (find_match_first _ l1 a l2).
  - reflexivity.
  - intros u Hu. rewrite E by (apply elem_of_app; by left). by apply match_none, Ho.
  - rewrite E by done. by apply match_some.
Qed.

Lemma received_msgs s mbox rx a l1 l2 :
  first_sender s mbox rx a l1 l2 ->
  let tx := swap_data (thr (ker s) a) in
  msg (received s rx a) rx = rx_matched (msg s tx) (receiving s rx) /\
  msg (received s rx a) tx = tx_matched (msg s tx) (receiving s rx).
Proof.
  intros Hf tx. assert (tx <> rx) as Hne by (apply (fs_addr _ _ _ _ _ _ Hf), elem_of_app; right; left).
  unfold received. change (msg (set_ker ?x ?k) ?y) with (msg x y). fold tx. split.
  - by rewrite msg_set, decide_True.
  - by rewrite msg_set, decide_False, msg_set, decide_True.
Qed.

Lemma received_held s mbox rx a l1 l2 :
  sys_inv (ker s) -> first_sender s mbox rx a l1 l2 -> held (received s rx a) rx a.
Proof.
  intros Hs Hf. destruct (received_msgs _ _ _ _ _ _ Hf) as [Erx _]. destruct Hf as [Hq Ha _ _ _ Hsy].
  assert (a ∈ queues (ker s) !!! tx_q mbox) as Hin by (rewrite Hq; apply elem_of_app; right; left).
  destruct (waiter_not_current _ _ _ Hs Hin) as [Hc Hp].
  destruct (parked_spec _ _ (sy_kinv _ Hs) Hp) as (P1 & P2 & P3 & P4 & P5 & P6 & P7 & P8 & P9).
  split; change (ker (received s rx a)) with (parked (ker s) a).
  - done.
  - done.
  - by rewrite P3.
  - rewrite P3. apply P7, Hs.
  - by rewrite Erx.
  - rewrite (P8 swap_data) by done. apply Ha. rewrite <- Hq. exact Hin.
Qed.

Lemma received_dummy s rx a : _is_thread_dummy (ker (received s rx a)) a = _is_thread_dummy (ker s) a.
Proof.
  change (ker (received s rx a)) with (parked (ker s) a). rewrite !dummy_spec, parked_bit by done. apply andb_true_r.
Qed.

(** Taking the data of a message on hand into a buffer. *)
Lemma check_retrieves s rx a (buffer : Z) :
  held s rx a -> _is_thread_dummy (ker s) a = false -> MemPool.data (tx_block (msg s rx)) = 0 -> buffer <> 0 ->
  tx_data (msg s rx) <> 0 -> 0 <= size (msg s rx) -> LibC.apart buffer (tx_data (msg s rx)) (size (msg s rx)) ->
  exists s', _mbox_message_data_check s rx buffer = finished ker s s' 0 /\ disposed s s' rx a /\
    LibC.copied (mem s) (mem s') buffer (tx_data (msg s rx)) (size (msg s rx)).
Proof.
  intros Hh Hr Hb Hbuf Hd Hsz Hap. destruct (data_get_spec s rx a buffer Hh Hr Hb Hbuf Hd Hsz Hap) as (s' & E & D & C).
  exists s'. split; [|done]. unfold _mbox_message_data_check. destruct (Z.eqb_spec buffer 0); [done|]. cbn [negb].
  rewrite E. apply finished_bind.
Qed.

(** C22. [k_mbox_get] with a buffer, when a sender waits with a message for the
    receiver: the first such sender is taken off the queue; the smaller of the two
    sizes is the number of bytes copied from the sender's buffer, and nothing else
    is written; receiver and sender find each other's information and that number
    in their descriptors; the sender's call returns 0 and the sender can run. *)
Theorem mbox_get_receives s mbox rx a l1 l2 (buffer timeout : Z) :
  sys_inv (ker s) -> first_sender s mbox rx a l1 l2 -> _is_thread_dummy (ker s) a = false -> buffer <> 0 ->
  let tx := swap_data (thr (ker s) a) in
  let n := size (msg s tx) `min` size (msg s rx) in
  0 <= n -> LibC.apart buffer (tx_data (msg s tx)) n ->
  exists s', k_mbox_get tf s mbox rx buffer timeout = finished ker s s' 0 /\ sys_inv (ker s') /\
    LibC.copied (mem s) (mem s') buffer (tx_data (msg s tx)) n /\
    size (msg s' rx) = n /\ info (msg s' rx) = info (msg s tx) /\ rx_source_thread (msg s' rx) = rx_source_thread (msg s tx) /\
    size (msg s' tx) = n /\ info (msg s' tx) = info (msg s rx) /\ tx_target_thread (msg s' tx) = Some (current (ker s)) /\
    retval (thr (ker s') a) = 0 /\ _is_thread_pending (ker s') a = false /\ queues (ker s') !!! tx_q mbox = l1 ++ l2.
Proof.
  intros Hs Hf Hreal Hbuf tx n Hn Hap. pose proof (received_held _ _ _ _ _ _ Hs Hf) as Hh.
  destruct (received_msgs _ _ _ _ _ _ Hf) as [Erx Etx]. fold tx in Erx, Etx.
  destruct (check_retrieves (received s rx a) rx a buffer Hh) as (s' & E & [D1 D2 D3 D4 D5 D6] & C);
    rewrite ?Erx; try done; [by rewrite received_dummy|apply Hf|].
  assert (a ∈ queues (ker s) !!! tx_q mbox) as Hin by (rewrite (fs_queue _ _ _ _ _ _ Hf); apply elem_of_app; right; left).
  destruct (waiter_not_current _ _ _ Hs Hin) as [Hc Hp].
  destruct (parked_spec _ _ (sy_kinv _ Hs) Hp) as (_ & _ & P3 & _ & _ & _ & _ & P8 & P9).
  assert (swap_data (thr (ker (received s rx a)) a) = tx) as Et by exact (P8 swap_data ltac:(done)). rewrite Et, Etx, Erx in D5. rewrite Erx in D4.
  exists s'. rewrite (get_matched _ _ _ _ _ _ _ _ Hf), E. split; [by apply finished_from|]. rewrite Erx in C.
  rewrite D4, D5. split_and!; try done.
  pose proof (ri_nodup _ _ (si_rq _ _ (ki_sched _ _ _ (sy_kinv _ Hs))) (tx_q mbox)) as Hnd.
  unfold tx_q, object_wq. rewrite D6. change (ker (received s rx a)) with (parked (ker s) a).
  rewrite P9. fold (object_wq (tx_msg_queue mbox)) (tx_q mbox). rewrite (fs_queue _ _ _ _ _ _ Hf) in Hnd |- *. by apply filter_ne_split.
Qed.

(** The sender waits for nothing but its receiver. *)
Definition only_pending (k : kernel) a : Prop := forall n, n = 2 \/ n = 3 \/ n = 4 -> st_bit (thr k a) n = false.

(** C38. [k_mbox_get] without a buffer leaves the data for later, and the sender in
    a state the scheduler does not know: the sender counts as ready but is on no
    queue, so until the message is disposed of the invariant that the ready queues
    hold the ready threads is broken.  Retrieving the data restores it. *)
Theorem mbox_get_strands_sender s mbox rx a l1 l2 (timeout : Z) :
  sys_inv (ker s) -> first_sender s mbox rx a l1 l2 -> only_pending (ker s) a -> _is_thread_dummy (ker s) a = false ->
  0 < size (msg s (swap_data (thr (ker s) a))) -> 0 < size (msg s rx) ->
  exists s', k_mbox_get tf s mbox rx 0 timeout = ret s' 0 /\
    _is_thread_ready (ker s') a = true /\ (forall q, a ∉ queues (ker s') !!! q) /\ ~ sys_inv (ker s') /\
    forall buffer, buffer <> 0 -> LibC.apart buffer (tx_data (msg s' rx)) (size (msg s' rx)) ->
      exists s2, k_mbox_data_get s' rx buffer = finished ker s' s2 tt /\ sys_inv (ker s2).
Proof.
  intros Hs Hf Ho Hreal Hn1 Hn2. pose proof (received_held _ _ _ _ _ _ Hs Hf) as Hh.
  destruct (received_msgs _ _ _ _ _ _ Hf) as [Erx _]. set (tx := swap_data (thr (ker s) a)) in *.
  assert (size (msg (received s rx a) rx) = size (msg s tx) `min` size (msg s rx)) as En by (by rewrite Erx).
  pose proof (hd_kinv _ _ _ Hh) as Hk. pose proof (hd_off _ _ _ Hh) as Hoff.
  assert (forall q, a ∉ queues (ker (received s rx a)) !!! q) as Hq
    by (intros q; by apply (in_transit_free (Some a)); [apply (si_rq _ _ (ki_sched _ _ _ Hk))|]).
  assert (_is_thread_ready (ker (received s rx a)) a = true) as Hr.
  { apply ready_spec. split.
    - pose proof Hreal as Hd. rewrite dummy_spec in Hd. change (ker (received s rx a)) with (parked (ker s) a).
      unfold prevented. rewrite !parked_bit by lia. rewrite Hd, (Ho 2), (Ho 3), (Ho 4) by tauto. by rewrite andb_false_r.
    - apply (ti_inactive _ _ _ (ki_tq _ _ _ Hk)); [done|apply not_elem_of_nil]. }
  exists (received s rx a). split_and!; [|done|done| |].
  - rewrite (get_matched _ _ _ _ _ _ _ _ Hf). unfold _mbox_message_data_check. rewrite En.
    destruct (Z.eqb_spec (size (msg s tx) `min` size (msg s rx)) 0); [lia|done].
  - intros Hs'. apply (Hq (RQ (_get_ready_q_q_index (prio (thr (ker (received s rx a)) a))))).
    by apply (ri_rq _ _ (si_rq _ _ (ki_sched _ _ _ (sy_kinv _ Hs')))).
  - intros buffer Hb Hap. destruct (data_get_spec (received s rx a) rx a buffer Hh) as (s2 & E & D & _); rewrite ?Erx; try done.
    + by rewrite received_dummy.
    + apply Hf.
    + cbn. lia.
    + by rewrite Erx in Hap.
    + exists s2. split; [done|apply D].
Qed.

End Receive.

(** ** Sending *)

Section Send.
Context `{KConfig}.
Implicit Types (s : state) (mbox : k_mbox) (r t u : tid) (timeout tx rx : Z).
Variable tf : positive -> toid -> kernel -> kernel.

(** What the current thread offers with the descriptor at [tx]. *)
Definition sending s tx : k_mbox_msg := with_source (current (ker s)) (with_syncing (Some (current (ker s))) (msg s tx)).

(** Thread [r] is the first one that waits for such a message. *)
Record first_receiver s mbox tx r (l1 l2 : list tid) : Prop := {
  fr_queue : queues (ker s) !!! rx_q mbox = l1 ++ r :: l2;
  fr_addr : forall t, t ∈ l1 ++ r :: l2 -> swap_data (thr (ker s) t) <> tx;
  fr_others : forall t, t ∈ l1 -> ~ compatible (sending s tx) (msg s (swap_data (thr (ker s) t)));
  fr_match : compatible (sending s tx) (msg s (swap_data (thr (ker s) r)));
  fr_data : tx_data (msg s tx) <> 0
}.

(** The kernel with the address of the sender's descriptor in its swap data. *)
Definition offering s tx : kernel := upd_thread (ker s) (current (ker s)) (with_swap_data tx).

(** The descriptors after the match, and the kernel when the sender waits. *)
Definition delivered s tx r : state :=
  let rx := swap_data (thr (ker s) r) in
  let s' := set_msg (set_msg s tx (with_syncing (Some (current (ker s))) (msg s tx))) tx (sending s tx) in
  set_ker (set_msg (set_msg s' tx (tx_matched (sending s tx) (msg s rx))) rx (rx_matched (sending s tx) (msg s rx)))
    (_Swap (unqueued (handoff (offering s tx) r (with_retval 0)))).

Lemma offering_other s tx t : t <> current (ker s) -> thr (offering s tx) t = thr (ker s) t.
Proof. intros Ht. unfold offering. by rewrite thr_upd_other. Qed.

Lemma offering_kinv s tx : sys_inv (ker s) -> kinv None [] (offering s tx) /\ keeps (ker s) (offering s tx).
Proof. intros Hs. split; [by apply kinv_upd_other, Hs|by apply keeps_upd]. Qed.

Lemma first_receiver_waits s mbox tx r l1 l2 :
  sys_inv (ker s) -> first_receiver s mbox tx r l1 l2 ->
  (forall t, t ∈ l1 ++ r :: l2 -> t <> current (ker s)) /\ r ∈ l1 ++ r :: l2 /\ _is_thread_pending (ker s) r = true.
Proof.
  intros Hs Hf. assert (r ∈ l1 ++ r :: l2) as Hr by (apply elem_of_app; right; left).
  assert (forall t, t ∈ l1 ++ r :: l2 -> current (ker s) <> t /\ _is_thread_pending (ker s) t = true) as Ht.
  { intros t Ht. rewrite <- (fr_queue _ _ _ _ _ _ Hf) in Ht. by apply (waiter_not_current _ (xO (rx_msg_queue mbox))). }
  split_and!; [intros t Hin; apply not_eq_sym, Ht, Hin|done|by apply Ht].
Qed.

Lemma offer_handoff s tx r :
  sys_inv (ker s) -> _is_thread_pending (ker s) r = true ->
  kinv None [] (handoff (offering s tx) r (with_retval 0)) /\ keeps (ker s) (handoff (offering s tx) r (with_retval 0)).
Proof.
  intros Hs Hp. destruct (offering_kinv s tx Hs) as [Hk Hkp].
  assert (_is_thread_pending (offering s tx) r = true) as Hp'.
  { rewrite <- Hp. apply pending_ext. unfold offering. rewrite thr_upd_thread. by destruct (decide _) as [->|]. }
  destruct (handoff_kinv (with_retval 0) ltac:(done) ltac:(done) [] (offering s tx) r Hk Hp' (not_elem_of_nil _)) as [H1 H2].
  split; [done|]. by eapply keeps_trans.
Qed.

(** The two ways of [_mbox_message_put], for the message [m] at [tx] and the thread
    [st] that is to wait: [posting] is the state in which the search starts. *)
Definition posting s tx m st : state := set_ker (set_msg s tx m) (upd_thread (ker s) st (with_swap_data tx)).

Lemma posting_receiver s tx m st t :
  t <> st -> swap_data (thr (ker s) t) <> tx ->
  msg (posting s tx m st) (swap_data (thr (ker (posting s tx m st)) t)) = msg s (swap_data (thr (ker s) t)).
Proof.
  intros Ht Ha. unfold posting. cbn [ker set_ker]. rewrite thr_upd_other by done.
  change (msg (set_ker ?x ?k) ?y) with (msg x y). by rewrite msg_set, decide_False.
Qed.

Lemma posting_search s mbox tx (timeout : Z) m st :
  m = with_source (current (ker s)) (msg s tx) -> _syncing_thread m = Some st ->
  msg (posting s tx m st) tx = m /\
  _mbox_message_put tf s mbox tx timeout =
  let s1 := posting s tx m st in
  let rx_of t := swap_data (thr (ker s1) t) in
  match find_match (fun t => _mbox_message_match m (msg s1 (rx_of t))) (queues (ker s) !!! rx_q mbox) with
  | Some (r, tm, rm) =>
      let s2 := set_msg (set_msg s1 tx tm) (rx_of r) rm in
      let k := handoff (ker s1) r (with_retval 0) in
      if _is_thread_dummy k st then finished ker s2 (set_ker s2 (_reschedule_threads k)) 0
      else waiting ker (set_ker s2 (_Swap (unqueued k)))
  | None =>
      if timeout =? K_NO_WAIT then ret s1 (- ENOMSG)
      else if _is_thread_dummy (ker s1) st then ret (set_ker s1 (_pend_thread tf (ker s1) st (tx_q mbox) K_FOREVER)) 0
      else waiting ker (set_ker s1 (_Swap (_pend_current_thread tf (ker s1) (tx_q mbox) timeout)))
  end.
Proof.
  intros -> Hst. set (m := with_source _ _) in *. set (s0 := set_msg s tx m).
  assert (msg s0 tx = m) as E0 by (unfold s0; by rewrite msg_set, decide_True).
  split; [exact E0|]. unfold _mbox_message_put. fold m s0. change (ker s0) with (ker s). rewrite E0, Hst.
  fold (posting s tx m st). change (msg (set_ker s0 ?k) ?x) with (msg s0 x). rewrite E0.
  change (queues (ker (set_ker s0 ?k))) with (queues (ker s)). cbv zeta.
  change (msg (posting s tx m st) ?x) with (msg s0 x). change (ker (set_ker s0 ?k)) with k. fold (posting s tx m st).
  destruct (find_match _ _) as [[[r tm] rm]|]; [|done].
  cbn [ker set_msg set_ker]. unfold _set_thread_return_value. rewrite !handoff_order.
  destruct (_is_thread_dummy _ st); [|done]. unfold serviced. by rewrite finished_bind.
Qed.

Lemma put_matched s mbox tx r l1 l2 (timeout : Z) :
  sys_inv (ker s) -> first_receiver s mbox tx r l1 l2 -> k_mbox_put tf s mbox tx timeout = waiting ker (delivered s tx r).
Proof.
  intros Hs Hf. destruct (first_receiver_waits _ _ _ _ _ _ Hs Hf) as (Hne & Hr & Hp). destruct Hf as [Hq Ha Ho Hm Hd].
  unfold k_mbox_put. set (s0 := set_msg s tx _).
  assert (forall x, x <> tx -> msg s0 x = msg s x) as E0 by (intros x Hx; unfold s0; by rewrite msg_set, decide_False).
  destruct (posting_search s0 mbox tx timeout (sending s tx) (current (ker s))) as [_ ->];
    [unfold s0; by rewrite msg_set, decide_True|done|].
  assert (forall t, t ∈ l1 ++ r :: l2 -> msg (posting s0 tx (sending s tx) (current (ker s)))
    (swap_data (thr (ker (posting s0 tx (sending s tx) (current (ker s)))) t)) = msg s (swap_data (thr (ker s) t))) as E2.
  { intros t Ht. rewrite posting_receiver by (by apply Hne || by apply Ha). apply E0. by apply Ha. }
  change (queues (ker s0)) with (queues (ker s)). rewrite Hq. cbv zeta. erewrite (find_match_first _ l1 r l2); cycle 1.
  - intros u Hu. rewrite E2 by (apply elem_of_app; by left). by apply match_none, Ho.
  - rewrite E2 by done. by apply match_some.
  - change (ker (posting s0 tx ?m ?st)) with (offering s tx). destruct (offer_handoff s tx r Hs Hp) as (_ & (_ & _ & _ & Hrd)).
    rewrite (ready_not_dummy _ _ (Hrd (sy_current _ Hs))). rewrite offering_other by by apply Hne. reflexivity.
Qed.

Lemma delivered_msgs s mbox tx r l1 l2 :
  first_receiver s mbox tx r l1 l2 ->
  let rx := swap_data (thr (ker s) r) in
  msg (delivered s tx r) rx = rx_matched (sending s tx) (msg s rx) /\ msg (delivered s tx r) tx = tx_matched (sending s tx) (msg s rx).
Proof.
  intros Hf rx. assert (rx <> tx) as Hne by (apply (fr_addr _ _ _ _ _ _ Hf), elem_of_app; right; left).
  unfold delivered. change (msg (set_ker ?x ?k) ?y) with (msg x y). fold rx. split.
  - by rewrite msg_set, decide_True.
  - by rewrite msg_set, decide_False, msg_set, decide_True.
Qed.

(** The sender waits for the receiver, which can run. *)
Lemma delivered_held s mbox tx r l1 l2 :
  sys_inv (ker s) -> first_receiver s mbox tx r l1 l2 -> current (ker s) <> idle_thread ->
  held (delivered s tx r) (swap_data (thr (ker s) r)) (current (ker s)) /\
  _is_thread_dummy (ker (delivered s tx r)) (current (ker s)) = false /\
  swap_data (thr (ker (delivered s tx r)) (current (ker s))) = tx /\
  retval (thr (ker (delivered s tx r)) r) = 0 /\ _is_thread_pending (ker (delivered s tx r)) r = false /\
  queues (ker (delivered s tx r)) !!! rx_q mbox = l1 ++ l2.
Proof.
  intros Hs Hf Hid. destruct (first_receiver_waits _ _ _ _ _ _ Hs Hf) as (Hne & Hr & Hp).
  destruct (offer_handoff s tx r Hs Hp) as [Hk (Ec & _ & _ & Hrd)]. specialize (Hrd (sy_current _ Hs)).
  destruct (delivered_msgs _ _ _ _ _ _ Hf) as [Erx _]. change (ker (delivered s tx r)) with (_Swap (unqueued (handoff (offering s tx) r (with_retval 0)))).
  destruct (handoff_thr (with_retval 0) (offering s tx) r) as [Hh1 Hh2].
  set (k1 := handoff (offering s tx) r (with_retval 0)) in *.
  destruct (unqueued_spec k1) as (U1 & U2 & U3 & U4 & U5 & U6 & U7 & U8); [done|by rewrite Ec|by rewrite Ec|]. rewrite Ec in *.
  assert (r <> current (ker s)) as Hrc by by apply Hne.
  assert (swap_data (thr k1 (current (ker s))) = tx) as Esw.
  { rewrite Hh2 by done. unfold offering. by rewrite thr_upd_same. }
  split; [split|split_and!].
  - done.
  - done.
  - exact U3.
  - exact U4.
  - by rewrite Erx.
  - change (swap_data (thr (_Swap (unqueued k1)) (current (ker s))) <> swap_data (thr (ker s) r)). rewrite U6, Esw.
    by apply not_eq_sym, (fr_addr _ _ _ _ _ _ Hf).
  - rewrite U7. by apply ready_not_dummy.
  - by rewrite U6.
  - rewrite U5 by done. by apply (Hh1 retval).
  - etransitivity; [apply pending_ext; by rewrite U5|]. by apply handoff_pending.
  - unfold rx_q, object_wq. rewrite U8. unfold k1. rewrite handoff_wq. change (queues (offering s tx)) with (queues (ker s)).
    fold (object_wq (rx_msg_queue mbox)) (rx_q mbox). pose proof (ri_nodup _ _ (si_rq _ _ (ki_sched _ _ _ (sy_kinv _ Hs))) (rx_q mbox)) as Hnd.
    rewrite (fr_queue _ _ _ _ _ _ Hf) in Hnd |- *. by apply filter_ne_split.
Qed.

(** C23. [k_mbox_put] when a receiver waits for the message: the first such receiver
    gets it and can run, its call going on with the value 0, and the sender waits.
    Looking at the data, as the receiver does next, copies the smaller of the two
    sizes into its buffer, lets both descriptors show the exchange, and makes the
    sender run again, with 0 as the value of its call. *)
Theorem mbox_put_delivers s mbox tx r l1 l2 (timeout : Z) :
  sys_inv (ker s) -> first_receiver s mbox tx r l1 l2 -> current (ker s) <> idle_thread ->
  let a := current (ker s) in
  let rx := swap_data (thr (ker s) r) in
  let n := size (msg s tx) `min` size (msg s rx) in
  0 <= n ->
  exists s1, k_mbox_put tf s mbox tx timeout = waiting ker s1 /\
    retval (thr (ker s1) r) = 0 /\ _is_thread_pending (ker s1) r = false /\ queues (ker s1) !!! rx_q mbox = l1 ++ l2 /\
    forall buffer, buffer <> 0 -> LibC.apart buffer (tx_data (msg s tx)) n ->
      exists s2, _mbox_message_data_check s1 rx buffer = finished ker s1 s2 0 /\ sys_inv (ker s2) /\
        LibC.copied (mem s) (mem s2) buffer (tx_data (msg s tx)) n /\
        size (msg s2 rx) = n /\ info (msg s2 rx) = info (msg s tx) /\ rx_source_thread (msg s2 rx) = Some a /\
        size (msg s2 tx) = n /\ info (msg s2 tx) = info (msg s rx) /\
        retval (thr (ker s2) a) = 0 /\ _is_thread_pending (ker s2) a = false.
Proof.
  intros Hs Hf Hid a rx n Hn. exists (delivered s tx r).
  destruct (delivered_held _ _ _ _ _ _ Hs Hf Hid) as (Hh & Hreal & Esw & Hv & Hp & Hq).
  destruct (delivered_msgs _ _ _ _ _ _ Hf) as [Erx Etx].
  split; [by apply (put_matched _ _ _ _ l1 l2)|]. split_and!; [done|done|done|].
  intros buffer Hbuf Hap. destruct (check_retrieves (delivered s tx r) rx a buffer Hh) as (s2 & E & [D1 D2 D3 D4 D5 _] & C);
    unfold rx; rewrite ?Erx; try done; [apply Hf|].
  unfold rx, a in D4, D5, C. rewrite Erx in D4, C. rewrite Esw, Erx, Etx in D5.
  exists s2. unfold rx. rewrite D4, D5. by split_and!.
Qed.

(** ** Nobody to exchange a message with *)

Lemma offering_sys s tx : sys_inv (ker s) -> sys_inv (offering s tx).
Proof. intros Hs. by apply sys_upd_other. Qed.

(** Without a receiver, [k_mbox_put] fails or waits in the order of priorities. *)
Lemma put_unmatched s mbox tx (timeout : Z) :
  sys_inv (ker s) -> current (ker s) <> idle_thread -> wait_ok timeout ->
  (forall t, t ∈ queues (ker s) !!! rx_q mbox -> swap_data (thr (ker s) t) <> tx /\
     ~ compatible (sending s tx) (msg s (swap_data (thr (ker s) t)))) ->
  exists s1, sys_inv (ker s1) /\ msg s1 tx = sending s tx /\
    if timeout =? K_NO_WAIT then k_mbox_put tf s mbox tx timeout = ret s1 (- ENOMSG) /\ queues (ker s1) = queues (ker s)
    else k_mbox_put tf s mbox tx timeout = waiting ker s1 /\
      queues (ker s1) !!! tx_q mbox = ins_prio (fun u => prio (thr (ker s) u)) (current (ker s)) (queues (ker s) !!! tx_q mbox).
Proof.
  intros Hs Hid Hw Hn. unfold k_mbox_put. set (s0 := set_msg s tx _).
  destruct (posting_search s0 mbox tx timeout (sending s tx) (current (ker s))) as [Em ->];
    [unfold s0; by rewrite msg_set, decide_True|done|]. cbv zeta.
  change (queues (ker s0)) with (queues (ker s)). rewrite find_match_none; cycle 1.
  { intros t Ht. destruct (Hn t Ht) as [Ha Hc]. destruct (waiter_not_current _ _ _ Hs Ht) as [Hne _].
    rewrite posting_receiver by done. change (ker s0) with (ker s). unfold s0. rewrite msg_set, decide_False by done. by apply match_none. }
  pose proof (offering_sys s tx Hs) as Hos. change (ker (posting s0 tx ?m ?st)) with (offering s tx).
  destruct (Z.eqb_spec timeout K_NO_WAIT) as [->|Hnw]; [by exists (posting s0 tx (sending s tx) (current (ker s)))|].
  rewrite (ready_not_dummy (offering s tx) (current (ker s)) (sy_current _ Hos)).
  eexists. split; [|split; [|split; [reflexivity|]]].
  - by apply (pend_object_sys tf (offering s tx)).
  - exact Em.
  - cbn [ker set_ker]. unfold tx_q. rewrite pend_object_wq by done. change (queues (offering s tx)) with (queues (ker s)).
    generalize (queues (ker s) !!! object_wq (tx_msg_queue mbox)). change (current (offering s tx)) with (current (ker s)).
    assert (forall u, prio (thr (offering s tx) u) = prio (thr (ker s) u)) as Hu
      by (intros u; unfold offering; rewrite thr_upd_thread; by destruct (decide _) as [->|]).
    intros l. induction l as [|u l IH]; [done|]. cbn [ins_prio]. by rewrite !Hu, IH.
Qed.

End Send.

(** ** Asynchronous messages *)

Section Async.
Context `{KConfig}.
Implicit Types (s : state) (mbox : k_mbox) (a t u : tid) (timeout tx rx : Z) (items : list Z).
Variable tf : positive -> toid -> kernel -> kernel.

(** Descriptor [a] is on top of the stack of the unused ones. *)
Record free_async s mbox a items : Prop := {
  fa_stack : Stack.stack_ok (ker s) (async_msg_free s) (Zpos a :: items);
  fa_other : Stack.wq (async_msg_free s) <> tx_q mbox;
  fa_dummy : _is_thread_dummy (ker s) a = true;
  fa_idle : _is_thread_pending (ker s) a = false;
  fa_off : TOthread a ∉ timeout_q (ker s)
}.

(** The message the kernel keeps for the current thread. *)
Definition posted s tx (sem : option positive) a : k_mbox_msg :=
  with_source (current (ker s)) (with_sem sem (with_syncing (Some a) (msg s tx))).

Lemma dummy_not_ready k t : _is_thread_dummy k t = true -> _is_thread_ready k t = false.
Proof. intros Hd. destruct (_is_thread_ready k t) eqn:E; [|done]. by rewrite (ready_not_dummy _ _ E) in Hd. Qed.

(** A dummy thread is put on a wait queue, whatever it has been set up with. *)
Lemma pend_dummy_sys k a (f : k_thread -> k_thread) (p : positive) :
  sys_inv k -> _is_thread_dummy k a = true -> _is_thread_pending k a = false -> TOthread a ∉ timeout_q k ->
  prio_range (prio (f (thr k a))) -> (forall x, thread_state (f x) = thread_state x) ->
  let k' := _pend_thread tf (upd_thread k a f) a (object_wq p) K_FOREVER in
  sys_inv k' /\ current k' = current k /\ (forall u, u <> a -> thr k' u = thr k u) /\ swap_data (thr k' a) = swap_data (f (thr k a)) /\
  _is_thread_dummy k' a = true /\ handling_timeouts k' = handling_timeouts k /\
  queues k' !!! object_wq p = ins_prio (fun u => prio (thr (upd_thread k a f) u)) a (queues k !!! object_wq p) /\
  (forall q, q <> object_wq p -> queues k' !!! q = queues k !!! q).
Proof.
  intros Hs Hd Hp Ho Hpr Hst k'. pose proof (dummy_not_ready _ _ Hd) as Hnr.
  assert (current k <> a) as Hc by (intros E; pose proof (sy_current _ Hs) as Hr; rewrite E in Hr; congruence).
  pose proof (kinv_upd_transit _ _ _ f Hpr (kinv_open _ _ _ (sy_kinv _ Hs) Hnr Hp)) as Hk.
  assert (kinv None [] k') as Hk'.
  { apply kinv_pend; [done| |by left]. change (timeout_q (upd_thread k a f)) with (timeout_q k). by rewrite app_nil_r. }
  assert (forall u, thr k' u = if decide (u = a)
            then with_state (u8 (Z.lor (thread_state (thr k a)) _THREAD_PENDING)) (f (thr k a)) else thr k u) as Ht.
  { intros u. change k' with (_mark_thread_as_pending (set_queues (upd_thread k a f)
      (Lst.insert_before (queues k) (object_wq p) (pend_insert_point (upd_thread k a f) a (queues k !!! object_wq p)) a)) a).
    unfold _mark_thread_as_pending, _set_thread_states.
    rewrite thr_upd_thread. change (thr (set_queues ?k1 ?q) a) with (thr k1 a). rewrite thr_upd_same, Hst.
    destruct (decide (u = a)); [done|]. change (thr (set_queues ?k1 ?q) u) with (thr k1 u). by rewrite thr_upd_other. }
  assert (_is_thread_ready k' a = false) as Hra.
  { apply pending_not_ready. rewrite pending_spec, Ht, decide_True by done. change _THREAD_PENDING with (Z.shiftl 1 1).
    unfold st_bit. cbn [thread_state with_state]. change (st_bit (with_state (u8 (Z.lor (thread_state (thr k a)) (Z.shiftl 1 1))) (thr k a)) 1 = true).
    rewrite st_bit_set by done. apply orb_true_r. }
  pose proof (ri_nodup _ _ (si_rq _ _ (ki_sched _ _ _ Hk)) (object_wq p)) as Hnd.
  split; [|split; [done|split; [|split; [|split; [|split; [done|split]]]]]].
  - apply (sys_shrink k); [done|done|done|done|by rewrite Ht, decide_False| |].
    + rewrite (ready_ext k); [apply Hs|by rewrite Ht, decide_False|done].
    + intros u Hu. destruct (decide (u = a)) as [->|Hne]; [congruence|]. rewrite Ht, decide_False by done. split; [|done].
      rewrite <- Hu. symmetry. apply ready_ext; [by rewrite Ht, decide_False|done].
  - intros u Hu. by rewrite Ht, decide_False.
  - by rewrite Ht, decide_True.
  - rewrite dummy_spec in Hd |- *. rewrite Ht, decide_True by done. change _THREAD_PENDING with (Z.shiftl 1 1).
    unfold st_bit. cbn [thread_state with_state]. change (st_bit (with_state (u8 (Z.lor (thread_state (thr k a)) (Z.shiftl 1 1))) (thr k a)) 0 = true).
    rewrite st_bit_set by done. by rewrite Hd.
  - unfold k'. rewrite pend_thread_queues by by left. exact (pend_ins_prio (upd_thread k a f) a (xO p) Hnd).
  - intros q Hq. unfold k'. rewrite pend_thread_queues by by left.
    destruct (pend_queues (upd_thread k a f) a _ Hnd) as (_ & _ & _ & _ & _ & _ & Hoq). by apply Hoq.
Qed.

(** The dummy thread waits for a receiver in the place of the current thread. *)
Record queued_async s s' mbox m a items : Prop := {
  qa_sys : sys_inv (ker s');
  qa_current : current (ker s') = current (ker s);
  qa_handling : handling_timeouts (ker s') = handling_timeouts (ker s);
  qa_queue : queues (ker s') !!! tx_q mbox =
    ins_prio (fun u => if decide (u = a) then prio (thr (ker s) (current (ker s))) else prio (thr (ker s) u)) a
      (queues (ker s) !!! tx_q mbox);
  qa_queues : forall q, q <> tx_q mbox -> queues (ker s') !!! q = queues (ker s) !!! q;
  qa_threads : forall u, u <> a -> thr (ker s') u = thr (ker s) u;
  qa_swap_data : swap_data (thr (ker s') a) = async_tx_msg a;
  qa_dummy : _is_thread_dummy (ker s') a = true;
  qa_msgs : forall x, msg s' x = if decide (x = async_tx_msg a) then m else msg s x;
  qa_mem : mem s' = mem s;
  qa_sems : sems s' = sems s;
  qa_stack : Stack.stack_ok (ker s') (async_msg_free s') items;
  qa_room : (Stack.next (async_msg_free s') < Stack.top (async_msg_free s'))%nat;
  qa_wait_q : Stack.wait_q (async_msg_free s') = Stack.wait_q (async_msg_free s)
}.

Lemma async_put_spec s mbox tx sem a items :
  sys_inv (ker s) -> free_async s mbox a items ->
  (forall t, t ∈ queues (ker s) !!! rx_q mbox -> swap_data (thr (ker s) t) <> async_tx_msg a /\
     ~ compatible (posted s tx sem a) (msg s (swap_data (thr (ker s) t)))) ->
  exists s', k_mbox_async_put tf s mbox tx sem = ret s' tt /\ queued_async s s' mbox (posted s tx sem a) a items.
Proof.
  intros Hs [F1 F2 F3 F4 F5] Hn. unfold k_mbox_async_put, _mbox_async_alloc.
  destruct (Stack.pop_spec tf (ker s) (async_msg_free s) items (Zpos a) K_FOREVER F1) as (stack' & -> & Ew & Hroom & Hok).
  cbn [bind Z.to_pos]. set (c := current (ker s)). set (s0 := mk_state (ker s) _ _ _ _ stack').
  change (ker s0) with (ker s). fold c. set (f1 := with_prio (prio (thr (ker s) c))). set (m0 := with_sem sem _).
  set (s1 := set_msg (set_ker s0 _) (async_tx_msg a) m0).
  assert (forall x, msg s1 x = if decide (x = async_tx_msg a) then m0 else msg s x) as E1 by (intros x; unfold s1; by rewrite msg_set).
  destruct (posting_search tf s1 mbox (async_tx_msg a) K_FOREVER (posted s tx sem a) a) as [Em ->];
    [by rewrite E1, decide_True|done|]. cbv zeta.
  set (s2 := posting s1 (async_tx_msg a) (posted s tx sem a) a) in *.
  assert (forall u, u <> a -> thr (ker s2) u = thr (ker s) u) as Hu.
  { intros u Hu. unfold s2, posting. cbn [ker set_ker]. rewrite thr_upd_other by done. change (ker s1) with (upd_thread (ker s) a f1).
    by rewrite thr_upd_other. }
  change (queues (ker s1)) with (queues (ker s)). rewrite find_match_none; cycle 1.
  { intros t Ht. destruct (Hn t Ht) as [Ha Hc]. assert (t <> a) as Hta.
    { intros ->. apply (waiter_not_current _ _ _ Hs) in Ht as [_ Ht]. congruence. }
    unfold s2. assert (swap_data (thr (ker s1) t) = swap_data (thr (ker s) t)) as Es.
    { change (ker s1) with (upd_thread (ker s) a f1). by rewrite thr_upd_other. }
    rewrite posting_receiver by (done || by rewrite Es). rewrite Es, E1, decide_False by done. by apply match_none. }
  change (K_FOREVER =? K_NO_WAIT) with false.
  set (f := fun x => with_swap_data (async_tx_msg a) (f1 x)).
  assert (ker s2 = upd_thread (ker s) a f) as Ek.
  { unfold s2, posting. cbn [ker set_ker]. change (ker s1) with (upd_thread (ker s) a f1). unfold upd_thread at 1. rewrite thr_upd_same.
    unfold upd_thread. cbn [threads set_threads]. by rewrite insert_insert_eq. }
  assert (_is_thread_dummy (ker s2) a = true) as Hd2 by (rewrite dummy_spec in F3 |- *; rewrite Ek, thr_upd_same; exact F3).
  rewrite Hd2. cbn [bind]. eexists. split; [reflexivity|].
  destruct (pend_dummy_sys (ker s) a f (tx_msg_queue mbox) Hs F3 F4 F5) as (P1 & P2 & P3 & P4 & P5 & P6 & P7 & P8);
    [apply (ri_prio _ _ (si_rq _ _ (ki_sched _ _ _ (sy_kinv _ Hs))))|done|]. rewrite <- Ek in P1, P2, P3, P4, P5, P6, P7, P8.
  set (k' := _pend_thread tf (ker s2) a (tx_q mbox) K_FOREVER) in *. fold (tx_q mbox) in P7, P8.
  split; cbn [ker set_ker mem sems async_msg_free]; try done.
  - etransitivity; [exact P7|]. generalize (queues (ker s) !!! tx_q mbox). intros l.
    assert (forall u, prio (thr (ker s2) u) = if decide (u = a) then prio (thr (ker s) c) else prio (thr (ker s) u)) as Hpr.
    { intros u. destruct (decide (u = a)) as [->|]; [by rewrite Ek, thr_upd_same|by rewrite Hu]. }
    induction l as [|u l IH]; [done|]. cbn [ins_prio]. by rewrite !Hpr, IH.
  - intros x. change (msg (set_ker s2 k') x) with (msg s2 x). unfold s2, posting. change (msg (set_ker ?y ?k) x) with (msg y x).
    rewrite msg_set, E1. by destruct (decide (x = async_tx_msg a)).
  - destruct Hok as [S1 S2 S3 S4]. split; [done|done|done|]. intros Hne. rewrite <- (S4 Hne). apply P8.
    change (Stack.wq (async_msg_free (set_ker s2 k'))) with (Stack.wq stack'). unfold Stack.wq in *. by rewrite Ew.
Qed.

(** The semaphores after an asynchronous message has been disposed of. *)
Definition signalled (sm : gmap positive Sem.k_sem) (sem : option positive) : gmap positive Sem.k_sem :=
  match sem with Some x => <[x := Sem.increment_count_up_to_limit (sm !!! x)]> sm | None => sm end.

Definition no_waiters s (sem : option positive) : Prop :=
  forall x, sem = Some x -> queues (ker s) !!! Sem.wq (sems s !!! x) = [].

(** Disposing of an asynchronous message returns its descriptor. *)
Lemma async_dispose_spec s rx a items :
  held s rx a -> _is_thread_dummy (ker s) a = true -> MemPool.data (tx_block (msg s rx)) = 0 -> handling_timeouts (ker s) = false ->
  Stack.stack_ok (ker s) (async_msg_free s) items -> (Stack.next (async_msg_free s) < Stack.top (async_msg_free s))%nat ->
  queues (ker s) !!! Stack.wq (async_msg_free s) = [] -> no_waiters s (_async_sem (msg s (swap_data (thr (ker s) a)))) ->
  exists s', _mbox_message_dispose s rx = ret s' tt /\ ker s' = ker s /\ mem s' = mem s /\ msg s' rx = with_syncing None (msg s rx) /\
    Stack.stack_ok (ker s) (async_msg_free s') (u32 (Zpos a) :: items) /\
    sems s' = signalled (sems s) (_async_sem (msg s (swap_data (thr (ker s) a)))).
Proof.
  intros [_ _ _ _ Hs Ha] Hd Hb Hh Hok Hroom Hq Hw. unfold _mbox_message_dispose, free_block. rewrite Hs, Hb. cbn [Z.eqb negb bind].
  rewrite Hs. set (s1 := set_msg s rx _). set (tx := swap_data _). set (s2 := set_msg s1 tx _). change (ker s2) with (ker s). rewrite Hd.
  assert (_async_sem (msg s2 tx) = _async_sem (msg s tx)) as Es.
  { unfold s2. rewrite msg_set, decide_True by done. cbn [_async_sem with_size]. unfold s1. by rewrite msg_set, decide_False. }
  assert (msg s2 rx = with_syncing None (msg s rx)) as Er.
  { unfold s2. rewrite msg_set, decide_False by done. unfold s1. by rewrite msg_set, decide_True. }
  rewrite Es. unfold _mbox_async_free. change (ker s2) with (ker s). change (async_msg_free s2) with (async_msg_free s).
  destruct (Stack.push_spec (ker s) (async_msg_free s) items (Zpos a) Hok Hh Hq Hroom) as (stack' & -> & _ & Hok').
  unfold serviced. rewrite finished_same by done. cbn [bind]. change (ker s1) with (ker s) in tx. fold tx in Hw.
  destruct (_async_sem (msg s tx)) as [x|] eqn:Ex.
  - unfold give_sem. cbn [ker sems]. rewrite Sem.give_free by (done || by apply Hw). unfold serviced. rewrite finished_same by done. by eexists.
  - by eexists.
Qed.

Lemma parked_dummy_sys k a :
  sys_inv k -> _is_thread_pending k a = true -> _is_thread_dummy k a = true -> sys_inv (parked k a).
Proof.
  intros Hs Hp Hd. destruct (parked_spec _ _ (sy_kinv _ Hs) Hp) as (P1 & P2 & P3 & P4 & P5 & P6 & P7 & _ & _).
  assert (_is_thread_ready (parked k a) a = false) as Hnr.
  { apply dummy_not_ready. rewrite dummy_spec in Hd |- *. by rewrite parked_bit, Hd. }
  assert (kinv None [] (parked k a)) as Hk.
  { apply (kinv_close _ _ a); [done|done|done|]. rewrite app_nil_r. by intros []%P2. }
  pose proof (pending_not_current _ _ Hp (sy_current _ Hs)) as Hc.
  apply (sys_shrink k); [done|done|done|done|by apply P6; congruence|apply P7, Hs|]. intros u Hu.
  destruct (decide (u = a)) as [->|Hne]; [congruence|]. rewrite P6 by done. split; [|done]. rewrite <- Hu. unfold parked, _abort_thread_timeout.
  rewrite (abort_ready (Some a) []); [by rewrite unpend_ready|by apply kinv_unpend, Hp; apply Hs|apply not_elem_of_nil|congruence|congruence].
Qed.

Lemma first_async s s' mbox tx rx sem a items :
  queued_async s s' mbox (posted s tx sem a) a items -> queues (ker s) !!! tx_q mbox = [] -> rx <> async_tx_msg a ->
  compatible (posted s tx sem a) (receiving s rx) -> tx_data (msg s tx) <> 0 -> first_sender s' mbox rx a [] [].
Proof.
  intros [Q1 Q2 Q3 Q4 Q5 Q6 Q7 Q8 Q9 _ _ _ _ _] Hq Hne Hc Hd.
  assert (msg s' (swap_data (thr (ker s') a)) = posted s tx sem a) as Em by (by rewrite Q7, Q9, decide_True).
  split.
  - by rewrite Q4, Hq.
  - intros t [->|[]%elem_of_nil]%elem_of_cons. rewrite Q7. by apply not_eq_sym.
  - intros t []%elem_of_nil.
  - rewrite Em. unfold receiving. rewrite Q2, Q9, decide_False by done. exact Hc.
  - by rewrite Em.
  - by rewrite Em.
Qed.

(** Receiving an asynchronous message. *)
Lemma get_async_spec s mbox rx a l1 l2 items (buffer timeout : Z) :
  sys_inv (ker s) -> handling_timeouts (ker s) = false -> first_sender s mbox rx a l1 l2 -> _is_thread_dummy (ker s) a = true ->
  Stack.stack_ok (ker s) (async_msg_free s) items -> (Stack.next (async_msg_free s) < Stack.top (async_msg_free s))%nat ->
  queues (ker s) !!! Stack.wq (async_msg_free s) = [] ->
  let m := msg s (swap_data (thr (ker s) a)) in
  let n := size m `min` size (msg s rx) in
  no_waiters s (_async_sem m) -> 0 <= n -> buffer <> 0 -> LibC.apart buffer (tx_data m) n ->
  exists s', k_mbox_get tf s mbox rx buffer timeout = ret s' 0 /\ sys_inv (ker s') /\
    LibC.copied (mem s) (mem s') buffer (tx_data m) n /\ msg s' rx = with_syncing None (rx_matched m (receiving s rx)) /\
    queues (ker s') !!! tx_q mbox = l1 ++ l2 /\ Stack.stack_ok (ker s') (async_msg_free s') (u32 (Zpos a) :: items) /\
    sems s' = signalled (sems s) (_async_sem m).
Proof.
  intros Hs Hh Hf Hd Hok Hroom Hsq m n Hw Hn Hbuf Hap. pose proof (received_held _ _ _ _ _ _ Hs Hf) as Hhd.
  destruct (received_msgs _ _ _ _ _ _ Hf) as [Erx Etx]. fold m in Erx, Etx.
  assert (a ∈ queues (ker s) !!! tx_q mbox) as Hin by (rewrite (fs_queue _ _ _ _ _ _ Hf); apply elem_of_app; right; left).
  destruct (waiter_not_current _ _ _ Hs Hin) as [_ Hp]. set (s3 := received s rx a) in *.
  destruct (parked_spec _ _ (sy_kinv _ Hs) Hp) as (_ & _ & _ & _ & _ & _ & _ & P8 & P9).
  assert (swap_data (thr (ker s3) a) = swap_data (thr (ker s) a)) as Esw by exact (P8 swap_data ltac:(done)).
  assert (forall w, queues (ker s) !!! WQ w = [] -> queues (ker s3) !!! WQ w = []) as Hempty.
  { intros w He. change (ker s3) with (parked (ker s) a). by rewrite P9, He. }
  destruct (data_get_copies s3 rx buffer Hbuf) as (m' & Eg & Hcp); rewrite ?Erx; try done; [apply Hf|].
  destruct (async_dispose_spec (set_mem s3 m') rx a items) as (s2 & Ed & Ek & Em & Er2 & Hok2 & Esm); try done.
  { by destruct Hhd. }
  { change (ker (set_mem s3 m')) with (ker (received s rx a)). by rewrite received_dummy. }
  { change (msg (set_mem s3 m') rx) with (msg s3 rx). by rewrite Erx. }
  { change (ker (set_mem s3 m')) with (parked (ker s) a). unfold parked, _abort_thread_timeout.
    by rewrite (abort_frame (_unpend_thread (ker s) a) (TOthread a)). }
  { destruct Hok as [S1 S2 S3 S4]. split; try done. intros Hne. by apply Hempty, S4. }
  { by apply Hempty. }
  { change (ker (set_mem s3 m')) with (ker s3). change (msg (set_mem s3 m') ?x) with (msg s3 x). rewrite Esw, Etx.
    intros x Ex. by apply Hempty, Hw. }
  change (msg (set_mem s3 m') ?x) with (msg s3 x) in Er2, Esm. change (ker (set_mem s3 m')) with (ker s3) in Ek, Esm, Hok2.
  rewrite Esw, Etx in Esm. rewrite Erx in Er2, Hcp. exists s2. rewrite Em, Ek. split_and!; try done.
  - rewrite (get_matched tf _ _ _ _ _ _ _ _ Hf). fold s3. unfold _mbox_message_data_check. destruct (Z.eqb_spec buffer 0); [done|].
    cbn [negb]. by rewrite Eg, Ed.
  - by apply parked_dummy_sys.
  - pose proof (ri_nodup _ _ (si_rq _ _ (ki_sched _ _ _ (sy_kinv _ Hs))) (tx_q mbox)) as Hnd.
    change (ker s3) with (parked (ker s) a). unfold tx_q, object_wq. rewrite P9. fold (object_wq (tx_msg_queue mbox)) (tx_q mbox).
    rewrite (fs_queue _ _ _ _ _ _ Hf) in Hnd |- *. by apply filter_ne_split.
Qed.

(** An asynchronous send returns at once, even when no receiver waits, and the
    message is received like any other; afterwards the kernel's descriptor is back
    on the stack of the unused ones, and the semaphore has been given. *)
Theorem mbox_async_roundtrip s mbox tx rx sem a items (buffer timeout : Z) :
  sys_inv (ker s) -> handling_timeouts (ker s) = false -> free_async s mbox a items -> Zpos a < 2 ^ 32 ->
  (forall t, t ∈ queues (ker s) !!! rx_q mbox -> swap_data (thr (ker s) t) <> async_tx_msg a /\
     ~ compatible (posted s tx sem a) (msg s (swap_data (thr (ker s) t)))) ->
  queues (ker s) !!! tx_q mbox = [] -> rx <> async_tx_msg a -> compatible (posted s tx sem a) (receiving s rx) ->
  no_waiters s sem -> (forall x, sem = Some x -> Sem.wq (sems s !!! x) <> tx_q mbox) ->
  let n := size (msg s tx) `min` size (msg s rx) in
  0 <= n -> buffer <> 0 -> tx_data (msg s tx) <> 0 -> LibC.apart buffer (tx_data (msg s tx)) n ->
  exists s1 s2, k_mbox_async_put tf s mbox tx sem = ret s1 tt /\ k_mbox_get tf s1 mbox rx buffer timeout = ret s2 0 /\
    sys_inv (ker s1) /\ sys_inv (ker s2) /\ LibC.copied (mem s) (mem s2) buffer (tx_data (msg s tx)) n /\
    size (msg s2 rx) = n /\ info (msg s2 rx) = info (msg s tx) /\ rx_source_thread (msg s2 rx) = Some (current (ker s)) /\
    queues (ker s2) !!! tx_q mbox = [] /\ Stack.stack_ok (ker s2) (async_msg_free s2) (Zpos a :: items) /\
    sems s2 = signalled (sems s) sem.
Proof.
  intros Hs Hh Hfa Ha Hn Hq Hrx Hc Hw Hwq n Hn0 Hbuf Hd Hap.
  destruct (async_put_spec s mbox tx sem a items Hs Hfa Hn) as (s1 & E1 & Q). exists s1.
  pose proof (first_async _ _ _ _ rx _ _ _ Q Hq Hrx Hc Hd) as Hf.
  destruct Q as [Q1 Q2 Q3 Q4 Q5 _ Q7 Q8 Q9 Q10 Q11 Q12 Q13 Q14].
  assert (msg s1 (swap_data (thr (ker s1) a)) = posted s tx sem a /\ msg s1 rx = msg s rx) as [Em Er]
    by (by rewrite Q7, !Q9, decide_True, decide_False).
  destruct (get_async_spec s1 mbox rx a [] [] items buffer timeout) as (s2 & E2 & G1 & G2 & G3 & G4 & G5 & G6);
    rewrite ?Em, ?Er; try done.
  - congruence.
  - unfold Stack.wq. rewrite Q14. rewrite Q5 by apply Hfa. by apply (Stack.st_waiters _ _ _ (fa_stack _ _ _ _ Hfa)).
  - intros x Ex. rewrite Q11, Q5 by by apply Hwq. by apply Hw.
  - rewrite Em, ?Er, Q10 in G2. rewrite Em in G3, G6. rewrite Q11 in G6. rewrite u32_small in G5 by lia.
    exists s2. rewrite G3. unfold rx_matched, receiving. rewrite Er. by split_and!.
Qed.

End Async.

Section Witnesses.
Import Demo.
#[local] Existing Instance config.

(** Mailbox with the wait queues 11 and 12; descriptors at 50 and 60; the data of
    the message are the bytes 7, 8 and 9 at 100, and the receiver takes two. *)
Definition mbox : k_mbox := mk_mbox 11 12.
Definition tx50 : k_mbox_msg := mk_msg 3 21 100 no_block (Some 3%positive) None (Some 3%positive) None.
Definition rx60 : k_mbox_msg := mk_msg 2 22 0 no_block None None None None.
Definition data100 : LibC.memory := <[100 := 7]> (<[101 := 8]> (<[102 := 9]> ∅)).
Definition box k : state := mk_state k [] data100 (<[50 := tx50]> (<[60 := rx60]> ∅)) (<[1%positive := Sem.mk_sem 14 0 5]> ∅) (Stack.mk_stack 13 [9] 1 1).

(** Main waits in [k_mbox_put], or in [k_mbox_get]; thread 4 runs. *)
Definition k_sender : kernel := _Swap (_pend_current_thread no_tf (upd_thread k_three 3 (with_swap_data 50)) (object_wq 11) K_FOREVER).
Definition k_receiver : kernel := _Swap (_pend_current_thread no_tf (upd_thread k_three 3 (with_swap_data 60)) (object_wq 12) K_FOREVER).

Lemma k_sender_sys : sys_inv k_sender.
Proof. apply (pend_object_sys no_tf); [by apply sys_upd_other, k_three_sys|by vm_compute|by right; left|by vm_compute]. Qed.

Lemma k_receiver_sys : sys_inv k_receiver.
Proof. apply (pend_object_sys no_tf); [by apply sys_upd_other, k_three_sys|by vm_compute|by right; left|by vm_compute]. Qed.

Lemma sender_first : first_sender (box k_sender) mbox 60 3 [] [].
Proof.
  split; [vm_compute; reflexivity| |by intros t []%elem_of_nil| |by vm_compute|vm_compute; reflexivity].
  - intros t [->|[]%elem_of_nil]%elem_of_cons. by vm_compute.
  - split; left; vm_compute; reflexivity.
Qed.

Lemma mbox_get_receives_witness :
  exists s', k_mbox_get no_tf (box k_sender) mbox 60 200 K_FOREVER = finished ker (box k_sender) s' 0 /\ LibC.ld8 (mem s') 201 = 8.
Proof.
  destruct (mbox_get_receives no_tf (box k_sender) mbox 60 3 [] [] 200 K_FOREVER k_sender_sys sender_first) as (s' & E & _ & C & _).
  - vm_compute. reflexivity.
  - lia.
  - vm_compute. discriminate.
  - right. vm_compute. discriminate.
  - exists s'. split; [exact E|]. rewrite (C 201). vm_compute. reflexivity.
Defined.

Lemma mbox_get_strands_sender_witness :
  exists s', k_mbox_get no_tf (box k_sender) mbox 60 0 K_FOREVER = ret s' 0 /\ ~ sys_inv (ker s').
Proof.
  destruct (mbox_get_strands_sender no_tf (box k_sender) mbox 60 3 [] [] K_FOREVER k_sender_sys sender_first) as (s' & E & _ & _ & Hn & _).
  - intros n [->|[->| ->]]; vm_compute; reflexivity.
  - vm_compute. reflexivity.
  - vm_compute. reflexivity.
  - vm_compute. reflexivity.
  - exists s'. split; [exact E|exact Hn].
Defined.

Lemma mbox_put_delivers_witness :
  exists s1, k_mbox_put no_tf (box k_receiver) mbox 50 K_FOREVER = waiting ker s1 /\ retval (thr (ker s1) 3) = 0.
Proof.
  destruct (mbox_put_delivers no_tf (box k_receiver) mbox 50 3 [] [] K_FOREVER k_receiver_sys) as (s1 & E & Hr & _).
  - split; [vm_compute; reflexivity| |by intros t []%elem_of_nil| |by vm_compute].
    + intros t [->|[]%elem_of_nil]%elem_of_cons. by vm_compute.
    + split; left; vm_compute; reflexivity.
  - by vm_compute.
  - vm_compute. discriminate.
  - exists s1. split; [exact E|exact Hr].
Defined.

Lemma mbox_async_roundtrip_witness :
  exists s1 s2, k_mbox_async_put no_tf (box k_three) mbox 50 (Some 1%positive) = ret s1 tt /\
    k_mbox_get no_tf s1 mbox 60 200 K_NO_WAIT = ret s2 0 /\ LibC.ld8 (mem s2) 200 = 7.
Proof.
  destruct (mbox_async_roundtrip no_tf (box k_three) mbox 50 60 (Some 1%positive) 9 [] 200 K_NO_WAIT k_three_sys)
    as (s1 & s2 & E1 & E2 & _ & _ & C & _).
  - vm_compute. reflexivity.
  - split; [|by vm_compute|vm_compute; reflexivity|vm_compute; reflexivity|].
    + split; [done|simpl; lia|done|intros _; vm_compute; reflexivity].
    + intros Hin. apply (bool_decide_pack _) in Hin. vm_compute in Hin. exact Hin.
  - lia.
  - assert (queues (ker (box k_three)) !!! rx_q mbox = []) as -> by (vm_compute; reflexivity). by intros t []%elem_of_nil.
  - vm_compute. reflexivity.
  - done.
  - split; left; vm_compute; reflexivity.
  - intros x [= <-]. vm_compute. reflexivity.
  - intros x [= <-]. by vm_compute.
  - vm_compute. discriminate.
  - lia.
  - by vm_compute.
  - right. vm_compute. discriminate.
  - exists s1, s2. split; [exact E1|]. split; [exact E2|]. rewrite (C 200). vm_compute. reflexivity.
Defined.

End Witnesses.
End Mailbox.
