(* ===== verification/Pipe.v ===== *)
(** * Pipes (kernel/pipes.c)

    A pipe is a ring buffer of bytes with two wait queues.  A thread that waits has
    a descriptor of what is left of its request in its stack frame; the descriptor
    of thread [t] is at [desc_addr t], and so is the one of an asynchronous write,
    whose dummy thread is [t].  Interrupts that come while data are copied, with the
    scheduler locked, are not part of the model. *)

From S2P Require Import Prelude DList ListStore Kernel Ksched ReadyQ TimeoutQ KInv Sched Thread Demo Sem Stack LibC MemPool Heap Resume Parking.

Local Open Scope Z_scope.
Local Open Scope proc_scope.

Module Pipe.

(** [struct k_pipe_desc]; [block] points to [copy_block] *)
Record k_pipe_desc := mk_desc { buffer : Z; bytes_to_xfer : Z; copy_block : MemPool.k_mem_block; sem : option positive }.

Record k_pipe := mk_pipe {
  buf : Z;
  size : Z;
  bytes_used : Z;
  read_index : Z;
  write_index : Z;
  readers : positive;
  writers : positive
}.

#[export] Instance k_pipe_desc_inhabited : Inhabited k_pipe_desc := populate (mk_desc 0 0 (MemPool.mk_block 0 0 0 0) None).
#[export] Instance k_pipe_inhabited : Inhabited k_pipe := populate (mk_pipe 0 0 0 0 0 1 1).
#[export] Instance k_sem_inhabited : Inhabited Sem.k_sem := populate (Sem.mk_sem 1 0 0).

Record state := mk_state {
  ker : kernel;
  pools : list MemPool.k_mem_pool;
  mem : LibC.memory;
  descs : gmap Z k_pipe_desc;
  pipes : gmap positive k_pipe;
  sems : gmap positive Sem.k_sem;
  pipe_async_msgs : Stack.k_stack
}.

Section Pipe.
Context `{KConfig}.
Implicit Types (s : state) (p : positive) (x : k_pipe) (m : LibC.memory) (t : tid) (timeout data : Z).
Variable timeout_func : positive -> toid -> kernel -> kernel.

Definition readers_q x : qid := object_wq (readers x).
Definition writers_q x : qid := object_wq (writers x).

Definition desc_addr t : Z := Zpos t.
Definition desc s (a : Z) : k_pipe_desc := descs s !!! a.
(** [(struct k_pipe_desc * )thread->base.swap_data] *)
Definition desc_of s t : k_pipe_desc := desc s (swap_data (thr (ker s) t)).

Definition set_ker s (k : kernel) : state := mk_state k (pools s) (mem s) (descs s) (pipes s) (sems s) (pipe_async_msgs s).
Definition set_mem s m : state := mk_state (ker s) (pools s) m (descs s) (pipes s) (sems s) (pipe_async_msgs s).
Definition set_desc s (a : Z) (d : k_pipe_desc) : state :=
  mk_state (ker s) (pools s) (mem s) (<[a := d]> (descs s)) (pipes s) (sems s) (pipe_async_msgs s).
Definition set_pipe s p x : state :=
  mk_state (ker s) (pools s) (mem s) (descs s) (<[p := x]> (pipes s)) (sems s) (pipe_async_msgs s).

(** ** Asynchronous descriptors *)

Definition _pipe_async_alloc s : proc state tid :=
  let '(k, stack, r) := Stack._impl_k_stack_pop timeout_func (ker s) (pipe_async_msgs s) K_FOREVER in
  let s := mk_state k (pools s) (mem s) (descs s) (pipes s) (sems s) stack in
  match r with
  | Some (_, Some w) => ret s (Z.to_pos w)
  | Some (_, None) => fault
  | None => swapped s (fun s =>
      match Stack.k_stack_pop_resume (ker s) with
      | (_, Some w) => ret s (Z.to_pos w)
      | (_, None) => fault
      end)
  end.

Definition _pipe_async_free s (async : tid) : proc state unit :=
  match Stack._impl_k_stack_push (ker s) (pipe_async_msgs s) (Zpos async) with
  | None => fault
  | Some (k, stack) => serviced ker s (mk_state k (pools s) (mem s) (descs s) (pipes s) (sems s) stack)
  end.

Definition give_sem s (sm : positive) : proc state unit :=
  let '(k, y) := Sem._impl_k_sem_give (ker s) (sems s !!! sm) in
  serviced ker s (mk_state k (pools s) (mem s) (descs s) (pipes s) (<[sm := y]> (sems s)) (pipe_async_msgs s)).

Definition _pipe_async_finish s (async : tid) : proc state unit :=
  match Heap.k_mem_pool_free (ker s) (pools s) (copy_block (desc s (desc_addr async))) with
  | None => fault
  | Some (k, ps) =>
      let* (s, _) := serviced ker s (mk_state k ps (mem s) (descs s) (pipes s) (sems s) (pipe_async_msgs s)) in
      let* (s, _) := match sem (desc s (desc_addr async)) with Some sm => give_sem s sm | None => ret s tt end in
      _pipe_async_free s async
  end.

(** [l] are the descriptors, in the order of the array *)
Fixpoint init_async s (l : list tid) : proc state unit :=
  match l with
  | [] => ret s tt
  | a :: l =>
      let k := upd_thread (ker s) a (with_state _THREAD_DUMMY) in
      let s := set_ker s (upd_thread k a (with_swap_data (desc_addr a))) in
      let* (s, _) := _pipe_async_free s a in init_async s l
  end.

Definition init_pipes_module s (async_msg : list tid) : proc state unit := init_async s async_msg.

Definition _impl_k_pipe_init s p (buffer size : Z) (r w : positive) : state :=
  let x := mk_pipe buffer size 0 0 0 r w in
  let k := set_queues (ker s) (Lst.init (queues (ker s)) (writers_q x)) in
  set_pipe (set_ker s (set_queues k (Lst.init (queues k) (readers_q x)))) p x.

(** ** Copying *)

Definition _pipe_xfer m (dest dest_size src src_size : Z) : LibC.memory * Z :=
  let num_bytes := dest_size `min` src_size in
  (LibC.copy_bytes (Z.to_nat num_bytes) m dest src, num_bytes).

(** One turn of the loop of [_pipe_buffer_put], with the bytes written so far. *)
Definition put_run m x (src src_size num_bytes_written : Z) : LibC.memory * k_pipe * Z :=
  let run_length := (size x - bytes_used x) `min` (size x - write_index x) in
  let '(m, bytes_copied) := _pipe_xfer m (buf x + write_index x) run_length (src + num_bytes_written) (src_size - num_bytes_written) in
  let write_index' := write_index x + bytes_copied in
  (m, mk_pipe (buf x) (size x) (bytes_used x + bytes_copied) (read_index x)
        (if write_index' =? size x then 0 else write_index') (readers x) (writers x),
   num_bytes_written + bytes_copied).

Definition _pipe_buffer_put m x (src src_size : Z) : LibC.memory * k_pipe * Z :=
  let '(m, x, n) := put_run m x src src_size 0 in put_run m x src src_size n.

Definition get_run m x (dest dest_size num_bytes_read : Z) : LibC.memory * k_pipe * Z :=
  let run_length := bytes_used x `min` (size x - read_index x) in
  let '(m, bytes_copied) := _pipe_xfer m (dest + num_bytes_read) (dest_size - num_bytes_read) (buf x + read_index x) run_length in
  let read_index' := read_index x + bytes_copied in
  (m, mk_pipe (buf x) (size x) (bytes_used x - bytes_copied)
        (if read_index' =? size x then 0 else read_index') (write_index x) (readers x) (writers x),
   num_bytes_read + bytes_copied).

Definition _pipe_buffer_get m x (dest dest_size : Z) : LibC.memory * k_pipe * Z :=
  let '(m, x, n) := get_run m x dest dest_size 0 in get_run m x dest dest_size n.

(** ** The working set *)

(** The first loop of [_pipe_xfer_prepare]: how much the waiting threads can take
    or give, counted until it is enough. *)
Fixpoint count_waiting s (l : list tid) (bytes num_bytes : Z) : Z :=
  match l with
  | [] => num_bytes
  | t :: l =>
      let num_bytes := u32 (num_bytes + bytes_to_xfer (desc_of s t)) in
      if num_bytes >=? bytes then num_bytes else count_waiting s l bytes num_bytes
  end.

(** The second loop: the threads whose requests can be met in full leave the wait
    queue; the result has them in order, and the thread that stays in front of the
    queue with a request that can be met in part. *)
Fixpoint take_waiting (fuel : nat) s (q : qid) (bytes num_bytes : Z) (xfer_list : list tid) : state * list tid * option tid :=
  match fuel with
  | O => (s, xfer_list, None)
  | S fuel =>
      match Lst.peek_head (queues (ker s)) q with
      | None => (s, xfer_list, None)
      | Some thread =>
          let num_bytes := u32 (num_bytes + bytes_to_xfer (desc_of s thread)) in
          if num_bytes >? bytes then (s, xfer_list, Some thread)
          else
            let k := _unpend_thread (ker s) thread in
            let k := fst (_abort_thread_timeout k thread) in
            take_waiting fuel (set_ker s k) q bytes num_bytes (xfer_list ++ [thread])
      end
  end.

(** [None] is [false]: the request cannot be met. *)
Definition _pipe_xfer_prepare s (q : qid) (pipe_space bytes min_xfer timeout : Z) : option (state * list tid * option tid) :=
  let l := queues (ker s) !!! q in
  if (timeout =? K_NO_WAIT) && (u32 (count_waiting s l bytes 0 + pipe_space) <? min_xfer) then None
  else Some (take_waiting (length l) s q bytes 0 []).

Definition _pipe_return_code (min_xfer bytes_remaining bytes_requested : Z) : Z :=
  if bytes_requested - bytes_remaining >=? min_xfer then 0 else - EAGAIN.

Definition _pipe_thread_ready s t : proc state unit :=
  if _is_thread_dummy (ker s) t then _pipe_async_finish s t else ret (set_ker s (_ready_thread (ker s) t)) tt.

(** A descriptor after [bytes_copied] more bytes. *)
Definition advance (d : k_pipe_desc) (bytes_copied : Z) : k_pipe_desc :=
  mk_desc (buffer d + bytes_copied) (bytes_to_xfer d - bytes_copied) (copy_block d) (sem d).

(** ** Writing *)

(** Copy from [data] to the thread's buffer; [n] bytes have been written before. *)
Definition copy_to s t data (bytes_to_write n : Z) : state * Z :=
  let d := desc_of s t in
  let '(m, bytes_copied) := _pipe_xfer (mem s) (buffer d) (bytes_to_xfer d) (data + n) (bytes_to_write - n) in
  (set_desc (set_mem s m) (swap_data (thr (ker s) t)) (advance d bytes_copied), n + bytes_copied).

(** the loop over the working readers *)
Fixpoint serve_readers s (xfer_list : list tid) data (bytes_to_write n : Z) : state * Z :=
  match xfer_list with
  | [] => (s, n)
  | thread :: l =>
      let '(s, n) := copy_to s thread data bytes_to_write n in
      serve_readers (set_ker s (_ready_thread (ker s) thread)) l data bytes_to_write n
  end.

(** the direct copies and the ring buffer *)
Definition write_all s p (xfer_list : list tid) (reader : option tid) data (bytes_to_write : Z) : state * Z :=
  let '(s, n) := serve_readers s xfer_list data bytes_to_write 0 in
  let '(s, n) := match reader with Some t => copy_to s t data bytes_to_write n | None => (s, n) end in
  let '(m, x, written) := _pipe_buffer_put (mem s) (pipes s !!! p) (data + n) (bytes_to_write - n) in
  (set_pipe (set_mem s m) p x, n + written).

(** What is left when all or nothing more could be transferred: [result] from the
    descriptor of the current thread. *)
Definition pipe_result s (a min_xfer bytes : Z) : Z * Z :=
  let d := desc s a in (_pipe_return_code min_xfer (bytes_to_xfer d) bytes, bytes - bytes_to_xfer d).

(** The end of both directions: [q] is the queue to wait on, [pos] the position in
    the caller's buffer and [left] the number of bytes that are left. *)
Definition pipe_wait s (q : qid) (pos left bytes min_xfer timeout : Z) : proc state (Z * Z) :=
  let me := current (ker s) in
  let a := desc_addr me in
  let s := set_desc s a (mk_desc pos left (copy_block (desc s a)) (sem (desc s a))) in
  if negb (timeout =? K_NO_WAIT) then
    let k := upd_thread (ker s) me (with_swap_data a) in
    let k := _sched_unlock_no_reschedule k in
    let k := _pend_current_thread timeout_func k q timeout in
    swapped (set_ker s (_Swap k)) (fun s => ret s (pipe_result s a min_xfer bytes))
  else
    let* (s, _) := serviced ker s (set_ker s (k_sched_unlock (ker s))) in
    ret s (pipe_result s a min_xfer bytes).

(** The return value, and the number of bytes written. *)
Definition _k_pipe_put_internal s p (async_desc : option tid) data (bytes_to_write min_xfer timeout : Z) : proc state (Z * Z) :=
  let x := pipes s !!! p in
  match _pipe_xfer_prepare s (readers_q x) (size x - bytes_used x) bytes_to_write min_xfer timeout with
  | None => ret s (- EIO, 0)
  | Some (s, xfer_list, reader) =>
      let s := set_ker s (_sched_lock (ker s)) in
      let '(s, n) := write_all s p xfer_list reader data bytes_to_write in
      if n =? bytes_to_write then
        let* (s, _) := match async_desc with Some a => _pipe_async_finish s a | None => ret s tt end in
        let* (s, _) := serviced ker s (set_ker s (k_sched_unlock (ker s))) in ret s (0, n)
      else
        match async_desc with
        | Some a =>
            let k := _sched_unlock_no_reschedule (ker s) in
            let k := _pend_thread timeout_func k a (writers_q (pipes s !!! p)) K_FOREVER in
            let* (s, _) := serviced ker s (set_ker s (_reschedule_threads k)) in ret s (0, 0)
        | None => pipe_wait s (writers_q (pipes s !!! p)) (data + n) (bytes_to_write - n) bytes_to_write min_xfer timeout
        end
  end.

Definition _impl_k_pipe_put s p data (bytes_to_write min_xfer timeout : Z) : proc state (Z * Z) :=
  _k_pipe_put_internal s p None data bytes_to_write min_xfer timeout.

Definition k_pipe_block_put s p (block : MemPool.k_mem_block) (bytes_to_write : Z) (sm : option positive) : proc state unit :=
  let* (s, a) := _pipe_async_alloc s in
  let d := desc s (desc_addr a) in
  let s := set_desc s (desc_addr a) (mk_desc (buffer d) (bytes_to_xfer d) block sm) in
  let s := set_ker s (upd_thread (ker s) a (with_prio (s8 (_impl_k_thread_priority_get (ker s) (current (ker s)))))) in
  let* (s, _) := _k_pipe_put_internal s p (Some a) (MemPool.data block) bytes_to_write bytes_to_write K_FOREVER in
  ret s tt.

(** ** Reading *)

(** Copy from the thread's buffer to [data]; [n] bytes have been read before. *)
Definition copy_from s t data (bytes_to_read n : Z) : state * Z :=
  let d := desc_of s t in
  let '(m, bytes_copied) := _pipe_xfer (mem s) (data + n) (bytes_to_read - n) (buffer d) (bytes_to_xfer d) in
  (set_desc (set_mem s m) (swap_data (thr (ker s) t)) (advance d bytes_copied), n + bytes_copied).

(** The first loop over the working writers: the bytes read so far, and the writers
    that are left when the request is met. *)
Fixpoint drain_writers s (xfer_list : list tid) data (bytes_to_read n : Z) : proc state (list tid * Z) :=
  match xfer_list with
  | [] => ret s ([], n)
  | thread :: l =>
      if n <? bytes_to_read then
        let '(s, n) := copy_from s thread data bytes_to_read n in
        if n =? bytes_to_read then ret s (thread :: l, n)
        else let* (s, _) := _pipe_thread_ready s thread in drain_writers s l data bytes_to_read n
      else ret s (thread :: l, n)
  end.

(** Copy from the thread's buffer to the ring buffer. *)
Definition refill_from s p t : state :=
  let d := desc_of s t in
  let '(m, x, bytes_copied) := _pipe_buffer_put (mem s) (pipes s !!! p) (buffer d) (bytes_to_xfer d) in
  set_desc (set_pipe (set_mem s m) p x) (swap_data (thr (ker s) t)) (advance d bytes_copied).

(** the second loop, over the writers that are left *)
Fixpoint refill s p (xfer_list : list tid) : proc state unit :=
  match xfer_list with
  | [] => ret s tt
  | thread :: l => let* (s, _) := _pipe_thread_ready (refill_from s p thread) thread in refill s p l
  end.

(** The copies of [k_pipe_get]: from the ring buffer, then from the working writers
    and the one in front of the queue; the room this makes is filled again. *)
Definition read_all s p (xfer_list : list tid) (writer : option tid) data (bytes_to_read : Z) : proc state Z :=
  let '(m, x, n) := _pipe_buffer_get (mem s) (pipes s !!! p) data bytes_to_read in
  let s := set_pipe (set_mem s m) p x in
  let* (s, r) := drain_writers s xfer_list data bytes_to_read n in
  let '(xfer_list, n) := r in
  let '(s, n) := match writer with
                 | Some t => if n <? bytes_to_read then copy_from s t data bytes_to_read n else (s, n)
                 | None => (s, n)
                 end in
  let* (s, _) := refill s p xfer_list in
  ret (match writer with Some t => refill_from s p t | None => s end) n.

(** The return value, and the number of bytes read. *)
Definition _impl_k_pipe_get s p data (bytes_to_read min_xfer timeout : Z) : proc state (Z * Z) :=
  let x := pipes s !!! p in
  match _pipe_xfer_prepare s (writers_q x) (bytes_used x) bytes_to_read min_xfer timeout with
  | None => ret s (- EIO, 0)
  | Some (s, xfer_list, writer) =>
      let s := set_ker s (_sched_lock (ker s)) in
      let* (s, n) := read_all s p xfer_list writer data bytes_to_read in
      if n =? bytes_to_read then
        let* (s, _) := serviced ker s (set_ker s (k_sched_unlock (ker s))) in ret s (0, n)
      else pipe_wait s (readers_q (pipes s !!! p)) (data + n) (bytes_to_read - n) bytes_to_read min_xfer timeout
  end.

End Pipe.

(** ** Areas of memory *)

Section Areas.
Implicit Types (m : LibC.memory) (a b n k : Z).

(** the [n] bytes at [a] *)
Definition bytes m a n : list Z := (fun i => LibC.ld8 m (a + i)) <$> seqZ 0 n.

Definition disjoint a n b k : Prop := a + n <= b \/ b + k <= a.

(** [m'] differs from [m] in the [n] bytes at [a] only *)
Definition only m m' a n : Prop := forall q, ~ a <= q < a + n -> LibC.ld8 m' q = LibC.ld8 m q.

Lemma bytes_length m a n : 0 <= n -> Z.of_nat (length (bytes m a n)) = n.
Proof. intros Hn. unfold bytes. rewrite length_fmap, length_seqZ. lia. Qed.

Lemma bytes_0 m a n : n <= 0 -> bytes m a n = [].
Proof. intros Hn. unfold bytes. by rewrite seqZ_nil. Qed.

Lemma bytes_app m a n k : 0 <= n -> 0 <= k -> bytes m a (n + k) = bytes m a n ++ bytes m (a + n) k.
Proof.
  intros Hn Hk. unfold bytes. rewrite seqZ_app, fmap_app by done. f_equal.
  replace (0 + n) with (n + 0) by lia. rewrite <- (fmap_add_seqZ n 0), <- list_fmap_compose. apply list_fmap_ext. intros _ x _. cbn. f_equal. lia.
Qed.

Lemma bytes_ext m m' a b n : (forall i, 0 <= i < n -> LibC.ld8 m' (b + i) = LibC.ld8 m (a + i)) -> bytes m' b n = bytes m a n.
Proof. intros He. unfold bytes. apply list_fmap_ext. intros j x Hx%list_elem_of_lookup_2%elem_of_seqZ. apply He. lia. Qed.

Lemma bytes_only m m' a n b k : only m m' a n -> disjoint a n b k -> bytes m' b k = bytes m b k.
Proof. intros Ho Hd. apply bytes_ext. intros i Hi. apply Ho. destruct Hd; lia. Qed.

Lemma only_refl m a n : only m m a n.
Proof. done. Qed.

Lemma copied_bytes m m' d s n : LibC.copied m m' d s n -> bytes m' d n = bytes m s n.
Proof. intros Hc. apply bytes_ext. intros i Hi. rewrite (Hc (d + i)), decide_True by lia. f_equal. lia. Qed.

Lemma copied_only m m' d s n : LibC.copied m m' d s n -> only m m' d n.
Proof. intros Hc q Hq. by rewrite (Hc q), decide_False by lia. Qed.

Lemma only_wider m m' a n b k : only m m' a n -> b <= a -> a + n <= b + k -> only m m' b k.
Proof. intros Ho H1 H2 q Hq. apply Ho. lia. Qed.

Lemma only_trans m m1 m2 a n : only m m1 a n -> only m1 m2 a n -> only m m2 a n.
Proof. intros H1 H2 q Hq. by rewrite H2, H1. Qed.

(** The transfer of [_pipe_xfer] between disjoint areas. *)
Lemma xfer_spec m (dest dest_size src src_size : Z) :
  0 <= dest_size -> 0 <= src_size -> disjoint dest dest_size src src_size ->
  let n := dest_size `min` src_size in
  exists m', _pipe_xfer m dest dest_size src src_size = (m', n) /\ LibC.copied m m' dest src n.
Proof.
  intros H1 H2 Hd n. eexists. split; [done|]. fold n. rewrite <- (Z2Nat.id n) at 2 by lia. apply LibC.copy_bytes_copied.
  rewrite Z2Nat.id by lia. destruct Hd; [left|right]; lia.
Qed.

End Areas.

(** ** The ring buffer *)

Section Ring.
Implicit Types (m : LibC.memory) (x : k_pipe).

Record ring_wf x : Prop := {
  rw_used : 0 <= bytes_used x <= size x;
  rw_read : 0 <= read_index x < size x \/ (read_index x = 0 /\ size x = 0);
  rw_write : write_index x = (read_index x + bytes_used x) mod size x
}.

(** The bytes in the buffer, the oldest first. *)
Definition contents m x : list Z := (fun i => LibC.ld8 m (buf x + (read_index x + i) mod size x)) <$> seqZ 0 (bytes_used x).

Lemma mod_ring (a n : Z) : 0 <= a < 2 * n -> a mod n = if decide (a < n) then a else a - n.
Proof.
  intros Ha. case_decide; [apply Z.mod_small; lia|]. rewrite <- (Z.mod_add a (-1)) by lia. rewrite Z.mod_small by lia. lia.
Qed.

Definition same_pipe x x' : Prop := buf x' = buf x /\ size x' = size x /\ readers x' = readers x /\ writers x' = writers x.

(** One run of [_pipe_buffer_put]. *)
Lemma put_run_spec m x (src n done : Z) :
  ring_wf x -> 0 <= done <= n -> disjoint (buf x) (size x) src n ->
  let c := ((size x - bytes_used x) `min` (size x - write_index x)) `min` (n - done) in
  exists m' x', put_run m x src n done = (m', x', done + c) /\ 0 <= c /\ ring_wf x' /\ same_pipe x x' /\
    bytes_used x' = bytes_used x + c /\ (c = n - done \/ bytes_used x' = size x \/ write_index x' = 0) /\
    contents m' x' = contents m x ++ bytes m (src + done) c /\ only m m' (buf x) (size x).
Proof.
  intros [Hu Hr Hw] Hd Hdis c.
  assert (0 <= write_index x /\ write_index x <= size x /\ (0 < size x -> write_index x < size x)) as (Hw0 & Hw1 & Hw2).
  { destruct Hr as [Hr|[Hr0 Hr]]; [rewrite Hw; pose proof (Z.mod_pos_bound (read_index x + bytes_used x) (size x)); lia|].
    rewrite Hr, Hr0 in *. rewrite Zmod_0_r in Hw. lia. }
  assert (0 <= c /\ c <= size x - bytes_used x /\ c <= size x - write_index x /\ c <= n - done) as (Hc0 & Hc1 & Hc2 & Hc3) by (unfold c; lia).
  unfold put_run. destruct (xfer_spec m (buf x + write_index x) ((size x - bytes_used x) `min` (size x - write_index x)) (src + done) (n - done))
    as (m' & -> & Hcp); [lia|lia|unfold disjoint in *; lia|]. fold c in Hcp |- *.
  eexists m', _. split; [done|]. split; [done|].
  split; [|split; [done|split; [done|split; [|split]]]]; cbn [bytes_used size read_index write_index buf readers writers].
  - split; cbn [bytes_used size read_index write_index]; [lia|done|].
    destruct (Z.eqb_spec (write_index x + c) (size x)) as [E|E].
    + destruct Hr as [Hr|[Hr0 Hr]]; [|replace (bytes_used x + c) with 0 by lia; rewrite Hr0, Hr; by rewrite Zmod_0_r].
      rewrite mod_ring in Hw |- * by lia. repeat case_decide; lia.
    + destruct Hr as [Hr|[Hr0 Hr]]; [|lia]. rewrite mod_ring in Hw |- * by lia. repeat case_decide; lia.
  - destruct (Z.eqb_spec (write_index x + c) (size x)) as [E|E]; [by right; right|]. unfold c in *. lia.
  - destruct Hr as [Hr|[Hr0 Hr]].
    2:{ replace c with 0 in * by lia. unfold contents. cbn [bytes_used]. rewrite bytes_0 by lia. rewrite app_nil_r. by rewrite !seqZ_nil by lia. }
    unfold contents. cbn [buf read_index size bytes_used]. rewrite seqZ_app, fmap_app by lia. f_equal.
    + apply list_fmap_ext. intros j i Hi%list_elem_of_lookup_2%elem_of_seqZ. rewrite (Hcp _), decide_False; [done|].
      rewrite mod_ring in Hw |- * by lia. repeat case_decide; lia.
    + unfold bytes. replace (0 + bytes_used x) with (bytes_used x + 0) by lia.
      rewrite <- (fmap_add_seqZ (bytes_used x) 0), <- list_fmap_compose. apply list_fmap_ext.
      intros j i Hi%list_elem_of_lookup_2%elem_of_seqZ. cbn. rewrite (Hcp _), decide_True.
      * f_equal. rewrite mod_ring in Hw |- * by lia. repeat case_decide; lia.
      * rewrite mod_ring in Hw |- * by lia. repeat case_decide; lia.
  - apply (only_wider _ _ (buf x + write_index x) c); [by eapply copied_only|lia|lia].
Qed.

(** [_pipe_buffer_put] appends as many bytes as there is room for. *)
Lemma buffer_put_spec m x (src n : Z) :
  ring_wf x -> 0 <= n -> disjoint (buf x) (size x) src n ->
  let c := (size x - bytes_used x) `min` n in
  exists m' x', _pipe_buffer_put m x src n = (m', x', c) /\ 0 <= c /\ ring_wf x' /\ same_pipe x x' /\
    bytes_used x' = bytes_used x + c /\ contents m' x' = contents m x ++ bytes m src c /\ only m m' (buf x) (size x).
Proof.
  intros Hwf Hn Hd c. unfold _pipe_buffer_put.
  destruct (put_run_spec m x src n 0 Hwf ltac:(lia) Hd) as (m1 & x1 & -> & P1 & P2 & (B1 & S1 & R1 & W1) & P4 & P5 & P6 & P7).
  set (c1 := _ `min` (n - 0)) in *. cbv beta iota. rewrite Z.add_0_l. rewrite <- B1, <- S1 in Hd.
  destruct (put_run_spec m1 x1 src n c1 P2 ltac:(lia) Hd) as (m2 & x2 & -> & Q1 & Q2 & (B2 & S2 & R2 & W2) & Q4 & _ & Q6 & Q7).
  set (c2 := _ `min` (n - c1)) in *. assert (c1 + c2 = c) as Ec.
  { pose proof (rw_used _ P2). rewrite S1 in *. unfold c2 in *. rewrite S1 in *. destruct P5 as [P5|[P5|P5]]; unfold c; lia. }
  rewrite Z.add_0_r in P6. exists m2, x2. rewrite Ec. split; [done|]. split; [lia|]. split; [done|].
  split; [unfold same_pipe; by rewrite B2, S2, R2, W2|]. split; [lia|]. split.
  - rewrite Q6, P6, <- app_assoc. f_equal. rewrite <- Ec, bytes_app by done. f_equal. rewrite B1, S1 in Hd.
    eapply bytes_only; [exact P7|]. unfold disjoint in *. unfold c in *. lia.
  - rewrite B1, S1 in Q7. by eapply only_trans.
Qed.

(** One run of [_pipe_buffer_get]. *)
Lemma get_run_spec m x (dest n done : Z) :
  ring_wf x -> 0 <= done <= n -> disjoint dest n (buf x) (size x) ->
  let c := (n - done) `min` (bytes_used x `min` (size x - read_index x)) in
  exists m' x', get_run m x dest n done = (m', x', done + c) /\ 0 <= c /\ ring_wf x' /\ same_pipe x x' /\
    bytes_used x' = bytes_used x - c /\ (c = n - done \/ bytes_used x' = 0 \/ read_index x' = 0) /\
    contents m x = bytes m' (dest + done) c ++ contents m' x' /\ only m m' (dest + done) c.
Proof.
  intros [Hu Hr Hw] Hd Hdis c.
  assert (0 <= c /\ c <= bytes_used x /\ c <= size x - read_index x /\ c <= n - done) as (Hc0 & Hc1 & Hc2 & Hc3) by (unfold c; lia).
  unfold get_run. destruct (xfer_spec m (dest + done) (n - done) (buf x + read_index x) (bytes_used x `min` (size x - read_index x)))
    as (m' & -> & Hcp); [lia|lia|unfold disjoint in *; lia|]. fold c in Hcp |- *.
  eexists m', _. split; [done|]. split; [done|].
  split; [|split; [done|split; [done|split; [|split]]]]; cbn [bytes_used size read_index write_index buf readers writers].
  - split; cbn [bytes_used size read_index write_index]; [lia| |]; destruct (Z.eqb_spec (read_index x + c) (size x)) as [E|E].
    + lia.
    + lia.
    + rewrite Hw. destruct Hr as [Hr|[Hr0 Hr]]; [|rewrite Hr, !Zmod_0_r; lia]. rewrite !mod_ring by lia. repeat case_decide; lia.
    + rewrite Hw. f_equal. lia.
  - destruct (Z.eqb_spec (read_index x + c) (size x)) as [E|E]; [by right; right|]. unfold c in *. lia.
  - destruct Hr as [Hr|[Hr0 Hr]].
    2:{ replace c with 0 in * by lia. unfold contents. cbn [bytes_used]. rewrite bytes_0 by lia. by rewrite !seqZ_nil by lia. }
    unfold contents. cbn [buf read_index size bytes_used]. rewrite <- (Zplus_minus c (bytes_used x)) at 1. rewrite seqZ_app, fmap_app by lia. f_equal.
    + symmetry. apply list_fmap_ext. intros j i Hi%list_elem_of_lookup_2%elem_of_seqZ. rewrite (Hcp _), decide_True by lia.
      f_equal. rewrite mod_ring by lia. repeat case_decide; lia.
    + replace (0 + c) with (c + 0) by lia.
      rewrite <- (fmap_add_seqZ c 0), <- list_fmap_compose. apply list_fmap_ext.
      intros j i Hi%list_elem_of_lookup_2%elem_of_seqZ. cbn. rewrite (Hcp _), decide_False.
      * f_equal. destruct (Z.eqb_spec (read_index x + c) (size x)); rewrite !mod_ring by lia; repeat case_decide; lia.
      * destruct (Z.eqb_spec (read_index x + c) (size x)); rewrite !mod_ring by lia; unfold disjoint in *; repeat case_decide; lia.
  - by eapply copied_only.
Qed.

(** [_pipe_buffer_get] takes as many bytes as there are, the oldest first. *)
Lemma buffer_get_spec m x (dest n : Z) :
  ring_wf x -> 0 <= n -> disjoint dest n (buf x) (size x) ->
  let c := bytes_used x `min` n in
  exists m' x', _pipe_buffer_get m x dest n = (m', x', c) /\ 0 <= c /\ ring_wf x' /\ same_pipe x x' /\
    bytes_used x' = bytes_used x - c /\ contents m x = bytes m' dest c ++ contents m' x' /\ only m m' dest c.
Proof.
  intros Hwf Hn Hd c. unfold _pipe_buffer_get.
  destruct (get_run_spec m x dest n 0 Hwf ltac:(lia) Hd) as (m1 & x1 & -> & P1 & P2 & (B1 & S1 & R1 & W1) & P4 & P5 & P6 & P7).
  set (c1 := (n - 0) `min` _) in *. cbv beta iota. rewrite Z.add_0_l. rewrite <- B1, <- S1 in Hd.
  destruct (get_run_spec m1 x1 dest n c1 P2 ltac:(lia) Hd) as (m2 & x2 & -> & Q1 & Q2 & (B2 & S2 & R2 & W2) & Q4 & _ & Q6 & Q7).
  set (c2 := (n - c1) `min` _) in *. assert (c1 + c2 = c) as Ec.
  { pose proof (rw_used _ P2). pose proof (rw_used _ Hwf). unfold c2 in *. rewrite S1 in *. destruct P5 as [P5|[P5|P5]]; unfold c; lia. }
  rewrite Z.add_0_r in P6, P7. exists m2, x2. rewrite Ec. split; [done|]. split; [lia|]. split; [done|].
  split; [unfold same_pipe; by rewrite B2, S2, R2, W2|]. split; [lia|]. split.
  - rewrite P6, Q6, app_assoc. f_equal. rewrite <- Ec, bytes_app by done. f_equal. symmetry.
    eapply bytes_only; [exact Q7|]. unfold disjoint. lia.
  - apply (only_trans _ m1); eapply only_wider; [exact P7|lia|lia|exact Q7|lia|lia].
Qed.

End Ring.

(** ** Threads that wait *)

Section Waiting.
Context `{KConfig}.
Implicit Types (s : state) (m : LibC.memory) (t u : tid) (l full rest : list tid).

(** where the descriptor of [t] is, and what it asks for *)
Definition at_ s t : Z := swap_data (thr (ker s) t).
Definition want s t : Z := bytes_to_xfer (desc_of s t).

Fixpoint need s l : Z := match l with [] => 0 | t :: l => want s t + need s l end.

(** The two states agree on the requests of the threads in [l]. *)
Definition same_requests s s' l : Prop := forall t, t ∈ l -> at_ s' t = at_ s t /\ desc_of s' t = desc_of s t.

Lemma need_same s s' l : same_requests s s' l -> need s' l = need s l.
Proof.
  induction l as [|t l IH]; intros Hs; [done|]. cbn. unfold want. rewrite (proj2 (Hs t ltac:(left))). rewrite IH; [done|].
  intros u Hu. apply Hs. by right.
Qed.

Lemma need_app s l l' : need s (l ++ l') = need s l + need s l'.
Proof. induction l as [|t l IH]; cbn; [done|]. rewrite IH. lia. Qed.

Lemma need_nonneg s l : (forall t, t ∈ l -> 0 <= want s t) -> 0 <= need s l.
Proof.
  induction l as [|t l IH]; intros Hw; cbn; [done|]. pose proof (Hw t ltac:(left)). pose proof (IH ltac:(intros u Hu; apply Hw; by right)). lia.
Qed.

Lemma parked_swap_data k t u : swap_data (thr (parked k t) u) = swap_data (thr k u).
Proof.
  rewrite parked_fields. unfold thr at 1. cbn [threads set_timeouts set_timeout_q set_threads].
  destruct (decide (u = t)) as [->|]; [by rewrite lookup_total_insert_eq|by rewrite lookup_total_insert_ne].
Qed.

Lemma parked_requests s t l : same_requests s (set_ker s (parked (ker s) t)) l.
Proof. intros u _. unfold at_, desc_of. cbn [ker set_ker]. by rewrite parked_swap_data. Qed.

Lemma take_waiting_spec l : forall fuel s q (bytes n : Z) acc,
  queues (ker s) !!! q = l -> NoDup l -> (length l <= fuel)%nat -> (forall t, t ∈ l -> 0 <= want s t) ->
  0 <= n <= bytes -> n + need s l < 2 ^ 32 ->
  exists full rest, l = full ++ rest /\
    take_waiting fuel s q bytes n acc = (set_ker s (parked_all (ker s) full), acc ++ full, head rest) /\
    n + need s full <= bytes /\ (forall t, head rest = Some t -> bytes < n + need s full + want s t).
Proof.
  induction l as [|t l IH]; intros fuel s q bytes n acc Hq Hnd Hf Hw Hn Hov.
  { exists [], []. split; [done|]. rewrite app_nil_r. split; [|by split; [cbn; lia|]].
    destruct fuel; cbn [take_waiting]; [by destruct s|]. unfold Lst.peek_head. rewrite Hq. by destruct s. }
  destruct fuel as [|fuel]; [cbn in Hf; lia|]. cbn [take_waiting]. unfold Lst.peek_head. rewrite Hq. cbn [head].
  pose proof (Hw t ltac:(left)) as Hwt. cbn [need] in Hov. fold (want s t).
  pose proof (need_nonneg s l ltac:(intros u Hu; apply Hw; by right)) as Hnn. rewrite u32_small by lia.
  destruct (Z.gtb_spec (n + want s t) bytes) as [Hgt|Hle].
  { exists [], (t :: l). split; [done|]. rewrite app_nil_r. split; [by destruct s|]. split; [cbn; lia|]. intros u [= <-]. cbn. lia. }
  fold (parked (ker s) t). set (s1 := set_ker s (parked (ker s) t)). apply NoDup_cons in Hnd as [Ht Hnd].
  pose proof (parked_requests s t l) as Hr. fold s1 in Hr.
  destruct (IH fuel s1 q bytes (n + want s t) (acc ++ [t])) as (full & rest & El & Et & H1 & H2).
  - unfold s1. cbn [ker set_ker]. rewrite parked_fields. cbn [queues set_timeouts set_timeout_q set_threads set_queues].
    rewrite Lst.lookup_remove, Hq. by apply (filter_ne_split t [] l), NoDup_cons.
  - done.
  - cbn in Hf. lia.
  - intros u Hu. unfold want. rewrite (proj2 (Hr u Hu)). apply Hw. by right.
  - lia.
  - rewrite (need_same _ _ _ Hr). lia.
  - exists (t :: full), rest. split; [cbn; congruence|]. split; [rewrite Et, <- app_assoc; done|].
    assert (same_requests s s1 full) as Hrf by (intros u Hu; apply Hr; rewrite El; apply elem_of_app; by left).
    rewrite (need_same _ _ _ Hrf) in H1, H2. cbn [need]. split; [lia|]. intros u Hu. specialize (H2 u Hu). unfold want in *.
    rewrite (proj2 (Hr u ltac:(rewrite El; apply elem_of_app; right; destruct rest; simplify_eq/=; left))) in H2. lia.
Qed.

(** ** Direct copies *)

(** The buffer of [t] does not overlap the [n] bytes at [a]. *)
Definition clear_of s (a n : Z) t : Prop := disjoint (buffer (desc_of s t)) (want s t) a n.

(** Different threads have different descriptors and buffers. *)
Fixpoint separate s l : Prop :=
  match l with
  | [] => True
  | t :: l => (forall u, u ∈ l -> clear_of s (buffer (desc_of s u)) (want s u) t /\ at_ s t <> at_ s u) /\ separate s l
  end.

Lemma separate_same s s' l : same_requests s s' l -> separate s l -> separate s' l.
Proof.
  induction l as [|t l IH]; intros Hr; cbn; [done|]. intros [H1 H2]. split.
  - intros u Hu. unfold clear_of, want. rewrite (proj2 (Hr t ltac:(left))), (proj2 (Hr u ltac:(by right))).
    rewrite (proj1 (Hr t ltac:(left))), (proj1 (Hr u ltac:(by right))). by apply H1.
  - apply IH; [|done]. intros u Hu. apply Hr. by right.
Qed.

Lemma separate_app s l l' :
  separate s (l ++ l') <-> separate s l /\ separate s l' /\
    forall t u, t ∈ l -> u ∈ l' -> clear_of s (buffer (desc_of s u)) (want s u) t /\ at_ s t <> at_ s u.
Proof.
  induction l as [|t l IH]; cbn; [split; [intros Hs; split_and!; [done|done|intros t u []%elem_of_nil]|tauto]|]. rewrite IH. split.
  - intros [H1 (H2 & H3 & H4)]. split_and!; [intros u Hu; apply H1, elem_of_app; by left|done|done|].
    intros v u [->|Hv]%elem_of_cons Hu; [apply H1, elem_of_app; by right|by apply H4].
  - intros ([H1 H2] & H3 & H4). split_and!; [|done|done|intros v u Hv Hu; apply H4; [by right|done]].
    intros u [Hu|Hu]%elem_of_app; [by apply H1|apply H4; [left|done]].
Qed.

(** [m'] differs from [m] in the buffers of the threads in [l] only. *)
Definition only_in s l m m' : Prop :=
  forall q, (forall t, t ∈ l -> ~ buffer (desc_of s t) <= q < buffer (desc_of s t) + want s t) -> LibC.ld8 m' q = LibC.ld8 m q.

Lemma only_in_bytes s l m m' (a n : Z) : only_in s l m m' -> (forall t, t ∈ l -> clear_of s a n t) -> bytes m' a n = bytes m a n.
Proof. intros Ho Hc. apply bytes_ext. intros i Hi. apply Ho. intros t Ht Hq. destruct (Hc t Ht); lia. Qed.

(** What the threads in [l] have in their buffers, one after the other. *)
Fixpoint gathered s m l : list Z :=
  match l with [] => [] | t :: l => bytes m (buffer (desc_of s t)) (want s t) ++ gathered s m l end.

Lemma gathered_same s s' m l : same_requests s s' l -> gathered s' m l = gathered s m l.
Proof.
  induction l as [|t l IH]; intros Hr; [done|]. cbn. unfold want. rewrite (proj2 (Hr t ltac:(left))). f_equal. apply IH.
  intros u Hu. apply Hr. by right.
Qed.

Lemma gathered_only s m m' l (a n : Z) :
  only m m' a n -> (forall t, t ∈ l -> clear_of s a n t) -> gathered s m' l = gathered s m l.
Proof.
  intros Ho. induction l as [|u l IH]; intros Hc; [done|]. cbn [gathered]. f_equal.
  - eapply bytes_only; [exact Ho|]. specialize (Hc u ltac:(left)). unfold clear_of, disjoint in *. lia.
  - apply IH. intros v Hv. apply Hc. by right.
Qed.

Lemma copy_to_spec s t (data total n : Z) :
  0 <= want s t -> 0 <= n <= total -> clear_of s data total t ->
  let c := want s t `min` (total - n) in
  exists m', copy_to s t data total n = (set_desc (set_mem s m') (at_ s t) (advance (desc_of s t) c), n + c) /\
    bytes m' (buffer (desc_of s t)) c = bytes (mem s) (data + n) c /\ only (mem s) m' (buffer (desc_of s t)) c.
Proof.
  intros Hw Hn Hd c. unfold copy_to. fold (want s t).
  destruct (xfer_spec (mem s) (buffer (desc_of s t)) (want s t) (data + n) (total - n)) as (m' & -> & Hc);
    [done|lia|unfold clear_of, disjoint in *; lia|].
  exists m'. split; [done|]. split; [by apply copied_bytes|by eapply copied_only].
Qed.

Lemma copied_requests s m' t d l :
  (forall u, u ∈ l -> at_ s t <> at_ s u) -> same_requests s (set_desc (set_mem s m') (at_ s t) d) l.
Proof.
  intros Hne u Hu. split; [done|]. unfold desc_of, desc. cbn [ker descs set_desc set_mem].
  rewrite lookup_total_insert_ne; [done|]. by apply Hne.
Qed.

Lemma readied_requests s t l : same_requests s (set_ker s (_ready_thread (ker s) t)) l.
Proof.
  intros u _. assert (swap_data (thr (_ready_thread (ker s) t) u) = swap_data (thr (ker s) u)) as E
    by (rewrite ready_thread_thr; by destruct (decide (u = t)) as [->|]).
  unfold at_, desc_of. cbn [ker set_ker]. by rewrite E.
Qed.

Lemma same_requests_trans s s1 s2 l : same_requests s s1 l -> same_requests s1 s2 l -> same_requests s s2 l.
Proof. intros H1 H2 t Ht. destruct (H1 t Ht), (H2 t Ht). split; congruence. Qed.

(** Nothing but the memory, descriptors and the kernel differ. *)
Definition same_objects s s' : Prop :=
  pools s' = pools s /\ pipes s' = pipes s /\ sems s' = sems s /\ pipe_async_msgs s' = pipe_async_msgs s.

(** The requests of the threads in [l] have been met, and no others changed. *)
Record met s s' l : Prop := {
  me_done : forall t, t ∈ l -> desc s' (at_ s t) = advance (desc_of s t) (want s t);
  me_others : forall a, (forall t, t ∈ l -> a <> at_ s t) -> desc s' a = desc s a
}.

Lemma met_requests s s' l l' :
  met s s' l -> (forall t u, t ∈ l -> u ∈ l' -> at_ s t <> at_ s u) -> (forall u, u ∈ l' -> at_ s' u = at_ s u) -> same_requests s s' l'.
Proof.
  intros [_ H2] Hne Hat u Hu. split; [by apply Hat|]. unfold desc_of. fold (at_ s u) (at_ s' u). rewrite Hat by done.
  apply H2. intros t Ht. apply not_eq_sym. by apply Hne.
Qed.

Lemma serve_readers_spec l : forall s (data total n : Z),
  separate s l -> (forall t, t ∈ l -> 0 <= want s t /\ clear_of s data total t) -> 0 <= n -> n + need s l <= total ->
  exists s', serve_readers s l data total n = (s', n + need s l) /\ ker s' = readied_all (ker s) l /\ same_objects s s' /\ met s s' l /\
    gathered s (mem s') l = bytes (mem s) (data + n) (need s l) /\ only_in s l (mem s) (mem s').
Proof.
  induction l as [|t l IH]; intros s data total n Hsep Hl Hn Hle.
  { exists s. split; [cbn; f_equal; lia|]. split_and!; try done. split; [intros t []%elem_of_nil|done]. }
  destruct Hsep as [Hs1 Hs2]. destruct (Hl t ltac:(left)) as [Hwt Hct]. cbn [need] in Hle |- *.
  pose proof (need_nonneg s l ltac:(intros u Hu; apply Hl; by right)) as Hnn.
  destruct (copy_to_spec s t data total n Hwt ltac:(lia) Hct) as (m1 & Ec & Hb & Ho). rewrite Z.min_l in Ec, Hb, Ho by lia.
  cbn [serve_readers]. rewrite Ec. set (s1 := set_desc _ _ _). cbn [ker set_desc set_mem]. change (ker s1) with (ker s).
  set (s2 := set_ker s1 (_ready_thread (ker s) t)).
  assert (same_requests s s2 l) as Hr.
  { eapply same_requests_trans; [apply copied_requests; intros u Hu; by apply Hs1|]. fold s1. apply (readied_requests s1 t l). }
  destruct (IH s2 data total (n + want s t)) as (s' & E & Ek & Eo & Em & Hg & Hoi).
  - by eapply separate_same.
  - intros u Hu. unfold clear_of, want. rewrite (proj2 (Hr u Hu)). apply Hl. by right.
  - lia.
  - rewrite (need_same _ _ _ Hr). lia.
  - exists s'. rewrite E, (need_same _ _ _ Hr). split; [f_equal; lia|]. split; [done|]. split; [done|].
    rewrite (need_same _ _ _ Hr), (gathered_same _ _ _ _ Hr) in Hg.
    assert (bytes (mem s') (buffer (desc_of s t)) (want s t) = bytes m1 (buffer (desc_of s t)) (want s t)) as Et.
    { apply (only_in_bytes s2 l); [exact Hoi|]. intros u Hu. unfold clear_of, want. rewrite (proj2 (Hr u Hu)).
      destruct (Hs1 u Hu) as [Hd _]. unfold clear_of, want, disjoint in *. lia. }
    split; [split|split].
    + intros u [->|Hu]%elem_of_cons.
      * rewrite (me_others _ _ _ Em) by (intros v Hv; rewrite (proj1 (Hr v Hv)); by apply Hs1).
        unfold desc. cbn [descs s2 s1 set_ker set_desc]. by rewrite lookup_total_insert_eq.
      * destruct (Hr u Hu) as [Ea Ed]. rewrite <- Ea, <- Ed, (me_done _ _ _ Em u Hu). unfold want. by rewrite Ed.
    + intros a Ha. rewrite (me_others _ _ _ Em) by (intros v Hv; rewrite (proj1 (Hr v Hv)); apply Ha; by right).
      unfold desc. cbn [descs s2 s1 set_ker set_desc set_mem]. rewrite lookup_total_insert_ne; [done|]. apply not_eq_sym, Ha. left.
    + cbn [gathered]. rewrite Et, Hb, Hg, bytes_app by done. f_equal. rewrite Z.add_assoc. change (mem s2) with m1.
      eapply bytes_only; [exact Ho|]. unfold clear_of, disjoint in *. lia.
    + intros q Hq. rewrite Hoi; [|intros u Hu; unfold want; rewrite (proj2 (Hr u Hu)); apply Hq; by right].
      change (mem s2) with m1. apply Ho, Hq. left.
Qed.

(** What readers have been given: those in [full] all they asked for, and the one
    that stays in front of the queue [part] bytes. *)
Definition taken s m full rest (part : Z) : list Z :=
  gathered s m full ++ match head rest with Some t => bytes m (buffer (desc_of s t)) part | None => [] end.

(** The descriptors after that. *)
Record given s s' full rest (part : Z) : Prop := {
  gv_full : forall t, t ∈ full -> desc s' (at_ s t) = advance (desc_of s t) (want s t);
  gv_part : forall t, head rest = Some t -> desc s' (at_ s t) = advance (desc_of s t) part;
  gv_others : forall a, (forall t, t ∈ full -> a <> at_ s t) -> (forall t, head rest = Some t -> a <> at_ s t) -> desc s' a = desc s a
}.

Lemma head_elem full rest t : head rest = Some t -> t ∈ full ++ rest.
Proof. intros Hh. apply elem_of_app. right. destruct rest; simplify_eq/=. left. Qed.

Lemma readied_swap_data l : forall k u, swap_data (thr (readied_all k l) u) = swap_data (thr k u).
Proof.
  induction l as [|t l IH]; intros k u; [done|]. change (readied_all k (t :: l)) with (readied_all (_ready_thread k t) l).
  rewrite IH, ready_thread_thr. by destruct (decide (u = t)) as [->|].
Qed.

(** The direct copies of a write. *)
Lemma direct_copies_spec s full rest (data total : Z) :
  separate s (full ++ rest) -> (forall t, t ∈ full ++ rest -> 0 <= want s t /\ clear_of s data total t) ->
  need s full <= total -> (forall t, head rest = Some t -> total < need s full + want s t) ->
  let part := total - need s full in
  let '(s1, n1) := serve_readers s full data total 0 in
  let '(s2, n2) := match head rest with Some t => copy_to s1 t data total n1 | None => (s1, n1) end in
  n2 = match head rest with Some _ => total | None => need s full end /\
  ker s2 = readied_all (ker s) full /\ same_objects s s2 /\ given s s2 full rest part /\
  taken s (mem s2) full rest part = bytes (mem s) data n2 /\ only_in s (full ++ rest) (mem s) (mem s2).
Proof.
  intros Hsep Hl Hle Hrest part. apply separate_app in Hsep as (Hs1 & Hs2 & Hs3).
  assert (forall t, t ∈ full -> 0 <= want s t /\ clear_of s data total t) as Hlf by (intros t Ht; apply Hl, elem_of_app; by left).
  pose proof (need_nonneg s full ltac:(intros t Ht; by apply Hlf)) as Hnn.
  destruct (serve_readers_spec full s data total 0 Hs1 Hlf ltac:(done) ltac:(lia)) as (s1 & -> & Ek & Eo & Em & Hg & Hoi).
  rewrite Z.add_0_l, Z.add_0_r in *. destruct (head rest) as [t|] eqn:Eh.
  2:{ split; [done|]. split; [done|]. split; [done|]. unfold taken. rewrite Eh, app_nil_r. split; [|split; [done|]].
      - split; [apply Em|by rewrite Eh|]. intros a Ha _. by apply Em.
      - intros q Hq. apply Hoi. intros u Hu. apply Hq, elem_of_app. by left. }
  assert (t ∈ rest) as Htr by (destruct rest; simplify_eq/=; left). destruct (Hl t) as [Hwt Hct]; [apply elem_of_app; by right|].
  assert (same_requests s s1 rest) as Hr.
  { apply (met_requests _ _ _ _ Em); [intros u v Hu Hv; by apply Hs3|]. intros u _. unfold at_. by rewrite Ek, readied_swap_data. }
  destruct (Hr t Htr) as [Ea Ed]. specialize (Hrest t eq_refl).
  destruct (copy_to_spec s1 t data total (need s full)) as (m2 & -> & Hb & Ho);
    [unfold want; by rewrite Ed|lia|unfold clear_of, want; by rewrite Ed|].
  assert (want s1 t = want s t) as Ew by (unfold want; by rewrite Ed). rewrite Ew, Ed, Ea in *. rewrite Z.min_r in * by lia. fold part in Ho, Hb |- *.
  assert (forall u, u ∈ full -> clear_of s (buffer (desc_of s t)) part u) as Hcu.
  { intros u Hu. destruct (Hs3 u t Hu Htr) as [Hd _]. unfold clear_of, disjoint, part in *. lia. }
  split; [unfold part; lia|]. split; [done|]. split; [done|]. split; [split|split].
  - intros u Hu. unfold desc. cbn [descs set_desc set_mem]. rewrite lookup_total_insert_ne; [by apply Em|]. apply not_eq_sym. by apply Hs3.
  - rewrite Eh. intros u [= <-]. unfold desc. cbn [descs set_desc]. by rewrite lookup_total_insert_eq.
  - rewrite Eh. intros a Ha Hat. unfold desc. cbn [descs set_desc set_mem]. rewrite lookup_total_insert_ne; [by apply Em|].
    by apply not_eq_sym, Hat.
  - unfold taken. rewrite Eh. cbn [mem set_desc set_mem]. 
    rewrite bytes_app, Hb by (unfold part; lia). f_equal.
    + rewrite <- Hg. by eapply gathered_only.
    + apply (only_in_bytes s full); [done|]. intros u Hu. destruct (Hlf u Hu) as [_ Hd]. unfold clear_of, disjoint, part in *. lia.
  - intros q Hq. cbn [mem set_desc set_mem]. rewrite Ho, Hoi; [done| |].
    + intros u Hu. apply Hq, elem_of_app. by left.
    + intros Hin. apply (Hq t); [apply elem_of_app; by right|]. unfold part in Hin. lia.
Qed.

Lemma contents_same m m' x :
  ring_wf x -> (forall q, buf x <= q < buf x + size x -> LibC.ld8 m' q = LibC.ld8 m q) -> contents m' x = contents m x.
Proof.
  intros [Hu Hr _] He. unfold contents. apply list_fmap_ext. intros j i Hi%list_elem_of_lookup_2%elem_of_seqZ. apply He.
  pose proof (Z.mod_pos_bound (read_index x + i) (size x)). lia.
Qed.

(** The areas of memory a transfer uses do not overlap. *)
Record areas_ok s (x : k_pipe) l (data total : Z) : Prop := {
  wo_ring : ring_wf x;
  wo_separate : separate s l;
  wo_want : forall t, t ∈ l -> 0 <= want s t;
  wo_data : forall t, t ∈ l -> clear_of s data total t;
  wo_buf : forall t, t ∈ l -> clear_of s (buf x) (size x) t;
  wo_disjoint : disjoint (buf x) (size x) data total;
  wo_total : 0 <= total
}.

(** The outcome of the copies of a write: the first [n] bytes of the data are, in
    order, what the readers have been given and what is new in the ring buffer. *)
Record written s s' p full rest (data total n : Z) : Prop := {
  wr_count : n = total `min` (need s (full ++ rest) + (size (pipes s !!! p) - bytes_used (pipes s !!! p)));
  wr_ring : ring_wf (pipes s' !!! p);
  wr_pipe : same_pipe (pipes s !!! p) (pipes s' !!! p);
  wr_stream : exists new, contents (mem s') (pipes s' !!! p) = contents (mem s) (pipes s !!! p) ++ new /\
    taken s (mem s') full rest (total - need s full) ++ new = bytes (mem s) data n;
  wr_used : bytes_used (pipes s' !!! p) = bytes_used (pipes s !!! p) + (n - match head rest with Some _ => total | None => need s full end);
  wr_given : given s s' full rest (total - need s full)
}.

Lemma write_all_spec s p full rest (data total : Z) :
  areas_ok s (pipes s !!! p) (full ++ rest) data total ->
  need s full <= total -> (forall t, head rest = Some t -> total < need s full + want s t) ->
  exists s' n, write_all s p full (head rest) data total = (s', n) /\ ker s' = readied_all (ker s) full /\
    written s s' p full rest data total n.
Proof.
  intros [Hwf Hsep Hw Hd Hb Hdis H0] Hle Hrest. unfold write_all. set (x := pipes s !!! p) in *.
  pose proof (need_nonneg s full ltac:(intros t Ht; apply Hw, elem_of_app; by left)) as Hnn.
  pose proof (direct_copies_spec s full rest data total Hsep ltac:(auto) Hle Hrest) as Hdc. cbv zeta in Hdc.
  destruct (serve_readers s full data total 0) as [s1 n1].
  destruct (match head rest with Some t => copy_to s1 t data total n1 | None => (s1, n1) end) as [s2 n2].
  destruct Hdc as (En & Ek & (_ & Ep & _ & _) & Hgv & Hst & Hoi). rewrite Ep. fold x.
  assert (0 <= n2 <= total) as Hn2 by (rewrite En; destruct (head rest); lia).
  destruct (buffer_put_spec (mem s2) x (data + n2) (total - n2)) as (m3 & x3 & -> & Hc & Hwf3 & Hsp & Hu3 & Hct & Ho3);
    [done|lia|unfold disjoint in *; lia|]. set (c := _ `min` _) in *.
  eexists _, _. split; [done|]. split; [done|].
  assert (pipes (set_pipe (set_mem s2 m3) p x3) !!! p = x3) as Ex by (cbn; apply lookup_total_insert_eq).
  assert (forall t, t ∈ full ++ rest -> clear_of s (data + n2) c t) as Hdc.
  { intros t Ht. specialize (Hd t Ht). unfold clear_of, disjoint, c in *. lia. }
  split; rewrite ?Ex; try done; fold x.
  - pose proof (rw_used _ Hwf). pose proof (need_nonneg s rest ltac:(intros t Ht; apply Hw, elem_of_app; by right)) as Hnr.
    rewrite need_app. unfold c. rewrite En. clear c Hdc Hc Hu3 Hct. destruct rest as [|t rest]; cbn [head need] in *; [lia|].
    specialize (Hrest t eq_refl). pose proof (need_nonneg s rest ltac:(intros u Hu; apply Hw, elem_of_app; right; by right)). lia.
  - exists (bytes (mem s2) (data + n2) c). cbn [mem set_pipe set_mem]. rewrite Hct. split.
    + f_equal. apply contents_same; [done|]. intros q Hq. apply Hoi. intros t Ht Hin. destruct (Hb t Ht); lia.
    + rewrite bytes_app by lia. f_equal.
      * rewrite <- Hst. unfold taken. f_equal.
        -- eapply gathered_only; [exact Ho3|]. intros t Ht. apply Hb, elem_of_app. by left.
        -- destruct (head rest) as [t|] eqn:Eh; [|done]. eapply bytes_only; [exact Ho3|].
           pose proof (Hb t (head_elem full _ _ Eh)) as Hbt. specialize (Hrest t eq_refl). unfold clear_of, disjoint in *. lia.
      * by eapply only_in_bytes.
  - rewrite Hu3. fold x. rewrite <- En. lia.
  - destruct Hgv as [G1 G2 G3]. by split.
Qed.

(** ** The working set *)

Lemma count_waiting_spec s (b : Z) l : forall n,
  (forall t, t ∈ l -> 0 <= want s t) -> 0 <= n -> n + need s l < 2 ^ 32 ->
  n <= count_waiting s l b n <= n + need s l /\ (b <= count_waiting s l b n \/ count_waiting s l b n = n + need s l).
Proof.
  induction l as [|t l IH]; intros n Hw Hn Hov; cbn [count_waiting need]; [lia|].
  pose proof (Hw t ltac:(left)) as Hwt. pose proof (need_nonneg s l ltac:(intros u Hu; apply Hw; by right)) as Hnn.
  cbn [need] in Hov. fold (want s t). rewrite u32_small by lia. destruct (Z.geb_spec (n + want s t) b) as [Hge|Hlt]; [lia|].
  specialize (IH (n + want s t) ltac:(intros u Hu; apply Hw; by right) ltac:(lia) ltac:(lia)). lia.
Qed.

Lemma prepare_spec s q (space b min_xfer timeout : Z) :
  let l := queues (ker s) !!! q in
  NoDup l -> (forall t, t ∈ l -> 0 <= want s t) -> 0 <= space -> min_xfer <= b -> 0 <= b -> need s l + space < 2 ^ 32 ->
  if (timeout =? K_NO_WAIT) && (need s l + space <? min_xfer) then _pipe_xfer_prepare s q space b min_xfer timeout = None
  else exists full rest, l = full ++ rest /\
    _pipe_xfer_prepare s q space b min_xfer timeout = Some (set_ker s (parked_all (ker s) full), full, head rest) /\
    need s full <= b /\ (forall t, head rest = Some t -> b < need s full + want s t).
Proof.
  intros l Hnd Hw Hsp Hm Hb Hov. unfold _pipe_xfer_prepare. fold l.
  destruct (count_waiting_spec s b l 0 Hw ltac:(lia) ltac:(lia)) as [Hc1 Hc2]. set (c := count_waiting s l b 0) in *.
  rewrite u32_small by lia.
  assert ((c + space <? min_xfer) = (need s l + space <? min_xfer)) as ->.
  { destruct (Z.ltb_spec (c + space) min_xfer), (Z.ltb_spec (need s l + space) min_xfer); lia. }
  destruct (_ && _); [done|].
  destruct (take_waiting_spec l (length l) s q b 0 [] eq_refl Hnd (Nat.le_refl _) Hw ltac:(lia) ltac:(lia)) as (full & rest & El & -> & H1 & H2).
  exists full, rest. split; [done|]. split; [done|]. split; [lia|]. intros t Ht. specialize (H2 t Ht). lia.
Qed.

(** The kernel when the readers or writers in [full] have been served, with the
    scheduler still locked. *)
Definition served_kernel (k : kernel) full : kernel := _sched_lock (woken_all k full).

Lemma serve_locked k full :
  kinv None [] k -> NoDup full -> (forall t, t ∈ full -> _is_thread_pending k t = true) -> current k ∉ full ->
  readied_all (_sched_lock (parked_all k full)) full = served_kernel k full.
Proof.
  intros Hk Hnd Hp Hc. unfold served_kernel, _sched_lock. rewrite parked_all_current.
  rewrite readied_upd_other by done. rewrite batch by done.
  by rewrite (proj1 (proj1 (proj2 (woken_all_spec full k Hk Hnd Hp)))).
Qed.

Lemma served_spec k full w :
  sys_inv k -> (exists rest, queues k !!! WQ w = full ++ rest) ->
  kinv None [] (served_kernel k full) /\ current (served_kernel k full) = current k /\
  _is_thread_ready (served_kernel k full) (current k) = true /\ readied_all (_sched_lock (parked_all k full)) full = served_kernel k full /\
  (forall t, t ∈ full -> _is_thread_pending (served_kernel k full) t = false) /\
  (forall u, prio (thr (served_kernel k full) u) = prio (thr k u)) /\
  (forall w', queues (served_kernel k full) !!! WQ w' = filter (fun u => u ∉ full) (queues k !!! WQ w')).
Proof.
  intros Hs [rest Hq]. pose proof (ri_nodup _ _ (si_rq _ _ (ki_sched _ _ _ (sy_kinv _ Hs))) (WQ w)) as Hnd.
  rewrite Hq in Hnd. apply NoDup_app in Hnd as (Hnd & _ & _).
  assert (forall t, t ∈ full -> current k <> t /\ _is_thread_pending k t = true) as Hw.
  { intros t Ht. apply (waiter_not_current k w); [done|]. rewrite Hq. apply elem_of_app. by left. }
  assert (forall t, t ∈ full -> _is_thread_pending k t = true) as Hp by (intros t Ht; by apply Hw).
  assert (current k ∉ full) as Hc by (intros Hin; by apply (proj1 (Hw _ Hin))).
  destruct (woken_all_spec full k (sy_kinv _ Hs) Hnd Hp) as (W1 & (W2 & _ & _ & W3) & W4 & _ & W5 & W6).
  pose proof (serve_locked k full (sy_kinv _ Hs) Hnd Hp Hc) as Hsl. unfold served_kernel, _sched_lock in Hsl |- *. rewrite W2 in Hsl |- *. split_and!.
  - by apply kinv_upd_other.
  - done.
  - etransitivity; [apply ready_ext|apply W3, Hs]; [|done]. by rewrite thr_upd_same.
  - exact Hsl.
  - intros t Ht. etransitivity; [apply pending_ext|by apply W4]. rewrite thr_upd_thread. by destruct (decide _) as [->|].
  - intros u. rewrite thr_upd_thread, <- W5. by destruct (decide _) as [->|].
  - done.
Qed.

Lemma served_ready k full w t :
  sys_inv k -> (exists rest, queues k !!! WQ w = full ++ rest) -> t ∈ full -> may_run k t -> _is_thread_ready (served_kernel k full) t = true.
Proof.
  intros Hs [rest Hq] Ht Hm. pose proof (ri_nodup _ _ (si_rq _ _ (ki_sched _ _ _ (sy_kinv _ Hs))) (WQ w)) as Hnd.
  rewrite Hq in Hnd. apply NoDup_app in Hnd as (Hnd & _ & _).
  destruct (woken_all_ready full k (sy_kinv _ Hs) Hnd) as [Hr _].
  { intros u Hu. apply (waiter_not_current k w); [done|]. rewrite Hq. apply elem_of_app. by left. }
  rewrite <- (Hr t Ht Hm). unfold served_kernel, _sched_lock. apply ready_ext; [|done]. rewrite thr_upd_thread. by destruct (decide _) as [->|].
Qed.

(** ** Moving between states with the same requests *)

Lemma areas_ok_same s s' x l (data total : Z) : same_requests s s' l -> areas_ok s x l data total -> areas_ok s' x l data total.
Proof.
  intros Hr [W1 W2 W3 W4 W5 W6 W7]. split; [done|by eapply separate_same| | | |done|done];
    intros t Ht; unfold clear_of, want; rewrite (proj2 (Hr t Ht)); first [by apply W3|by apply W4|by apply W5].
Qed.

Lemma taken_same s s' m full rest (part : Z) : same_requests s s' (full ++ rest) -> taken s' m full rest part = taken s m full rest part.
Proof.
  intros Hr. unfold taken. f_equal; [apply gathered_same; intros t Ht; apply Hr, elem_of_app; by left|].
  destruct (head rest) as [t|] eqn:Eh; [|done]. by rewrite (proj2 (Hr t (head_elem full _ _ Eh))).
Qed.

Lemma given_same s s0 s' full rest (part : Z) :
  same_requests s s0 (full ++ rest) -> (forall a, desc s0 a = desc s a) -> given s0 s' full rest part -> given s s' full rest part.
Proof.
  intros Hr Hd [G1 G2 G3]. split.
  - intros t Ht. destruct (Hr t ltac:(apply elem_of_app; by left)) as [Ea Ed]. specialize (G1 t Ht). unfold want in *. by rewrite Ea, Ed in G1.
  - intros t Ht. destruct (Hr t (head_elem full _ _ Ht)) as [Ea Ed]. specialize (G2 t Ht). by rewrite Ea, Ed in G2.
  - intros a H1 H2. rewrite <- Hd. apply G3.
    + intros t Ht. rewrite (proj1 (Hr t ltac:(apply elem_of_app; by left))). by apply H1.
    + intros t Ht. rewrite (proj1 (Hr t (head_elem full _ _ Ht))). by apply H2.
Qed.

Lemma kernel_requests s k l : (forall u, swap_data (thr k u) = swap_data (thr (ker s) u)) -> same_requests s (set_ker s k) l.
Proof. intros He t _. unfold at_, desc_of. cbn [ker set_ker]. by rewrite He. Qed.

Lemma locked_swap_data k full u : swap_data (thr (_sched_lock (parked_all k full)) u) = swap_data (thr k u).
Proof.
  unfold _sched_lock. rewrite thr_upd_thread.
  assert (forall l k', swap_data (thr (parked_all k' l) u) = swap_data (thr k' u)) as E.
  { induction l as [|t l IH]; intros k'; [done|]. change (parked_all k' (t :: l)) with (parked_all (parked k' t) l).
    by rewrite IH, parked_swap_data. }
  rewrite <- (E full k). by destruct (decide _) as [->|].
Qed.

End Waiting.

(** ** Writing *)

Section Write.
Context `{KConfig}.
Implicit Types (s : state) (t u : tid) (full rest : list tid) (k : kernel).
Variable tf : positive -> toid -> kernel -> kernel.

Lemma unlock_spec k :
  kinv None [] k -> _is_thread_ready k (current k) = true ->
  sys_inv (k_sched_unlock k) /\ queues (k_sched_unlock k) = queues k /\
  (forall t, t <> current k -> thr (k_sched_unlock k) t = thr k t).
Proof.
  intros Hk Hr. unfold k_sched_unlock. set (k1 := upd_thread k (current k) _).
  split; [|split].
  - apply resched_sys; [by apply kinv_upd_other|]. etransitivity; [apply ready_ext|exact Hr]; [|done]. unfold k1. by rewrite thr_upd_same.
  - by rewrite resched_queues.
  - intros t Ht. rewrite resched_thr by (by apply not_eq_sym). unfold k1. by rewrite thr_upd_other.
Qed.

Lemma unlock_ready k t : _is_thread_ready (k_sched_unlock k) t = _is_thread_ready k t.
Proof.
  unfold k_sched_unlock. set (k1 := upd_thread k (current k) _). transitivity (_is_thread_ready k1 t).
  - unfold _reschedule_threads. destruct (_must_switch_threads k1); [apply Swap_ready|done].
  - apply ready_ext; [|done]. unfold k1. rewrite thr_upd_thread. by destruct (decide _) as [->|].
Qed.

(** The current thread waits on the queue of object [w], with the scheduler
    unlocked again. *)
Definition wait_kernel k (a : Z) (q : qid) (timeout : Z) : kernel :=
  _Swap (_pend_current_thread tf (_sched_unlock_no_reschedule (upd_thread k (current k) (with_swap_data a))) q timeout).

Lemma wait_spec k (a : Z) (w : positive) (timeout : Z) :
  kinv None [] k -> _is_thread_ready k (current k) = true -> current k <> idle_thread -> wait_ok timeout -> timeout <> K_NO_WAIT ->
  sys_inv (wait_kernel k a (object_wq w) timeout) /\
  queues (wait_kernel k a (object_wq w) timeout) !!! object_wq w =
    ins_prio (fun u => prio (thr k u)) (current k) (queues k !!! object_wq w) /\
  (forall w', w' <> w -> queues (wait_kernel k a (object_wq w) timeout) !!! object_wq w' = queues k !!! object_wq w') /\
  (forall t, t <> current k -> thr (wait_kernel k a (object_wq w) timeout) t = thr k t).
Proof.
  intros Hk Hr Hc Hw Hn. unfold wait_kernel. set (k1 := upd_thread k (current k) (with_swap_data a)).
  set (k2 := _sched_unlock_no_reschedule k1).
  assert (kinv None [] k2) as Hk2 by (by apply kinv_upd_other, kinv_upd_other).
  assert (forall u, thread_state (thr k2 u) = thread_state (thr k u) /\ prio (thr k2 u) = prio (thr k u)) as Hu.
  { intros u. unfold k2, _sched_unlock_no_reschedule. rewrite thr_upd_thread. change (current k1) with (current k). unfold k1.
    destruct (decide (u = current k)) as [->|Hne]; [by rewrite thr_upd_same|by rewrite thr_upd_other]. }
  assert (_is_thread_ready k2 (current k2) = true) as Hr2.
  { etransitivity; [|exact Hr]. apply ready_ext; [apply Hu|done]. }
  assert (timeout = K_FOREVER \/ timeout_ok timeout) as Hto by (destruct Hw as [|[|]]; auto; done).
  split; [|split; [|split]].
  - apply Swap_sys. apply pend_current_kinv; [done|done|done|by apply object_wait].
  - unfold object_wq. rewrite pend_current_wq by done. change (current k2) with (current k). change (queues k2) with (queues k).
    generalize (queues k !!! WQ (xO w)). intros l. induction l as [|u l IH]; [done|]. cbn [ins_prio].
    by rewrite !(proj2 (Hu _)), IH.
  - intros w' Hne. change (queues (_Swap ?y)) with (queues y). unfold _pend_current_thread. cbv zeta.
    rewrite pend_thread_queues by done. rewrite Lst.insert_before_other by (unfold object_wq; congruence).
    by apply (remove_wq_eq [] k2).
  - intros t Ht. rewrite pend_current_thr by done. unfold k2, _sched_unlock_no_reschedule, k1. by rewrite !thr_upd_other.
Qed.

Lemma wait_ready k (a : Z) (w : positive) (timeout : Z) t :
  kinv None [] k -> _is_thread_ready k (current k) = true -> current k <> idle_thread -> wait_ok timeout -> timeout <> K_NO_WAIT ->
  t <> current k -> _is_thread_ready k t = true -> _is_thread_ready (wait_kernel k a (object_wq w) timeout) t = true.
Proof.
  intros Hk Hr Hc Hw Hn Ht Hrt. unfold wait_kernel. set (k1 := upd_thread k (current k) (with_swap_data a)).
  assert (forall u, _is_thread_ready (_sched_unlock_no_reschedule k1) u = _is_thread_ready k u) as Hu.
  { intros u. apply ready_ext; [|done]. unfold _sched_unlock_no_reschedule. rewrite thr_upd_thread. change (current k1) with (current k). unfold k1.
    destruct (decide (u = current k)) as [->|Hne]; [by rewrite thr_upd_same|by rewrite thr_upd_other]. }
  apply (pend_current_others tf (_sched_unlock_no_reschedule k1)); [by apply kinv_upd_other, kinv_upd_other|by rewrite Hu|done|by apply object_wait|done|by rewrite Hu].
Qed.

(** How a transfer of [total] bytes ends that got [n] of them across: it returns,
    or its thread waits for the rest. *)
Definition transfer_ends s s1 (total n min_xfer timeout : Z) : proc state (Z * Z) :=
  let a := desc_addr (current (ker s)) in
  if n =? total then finished ker s s1 (0, total)
  else if timeout =? K_NO_WAIT then let* (s', _) := serviced ker s s1 in ret s' (pipe_result s' a min_xfer total)
  else swapped s1 (fun s' => ret s' (pipe_result s' a min_xfer total)).

(** The current thread's own descriptor and the queue it may have to wait on. *)
Definition left_over s s1 (q : qid) (data total n timeout : Z) : Prop :=
  let me := current (ker s) in
  (n <> total -> buffer (desc s1 (desc_addr me)) = data + n /\ bytes_to_xfer (desc s1 (desc_addr me)) = total - n) /\
  queues (ker s1) !!! q =
    if (n =? total) || (timeout =? K_NO_WAIT) then queues (ker s) !!! q
    else ins_prio (fun u => prio (thr (ker s) u)) me (queues (ker s) !!! q).

(** Threads wait to write only when the ring buffer is full, and to read only when
    it is empty. *)
Definition balanced s p : Prop :=
  let x := pipes s !!! p in
  let l := queues (ker s) !!! readers_q x in
  (queues (ker s) !!! writers_q x <> [] -> bytes_used x = size x /\ l = []) /\ (l <> [] -> bytes_used x = 0).

Lemma put_balanced s s1 p full rest (data total n timeout : Z) :
  let x := pipes s !!! p in
  let x1 := pipes s1 !!! p in
  queues (ker s) !!! readers_q x = full ++ rest -> queues (ker s1) !!! readers_q x = rest ->
  same_pipe x x1 -> ring_wf x -> 0 <= total -> (forall t, t ∈ full ++ rest -> 0 <= want s t) ->
  (forall t, head rest = Some t -> total < need s full + want s t) ->
  n = total `min` (need s (full ++ rest) + (size x - bytes_used x)) ->
  bytes_used x1 = bytes_used x + (n - match head rest with Some _ => total | None => need s full end) ->
  left_over s s1 (writers_q x) data total n timeout -> balanced s p -> balanced s1 p.
Proof.
  intros x x1 Hl Hl1 (Eb & Ez & Er & Ew) Hwf H0 Hw Hrest En Hu [_ Hq1]. unfold balanced. fold x x1. unfold readers_q, writers_q in *.
  rewrite Er, Ew, Ez, Hl, Hl1. intros [B1 B2]. pose proof (rw_used _ Hwf) as Hux. rewrite need_app in En.
  pose proof (need_nonneg s full ltac:(intros t Ht; apply Hw, elem_of_app; by left)).
  destruct rest as [|t rest]; cbn [head need] in *.
  - rewrite app_nil_r in *. split; [|done]. intros Hne. split; [|done]. rewrite Hq1 in Hne.
    destruct (Z.eqb_spec n total) as [Hnt|Hnt], (Z.eqb_spec timeout K_NO_WAIT); cbn [orb] in Hne;
      [destruct (B1 Hne) as [Hf ->]; cbn [need] in *; lia|destruct (B1 Hne) as [Hf ->]; cbn [need] in *; lia|lia|lia].
  - specialize (Hrest t eq_refl). pose proof (need_nonneg s rest ltac:(intros u Hu'; apply Hw, elem_of_app; right; by right)).
    assert (n = total) as -> by lia. rewrite Z.eqb_refl in Hq1. cbn [orb] in Hq1. rewrite Hq1.
    assert (full ++ t :: rest <> []) as Hne by (by destruct full). split; [|intros _; specialize (B2 Hne); lia].
    intros Hne'. by destruct (B1 Hne').
Qed.

Lemma transfer_end s s3 full rest (w1 w2 : positive) (data total n min_xfer timeout : Z) :
  sys_inv (ker s) -> current (ker s) <> idle_thread -> wait_ok timeout -> w1 <> w2 ->
  queues (ker s) !!! object_wq w1 = full ++ rest -> ker s3 = served_kernel (ker s) full ->
  exists s1, (if n =? total then let* (s', _) := serviced ker s3 (set_ker s3 (k_sched_unlock (ker s3))) in ret s' (0, n)
              else pipe_wait tf s3 (object_wq w2) (data + n) (total - n) total min_xfer timeout)
             = transfer_ends s s1 total n min_xfer timeout /\
    sys_inv (ker s1) /\ mem s1 = mem s3 /\ pipes s1 = pipes s3 /\
    (forall a, a <> desc_addr (current (ker s)) -> desc s1 a = desc s3 a) /\
    queues (ker s1) !!! object_wq w1 = rest /\ (forall t, t ∈ full -> runs_again (ker s) (ker s1) t) /\
    left_over s s1 (object_wq w2) data total n timeout /\ (forall t, t <> current (ker s) -> at_ s1 t = at_ s t).
Proof.
  intros Hs Hid Hw Hne Hq Ek. set (c := current (ker s)).
  destruct (served_spec (ker s) full (xO w1) Hs ltac:(by exists rest)) as (V1 & V2 & V3 & V4 & V5 & V6 & V7). rewrite <- Ek in V1, V2, V3, V4, V5, V6, V7.
  assert (forall t, at_ s3 t = at_ s t) as Eat by (intros t; unfold at_; by rewrite <- V4, readied_swap_data, locked_swap_data).
  assert (forall s' t, thr (ker s') t = thr (ker s3) t -> at_ s' t = at_ s t) as Eat' by (intros s' t E; rewrite <- Eat; unfold at_; by rewrite E).
  assert (_is_thread_ready (ker s3) (current (ker s3)) = true) as Hr by (by rewrite V2).
  pose proof (ri_nodup _ _ (si_rq _ _ (ki_sched _ _ _ (sy_kinv _ Hs))) (object_wq w1)) as Hnd. rewrite Hq in Hnd.
  apply NoDup_app in Hnd as (_ & Hnd & _).
  assert (queues (ker s3) !!! object_wq w1 = rest) as Hq1.
  { unfold object_wq. rewrite V7. fold (object_wq w1). rewrite Hq, filter_app. rewrite (filter_none _ full), (filter_all _ rest); [done| |].
    - apply Forall_forall. intros t Ht Hf. by apply (Hnd t).
    - apply Forall_forall. intros t Ht Hf. done. }
  assert (queues (ker s3) !!! object_wq w2 = queues (ker s) !!! object_wq w2) as Hq2.
  { unfold object_wq. rewrite V7. apply filter_all, Forall_forall. intros t Ht Hf. apply Hne.
    assert (xO w1 = xO w2) as [= E] by (apply (ri_uniq _ _ (si_rq _ _ (ki_sched _ _ _ (sy_kinv _ Hs))) t); [|done];
      change (t ∈ queues (ker s) !!! object_wq w1); rewrite Hq; apply elem_of_app; by left). done. }
  assert (forall t, t ∈ full -> t <> c) as Hfc.
  { intros t Ht ->. pose proof (sy_current _ Hs) as Hrc. apply (proj1 (waiter_not_current (ker s) (xO w1) c Hs ltac:(
      change (c ∈ queues (ker s) !!! object_wq w1); rewrite Hq; apply elem_of_app; by left))). done. }
  assert (forall t, t ∈ full -> may_run (ker s) t -> _is_thread_ready (ker s3) t = true) as Hrd.
  { intros t Ht Hm. rewrite Ek. apply (served_ready (ker s) full (xO w1)); [done|by exists rest|done|done]. }
  unfold transfer_ends. destruct (Z.eqb_spec n total) as [->|Hnt].
  - destruct (unlock_spec (ker s3) V1 Hr) as (U1 & U2 & U3). eexists. unfold serviced. rewrite finished_bind.
    split; [by apply finished_from|]. split; [exact U1|]. split; [done|]. split; [done|]. split; [done|]. cbn [ker set_ker]. rewrite U2.
    split; [done|]. split; [|split; [split; [done|by rewrite Z.eqb_refl; cbn; rewrite U2]|]].
    + intros t Ht. apply runs_again_intro; [exact U1| |intros Hm; cbn [ker set_ker]; rewrite unlock_ready; by apply Hrd].
      etransitivity; [apply pending_ext|by apply V5]. rewrite U3; [done|]. rewrite V2. by apply Hfc.
    + intros t Ht. apply Eat'. cbn [ker set_ker]. apply U3. by rewrite V2.
  - unfold pipe_wait. rewrite V2. fold c. set (d := mk_desc _ _ _ _). set (s4 := set_desc s3 (desc_addr c) d).
    assert (forall a, desc s4 a = if decide (a = desc_addr c) then d else desc s3 a) as Ed.
    { intros a. unfold desc. cbn [descs s4 set_desc]. destruct (decide _) as [->|]; [by rewrite lookup_total_insert_eq|by rewrite lookup_total_insert_ne]. }
    change (ker s4) with (ker s3). destruct (Z.eqb_spec timeout K_NO_WAIT) as [Et|Et]; cbn [negb].
    + destruct (unlock_spec (ker s3) V1 Hr) as (U1 & U2 & U3). eexists (set_ker s4 (k_sched_unlock (ker s3))).
      split; [unfold serviced; by rewrite (finished_from ker s4 s) by done|]. split; [exact U1|]. split; [done|]. split; [done|].
      split; [intros a Ha; change (desc (set_ker s4 ?k) a) with (desc s4 a); by rewrite Ed, decide_False|].
      cbn [ker set_ker]. rewrite U2. split; [done|]. split; [|split; [|intros t Ht; apply Eat', U3; by rewrite V2]].
      * intros t Ht. apply runs_again_intro; [exact U1| |intros Hm; cbn [ker set_ker]; rewrite unlock_ready; by apply Hrd].
        etransitivity; [apply pending_ext|by apply V5]. rewrite U3; [done|]. rewrite V2. by apply Hfc.
      * unfold left_over. fold c. cbn [ker set_ker]. rewrite Et, Z.eqb_refl, orb_true_r, U2. split; [|done]. intros _.
        change (desc (set_ker s4 ?k) ?a) with (desc s4 a). by rewrite Ed, decide_True by done.
    + destruct (wait_spec (ker s3) (desc_addr c) w2 timeout V1 Hr) as (U1 & U2 & U3 & U4); [by rewrite V2|done|done|].
      exists (set_ker s4 (wait_kernel (ker s3) (desc_addr c) (object_wq w2) timeout)).
      split; [unfold wait_kernel; by rewrite V2|]. cbn [ker set_ker]. split; [exact U1|]. split; [done|]. split; [done|].
      split; [intros a Ha; change (desc (set_ker s4 ?k) a) with (desc s4 a); by rewrite Ed, decide_False|].
      split; [by rewrite U3|]. split; [|split; [|intros t Ht; apply Eat', U4; by rewrite V2]].
      * intros t Ht. assert (t <> current (ker s3)) as Htc by (rewrite V2; by apply Hfc). apply runs_again_intro; [exact U1| |].
        -- etransitivity; [apply pending_ext|by apply V5]. by rewrite U4.
        -- intros Hm. cbn [ker set_ker]. apply wait_ready; [done|done|by rewrite V2|done|done|done|by apply Hrd].
      * unfold left_over. fold c. cbn [ker set_ker]. split; [intros _; change (desc (set_ker s4 ?k) ?a) with (desc s4 a); by rewrite Ed, decide_True by done|].
        destruct (Z.eqb_spec n total) as [|_], (Z.eqb_spec timeout K_NO_WAIT) as [|_]; [done..|]. cbn [orb]. rewrite U2, Hq2, V2. fold c. generalize (queues (ker s) !!! object_wq w2). intros l.
        induction l as [|u l IH]; [done|]. cbn [ins_prio]. by rewrite !V6, IH.
Qed.

Lemma put_too_little s p (data total min_xfer timeout : Z) :
  let x := pipes s !!! p in
  let l := queues (ker s) !!! readers_q x in
  let space := size x - bytes_used x in
  sys_inv (ker s) -> areas_ok s x l data total -> need s l + space < 2 ^ 32 -> min_xfer <= total ->
  timeout = K_NO_WAIT -> need s l + space < min_xfer ->
  _impl_k_pipe_put tf s p data total min_xfer timeout = ret s (- EIO, 0).
Proof.
  intros x l space Hs Hok Hov Hm Ht Hlt. pose proof (ri_nodup _ _ (si_rq _ _ (ki_sched _ _ _ (sy_kinv _ Hs))) (readers_q x)) as Hnd.
  pose proof (rw_used _ (wo_ring _ _ _ _ _ Hok)) as Hu.
  pose proof (prepare_spec s (readers_q x) space total min_xfer timeout Hnd (wo_want _ _ _ _ _ Hok) ltac:(unfold space; lia) Hm
    (wo_total _ _ _ _ _ Hok) Hov) as Hp. fold l in Hp. rewrite Ht, Z.eqb_refl in Hp.
  destruct (Z.ltb_spec (need s l + space) min_xfer); [|lia]. cbn [andb] in Hp.
  unfold _impl_k_pipe_put, _k_pipe_put_internal. fold x. fold space. by rewrite Ht, Hp.
Qed.

(** C20. [k_pipe_put] with [total] bytes, when threads wait to read and there is room
    in the ring buffer: the bytes go, in order, to the readers that wait, the first
    of them first, and then into the ring buffer; the call gets as many bytes
    across as the readers want and the buffer has room for, and no byte is lost,
    repeated or moved.  The readers whose requests are met are the longest part of the
    queue, from its front, that asks for at most [total] bytes together: they leave the
    queue and are on their ready queues, unless they have been suspended or aborted; the
    others keep waiting.  The call returns when all bytes are across; otherwise its
    thread waits for the rest, or returns if it does not want to wait.  If before the
    call threads wait to write only when the buffer is full, and to read only when it is
    empty, that is so after it.  The buffers of the call and of the readers and the ring
    buffer do not overlap, and a call that does not want to wait can get [min_xfer]
    bytes across. *)
Theorem pipe_put_stream s p (data total min_xfer timeout : Z) :
  let x := pipes s !!! p in
  let l := queues (ker s) !!! readers_q x in
  let space := size x - bytes_used x in
  let n := total `min` (need s l + space) in
  sys_inv (ker s) -> current (ker s) <> idle_thread -> wait_ok timeout -> readers x <> writers x ->
  areas_ok s x l data total -> (forall t, t ∈ l -> at_ s t <> desc_addr (current (ker s))) ->
  need s l + space < 2 ^ 32 -> min_xfer <= total -> (timeout = K_NO_WAIT -> min_xfer <= need s l + space) ->
  exists full rest s1 new, l = full ++ rest /\ need s full <= total /\ (forall t, head rest = Some t -> total < need s full + want s t) /\
    _impl_k_pipe_put tf s p data total min_xfer timeout = transfer_ends s s1 total n min_xfer timeout /\ sys_inv (ker s1) /\
    ring_wf (pipes s1 !!! p) /\ contents (mem s1) (pipes s1 !!! p) = contents (mem s) x ++ new /\
    taken s (mem s1) full rest (total - need s full) ++ new = bytes (mem s) data n /\
    (forall t, t ∈ full -> desc s1 (at_ s t) = advance (desc_of s t) (want s t) /\ runs_again (ker s) (ker s1) t) /\
    (forall t, head rest = Some t -> desc s1 (at_ s t) = advance (desc_of s t) (total - need s full)) /\
    queues (ker s1) !!! readers_q x = rest /\ left_over s s1 (writers_q x) data total n timeout /\
    (balanced s p -> balanced s1 p).
Proof.
  intros x l space n Hs Hid Hw Hrw Hok Hat Hov Hm Hmin.
  pose proof (ri_nodup _ _ (si_rq _ _ (ki_sched _ _ _ (sy_kinv _ Hs))) (readers_q x)) as Hnd.
  pose proof (rw_used _ (wo_ring _ _ _ _ _ Hok)) as Hu.
  pose proof (prepare_spec s (readers_q x) space total min_xfer timeout Hnd (wo_want _ _ _ _ _ Hok) ltac:(unfold space; lia) Hm
    (wo_total _ _ _ _ _ Hok) Hov) as Hp. fold l in Hp.
  assert ((timeout =? K_NO_WAIT) && (need s l + space <? min_xfer) = false) as Eb.
  { destruct (Z.eqb_spec timeout K_NO_WAIT) as [E|]; [|done]. specialize (Hmin E). destruct (Z.ltb_spec (need s l + space) min_xfer); [lia|done]. }
  rewrite Eb in Hp. destruct Hp as (full & rest & El & Ep & H1 & H2). exists full, rest.
  unfold _impl_k_pipe_put, _k_pipe_put_internal. fold x. fold space. rewrite Ep. cbv beta iota zeta.
  set (s2 := set_ker (set_ker s _) _). change (ker (set_ker s ?k)) with k in s2.
  assert (same_requests s s2 (full ++ rest)) as Hr by (apply (kernel_requests s), locked_swap_data).
  assert (same_requests s s2 full) as Hrf by (intros t Ht; apply Hr, elem_of_app; by left).
  rewrite El in Hok. destruct (write_all_spec s2 p full rest data total) as (s3 & n3 & -> & Ek & [Wn Wr Wp (new & Wc & Wt) Wu Wg]).
  - by apply (areas_ok_same s).
  - by rewrite (need_same _ _ _ Hrf).
  - intros t Ht. rewrite (need_same _ _ _ Hrf). unfold want. rewrite (proj2 (Hr t (head_elem full _ _ Ht))). by apply H2.
  - change (pipes s2 !!! p) with x in *. rewrite (need_same _ _ _ Hr) in Wn. rewrite <- El in Wn. fold space n in Wn. subst n3.
    rewrite (need_same _ _ _ Hrf) in Wt, Wg, Wu. rewrite (taken_same _ _ _ _ _ _ Hr) in Wt. apply (given_same s) in Wg; [|done|done].
    destruct (served_spec (ker s) full (xO (readers x)) Hs ltac:(by exists rest)) as (_ & _ & _ & V4 & _).
    pose proof Wp as (_ & _ & _ & Eww). assert (writers_q (pipes s3 !!! p) = object_wq (writers x)) as -> by (unfold writers_q; by rewrite Eww).
    destruct (transfer_end s s3 full rest (readers x) (writers x) data total n min_xfer timeout Hs Hid Hw Hrw El) as
      (s1 & E & T1 & T2 & T3 & T4 & T5 & T6 & T7 & _); [rewrite Ek; exact V4|].
    exists s1, new. rewrite T2, T3. split_and!; try done.
    + intros t Ht. split; [|by apply T6]. rewrite T4 by (apply Hat; rewrite El; apply elem_of_app; by left). by apply Wg.
    + intros t Ht. rewrite T4 by (apply Hat; rewrite El; by apply head_elem). by apply Wg.
    + apply (put_balanced s s1 p full rest data total n timeout); rewrite ?T3; try done; [by apply Hok..|]. unfold n. by rewrite El.
Qed.

End Write.

(** ** Reading *)

Section Read.
Context `{KConfig}.
Implicit Types (s : state) (m : LibC.memory) (t u : tid) (l full rest : list tid) (k : kernel).
Variable tf : positive -> toid -> kernel -> kernel.

(** No thread of [l] stands for an asynchronous write. *)
Definition real k l : Prop := forall t, t ∈ l -> _is_thread_dummy k t = false.

Lemma dummy_bit k t : _is_thread_dummy k t = st_bit (thr k t) 0.
Proof. by apply (state_set_spec k t 0). Qed.

Lemma ready_dummy k t u : _is_thread_dummy (_ready_thread k t) u = _is_thread_dummy k u.
Proof.
  rewrite !dummy_bit, ready_thread_thr. destruct (decide (u = t)) as [->|]; [|done].
  change _THREAD_PRESTART with (Z.shiftl 1 2). rewrite st_bit_clear by done. apply andb_true_r.
Qed.

Lemma thread_ready_real s t :
  _is_thread_dummy (ker s) t = false -> _pipe_thread_ready s t = ret (set_ker s (_ready_thread (ker s) t)) tt.
Proof. intros Hd. unfold _pipe_thread_ready. by rewrite Hd. Qed.

(** Bytes [c] of the request of [t] have been transferred. *)
Record advanced s s' t (c : Z) : Prop := {
  ad_this : desc s' (at_ s t) = advance (desc_of s t) c;
  ad_others : forall a, a <> at_ s t -> desc s' a = desc s a
}.

Lemma advanced_requests s s' t (c : Z) l :
  advanced s s' t c -> ker s' = ker s -> (forall u, u ∈ l -> at_ s t <> at_ s u) -> same_requests s s' l.
Proof.
  intros [_ H2] Ek Hne u Hu. unfold at_, desc_of. rewrite Ek. split; [done|]. apply H2, not_eq_sym. by apply Hne.
Qed.

Lemma advanced_self s s' t (c : Z) : advanced s s' t c -> ker s' = ker s -> desc_of s' t = advance (desc_of s t) c.
Proof. intros [H1 _] Ek. unfold desc_of at 1. rewrite Ek. exact H1. Qed.

Lemma copy_from_spec s t (data total n : Z) :
  0 <= want s t -> 0 <= n <= total -> clear_of s data total t ->
  let c := (total - n) `min` want s t in
  exists s', copy_from s t data total n = (s', n + c) /\ ker s' = ker s /\ same_objects s s' /\ advanced s s' t c /\
    bytes (mem s') (data + n) c = bytes (mem s) (buffer (desc_of s t)) c /\ only (mem s) (mem s') (data + n) c.
Proof.
  intros Hw Hn Hd c. unfold copy_from. fold (want s t).
  destruct (xfer_spec (mem s) (data + n) (total - n) (buffer (desc_of s t)) (want s t)) as (m' & -> & Hc);
    [lia|done|unfold clear_of, disjoint in *; lia|].
  eexists. split; [done|]. split; [done|]. split; [done|]. split; [|split; [by apply copied_bytes|by eapply copied_only]].
  split; unfold desc; cbn [descs set_desc set_mem]; [by rewrite lookup_total_insert_eq|].
  intros a Ha. rewrite lookup_total_insert_ne; [done|]. by apply not_eq_sym.
Qed.

(** What is left of an advanced request. *)
Lemma advanced_bytes s s' m t (c : Z) :
  desc_of s' t = advance (desc_of s t) c -> 0 <= c <= want s t ->
  bytes m (buffer (desc_of s t)) (want s t) = bytes m (buffer (desc_of s t)) c ++ bytes m (buffer (desc_of s' t)) (want s' t).
Proof.
  intros Hd Hc. unfold want at 2. rewrite Hd. cbn [buffer bytes_to_xfer advance]. rewrite <- bytes_app by (unfold want in *; lia).
  f_equal. unfold want. lia.
Qed.

(** Part of the requests of the threads in [l] has been met. *)
Definition reduced s s' l : Prop :=
  forall t, t ∈ l -> at_ s' t = at_ s t /\ exists c : Z, 0 <= c <= want s t /\ desc_of s' t = advance (desc_of s t) c.

Lemma reduced_same s s' l : (forall t, t ∈ l -> 0 <= want s t) -> same_requests s s' l -> reduced s s' l.
Proof.
  intros Hw Hr t Ht. destruct (Hr t Ht) as [-> ->]. split; [done|]. exists 0. split; [specialize (Hw t Ht); lia|].
  unfold advance. rewrite Z.add_0_r, Z.sub_0_r. by destruct (desc_of s t).
Qed.

Lemma reduced_clear s s' l (a n : Z) t : reduced s s' l -> t ∈ l -> clear_of s a n t -> clear_of s' a n t /\ 0 <= want s' t.
Proof.
  intros Hr Ht. destruct (Hr t Ht) as (_ & c & Hc & Ed). unfold clear_of, want in *. rewrite Ed. cbn [advance buffer bytes_to_xfer].
  unfold disjoint. lia.
Qed.

Lemma reduced_separate s s' l : reduced s s' l -> separate s l -> separate s' l.
Proof.
  induction l as [|t l IH]; intros Hr; cbn; [done|]. intros [H1 H2]. split; [|apply IH; [|done]; intros u Hu; apply Hr; by right].
  intros u Hu. destruct (Hr t ltac:(left)) as (-> & c & Hc & Ed), (Hr u ltac:(by right)) as (-> & e & He & Eu). split; [|by apply H1].
  destruct (H1 u Hu) as [Hd _]. unfold clear_of, want, disjoint in *. rewrite Ed, Eu. cbn [advance buffer bytes_to_xfer]. lia.
Qed.

Lemma same_requests_cons s s' t l :
  at_ s' t = at_ s t -> desc_of s' t = desc_of s t -> same_requests s s' l -> same_requests s s' (t :: l).
Proof. intros H1 H2 Hr u [->|Hu]%elem_of_cons; [done|by apply Hr]. Qed.

Lemma gathered_length s m l : (forall t, t ∈ l -> 0 <= want s t) -> Z.of_nat (length (gathered s m l)) = need s l.
Proof.
  induction l as [|t l IH]; intros Hw; [done|]. cbn [gathered need]. rewrite length_app, Nat2Z.inj_add, bytes_length by (apply Hw; left).
  rewrite IH; [done|]. intros u Hu. apply Hw. by right.
Qed.

(** The first loop of a read. *)
Record drained s s' l passed left (data n n' : Z) : Prop := {
  dr_split : l = passed ++ left;
  dr_kernel : ker s' = readied_all (ker s) passed;
  dr_objects : same_objects s s';
  dr_passed : forall t, t ∈ passed -> desc s' (at_ s t) = advance (desc_of s t) (want s t);
  dr_left : reduced s s' left;
  dr_others : forall a, (forall t, t ∈ l -> a <> at_ s t) -> desc s' a = desc s a;
  dr_stream : gathered s (mem s) l = bytes (mem s') (data + n) (n' - n) ++ gathered s' (mem s') left;
  dr_memory : only (mem s) (mem s') (data + n) (n' - n)
}.

#[local] Arguments dr_split {_ _ _ _ _ _ _ _}.
#[local] Arguments dr_kernel {_ _ _ _ _ _ _ _}.
#[local] Arguments dr_objects {_ _ _ _ _ _ _ _}.
#[local] Arguments dr_passed {_ _ _ _ _ _ _ _}.
#[local] Arguments dr_left {_ _ _ _ _ _ _ _}.
#[local] Arguments dr_others {_ _ _ _ _ _ _ _}.
#[local] Arguments dr_stream {_ _ _ _ _ _ _ _}.
#[local] Arguments dr_memory {_ _ _ _ _ _ _ _}.

Lemma drained_none s l (data n : Z) : (forall t, t ∈ l -> 0 <= want s t) -> drained s s l [] l data n n.
Proof.
  intros Hw. split; try done; [intros t []%elem_of_nil|by apply reduced_same|]. by rewrite bytes_0 by lia.
Qed.

(** The read is met by the first thread. *)
Lemma drained_stop s s1 t l (data n : Z) (c : Z) :
  separate s (t :: l) -> (forall u, u ∈ t :: l -> 0 <= want s u) -> (forall u, u ∈ t :: l -> clear_of s (data + n) c u) -> 0 <= c <= want s t ->
  ker s1 = ker s -> same_objects s s1 -> advanced s s1 t c ->
  bytes (mem s1) (data + n) c = bytes (mem s) (buffer (desc_of s t)) c -> only (mem s) (mem s1) (data + n) c ->
  drained s s1 (t :: l) [] (t :: l) data n (n + c).
Proof.
  intros [Hs1 Hs2] Hw Hcl Hc Ek Eo Ea Hb Ho. pose proof (advanced_self _ _ _ _ Ea Ek) as Ed.
  assert (same_requests s s1 l) as Hr by (eapply advanced_requests; [done|done|]; intros u Hu; by apply Hs1).
  replace (n + c - n) with c by lia. split; rewrite ?Z.add_simpl_l; try done.
  - intros u []%elem_of_nil.
  - intros u [->|Hu]%elem_of_cons; [split; [by unfold at_; rewrite Ek|by exists c]|].
    apply (reduced_same s s1 l); [|done|done]. intros v Hv. apply Hw. by right.
  - intros a Ha. apply Ea. apply Ha. left.
  - cbn [gathered]. rewrite (advanced_bytes s s1 _ t c Ed Hc), (gathered_same _ _ _ _ Hr), Hb, <- app_assoc.
    f_equal. f_equal.
    + symmetry. eapply bytes_only; [exact Ho|]. specialize (Hcl t ltac:(left)). unfold clear_of, want, disjoint in *. rewrite Ed. cbn. lia.
    + symmetry. eapply gathered_only; [exact Ho|]. intros u Hu. apply Hcl. by right.
Qed.

(** The first thread has no more to give. *)
Lemma drained_step s s1 s' t l passed left (data n n' : Z) :
  separate s (t :: l) -> 0 <= want s t -> n + want s t <= n' -> (forall u, u ∈ l -> clear_of s (data + n) (want s t) u) ->
  ker s1 = ker s -> same_objects s s1 -> advanced s s1 t (want s t) ->
  bytes (mem s1) (data + n) (want s t) = bytes (mem s) (buffer (desc_of s t)) (want s t) ->
  only (mem s) (mem s1) (data + n) (want s t) ->
  drained (set_ker s1 (_ready_thread (ker s1) t)) s' l passed left data (n + want s t) n' ->
  drained s s' (t :: l) (t :: passed) left data n n'.
Proof.
  intros [Hs1 Hs2] Hw Hle Hcl Ek Eo Ea Hb Ho [D1 D2 D3 D4 D5 D6 D7 D8]. rewrite Ek in *. set (s2 := set_ker s1 _) in *.
  change (mem s2) with (mem s1) in *.
  assert (same_requests s s2 l) as Hr.
  { eapply same_requests_trans; [eapply advanced_requests; [exact Ea|exact Ek|intros u Hu; by apply Hs1]|].
    unfold s2. rewrite <- Ek. apply readied_requests. }
  assert (forall u, u ∈ passed ++ left -> at_ s2 u = at_ s u /\ desc_of s2 u = desc_of s u) as Hr' by (intros u Hu; apply Hr; by rewrite D1).
  rewrite (gathered_same _ _ _ _ Hr) in D7. replace (data + (n + want s t)) with (data + n + want s t) in D7, D8 by lia.
  split.
  - by rewrite D1.
  - exact D2.
  - destruct D3 as (? & ? & ? & ?), Eo as (? & ? & ? & ?). repeat split; etransitivity; eauto.
  - intros u [->|Hu]%elem_of_cons.
    + rewrite D6; [apply Ea|]. intros v Hv. rewrite (proj1 (Hr v Hv)). by apply Hs1.
    + destruct (Hr' u ltac:(apply elem_of_app; by left)) as [Eat Ed]. rewrite <- Eat, D4 by done. unfold want. by rewrite Ed.
  - intros u Hu. destruct (Hr' u ltac:(apply elem_of_app; by right)) as [Eat Ed]. destruct (D5 u Hu) as [E1 E2]. unfold want in *. by rewrite <- Eat, <- Ed.
  - intros a Ha. rewrite D6; [apply Ea, Ha; left|]. intros v Hv. rewrite (proj1 (Hr v Hv)). apply Ha. by right.
  - cbn [gathered]. rewrite <- (gathered_only s (mem s) (mem s1) l _ _ Ho Hcl), D7, app_assoc. f_equal.
    replace (n' - n) with (want s t + (n' - (n + want s t))) by lia. rewrite bytes_app by lia. f_equal.
    rewrite <- Hb. symmetry. eapply bytes_only; [exact D8|]. unfold disjoint. lia.
  - intros q Hq. rewrite D8, Ho; [done| |]; lia.
Qed.

Lemma drain_spec l : forall s (data total n : Z),
  separate s l -> (forall t, t ∈ l -> 0 <= want s t /\ clear_of s data total t) -> real (ker s) l -> 0 <= n <= total ->
  exists s' passed left, let n' := total `min` (n + need s l) in
    drain_writers s l data total n = ret s' (left, n') /\ (left <> [] -> n' = total) /\ drained s s' l passed left data n n'.
Proof.
  induction l as [|t l IH]; intros s data total n Hsep Hl Hre Hn; cbv zeta.
  { exists s, [], []. cbn [need drain_writers]. rewrite Z.add_0_r, Z.min_r by lia. split; [done|]. split; [done|]. apply drained_none. intros t []%elem_of_nil. }
  destruct (Hl t ltac:(left)) as [Hwt Hct]. pose proof (need_nonneg s l ltac:(intros u Hu; apply Hl; by right)) as Hnn. cbn [drain_writers need].
  destruct (Z.ltb_spec n total) as [Hlt|Hge].
  2:{ exists s, [], (t :: l). rewrite Z.min_l by lia. assert (n = total) as -> by lia. split; [done|]. split; [done|].
      apply drained_none. intros u Hu. by apply Hl. }
  destruct (copy_from_spec s t data total n Hwt Hn Hct) as (s1 & -> & Ek & Eo & Ea & Hb & Ho). set (c := _ `min` want s t) in *.
  destruct (Z.eqb_spec (n + c) total) as [He|He].
  { exists s1, [], (t :: l). rewrite Z.min_l by lia. rewrite He. split; [done|]. split; [done|]. rewrite <- He.
    apply drained_stop; try done; [intros u Hu; by apply Hl| |unfold c; lia].
    intros u Hu. destruct (Hl u Hu) as [_ Hd]. unfold clear_of, disjoint in *. lia. }
  assert (c = want s t /\ n + want s t <= total) as [Ec Hwn] by (unfold c in *; lia). clearbody c. subst c.
  rewrite thread_ready_real by (rewrite Ek; apply Hre; left). cbn [bind]. set (s2 := set_ker s1 _).
  assert (same_requests s s2 l) as Hr.
  { eapply same_requests_trans; [eapply advanced_requests; [exact Ea|exact Ek|intros u Hu; by apply Hsep]|apply readied_requests]. }
  destruct (IH s2 data total (n + want s t)) as (s' & passed & left & E & Hlf & Hd).
  - eapply separate_same; [exact Hr|]. by apply Hsep.
  - intros u Hu. unfold clear_of, want. rewrite (proj2 (Hr u Hu)). apply Hl. by right.
  - intros u Hu. unfold s2. cbn [ker set_ker]. rewrite ready_dummy, Ek. apply Hre. by right.
  - lia.
  - rewrite (need_same _ _ _ Hr), <- Z.add_assoc in E, Hlf, Hd. exists s', (t :: passed), left. split; [exact E|]. split; [done|].
    eapply drained_step; try done; [lia|]. intros u Hu. destruct (Hl u ltac:(by right)) as [_ Hc]. unfold clear_of, disjoint in *. lia.
Qed.

(** The bytes [new] have been added to the ring buffer of [p]. *)
Record refilled s s' p (new : list Z) : Prop := {
  rf_ring : ring_wf (pipes s' !!! p);
  rf_pipe : same_pipe (pipes s !!! p) (pipes s' !!! p);
  rf_used : bytes_used (pipes s' !!! p) = bytes_used (pipes s !!! p) + Z.of_nat (length new);
  rf_contents : contents (mem s') (pipes s' !!! p) = contents (mem s) (pipes s !!! p) ++ new;
  rf_memory : only (mem s) (mem s') (buf (pipes s !!! p)) (size (pipes s !!! p))
}.

Lemma refilled_none s p : ring_wf (pipes s !!! p) -> refilled s s p [].
Proof. intros Hw. split; [done|done|cbn; lia|by rewrite app_nil_r|apply only_refl]. Qed.

Lemma refilled_trans s s1 s2 p (l1 l2 : list Z) : refilled s s1 p l1 -> refilled s1 s2 p l2 -> refilled s s2 p (l1 ++ l2).
Proof.
  intros [R1 R2 R3 R4 R5] [Q1 Q2 Q3 Q4 Q5]. destruct R2 as (E1 & E2 & E3 & E4), Q2 as (F1 & F2 & F3 & F4). split.
  - done.
  - unfold same_pipe. by rewrite F1, F2, F3, F4.
  - rewrite Q3, R3, length_app. lia.
  - by rewrite Q4, R4, app_assoc.
  - rewrite E1, E2 in Q5. by eapply only_trans.
Qed.

Lemma refill_from_spec s p t :
  let x := pipes s !!! p in
  ring_wf x -> 0 <= want s t -> clear_of s (buf x) (size x) t ->
  let c := (size x - bytes_used x) `min` want s t in
  let s' := refill_from s p t in
  ker s' = ker s /\ advanced s s' t c /\ refilled s s' p (bytes (mem s) (buffer (desc_of s t)) c) /\ 0 <= c.
Proof.
  intros x Hwf Hw Hcl c s'.
  destruct (buffer_put_spec (mem s) x (buffer (desc_of s t)) (want s t)) as (m' & x' & E & Hc & P1 & P2 & P3 & P4 & P5);
    [done|done|unfold clear_of, disjoint in *; lia|]. fold c in E, Hc, P3, P4.
  assert (s' = set_desc (set_pipe (set_mem s m') p x') (at_ s t) (advance (desc_of s t) c)) as Es.
  { unfold s', refill_from. cbv zeta. fold x. change (bytes_to_xfer (desc_of s t)) with (want s t). by rewrite E. }
  clearbody s'. subst s'.
  assert (pipes (set_pipe (set_mem s m') p x') !!! p = x') as Ex by (cbn; apply lookup_total_insert_eq).
  split; [done|]. split; [|split; [|done]].
  - split; unfold desc; cbn [descs set_desc set_pipe set_mem]; [by rewrite lookup_total_insert_eq|].
    intros a Ha. rewrite lookup_total_insert_ne; [done|]. by apply not_eq_sym.
  - split; change (pipes (set_desc ?y ?a ?d)) with (pipes y); rewrite ?Ex; try done.
    rewrite bytes_length by done. exact P3.
Qed.

(** The second loop of a read. *)
Lemma refill_spec l p : forall s, let x := pipes s !!! p in
  separate s l -> (forall t, t ∈ l -> 0 <= want s t /\ clear_of s (buf x) (size x) t) -> real (ker s) l -> ring_wf x ->
  need s l <= size x - bytes_used x ->
  exists s', refill s p l = ret s' tt /\ ker s' = readied_all (ker s) l /\ met s s' l /\ refilled s s' p (gathered s (mem s) l).
Proof.
  induction l as [|t l IH]; intros s x Hsep Hl Hre Hwf Hle.
  { exists s. split; [done|]. split; [done|]. split; [|by apply refilled_none]. split; [intros t []%elem_of_nil|done]. }
  destruct (Hl t ltac:(left)) as [Hwt Hct]. pose proof (need_nonneg s l ltac:(intros u Hu; apply Hl; by right)) as Hnn.
  destruct Hsep as [Hs1 Hs2]. cbn [refill need gathered] in *.
  destruct (refill_from_spec s p t Hwf Hwt Hct) as (Ek & Ea & Hf & _). fold x in Ea, Hf. rewrite Z.min_r in Ea, Hf by lia. set (s1 := refill_from s p t) in *.
  rewrite thread_ready_real by (rewrite Ek; apply Hre; left). cbn [bind]. set (s2 := set_ker s1 _).
  assert (same_requests s s2 l) as Hr.
  { eapply same_requests_trans; [eapply advanced_requests; [exact Ea|exact Ek|intros u Hu; by apply Hs1]|apply readied_requests]. }
  destruct Hf as [F1 F2 F3 F4 F5]. destruct F2 as (G1 & G2 & G3 & G4). fold x in F3, F4, F5, G1, G2, G3, G4.
  assert (forall u, u ∈ l -> clear_of s (buf x) (size x) u) as Hcl by (intros u Hu; apply Hl; by right).
  destruct (IH s2) as (s' & E & Ek' & Em & Hf').
  - by eapply separate_same.
  - change (pipes s2) with (pipes s1). rewrite G1, G2. intros u Hu. unfold clear_of, want. rewrite (proj2 (Hr u Hu)). apply Hl. by right.
  - intros u Hu. unfold s2. cbn [ker set_ker]. rewrite ready_dummy, Ek. apply Hre. by right.
  - done.
  - change (pipes s2) with (pipes s1). rewrite (need_same _ _ _ Hr), F3, G2, bytes_length by done. lia.
  - exists s'. split; [exact E|]. split; [rewrite Ek'; unfold s2; cbn [ker set_ker]; by rewrite Ek|]. split.
    + split.
      * intros u [->|Hu]%elem_of_cons; [rewrite (me_others _ _ _ Em); [apply Ea|]; intros v Hv; rewrite (proj1 (Hr v Hv)); by apply Hs1|].
        destruct (Hr u Hu) as [Eat Ed]. rewrite <- Eat, (me_done _ _ _ Em u Hu). unfold want. by rewrite Ed.
      * intros a Ha. rewrite (me_others _ _ _ Em) by (intros v Hv; rewrite (proj1 (Hr v Hv)); apply Ha; by right). apply Ea, Ha. left.
    + rewrite (gathered_same _ _ _ _ Hr) in Hf'. change (mem s2) with (mem s1) in Hf'. rewrite (gathered_only s (mem s) (mem s1) l _ _ F5 Hcl) in Hf'.
      apply (refilled_trans s s1); [by split|]. destruct Hf' as [R1 R2 R3 R4 R5]. by split.
Qed.

Lemma reduced_trans s s1 s2 l : reduced s s1 l -> reduced s1 s2 l -> reduced s s2 l.
Proof.
  intros H1 H2 t Ht. destruct (H1 t Ht) as (E1 & c & Hc & D1), (H2 t Ht) as (E2 & e & He & D2). split; [congruence|].
  exists (c + e). unfold want in *. rewrite D1 in He, D2. cbn [advance bytes_to_xfer] in He. split; [lia|]. rewrite D2. unfold advance. cbn. f_equal; lia.
Qed.

Lemma same_reduced s s1 s2 l : same_requests s s1 l -> reduced s1 s2 l -> reduced s s2 l.
Proof. intros H1 H2 t Ht. destruct (H1 t Ht) as [E1 D1], (H2 t Ht) as (E2 & H3). unfold want in *. rewrite D1 in H3. split; [congruence|done]. Qed.

(** The writer that stays in front of the queue. *)
Lemma part_spec s rest (data total n : Z) :
  separate s rest -> (forall t, t ∈ rest -> 0 <= want s t /\ clear_of s data total t) -> 0 <= n <= total ->
  exists s' n', (match head rest with
                 | Some t => if n <? total then copy_from s t data total n else (s, n)
                 | None => (s, n)
                 end) = (s', n') /\ n <= n' <= total /\ (forall t, head rest = Some t -> n' = total `min` (n + want s t)) /\ (rest = [] -> n' = n) /\
    drained s s' rest [] rest data n n'.
Proof.
  intros Hsep Hl Hn. assert (forall t, t ∈ rest -> 0 <= want s t) as Hw by (intros t Ht; by apply Hl).
  destruct rest as [|t rest]; cbn [head].
  { exists s, n. split; [done|]. split; [lia|]. split; [done|]. split; [done|]. by apply drained_none. }
  specialize (Hw t ltac:(left)) as Hwt. destruct (Z.ltb_spec n total) as [Hlt|Hge].
  2:{ exists s, n. split; [done|]. split; [lia|]. split; [intros u [= <-]; lia|]. split; [done|]. by apply drained_none. }
  destruct (copy_from_spec s t data total n Hwt Hn ltac:(apply Hl; left)) as (s1 & -> & Ek & Eo & Ea & Hb & Ho). set (c := _ `min` want s t) in *.
  exists s1, (n + c). split; [done|]. split; [unfold c; lia|]. split; [intros u [= <-]; unfold c; lia|]. split; [done|].
  apply drained_stop; try done; [|unfold c; lia].
  intros u Hu. destruct (Hl u Hu) as [_ Hd]. unfold clear_of, disjoint, c in *. lia.
Qed.

Lemma refill_part s p rest :
  let x := pipes s !!! p in
  let s' := match head rest with Some t => refill_from s p t | None => s end in
  ring_wf x -> separate s rest -> (forall t, t ∈ rest -> 0 <= want s t /\ clear_of s (buf x) (size x) t) ->
  exists new, refilled s s' p new /\ gathered s (mem s) rest = new ++ gathered s' (mem s') rest /\
    ker s' = ker s /\ reduced s s' rest /\ (forall a, (forall t, t ∈ rest -> a <> at_ s t) -> desc s' a = desc s a) /\
    (forall t, head rest = Some t -> bytes_used (pipes s' !!! p) = size x \/ want s' t = 0).
Proof.
  intros x s' Hwf Hsep Hl. destruct rest as [|t rest]; cbn [head] in s'.
  { exists []. split; [by apply refilled_none|]. split; [done|]. split; [done|]. split; [intros t []%elem_of_nil|done]. }
  destruct (Hl t ltac:(left)) as [Hwt Hct], Hsep as [Hs1 Hs2].
  destruct (refill_from_spec s p t Hwf Hwt Hct) as (Ek & Ea & Hf & Hc). fold x s' in Ek, Ea, Hf, Hc. set (c := _ `min` want s t) in *.
  pose proof (advanced_self _ _ _ _ Ea Ek) as Ed. eexists. split; [exact Hf|].
  assert (same_requests s s' rest) as Hr by (eapply advanced_requests; [exact Ea|exact Ek|]; intros u Hu; by apply Hs1).
  destruct Hf as [_ _ Hus _ Ho]. fold x in Ho, Hus. rewrite bytes_length in Hus by done. split; [|split; [done|]; split; [|split]].
  - cbn [gathered]. rewrite (advanced_bytes s s' _ t c Ed ltac:(unfold c in *; lia)), (gathered_same _ _ _ _ Hr), <- app_assoc. f_equal. f_equal.
    + symmetry. eapply bytes_only; [exact Ho|]. assert (c <= want s t) as Hcw by (unfold c; lia). clearbody c.
      unfold clear_of, want, disjoint in *. rewrite Ed. cbn [advance buffer bytes_to_xfer]. lia.
    + symmetry. eapply gathered_only; [exact Ho|]. intros u Hu. apply Hl. by right.
  - intros u [->|Hu]%elem_of_cons; [split; [by unfold at_; rewrite Ek|]; exists c; split; [unfold c in *; lia|done]|].
    apply (reduced_same s s' rest); [|done|done]. intros v Hv. apply Hl. by right.
  - intros a Ha. apply Ea, Ha. left.
  - intros u [= <-]. rewrite Hus. unfold want. rewrite Ed. cbn [advance bytes_to_xfer]. fold (want s t). unfold c. lia.
Qed.

Lemma drained_requests s s' l passed left (data n n' : Z) l' :
  drained s s' l passed left data n n' -> (forall t u, t ∈ l -> u ∈ l' -> at_ s t <> at_ s u) -> same_requests s s' l'.
Proof.
  intros [_ Ek _ _ _ Ho _ _] Hne u Hu. assert (at_ s' u = at_ s u) as Ea by (unfold at_; by rewrite Ek, readied_swap_data).
  split; [done|]. unfold desc_of. fold (at_ s u) (at_ s' u). rewrite Ea. apply Ho. intros t Ht. apply not_eq_sym. by apply Hne.
Qed.

Lemma readied_dummy l : forall k u, _is_thread_dummy (readied_all k l) u = _is_thread_dummy k u.
Proof.
  induction l as [|t l IH]; intros k u; [done|]. change (readied_all k (t :: l)) with (readied_all (_ready_thread k t) l).
  by rewrite IH, ready_dummy.
Qed.

Lemma readied_app k l l' : readied_all k (l ++ l') = readied_all (readied_all k l) l'.
Proof. apply foldl_app. Qed.

Lemma stream_order (b0 c1 b1 g1 b2 g2 : list Z) :
  (c1 = [] \/ b1 = [] /\ b2 = []) -> (g1 = [] \/ b2 = []) ->
  (b0 ++ c1) ++ (b1 ++ g1) ++ (b2 ++ g2) = (b0 ++ b1 ++ b2) ++ (c1 ++ g1) ++ g2.
Proof. intros [|[]] []; subst; by simplify_list_eq. Qed.

(** The outcome of the copies of a read: the bytes in the ring buffer and then those
    that the writers have, in order, are now those that have been read, those in the
    ring buffer, and those that writers still have. *)
Record was_read s s' p full rest (data total n : Z) : Prop := {
  rd_count : n = total `min` (bytes_used (pipes s !!! p) + need s (full ++ rest));
  rd_ring : ring_wf (pipes s' !!! p);
  rd_pipe : same_pipe (pipes s !!! p) (pipes s' !!! p);
  rd_stream : contents (mem s) (pipes s !!! p) ++ gathered s (mem s) (full ++ rest) =
    bytes (mem s') data n ++ contents (mem s') (pipes s' !!! p) ++ gathered s' (mem s') rest;
  rd_full : forall t, t ∈ full -> bytes_to_xfer (desc s' (at_ s t)) = 0;
  rd_rest : reduced s s' rest;
  rd_refill : forall t, head rest = Some t -> bytes_used (pipes s' !!! p) = size (pipes s !!! p) \/ want s' t = 0
}.

Lemma gathered_app s m l l' : gathered s m (l ++ l') = gathered s m l ++ gathered s m l'.
Proof. induction l as [|t l IH]; [done|]. cbn. by rewrite IH, app_assoc. Qed.

(** The copies to the reader. *)
Record copied_out s s3 p full rest passed left (data total n : Z) : Prop := {
  co_count : n = total `min` (bytes_used (pipes s !!! p) + need s (full ++ rest));
  co_split : full = passed ++ left;
  co_kernel : ker s3 = readied_all (ker s) passed;
  co_ring : ring_wf (pipes s3 !!! p);
  co_pipe : same_pipe (pipes s !!! p) (pipes s3 !!! p);
  co_fits : need s3 left <= size (pipes s3 !!! p) - bytes_used (pipes s3 !!! p);
  co_stream : contents (mem s) (pipes s !!! p) ++ gathered s (mem s) (full ++ rest) =
    bytes (mem s3) data n ++ (contents (mem s3) (pipes s3 !!! p) ++ gathered s3 (mem s3) left) ++ gathered s3 (mem s3) rest;
  co_passed : forall t, t ∈ passed -> bytes_to_xfer (desc s3 (at_ s t)) = 0;
  co_left : reduced s s3 (left ++ rest)
}.

Lemma drained_need {s s' l passed left} {data n n' : Z} :
  drained s s' l passed left data n n' -> (forall t, t ∈ l -> 0 <= want s t) -> n <= n' -> need s' left = need s l - (n' - n).
Proof.
  intros D Hw Hn. pose proof (dr_stream D) as Hst. apply (f_equal length), (f_equal Z.of_nat) in Hst.
  rewrite length_app, Nat2Z.inj_add, bytes_length, !gathered_length in Hst; [lia| |done|lia].
  intros t Ht. destruct (dr_left D t Ht) as (_ & c & Hc & E). unfold want in *. rewrite E. cbn [advance bytes_to_xfer]. lia.
Qed.

Lemma read_stream s s2 s3 m1 (x x1 : k_pipe) full rest left (data n1 n2 n3 : Z) :
  contents (mem s) x = bytes m1 data n1 ++ contents m1 x1 -> contents (mem s3) x1 = contents m1 x1 ->
  gathered s (mem s) full = bytes (mem s2) (data + n1) (n2 - n1) ++ gathered s2 (mem s2) left ->
  gathered s3 (mem s3) left = gathered s2 (mem s2) left ->
  gathered s (mem s) rest = bytes (mem s3) (data + n2) (n3 - n2) ++ gathered s3 (mem s3) rest ->
  only m1 (mem s2) (data + n1) (n2 - n1) -> only (mem s2) (mem s3) (data + n2) (n3 - n2) -> 0 <= n1 <= n2 -> n2 <= n3 ->
  (bytes_used x1 = 0 \/ n1 = n3) -> (left = [] \/ n2 = n3) ->
  contents (mem s) x ++ gathered s (mem s) (full ++ rest) =
    bytes (mem s3) data n3 ++ (contents (mem s3) x1 ++ gathered s3 (mem s3) left) ++ gathered s3 (mem s3) rest.
Proof.
  intros E1 E2 E3 E4 E5 O1 O2 H1 H2 Hc Hl. rewrite gathered_app, E1, E2, E3, E4, E5.
  assert (bytes (mem s3) data n3 = bytes m1 data n1 ++ bytes (mem s2) (data + n1) (n2 - n1) ++ bytes (mem s3) (data + n2) (n3 - n2)) as ->.
  { replace n3 with (n1 + ((n2 - n1) + (n3 - n2))) at 1 by lia. rewrite !bytes_app by lia. replace (data + n1 + (n2 - n1)) with (data + n2) by lia.
    f_equal; [|f_equal].
    - etransitivity; eapply bytes_only; [exact O2| |exact O1|]; unfold disjoint; lia.
    - eapply bytes_only; [exact O2|]. unfold disjoint. lia. }
  apply stream_order.
  - destruct Hc as [Hc|Hc]; [left; unfold contents; by rewrite Hc|right; split; apply bytes_0; lia].
  - destruct Hl as [->|Hl]; [by left|right; apply bytes_0; lia].
Qed.

Lemma reduced_then_same s s1 s2 l : reduced s s1 l -> same_requests s1 s2 l -> reduced s s2 l.
Proof. intros H1 H2 t Ht. destruct (H1 t Ht) as (E1 & c & Hc & D1), (H2 t Ht) as [-> ->]. split; [done|by exists c]. Qed.

Lemma copied_out_intro s s1 s2 s3 p full rest passed left (data total n1 n2 n3 : Z) :
  let x := pipes s !!! p in
  let x1 := pipes s1 !!! p in
  areas_ok s x (full ++ rest) data total -> need s full <= total ->
  same_requests s s1 (full ++ rest) -> ker s1 = ker s -> ring_wf x1 -> same_pipe x x1 -> n1 = bytes_used x `min` total -> bytes_used x1 = bytes_used x - n1 ->
  contents (mem s) x = bytes (mem s1) data n1 ++ contents (mem s1) x1 -> only (mem s) (mem s1) data n1 ->
  drained s1 s2 full passed left data n1 n2 -> n2 = total `min` (n1 + need s full) -> (left <> [] -> n2 = total) ->
  drained s2 s3 rest [] rest data n2 n3 -> n2 <= n3 <= total -> n3 = total `min` (bytes_used x + need s (full ++ rest)) ->
  copied_out s s3 p full rest passed left data total n3.
Proof.
  intros x x1 [Hwf Hsep Hw Hd Hb Hdis H0] Hle Hr1 Ek1 Hwf1 Hsp En1 Hu1 Hct Ho1 D2 En2 Hlf D3 Hn3 En3.
  pose proof (rw_used _ Hwf) as Hu. apply separate_app in Hsep as (Hs1 & Hs2 & Hs3).
  assert (same_requests s s1 full) as Hr1f by (intros t Ht; apply Hr1, elem_of_app; by left).
  assert (same_requests s s1 rest) as Hr1r by (intros t Ht; apply Hr1, elem_of_app; by right).
  assert (forall t, t ∈ full -> 0 <= want s t) as Hwf' by (intros t Ht; apply Hw, elem_of_app; by left).
  pose proof (need_nonneg s full Hwf') as Hnf.
  assert (same_requests s s2 rest) as Hr2.
  { eapply same_requests_trans; [exact Hr1r|]. eapply drained_requests; [exact D2|]. intros t u Ht Hu'.
    rewrite (proj1 (Hr1f t Ht)), (proj1 (Hr1r u Hu')). by apply Hs3. }
  assert (forall t, t ∈ full -> at_ s2 t = at_ s t) as Eat2.
  { intros t Ht. rewrite <- (proj1 (Hr1f t Ht)). unfold at_. by rewrite (dr_kernel D2), readied_swap_data. }
  assert (forall t, t ∈ left -> t ∈ full) as Hlfull by (intros t Ht; rewrite (dr_split D2); apply elem_of_app; by right).
  assert (same_requests s2 s3 left) as Hr3.
  { eapply drained_requests; [exact D3|]. intros t u Ht Hu'. rewrite (proj1 (Hr2 t Ht)), Eat2 by (by apply Hlfull).
    apply not_eq_sym. apply Hs3; [by apply Hlfull|done]. }
  assert (need s3 left = n1 + need s full - n2) as Enl.
  { rewrite (need_same _ _ _ Hr3), (drained_need D2), (need_same _ _ _ Hr1f); [lia| |lia]. intros t Ht. unfold want. rewrite (proj2 (Hr1f t Ht)). by apply Hwf'. }
  assert (pipes s3 = pipes s1) as Ep by (destruct (dr_objects D2), (dr_objects D3); intuition congruence).
  split; rewrite ?Ep; try done.
  - by apply D2.
  - rewrite (dr_kernel D3), <- Ek1. apply D2.
  - destruct Hsp as (_ & Hsz & _). fold x1. rewrite Hsz, Enl, Hu1. lia.
  - assert (forall t, t ∈ full ++ rest -> clear_of s data n1 t) as Hd1.
    { intros t Ht. specialize (Hd t Ht). unfold clear_of, disjoint in *. lia. }
    apply (read_stream _ s2 _ (mem s1) _ _ _ _ _ _ n1 n2); try done; fold x1.
    + apply contents_same; [done|]. intros q Hq. destruct Hsp as (Eb & Ez & _). fold x1 in Hq. rewrite Eb, Ez in Hq.
      rewrite (dr_memory D3), (dr_memory D2); [done| |]; unfold disjoint in Hdis; lia.
    + rewrite <- (dr_stream D2), (gathered_same _ _ _ _ Hr1f). symmetry. eapply gathered_only; [exact Ho1|].
      intros t Ht. apply Hd1, elem_of_app. by left.
    + rewrite (gathered_same _ _ _ _ Hr3). eapply gathered_only; [apply D3|]. intros t Ht.
      apply (reduced_clear s1 s2 left); [apply D2|done|]. unfold clear_of, want. rewrite (proj2 (Hr1f t (Hlfull t Ht))).
      specialize (Hd t ltac:(apply elem_of_app; left; by apply Hlfull)). unfold clear_of, want, disjoint in *. lia.
    + rewrite <- (dr_stream D3), (gathered_same _ _ _ _ Hr2). symmetry. eapply (gathered_only _ _ _ _ data n2).
      * intros q Hq. rewrite (dr_memory D2), Ho1; [done| |]; lia.
      * intros t Ht. specialize (Hd t ltac:(apply elem_of_app; by right)). unfold clear_of, disjoint in *. lia.
    + apply D2.
    + apply D3.
    + lia.
    + lia.
    + lia.
    + destruct left; [by left|]. right. specialize (Hlf ltac:(done)). lia.
  - intros t Ht. assert (t ∈ full) as Htf by (rewrite (dr_split D2); apply elem_of_app; by left).
    rewrite (dr_others D3).
    + rewrite <- (proj1 (Hr1f t Htf)), (dr_passed D2) by done. unfold want. cbn [advance bytes_to_xfer]. lia.
    + intros u Hu'. rewrite (proj1 (Hr2 u Hu')). by apply Hs3.
  - intros t [Ht|Ht]%elem_of_app.
    + eapply (reduced_then_same s s2 s3 left); [|done|done]. eapply same_reduced; [|apply D2]. intros u Hu'. by apply Hr1f, Hlfull.
    + eapply (same_reduced s s2 s3 rest); [done|apply D3|done].
Qed.

Lemma copy_out_spec s p full rest (data total : Z) :
  let x := pipes s !!! p in
  areas_ok s x (full ++ rest) data total -> real (ker s) full ->
  need s full <= total -> (forall t, head rest = Some t -> total < need s full + want s t) ->
  exists s3 passed left n, copied_out s s3 p full rest passed left data total n /\
    read_all s p full (head rest) data total =
      let* (s4, _) := refill s3 p left in ret (match head rest with Some t => refill_from s4 p t | None => s4 end) n.
Proof.
  intros x Hok Hre Hle Hrest. pose proof Hok as [Hwf Hsep Hw Hd Hb Hdis H0]. unfold read_all. fold x.
  apply separate_app in Hsep as (Hs1 & Hs2 & Hs3).
  destruct (buffer_get_spec (mem s) x data total) as (m1 & x1 & -> & Hn1 & Hwf1 & Hsp & Hu1 & Hct & Ho1); [done|done|unfold disjoint in *; lia|].
  set (n1 := bytes_used x `min` total) in *. set (s1 := set_pipe (set_mem s m1) p x1).
  assert (pipes s1 !!! p = x1) as Ex1 by (cbn; apply lookup_total_insert_eq).
  assert (forall l, same_requests s s1 l) as Hr1 by (by intros l t _).
  destruct (drain_spec full s1 data total n1) as (s2 & passed & left & -> & Hlf & D2).
  { by apply (separate_same s). }
  { intros t Ht. split; [apply Hw|apply Hd]; apply elem_of_app; by left. }
  { done. }
  { unfold n1. lia. }
  rewrite (need_same _ _ _ (Hr1 full)) in *. set (n2 := total `min` (n1 + need s full)) in *. cbn [bind].
  assert (same_requests s s2 rest) as Hr2.
  { eapply same_requests_trans; [apply Hr1|]. eapply drained_requests; [exact D2|]. intros t u Ht Hu. by apply Hs3. }
  assert (forall t, t ∈ rest -> 0 <= want s t /\ clear_of s data total t) as Hlr
    by (intros t Ht; split; [apply Hw|apply Hd]; apply elem_of_app; by right).
  pose proof (need_nonneg s full ltac:(intros t Ht; apply Hw, elem_of_app; by left)) as Hnf.
  destruct (part_spec s2 rest data total n2) as (s3 & n3 & -> & Hn3 & Hn3' & Hn3'' & D3).
  { by apply (separate_same s). }
  { intros t Ht. unfold clear_of, want. rewrite (proj2 (Hr2 t Ht)). by apply Hlr. }
  { unfold n2. lia. }
  exists s3, passed, left, n3. split; [|done].
  eapply (copied_out_intro s s1 s2); rewrite ?Ex1; try done. fold x.
  rewrite need_app. destruct rest as [|t rest]; cbn [head need] in *; [rewrite Hn3'' by done; lia|].
  rewrite (Hn3' t eq_refl). destruct (Hr2 t ltac:(left)) as [_ Ed]. unfold want at 1. rewrite Ed. fold (want s t).
  specialize (Hrest t eq_refl). pose proof (need_nonneg s rest ltac:(intros u Hu; apply Hlr; by right)). lia.
Qed.

Lemma read_all_spec s p full rest (data total : Z) :
  areas_ok s (pipes s !!! p) (full ++ rest) data total -> real (ker s) full ->
  need s full <= total -> (forall t, head rest = Some t -> total < need s full + want s t) ->
  exists s' n, read_all s p full (head rest) data total = ret s' n /\ ker s' = readied_all (ker s) full /\
    was_read s s' p full rest data total n.
Proof.
  intros Hok Hre Hle Hrest. destruct (copy_out_spec s p full rest data total Hok Hre Hle Hrest) as (s3 & passed & left & n & Hc & ->).
  destruct Hc as [Cn Cs Ck Cr Cp Cf Cst Cpa Cl]. destruct Hok as [Hwf Hsep Hw Hd Hb Hdis H0]. set (x := pipes s !!! p) in *.
  destruct Cp as (Eb & Ez & Erd & Ewr). set (x3 := pipes s3 !!! p) in *. rewrite Cs, <- app_assoc in Hsep, Hb, Hw.
  apply separate_app in Hsep as (_ & Hsep & Hpl).
  pose proof (reduced_separate _ _ _ Cl Hsep) as Hsep3. apply separate_app in Hsep3 as (Hs3 & Hs4 & Hs5).
  assert (forall t, t ∈ left ++ rest -> 0 <= want s3 t /\ clear_of s3 (buf x3) (size x3) t) as Hl3.
  { intros t Ht. rewrite Eb, Ez. apply and_comm. apply (reduced_clear s s3 (left ++ rest)); [done|done|]. apply Hb, elem_of_app. by right. }
  assert (forall t, at_ s3 t = at_ s t) as Eat by (intros t; unfold at_; by rewrite Ck, readied_swap_data).
  destruct (refill_spec left p s3) as (s4 & -> & Ek4 & Em & Hf4); [done|by intros t Ht; apply Hl3, elem_of_app; left| |done|done|].
  { intros t Ht. rewrite Ck, readied_dummy. apply Hre. rewrite Cs. apply elem_of_app. by right. }
  assert (same_requests s3 s4 rest) as Hr4.
  { apply (met_requests _ _ _ _ Em); [intros t u Ht Hu; by apply Hs5|]. intros u _. unfold at_. by rewrite Ek4, readied_swap_data. }
  pose proof Hf4 as [R1 (Eb4 & Ez4 & _) _ R4 R5]. fold x3 in Eb4, Ez4, R4, R5. cbn [bind].
  destruct (refill_part s4 p rest) as (new & Hf5 & Eg & Ek5 & Hrd & Ho5 & Hrf); [done|by apply (separate_same s3)| |].
  { rewrite Eb4, Ez4. intros t Ht. unfold clear_of, want. rewrite (proj2 (Hr4 t Ht)). apply Hl3, elem_of_app. by right. }
  set (s5 := match head rest with Some t => refill_from s4 p t | None => s4 end) in *. eexists s5, n. split; [done|].
  split; [by rewrite Ek5, Ek4, Ck, Cs, readied_app|].
  pose proof (refilled_trans _ _ _ _ _ _ Hf4 Hf5) as [T1 (T2 & T3 & T4 & T5) _ T6 T7]. fold x3 in T2, T3, T4, T5, T6, T7.
  split; fold x; try done.
  - unfold same_pipe. by rewrite T2, T3, T4, T5.
  - rewrite Cst. fold x3. rewrite T6, <- !app_assoc. f_equal; [|f_equal; f_equal].
    + symmetry. eapply bytes_only; [exact T7|]. rewrite Eb, Ez. unfold disjoint in *. lia.
    + rewrite <- Eg, (gathered_same _ _ _ _ Hr4). symmetry. eapply gathered_only; [exact R5|]. intros t Ht. apply Hl3, elem_of_app. by right.
  - intros t Ht. rewrite Ho5.
    + rewrite Cs in Ht. apply elem_of_app in Ht as [Ht|Ht].
      * rewrite (me_others _ _ _ Em); [by apply Cpa|]. intros u Hu. rewrite Eat. apply Hpl; [done|]. apply elem_of_app. by left.
      * rewrite <- Eat, (me_done _ _ _ Em t Ht). unfold want. cbn [advance bytes_to_xfer]. lia.
    + intros u Hu. rewrite (proj1 (Hr4 u Hu)). rewrite Cs in Ht. apply elem_of_app in Ht as [Ht|Ht].
      * rewrite Eat. apply Hpl; [done|]. apply elem_of_app. by right.
      * rewrite <- Eat. by apply Hs5.
  - eapply reduced_trans; [|exact Hrd]. eapply reduced_then_same; [|exact Hr4]. intros t Ht. apply Cl, elem_of_app. by right.
  - intros t Ht. rewrite <- Ez, <- Ez4. by apply Hrf.
Qed.

Lemma contents_length m (x : k_pipe) : ring_wf x -> Z.of_nat (length (contents m x)) = bytes_used x.
Proof. intros [Hu _ _]. unfold contents. rewrite length_fmap, length_seqZ. lia. Qed.

Lemma reduced_need s s' l : (forall t, t ∈ l -> 0 <= want s t) -> reduced s s' l -> 0 <= need s' l <= need s l.
Proof.
  intros Hw. induction l as [|t l IH]; intros Hr; cbn [need]; [lia|].
  destruct (Hr t ltac:(left)) as (_ & c & Hc & E). assert (want s' t = want s t - c) as -> by (unfold want; by rewrite E).
  specialize (IH ltac:(intros u Hu; apply Hw; by right) ltac:(intros u Hu; apply Hr; by right)). lia.
Qed.

(** What [was_read] says of the numbers of bytes. *)
Lemma read_balance s s' p full rest (data total n : Z) :
  let x := pipes s !!! p in
  let x' := pipes s' !!! p in
  was_read s s' p full rest data total n -> ring_wf x -> 0 <= total -> (forall t, t ∈ full ++ rest -> 0 <= want s t) ->
  (forall t, head rest = Some t -> total < need s full + want s t) ->
  (rest = [] -> bytes_used x' = bytes_used x + need s full - n) /\ (rest <> [] -> n = total /\ (bytes_used x = size x -> bytes_used x' = size x)).
Proof.
  intros x x' [Rn Rr (_ & Rz & _) Rs _ Rd Rf] Hwf H0 Hw Hrest. fold x x' in Rn, Rr, Rz, Rs, Rf.
  assert (forall t, t ∈ rest -> 0 <= want s t) as Hwr by (intros t Ht; apply Hw, elem_of_app; by right).
  pose proof (need_nonneg s full ltac:(intros t Ht; apply Hw, elem_of_app; by left)) as Hnf. pose proof (need_nonneg s rest Hwr) as Hnr.
  pose proof (rw_used _ Hwf). pose proof (rw_used _ Rr). rewrite need_app in Rn.
  apply (f_equal length), (f_equal Z.of_nat) in Rs. rewrite !length_app, !Nat2Z.inj_add, !contents_length, bytes_length, !gathered_length, need_app in Rs;
    [|intros t Ht; destruct (Rd t Ht) as (_ & c & Hc & E); unfold want in *; rewrite E; cbn [advance bytes_to_xfer]; lia|done|lia|done|done].
  split; [intros ->; cbn [need] in *; lia|]. destruct rest as [|t rest]; [done|]. intros _. specialize (Hrest t eq_refl). cbn [need] in *.
  pose proof (reduced_need s s' rest ltac:(intros u Hu; apply Hwr; by right) ltac:(intros u Hu; apply Rd; by right)).
  split; [lia|]. intros Hfull. destruct (Rf t eq_refl) as [Hz|Hz]; lia.
Qed.

Lemma get_balanced s s1 p full rest (data total n timeout : Z) :
  let x := pipes s !!! p in
  let x1 := pipes s1 !!! p in
  queues (ker s) !!! writers_q x = full ++ rest -> queues (ker s1) !!! writers_q x = rest ->
  same_pipe x x1 -> ring_wf x -> 0 <= total -> (forall t, t ∈ full ++ rest -> 0 <= want s t) ->
  n = total `min` (bytes_used x + need s (full ++ rest)) ->
  (rest = [] -> bytes_used x1 = bytes_used x + need s full - n) -> (rest <> [] -> n = total /\ (bytes_used x = size x -> bytes_used x1 = size x)) ->
  left_over s s1 (readers_q x) data total n timeout -> balanced s p -> balanced s1 p.
Proof.
  intros x x1 Hl Hl1 (Eb & Ez & Er & Ew) Hwf H0 Hw En Hu Hu' [_ Hq1]. unfold balanced. fold x x1. unfold readers_q, writers_q in *.
  rewrite Er, Ew, Ez, Hl, Hl1, Hq1. intros [B1 B2]. pose proof (rw_used _ Hwf) as Hux. rewrite need_app in En.
  pose proof (need_nonneg s full ltac:(intros t Ht; apply Hw, elem_of_app; by left)).
  destruct rest as [|t rest].
  - specialize (Hu eq_refl). cbn [need] in En. split; [done|]. rewrite app_nil_r in *.
    destruct (Z.eqb_spec n total) as [Hnt|Hnt], (Z.eqb_spec timeout K_NO_WAIT); cbn [orb]; intros Hne; try lia.
    all: specialize (B2 Hne); destruct full as [|u full]; [cbn [need] in *; lia|by destruct (B1 ltac:(done)) as [_ Hr]].
  - destruct (Hu' ltac:(done)) as [-> Hf]. rewrite Z.eqb_refl. cbn [orb].
    destruct (B1 ltac:(by destruct full)) as [Hs Hr]. rewrite Hr. split; [|done]. intros _. split; [by apply Hf|done].
Qed.

Lemma parked_dummy k t u : _is_thread_dummy (parked k t) u = _is_thread_dummy k u.
Proof.
  rewrite !dummy_bit. destruct (decide (u = t)) as [->|Hne]; [|by rewrite parked_other]. rewrite parked_bit by done. apply andb_true_r.
Qed.

Lemma locked_real k full : real k full -> real (_sched_lock (parked_all k full)) full.
Proof.
  intros Hre t Ht. etransitivity; [|by apply Hre].
  assert (forall l k', _is_thread_dummy (parked_all k' l) t = _is_thread_dummy k' t) as E.
  { induction l as [|u l IH]; intros k'; [done|]. change (parked_all k' (u :: l)) with (parked_all (parked k' u) l). by rewrite IH, parked_dummy. }
  rewrite <- (E full k), !dummy_bit. unfold _sched_lock. rewrite thr_upd_thread. by destruct (decide _) as [->|].
Qed.

Lemma was_read_same s s0 s' p full rest (data total n : Z) :
  same_requests s s0 (full ++ rest) -> mem s0 = mem s -> pipes s0 = pipes s ->
  was_read s0 s' p full rest data total n -> was_read s s' p full rest data total n.
Proof.
  intros Hr Em Ep [R1 R2 R3 R4 R5 R6 R7]. rewrite Ep, ?Em, ?(need_same _ _ _ Hr), ?(gathered_same _ _ _ _ Hr) in *. split; try done.
  - intros t Ht. rewrite <- (proj1 (Hr t ltac:(apply elem_of_app; by left))). by apply R5.
  - eapply same_reduced; [|exact R6]. intros t Ht. apply Hr, elem_of_app. by right.
Qed.

(** The copies that a read makes, before it returns or waits. *)
Lemma get_copies s p (data total min_xfer timeout : Z) :
  let x := pipes s !!! p in
  let l := queues (ker s) !!! writers_q x in
  let n := total `min` (bytes_used x + need s l) in
  sys_inv (ker s) -> areas_ok s x l data total -> real (ker s) l -> bytes_used x + need s l < 2 ^ 32 -> min_xfer <= total ->
  (timeout = K_NO_WAIT -> min_xfer <= bytes_used x + need s l) ->
  exists full rest s3, l = full ++ rest /\ ker s3 = served_kernel (ker s) full /\ was_read s s3 p full rest data total n /\
    need s full <= total /\ (forall t, head rest = Some t -> total < need s full + want s t) /\
    _impl_k_pipe_get tf s p data total min_xfer timeout =
      if n =? total then let* (s', _) := serviced ker s3 (set_ker s3 (k_sched_unlock (ker s3))) in ret s' (0, n)
      else pipe_wait tf s3 (readers_q x) (data + n) (total - n) total min_xfer timeout.
Proof.
  intros x l n Hs Hok Hre Hov Hm Hmin.
  pose proof (ri_nodup _ _ (si_rq _ _ (ki_sched _ _ _ (sy_kinv _ Hs))) (writers_q x)) as Hnd.
  pose proof (rw_used _ (wo_ring _ _ _ _ _ Hok)) as Hu.
  pose proof (prepare_spec s (writers_q x) (bytes_used x) total min_xfer timeout Hnd (wo_want _ _ _ _ _ Hok) ltac:(lia) Hm
    (wo_total _ _ _ _ _ Hok) ltac:(fold l; lia)) as Hp. fold l in Hp.
  assert ((timeout =? K_NO_WAIT) && (need s l + bytes_used x <? min_xfer) = false) as Eb.
  { destruct (Z.eqb_spec timeout K_NO_WAIT) as [E|]; [|done]. specialize (Hmin E). destruct (Z.ltb_spec (need s l + bytes_used x) min_xfer); [lia|done]. }
  rewrite Eb in Hp. destruct Hp as (full & rest & El & Ep & H1 & H2). exists full, rest.
  unfold _impl_k_pipe_get. fold x. rewrite Ep. cbv beta iota zeta.
  set (s2 := set_ker (set_ker s _) _). change (ker (set_ker s ?k)) with k in s2.
  assert (same_requests s s2 (full ++ rest)) as Hr by (apply (kernel_requests s), locked_swap_data).
  assert (same_requests s s2 full) as Hrf by (intros t Ht; apply Hr, elem_of_app; by left).
  rewrite El in Hok, Hre. destruct (read_all_spec s2 p full rest data total) as (s3 & n3 & -> & Ek & Hrd).
  - by apply (areas_ok_same s).
  - unfold s2. cbn [ker set_ker]. apply locked_real. intros t Ht. apply Hre, elem_of_app. by left.
  - by rewrite (need_same _ _ _ Hrf).
  - intros t Ht. rewrite (need_same _ _ _ Hrf). unfold want. rewrite (proj2 (Hr t (head_elem full _ _ Ht))). by apply H2.
  - apply (was_read_same s) in Hrd; [|done|done|done]. pose proof Hrd as [Wn _ (_ & _ & Err & _) _ _ _ _]. fold x in Wn, Err.
    rewrite <- El in Wn. fold n in Wn. subst n3. exists s3. split; [done|].
    destruct (served_spec (ker s) full (xO (writers x)) Hs ltac:(by exists rest)) as (_ & _ & _ & V4 & _).
    split; [rewrite Ek; exact V4|]. split; [done|]. split; [done|]. split; [done|]. cbn [bind]. unfold readers_q at 1. by rewrite Err.
Qed.

(** C21. [k_pipe_get] for [total] bytes, when threads wait to write: the data in the
    ring buffer and then those of the writers, the first of them first, are one
    stream.  The call gets the first bytes of it, as many as it asks for or there
    are; what is left of the stream is, in order, in the ring buffer and with the
    writers that still wait: no byte is lost, repeated or moved.  The writers that leave
    the queue are the longest part of it, from its front, that has at most [total] bytes
    together: all their data are across, and they are on their ready queues, unless they
    have been suspended or aborted; the others keep waiting.  The call returns when it
    has all it asked for; otherwise its thread waits for the rest, or returns if it does
    not want to wait.  If before the call threads wait to write only when the buffer is
    full, and to read only when it is empty, that is so after it.  The writers are
    threads, none of them an asynchronous write; the buffers do not overlap, and a call
    that does not want to wait can get [min_xfer] bytes. *)
Theorem pipe_get_stream s p (data total min_xfer timeout : Z) :
  let x := pipes s !!! p in
  let l := queues (ker s) !!! writers_q x in
  let avail := bytes_used x + need s l in
  let n := total `min` avail in
  sys_inv (ker s) -> current (ker s) <> idle_thread -> wait_ok timeout -> readers x <> writers x ->
  areas_ok s x l data total -> real (ker s) l -> (forall t, t ∈ l -> at_ s t <> desc_addr (current (ker s))) ->
  avail < 2 ^ 32 -> min_xfer <= total -> (timeout = K_NO_WAIT -> min_xfer <= avail) ->
  exists full rest s1, l = full ++ rest /\ need s full <= total /\ (forall t, head rest = Some t -> total < need s full + want s t) /\
    _impl_k_pipe_get tf s p data total min_xfer timeout = transfer_ends s s1 total n min_xfer timeout /\ sys_inv (ker s1) /\
    ring_wf (pipes s1 !!! p) /\
    contents (mem s) x ++ gathered s (mem s) l =
      bytes (mem s1) data n ++ contents (mem s1) (pipes s1 !!! p) ++ gathered s1 (mem s1) rest /\
    (forall t, t ∈ full -> bytes_to_xfer (desc s1 (at_ s t)) = 0 /\ runs_again (ker s) (ker s1) t) /\
    queues (ker s1) !!! writers_q x = rest /\ left_over s s1 (readers_q x) data total n timeout /\
    (balanced s p -> balanced s1 p).
Proof.
  intros x l avail n Hs Hid Hw Hrw Hok Hre Hat Hov Hm Hmin.
  destruct (get_copies s p data total min_xfer timeout Hs Hok Hre Hov Hm Hmin) as (full & rest & s3 & El & Ek & Hrd & Hneed & Hrest & ->). fold x l in El, Hrd |- *.
  fold avail n in Hrd |- *. pose proof Hok as [Hwf _ Hwt _ _ _ H0]. rewrite El in Hat, Hwt.
  pose proof (read_balance _ _ _ _ _ _ _ _ Hrd Hwf H0 Hwt Hrest) as [B1 B2]. destruct Hrd as [Wn Wr Wp Wst Wf Wrd _].
  destruct (transfer_end tf s s3 full rest (writers x) (readers x) data total n min_xfer timeout Hs Hid Hw ltac:(done) El Ek) as
    (s1 & E & T1 & T2 & T3 & T4 & T5 & T6 & T7 & T8).
  assert (same_requests s3 s1 rest) as Hr3.
  { intros t Ht. assert (t ∈ l) as Htl by (rewrite El; apply elem_of_app; by right).
    assert (at_ s1 t = at_ s3 t) as E1.
    { rewrite (proj1 (Wrd t Ht)). apply T8, not_eq_sym. by apply (waiter_not_current (ker s) (xO (writers x)) t Hs). }
    split; [done|]. unfold desc_of. fold (at_ s1 t) (at_ s3 t). rewrite E1, (proj1 (Wrd t Ht)). apply T4, Hat. apply elem_of_app. by right. }
  exists full, rest, s1. rewrite T2, T3. split_and!; try done.
  - rewrite El, (gathered_same _ _ _ _ Hr3). exact Wst.
  - intros t Ht. split; [|by apply T6]. rewrite T4 by (apply Hat, elem_of_app; by left). by apply Wf.
  - apply (get_balanced s s1 p full rest data total n timeout); rewrite ?T3; try done.
Qed.

End Read.

(** ** Asynchronous writes *)

Section Async.
Context `{KConfig}.
Implicit Types (s : state) (a : tid).
Variable tf : positive -> toid -> kernel -> kernel.

Lemma ins_prio_elem (f : tid -> Z) a (l : list tid) : a ∈ ins_prio f a l.
Proof. induction l as [|u l IH]; [left|]. cbn [ins_prio]. case_match; [left|by right]. Qed.

(** C40. [k_pipe_block_put] loses data: when no thread waits to read and not all the
    data fit into the ring buffer, the asynchronous descriptor waits in the queue of
    writers, but nothing has stored in it where the rest of the data are and how
    many bytes are left: its [buffer] and [bytes_to_xfer] are what its last use, or
    the uninitialised memory, left there.  This is what a reader will take. *)
Theorem block_put_loses_rest s p block (total : Z) sm a items :
  let x := pipes s !!! p in
  sys_inv (ker s) -> Stack.stack_ok (ker s) (pipe_async_msgs s) (Zpos a :: items) ->
  areas_ok s x [] (MemPool.data block) total -> size x < 2 ^ 32 ->
  queues (ker s) !!! readers_q x = [] -> size x - bytes_used x < total ->
  exists s1, k_pipe_block_put tf s p block total sm = serviced ker s s1 /\
    a ∈ queues (ker s1) !!! writers_q x /\ bytes_used (pipes s1 !!! p) = size x /\
    buffer (desc s1 (desc_addr a)) = buffer (desc s (desc_addr a)) /\
    bytes_to_xfer (desc s1 (desc_addr a)) = bytes_to_xfer (desc s (desc_addr a)).
Proof.
  intros x Hs Hst Hok Hsz Hq Hlt. unfold k_pipe_block_put, _pipe_async_alloc.
  destruct (Stack.pop_spec tf (ker s) (pipe_async_msgs s) items (Zpos a) K_FOREVER Hst) as (stack' & -> & _ & _ & _).
  cbn [bind Z.to_pos]. set (s1 := set_ker _ _).
  assert (pipes s1 !!! p = x) as Ex by done. pose proof (rw_used _ (wo_ring _ _ _ _ _ Hok)) as Hu.
  pose proof (prepare_spec s1 (readers_q x) (size x - bytes_used x) total total K_FOREVER) as Hp.
  assert (queues (ker s1) !!! readers_q x = []) as Hq1 by done. cbv zeta in Hp. rewrite Hq1 in Hp.
  destruct Hp as (full & rest & El & Ep & _ & _); [by apply NoDup_nil|by intros t []%elem_of_nil|lia|done|apply Hok|cbn; lia|].
  symmetry in El. apply app_nil in El as [-> ->].
  unfold _k_pipe_put_internal. rewrite Ex, Ep. cbv beta iota zeta. set (s2 := set_ker (set_ker s1 _) _).
  destruct (write_all_spec s2 p [] [] (MemPool.data block) total) as (s3 & n & E & Ek & [Wn Wr Wp _ Wu [_ _ Wg]]).
  { apply (areas_ok_same s); [by intros t []%elem_of_nil|done]. }
  { apply Hok. }
  { done. }
  change (pipes s2 !!! p) with x in *. cbn [app need head] in Wn, Wu. rewrite E. rewrite Z.add_0_l, Z.min_r in Wn by lia.
  destruct (Z.eqb_spec n total) as [|_]; [lia|]. destruct Wp as (_ & _ & _ & Eww). set (k := _reschedule_threads _).
  exists (set_ker s3 k). split; [unfold serviced; rewrite !finished_bind; apply finished_from; by rewrite Ek|].
  cbn [ker set_ker]. split; [|split; [|split]].
  - unfold k. rewrite resched_queues, pend_thread_queues by by left. unfold writers_q. rewrite Eww. unfold object_wq.
    rewrite pend_ins_prio; [apply ins_prio_elem|]. rewrite Ek. apply (ri_nodup _ _ (si_rq _ _ (ki_sched _ _ _ (sy_kinv _ Hs)))).
  - change (pipes (set_ker s3 k)) with (pipes s3). lia.
  - change (desc (set_ker s3 k) ?y) with (desc s3 y). rewrite Wg by (by intros t []%elem_of_nil || done).
    unfold desc. cbn [descs s2 s1 set_ker set_desc]. by rewrite lookup_total_insert_eq.
  - change (desc (set_ker s3 k) ?y) with (desc s3 y). rewrite Wg by (by intros t []%elem_of_nil || done).
    unfold desc. cbn [descs s2 s1 set_ker set_desc]. by rewrite lookup_total_insert_eq.
Qed.

End Async.

Section Witnesses.
Import Demo.
#[local] Existing Instance config.

(** Pipe 1 with the wait queues 11 and 12 and its buffer at 500.  Main waits, with
    its descriptor at 3; thread 4 runs. *)
Definition k_waits (w : positive) : kernel := _Swap (_pend_current_thread no_tf (upd_thread k_three 3 (with_swap_data 3)) (object_wq w) K_FOREVER).

Lemma k_waits_sys w : sys_inv (k_waits w).
Proof.
  apply (pend_object_sys no_tf); [by apply sys_upd_other, k_three_sys|by vm_compute|by right; left|by vm_compute].
Qed.

Definition no_blk : MemPool.k_mem_block := MemPool.mk_block 0 0 0 0.
Definition with_pipe (k : kernel) (m : LibC.memory) (d : k_pipe_desc) (x : k_pipe) : state :=
  mk_state k [] m (<[3 := d]> ∅) (<[1%positive := x]> ∅) ∅ (Stack.mk_stack 13 [9] 1 1).

(** The bytes 7, 8 and 9 at 100; main wants two bytes at 200. *)
Definition reader_waits : state :=
  with_pipe (k_waits 11) (<[100 := 7]> (<[101 := 8]> (<[102 := 9]> ∅))) (mk_desc 200 2 no_blk None) (mk_pipe 500 4 0 0 0 11 12).

(** The ring buffer is full with 5 and 6; main has 7, 8 and 9. *)
Definition writer_waits : state :=
  with_pipe (k_waits 12) (<[500 := 5]> (<[501 := 6]> (<[100 := 7]> (<[101 := 8]> (<[102 := 9]> ∅))))) (mk_desc 100 3 no_blk None) (mk_pipe 500 2 2 0 0 11 12).

Lemma one_waits s x t (data total : Z) :
  ring_wf x -> 0 <= want s t -> clear_of s data total t -> clear_of s (buf x) (size x) t -> disjoint (buf x) (size x) data total -> 0 <= total ->
  areas_ok s x [t] data total.
Proof.
  intros. split; try done; [split; [by intros u []%elem_of_nil|done]|..]; by intros u [->|[]%elem_of_nil]%elem_of_cons.
Qed.

Lemma reader_waits_ok : areas_ok reader_waits (pipes reader_waits !!! 1%positive) [3%positive] 100 3.
Proof.
  apply one_waits; [|by vm_compute|right; by vm_compute|left; by vm_compute|right; by vm_compute|done].
  split; [by vm_compute|left; by vm_compute|by vm_compute].
Qed.

Lemma writer_waits_ok : areas_ok writer_waits (pipes writer_waits !!! 1%positive) [3%positive] 300 4.
Proof.
  apply one_waits; [|by vm_compute|left; by vm_compute|left; by vm_compute|right; by vm_compute|done].
  split; [by vm_compute|left; by vm_compute|by vm_compute].
Qed.

Lemma reader_queue : queues (ker reader_waits) !!! readers_q (pipes reader_waits !!! 1%positive) = [3%positive].
Proof. vm_compute. reflexivity. Qed.

Lemma writer_queue : queues (ker writer_waits) !!! writers_q (pipes writer_waits !!! 1%positive) = [3%positive].
Proof. vm_compute. reflexivity. Qed.

Lemma pipe_put_stream_witness :
  exists s1, _impl_k_pipe_put no_tf reader_waits 1 100 3 3 K_FOREVER = finished ker reader_waits s1 (0, 3) /\ sys_inv (ker s1).
Proof.
  destruct (pipe_put_stream no_tf reader_waits 1 100 3 3 K_FOREVER (k_waits_sys 11)) as (full & rest & s1 & new & _ & _ & _ & E & Hs & _).
  - by vm_compute.
  - by right; left.
  - by vm_compute.
  - rewrite reader_queue. exact reader_waits_ok.
  - rewrite reader_queue. intros t [->|[]%elem_of_nil]%elem_of_cons. by vm_compute.
  - rewrite reader_queue. by vm_compute.
  - lia.
  - intros Hn. exfalso. revert Hn. by vm_compute.
  - rewrite reader_queue in E. exists s1. split; [exact E|exact Hs].
Defined.

Lemma pipe_get_stream_witness :
  exists s1, _impl_k_pipe_get no_tf writer_waits 1 300 4 4 K_FOREVER = finished ker writer_waits s1 (0, 4) /\ sys_inv (ker s1).
Proof.
  destruct (pipe_get_stream no_tf writer_waits 1 300 4 4 K_FOREVER (k_waits_sys 12)) as (full & rest & s1 & _ & _ & _ & E & Hs & _).
  - by vm_compute.
  - by right; left.
  - by vm_compute.
  - rewrite writer_queue. exact writer_waits_ok.
  - rewrite writer_queue. intros t [->|[]%elem_of_nil]%elem_of_cons. by vm_compute.
  - rewrite writer_queue. intros t [->|[]%elem_of_nil]%elem_of_cons. by vm_compute.
  - rewrite writer_queue. by vm_compute.
  - lia.
  - intros Hn. exfalso. revert Hn. by vm_compute.
  - rewrite writer_queue in E. exists s1. split; [exact E|exact Hs].
Defined.

(** A block of three bytes at 100 for the same pipe, with descriptor 9; the ring
    buffer is full. *)
Definition full_pipe : state := with_pipe k_three ∅ (mk_desc 0 0 no_blk None) (mk_pipe 500 2 2 0 0 11 12).

Lemma block_put_loses_rest_witness :
  exists s1, k_pipe_block_put no_tf full_pipe 1 (MemPool.mk_block 0 0 0 100) 3 None = serviced ker full_pipe s1 /\
    9%positive ∈ queues (ker s1) !!! object_wq 12 /\ bytes_to_xfer (desc s1 9) = 0.
Proof.
  destruct (block_put_loses_rest no_tf full_pipe 1 (MemPool.mk_block 0 0 0 100) 3 None 9 [] k_three_sys) as (s1 & E & Hq & _ & _ & Hb).
  - split; [done|simpl; lia|done|by vm_compute].
  - split; [split; [by vm_compute|left; by vm_compute|by vm_compute]|done|by intros t []%elem_of_nil|by intros t []%elem_of_nil|by intros t []%elem_of_nil|right; by vm_compute|done].
  - by vm_compute.
  - by vm_compute.
  - by vm_compute.
  - exists s1. split; [exact E|]. split; [exact Hq|exact Hb].
Defined.

End Witnesses.
End Pipe.
