(* ===== verification/PipeSys.v ===== *)
(** * Pipes and the kernel

    A transfer through a pipe keeps the kernel's invariant and the machine widths,
    wherever the buffers are and whatever the waiting threads want to transfer. *)

From S2P Require Import Prelude DList ListStore Kernel Ksched ReadyQ TimeoutQ KInv Sched Types Thread LibC Resume Parking Pipe.

Local Open Scope Z_scope.
Local Open Scope proc_scope.

Module PipeSys.
Import Pipe.

Section PipeSys.
Context `{KConfig}.
Context (tf : positive -> toid -> kernel -> kernel) {Htf : TypedFunc tf}.
Implicit Types (s : state) (p : positive) (x : k_pipe) (t : tid) (k : kernel) (l full rest : list tid).

(** ** What the parts of a transfer do to the kernel *)

Lemma take_waiting_kernel l : forall fuel s q (bytes n : Z) acc s' full r,
  queues (ker s) !!! q = l -> NoDup l -> take_waiting fuel s q bytes n acc = (s', full, r) ->
  exists served rest, full = acc ++ served /\ l = served ++ rest /\ s' = set_ker s (parked_all (ker s) served).
Proof.
  assert (forall s, s = set_ker s (parked_all (ker s) [])) as Hnil by (by intros []).
  induction l as [|t l IH]; intros fuel s q bytes n acc s' full r Hq Hnd E.
  { exists [], []. rewrite app_nil_r. destruct fuel; cbn [take_waiting] in E; [by simplify_eq|]. unfold Lst.peek_head in E. rewrite Hq in E. by simplify_eq/=. }
  destruct fuel as [|fuel]; cbn [take_waiting] in E; [simplify_eq; exists [], (t :: l); by rewrite app_nil_r|].
  unfold Lst.peek_head in E. rewrite Hq in E. cbn [head] in E. destruct (_ >? _); [simplify_eq; exists [], (t :: l); by rewrite app_nil_r|].
  fold (parked (ker s) t) in E. pose proof Hnd as [Ht Hnd']%NoDup_cons.
  apply IH in E as (served & rest & -> & -> & ->); [exists (t :: served), rest; by rewrite <- app_assoc| |done].
  cbn [ker set_ker]. rewrite parked_fields. cbn [queues set_timeouts set_timeout_q set_threads set_queues].
  rewrite Lst.lookup_remove, Hq. by apply (filter_ne_split t [] l).
Qed.

Lemma prepare_kernel s q (space bytes min_xfer timeout : Z) s' full r :
  sys_inv (ker s) -> _pipe_xfer_prepare s q space bytes min_xfer timeout = Some (s', full, r) ->
  exists rest, queues (ker s) !!! q = full ++ rest /\ s' = set_ker s (parked_all (ker s) full).
Proof.
  intros Hs E. unfold _pipe_xfer_prepare in E. destruct (_ && _); [done|]. injection E as E.
  pose proof (ri_nodup _ _ (si_rq _ _ (ki_sched _ _ _ (sy_kinv _ Hs))) q) as Hnd.
  apply (take_waiting_kernel _ _ _ _ _ _ _ _ _ _ eq_refl Hnd) in E as (served & rest & -> & El & ->). by exists rest.
Qed.

(** The copies change memory, descriptors and the ring buffer. *)
Definition copies s s' p : Prop :=
  ker s' = ker s /\ readers (pipes s' !!! p) = readers (pipes s !!! p) /\ writers (pipes s' !!! p) = writers (pipes s !!! p).

Lemma copies_trans s s1 s2 p : copies s s1 p -> copies s1 s2 p -> copies s s2 p.
Proof. intros (A1 & A2 & A3) (B1 & B2 & B3). split_and!; congruence. Qed.

Lemma buffer_put_queues (m : LibC.memory) x (src n : Z) m' x' c :
  _pipe_buffer_put m x src n = (m', x', c) -> readers x' = readers x /\ writers x' = writers x.
Proof. unfold _pipe_buffer_put, put_run, _pipe_xfer. cbv beta iota zeta. by intros [= <- <- <-]. Qed.

Lemma buffer_get_queues (m : LibC.memory) x (dst n : Z) m' x' c :
  _pipe_buffer_get m x dst n = (m', x', c) -> readers x' = readers x /\ writers x' = writers x.
Proof. unfold _pipe_buffer_get, get_run, _pipe_xfer. cbv beta iota zeta. by intros [= <- <- <-]. Qed.

Lemma set_pipe_copies s p (m : LibC.memory) x :
  readers x = readers (pipes s !!! p) /\ writers x = writers (pipes s !!! p) -> copies s (set_pipe (set_mem s m) p x) p.
Proof. intros [E1 E2]. unfold copies. cbn [ker pipes set_pipe set_mem]. by rewrite lookup_total_insert_eq. Qed.

Lemma copy_to_copies s p t (data bytes n : Z) : copies s (fst (copy_to s t data bytes n)) p.
Proof. done. Qed.
Lemma copy_from_copies s p t (data bytes n : Z) : copies s (fst (copy_from s t data bytes n)) p.
Proof. done. Qed.

Lemma refill_from_copies s p t : copies s (refill_from s p t) p.
Proof.
  unfold refill_from. cbv zeta. destruct (_pipe_buffer_put _ _ _ _) as [[m x] c] eqn:E. apply buffer_put_queues in E.
  exact (set_pipe_copies s p m x E).
Qed.

(** The threads of [l] have been made ready besides. *)
Definition serves s s' p l : Prop :=
  ker s' = readied_all (ker s) l /\ readers (pipes s' !!! p) = readers (pipes s !!! p) /\ writers (pipes s' !!! p) = writers (pipes s !!! p).

Lemma serves_copies s s1 s2 p l : serves s s1 p l -> copies s1 s2 p -> serves s s2 p l.
Proof. intros (A1 & A2 & A3) (B1 & B2 & B3). split_and!; congruence. Qed.

Lemma copies_serves s s1 s2 p t l :
  copies s s1 p -> serves (set_ker s1 (_ready_thread (ker s1) t)) s2 p l -> serves s s2 p (t :: l).
Proof. intros (A1 & A2 & A3) (B1 & B2 & B3). cbn [ker set_ker pipes] in *. split_and!; [|congruence..]. by rewrite B1, A1. Qed.

Lemma serves_app s s1 s2 p l l' : serves s s1 p l -> serves s1 s2 p l' -> serves s s2 p (l ++ l').
Proof. intros (A1 & A2 & A3) (B1 & B2 & B3). split_and!; [|congruence..]. by rewrite B1, A1, readied_app. Qed.

Lemma serve_readers_serves p l : forall s (data bytes n : Z), serves s (fst (serve_readers s l data bytes n)) p l.
Proof.
  induction l as [|t l IH]; intros s data bytes n; [done|]. cbn [serve_readers]. pose proof (copy_to_copies s p t data bytes n) as Hc.
  destruct (copy_to s t data bytes n) as [s1 n1]. eapply copies_serves; [exact Hc|apply IH].
Qed.

Lemma write_all_serves s p full r (data bytes : Z) : serves s (fst (write_all s p full r data bytes)) p full.
Proof.
  unfold write_all. pose proof (serve_readers_serves p full s data bytes 0) as Hs. destruct (serve_readers s full data bytes 0) as [s1 n1]. cbn [fst] in Hs.
  assert (copies s1 (fst (match r with Some t => copy_to s1 t data bytes n1 | None => (s1, n1) end)) p) as Hc by (by destruct r).
  destruct (match r with Some t => copy_to s1 t data bytes n1 | None => (s1, n1) end) as [s2 n2].
  destruct (_pipe_buffer_put _ _ _ _) as [[m x] c] eqn:E. apply buffer_put_queues in E. cbn [fst].
  eapply serves_copies; [exact Hs|]. eapply copies_trans; [exact Hc|]. by apply set_pipe_copies.
Qed.

Lemma drain_serves p l : forall s (data bytes n : Z), real (ker s) l ->
  exists s' passed left n', drain_writers s l data bytes n = ret s' (left, n') /\ l = passed ++ left /\ serves s s' p passed.
Proof.
  induction l as [|t l IH]; intros s data bytes n Hr; cbn [drain_writers]; [by exists s, [], [], n|].
  destruct (n <? bytes); [|by exists s, [], (t :: l), n]. pose proof (copy_from_copies s p t data bytes n) as Hc.
  destruct (copy_from s t data bytes n) as [s1 n1]. cbn [fst] in Hc. destruct (n1 =? bytes); [by exists s1, [], (t :: l), n1|].
  pose proof (proj1 Hc) as Ek. rewrite thread_ready_real by (rewrite Ek; apply Hr; left). cbn [bind].
  destruct (IH (set_ker s1 (_ready_thread (ker s1) t)) data bytes n1) as (s' & passed & left & n' & E & El & Hs).
  - intros u Hu. cbn [ker set_ker]. rewrite ready_dummy, Ek. apply Hr. by right.
  - exists s', (t :: passed), left, n'. split; [done|]. split; [by rewrite El|]. by eapply copies_serves.
Qed.

Lemma refill_serves p l : forall s, real (ker s) l -> exists s', refill s p l = ret s' tt /\ serves s s' p l.
Proof.
  induction l as [|t l IH]; intros s Hr; cbn [refill]; [by exists s|]. pose proof (refill_from_copies s p t) as Hc. pose proof (proj1 Hc) as Ek.
  rewrite thread_ready_real by (rewrite Ek; apply Hr; left). cbn [bind].
  destruct (IH (set_ker (refill_from s p t) (_ready_thread (ker (refill_from s p t)) t))) as (s' & E & Hs).
  - intros u Hu. cbn [ker set_ker]. rewrite ready_dummy, Ek. apply Hr. by right.
  - exists s'. split; [done|]. by eapply copies_serves.
Qed.

Lemma read_all_serves s p full w (data bytes : Z) : real (ker s) full ->
  exists s' n, read_all s p full w data bytes = ret s' n /\ serves s s' p full.
Proof.
  intros Hr. unfold read_all. destruct (_pipe_buffer_get _ _ _ _) as [[m x] n] eqn:E. apply buffer_get_queues in E.
  pose proof (set_pipe_copies s p m x E) as Hc. set (s0 := set_pipe _ p x) in *. clearbody s0.
  destruct (drain_serves p full s0 data bytes n) as (s1 & passed & left & n1 & -> & El & H1); [by rewrite (proj1 Hc)|]. cbn [bind].
  set (y := match w with Some t => if n1 <? bytes then copy_from s1 t data bytes n1 else (s1, n1) | None => (s1, n1) end).
  assert (copies s1 (fst y) p) as H2 by (subst y; by repeat case_match). destruct y as [s2 n2]. cbn [fst] in H2.
  destruct (refill_serves p left s2) as (s3 & -> & H3).
  { intros t Ht. rewrite (proj1 H2), (proj1 H1), readied_dummy, (proj1 Hc). apply Hr. rewrite El. apply elem_of_app. by right. }
  eexists _, n2. cbn [bind]. split; [done|].
  assert (serves s s3 p full) as H4.
  { rewrite El. eapply (serves_app _ s2); [|exact H3]. eapply serves_copies; [|exact H2].
    destruct Hc as (C1 & C2 & C3), H1 as (D1 & D2 & D3). unfold serves. split_and!; congruence. }
  destruct w; [eapply serves_copies; [exact H4|apply refill_from_copies]|exact H4].
Qed.

(** ** The end of a transfer *)

Lemma transfer_ends_settles (P : state -> Prop) s s1 (total n min_xfer timeout : Z) : P s1 -> settles P (transfer_ends s s1 total n min_xfer timeout).
Proof.
  intros Hp. unfold transfer_ends. destruct (_ =? _); [by apply settles_finished|]. destruct (_ =? _); [|by intros s' [= <-]].
  apply settles_bind; [by apply settles_finished|]. by intros s' _ Hp' s2 [= <-].
Qed.

Lemma ty_parked l : forall k, typed k -> typed (parked_all k l).
Proof. induction l as [|t l IH]; intros k Hk; [done|]. apply (IH (parked k t)). unfold parked. eauto with ty. Qed.

Lemma ty_readied l : forall k, typed k -> typed (readied_all k l).
Proof. induction l as [|t l IH]; intros k Hk; [done|]. apply (IH (_ready_thread k t)). eauto with ty. Qed.

(** [s3] is the state in which all copies have been made. *)
Lemma transfer_settles s s3 full rest (w1 w2 : positive) (data total n min_xfer timeout : Z) :
  sys_inv (ker s) -> current (ker s) <> idle_thread -> wait_ok timeout -> w1 <> w2 ->
  queues (ker s) !!! object_wq w1 = full ++ rest -> ker s3 = readied_all (_sched_lock (parked_all (ker s) full)) full ->
  settles (fun s' => sys_inv (ker s') /\ (typed (ker s) -> typed (ker s')))
    (if n =? total then let* (s', _) := serviced ker s3 (set_ker s3 (k_sched_unlock (ker s3))) in ret s' (0, n)
     else pipe_wait tf s3 (object_wq w2) (data + n) (total - n) total min_xfer timeout).
Proof.
  intros Hs Hid Hw Hne Hq Ek. assert (typed (ker s) -> typed (ker s3)) as Ht by (rewrite Ek; eauto using ty_readied, ty_parked, ty_sched_lock).
  intros s' Hr. split.
  - destruct (served_spec (ker s) full (xO w1) Hs ltac:(by exists rest)) as (_ & _ & _ & V4 & _). rewrite V4 in Ek.
    destruct (transfer_end tf s s3 full rest w1 w2 data total n min_xfer timeout Hs Hid Hw Hne Hq Ek) as (s1 & E & T1 & _). rewrite E in Hr.
    by apply (transfer_ends_settles (fun s' => sys_inv (ker s')) s s1 total n min_xfer timeout T1).
  - intros Ht0. specialize (Ht Ht0). clear Hs Ek Ht0. revert s' Hr. change (settles (fun s' => typed (ker s'))
      (if n =? total then let* (s', _) := serviced ker s3 (set_ker s3 (k_sched_unlock (ker s3))) in ret s' (0, n)
       else pipe_wait tf s3 (object_wq w2) (data + n) (total - n) total min_xfer timeout)).
    assert (typed (k_sched_unlock (ker s3))) as Hu by (eauto with ty). destruct (_ =? _).
    { apply settles_bind; [by apply settles_finished|]. by intros s' _ Hp' s2 [= <-]. }
    unfold pipe_wait. cbv zeta. destruct (negb _).
    + intros s' [= <-]. cbn [ker set_ker set_desc]. eauto 12 with ty.
    + apply settles_bind; [by apply settles_finished|]. by intros s' _ Hp' s2 [= <-].
Qed.

(** ** The two calls *)

Lemma pipe_put_sys s p (data total min_xfer timeout : Z) :
  sys_inv (ker s) -> current (ker s) <> idle_thread -> wait_ok timeout -> readers (pipes s !!! p) <> writers (pipes s !!! p) ->
  settles (fun s' => sys_inv (ker s') /\ (typed (ker s) -> typed (ker s'))) (_impl_k_pipe_put tf s p data total min_xfer timeout).
Proof.
  intros Hs Hid Hw Hne. unfold _impl_k_pipe_put, _k_pipe_put_internal. set (x := pipes s !!! p) in *.
  destruct (_pipe_xfer_prepare _ _ _ _ _ _) as [[[s1 full] r]|] eqn:E; [|by intros s' [= <-]].
  apply prepare_kernel in E as (rest & Hq & ->); [|done]. set (s2 := set_ker _ (_sched_lock _)).
  destruct (write_all_serves s2 p full r data total) as (Wk & Wr & Ww). destruct (write_all s2 p full r data total) as [s3 n]. cbn [fst] in Wk, Wr, Ww. cbn [bind].
  assert (writers_q (pipes s3 !!! p) = object_wq (writers x)) as -> by (unfold writers_q; by rewrite Ww).
  by apply (transfer_settles s s3 full rest (readers x)).
Qed.

Lemma pipe_get_sys s p (data total min_xfer timeout : Z) :
  sys_inv (ker s) -> current (ker s) <> idle_thread -> wait_ok timeout -> readers (pipes s !!! p) <> writers (pipes s !!! p) ->
  real (ker s) (queues (ker s) !!! writers_q (pipes s !!! p)) ->
  settles (fun s' => sys_inv (ker s') /\ (typed (ker s) -> typed (ker s'))) (_impl_k_pipe_get tf s p data total min_xfer timeout).
Proof.
  intros Hs Hid Hw Hne Hre. unfold _impl_k_pipe_get. set (x := pipes s !!! p) in *.
  destruct (_pipe_xfer_prepare _ _ _ _ _ _) as [[[s1 full] r]|] eqn:E; [|by intros s' [= <-]].
  apply prepare_kernel in E as (rest & Hq & ->); [|done]. set (s2 := set_ker _ (_sched_lock _)).
  destruct (read_all_serves s2 p full r data total) as (s3 & n & -> & Wk & Wr & Ww).
  { apply locked_real. intros t Ht. apply Hre. rewrite Hq. apply elem_of_app. by left. }
  cbn [bind]. assert (readers_q (pipes s3 !!! p) = object_wq (readers x)) as -> by (unfold readers_q; by rewrite Wr).
  by apply (transfer_settles s s3 full rest (writers x)).
Qed.

End PipeSys.
End PipeSys.
