(* ===== verification/Typing.v ===== *)
(** * Every service keeps the machine widths

    [typed] is preserved by each operation on kernel objects and threads, so it can be
    carried along the executions of the whole system. *)

From S2P Require Import Prelude DList ListStore Kernel Ksched ReadyQ TimeoutQ KInv Sched Types.
From S2P Require Import Thread Demo Timer Sem Mutex SList Queue WorkQ MsgQ Stack MemSlab MemPool Heap.

Local Open Scope Z_scope.

Module Typing.

Lemma ty_unpended `{KConfig} k q k' r : _unpend_first_thread k q = (k', r) -> typed k -> typed k'.
Proof. intros E Hk. pose proof (ty_unpend_first k q Hk) as Hf. by rewrite E in Hf. Qed.

#[local] Hint Extern 3 (typed ?k) => match goal with E : _unpend_first_thread _ _ = (k, _) |- _ => apply (ty_unpended _ _ _ _ E) end : ty.

(** ** Threads *)

Section Threads.
Context `{KConfig} (tf : positive -> toid -> kernel -> kernel) {Htf : TypedFunc tf}.
Context (abort_call : positive -> kernel -> kernel) {Hab : Thread.AbortCallback abort_call}.
Implicit Types (k : kernel) (t : tid).

Lemma ty_init_base k t (p i o : Z) : typed k -> typed (Thread._init_thread_base k t p i o).
Proof.
  intros Hk. unfold Thread._init_thread_base, _init_thread_timeout. apply ty_init_timeout, ty_upd_thread; [|done].
  intros x []. split; cbn; eauto with ty. by vm_compute.
Qed.

Lemma ty_setup k t (p o : Z) : typed k -> typed (Thread._setup_new_thread k t p o).
Proof.
  intros Hk. unfold Thread._setup_new_thread, Thread._new_thread_init. apply ty_upd_thread; [|by apply ty_init_base]. by intros x [].
Qed.
#[local] Hint Resolve ty_setup : ty.

Lemma ty_start k t : typed k -> typed (Thread._impl_k_thread_start k t).
Proof. intros. unfold Thread._impl_k_thread_start. typ. Qed.
#[local] Hint Resolve ty_start : ty.
Lemma ty_schedule_new k t (d : Z) : typed k -> typed (Thread.schedule_new_thread tf k t d).
Proof. intros. unfold Thread.schedule_new_thread. typ. Qed.
#[local] Hint Resolve ty_schedule_new : ty.
Lemma ty_create k t (p o d : Z) : typed k -> typed (Thread._impl_k_thread_create tf k t p o d).
Proof. intros. unfold Thread._impl_k_thread_create. typ. Qed.
#[local] Hint Resolve ty_create : ty.
Lemma ty_cancel k t : typed k -> typed (fst (Thread._impl_k_thread_cancel k t)).
Proof. intros. unfold Thread._impl_k_thread_cancel. typ. Qed.
#[local] Hint Resolve ty_cancel : ty.
Lemma ty_suspend k t : typed k -> typed (Thread._impl_k_thread_suspend k t).
Proof. intros. unfold Thread._impl_k_thread_suspend, Thread._k_thread_single_suspend. typ. Qed.
#[local] Hint Resolve ty_suspend : ty.
Lemma ty_resume k t : typed k -> typed (Thread._impl_k_thread_resume k t).
Proof. intros. unfold Thread._impl_k_thread_resume, Thread._k_thread_single_resume. typ. Qed.
#[local] Hint Resolve ty_resume : ty.

Lemma ty_abort_call f k : typed k -> typed (abort_call f k).
Proof. apply Thread.ab_typed. Qed.
#[local] Hint Resolve ty_abort_call : ty.
Lemma ty_single_abort k t : typed k -> typed (Thread._k_thread_single_abort abort_call k t).
Proof. intros. unfold Thread._k_thread_single_abort. typ. Qed.
#[local] Hint Resolve ty_single_abort : ty.
Lemma ty_abort k t : typed k -> typed (Thread._impl_k_thread_abort abort_call k t).
Proof. intros. unfold Thread._impl_k_thread_abort. typ. Qed.
#[local] Hint Resolve ty_abort : ty.

End Threads.

#[export] Hint Resolve ty_setup ty_start ty_create ty_cancel ty_suspend ty_resume ty_abort : ty.

(** ** Boot *)

Section Boot.
Context `{KConfig}.
Implicit Types (k : kernel).

Lemma ty_zero (slice_size slice_prio : Z) : typed (Thread.zero_kernel slice_size slice_prio).
Proof.
  split; [intros t|intros o|intros m| |by vm_compute|by vm_compute].
  - unfold thr. cbn [threads Thread.zero_kernel]. rewrite lookup_total_empty. by split; vm_compute.
  - unfold tmo. cbn [timeouts Thread.zero_kernel]. rewrite lookup_total_empty. by vm_compute.
  - cbn [timers Thread.zero_kernel]. rewrite lookup_total_empty. by split; vm_compute.
  - cbn [prio_bmap Thread.zero_kernel]. induction (Z.to_nat K_NUM_PRIO_BITMAPS); cbn; constructor; [by vm_compute|done].
Qed.

Lemma ty_config_level levels k (level : Z) :
  Forall Thread.PreKernelInit (levels level) -> typed k -> typed (Thread._sys_device_do_config_level levels k level).
Proof.
  unfold Thread._sys_device_do_config_level. intros Hl. revert k. induction Hl as [|i l Hi _ IH]; intros k Hk; cbn [fold_left]; [done|].
  by apply IH, (Thread.pk_typed (i := i)).
Qed.

Lemma ty_boot levels (slice_size slice_prio : Z) (dummy main : tid) (main_prio : Z) :
  Thread.pre_kernel levels -> typed (Thread._Cstart levels slice_size slice_prio dummy main main_prio).
Proof.
  intros [H1 H2]. unfold Thread._Cstart, Thread.switch_to_main_thread. apply ty_Swap, ty_config_level, ty_config_level; [done|done|].
  unfold Thread.prepare_multithreading, Thread.init_ready_q. cbv zeta. pose proof (ty_zero slice_size slice_prio) as Hz.
  apply ty_set_timeout_q, ty_add_ready, ty_mark_started, ty_setup, ty_add_ready, ty_mark_started, ty_setup, ty_set_cache, ty_set_queues.
  apply ty_upd_thread; [|eauto with ty]. intros x []. split; try done; by vm_compute.
Qed.

End Boot.

(** ** Timers *)

Section Timers.
Context `{KConfig} (expiry_call stop_call : positive -> positive -> kernel -> kernel).
Context {Hex : Timer.KernelCallback expiry_call} {Hst : Timer.KernelCallback stop_call}.
Implicit Types (k : kernel) (m : positive).

Lemma ty_upd_timer k m f : (forall x, timer_typed x -> timer_typed (f x)) -> typed k -> typed (Timer.upd_timer k m f).
Proof. intros Hf Hk. apply ty_set_timers; [|done]. apply Hf, Hk. Qed.

Lemma ty_count k m : typed k -> typed (Timer.upd_timer k m (fun x => Timer.with_status (u32 (status x + 1)) x)).
Proof. apply ty_upd_timer. intros x []. split; [done|apply u32_is]. Qed.

Lemma ty_clear k m : typed k -> typed (Timer.upd_timer k m (Timer.with_status 0)).
Proof. apply ty_upd_timer. intros x []. split; [done|by vm_compute]. Qed.
#[local] Hint Resolve ty_count ty_clear : ty.

Lemma ty_expiry f m k : typed k -> typed (expiry_call f m k).
Proof. apply Timer.cb_typed. Qed.
Lemma ty_stop f m k : typed k -> typed (stop_call f m k).
Proof. apply Timer.cb_typed. Qed.
#[local] Hint Resolve ty_expiry ty_stop : ty.

Lemma ty_period k m : is_s32 (Timer.timer_period k m).
Proof. apply s32_is. Qed.
#[local] Hint Resolve ty_period : ty.

Lemma ty_expiration tf `{!TypedFunc tf} k m : typed k -> typed (Timer._timer_expiration_handler expiry_call tf k m).
Proof. intros Hk. unfold Timer._timer_expiration_handler. typ. Qed.

#[export] Instance no_func_typed : TypedFunc Timer.no_func.
Proof. by split. Qed.

#[export] Instance timer_func_typed : TypedFunc (Timer.timer_func expiry_call).
Proof. split. intros f o k Hk. unfold Timer.timer_func. repeat case_match; try done. by apply ty_expiration. Qed.

Lemma ty_ms_to_ticks (n : Z) : is_s32 (_ms_to_ticks n).
Proof. apply s32_is. Qed.
#[local] Hint Resolve ty_ms_to_ticks : ty.

Lemma ty_timer_start k m (d p : Z) : typed k -> typed (Timer._impl_k_timer_start expiry_call k m d p).
Proof.
  intros Hk. unfold Timer._impl_k_timer_start. cbv zeta. apply ty_add_timeout; [apply timer_func_typed|apply ty_ms_to_ticks|].
  apply ty_upd_timer; [intros x []; split; [apply ty_ms_to_ticks|by vm_compute]|]. typ.
Qed.

Lemma ty_timer_stop k m : typed k -> typed (Timer._impl_k_timer_stop stop_call k m).
Proof.
  intros Hk. unfold Timer._impl_k_timer_stop. pose proof (ty_abort_timeout k (TOtimer m) Hk) as Ha.
  destruct (_abort_timeout k (TOtimer m)) as [k1 r]. cbn [fst] in Ha. typ.
Qed.

Lemma ty_status_sync k m : typed k -> typed (fst (Timer._impl_k_timer_status_sync expiry_call k m)).
Proof. intros Hk. unfold Timer._impl_k_timer_status_sync. typ. Qed.

End Timers.

#[export] Hint Resolve ty_timer_start ty_timer_stop ty_status_sync : ty.

(** ** Kernel objects *)

Section Objects.
Context `{KConfig} (tf : positive -> toid -> kernel -> kernel) {Htf : TypedFunc tf}.
Implicit Types (k : kernel) (t : tid).

Lemma ty_sem_give k sem : typed k -> typed (fst (Sem._impl_k_sem_give k sem)).
Proof.
  intros Hk. unfold Sem._impl_k_sem_give, Sem.do_sem_give. destruct (_unpend_first_thread k (Sem.wq sem)) as [k1 [t|]] eqn:E; typ.
Qed.

Lemma ty_sem_take k sem (n : Z) : typed k -> typed (fst (fst (Sem._impl_k_sem_take tf k sem n))).
Proof. intros Hk. unfold Sem._impl_k_sem_take. typ. Qed.

Lemma ty_adjust k mutex (p : Z) k' : Mutex.adjust_owner_prio k mutex p = Some k' -> typed k -> typed k'.
Proof. unfold Mutex.adjust_owner_prio. intros E Hk. repeat case_match; simplify_eq; eauto with ty. Qed.
#[local] Hint Extern 3 (typed ?k) => match goal with E : Mutex.adjust_owner_prio _ _ _ = Some k |- _ => apply (ty_adjust _ _ _ _ E) end : ty.

Lemma ty_mutex_lock k mutex (n : Z) k' mutex' r :
  Mutex._impl_k_mutex_lock tf k mutex n = Some (k', mutex', r) -> typed k -> typed k'.
Proof. unfold Mutex._impl_k_mutex_lock. cbv zeta. intros E Hk. repeat case_match; simplify_eq; eauto with ty. Qed.

Lemma ty_mutex_resume k mutex (got : Z) k' r : Mutex.k_mutex_lock_resume k mutex got = Some (k', r) -> typed k -> typed k'.
Proof. unfold Mutex.k_mutex_lock_resume. cbv zeta. intros E Hk. repeat case_match; simplify_eq; eauto with ty. Qed.

Lemma ty_mutex_unlock k mutex k' mutex' : Mutex._impl_k_mutex_unlock k mutex = Some (k', mutex') -> typed k -> typed k'.
Proof. unfold Mutex._impl_k_mutex_unlock. cbv zeta. intros E Hk. repeat case_match; simplify_eq; eauto 10 with ty. Qed.

Lemma ty_prepare k t d : typed k -> typed (Queue.prepare_thread_to_run k t d).
Proof. intros Hk. unfold Queue.prepare_thread_to_run. typ. Qed.
#[local] Hint Resolve ty_prepare : ty.

Lemma ty_queue_insert k h q prev data : typed k -> typed (fst (fst (Queue.k_queue_insert k h q prev data))).
Proof. intros Hk. unfold Queue.k_queue_insert. typ. Qed.

Lemma ty_cancel_wait k q : typed k -> typed (Queue.k_queue_cancel_wait k q).
Proof. intros Hk. unfold Queue.k_queue_cancel_wait. typ. Qed.

Lemma ty_serve fuel : forall k h q hd, typed k -> typed (fst (Queue.serve_waiters fuel k h q hd)).
Proof.
  induction fuel as [|n IH]; intros k h q hd Hk; cbn [Queue.serve_waiters]; [done|]. repeat case_match; try apply IH; cbn [fst]; eauto with ty.
Qed.

Lemma ty_append_list k h q hd tl : typed k -> typed (fst (fst (Queue.k_queue_append_list k h q hd tl))).
Proof.
  intros Hk. unfold Queue.k_queue_append_list. cbv zeta. pose proof (ty_serve (S (length (queues k !!! Queue.wq q))) k h q hd Hk) as Hs.
  destruct (Queue.serve_waiters _ k h q hd) as [k1 hd1]. cbn [fst] in Hs. typ.
Qed.

Lemma ty_queue_get k h q (n : Z) : typed k -> typed (fst (fst (Queue.k_queue_get tf k h q n))).
Proof. intros Hk. unfold Queue.k_queue_get. typ. Qed.

Lemma ty_wake_thread k t (v : Z) : is_s32 v -> typed k -> typed (MsgQ.wake_thread k t v).
Proof. intros Hv Hk. unfold MsgQ.wake_thread. typ. Qed.
#[local] Hint Resolve ty_wake_thread : ty.

Lemma ty_msgq_put k mem q (d n : Z) : typed k -> typed (fst (fst (fst (MsgQ._impl_k_msgq_put tf k mem q d n)))).
Proof. intros Hk. unfold MsgQ._impl_k_msgq_put, MsgQ.block_current. typ. Qed.

Lemma ty_msgq_get k mem q (d n : Z) : typed k -> typed (fst (fst (fst (MsgQ._impl_k_msgq_get tf k mem q d n)))).
Proof. intros Hk. unfold MsgQ._impl_k_msgq_get, MsgQ.block_current. cbn [MsgQ.get_message]. typ. Qed.

Lemma ty_purge_waiters fuel : forall k q, typed k -> typed (MsgQ.purge_waiters fuel k q).
Proof.
  induction fuel as [|n IH]; intros k q Hk; cbn [MsgQ.purge_waiters]; [done|]. repeat case_match; try apply IH; eauto with ty.
Qed.
#[local] Hint Resolve ty_purge_waiters : ty.

Lemma ty_purge k q : typed k -> typed (fst (MsgQ._impl_k_msgq_purge k q)).
Proof. intros Hk. unfold MsgQ._impl_k_msgq_purge. typ. Qed.

Lemma ty_stack_push k st (d : Z) k' st' : Stack._impl_k_stack_push k st d = Some (k', st') -> typed k -> typed k'.
Proof. unfold Stack._impl_k_stack_push. cbv zeta. intros E Hk. repeat case_match; simplify_eq; eauto 10 with ty. Qed.

Lemma ty_stack_pop k st (n : Z) : typed k -> typed (fst (fst (Stack._impl_k_stack_pop tf k st n))).
Proof. intros Hk. unfold Stack._impl_k_stack_pop. typ. Qed.

Lemma ty_slab_alloc k mem slab (n : Z) : typed k -> typed (fst (fst (MemSlab.k_mem_slab_alloc tf k mem slab n))).
Proof. intros Hk. unfold MemSlab.k_mem_slab_alloc. typ. Qed.

Lemma ty_slab_free k mem slab (b : Z) : typed k -> typed (fst (fst (MemSlab.k_mem_slab_free k mem slab b))).
Proof. intros Hk. unfold MemSlab.k_mem_slab_free. typ. Qed.

Lemma ty_alloc_turn k pools (pid size n : Z) k' pools' r : Heap.alloc_turn tf k pools pid size n = Some (k', pools', r) -> typed k -> typed k'.
Proof. unfold Heap.alloc_turn. cbv zeta. intros E Hk. repeat case_match; simplify_eq; eauto with ty. Qed.

Lemma ty_pool_alloc k pools (pid size n : Z) k' pools' e r :
  Heap.k_mem_pool_alloc tf k pools pid size n = Some (k', pools', e, r) -> typed k -> typed k'.
Proof. unfold Heap.k_mem_pool_alloc. cbv zeta. intros E Hk. repeat case_match; simplify_eq; by eapply ty_alloc_turn. Qed.

Lemma ty_pool_resume k pools (pid size n e : Z) k' pools' rest r :
  Heap.k_mem_pool_alloc_resume tf k pools pid size n e = Some (k', pools', rest, r) -> typed k -> typed k'.
Proof. unfold Heap.k_mem_pool_alloc_resume. cbv zeta. intros E Hk. repeat case_match; simplify_eq; done || by eapply ty_alloc_turn. Qed.

Lemma ty_wake_all fuel : forall k q, typed k -> typed (Heap.wake_all fuel k q).
Proof. induction fuel as [|n IH]; intros k q Hk; cbn [Heap.wake_all]; [done|]. case_match; try apply IH; eauto with ty. Qed.
#[local] Hint Resolve ty_wake_all : ty.

Lemma ty_pool_free k pools b k' pools' : Heap.k_mem_pool_free k pools b = Some (k', pools') -> typed k -> typed k'.
Proof. unfold Heap.k_mem_pool_free. cbv zeta. intros E Hk. repeat case_match; simplify_eq; eauto with ty. Qed.

Lemma ty_work_submit s q w : typed (WorkQ.ker s) -> typed (WorkQ.ker (WorkQ.k_work_submit_to_queue s q w)).
Proof.
  intros Hk. unfold WorkQ.k_work_submit_to_queue. destruct (Atomic.Atomic.atomic_test_and_set_bit _ _) as [fl b]. cbv zeta. destruct (negb b); [|done].
  unfold Queue.k_queue_append. cbn [WorkQ.ker WorkQ.mem WorkQ.queue_of WorkQ.set_flags].
  match goal with |- context [Queue.k_queue_insert ?k ?h ?q ?p ?d] => pose proof (ty_queue_insert k h q p d Hk) as Hi end.
  by destruct (Queue.k_queue_insert _ _ _ _ _) as [[k1 h1] q1].
Qed.

Lemma ty_work_cancel fuel s w : typed (WorkQ.ker s) -> typed (WorkQ.ker (fst (WorkQ.k_delayed_work_cancel fuel s w))).
Proof. intros Hk. unfold WorkQ.k_delayed_work_cancel. repeat case_match; cbn; try done. by apply ty_abort_timeout. Qed.

Lemma ty_delayed_submit fuel s q w (d : Z) : typed (WorkQ.ker s) -> typed (WorkQ.ker (fst (WorkQ.k_delayed_work_submit_to_queue tf fuel s q w d))).
Proof.
  intros Hk. unfold WorkQ.k_delayed_work_submit_to_queue. cbv zeta. case_match; [done|].
  match goal with |- context [if ?c then WorkQ.k_delayed_work_cancel _ _ _ else _] => generalize c; intros b end.
  assert (exists s1 e, (if b then WorkQ.k_delayed_work_cancel fuel s w else (s, 0)) = (s1, e) /\
    typed (WorkQ.ker s1)) as (s1 & e & -> & H1).
  { case_match; [|by eauto]. pose proof (ty_work_cancel fuel s w Hk) as Hc. destruct (WorkQ.k_delayed_work_cancel fuel s w). eauto. }
  case_match; [done|]. cbn [fst]. case_match; [by apply ty_work_submit|]. cbn [WorkQ.ker WorkQ.set_ker]. apply ty_add_timeout; [done|apply s32_is|done].
Qed.

End Objects.

#[export] Hint Resolve ty_sem_give ty_sem_take ty_queue_insert ty_cancel_wait ty_append_list
  ty_queue_get ty_msgq_put ty_msgq_get ty_purge ty_stack_pop ty_slab_alloc ty_slab_free
  ty_work_submit ty_work_cancel : ty.
End Typing.
