(* ===== verification/System.v ===== *)
(** * The kernel as a transition system

    [step] collects what can happen between two instants at which interrupts
    are unlocked: a service called by the running thread, a service called by
    an interrupt handler, the tick, the entry and the exit of an interrupt.
    Services take arbitrary kernel objects, so the system is open: whatever
    objects an application has, its executions are executions of [step], as far as
    it makes the calls that [step] has.

    The services are those of threads, of the scheduler, of timers, semaphores, mutexes,
    queues, work queues, alerts, message queues, stacks, memory slabs and memory pools,
    and the synchronous ones of pipes.  Most guards are conditions that the interface
    documents or asserts: services that block are called by a thread other than the idle
    thread, never by an interrupt handler; the idle thread is not suspended, aborted or
    given another priority; priorities and times are in range; a mutex is unlocked by its
    owner.  These calls are left out though the interface allows them, since the
    invariant does not survive them or is only proved without them:

    - to resume a thread that can run ([Findings.resume_ready_corrupts]);
    - to start a timer that expires at once from a thread: the thread that waits for it
      is made ready, and the caller goes on even if that thread has a higher priority
      ([Findings.timer_start_now_no_switch]);
    - the calls of mailboxes, one of which puts a thread on no queue
      ([Mailbox.mbox_get_strands_sender]), [k_poll], and asynchronous writes to pipes;
    - [k_mutex_unlock] while timeouts are handled, and calls on a mutex whose owner and
      lock count disagree ([Findings.mutex_timeout_null_owner]);
    - [k_delayed_work_submit] with a delay, of a work item that is neither idle nor
      counting down.

    A tick is one step: the interrupts that the code lets in between two expired timeouts
    are not there, nor are those that come while a pipe copies.

    The theorems: every state that is reachable from the end of [_Cstart]
    satisfies the kernel's invariant, so a preemptible thread only runs when no
    thread of higher priority is ready. *)

From S2P Require Import Prelude DList ListStore Kernel Ksched ReadyQ TimeoutQ KInv Sched Types.
From S2P Require Import Thread Demo Timer Sem Mutex SList Queue WorkQ Alert MsgQ Stack MemSlab Heap Resume Pipe PipeSys Typing.

Local Open Scope Z_scope.

Import Timer Typing.

Module System.

#[local] Existing Instance Pipe.k_pipe_inhabited.
#[local] Existing Instance Alert.k_alert_inhabited.

Section System.
Context `{KConfig}.
Context (expiry_call stop_call : positive -> positive -> kernel -> kernel) (abort_call : positive -> kernel -> kernel).
Implicit Types (k : kernel) (t : tid).

Abbreviation tf := (Timer.timer_func expiry_call).

Definition thread_level k : Prop := nested k = 0.
Definition may_block k : Prop := nested k = 0 /\ current k <> idle_thread.

(** Services a thread may call and that do not wait. *)
Inductive thread_call : kernel -> kernel -> Prop :=
| call_yield k : thread_call k (_impl_k_yield k)
| call_sched_lock k : sched_locked (thr k (current k)) <> 1 -> thread_call k (k_sched_lock k)
| call_sched_unlock k : thread_call k (k_sched_unlock k)
| call_priority_set k t p : t <> idle_thread -> prio_range p -> thread_call k (_impl_k_thread_priority_set k t p)
| call_create k t p o delay :
    Thread.off k t -> t <> idle_thread -> prio_range p -> delay = K_FOREVER \/ delay = 0 \/ timeout_ok delay ->
    thread_call k (Thread._impl_k_thread_create tf k t p o delay)
| call_start k t : thread_call k (Thread._impl_k_thread_start k t)
| call_cancel k t : thread_call k (fst (Thread._impl_k_thread_cancel k t))
| call_suspend k t : t <> idle_thread -> thread_call k (Thread._impl_k_thread_suspend k t)
| call_resume k t : _is_thread_ready k t = false -> thread_call k (Thread._impl_k_thread_resume k t)
| call_abort k t : t <> idle_thread -> thread_call k (Thread._impl_k_thread_abort abort_call k t)
| call_slab_free k mem slab b : thread_call k (fst (fst (MemSlab.k_mem_slab_free k mem slab b)))
| call_purge k q : thread_call k (fst (MsgQ._impl_k_msgq_purge k q))
| call_append_list k h queue hd tl : thread_call k (fst (fst (Queue.k_queue_append_list k h queue hd tl)))
| call_unlock k mutex k' mutex' :
    Mutex.mutex_ok k mutex -> handling_timeouts k = false -> Mutex.owner mutex = Some (current k) ->
    Mutex._impl_k_mutex_unlock k mutex = Some (k', mutex') -> thread_call k k'
| call_timer_start k m duration p :
    0 <= duration < 2 ^ 31 -> _ms_to_ticks duration <> 0 ->
    thread_call k (Timer._impl_k_timer_start expiry_call k m duration p).

(** Services a thread may wait in. *)
Inductive blocking_call : kernel -> kernel -> Prop :=
| call_sleep k duration : duration = 0 \/ timeout_ok duration -> blocking_call k (_impl_k_sleep tf k duration)
| call_sem_take k sem timeout :
    wait_ok timeout -> blocking_call k (fst (fst (Sem._impl_k_sem_take tf k sem timeout)))
| call_lock k mutex timeout k' mutex' r :
    Mutex.mutex_ok k mutex -> Mutex.lock_count mutex + 1 < 2 ^ 32 -> wait_ok timeout ->
    Mutex._impl_k_mutex_lock tf k mutex timeout = Some (k', mutex', r) -> blocking_call k k'
| call_lock_resume k mutex got k' r :
    Mutex.mutex_ok k mutex -> Mutex.k_mutex_lock_resume k mutex got = Some (k', r) -> blocking_call k k'
| call_queue_get k h queue timeout :
    wait_ok timeout -> blocking_call k (fst (fst (Queue.k_queue_get tf k h queue timeout)))
| call_msgq_put k mem q data timeout :
    wait_ok timeout -> blocking_call k (fst (fst (fst (MsgQ._impl_k_msgq_put tf k mem q data timeout))))
| call_msgq_get k mem q data timeout :
    wait_ok timeout -> blocking_call k (fst (fst (fst (MsgQ._impl_k_msgq_get tf k mem q data timeout))))
| call_stack_pop k stack timeout :
    wait_ok timeout -> blocking_call k (fst (fst (Stack._impl_k_stack_pop tf k stack timeout)))
| call_slab_alloc k mem slab timeout :
    wait_ok timeout -> blocking_call k (fst (fst (MemSlab.k_mem_slab_alloc tf k mem slab timeout)))
| call_pool_alloc k pools pid size timeout k' pools' e r :
    wait_ok timeout -> Heap.k_mem_pool_alloc tf k pools pid size timeout = Some (k', pools', e, r) -> blocking_call k k'
| call_pool_alloc_resume k pools pid size timeout e k' pools' rest r :
    timeout = K_FOREVER \/ s32 (e - _tick_get k) < 2 ^ 31 - 1 ->
    Heap.k_mem_pool_alloc_resume tf k pools pid size timeout e = Some (k', pools', rest, r) -> blocking_call k k'
| call_pipe_put s p data total min_xfer timeout s1 :
    wait_ok timeout -> Pipe.readers (Pipe.pipes s !!! p) <> Pipe.writers (Pipe.pipes s !!! p) ->
    reached (Pipe._impl_k_pipe_put tf s p data total min_xfer timeout) = Some s1 -> blocking_call (Pipe.ker s) (Pipe.ker s1)
| call_pipe_get s p data total min_xfer timeout s1 :
    wait_ok timeout -> Pipe.readers (Pipe.pipes s !!! p) <> Pipe.writers (Pipe.pipes s !!! p) ->
    Pipe.real (Pipe.ker s) (queues (Pipe.ker s) !!! Pipe.writers_q (Pipe.pipes s !!! p)) ->
    reached (Pipe._impl_k_pipe_get tf s p data total min_xfer timeout) = Some s1 -> blocking_call (Pipe.ker s) (Pipe.ker s1)
| call_alert_recv s a timeout :
    wait_ok timeout -> blocking_call (WorkQ.ker (Alert.base s)) (WorkQ.ker (Alert.base (fst (Alert._impl_k_alert_recv tf s a timeout))))
| call_status_sync k m : blocking_call k (fst (Timer._impl_k_timer_status_sync expiry_call k m)).

(** Services callable from both levels. *)
Inductive any_call : kernel -> kernel -> Prop :=
| call_sem_give k sem : any_call k (fst (Sem._impl_k_sem_give k sem))
| call_queue_insert k h queue prev data : any_call k (fst (fst (Queue.k_queue_insert k h queue prev data)))
| call_cancel_wait k queue : any_call k (Queue.k_queue_cancel_wait k queue)
| call_stack_push k stack data k' stack' :
    Stack._impl_k_stack_push k stack data = Some (k', stack') -> any_call k k'
| call_pool_free k pools block k' pools' : Heap.k_mem_pool_free k pools block = Some (k', pools') -> any_call k k'
| call_work_submit s q w : any_call (WorkQ.ker s) (WorkQ.ker (WorkQ.k_work_submit_to_queue s q w))
| call_work_cancel fuel s w : any_call (WorkQ.ker s) (WorkQ.ker (fst (WorkQ.k_delayed_work_cancel fuel s w)))
| call_delayed_submit fuel s q w delay s' e :
    delay = 0 \/ WorkQ.counting_down s q w /\ timeout_ok delay ->
    WorkQ.k_delayed_work_submit_to_queue tf fuel s q w delay = (s', e) -> any_call (WorkQ.ker s) (WorkQ.ker s')
| call_alert_send s a : any_call (WorkQ.ker (Alert.base s)) (WorkQ.ker (Alert.base (Alert._impl_k_alert_send s a)))
| call_timer_stop k m : any_call k (Timer._impl_k_timer_stop stop_call k m)
| call_wakeup k t : any_call k (_impl_k_wakeup k t).

(** What only an interrupt handler does. *)
Inductive isr_call : kernel -> kernel -> Prop :=
| isr_tick k : isr_call k (_nano_sys_clock_tick_announce tf k 1)
| isr_timer_start k m duration p :
    0 <= duration < 2 ^ 31 -> isr_call k (Timer._impl_k_timer_start expiry_call k m duration p).

Inductive step : kernel -> kernel -> Prop :=
| step_thread k k' : thread_level k -> thread_call k k' -> step k k'
| step_blocking k k' : may_block k -> blocking_call k k' -> step k k'
| step_any k k' : any_call k k' -> step k k'
| step_isr k k' : 0 < nested k -> isr_call k k' -> step k k'
| step_irq_enter k : step k (irq_enter k)
| step_irq_exit k : 0 < nested k -> step k (irq_exit k true (bool_decide (nested k = 1))).

(** The states at the end of the boot sequence. *)
Inductive booted : kernel -> Prop :=
| boot_state levels slice_size slice_prio dummy main main_prio :
    Thread.pre_kernel levels -> main <> idle_thread -> prio_range main_prio ->
    booted (Thread._Cstart levels slice_size slice_prio dummy main main_prio).

Inductive reachable : kernel -> Prop :=
| reach_boot k : booted k -> reachable k
| reach_step k k' : reachable k -> step k k' -> reachable k'.

End System.

(** ** Theorems *)

Section Proofs.
Context `{KConfig}.
Context (expiry_call stop_call : positive -> positive -> kernel -> kernel) (abort_call : positive -> kernel -> kernel).
Context {Hex : Timer.KernelCallback expiry_call} {Hst : Timer.KernelCallback stop_call} {Hab : Thread.AbortCallback abort_call}.
Hypothesis ceiling_ok : prio_range PRIORITY_CEILING.
Implicit Types (k : kernel) (t : tid).

Abbreviation step := (step expiry_call stop_call abort_call).
Abbreviation reachable := (reachable expiry_call stop_call abort_call).

#[local] Hint Resolve yield_sys sched_lock_sys sched_unlock_sys priority_set_sys sleep_sys wakeup_sys : kdb.
#[local] Hint Resolve Thread.create_sys Thread.start_sys Thread.cancel_sys Thread.suspend_sys Thread.resume_sys Thread.abort_sys : kdb.
#[local] Hint Resolve Sem.take_sys Sem.give_sys Queue.queue_get_sys Queue.append_list_sys Queue.insert_sys Queue.cancel_wait_sys
  MsgQ.msgq_put_sys MsgQ.msgq_get_sys MsgQ.purge_sys Stack.pop_sys MemSlab.alloc_sys MemSlab.free_sys WorkQ.submit_sys WorkQ.work_cancel_sys : kdb.
#[local] Hint Resolve Timer.timer_start_sys Timer.timer_status_sync_sys Timer.timer_stop_sys : kdb.

(** An alert is sent by a work item or a semaphore, and received by a semaphore. *)
Lemma alert_send_kernel (P : kernel -> Prop) s a :
  (forall k sem, P k -> P (fst (Sem._impl_k_sem_give k sem))) ->
  (forall w q i, P (WorkQ.ker w) -> P (WorkQ.ker (WorkQ.k_work_submit_to_queue w q i))) ->
  P (WorkQ.ker (Alert.base s)) -> P (WorkQ.ker (Alert.base (Alert._impl_k_alert_send s a))).
Proof.
  intros Hg Hw Hp. unfold Alert._impl_k_alert_send. destruct (Alert.handler _) as [| |f].
  - unfold Alert.give_sem. pose proof (Hg _ (Alert.sem (Alert.alerts s !!! a)) Hp) as Hs. by destruct (Sem._impl_k_sem_give _ _).
  - done.
  - destruct (Atomic.Atomic.atomic_inc _) as [new old]. destruct (old =? 0); [|done]. by apply Hw.
Qed.

Lemma alert_recv_kernel tf s a (timeout : Z) :
  WorkQ.ker (Alert.base (fst (Alert._impl_k_alert_recv tf s a timeout))) =
  fst (fst (Sem._impl_k_sem_take tf (WorkQ.ker (Alert.base s)) (Alert.sem (Alert.alerts s !!! a)) timeout)).
Proof. unfold Alert._impl_k_alert_recv. by destruct (Sem._impl_k_sem_take _ _ _ _) as [[k sm] r]. Qed.

Lemma thread_call_sys k k' : thread_level k -> sys_inv k -> typed k -> thread_call expiry_call abort_call k k' -> sys_inv k'.
Proof.
  intros Hn Hs Ht Hc. destruct Hc; try solve [eauto with kdb].
  - apply sched_lock_sys; [done|done|]. apply (ty_threads _ Ht).
  - destruct (Mutex.unlock_sys k mutex) as (? & ? & E & ? & _); [done..|]. congruence.
Qed.

Lemma blocking_call_sys k k' : may_block k -> sys_inv k -> blocking_call expiry_call k k' -> sys_inv k'.
Proof.
  intros [Hn Hi] Hs Hc. destruct Hc; try solve [eauto with kdb].
  - destruct (Mutex.lock_sys (Timer.timer_func expiry_call) ceiling_ok k mutex timeout) as (? & ? & ? & E & ? & _); [done..|].
    congruence.
  - by eapply Mutex.lock_resume_sys.
  - by eapply Heap.pool_alloc_sys.
  - by eapply Heap.pool_alloc_resume_sys.
  - by apply (PipeSys.pipe_put_sys (timer_func expiry_call) s p data total min_xfer timeout Hs Hi).
  - by apply (PipeSys.pipe_get_sys (timer_func expiry_call) s p data total min_xfer timeout Hs Hi).
  - rewrite alert_recv_kernel. by apply Sem.take_sys.
Qed.

Lemma any_call_sys k k' : sys_inv k -> any_call expiry_call stop_call k k' -> sys_inv k'.
Proof.
  intros Hs Hc. destruct Hc; try solve [eauto with kdb].
  - by eapply Stack.push_sys.
  - by eapply Heap.pool_free_sys.
  - destruct (decide (delay = 0)) as [->|Hne].
    { pose proof (WorkQ.submit_now_sys (timer_func expiry_call) fuel s q w Hs) as Hd.
      by match goal with E : WorkQ.k_delayed_work_submit_to_queue _ _ _ _ _ _ = _ |- _ => rewrite E in Hd end. }
    match goal with Hor : delay = 0 \/ _ |- _ => destruct Hor as [?|[? ?]]; [done|] end.
    destruct (WorkQ.delayed_submit_spec (timer_func expiry_call) fuel s q w delay) as (? & E & ? & _); [done..|]. congruence.
  - apply (alert_send_kernel sys_inv); eauto with kdb.
Qed.

(** The tick never skips a timeout: all queued timeouts are in the future. *)
Lemma tick_sys k : sys_inv k -> nested k <> 0 -> sys_inv (_nano_sys_clock_tick_announce (Timer.timer_func expiry_call) k 1).
Proof.
  intros Hs Hn. apply (tick_announce_sys (timer_func expiry_call)); [done|done|]. intros hd Hh.
  pose proof (ti_head _ _ _ _ (ki_tq _ _ _ (sy_kinv _ Hs)) Hh). lia.
Qed.

Lemma isr_call_sys k k' : 0 < nested k -> sys_inv k -> isr_call expiry_call k k' -> sys_inv k'.
Proof.
  intros Hn Hs Hc. destruct Hc; [apply tick_sys; [done|lia]|].
  apply (timer_start_sys expiry_call); [done|done|left; lia].
Qed.

Lemma step_sys k k' : sys_inv k -> typed k -> step k k' -> sys_inv k'.
Proof.
  intros Hs Ht Hx. destruct Hx.
  - by eapply thread_call_sys.
  - by eapply blocking_call_sys.
  - by eapply any_call_sys.
  - by eapply isr_call_sys.
  - apply irq_enter_sys; [done|apply Ht].
  - apply irq_exit_sys; [done|done|]. case_bool_decide; [by left|right; lia].
Qed.

Lemma alert_typed s a : typed (WorkQ.ker (Alert.base s)) -> typed (WorkQ.ker (Alert.base (Alert._impl_k_alert_send s a))).
Proof. apply alert_send_kernel; eauto with ty. Qed.
#[local] Hint Resolve alert_typed : ty.

Lemma step_typed k k' : sys_inv k -> typed k -> step k k' -> typed k'.
Proof.
  intros Hs Ht Hx. destruct Hx as [k k' Hl Hc|k k' [Hl Hi] Hc|k k' Hc|k k' Hn Hc|k|k Hn]; [destruct Hc..| |]; eauto with ty.
  all: try first [by eapply (PipeSys.pipe_put_sys (timer_func expiry_call))|by eapply (PipeSys.pipe_get_sys (timer_func expiry_call))
                 |rewrite alert_recv_kernel; by eauto with ty].
  all: try first [by eapply (ty_mutex_lock (timer_func expiry_call))|by eapply ty_mutex_resume|by eapply ty_mutex_unlock|by eapply ty_stack_push|by eapply (ty_pool_alloc (timer_func expiry_call))
                 |by eapply (ty_pool_resume (timer_func expiry_call))|by eapply ty_pool_free].
  pose proof (ty_delayed_submit (timer_func expiry_call) fuel s q w delay Ht) as Hd.
  by match goal with E : WorkQ.k_delayed_work_submit_to_queue _ _ _ _ _ _ = _ |- _ => rewrite E in Hd end.
Qed.

Lemma reachable_inv k : reachable k -> sys_inv k /\ typed k.
Proof.
  induction 1 as [k []|k k' _ [IH1 IH2] Hx]; [split; [by apply Thread.boot_sys|by apply Typing.ty_boot]|].
  split; [by eapply step_sys|by eapply step_typed].
Qed.

Lemma reachable_sys k : reachable k -> sys_inv k.
Proof. intros Hr. by apply reachable_inv. Qed.

(** ** Main theorems *)

(** C1. Every state an application can reach from the end of the boot sequence, by any
    sequence of the calls of [step], ticks and interrupts, satisfies the kernel's
    invariant: the ready queues hold exactly the threads that can run, the
    bitmap and the cached next thread agree with them, each pending thread is
    on one wait queue, the timeout queue holds the active timeouts in the
    future, and the current thread can run.  [step] has the services of threads, the
    scheduler, timers, semaphores, mutexes, queues, work queues, alerts, message queues,
    stacks, memory slabs, memory pools and the synchronous ones of pipes.  It has not:
    the resumption of a thread that can run and, from a thread, the start of a timer with
    0 ticks, which both break the invariant; mailboxes, polling and asynchronous writes to
    pipes; delayed work items that are submitted with a delay while they are pending or
    attached to another queue; unlocking a mutex during a tick, and mutexes whose owner
    and count disagree.  A tick is one step.  The functions of the application that the
    kernel calls when a timer expires or is stopped and when a thread is aborted keep the
    invariant and do not switch threads. *)
Theorem reachable_invariant k : reachable k -> sys_inv k.
Proof. apply reachable_sys. Qed.

(** C2. Whenever a preemptible thread runs outside of interrupts, no thread that
    could run has a higher priority, in every state that the calls of [step] lead to from
    the boot.  They leave out the call after which it fails, the start of a timer with 0
    ticks from a thread (the thread that waits for the timer is made ready and the caller
    is not preempted), and those that C1 names besides. *)
Theorem runs_highest_priority k u :
  reachable k -> nested k = 0 -> _is_preempt k (current k) = true -> _is_thread_ready k u = true ->
  prio (thr k (current k)) <= prio (thr k u).
Proof. intros Hr%reachable_sys Hn Hp Hu. by apply (sy_top _ Hr). Qed.

(** C3. A thread that waits is not scheduled: in every state that the calls of [step]
    lead to from the boot (C1 names those it has and those it has not), a thread
    on a wait queue is pending, is on no other queue, and does not run. *)
Theorem waiting_thread_is_idle k t w :
  reachable k -> t ∈ queues k !!! WQ w ->
  _is_thread_pending k t = true /\ _is_thread_ready k t = false /\ current k <> t /\
  (forall q, t ∈ queues k !!! q -> q = WQ w).
Proof.
  intros Hr%reachable_sys Ht. destruct (waiter_not_current k w t Hr Ht) as [Hc Hp].
  pose proof (pending_not_ready _ _ Hp) as Hn. split_and!; [done|done|done|]. intros [i|w'] Hq.
  - apply (ri_rq _ _ (si_rq _ _ (ki_sched _ _ _ (sy_kinv _ Hr)))) in Hq as (_ & Hq & _). congruence.
  - f_equal. by apply (ri_uniq _ _ (si_rq _ _ (ki_sched _ _ _ (sy_kinv _ Hr))) t).
Qed.

(** Machine widths: in every reachable state each field of the kernel's data
    holds a value of its C type.  Options, states and lock counts of threads are
    8-bit unsigned, priorities 8-bit signed, return values 32-bit signed; the deltas
    of the timeout queue and the periods of timers are 32-bit signed, their expiry
    counts and the words of the priority bitmap 32-bit unsigned, the tick count 64-bit
    unsigned. *)
Theorem reachable_typed k : reachable k -> typed k.
Proof. intros Hr. by apply reachable_inv. Qed.

End Proofs.

Section Witnesses.
Import Demo.
#[local] Existing Instance config.

(** A tick while main runs after the boot. *)
Definition k_tick : kernel := _nano_sys_clock_tick_announce (timer_func no_call) (irq_enter k_boot) 1.
Definition k_after : kernel := irq_exit k_tick true (bool_decide (nested k_tick = 1)).

Lemma k_after_reachable : reachable no_call no_call no_abort k_after.
Proof.
  apply reach_step with k_tick; [apply reach_step with (irq_enter k_boot); [apply reach_step with k_boot|]|].
  - apply reach_boot. by apply (boot_state no_devices 0 0 2 3 0); [apply no_devices_init| |apply in_prio_range].
  - apply step_irq_enter.
  - apply step_isr; [vm_compute; reflexivity|exact (isr_tick no_call (irq_enter k_boot))].
  - apply step_irq_exit. vm_compute. reflexivity.
Qed.

(** Main waits for semaphore 7. *)
Definition k_pended : kernel := fst (fst (Sem._impl_k_sem_take (timer_func no_call) k_boot Sem.sem7 K_FOREVER)).

Lemma k_pended_reachable : reachable no_call no_call no_abort k_pended.
Proof.
  apply reach_step with k_boot; [apply reach_boot; by apply (boot_state no_devices 0 0 2 3 0); [apply no_devices_init| |apply in_prio_range]|].
  apply step_blocking; [split; [vm_compute; reflexivity|vm_compute; congruence]|].
  apply call_sem_take. by right; left.
Qed.

Lemma reachable_invariant_witness : sys_inv k_after.
Proof.
  exact (reachable_invariant no_call no_call no_abort Mutex.ceiling_in_range k_after k_after_reachable).
Defined.

Lemma reachable_typed_witness : typed k_after.
Proof.
  exact (reachable_typed no_call no_call no_abort Mutex.ceiling_in_range k_after k_after_reachable).
Defined.

Lemma runs_highest_priority_witness : prio (thr k_after (current k_after)) <= prio (thr k_after 1).
Proof.
  apply (runs_highest_priority no_call no_call no_abort Mutex.ceiling_in_range k_after 1 k_after_reachable);
    vm_compute; reflexivity.
Defined.

Lemma waiting_thread_is_idle_witness : _is_thread_ready k_pended 3 = false /\ current k_pended <> 3%positive.
Proof.
  destruct (waiting_thread_is_idle no_call no_call no_abort Mutex.ceiling_in_range k_pended 3 14 k_pended_reachable)
    as (_ & H1 & H2 & _); [apply (bool_decide_unpack _); vm_compute; exact I|].
  split; [exact H1|exact H2].
Defined.

End Witnesses.
End System.
