(* ===== verification/Poll.v ===== *)
(** * Polling (kernel/poll.c)

    A thread waits for several objects at once: [k_poll] links an event for each of
    them into the list [poll_events] of the object and waits on a queue of its own.
    The lists are those of DList.v, with their pointers, because an event may be
    unlinked twice.

    Heads of lists are at even and events at odd addresses.  A [struct _poller] is a
    variable of [k_poll] that holds the calling thread: a pointer to it is that
    thread.  The loops of [k_poll] unlock interrupts after each event; [k_poll] is the
    run without interrupts in between.  What depends on CONFIG_POLL in sem.c and
    queue.c is modelled for giving, inserting and cancelling. *)

From Stdlib Require Import Sorting.Sorted.
From S2P Require Import Prelude DList ListStore Kernel Ksched ReadyQ TimeoutQ KInv Sched Thread Demo Sem SList Queue.

Local Open Scope Z_scope.

Module Poll.
Import DList Refine.

(** ** Data (include/kernel.h) *)

Definition _POLL_TYPE_SIGNAL : Z := 1.
Definition _POLL_TYPE_SEM_AVAILABLE : Z := 2.
Definition _POLL_TYPE_DATA_AVAILABLE : Z := 3.
Definition _POLL_TYPE_BIT (type : Z) : Z := Z.shiftl 1 (type - 1).
Definition _POLL_STATE_SIGNALED : Z := 1.
Definition _POLL_STATE_SEM_AVAILABLE : Z := 2.
Definition _POLL_STATE_DATA_AVAILABLE : Z := 3.
Definition _POLL_STATE_BIT (state : Z) : Z := Z.shiftl 1 (state - 1).

Definition K_POLL_TYPE_IGNORE : Z := 0.
Definition K_POLL_TYPE_SIGNAL : Z := _POLL_TYPE_BIT _POLL_TYPE_SIGNAL.
Definition K_POLL_TYPE_SEM_AVAILABLE : Z := _POLL_TYPE_BIT _POLL_TYPE_SEM_AVAILABLE.
Definition K_POLL_TYPE_DATA_AVAILABLE : Z := _POLL_TYPE_BIT _POLL_TYPE_DATA_AVAILABLE.
Definition K_POLL_MODE_NOTIFY_ONLY : Z := 0.
Definition K_POLL_STATE_NOT_READY : Z := 0.
Definition K_POLL_STATE_SIGNALED : Z := _POLL_STATE_BIT _POLL_STATE_SIGNALED.
Definition K_POLL_STATE_SEM_AVAILABLE : Z := _POLL_STATE_BIT _POLL_STATE_SEM_AVAILABLE.
Definition K_POLL_STATE_DATA_AVAILABLE : Z := _POLL_STATE_BIT _POLL_STATE_DATA_AVAILABLE.
Definition EINTR : Z := 4.

(** [type] and [state] are bit-fields of four bits, [mode] has one. *)
Record k_poll_event := mk_event { poller : option tid; tag : Z; type : Z; state : Z; mode : Z; obj : positive }.

(** [poll_events] is the number of the list. *)
Record k_poll_signal := mk_signal { poll_events : positive; signaled : Z; result : Z }.

(** The objects; a semaphore and a queue come with the number of their list. *)
Record pstate := mk_pstate {
  ker : kernel;
  links : DList.heap;
  events : gmap positive k_poll_event;
  signals : gmap positive k_poll_signal;
  sems : gmap positive (Sem.k_sem * positive);
  fifos : gmap positive (Queue.k_queue * positive);
  items : SList.heap
}.

#[export] Instance k_poll_event_inhabited : Inhabited k_poll_event := populate (mk_event None 0 0 0 0 1).
#[export] Instance k_poll_signal_inhabited : Inhabited k_poll_signal := populate (mk_signal 1 0 0).
#[export] Instance k_sem_inhabited : Inhabited Sem.k_sem := populate (Sem.mk_sem 1 0 0).
#[export] Instance k_queue_inhabited : Inhabited Queue.k_queue := populate (Queue.mk_queue SList.sys_slist_init 1).

Definition poll_layout : Layout positive positive.
Proof. refine {| q_addr := xO; n_addr := xI |}; [congruence..|done]. Defined.
#[local] Existing Instance poll_layout.

Definition set_ker s (k : kernel) : pstate := mk_pstate k (links s) (events s) (signals s) (sems s) (fifos s) (items s).
Definition set_links s (h : DList.heap) : pstate := mk_pstate (ker s) h (events s) (signals s) (sems s) (fifos s) (items s).
Definition set_event s (e : positive) (x : k_poll_event) : pstate :=
  mk_pstate (ker s) (links s) (<[e := x]> (events s)) (signals s) (sems s) (fifos s) (items s).
Definition set_signal s (o : positive) (x : k_poll_signal) : pstate :=
  mk_pstate (ker s) (links s) (events s) (<[o := x]> (signals s)) (sems s) (fifos s) (items s).
Definition set_sem s (o : positive) (x : Sem.k_sem) : pstate :=
  mk_pstate (ker s) (links s) (events s) (signals s) (<[o := (x, snd (sems s !!! o))]> (sems s)) (fifos s) (items s).
Definition set_fifo s (o : positive) (x : Queue.k_queue) (h : SList.heap) : pstate :=
  mk_pstate (ker s) (links s) (events s) (signals s) (sems s) (<[o := (x, snd (fifos s !!! o))]> (fifos s)) h.

Definition with_poller (p : option tid) (x : k_poll_event) : k_poll_event := mk_event p (tag x) (type x) (state x) (mode x) (obj x).

Section Poll.
Context `{KConfig}.
Implicit Types (s : pstate) (e o : positive) (thread : tid).
Variable timeout_func : positive -> toid -> kernel -> kernel.
(** bounds the traversals of a list *)
Variable fuel : nat.

(** ** Operations *)

(** [tag] is left as it is. *)
Definition k_poll_event_init s e (ty md : Z) o : pstate :=
  set_event s e (mk_event None (tag (events s !!! e)) (Z.land ty 0xf) K_POLL_STATE_NOT_READY (Z.land md 1) o).

Definition set_polling_state s thread : pstate := set_ker s (_mark_thread_as_polling (ker s) thread).
Definition clear_polling_state s thread : pstate := set_ker s (_mark_thread_as_not_polling (ker s) thread).
Definition is_polling s : bool := _is_thread_polling (ker s) (current (ker s)).

(** the state, if the condition is met *)
Definition is_condition_met s e : option Z :=
  let event := events s !!! e in
  if type event =? K_POLL_TYPE_SEM_AVAILABLE then
    if Sem._impl_k_sem_count_get (fst (sems s !!! obj event)) >? 0 then Some K_POLL_STATE_SEM_AVAILABLE else None
  else if type event =? K_POLL_TYPE_DATA_AVAILABLE then
    if negb (Queue.k_queue_is_empty (fst (fifos s !!! obj event))) then Some K_POLL_STATE_DATA_AVAILABLE else None
  else if type event =? K_POLL_TYPE_SIGNAL then
    if negb (signaled (signals s !!! obj event) =? 0) then Some K_POLL_STATE_SIGNALED else None
  else None.

(** [pending->poller->thread], of the event at an address *)
Definition thread_at s (p : loc) : option tid :=
  match p with
  | xI e => poller (events s !!! e)
  | _ => None
  end.

(** The loop of [add_event]: the first event of a thread of lower priority; [None] for
    the dereference of a null poller. *)
Fixpoint insert_point s thread (l : list loc) : option (option loc) :=
  match l with
  | [] => Some None
  | pending :: l =>
      match thread_at s pending with
      | None => None
      | Some u => if _is_t1_higher_prio_than_t2 (ker s) thread u then Some (Some pending) else insert_point s thread l
      end
  end.

Definition add_event s (list : positive) e thread : option pstate :=
  let appended := set_links s (sys_dlist_append (links s) (q_addr list) (n_addr e)) in
  match sys_dlist_peek_tail (links s) (q_addr list) with
  | None => Some appended
  | Some pending =>
      match thread_at s pending with
      | None => None
      | Some u =>
          if _is_t1_higher_prio_than_t2 (ker s) u thread then Some appended
          else match insert_point s thread (for_each_node fuel (links s) (q_addr list)) with
          | None => None
          | Some None => Some appended
          | Some (Some p) => Some (set_links s (sys_dlist_insert_before (links s) (q_addr list) (Some p) (n_addr e)))
          end
      end
  end.

(** the list of the object of an event, for the types that have one *)
Definition list_of s e : option positive :=
  let event := events s !!! e in
  if type event =? K_POLL_TYPE_SEM_AVAILABLE then Some (snd (sems s !!! obj event))
  else if type event =? K_POLL_TYPE_DATA_AVAILABLE then Some (snd (fifos s !!! obj event))
  else if type event =? K_POLL_TYPE_SIGNAL then Some (poll_events (signals s !!! obj event))
  else None.

Definition register_event s e thread : option pstate :=
  match match list_of s e with Some list => add_event s list e thread | None => Some s end with
  | None => None
  | Some s => Some (set_event s e (with_poller (Some thread) (events s !!! e)))
  end.

Definition clear_event_registration s e : pstate :=
  let s := set_event s e (with_poller None (events s !!! e)) in
  match list_of s e with
  | Some _ => set_links s (sys_dlist_remove (links s) (n_addr e))
  | None => s
  end.

(** of the first [n] events, the last one first: [last_registered] is [n - 1] *)
Fixpoint clear_event_registrations s (evs : list positive) (n : nat) : pstate :=
  match n with
  | O => s
  | S n => clear_event_registrations (clear_event_registration s (evs !!! n)) evs n
  end.

Definition set_event_ready s e (st : Z) : pstate :=
  let event := events s !!! e in
  set_event s e (mk_event None (tag event) (type event) (Z.land (Z.lor (state event) st) 0xf) (mode event) (obj event)).

(** the loop of [k_poll] over the events; [n] have been registered *)
Fixpoint poll_loop s (evs : list positive) (timeout : Z) (n : nat) : option (pstate * nat) :=
  match evs with
  | [] => Some (s, n)
  | e :: evs =>
      match is_condition_met s e with
      | Some st => poll_loop (clear_polling_state (set_event_ready s e st) (current (ker s))) evs timeout n
      | None =>
          if negb (timeout =? K_NO_WAIT) && is_polling s then
            match register_event s e (current (ker s)) with
            | None => None
            | Some s => poll_loop s evs timeout (S n)
            end
          else poll_loop s evs timeout n
      end
  end.

(** What a call comes to: it returns a value, or it waits, and then continues with
    [k_poll_resume]; [w] is the local wait queue. *)
Inductive poll_result := Returned (rc : Z) | Waiting (n : nat).

Definition k_poll s (w : positive) (evs : list positive) (timeout : Z) : option (pstate * poll_result) :=
  match poll_loop (set_polling_state s (current (ker s))) evs timeout 0 with
  | None => None
  | Some (s, n) =>
      if negb (is_polling s) then Some (clear_event_registrations s evs n, Returned 0)
      else
        let s := clear_polling_state s (current (ker s)) in
        if timeout =? K_NO_WAIT then Some (s, Returned (- EAGAIN))
        else
          let k := set_queues (ker s) (Lst.init (queues (ker s)) (object_wq w)) in
          Some (set_ker s (_Swap (_pend_current_thread timeout_func k (object_wq w) timeout)), Waiting n)
  end.

Definition k_poll_resume s (evs : list positive) (n : nat) : pstate * Z :=
  (clear_event_registrations s evs n, retval (thr (ker s) (current (ker s)))).

(** the result, and whether to reschedule *)
Definition _signal_poll_event s e (st : Z) : pstate * Z * bool :=
  match poller (events s !!! e) with
  | None => (set_event_ready s e st, 0, false)
  | Some thread =>
      let s := clear_polling_state s thread in
      if negb (_is_thread_pending (ker s) thread) then (set_event_ready s e st, 0, false)
      else if _is_thread_timeout_expired (ker s) thread then (s, - EAGAIN, false)
      else
        let k := _unpend_thread (ker s) thread in
        let k := fst (_abort_thread_timeout k thread) in
        let k := _set_thread_return_value k thread (if st =? K_POLL_STATE_NOT_READY then - EINTR else 0) in
        if negb (_is_thread_ready k thread) then (set_event_ready (set_ker s k) e st, 0, false)
        else
          let k := _add_thread_to_ready_q k thread in
          (set_event_ready (set_ker s k) e st, 0, negb (_is_in_isr k) && _must_switch_threads k)
  end.

(** [None]: the list holds something that is not an event *)
Definition _handle_obj_poll_events s (list : positive) (st : Z) : option (pstate * bool) :=
  match sys_dlist_get (links s) (q_addr list) with
  | (_, None) => Some (s, false)
  | (h, Some (xI e)) => let '(s, _, must_reschedule) := _signal_poll_event (set_links s h) e st in Some (s, must_reschedule)
  | (_, Some _) => None
  end.

(** [result] is left as it is. *)
Definition k_poll_signal_init s o : pstate :=
  let signal := signals s !!! o in
  set_signal (set_links s (sys_dlist_init (links s) (q_addr (poll_events signal)))) o (mk_signal (poll_events signal) 0 (result signal)).

Definition signal_poll s o (res : Z) : option (pstate * Z) :=
  let signal := signals s !!! o in
  let s := set_signal s o (mk_signal (poll_events signal) 1 res) in
  match sys_dlist_get (links s) (q_addr (poll_events signal)) with
  | (_, None) => Some (s, 0)
  | (h, Some (xI e)) =>
      let '(s, rc, must_reschedule) := _signal_poll_event (set_links s h) e K_POLL_STATE_SIGNALED in
      Some (if must_reschedule then set_ker s (_Swap (ker s)) else s, rc)
  | (_, Some _) => None
  end.

(** ** The callers in sem.c and queue.c *)

Definition do_sem_give s o : option (pstate * bool) :=
  let sem := fst (sems s !!! o) in
  match _unpend_first_thread (ker s) (Sem.wq sem) with
  | (k, None) => _handle_obj_poll_events (set_sem (set_ker s k) o (Sem.increment_count_up_to_limit sem)) (snd (sems s !!! o)) K_POLL_STATE_SEM_AVAILABLE
  | (k, Some thread) =>
      let k := fst (_abort_thread_timeout k thread) in
      let k := _ready_thread k thread in
      let k := _set_thread_return_value k thread 0 in
      Some (set_ker s k, negb (_is_in_isr k) && _must_switch_threads k)
  end.

Definition swap_if (r : option (pstate * bool)) : option pstate :=
  match r with
  | None => None
  | Some (s, b) => Some (if b : bool then set_ker s (_Swap (ker s)) else s)
  end.

Definition _impl_k_sem_give s o : option pstate := swap_if (do_sem_give s o).

Definition k_queue_cancel_wait s o : option pstate :=
  swap_if (_handle_obj_poll_events s (snd (fifos s !!! o)) K_POLL_STATE_NOT_READY).

Definition k_queue_insert s o (prev : option SList.loc) (data : SList.loc) : option pstate :=
  let queue := fst (fifos s !!! o) in
  let '(h, l) := SList.sys_slist_insert (items s) (Queue.data_q queue) prev data in
  swap_if (_handle_obj_poll_events (set_fifo s o (Queue.set_data_q queue l) h) (snd (fifos s !!! o)) K_POLL_STATE_DATA_AVAILABLE).

End Poll.

(** ** The kernel under polling *)

Section Kernel.
Context `{KConfig}.
Implicit Types (k : kernel) (t u : tid).

(** A new wait queue is empty. *)
Lemma kinv_empty_wq X E k w :
  queues k !!! WQ w = [] -> kinv X E k -> kinv X E (set_queues k (Lst.init (queues k) (WQ w))).
Proof.
  intros Hw [[H1 H2 H3] H4 H5].
  assert (forall q, Lst.init (queues k) (WQ w) !!! q = queues k !!! q) as Hq.
  { intros q. unfold Lst.init. destruct (decide (q = WQ w)) as [->|]; [by rewrite lookup_total_insert_eq|by rewrite lookup_total_insert_ne]. }
  split; [split; [|done|done]| |].
  - destruct H1 as [R1 R2 R3 R4 R5 R6 R7 R8 R9]. split; cbn [queues set_queues]; try done.
    + intros t i. rewrite Hq. apply R2.
    + intros t v. rewrite Hq. apply R3.
    + intros t Hx Hp. destruct (R4 t Hx Hp) as [v Hv]. exists v. by rewrite Hq.
    + intros t v v'. rewrite !Hq. apply R5.
    + intros q. rewrite Hq. apply R6.
    + intros i Hi. rewrite Hq. by apply R8.
    + intros i [Hn Hj]. cbn [queues set_queues] in *. rewrite Hq in *. apply R9. split; [done|]. intros j Hlt. specialize (Hj j Hlt). by rewrite Hq in Hj.
  - apply (tq_inv_agree X _ _ k); try done. by right.
  - apply (untimed_agree E _ k); [|done|done]. intros v u. cbn [queues set_queues]. by rewrite Hq.
Qed.

(** A change of a thread that the scheduler does not see. *)
Definition unseen (f : k_thread -> k_thread) : Prop :=
  forall x, prio (f x) = prio x /\ sched_locked (f x) = sched_locked x /\ prevented (f x) = prevented x /\ st_bit (f x) 1 = st_bit x 1.

Lemma unseen_ready k t f u : unseen f -> _is_thread_ready (upd_thread k t f) u = _is_thread_ready k u.
Proof.
  intros Hf. apply eq_bool_prop_intro. rewrite !Is_true_true, !ready_spec, thr_upd_thread.
  case_decide; [subst|done]. by destruct (Hf (thr k t)) as (_ & _ & -> & _).
Qed.

Lemma unseen_pending k t f u : unseen f -> _is_thread_pending (upd_thread k t f) u = _is_thread_pending k u.
Proof.
  intros Hf. rewrite !pending_spec, thr_upd_thread. case_decide; [subst|done]. apply Hf.
Qed.

Lemma unseen_kinv X E k t f : unseen f -> kinv X E k -> kinv X E (upd_thread k t f).
Proof. intros Hf. apply kinv_upd_same; [intros x; apply Hf|by apply unseen_ready|by apply unseen_pending]. Qed.

Lemma unseen_sys k t f : unseen f -> sys_inv k -> sys_inv (upd_thread k t f).
Proof.
  intros Hf [H1 H2 H3]. assert (forall u, prio (thr (upd_thread k t f) u) = prio (thr k u)) as Hp.
  { intros u. rewrite thr_upd_thread. case_decide; [subst; apply Hf|done]. }
  split; [by apply unseen_kinv|by rewrite unseen_ready|]. intros Hn Hpr u Hu. rewrite unseen_ready in Hu by done.
  rewrite !Hp. apply (H3 Hn); [|done]. revert Hpr. unfold _is_preempt, preempt. rewrite Hp, thr_upd_thread.
  case_decide as E; [|done]. rewrite <- E. by destruct (Hf (thr k (current (upd_thread k t f)))) as (_ & -> & _).
Qed.

Lemma unseen_polling : unseen (fun x => with_state (u8 (Z.lor (thread_state x) _THREAD_POLLING)) x).
Proof.
  intros x. unfold prevented. change _THREAD_POLLING with (Z.shiftl 1 5).
  split_and!; [done|done| |]; rewrite ?st_bit_set by lia; by rewrite !orb_false_r.
Qed.

Lemma unseen_not_polling : unseen (fun x => with_state (u8 (Z.land (thread_state x) (Z.lnot _THREAD_POLLING))) x).
Proof.
  intros x. unfold prevented. change _THREAD_POLLING with (Z.shiftl 1 5).
  split_and!; [done|done| |]; rewrite ?st_bit_clear by lia; by rewrite !andb_true_r.
Qed.

Lemma polling_spec k t : _is_thread_polling k t = st_bit (thr k t) 5.
Proof. by apply state_set_spec. Qed.

Lemma mark_polling k t : _is_thread_polling (_mark_thread_as_polling k t) t = true.
Proof.
  rewrite polling_spec. unfold _mark_thread_as_polling, _set_thread_states. rewrite thr_upd_same.
  change _THREAD_POLLING with (Z.shiftl 1 5). rewrite st_bit_set by lia. by rewrite orb_true_r.
Qed.

Lemma mark_not_polling k t : _is_thread_polling (_mark_thread_as_not_polling k t) t = false.
Proof.
  rewrite polling_spec. unfold _mark_thread_as_not_polling, _reset_thread_states. rewrite thr_upd_same.
  change _THREAD_POLLING with (Z.shiftl 1 5). rewrite st_bit_clear by lia. by rewrite andb_false_r.
Qed.

End Kernel.

(** ** The lists of events *)

Section Lists.
Context `{KConfig}.
Abbreviation store := (gmap positive (list positive)).
Implicit Types (s : pstate) (e q : positive) (thread : tid) (L : store) (l : list positive).

Lemma ins_prio_split (pr : positive -> Z) e l : exists l1 l2,
  l = l1 ++ l2 /\ ins_prio pr e l = l1 ++ e :: l2 /\ Forall (fun u => pr u <= pr e) l1 /\ (forall u, head l2 = Some u -> pr e < pr u).
Proof.
  induction l as [|u l (l1 & l2 & -> & E & H1 & H2)]; [by exists [], []|]. cbn [ins_prio]. destruct (Z.ltb_spec (pr e) (pr u)).
  - exists [], (u :: l1 ++ l2). split_and!; [done|done|done|]. by intros ? [= <-].
  - exists (u :: l1), l2. rewrite E. split_and!; [done|done|by constructor|done].
Qed.

Lemma ins_prio_ext (f g : positive -> Z) e l : f e = g e -> (forall x, x ∈ l -> f x = g x) -> ins_prio f e l = ins_prio g e l.
Proof.
  intros He Hl. induction l as [|u l IH]; [done|]. cbn [ins_prio]. rewrite He, (Hl u) by left. rewrite IH; [done|]. intros x Hx. apply Hl. by right.
Qed.

Abbreviation ordered f l := (StronglySorted (fun a b : positive => f a <= f b) l).

Lemma ordered_ins (f : positive -> Z) e l : ordered f l -> ordered f (ins_prio f e l).
Proof.
  induction 1 as [|u l Hs IH Hu]; cbn [ins_prio]; [by repeat constructor|]. rewrite Forall_forall in Hu. destruct (Z.ltb_spec (f e) (f u)).
  - constructor; [constructor; [done|by apply Forall_forall]|]. apply Forall_forall. intros x [->|Hx]%elem_of_cons; [lia|]. specialize (Hu x Hx). lia.
  - constructor; [done|]. apply Forall_forall. intros x [->|Hx]%elem_of_ins_prio; [lia|by apply Hu].
Qed.

Lemma ordered_ext (f g : positive -> Z) l : (forall x, x ∈ l -> f x = g x) -> ordered f l -> ordered g l.
Proof.
  intros He Hs. revert He. induction Hs as [|u l Hs IH Hu]; intros He; [constructor|]. constructor; [apply IH; intros x Hx; apply He; by right|].
  rewrite Forall_forall in *. intros x Hx. rewrite <- !He by (by left || by right). by apply Hu.
Qed.

(** The priority of the thread that waits for an event. *)
Definition ev_prio s e : Z := match poller (events s !!! e) with Some u => prio (thr (ker s) u) | None => 0 end.

(** The lists hold [L]; their events belong to threads that poll, by priority. *)
Record polled s L : Prop := {
  po_holds : holds (links s) L;
  po_poller : forall q l e, L !! q = Some l -> e ∈ l -> is_Some (poller (events s !!! e));
  po_order : forall q l, L !! q = Some l -> ordered (ev_prio s) l
}.

(** The priority with which [thread] waits for [e], and others for other events. *)
Definition prio_with s thread e (x : positive) : Z := if decide (x = e) then prio (thr (ker s) thread) else ev_prio s x.

Lemma insert_point_spec s thread e l1 l2 :
  (forall x, x ∈ l1 ++ l2 -> x <> e /\ is_Some (poller (events s !!! x))) ->
  Forall (fun u => prio_with s thread e u <= prio_with s thread e e) l1 ->
  (forall u, head l2 = Some u -> prio_with s thread e e < prio_with s thread e u) ->
  insert_point s thread (xI <$> l1 ++ l2) = Some (xI <$> head l2).
Proof.
  intros Hl H1 H2.
  assert (forall x, x ∈ l1 ++ l2 -> exists u, poller (events s !!! x) = Some u /\ prio_with s thread e x = prio (thr (ker s) u)) as Hp.
  { intros x [Hne [u Hu]]%Hl. exists u. split; [done|]. unfold prio_with. rewrite decide_False by done. unfold ev_prio. by rewrite Hu. }
  clear Hl. assert (prio_with s thread e e = prio (thr (ker s) thread)) as He by (unfold prio_with; by rewrite decide_True). rewrite He in *.
  induction H1 as [|x l1 Hx _ IH].
  - destruct l2 as [|x l2]; [done|]. destruct (Hp x) as (u & Hu & Hx); [left|]. specialize (H2 x eq_refl). rewrite Hx in H2.
    cbn [app fmap list_fmap insert_point thread_at head]. rewrite Hu. unfold _is_t1_higher_prio_than_t2, _is_prio1_higher_than_prio2. by rewrite (proj2 (Z.ltb_lt _ _) H2).
  - destruct (Hp x) as (u & Hu & Hux); [left|]. rewrite Hux in Hx. cbn [app fmap list_fmap insert_point thread_at]. rewrite Hu.
    unfold _is_t1_higher_prio_than_t2 at 1, _is_prio1_higher_than_prio2. rewrite (proj2 (Z.ltb_ge _ _) Hx). apply IH. intros y Hy. apply Hp. by right.
Qed.

Lemma holds_nodup h L q l : holds h L -> L !! q = Some l -> NoDup l.
Proof. intros Hh Hl. apply (holds_dl _ _ Hh), dl_nodup, NoDup_cons in Hl as [_ Hd]. by eapply NoDup_fmap_1. Qed.

(** A list is in priority order up to its last element. *)
Lemma ordered_last (f : positive -> Z) l x y : ordered f l -> last l = Some x -> y ∈ l -> f y <= f x.
Proof.
  induction 1 as [|u l Hs IH Hu]; intros Hx Hy; [done|]. rewrite Forall_forall in Hu. destruct l as [|v l].
  - injection Hx as <-. apply list_elem_of_singleton in Hy as ->. lia.
  - rewrite last_cons_cons in Hx. apply elem_of_cons in Hy as [->|Hy]; [apply Hu; by apply last_Some_elem_of|by apply IH].
Qed.

Lemma add_event_spec fuel s L q l e thread :
  polled s L -> L !! q = Some l -> free L e -> (length l < fuel)%nat ->
  exists h, add_event fuel s q e thread = Some (set_links s h) /\ holds h (<[q := ins_prio (prio_with s thread e) e l]> L).
Proof.
  intros [Hh Hp Ho] Hl Hf Hfu. specialize (Hp q l). specialize (Ho q l Hl). pose proof (holds_dl _ _ Hh _ _ Hl) as Hd. cbn [q_addr n_addr poll_layout] in Hd.
  assert (forall x, x ∈ l -> x <> e /\ is_Some (poller (events s !!! x))) as Hx.
  { intros x Hx. split; [|by apply Hp]. intros ->. by apply (Hf q l). }
  assert (holds (sys_dlist_append (links s) (q_addr q) (n_addr e)) (<[q := l ++ [e]]> L)) as Happ.
  { pose proof (refine_append _ _ q e Hh (conj (ex_intro _ l Hl) Hf)) as Ha. unfold Lst.append in Ha. by rewrite (lookup_total_correct _ _ _ Hl) in Ha. }
  destruct (ins_prio_split (prio_with s thread e) e l) as (l1 & l2 & E & Ei & H1 & H2). unfold add_event. cbn [q_addr n_addr poll_layout] in *.
  rewrite (dl_peek_tail _ _ _ Hd), fmap_last, Ei. destruct (last l) as [x|] eqn:Elast; cbn [fmap option_fmap option_map].
  2:{ apply last_None in Elast as ->. symmetry in E. apply app_eq_nil in E as [-> ->]. by eexists. }
  assert (x ∈ l) as Hxl by by apply last_Some_elem_of. destruct (Hx x Hxl) as [Hne [u Hu]]. cbn [thread_at]. rewrite Hu.
  unfold _is_t1_higher_prio_than_t2 at 1, _is_prio1_higher_than_prio2. destruct (Z.ltb_spec (prio (thr (ker s) u)) (prio (thr (ker s) thread))) as [Hlt|Hge].
  - destruct l2 as [|y l2]; [rewrite app_nil_r in E; subst l1; by eexists|]. specialize (H2 y eq_refl).
    assert (y ∈ l) as Hy by (rewrite E; set_solver). pose proof (ordered_last _ _ _ _ Ho Elast Hy) as Hle.
    unfold prio_with in H2. rewrite decide_True, decide_False in H2 by (done || by apply Hx). unfold ev_prio in Hle at 2. rewrite Hu in Hle. lia.
  - rewrite (dl_for_each_node fuel _ _ _ Hd) by (by rewrite length_fmap).
    assert (insert_point s thread (xI <$> l) = Some (xI <$> head l2)) as ->.
    { rewrite E. apply (insert_point_spec s thread e); [by rewrite <- E|done|done]. }
    destruct l2 as [|y l2]; cbn [head fmap option_fmap option_map]; [rewrite app_nil_r in E; subst l1; by eexists|].
    eexists. split; [reflexivity|]. assert (y ∈ L !!! q) as Hy by (rewrite (lookup_total_correct _ _ _ Hl), E; set_solver).
    pose proof (refine_insert_before _ _ q (Some y) e Hh (conj (ex_intro _ l Hl) (conj Hf Hy))) as Hb.
    unfold Lst.insert_before in Hb. rewrite (lookup_total_correct _ _ _ Hl), E, Lst.ins_before_split in Hb; [exact Hb|].
    pose proof (holds_nodup _ _ _ _ Hh Hl) as Hnd. rewrite E in Hnd. apply NoDup_app in Hnd as (_ & Hnd & _). intros Hy1. apply (Hnd y Hy1). left.
Qed.

(** The lists with an event added. *)
Definition with_event (pr : positive -> Z) (list : option positive) e L : store :=
  match list with
  | Some q => <[q := ins_prio pr e (L !!! q)]> L
  | None => L
  end.

(** The list of an event exists, and [fuel] is enough for its traversal. *)
Definition listed (fuel : nat) s L e : Prop := forall q, list_of s e = Some q -> exists l, L !! q = Some l /\ (length l < fuel)%nat.

Lemma prio_with_set s h thread e x :
  ev_prio (set_event (set_links s h) e (with_poller (Some thread) (events s !!! e))) x = prio_with s thread e x.
Proof.
  unfold ev_prio, prio_with. cbn [events set_event set_links ker]. destruct (decide (x = e)) as [->|].
  - by rewrite lookup_total_insert_eq.
  - by rewrite lookup_total_insert_ne.
Qed.

Lemma register_spec fuel s L e thread :
  polled s L -> free L e -> listed fuel s L e ->
  exists h, let s' := set_event (set_links s h) e (with_poller (Some thread) (events s !!! e)) in
    register_event fuel s e thread = Some s' /\ polled s' (with_event (prio_with s thread e) (list_of s e) e L).
Proof.
  intros Hpo Hf Hli. assert (forall h, holds h (with_event (prio_with s thread e) (list_of s e) e L) ->
    polled (set_event (set_links s h) e (with_poller (Some thread) (events s !!! e))) (with_event (prio_with s thread e) (list_of s e) e L)) as Hpolled.
  { intros h Hh. split; [exact Hh|..].
    - intros q l x Hl Hx. cbn [events set_event set_links]. destruct (decide (x = e)) as [->|Hne]; [rewrite lookup_total_insert_eq; by eexists|].
      rewrite lookup_total_insert_ne by done. destruct (list_of s e) as [q'|] eqn:Eq; cbn [with_event] in Hl; [|by eapply Hpo].
      destruct (decide (q = q')) as [->|Hq]; [|rewrite lookup_insert_ne in Hl by done; by eapply Hpo].
      rewrite lookup_insert_eq in Hl. injection Hl as <-. destruct (Hli q' Eq) as (l & Hl & _). rewrite (lookup_total_correct _ _ _ Hl) in Hx.
      apply elem_of_ins_prio in Hx as [->|Hx]; [done|]. by eapply Hpo.
    - intros q l Hl. apply (ordered_ext (prio_with s thread e)); [intros x _; by rewrite prio_with_set|].
      assert (forall q' l', L !! q' = Some l' -> ordered (prio_with s thread e) l') as Hor.
      { intros q' l' Hl'. apply (ordered_ext (ev_prio s)); [|by eapply Hpo]. intros x Hx. unfold prio_with. rewrite decide_False; [done|].
        intros ->. by apply (Hf q' l'). }
      destruct (list_of s e) as [q'|] eqn:Eq; cbn [with_event] in Hl; [|by eapply Hor].
      destruct (decide (q = q')) as [->|Hq]; [|rewrite lookup_insert_ne in Hl by done; by eapply Hor].
      rewrite lookup_insert_eq in Hl. injection Hl as <-. destruct (Hli q' Eq) as (l & Hl & _). rewrite (lookup_total_correct _ _ _ Hl).
      apply ordered_ins. by eapply Hor. }
  unfold register_event. destruct (list_of s e) as [q|] eqn:Eq.
  - destruct (Hli q Eq) as (l & Hl & Hlen). destruct (add_event_spec fuel s L q l e thread Hpo Hl Hf Hlen) as (h & -> & Hh).
    exists h. split; [done|]. apply Hpolled. cbn [with_event]. by rewrite (lookup_total_correct _ _ _ Hl).
  - exists (links s). split; [by destruct s|]. apply Hpolled, Hpo.
Qed.

(** ** Clearing *)

(** The objects, and which events are for which of them, are the same. *)
Record alike s s' : Prop := {
  al_signals : signals s' = signals s;
  al_sems : sems s' = sems s;
  al_fifos : fifos s' = fifos s;
  al_events : forall x, type (events s' !!! x) = type (events s !!! x) /\ obj (events s' !!! x) = obj (events s !!! x)
}.

Lemma alike_refl s : alike s s.
Proof. by split. Qed.

Lemma alike_trans s1 s2 s3 : alike s1 s2 -> alike s2 s3 -> alike s1 s3.
Proof.
  intros [A1 A2 A3 A4] [B1 B2 B3 B4]. split; [congruence..|]. intros x. destruct (A4 x), (B4 x). split; congruence.
Qed.

Lemma alike_list s s' e : alike s s' -> list_of s' e = list_of s e.
Proof. intros [H1 H2 H3 H4]. unfold list_of. destruct (H4 e) as [-> ->]. by rewrite H1, H2, H3. Qed.

Lemma alike_met s s' e : alike s s' -> is_condition_met s' e = is_condition_met s e.
Proof. intros [H1 H2 H3 H4]. unfold is_condition_met. destruct (H4 e) as [-> ->]. by rewrite H1, H2, H3. Qed.

Lemma alike_event s h k e y : type y = type (events s !!! e) -> obj y = obj (events s !!! e) ->
  alike s (set_event (set_links (set_ker s k) h) e y).
Proof.
  intros Ht Ho. split; [done..|]. intros x. cbn [events set_event set_links set_ker]. destruct (decide (x = e)) as [->|].
  - by rewrite lookup_total_insert_eq.
  - by rewrite lookup_total_insert_ne.
Qed.

Lemma remove_event h L q l e (pr : positive -> Z) :
  L !! q = Some l -> free L e -> holds h (with_event pr (Some q) e L) -> holds (sys_dlist_remove h (n_addr e)) L.
Proof.
  intros Hl Hf Hh. cbn [with_event] in Hh. rewrite (lookup_total_correct _ _ _ Hl) in Hh.
  assert (pre (OpRemove e) (<[q := ins_prio pr e l]> L)) as Hpre.
  { exists q, (ins_prio pr e l). split; [apply lookup_insert_eq|]. apply elem_of_ins_prio. by left. }
  pose proof (refine_remove _ _ _ Hh Hpre) as Hr. cbn [exec] in Hr.
  assert (Lst.remove (<[q := ins_prio pr e l]> L) e = L) as E; [|by rewrite E in Hr].
  apply map_eq. intros q'. unfold Lst.remove. rewrite lookup_fmap, lookup_insert. case_decide; [subst q'|].
  - rewrite Hl. cbn. f_equal. pose proof (holds_nodup _ _ q _ Hh (lookup_insert_eq _ _ _)) as Hnd. revert Hnd.
    destruct (ins_prio_split pr e l) as (l1 & l2 & -> & -> & _). apply filter_ne_split.
  - destruct (L !! q') as [l'|] eqn:El; [|done]. cbn. f_equal. apply filter_ne_id. by apply (Hf q').
Qed.

Lemma clear_spec s L e (pr : positive -> Z) :
  holds (links s) (with_event pr (list_of s e) e L) -> free L e -> (forall q, list_of s e = Some q -> is_Some (L !! q)) ->
  exists h, clear_event_registration s e = set_event (set_links s h) e (with_poller None (events s !!! e)) /\ holds h L.
Proof.
  intros Hh Hf Hq. unfold clear_event_registration.
  rewrite (alike_list s) by (apply (alike_event s (links s) (ker s) e); done). destruct (list_of s e) as [q|].
  - destruct (Hq q eq_refl) as [l Hl]. exists (sys_dlist_remove (links s) (n_addr e)). split; [done|]. by apply (remove_event _ _ q l _ pr).
  - exists (links s). split; [by destruct s|done].
Qed.

(** The lists with several events added, one after the other. *)
Definition with_events (pr : positive -> Z) s (evs : list positive) L : store :=
  foldl (fun L e => with_event pr (list_of s e) e L) L evs.

Lemma with_events_alike pr s s' evs L : alike s s' -> with_events pr s' evs L = with_events pr s evs L.
Proof.
  intros Ha. unfold with_events. revert L. induction evs as [|e evs IH]; intros L; [done|]. cbn [foldl]. by rewrite (alike_list _ _ _ Ha), IH.
Qed.

Lemma free_with pr (list : option positive) e e' L : free L e' -> e' <> e -> free (with_event pr list e L) e'.
Proof.
  intros Hf Hne. destruct list as [q|]; [|done]. cbn [with_event]. intros q' l' Hl'. rewrite lookup_insert in Hl'. case_decide; [|by apply (Hf q')].
  injection Hl' as <-. rewrite elem_of_ins_prio. intros [?|Hin]; [done|]. rewrite lookup_total_alt in Hin. destruct (L !! q) as [l|] eqn:El; [by apply (Hf q l)|].
  by apply not_elem_of_nil in Hin.
Qed.

Lemma free_with_events pr s evs e L : free L e -> e ∉ evs -> free (with_events pr s evs L) e.
Proof.
  unfold with_events. revert L. induction evs as [|x evs IH]; intros L Hf Hn; [done|]. apply not_elem_of_cons in Hn as [Hne Hn].
  cbn [foldl]. apply IH; [by apply free_with|done].
Qed.

Lemma is_Some_with pr (list : option positive) e q L : is_Some (L !! q) -> is_Some (with_event pr list e L !! q).
Proof. intros Hq. destruct list as [q'|]; [|done]. cbn [with_event]. rewrite lookup_insert. by case_decide. Qed.

Lemma is_Some_with_events pr s evs q L : is_Some (L !! q) -> is_Some (with_events pr s evs L !! q).
Proof.
  unfold with_events. revert L. induction evs as [|e evs IH]; intros L Hq; [done|]. cbn [foldl]. apply IH. by apply is_Some_with.
Qed.

Lemma clear_all pr pre : forall s L rest,
  NoDup pre -> holds (links s) (with_events pr s pre L) -> (forall e, e ∈ pre -> free L e) ->
  (forall e q, e ∈ pre -> list_of s e = Some q -> is_Some (L !! q)) ->
  let s' := clear_event_registrations s (pre ++ rest) (length pre) in
  ker s' = ker s /\ alike s s' /\ holds (links s') L /\
  (forall x, events s' !!! x = if decide (x ∈ pre) then with_poller None (events s !!! x) else events s !!! x).
Proof.
  induction pre as [|e pre IH] using rev_ind; intros s L rest Hnd Hh Hf Hq.
  { split_and!; [done|apply alike_refl|done|]. intros x. by rewrite decide_False by apply not_elem_of_nil. }
  apply NoDup_app in Hnd as (Hnd & Hdis & _). assert (e ∉ pre) as He by (intros He; by apply (Hdis e He), list_elem_of_singleton).
  unfold with_events in Hh. rewrite foldl_app in Hh. cbn [foldl] in Hh. fold (with_events pr s pre L) in Hh.
  rewrite length_app. cbn [length]. rewrite Nat.add_1_r. cbn [clear_event_registrations].
  assert (((pre ++ [e]) ++ rest) !!! length pre = e) as ->.
  { apply list_lookup_total_correct. rewrite <- app_assoc. by apply list_lookup_middle. }
  destruct (clear_spec s (with_events pr s pre L) e pr) as (h & -> & Hh'); [done| | |].
  { apply free_with_events; [apply Hf; set_solver|done]. } { intros q Eq. apply is_Some_with_events. apply (Hq e); [set_solver|done]. }
  set (s1 := set_event (set_links s h) e (with_poller None (events s !!! e))).
  assert (alike s s1) as Ha by (apply (alike_event s h (ker s)); done). rewrite <- app_assoc.
  destruct (IH s1 L ([e] ++ rest)) as (H1 & H2 & H3 & H4); [done|by rewrite (with_events_alike _ _ _ _ _ Ha)|intros x Hx; apply Hf; set_solver|..].
  { intros x q Hx Eq. rewrite (alike_list _ _ _ Ha) in Eq. apply (Hq x); [set_solver|done]. }
  split_and!; [exact H1|by eapply alike_trans|exact H3|]. intros x. rewrite H4. unfold s1. cbn [events set_event set_links].
  destruct (decide (x = e)) as [->|Hne].
  - rewrite lookup_total_insert_eq, decide_False, decide_True by (done || set_solver). done.
  - rewrite lookup_total_insert_ne by done. destruct (decide (x ∈ pre)); [rewrite decide_True by set_solver; done|]. by rewrite decide_False by set_solver.
Qed.

(** ** The loop of [k_poll] *)

(** Only the polling flag of the current thread differs. *)
Record quiet (k k' : kernel) : Prop := {
  qu_sys : sys_inv k -> sys_inv k';
  qu_current : current k' = current k;
  qu_queues : queues k' = queues k;
  qu_prio : forall u, prio (thr k' u) = prio (thr k u);
  qu_thr : forall u, u <> current k -> thr k' u = thr k u
}.

Lemma quiet_refl k : quiet k k.
Proof. by split. Qed.

Lemma quiet_trans k1 k2 k3 : quiet k1 k2 -> quiet k2 k3 -> quiet k1 k3.
Proof.
  intros [A1 A2 A3 A4 A5] [B1 B2 B3 B4 B5]. split; [auto|congruence|congruence|intros u; by rewrite B4|].
  intros u Hu. rewrite B5 by congruence. by apply A5.
Qed.

Lemma quiet_upd k f : unseen f -> quiet k (upd_thread k (current k) f).
Proof.
  intros Hf. split; [by apply unseen_sys|done|done| |].
  - intros u. rewrite thr_upd_thread. case_decide; [subst; apply Hf|done].
  - intros u Hu. by apply thr_upd_other.
Qed.

Lemma quiet_polling k : quiet k (_mark_thread_as_polling k (current k)).
Proof. apply quiet_upd, unseen_polling. Qed.

Lemma quiet_not_polling k : quiet k (_mark_thread_as_not_polling k (current k)).
Proof. apply quiet_upd, unseen_not_polling. Qed.

(** An event whose condition is met is marked as ready. *)
Definition met s e : bool := bool_decide (is_Some (is_condition_met s e)).

Definition checked s e : k_poll_event :=
  let event := events s !!! e in
  match is_condition_met s e with
  | Some st => mk_event None (tag event) (type event) (Z.land (Z.lor (state event) st) 0xf) (mode event) (obj event)
  | None => event
  end.

Lemma checked_alike s s' e : alike s s' -> events s' !!! e = events s !!! e -> checked s' e = checked s e.
Proof. intros Ha He. unfold checked. by rewrite (alike_met _ _ _ Ha), He. Qed.

Lemma met_alike s s' evs : alike s s' -> existsb (met s') evs = existsb (met s) evs.
Proof.
  intros Ha. induction evs as [|e evs IH]; [done|]. cbn [existsb]. rewrite IH. f_equal. unfold met. by rewrite (alike_met _ _ _ Ha).
Qed.

Lemma poll_unregistered fuel evs : forall s n (timeout : Z),
  timeout = K_NO_WAIT \/ is_polling s = false -> NoDup evs ->
  exists s', poll_loop fuel s evs timeout n = Some (s', n) /\ quiet (ker s) (ker s') /\ alike s s' /\ links s' = links s /\
    (forall x, events s' !!! x = if decide (x ∈ evs) then checked s x else events s !!! x) /\
    is_polling s' = is_polling s && negb (existsb (met s) evs) /\ (existsb (met s) evs = false -> s' = s).
Proof.
  induction evs as [|e evs IH]; intros s n timeout Hnp Hnd.
  { exists s. split_and!; [done|apply quiet_refl|apply alike_refl|done| |by rewrite andb_true_r|done].
    intros x. by rewrite decide_False by apply not_elem_of_nil. }
  apply NoDup_cons in Hnd as [He Hnd]. cbn [poll_loop existsb]. unfold met at 1 3. destruct (is_condition_met s e) as [st|] eqn:Em.
  - set (s1 := clear_polling_state (set_event_ready s e st) (current (ker s))).
    assert (alike s s1) as Ha by (apply (alike_event s (links s) (_mark_thread_as_not_polling (ker s) (current (ker s))) e); done).
    assert (is_polling s1 = false) as Hp1 by apply mark_not_polling.
    destruct (IH s1 n timeout (or_intror Hp1) Hnd) as (s' & -> & Hq & Ha' & Hl & Hev & Hp & _). exists s'.
    rewrite bool_decide_true by (by eexists). cbn [orb negb]. rewrite andb_false_r. rewrite Hp1 in Hp.
    split_and!; [done|by eapply quiet_trans; [apply quiet_not_polling|]|by eapply alike_trans|done| |done|done].
    intros x. rewrite Hev. destruct (decide (x = e)) as [->|Hne].
    + rewrite decide_False, decide_True by (done || left). unfold s1, checked. cbn. by rewrite lookup_total_insert_eq, Em.
    + assert (events s1 !!! x = events s !!! x) as Ex by (unfold s1; cbn; by rewrite lookup_total_insert_ne).
      rewrite Ex, (checked_alike _ _ _ Ha Ex). destruct (decide (x ∈ evs)); [by rewrite decide_True by by right|]. by rewrite decide_False by by apply not_elem_of_cons.
  - rewrite bool_decide_false by (by intros [? ?]). cbn [orb].
    assert (negb (timeout =? K_NO_WAIT) && is_polling s = false) as -> by (destruct Hnp as [-> | ->]; [done|apply andb_false_r]).
    destruct (IH s n timeout Hnp Hnd) as (s' & -> & Hq & Ha' & Hl & Hev & Hp & Hs). exists s'. split_and!; try done.
    intros x. rewrite Hev. destruct (decide (x = e)) as [->|Hne].
    + rewrite decide_False, decide_True by (done || left). unfold checked. by rewrite Em.
    + destruct (decide (x ∈ evs)); [by rewrite decide_True by by right|]. by rewrite decide_False by by apply not_elem_of_cons.
Qed.

(** While no condition is met, the events are added to the lists. *)
Lemma poll_registers fuel pr evs : forall s L n (timeout : Z),
  is_polling s = true -> timeout <> K_NO_WAIT -> polled s L -> NoDup evs ->
  (forall e, e ∈ evs -> free L e /\ is_condition_met s e = None /\ pr e = prio (thr (ker s) (current (ker s)))) ->
  (forall q l x, L !! q = Some l -> x ∈ l -> pr x = ev_prio s x) ->
  (forall e q, e ∈ evs -> list_of s e = Some q -> exists l, L !! q = Some l /\ (length l + length evs <= fuel)%nat) ->
  exists s', poll_loop fuel s evs timeout n = Some (s', (n + length evs)%nat) /\ ker s' = ker s /\ alike s s' /\
    (forall x, events s' !!! x = if decide (x ∈ evs) then with_poller (Some (current (ker s))) (events s !!! x) else events s !!! x) /\
    polled s' (with_events pr s evs L).
Proof.
  induction evs as [|e evs IH]; intros s L n timeout Hpol Ht Hpo Hnd Hev Hpr Hroom.
  { exists s. rewrite Nat.add_0_r. split_and!; [done|done|apply alike_refl| |done]. intros x. by rewrite decide_False by apply not_elem_of_nil. }
  apply NoDup_cons in Hnd as [He Hnd]. destruct (Hev e) as (Hf & Hm & Hpe); [left|]. cbn [poll_loop]. rewrite Hm, Hpol, (proj2 (Z.eqb_neq _ _) Ht). cbn [negb andb].
  destruct (register_spec fuel s L e (current (ker s)) Hpo Hf) as (h & -> & Hpo1).
  { intros q Hq. destruct (Hroom e q) as (l & Hl & Hlen); [left|done|]. exists l. cbn [length] in Hlen. split; [done|lia]. }
  set (s1 := set_event (set_links s h) e (with_poller (Some (current (ker s))) (events s !!! e))) in *.
  assert (alike s s1) as Ha by (apply (alike_event s h (ker s)); done).
  assert (with_event (prio_with s (current (ker s)) e) (list_of s e) e L = with_event pr (list_of s e) e L) as E1.
  { destruct (list_of s e) as [q|] eqn:Eq; [|done]. cbn [with_event]. destruct (Hroom e q) as (l & Hl & _); [left|done|].
    rewrite (lookup_total_correct _ _ _ Hl). f_equal. apply ins_prio_ext; [unfold prio_with; by rewrite decide_True|].
    intros x Hx. unfold prio_with. rewrite decide_False; [symmetry; by eapply Hpr|]. intros ->. by apply (Hf q l). }
  rewrite E1 in Hpo1. set (L1 := with_event pr (list_of s e) e L) in *.
  destruct (IH s1 L1 (S n) timeout) as (s' & -> & Hk & Ha' & Hevs & Hpo'); try done.
  - intros x Hx. destruct (Hev x) as (H1 & H2 & H3); [by right|]. split_and!; [|by rewrite (alike_met _ _ _ Ha)|done].
    apply free_with; [done|]. by intros ->.
  - intros q l x Hl Hx. unfold s1. rewrite prio_with_set. unfold prio_with. case_decide as Ex; [by subst|]. unfold L1 in Hl.
    destruct (list_of s e) as [q'|] eqn:Eq; [|by eapply Hpr]. cbn [with_event] in Hl. rewrite lookup_insert in Hl. case_decide; [|by eapply Hpr].
    subst q'. injection Hl as <-. destruct (Hroom e q) as (l & Hl & _); [left|done|]. rewrite (lookup_total_correct _ _ _ Hl) in Hx.
    apply elem_of_ins_prio in Hx as [?|Hx]; [done|]. by eapply Hpr.
  - intros x q Hx Hq. rewrite (alike_list _ _ _ Ha) in Hq. destruct (Hroom x q) as (l & Hl & Hlen); [by right|done|]. cbn [length] in Hlen. unfold L1.
    destruct (list_of s e) as [q'|]; cbn [with_event]; [|exists l; split; [done|lia]]. rewrite lookup_insert. case_decide; [subst q'|exists l; split; [done|lia]].
    eexists. split; [reflexivity|]. rewrite (lookup_total_correct _ _ _ Hl). destruct (ins_prio_split pr e l) as (l1 & l2 & -> & -> & _).
    rewrite length_app in *. cbn [length]. lia.
  - exists s'. split_and!; [by rewrite Nat.add_succ_comm|done|by eapply alike_trans| |].
    + intros x. rewrite Hevs. unfold s1. cbn [events set_event set_links ker]. destruct (decide (x = e)) as [->|Hne].
      * rewrite lookup_total_insert_eq, decide_False, decide_True by (done || left). done.
      * rewrite lookup_total_insert_ne by done. destruct (decide (x ∈ evs)); [by rewrite decide_True by by right|]. by rewrite decide_False by by apply not_elem_of_cons.
    + rewrite (with_events_alike _ _ _ _ _ Ha) in Hpo'. exact Hpo'.
Qed.

End Lists.

(** ** [k_poll] *)

Section Wait.
Context `{KConfig}.
Abbreviation store := (gmap positive (list positive)).
Implicit Types (s : pstate) (e q w : positive) (L : store).
Variable tf : positive -> toid -> kernel -> kernel.

Lemma polled_agree s s' L :
  polled s L -> holds (links s') L -> (forall q l x, L !! q = Some l -> x ∈ l -> poller (events s' !!! x) = poller (events s !!! x)) ->
  (forall u, prio (thr (ker s') u) = prio (thr (ker s) u)) -> polled s' L.
Proof.
  intros [H1 H2 H3] Hh He Hp. split; [done|intros q l x Hl Hx; rewrite (He q l) by done; by apply (H2 q l)|].
  intros q l Hl. eapply ordered_ext; [|by apply (H3 q l)]. intros x Hx. unfold ev_prio. rewrite (He q l) by done. by destruct (poller _).
Qed.

Lemma pend_current_prio k (q : qid) (timeout : Z) u :
  timeout = K_FOREVER \/ timeout_ok timeout -> prio (thr (_Swap (_pend_current_thread tf k q timeout)) u) = prio (thr k u).
Proof.
  intros Hok. destruct (decide (u = current k)) as [->|Hu]; [|by rewrite pend_current_thr].
  unfold _pend_current_thread. cbv zeta. rewrite remove_current. set (k1 := _remove_thread_from_ready_q k (current k)).
  assert (prio (thr k1 (current k)) = prio (thr k (current k))) as <- by (unfold k1; by rewrite remove_thr).
  set (k2 := _pend_thread tf k1 (current k) q timeout).
  assert (prio (thr k2 (current k)) = prio (thr k1 (current k))) as <-.
  { unfold k2, _pend_thread. cbv zeta. set (k3 := _mark_thread_as_pending _ _).
    assert (prio (thr k3 (current k)) = prio (thr k1 (current k))) as <- by (unfold k3, _mark_thread_as_pending, _set_thread_states; by rewrite thr_upd_same).
    destruct (Z.eqb_spec timeout K_FOREVER) as [|Hne]; cbn [negb]; [done|]. destruct Hok as [|Hok]; [done|]. unfold timeout_ok in Hok. unfold _add_thread_timeout.
    by rewrite (add_timeout_frame tf k3 (Some (current k)) (TOthread (current k)) (Some q) _) by lia. }
  change (prio (thr (upd_thread k2 (current k2) (with_retval (- EAGAIN))) (current k)) = prio (thr k2 (current k))).
  rewrite thr_upd_thread. by case_decide as E; [rewrite <- E|].
Qed.

Lemma poll_loop_app fuel a b (timeout : Z) : forall s n, poll_loop fuel s (a ++ b) timeout n =
  match poll_loop fuel s a timeout n with Some (s, n) => poll_loop fuel s b timeout n | None => None end.
Proof.
  induction a as [|e a IH]; intros s n; [done|]. cbn [app poll_loop]. destruct (is_condition_met s e); [apply IH|].
  destruct (_ && _); [|apply IH]. by destruct (register_event _ _ _ _).
Qed.

Lemma first_met s evs : existsb (met s) evs = true ->
  exists pre e rest st, evs = pre ++ e :: rest /\ (forall x, x ∈ pre -> is_condition_met s x = None) /\ is_condition_met s e = Some st.
Proof.
  induction evs as [|e evs IH]; [done|]. cbn [existsb]. unfold met at 1. destruct (is_condition_met s e) as [st|] eqn:Em.
  - intros _. exists [], e, evs, st. split_and!; [done|by intros x ?%not_elem_of_nil|done].
  - rewrite bool_decide_false by (by intros [? ?]). intros (pre & x & rest & st & -> & Hpre & Hx)%IH.
    exists (e :: pre), x, rest, st. split_and!; [done|by intros y [->|Hy]%elem_of_cons; [|apply Hpre]|done].
Qed.

Lemma none_met s evs x : existsb (met s) evs = false -> x ∈ evs -> is_condition_met s x = None.
Proof.
  intros He Hx. destruct (is_condition_met s x) as [st|] eqn:Em; [|done]. rewrite <- not_true_iff_false in He. exfalso. apply He.
  apply existsb_exists. exists x. rewrite <- list_elem_of_In. split; [done|]. unfold met. rewrite Em. by apply bool_decide_true.
Qed.

(** The priorities once the current thread polls [evs]. *)
Definition poll_prio s (evs : list positive) (x : positive) : Z :=
  if decide (x ∈ evs) then prio (thr (ker s) (current (ker s))) else ev_prio s x.

(** The events are new ones, for objects whose lists exist. *)
Record may_poll (fuel : nat) s (evs : list positive) L : Prop := {
  mp_polled : polled s L;
  mp_nodup : NoDup evs;
  mp_new : forall e, e ∈ evs -> poller (events s !!! e) = None;
  mp_room : forall e q, e ∈ evs -> list_of s e = Some q -> exists l, L !! q = Some l /\ (length l + length evs <= fuel)%nat
}.

Section Call.
Variables (fuel : nat) (s : pstate) (evs : list positive) (L : store).
Hypothesis Hmp : may_poll fuel s evs L.
Let s0 : pstate := set_polling_state s (current (ker s)).

Lemma new_free e : e ∈ evs -> free L e.
Proof. intros He q l Hl Hin. destruct (po_poller _ _ (mp_polled _ _ _ _ Hmp) q l e Hl Hin) as [u Hu]. by rewrite (mp_new _ _ _ _ Hmp) in Hu. Qed.

Lemma start_alike : alike s s0.
Proof. by split. Qed.

Lemma start_prio x : ev_prio s0 x = ev_prio s x.
Proof. unfold ev_prio. change (events s0) with (events s). destruct (poller _); [|done]. apply quiet_polling. Qed.

Lemma start_polled : polled s0 L.
Proof. apply (polled_agree s); [apply Hmp|apply Hmp|done|]. apply quiet_polling. Qed.

(** The events before the first whose condition is met are registered. *)
Lemma register_prefix pre rest (timeout : Z) :
  evs = pre ++ rest -> timeout <> K_NO_WAIT -> (forall x, x ∈ pre -> is_condition_met s x = None) ->
  exists s1, poll_loop fuel s0 pre timeout 0 = Some (s1, length pre) /\ ker s1 = ker s0 /\ alike s s1 /\
    (forall x, events s1 !!! x = if decide (x ∈ pre) then with_poller (Some (current (ker s))) (events s !!! x) else events s !!! x) /\
    polled s1 (with_events (poll_prio s evs) s pre L).
Proof.
  intros E Ht Hn. assert (forall x, x ∈ pre -> x ∈ evs) as Hin by (intros x Hx; rewrite E; set_solver).
  destruct (poll_registers fuel (poll_prio s evs) pre s0 L 0 timeout) as (s1 & H1 & H2 & H3 & H4 & H5).
  - apply mark_polling.
  - done.
  - apply start_polled.
  - pose proof (mp_nodup _ _ _ _ Hmp) as Hnd. rewrite E in Hnd. by apply NoDup_app in Hnd as [? _].
  - intros x Hx. split_and!; [by apply new_free, Hin|by rewrite (alike_met _ _ _ start_alike), Hn|].
    unfold poll_prio. rewrite decide_True by by apply Hin. symmetry. apply quiet_polling.
  - intros q l x Hl Hx. unfold poll_prio. rewrite decide_False; [by rewrite start_prio|]. intros He. by apply (new_free x He q l).
  - intros e q He Hq. rewrite (alike_list _ _ _ start_alike) in Hq. destruct (mp_room _ _ _ _ Hmp e q (Hin e He) Hq) as (l & Hl & Hlen).
    exists l. split; [done|]. rewrite E, length_app in Hlen. lia.
  - exists s1. split_and!; [done|done|by eapply alike_trans; [apply start_alike|]|exact H4|]. by rewrite (with_events_alike _ _ _ _ _ start_alike) in H5.
Qed.

(** Where the loop ends when some condition is met. *)
Lemma loop_met (timeout : Z) : timeout <> K_NO_WAIT -> existsb (met s) evs = true ->
  exists pre rest s3, evs = pre ++ rest /\ poll_loop fuel s0 evs timeout 0 = Some (s3, length pre) /\ is_polling s3 = false /\
    quiet (ker s0) (ker s3) /\ alike s s3 /\ holds (links s3) (with_events (poll_prio s evs) s pre L) /\
    (forall x, x ∈ pre -> is_condition_met s x = None) /\
    (forall x, events s3 !!! x = if decide (x ∈ pre) then with_poller (Some (current (ker s))) (events s !!! x)
                                 else if decide (x ∈ evs) then checked s x else events s !!! x).
Proof.
  intros Ht Hmet. destruct (first_met s evs Hmet) as (pre & e & rest & st & E & Hpre & He).
  pose proof (mp_nodup _ _ _ _ Hmp) as Hnd. rewrite E in Hnd. apply NoDup_app in Hnd as (Hnd1 & Hdis & [Her Hnd2]%NoDup_cons).
  destruct (register_prefix pre (e :: rest) timeout E Ht Hpre) as (s1 & E1 & Hk1 & Ha1 & Hev1 & Hpo1).
  set (s2 := clear_polling_state (set_event_ready s1 e st) (current (ker s1))).
  assert (alike s s2) as Ha2.
  { eapply alike_trans; [exact Ha1|]. apply (alike_event s1 (links s1) (_mark_thread_as_not_polling (ker s1) (current (ker s1))) e); done. }
  assert (is_polling s2 = false) as Hp2 by apply mark_not_polling.
  destruct (poll_unregistered fuel rest s2 (length pre) timeout (or_intror Hp2) Hnd2) as (s3 & E3 & Hq3 & Ha3 & Hl3 & Hev3 & Hp3 & _).
  exists pre, (e :: rest), s3. split; [done|]. split.
  { rewrite E, poll_loop_app, E1. cbn [poll_loop]. by rewrite (alike_met _ _ _ Ha1), He. }
  split; [by rewrite Hp3, Hp2|]. split; [eapply quiet_trans; [|exact Hq3]; rewrite <- Hk1; apply quiet_not_polling|].
  split; [by eapply alike_trans|]. split; [rewrite Hl3; apply Hpo1|]. split; [done|].
  intros x. rewrite Hev3. destruct (decide (x = e)) as [->|Hne].
  - rewrite decide_False by done. assert (e ∉ pre) as Hep by (intros Hin; apply (Hdis e Hin); left). rewrite decide_False by done.
    rewrite decide_True by (rewrite E; set_solver). unfold s2, checked. cbn. rewrite lookup_total_insert_eq, Hev1, decide_False by done. by rewrite He.
  - assert (events s2 !!! x = events s1 !!! x) as Ex by (unfold s2; cbn; by rewrite lookup_total_insert_ne).
    rewrite Ex, Hev1. destruct (decide (x ∈ rest)) as [Hr|Hr].
    + assert (x ∉ pre) as Hxp by (intros Hin; apply (Hdis x Hin); by right). rewrite (decide_False (P := x ∈ pre)) by done.
      rewrite decide_True by (rewrite E; set_solver). apply checked_alike; [done|]. by rewrite Ex, Hev1, decide_False.
    + destruct (decide (x ∈ pre)); [done|]. rewrite decide_False; [done|]. rewrite E. set_solver.
Qed.

(** Some condition is met. *)
Lemma poll_met w (timeout : Z) : existsb (met s) evs = true ->
  exists s', k_poll tf fuel s w evs timeout = Some (s', Returned 0) /\ quiet (ker s) (ker s') /\ polled s' L /\
    (forall x, events s' !!! x = if decide (x ∈ evs) then checked s x else events s !!! x).
Proof.
  intros Hmet. pose proof (mp_nodup _ _ _ _ Hmp) as Hnd.
  assert (forall s', quiet (ker s0) (ker s') -> holds (links s') L -> (forall x, events s' !!! x = if decide (x ∈ evs) then checked s x else events s !!! x) ->
    quiet (ker s) (ker s') /\ polled s' L /\ (forall x, events s' !!! x = if decide (x ∈ evs) then checked s x else events s !!! x)) as Hpo.
  { intros s' Hq Hh Hev. split; [eapply quiet_trans; [apply quiet_polling|done]|]. split; [|done].
    apply (polled_agree s0); [apply start_polled|done| |apply Hq]. intros q l x Hl Hx. rewrite Hev, decide_False; [done|].
    intros He. by apply (new_free x He q l). }
  unfold k_poll. fold s0. destruct (decide (timeout = K_NO_WAIT)) as [Ht|Ht].
  - destruct (poll_unregistered fuel evs s0 0 timeout (or_introl Ht) Hnd) as (s' & -> & Hq & Ha & Hl & Hev & Hp & _).
    rewrite (met_alike _ _ _ start_alike), Hmet, andb_false_r in Hp. rewrite Hp. exists s'. split; [done|].
    apply Hpo; [done|rewrite Hl; apply Hmp|done].
  - destruct (loop_met timeout Ht Hmet) as (pre & rest & s3 & E & -> & -> & Hq & Ha & Hh3 & Hpre & Hev3). cbn [negb].
    rewrite E in Hnd. apply NoDup_app in Hnd as (Hnd & _).
    destruct (clear_all (poll_prio s evs) pre s3 L rest) as (Hk & Ha4 & Hh & Hev4); [done|by rewrite (with_events_alike _ _ _ _ _ Ha)| |..].
    { intros x Hx. apply new_free. rewrite E. set_solver. }
    { intros x q Hx Hxq. rewrite (alike_list _ _ _ Ha) in Hxq. destruct (mp_room _ _ _ _ Hmp x q) as (l & Hl & _); [rewrite E; set_solver|done|by eexists]. }
    rewrite <- E in *. exists (clear_event_registrations s3 evs (length pre)). split; [done|]. apply Hpo; [by rewrite Hk|done|].
    intros x. rewrite Hev4, Hev3. destruct (decide (x ∈ pre)) as [Hx|Hx]; [|done]. assert (x ∈ evs) as Hin by (rewrite E; set_solver).
    rewrite decide_True by done. unfold checked. rewrite (Hpre x Hx). pose proof (mp_new _ _ _ _ Hmp x Hin) as Hn. revert Hn.
    by destruct (events s !!! x) as [? ? ? ? ? ?]; cbn; intros ->.
Qed.

(** No condition is met, and the caller does not wait. *)
Lemma poll_no_wait w : existsb (met s) evs = false ->
  k_poll tf fuel s w evs K_NO_WAIT = Some (clear_polling_state s0 (current (ker s)), Returned (- EAGAIN)).
Proof.
  intros Hmet. unfold k_poll. fold s0.
  destruct (poll_unregistered fuel evs s0 0 K_NO_WAIT (or_introl eq_refl) (mp_nodup _ _ _ _ Hmp)) as (s' & -> & _ & _ & _ & _ & Hp & Hs).
  rewrite (met_alike _ _ _ start_alike) in Hp, Hs. rewrite (Hs Hmet). assert (is_polling s0 = true) as -> by apply mark_polling. done.
Qed.

(** No condition is met, and the caller waits. *)
Lemma poll_waits w (timeout : Z) :
  existsb (met s) evs = false -> timeout <> K_NO_WAIT -> wait_ok timeout -> sys_inv (ker s) -> current (ker s) <> idle_thread ->
  queues (ker s) !!! object_wq w = [] ->
  exists s', k_poll tf fuel s w evs timeout = Some (s', Waiting (length evs)) /\ sys_inv (ker s') /\
    queues (ker s') !!! object_wq w = [current (ker s)] /\ alike s s' /\ polled s' (with_events (poll_prio s evs) s evs L) /\
    (forall x, events s' !!! x = if decide (x ∈ evs) then with_poller (Some (current (ker s))) (events s !!! x) else events s !!! x) /\
    may_run (ker s') (current (ker s)) /\ st_bit (thr (ker s') (current (ker s))) 2 = false.
Proof.
  intros Hmet Ht Hok Hs Hc Hw.
  destruct (register_prefix evs [] timeout) as (s1 & E1 & Hk1 & Ha1 & Hev1 & Hpo1); [by rewrite app_nil_r|done|by intros x; apply none_met|].
  unfold k_poll. fold s0. rewrite E1. assert (is_polling s1 = true) as -> by (unfold is_polling; rewrite Hk1; apply mark_polling).
  cbn [negb]. rewrite (proj2 (Z.eqb_neq _ _) Ht). set (s2 := clear_polling_state s1 (current (ker s1))).
  assert (quiet (ker s) (ker s2)) as Hq. { eapply quiet_trans; [apply quiet_polling|]. unfold s0 in Hk1. cbn in Hk1. rewrite <- Hk1. apply quiet_not_polling. }
  set (k := set_queues (ker s2) (Lst.init (queues (ker s2)) (object_wq w))).
  assert (sys_inv k) as Hks.
  { destruct (qu_sys _ _ Hq Hs) as [K1 K2 K3]. split; [|done|done]. apply kinv_empty_wq; [|done]. by rewrite (qu_queues _ _ Hq). }
  assert (timeout = K_FOREVER \/ timeout_ok timeout) as Hto by (destruct Hok as [|[|]]; [done|by left|by right]).
  eexists. split; [reflexivity|]. cbn [ker set_ker]. assert (current k = current (ker s)) as Hck by exact (qu_current _ _ Hq).
  split; [apply pend_object_sys; [done|by rewrite Hck|done|done]|].
  split; [rewrite pend_object_wq by done; unfold k; cbn [queues set_queues]; unfold Lst.init; rewrite lookup_total_insert_eq; cbn [ins_prio]; by rewrite <- Hck|].
  split; [by split; apply Ha1|]. split; [|split; [exact Hev1|]].
  2:{ rewrite <- Hck. destruct Hks as [_ Hr _]. destruct (ready_may_run k _ Hr) as (B0 & B3 & B4). unfold may_run. rewrite !pend_current_bit by (done || lia).
      split; [done|]. apply ready_spec in Hr as [Hp _]. unfold prevented in Hp. rewrite !orb_false_iff in Hp. by destruct Hp as [[[[_ _] ?] _] _]. }
  apply (polled_agree s1); [exact Hpo1|apply Hpo1|done|]. intros u. cbn [ker set_ker]. rewrite pend_current_prio by done.
  transitivity (prio (thr (ker s) u)); [exact (qu_prio _ _ Hq u)|]. rewrite Hk1. symmetry. exact (qu_prio _ _ (quiet_polling (ker s)) u).
Qed.

End Call.

(** C24. What [k_poll] does: when conditions are met it marks exactly those events as
    ready, takes back its registrations and returns 0; otherwise it returns [-EAGAIN]
    and changes nothing, if it may not wait, or it adds each event to the list of its
    object, by priority, and the thread waits. *)
Theorem k_poll_outcome fuel s w evs L (timeout : Z) :
  may_poll fuel s evs L -> sys_inv (ker s) -> current (ker s) <> idle_thread -> queues (ker s) !!! object_wq w = [] -> wait_ok timeout ->
  exists s' r, k_poll tf fuel s w evs timeout = Some (s', r) /\ sys_inv (ker s') /\
    if existsb (met s) evs then
      r = Returned 0 /\ queues (ker s') = queues (ker s) /\ polled s' L /\
      (forall x, events s' !!! x = if decide (x ∈ evs) then checked s x else events s !!! x)
    else if timeout =? K_NO_WAIT then
      r = Returned (- EAGAIN) /\ queues (ker s') = queues (ker s) /\ polled s' L /\ events s' = events s
    else
      r = Waiting (length evs) /\ queues (ker s') !!! object_wq w = [current (ker s)] /\
      polled s' (with_events (poll_prio s evs) s evs L) /\
      (forall x, events s' !!! x = if decide (x ∈ evs) then with_poller (Some (current (ker s))) (events s !!! x) else events s !!! x).
Proof.
  intros Hmp Hs Hc Hw Hok. destruct (existsb (met s) evs) eqn:Hmet.
  - destruct (poll_met fuel s evs L Hmp w timeout Hmet) as (s' & -> & Hq & Hpo & Hev). exists s', (Returned 0). split; [done|].
    split; [by apply Hq|]. split; [done|]. split; [apply Hq|]. by split.
  - destruct (Z.eqb_spec timeout K_NO_WAIT) as [->|Ht].
    + eexists _, _. split; [by eapply poll_no_wait|]. assert (quiet (ker s) (ker (clear_polling_state (set_polling_state s (current (ker s))) (current (ker s))))) as Hq.
      { eapply quiet_trans; [apply quiet_polling|]. exact (quiet_not_polling (_mark_thread_as_polling (ker s) (current (ker s)))). }
      split; [by apply Hq|]. split; [done|]. split; [apply Hq|]. split; [|done]. apply (polled_agree s); [apply Hmp|apply Hmp|done|apply Hq].
    + destruct (poll_waits fuel s evs L Hmp w timeout) as (s' & -> & Hs' & Hq & _ & Hpo & Hev & _); try done. by exists s', (Waiting (length evs)).
Qed.

End Wait.

(** ** Signalling *)

Section Signal.
Context `{KConfig}.
Abbreviation store := (gmap positive (list positive)).
Implicit Types (s : pstate) (k : kernel) (t u : tid) (e q o : positive) (L : store).

(** The thread that waits for a signalled event, before it is made ready. *)
Definition poll_unpended k t (r : Z) : kernel :=
  _set_thread_return_value (fst (_abort_thread_timeout (_unpend_thread (_mark_thread_as_not_polling k t) t) t)) t r.

Definition poll_woken k t (r : Z) : kernel :=
  let k := poll_unpended k t r in if _is_thread_ready k t then _add_thread_to_ready_q k t else k.

Lemma unpended_kinv k t (r : Z) : kinv None [] k -> _is_thread_pending k t = true ->
  kinv (Some t) [] (poll_unpended k t r) /\ _is_thread_pending (poll_unpended k t r) t = false /\ TOthread t ∉ timeout_q (poll_unpended k t r).
Proof.
  intros Hi Hp. unfold poll_unpended, _abort_thread_timeout, _set_thread_return_value. set (k0 := _mark_thread_as_not_polling k t).
  assert (kinv None [] k0) as H0 by (apply unseen_kinv; [apply unseen_not_polling|done]).
  assert (_is_thread_pending k0 t = true) as Hp0 by (unfold k0; rewrite <- Hp; apply unseen_pending, unseen_not_polling).
  pose proof (kinv_unpend [] k0 t H0 Hp0) as H1. set (k1 := _unpend_thread k0 t) in *.
  assert (TOthread t ∉ (@nil toid)) as Hn by apply not_elem_of_nil.
  split; [apply kinv_upd_other; [done|done|]; by apply kinv_abort; [| |congruence]|]. split.
  - rewrite (pending_ext (fst (_abort_timeout k1 (TOthread t)))) by (by rewrite thr_upd_same). rewrite abort_pending. apply unpend_not_pending.
  - intros Hin. apply (abort_off (Some t) [] k1 (TOthread t) (ki_tq _ _ _ H1) Hn). apply elem_of_app. by left.
Qed.

(** What the unpending leaves alone. *)
Lemma unpended_frame k t (r : Z) : kinv None [] k -> _is_thread_pending k t = true ->
  let k' := poll_unpended k t r in
  current k' = current k /\ nested k' = nested k /\ handling_timeouts k' = handling_timeouts k /\ queues k' = Lst.remove (queues k) t /\
  (forall u, u <> t -> thr k' u = thr k u /\ _is_thread_ready k' u = _is_thread_ready k u) /\
  prio (thr k' t) = prio (thr k t) /\ retval (thr k' t) = r.
Proof.
  intros Hi Hp. unfold poll_unpended, _abort_thread_timeout, _set_thread_return_value. set (k0 := _mark_thread_as_not_polling k t).
  assert (kinv None [] k0) as H0 by (apply unseen_kinv; [apply unseen_not_polling|done]).
  assert (_is_thread_pending k0 t = true) as Hp0 by (unfold k0; rewrite <- Hp; apply unseen_pending, unseen_not_polling).
  pose proof (kinv_unpend [] k0 t H0 Hp0) as H1. set (k1 := _unpend_thread k0 t) in *.
  assert (forall u, u <> t -> thr k1 u = thr k u) as Ht.
  { intros u Hu. unfold k1, _unpend_thread, _mark_thread_as_not_pending, _reset_thread_states. rewrite thr_upd_other by done.
    unfold k0, _mark_thread_as_not_polling, _reset_thread_states. exact (thr_upd_other k t u _ Hu). }
  assert (prio (thr k1 t) = prio (thr k t)) as Hpr.
  { unfold k1, _unpend_thread, _mark_thread_as_not_pending, _reset_thread_states. rewrite thr_upd_same. cbn [prio with_state].
    change (prio (thr k0 t) = prio (thr k t)). unfold k0, _mark_thread_as_not_polling, _reset_thread_states. by rewrite thr_upd_same. }
  cbn zeta. split; [exact (current_abort k1 (TOthread t))|]. split; [exact (nested_abort k1 (TOthread t))|].
  split; [change (handling_timeouts (fst (_abort_timeout k1 (TOthread t))) = handling_timeouts k); by rewrite (abort_frame k1 (TOthread t))|].
  split; [change (queues (fst (_abort_timeout k1 (TOthread t))) = Lst.remove (queues k) t); by rewrite (abort_frame k1 (TOthread t))|].
  split; [|split; [rewrite thr_upd_same; cbn [prio with_retval]; by rewrite (abort_frame k1 (TOthread t))|by rewrite thr_upd_same]].
  intros u Hu. split; [rewrite thr_upd_other by done; rewrite (abort_frame k1 (TOthread t)); by apply Ht|].
  rewrite (ready_ext (fst (_abort_timeout k1 (TOthread t)))) by (done || by rewrite thr_upd_other).
  rewrite (abort_ready (Some t) []); [|done|apply not_elem_of_nil|congruence|congruence]. unfold k1. rewrite unpend_ready by done. apply unseen_ready, unseen_not_polling.
Qed.

(** The woken thread has its value and waits no more; the rest is as before. *)
Record woken_by k k' t (r : Z) : Prop := {
  wb_sys : sys_inv k';
  wb_retval : retval (thr k' t) = r;
  wb_pending : _is_thread_pending k' t = false;
  wb_wq : forall w, queues k' !!! WQ w = filter (fun u => u <> t) (queues k !!! WQ w);
  wb_prio : forall u, prio (thr k' u) = prio (thr k u);
  wb_ready : may_run k t -> st_bit (thr k t) 2 = false -> _is_thread_ready k' t = true
}.

(** The end of the call, which may switch to the woken thread. *)
Lemma woken_switch k k4 t (r : Z) :
  sys_inv k -> kinv None [] k4 -> keeps k k4 -> current k <> t -> retval (thr k4 t) = r -> _is_thread_pending k4 t = false ->
  (forall w, queues k4 !!! WQ w = filter (fun u => u <> t) (queues k !!! WQ w)) -> (forall u, prio (thr k4 u) = prio (thr k u)) ->
  _is_thread_ready k4 t = true ->
  woken_by k (if negb (_is_in_isr k4) && _must_switch_threads k4 then _Swap k4 else k4) t r.
Proof.
  intros Hs Hk Hkp Hne Hr Hpd Hw Hp Hrd. pose proof (service_swap k k4 Hs Hk Hkp) as Hsys. unfold swap_or_unlock in Hsys.
  destruct Hkp as (Hc & _). destruct (negb (_is_in_isr k4) && _must_switch_threads k4); [|by split].
  assert (forall u, thr (_Swap k4) u = if decide (u = current k4) then with_retval (- EAGAIN) (thr k4 (current k4)) else thr k4 u) as Ht.
  { intros u. change (thr (_Swap k4) u) with (thr (upd_thread k4 (current k4) (with_retval (- EAGAIN))) u). apply thr_upd_thread. }
  assert (thr (_Swap k4) t = thr k4 t) as Htt by (rewrite Ht, decide_False; [done|congruence]).
  split; [done|by rewrite Htt|by rewrite (pending_ext k4) by by rewrite Htt|by intros w; rewrite Swap_queues| |by rewrite Swap_ready].
  intros u. rewrite Ht, <- Hp. by case_decide; [subst|].
Qed.

Lemma added_frame k t : let k' := _add_thread_to_ready_q k t in
  current k' = current k /\ nested k' = nested k /\ handling_timeouts k' = handling_timeouts k /\
  (forall u, thr k' u = thr k u) /\ (forall u, _is_thread_ready k' u = _is_thread_ready k u) /\ (forall u, _is_thread_pending k' u = _is_thread_pending k u).
Proof. done. Qed.

(** Nothing keeps the thread from running but its wait, so it can run now. *)
Lemma unpended_ready k t (r : Z) : kinv None [] k -> _is_thread_pending k t = true -> may_run k t -> st_bit (thr k t) 2 = false ->
  _is_thread_ready (poll_unpended k t r) t = true.
Proof.
  intros Hi Hp (B0 & B3 & B4) B2. destruct (unpended_kinv k t r Hi Hp) as (Hk & Hpd & Hto). apply ready_spec. split.
  - assert (forall n, 0 <= n < 8 -> st_bit (thr k t) n = false -> st_bit (thr (poll_unpended k t r) t) n = false) as Hb.
    { intros n Hn Hb. unfold poll_unpended, _set_thread_return_value, _abort_thread_timeout. rewrite thr_upd_same, (abort_frame _ (TOthread t)).
      unfold _unpend_thread, _mark_thread_as_not_pending, _reset_thread_states.
      change (st_bit (thr (upd_thread (_mark_thread_as_not_polling k t) t
        (fun x => with_state (u8 (Z.land (thread_state x) (Z.lnot (Z.shiftl 1 1)))) x)) t) n = false).
      rewrite thr_upd_same, st_bit_clear by lia. unfold _mark_thread_as_not_polling, _reset_thread_states. rewrite thr_upd_same.
      change _THREAD_POLLING with (Z.shiftl 1 5). by rewrite st_bit_clear, Hb by lia. }
    rewrite pending_spec in Hpd. unfold prevented. by rewrite Hpd, (Hb 0), (Hb 2), (Hb 3), (Hb 4) by (done || lia).
  - apply (ti_inactive _ _ _ (ki_tq _ _ _ Hk)); [done|apply not_elem_of_nil].
Qed.

Lemma woken_sys k t (r : Z) : sys_inv k -> _is_thread_pending k t = true ->
  let k' := poll_woken k t r in
  woken_by k (if _is_thread_ready (poll_unpended k t r) t && (negb (_is_in_isr k') && _must_switch_threads k') then _Swap k' else k') t r.
Proof.
  intros Hs Hp. pose proof (sy_kinv _ Hs) as Hi. destruct (unpended_kinv k t r Hi Hp) as (Hk & Hpd & Hto).
  destruct (unpended_frame k t r Hi Hp) as (Hc & Hn & Hh & Hq & Hu & Hpr & Hrv). pose proof (unpended_ready k t r Hi Hp) as Hmr. cbn zeta. unfold poll_woken.
  revert Hk Hpd Hto Hc Hn Hh Hq Hu Hpr Hrv Hmr. generalize (poll_unpended k t r) as k3. intros k3 Hk Hpd Hto Hc Hn Hh Hq Hu Hpr Hrv Hmr. cbn zeta.
  pose proof (pending_not_current k t Hp (sy_current _ Hs)) as Hne.
  assert (forall u, prio (thr k3 u) = prio (thr k u)) as Hprio by (intros u; destruct (decide (u = t)) as [->|?]; [done|by destruct (Hu u) as [-> _]]).
  assert (forall w, queues k3 !!! WQ w = filter (fun u => u <> t) (queues k !!! WQ w)) as Hw by (intros w; rewrite Hq; apply Lst.lookup_remove).
  destruct (_is_thread_ready k3 t) eqn:Hr; cbn [andb].
  - destruct (added_frame k3 t) as (A1 & A2 & A3 & A4 & A5 & A6). pose proof (kinv_add [] k3 t Hk Hr) as Hk4.
    assert (forall w, queues (_add_thread_to_ready_q k3 t) !!! WQ w = queues k3 !!! WQ w) as A7 by (intros w; apply add_wq).
    revert A1 A2 A3 A4 A5 A6 A7 Hk4. generalize (_add_thread_to_ready_q k3 t) as k4. intros k4 A1 A2 A3 A4 A5 A6 A7 Hk4.
    apply woken_switch; [done|done| |done|by rewrite A4|by rewrite A6|by intros w; rewrite A7|by intros u; rewrite A4|by rewrite A5].
    split; [congruence|]. split; [congruence|]. split; [congruence|]. intros Hcr. rewrite A5. by destruct (Hu (current k) Hne) as [_ ->].
  - split; [|done|done|done|done|by intros Hm Hb; rewrite (Hmr Hm Hb) in Hr]. apply (sys_shrink k); [done| |done|done|by destruct (Hu (current k) Hne)|by destruct (Hu (current k) Hne) as [_ ->]; apply Hs|].
    + apply (kinv_close [] k3 t); [done..|]. rewrite app_nil_r. done.
    + intros u Hru. split; [|apply Hprio]. destruct (decide (u = t)) as [->|Hut]; [by rewrite Hr in Hru|]. by destruct (Hu u Hut) as [_ <-].
Qed.

Lemma not_expired k t : kinv None [] k -> _is_thread_timeout_expired k t = false.
Proof.
  intros Hi. apply Z.eqb_neq. fold (TimeoutQ.dl k (TOthread t)). intros E. pose proof (ki_tq _ _ _ Hi) as Ht.
  destruct (decide (TOthread t ∈ timeout_q k)) as [Hin|Hin].
  - pose proof (ti_pos _ _ _ Ht _ Hin) as Hp. rewrite E in Hp. unfold _EXPIRED in Hp. lia.
  - rewrite (ti_inactive _ _ _ Ht _ Hin) in E by apply not_elem_of_nil. done.
Qed.

Lemma get_first h L q e l : holds h L -> L !! q = Some (e :: l) ->
  sys_dlist_get h (q_addr q) = (sys_dlist_remove h (n_addr e), Some (n_addr e)) /\ holds (sys_dlist_remove h (n_addr e)) (<[q := l]> L).
Proof.
  intros Hh Hl. pose proof (holds_dl _ _ Hh _ _ Hl) as Hd. split.
  - unfold sys_dlist_get. rewrite (dl_is_empty _ _ _ Hd), bool_decide_false by done. pose proof (dl_peek_head _ _ _ Hd) as Hp. unfold sys_dlist_peek_head in Hp.
    rewrite (dl_is_empty _ _ _ Hd), bool_decide_false in Hp by done. injection Hp as Hp. change (next h (q_addr q) = n_addr e) in Hp. by rewrite Hp.
  - assert (Lst.remove L e = <[q := l]> L) as <-; [|apply refine_remove; [done|]; exists q, (e :: l); split; [done|left]].
    apply map_eq. intros q'. unfold Lst.remove. rewrite lookup_fmap, lookup_insert. case_decide; [subst q'|].
    + rewrite Hl. cbn [fmap option_fmap option_map]. f_equal. exact (filter_ne_split e [] l (holds_nodup _ _ _ _ Hh Hl)).
    + destruct (L !! q') as [l'|] eqn:El; [|done]. cbn [fmap option_fmap option_map]. f_equal. apply filter_ne_id. intros Hin.
      assert (q = q') by (apply (holds_disj _ _ Hh q q' (e :: l) l' e); [done|done|left|done]). done.
Qed.

(** An event that has been signalled with [st]. *)
Definition readied (event : k_poll_event) (st : Z) : k_poll_event :=
  mk_event None (tag event) (type event) (Z.land (Z.lor (state event) st) 0xf) (mode event) (obj event).

Lemma signal_event_spec s e t (st : Z) :
  sys_inv (ker s) -> poller (events s !!! e) = Some t -> _is_thread_pending (ker s) t = true ->
  let r := if st =? K_POLL_STATE_NOT_READY then - EINTR else 0 in let k' := poll_woken (ker s) t r in
  _signal_poll_event s e st =
    (set_event (set_ker s k') e (readied (events s !!! e) st), 0, _is_thread_ready (poll_unpended (ker s) t r) t && (negb (_is_in_isr k') && _must_switch_threads k')).
Proof.
  intros Hs Hp Hpd. cbn zeta. unfold _signal_poll_event. rewrite Hp. cbn [ker clear_polling_state set_ker].
  assert (kinv None [] (_mark_thread_as_not_polling (ker s) t)) as Hk by (apply unseen_kinv; [apply unseen_not_polling|apply Hs]).
  assert (_is_thread_pending (_mark_thread_as_not_polling (ker s) t) t = true) as -> by (rewrite <- Hpd; apply unseen_pending, unseen_not_polling).
  rewrite (not_expired _ t Hk). cbn [negb]. unfold poll_woken. fold (poll_unpended (ker s) t (if st =? K_POLL_STATE_NOT_READY then - EINTR else 0)).
  generalize (poll_unpended (ker s) t (if st =? K_POLL_STATE_NOT_READY then - EINTR else 0)) as k3. intros k3. cbn zeta.
  by destruct (_is_thread_ready k3 t).
Qed.

(** Signalling the first event of a list, when its thread waits. *)
Lemma signal_wakes s L o e l t (res : Z) :
  sys_inv (ker s) -> polled s L -> L !! poll_events (signals s !!! o) = Some (e :: l) ->
  poller (events s !!! e) = Some t -> _is_thread_pending (ker s) t = true ->
  exists k', signal_poll s o res = Some (mk_pstate k' (sys_dlist_remove (links s) (n_addr e)) (<[e := readied (events s !!! e) K_POLL_STATE_SIGNALED]> (events s))
      (<[o := mk_signal (poll_events (signals s !!! o)) 1 res]> (signals s)) (sems s) (fifos s) (items s), 0) /\
    woken_by (ker s) k' t 0.
Proof.
  intros Hs Hpo Hl Hp Hpd. destruct (get_first _ _ _ _ _ (po_holds _ _ Hpo) Hl) as [Eg _]. unfold signal_poll. cbn [links set_signal].
  rewrite Eg. cbn [n_addr poll_layout]. set (s1 := set_links _ _). pose proof (signal_event_spec s1 e t K_POLL_STATE_SIGNALED Hs Hp Hpd) as E.
  cbn zeta in E. change (K_POLL_STATE_SIGNALED =? K_POLL_STATE_NOT_READY) with false in E. cbn iota in E. rewrite E.
  pose proof (woken_sys (ker s) t 0 Hs Hpd) as Hw. cbn zeta in Hw. change (ker s1) with (ker s). revert Hw.
  generalize (poll_woken (ker s) t 0) as k4. intros k4. generalize (_is_thread_ready (poll_unpended (ker s) t 0) t && (negb (_is_in_isr k4) && _must_switch_threads k4)) as b.
  intros b Hw. eexists. split; [|exact Hw]. by destruct b.
Qed.

(** A signal wakes the first thread that polls it: the thread returns 0 from
    [k_poll] and waits no more, its event is marked as signalled and taken off the
    list; the other events and threads wait on. *)
Theorem signal_wakes_spec s L o e l t (res : Z) :
  sys_inv (ker s) -> polled s L -> L !! poll_events (signals s !!! o) = Some (e :: l) ->
  poller (events s !!! e) = Some t -> _is_thread_pending (ker s) t = true ->
  exists s', signal_poll s o res = Some (s', 0) /\ sys_inv (ker s') /\
    signaled (signals s' !!! o) = 1 /\ result (signals s' !!! o) = res /\
    retval (thr (ker s') t) = 0 /\ _is_thread_pending (ker s') t = false /\
    (forall w, queues (ker s') !!! WQ w = filter (fun u => u <> t) (queues (ker s) !!! WQ w)) /\
    polled s' (<[poll_events (signals s !!! o) := l]> L) /\
    (forall x, events s' !!! x = if decide (x = e) then readied (events s !!! e) K_POLL_STATE_SIGNALED else events s !!! x).
Proof.
  intros Hs Hpo Hl Hp Hpd. destruct (signal_wakes s L o e l t res Hs Hpo Hl Hp Hpd) as (k' & -> & [W1 W2 W3 W4 W5 W6]). eexists. split; [reflexivity|].
  cbn [ker signals events]. rewrite lookup_total_insert_eq. do 6 (split; [done|]). split.
  2:{ intros x. destruct (decide (x = e)) as [->|]; [by rewrite lookup_total_insert_eq|by rewrite lookup_total_insert_ne]. }
  destruct (get_first _ _ _ _ _ (po_holds _ _ Hpo) Hl) as [_ Hh]. destruct Hpo as [P1 P2 P3]. set (q := poll_events (signals s !!! o)) in *.
  assert (forall q' l' x, <[q := l]> L !! q' = Some l' -> x ∈ l' -> x <> e /\ exists l0, L !! q' = Some l0 /\ x ∈ l0) as Hx.
  { intros q' l' x Hl' Hx. rewrite lookup_insert in Hl'. case_decide; [subst q'; injection Hl' as ->|].
    - split; [|exists (e :: l'); split; [done|by right]]. intros ->. apply (holds_nodup _ _ _ _ P1), NoDup_cons in Hl as [Hl _]. done.
    - split; [|by exists l']. intros ->. assert (q = q') by (apply (holds_disj _ _ P1 q q' (e :: l) l' e); [done|done|left|done]). done. }
  assert (forall q' l' x, <[q := l]> L !! q' = Some l' -> x ∈ l' -> <[e := readied (events s !!! e) K_POLL_STATE_SIGNALED]> (events s) !!! x = events s !!! x) as Hev.
  { intros q' l' x Hl' [Hne _]%(Hx q' l'); [|done]. by rewrite lookup_total_insert_ne. }
  split; [exact Hh| |].
  - intros q' l' x Hl' Hin. cbn [events]. rewrite (Hev q' l') by done. destruct (Hx q' l' x Hl' Hin) as (_ & l0 & H1 & H2). by apply (P2 q' l0).
  - intros q' l' Hl'. apply (ordered_ext (ev_prio s)).
    + intros x Hin. unfold ev_prio. cbn [events ker]. rewrite (Hev q' l') by done. destruct (poller (events s !!! x)); [symmetry; apply W5|done].
    + rewrite lookup_insert in Hl'. case_decide; [|by apply (P3 q')]. subst q'. injection Hl' as ->. pose proof (P3 q (e :: l') Hl) as Ho. by apply StronglySorted_inv in Ho as [? _].
Qed.

End Signal.

(** ** Unlinking an event twice

    [_signal_poll_event] is called with an event that has been unlinked, and the thread
    unlinks it again when it runs.  This does nothing as long as the list is as the
    first unlinking left it. *)

Section Twice.
Context `{KConfig}.
Abbreviation store := (gmap positive (list positive)).
Implicit Types (s : pstate) (e q x : positive) (L : store).

(** The links of [e], which was the first of the list [q]. *)
Definition stale (h : DList.heap) q e : Prop := prev h (n_addr e) = q_addr q /\ next h (n_addr e) = next h (q_addr q).

Lemma stale_remove h L q e : holds h L -> is_Some (L !! q) -> stale h q e -> holds (sys_dlist_remove h (n_addr e)) L.
Proof.
  intros Hh [l Hl] [Hp Hn]. pose proof (holds_dl _ _ Hh _ _ Hl) as Hd.
  assert (prev h (next h (q_addr q)) = q_addr q) as Hpn.
  { destruct ((n_addr <$> l) ++ [q_addr q]) as [|y r] eqn:E; [by destruct l|]. by destruct (dl_first _ _ _ _ _ Hd E) as (-> & _ & -> & _). }
  assert (prev h (n_addr e) <> n_addr e) as Hne by (rewrite Hp; apply q_n_disjoint).
  assert (forall y, next (sys_dlist_remove h (n_addr e)) y = next h y /\ prev (sys_dlist_remove h (n_addr e)) y = prev h y) as Hsame.
  { intros y. destruct (remove_links h (n_addr e) Hne y) as [-> ->]. rewrite Hp, Hn. split; case_decide; by subst. }
  split; [|apply Hh]. intros q' l' Hl'. apply (dl_frame h); [intros y _; apply Hsame..|]. by apply (holds_dl _ _ Hh).
Qed.

Lemma stale_kept h L q q' l' e x :
  holds h L -> is_Some (L !! q) -> L !! q' = Some l' -> q <> q' -> x ∈ l' -> free L e -> stale h q e -> stale (sys_dlist_remove h (n_addr x)) q e.
Proof.
  intros Hh [l Hl] Hl' Hq Hx Hf [Hp Hn]. pose proof (holds_dl _ _ Hh _ _ Hl') as Hd.
  assert (n_addr x ∈ q_addr q' :: (n_addr <$> l')) as Hxc by (right; by apply list_elem_of_fmap_2).
  destruct (dl_closed _ _ _ _ Hd Hxc) as [Hcn Hcp].
  assert (n_addr e ∉ q_addr q' :: (n_addr <$> l')) as He by (by eapply free_not_cell).
  assert (q_addr q ∉ q_addr q' :: (n_addr <$> l')) as Hqc.
  { apply not_elem_of_cons. split; [by intros ?%(inj q_addr)|]. intros (m & E & _)%list_elem_of_fmap. by apply q_n_disjoint in E. }
  assert (prev h (n_addr x) <> n_addr x) as Hself.
  { apply list_elem_of_split in Hx as (l1 & l2 & ->). rewrite fmap_app in Hd.
    destruct (dl_mid _ _ _ _ _ Hd) as (a & b & c & r & E1 & _ & _ & _ & _ & _ & _ & -> & _).
    intros ->. apply dl_nodup in Hd. rewrite app_comm_cons, E1 in Hd. apply NoDup_app in Hd as (_ & Hd & _). apply (Hd (n_addr x)); [set_solver|left]. }
  unfold stale. destruct (remove_links h (n_addr x) Hself (n_addr e)) as [-> ->]. destruct (remove_links h (n_addr x) Hself (q_addr q)) as [-> _].
  rewrite !decide_False; [done|by intros E; rewrite E in *..].
Qed.

Lemma clear_form s e :
  clear_event_registration s e =
  set_event (set_links s (match list_of s e with Some _ => sys_dlist_remove (links s) (n_addr e) | None => links s end)) e (with_poller None (events s !!! e)).
Proof.
  unfold clear_event_registration. rewrite (alike_list s) by (apply (alike_event s (links s) (ker s) e); done).
  destruct (list_of s e); [done|by destruct s].
Qed.

Lemma clear_stale pr q e pre : forall s L rest,
  NoDup pre -> holds (links s) (with_events pr s (filter (fun x => x <> e) pre) L) -> (forall x, x ∈ pre -> free L x) ->
  (forall x p, x ∈ pre -> list_of s x = Some p -> is_Some (L !! p)) -> (forall x, x ∈ pre -> x <> e -> list_of s x <> Some q) ->
  (e ∈ pre -> list_of s e = Some q /\ stale (links s) q e) ->
  let s' := clear_event_registrations s (pre ++ rest) (length pre) in
  holds (links s') L /\ (forall x, events s' !!! x = if decide (x ∈ pre) then with_poller None (events s !!! x) else events s !!! x).
Proof.
  induction pre as [|y pre IH] using rev_ind; intros s L rest Hnd Hh Hf Hp Hq He.
  { split; [done|]. intros x. by rewrite decide_False by apply not_elem_of_nil. }
  apply NoDup_app in Hnd as (Hnd & Hdis & _). assert (y ∉ pre) as Hy by (intros Hy; by apply (Hdis y Hy), list_elem_of_singleton).
  rewrite length_app. cbn [length]. rewrite Nat.add_1_r. cbn [clear_event_registrations].
  assert (((pre ++ [y]) ++ rest) !!! length pre = y) as ->.
  { apply list_lookup_total_correct. rewrite <- app_assoc. by apply list_lookup_middle. }
  rewrite clear_form. set (h := match list_of s y with Some _ => _ | None => _ end). set (s1 := set_event (set_links s h) y (with_poller None (events s !!! y))).
  assert (alike s s1) as Ha by (apply (alike_event s h (ker s)); done). rewrite <- app_assoc. rewrite filter_app in Hh.
  assert (forall x, events s1 !!! x = if decide (x = y) then with_poller None (events s !!! x) else events s !!! x) as Hev1.
  { intros x. unfold s1. cbn [events set_event set_links]. case_decide; [subst; by rewrite lookup_total_insert_eq|by rewrite lookup_total_insert_ne]. }
  destruct (IH s1 L ([y] ++ rest)) as (H3 & H4); [done| | |..].
  - rewrite (with_events_alike _ _ _ _ _ Ha). change (links s1) with h. unfold h. destruct (decide (y = e)) as [->|Hne].
    + destruct (He ltac:(set_solver)) as [Ee Hst]. rewrite Ee. rewrite (filter_cons_False _ e) in Hh by (by intros []). rewrite filter_nil, app_nil_r in Hh.
      apply (stale_remove _ _ q); [done|apply is_Some_with_events; apply (Hp e); [set_solver|done]|done].
    + rewrite filter_cons_True, filter_nil in Hh by done. unfold with_events in Hh. rewrite foldl_app in Hh. cbn [foldl] in Hh. fold (with_events pr s (filter (fun x => x <> e) pre) L) in Hh.
      destruct (list_of s y) as [p|] eqn:Ey; [|done]. destruct (is_Some_with_events pr s (filter (fun x => x <> e) pre) p L) as [lp Hlp]; [apply (Hp y); [set_solver|done]|].
      apply (remove_event _ _ p lp _ pr); [done| |done]. apply free_with_events; [apply Hf; set_solver|]. intros [_ ?]%list_elem_of_filter. done.
  - intros x Hx. apply Hf. set_solver.
  - intros x p Hx Hxp. rewrite (alike_list _ _ _ Ha) in Hxp. apply (Hp x); [set_solver|done].
  - intros x Hx. rewrite (alike_list _ _ _ Ha). apply Hq. set_solver.
  - intros Hin. destruct (He ltac:(set_solver)) as [Ee Hst]. assert (y <> e) as Hne by (by intros ->). split; [by rewrite (alike_list _ _ _ Ha)|].
    change (links s1) with h. unfold h. destruct (list_of s y) as [p|] eqn:Ey; [|done].
    rewrite filter_cons_True, filter_nil in Hh by done. unfold with_events in Hh. rewrite foldl_app in Hh. cbn [foldl] in Hh.
    fold (with_events pr s (filter (fun x => x <> e) pre) L) in Hh. rewrite Ey in Hh. cbn [with_event] in Hh.
    eapply (stale_kept _ _ q p _ e y); [exact Hh| |apply lookup_insert_eq| | | |exact Hst].
    + apply (is_Some_with pr (Some p)), is_Some_with_events, (Hp e); [set_solver|done].
    + intros ->. by apply (Hq y); [set_solver|..].
    + apply elem_of_ins_prio. by left.
    + apply (free_with pr (Some p)); [|congruence]. apply free_with_events; [apply Hf; set_solver|]. by intros [? _]%list_elem_of_filter.
  - split; [done|]. intros x. rewrite H4, Hev1. destruct (decide (x = y)) as [->|Hne].
    + rewrite decide_False, decide_True by (done || set_solver). done.
    + destruct (decide (x ∈ pre)); [by rewrite decide_True by set_solver|]. by rewrite decide_False by set_solver.
Qed.

(** Events of other lists do not matter for the list [q]. *)
Lemma with_events_insert pr s evs q v L : (forall x, x ∈ evs -> list_of s x <> Some q) ->
  with_events pr s evs (<[q := v]> L) = <[q := v]> (with_events pr s evs L) /\ with_events pr s evs L !! q = L !! q.
Proof.
  unfold with_events. revert L. induction evs as [|x evs IH]; intros L Hx; [done|]. cbn [foldl].
  assert (forall y, y ∈ evs -> list_of s y <> Some q) as Hy by (intros y Hy; apply Hx; by right).
  specialize (Hx x ltac:(left)). destruct (list_of s x) as [p|]; cbn [with_event]; [|by apply IH]. assert (p <> q) as Hpq by congruence.
  destruct (IH (<[p := ins_prio pr x (L !!! p)]> L) Hy) as [E1 E2].
  rewrite lookup_total_insert_ne by done. rewrite insert_insert_ne by done. rewrite E1, E2. split; [done|]. by rewrite lookup_insert_ne.
Qed.

(** The event is in front of the others when the caller has the highest priority. *)
Lemma front_event pr s evs q e l L :
  NoDup evs -> e ∈ evs -> list_of s e = Some q -> (forall x, x ∈ evs -> x <> e -> list_of s x <> Some q) ->
  L !! q = Some l -> (forall x, x ∈ l -> pr e < pr x) ->
  with_events pr s evs L = <[q := e :: l]> (with_events pr s (filter (fun x => x <> e) evs) L) /\
  with_events pr s (filter (fun x => x <> e) evs) L !! q = Some l.
Proof.
  intros Hnd He Eq Ho Hl Hpr. apply list_elem_of_split in He as (a & b & ->). rewrite filter_ne_split by done.
  apply NoDup_app in Hnd as (_ & Hd & [Hb _]%NoDup_cons).
  assert (forall x, x ∈ a -> list_of s x <> Some q) as Ha by (intros x Hx; apply Ho; [set_solver|intros ->; apply (Hd e Hx); left]).
  assert (forall x, x ∈ b -> list_of s x <> Some q) as Hb' by (intros x Hx; apply Ho; [set_solver|by intros ->]).
  unfold with_events. rewrite !foldl_app. cbn [foldl]. fold (with_events pr s a L). set (La := with_events pr s a L).
  assert (La !! q = Some l) as Hla by (unfold La; by rewrite (proj2 (with_events_insert pr s a q [] L Ha))). rewrite Eq. cbn [with_event].
  rewrite (lookup_total_correct _ _ _ Hla). assert (ins_prio pr e l = e :: l) as ->.
  { destruct l as [|x l]; [done|]. cbn [ins_prio]. by rewrite (proj2 (Z.ltb_lt _ _) (Hpr x ltac:(left))). }
  destruct (with_events_insert pr s b q (e :: l) La Hb') as [E1 E2]. unfold with_events in E1, E2. split; [exact E1|]. by rewrite E2.
Qed.

Lemma stale_first h L q e l : holds h L -> L !! q = Some (e :: l) -> stale (sys_dlist_remove h (n_addr e)) q e.
Proof.
  intros Hh Hl. pose proof (holds_dl _ _ Hh _ _ Hl) as Hd. destruct (dl_mid h (q_addr q) [] (fmap (M := list) n_addr l) (n_addr e) Hd) as (a & p & t & r & E1 & E2 & _ & _ & Hn & _ & _ & Hp & _).
  assert (p = q_addr q) as -> by (by destruct a as [|? [|]]; simplify_eq/=).
  assert (prev h (n_addr e) <> n_addr e) as Hself by (rewrite Hp; apply q_n_disjoint).
  assert (n_addr e <> t) as Het.
  { intros E. assert (t ∈ (n_addr <$> l) ++ [q_addr q]) as Hin by (rewrite E2; left). rewrite <- E in Hin. apply elem_of_app in Hin as [Hin|Hin%list_elem_of_singleton].
    - apply dl_nodup, NoDup_cons in Hd as [_ Hd]. cbn in Hd. by apply NoDup_cons in Hd as [? _].
    - by apply (q_n_disjoint q e). }
  unfold stale. destruct (remove_links h (n_addr e) Hself (n_addr e)) as [-> ->]. destruct (remove_links h (n_addr e) Hself (q_addr q)) as [-> _].
  rewrite Hp, Hn, (decide_True (P := q_addr q = q_addr q)) by done. rewrite decide_False by done. split; [done|]. rewrite decide_False; [done|].
  intros E. by apply (q_n_disjoint q e).
Qed.

Lemma with_events_ext pr s s' evs L : (forall x, list_of s' x = list_of s x) -> with_events pr s' evs L = with_events pr s evs L.
Proof. intros Hx. unfold with_events. revert L. induction evs as [|e evs IH]; intros L; [done|]. cbn [foldl]. by rewrite Hx, IH. Qed.

(** Signalling changes no list that an event is for. *)
Lemma list_of_signalled s s' o res :
  signals s' = <[o := mk_signal (poll_events (signals s !!! o)) 1 res]> (signals s) -> sems s' = sems s -> fifos s' = fifos s ->
  (forall x, type (events s' !!! x) = type (events s !!! x) /\ obj (events s' !!! x) = obj (events s !!! x)) ->
  forall x, list_of s' x = list_of s x.
Proof.
  intros E1 E2 E3 E4 x. unfold list_of. destruct (E4 x) as [-> ->]. rewrite E1, E2, E3. set (o' := obj (events s !!! x)).
  destruct (decide (o' = o)) as [->|]; [by rewrite lookup_total_insert_eq|by rewrite lookup_total_insert_ne].
Qed.

End Twice.

Section Roundtrip.
Context `{KConfig}.
Abbreviation store := (gmap positive (list positive)).
Implicit Types (s : pstate) (e q x : positive) (L : store).
Variable tf : positive -> toid -> kernel -> kernel.

(** C25. A thread waits in [k_poll] for several objects, each with a list of its own, and
    its event is the first one for a signal.  The signal wakes it: the thread leaves the
    wait queue and can run, and the kernel's invariant holds, so it is on its ready
    queue.  When it runs again [k_poll] returns 0, the event is marked as signalled, and
    all events are off the lists, which are what they were before the call. *)
Theorem poll_wait_signal_return fuel s w evs L (timeout : Z) e l (res : Z) :
  may_poll fuel s evs L -> sys_inv (ker s) -> current (ker s) <> idle_thread -> queues (ker s) !!! object_wq w = [] -> wait_ok timeout ->
  timeout <> K_NO_WAIT -> existsb (met s) evs = false ->
  (forall x y q, x ∈ evs -> y ∈ evs -> list_of s x = Some q -> list_of s y = Some q -> x = y) ->
  e ∈ evs -> type (events s !!! e) = K_POLL_TYPE_SIGNAL -> L !! poll_events (signals s !!! obj (events s !!! e)) = Some l ->
  (forall x, x ∈ l -> prio (thr (ker s) (current (ker s))) < ev_prio s x) ->
  exists s1 s2, k_poll tf fuel s w evs timeout = Some (s1, Waiting (length evs)) /\
    signal_poll s1 (obj (events s !!! e)) res = Some (s2, 0) /\ sys_inv (ker s2) /\
    _is_thread_pending (ker s1) (current (ker s)) = true /\ current (ker s1) <> current (ker s) /\
    _is_thread_pending (ker s2) (current (ker s)) = false /\ _is_thread_ready (ker s2) (current (ker s)) = true /\
    queues (ker s2) !!! object_wq w = [] /\
    forall k, current k = current (ker s) -> retval (thr k (current k)) = retval (thr (ker s2) (current (ker s))) ->
    exists s3, k_poll_resume (set_ker s2 k) evs (length evs) = (s3, 0) /\ holds (links s3) L /\
      (forall x, events s3 !!! x = if decide (x = e) then readied (events s !!! e) K_POLL_STATE_SIGNALED else events s !!! x).
Proof.
  intros Hmp Hs Hc Hw Hok Ht Hmet Hown He Hty Hl Hpr. set (t := current (ker s)) in *. set (o := obj (events s !!! e)) in *. set (q := poll_events (signals s !!! o)) in *.
  assert (list_of s e = Some q) as Eq by (unfold list_of; by rewrite Hty).
  destruct (poll_waits tf fuel s evs L Hmp w timeout) as (s1 & E1 & Hs1 & Hq1 & Ha1 & Hpo1 & Hev1 & Hm1 & Hb1); try done. fold t in Hev1, Hq1. exists s1.
  assert (forall x, x ∈ l -> x ∉ evs) as Hle by (intros x Hx Hin; by apply (new_free fuel s evs L Hmp x Hin q l)).
  destruct (front_event (poll_prio s evs) s evs q e l L) as [Efront El]; [apply Hmp|done|done| |done|..].
  { intros x Hx Hne Exq. apply Hne. by apply (Hown x e q). }
  { intros x Hx. unfold poll_prio. rewrite decide_True, decide_False by (done || by apply Hle). by apply Hpr. }
  set (L1 := with_events (poll_prio s evs) s (filter (fun x => x <> e) evs) L) in *. rewrite Efront in Hpo1.
  assert (poll_events (signals s1 !!! o) = q) as Eo by (by rewrite (al_signals _ _ Ha1)).
  assert (t ∈ queues (ker s1) !!! object_wq w) as Htw by (rewrite Hq1; left). destruct (waiter_not_current _ _ _ Hs1 Htw) as [Hcur Hpd].
  assert (events s1 !!! e = with_poller (Some t) (events s !!! e)) as Ee1 by (by rewrite Hev1, decide_True).
  destruct (signal_wakes s1 (<[q := e :: l]> L1) o e l t res Hs1 Hpo1) as (k' & E2 & [W1 W2 W3 W4 W5 W6]); [by rewrite Eo, lookup_insert_eq|by rewrite Ee1|done|].
  eexists. split; [exact E1|]. split; [exact E2|]. split; [exact W1|]. split; [done|]. split; [done|]. split; [exact W3|]. split; [by apply W6|].
  split; [cbn [ker]; unfold object_wq in *; rewrite W4, Hq1; by rewrite filter_cons_False by (intros Hf; by apply Hf)|]. intros k Hk Hret. cbn [ker] in Hret. rewrite W2 in Hret. unfold k_poll_resume.
  cbn [ker set_ker]. rewrite Hret. eexists. split; [reflexivity|]. set (s2 := set_ker _ k).
  destruct (get_first _ _ _ _ _ (po_holds _ _ Hpo1) (lookup_insert_eq L1 q (e :: l))) as [_ Hh2]. rewrite insert_insert_eq, insert_id in Hh2 by done.
  assert (forall x, events s2 !!! x = if decide (x = e) then readied (with_poller (Some t) (events s !!! e)) K_POLL_STATE_SIGNALED else events s1 !!! x) as Hev2.
  { intros x. unfold s2. cbn [events set_ker]. case_decide; [subst; by rewrite lookup_total_insert_eq, Ee1|by rewrite lookup_total_insert_ne]. }
  assert (forall x, list_of s2 x = list_of s x) as Hli.
  { intros x. rewrite <- (alike_list _ _ x Ha1). apply (list_of_signalled s1 s2 o res); [done..|]. intros y. rewrite Hev2. case_decide; [subst; by rewrite Ee1|done]. }
  destruct (clear_stale (poll_prio s evs) q e evs s2 L []) as [Hh3 Hev3]; [apply Hmp|by rewrite (with_events_ext _ _ _ _ _ Hli)|by apply (new_free fuel s)| | |..].
  { intros x p Hx. rewrite Hli. intros Hxp. destruct (mp_room _ _ _ _ Hmp x p Hx Hxp) as (lx & Hlx & _). by eexists. }
  { intros x Hx Hne. rewrite Hli. intros Exq. apply Hne. by apply (Hown x e q). }
  { intros _. rewrite Hli. split; [done|]. eapply stale_first; [apply Hpo1|apply lookup_insert_eq]. }
  rewrite app_nil_r in Hh3, Hev3. split; [exact Hh3|]. intros x. rewrite Hev3, Hev2, Hev1.
  assert (forall y, y ∈ evs -> with_poller None (with_poller (Some t) (events s !!! y)) = events s !!! y) as Hback.
  { intros y Hy. pose proof (mp_new _ _ _ _ Hmp y Hy) as Hn. revert Hn. by destruct (events s !!! y); cbn; intros ->. }
  destruct (decide (x ∈ evs)) as [Hx|Hx]; (destruct (decide (x = e)) as [->|Hne]; [done|]); [by apply Hback|done].
Qed.

(** The links of an event that was the only one of its list. *)
Lemma stale_only h L q e : holds h L -> L !! q = Some [e] ->
  prev (sys_dlist_remove h (n_addr e)) (n_addr e) = q_addr q /\ next (sys_dlist_remove h (n_addr e)) (n_addr e) = q_addr q.
Proof.
  intros Hh Hl. destruct (stale_first h L q e [] Hh Hl) as [-> ->]. split; [done|].
  destruct (get_first h L q e [] Hh Hl) as [_ Hh']. pose proof (holds_dl _ _ Hh' q [] (lookup_insert_eq _ _ _)) as Hd.
  pose proof (dl_is_empty _ _ _ Hd) as He. rewrite bool_decide_true in He by done. unfold sys_dlist_is_empty in He. by apply bool_decide_eq_true in He.
Qed.

(** C39. A thread that polls may never be woken.  An event that was the only one of a
    signal's list is signalled, which unlinks it, and its thread, when it runs, unlinks
    it a second time.  If other threads have polled the signal in between, whoever they
    are, the second unlinking empties the list: the next signal wakes none of them, and
    they wait on, with their events not marked. *)
Theorem poll_loses_waiter s L o e t (res : Z) s1 s2 L2 l2 (res2 : Z) :
  let q := poll_events (signals s !!! o) in
  sys_inv (ker s) -> polled s L -> L !! q = Some [e] -> poller (events s !!! e) = Some t -> _is_thread_pending (ker s) t = true ->
  signal_poll s o res = Some (s1, 0) ->
  prev (links s2) (n_addr e) = prev (links s1) (n_addr e) -> next (links s2) (n_addr e) = next (links s1) (n_addr e) ->
  type (events s2 !!! e) = K_POLL_TYPE_SIGNAL -> obj (events s2 !!! e) = o -> poll_events (signals s2 !!! o) = q ->
  polled s2 L2 -> L2 !! q = Some l2 -> e ∉ l2 ->
  exists s4, signal_poll (fst (k_poll_resume s2 [e] 1)) o res2 = Some (s4, 0) /\ signaled (signals s4 !!! o) = 1 /\
    (forall x u, x ∈ l2 -> poller (events s2 !!! x) = Some u -> _is_thread_pending (ker s2) u = true ->
       _is_thread_pending (ker s4) u = true /\ events s4 !!! x = events s2 !!! x /\ poller (events s4 !!! x) = Some u) /\
    sys_dlist_is_empty (links s4) (q_addr q) = true.
Proof.
  intros q Hs Hpo Hl Hp Hpd E1 Hprev Hnext Hty Hobj Hq Hpo2 Hl2 He.
  destruct (signal_wakes s L o e [] t res Hs Hpo Hl Hp Hpd) as (k' & E & _). rewrite E in E1. injection E1 as <-.
  destruct (stale_only _ _ _ _ (po_holds _ _ Hpo) Hl) as [Ep En].
  pose proof (eq_trans Hprev Ep) as Hp2. pose proof (eq_trans Hnext En) as Hn2. fold q in Hp2, Hn2.
  set (h := sys_dlist_remove (links s2) (n_addr e)). set (ev := with_poller None (events s2 !!! e)).
  assert (fst (k_poll_resume s2 [e] 1) = set_links (set_event s2 e ev) h) as ->.
  { unfold k_poll_resume. cbn [fst clear_event_registrations]. change ([e] !!! 0%nat) with e. unfold clear_event_registration. fold ev.
    assert (list_of (set_event s2 e ev) e = Some (poll_events (signals s2 !!! o))) as ->; [|done].
    unfold list_of. cbn [events set_event]. rewrite lookup_total_insert_eq. change (type ev) with (type (events s2 !!! e)).
    change (obj ev) with (obj (events s2 !!! e)). by rewrite Hty, Hobj. }
  assert (sys_dlist_is_empty h (q_addr q) = true) as Hemp.
  { unfold h. pose proof (remove_links (links s2) (n_addr e)) as Hr. rewrite Hp2, Hn2 in Hr. specialize (Hr (q_n_disjoint q e) (q_addr q)) as [Hr _].
    rewrite decide_True in Hr by done. by apply bool_decide_eq_true. }
  unfold signal_poll. cbn [links set_links set_signal signals set_event]. rewrite Hq. unfold sys_dlist_get. rewrite Hemp.
  eexists. split; [reflexivity|]. cbn [signals set_signal events links ker set_links set_event]. rewrite lookup_total_insert_eq. split; [done|].
  split; [|done]. intros x u Hx Hu Hup. rewrite lookup_total_insert_ne by (by intros ->). done.
Qed.

End Roundtrip.

(** ** Runs *)

Section Runs.
Import Demo.
#[local] Existing Instance config.

(** A signal with the list 9 and a semaphore with the list 8; main runs.  The events 1
    and 2 are for the signal, the event 3 is for the semaphore. *)
Definition demo_objects (k : kernel) : pstate :=
  mk_pstate k (sys_dlist_init (sys_dlist_init empty (q_addr 8%positive)) (q_addr 9%positive)) empty {[9%positive := mk_signal 9 0 0]}
    {[8%positive := (Sem.mk_sem 8 0 1, 8%positive)]} empty empty.

Definition demo_poll (k : kernel) : pstate :=
  k_poll_event_init (k_poll_event_init (k_poll_event_init (demo_objects k) 1 K_POLL_TYPE_SIGNAL K_POLL_MODE_NOTIFY_ONLY 9)
    2 K_POLL_TYPE_SIGNAL K_POLL_MODE_NOTIFY_ONLY 9) 3 K_POLL_TYPE_SEM_AVAILABLE K_POLL_MODE_NOTIFY_ONLY 8.

Definition demo_lists : gmap positive (list positive) := <[9%positive := []]> (<[8%positive := []]> empty).

Lemma demo_polled k : polled (demo_poll k) demo_lists.
Proof.
  assert (forall q l, demo_lists !! q = Some l -> l = []) as Hl.
  { intros q l. unfold demo_lists. rewrite !lookup_insert, lookup_empty. repeat case_decide; by intros [= <-]. }
  split; [|by intros q l e ->%Hl ?%not_elem_of_nil|intros q l ->%Hl; constructor].
  apply refine_init; [|by vm_compute]. apply refine_init; [|done]. split; [by intros q l []%lookup_empty_Some|by intros ? ? ? ? ? []%lookup_empty_Some].
Qed.

Lemma demo_may_poll : may_poll 5 (demo_poll k_three) [1%positive; 3%positive] demo_lists.
Proof.
  split; [apply demo_polled|apply (bool_decide_unpack _); by vm_compute| |].
  - intros e [->|[->|H]%elem_of_cons]%elem_of_cons; [by vm_compute|by vm_compute|by apply not_elem_of_nil in H].
  - intros e q [->|[->|H]%elem_of_cons]%elem_of_cons Hq; [| |by apply not_elem_of_nil in H]; exists []; (split; [|cbn; lia]); vm_compute in Hq; injection Hq as <-; by vm_compute.
Qed.

(** Main waits for the signal and the semaphore. *)
Lemma k_poll_outcome_witness : exists s' r, k_poll no_tf 5 (demo_poll k_three) 20 [1%positive; 3%positive] K_FOREVER = Some (s', r) /\ sys_inv (ker s') /\
  r = Waiting 2 /\ queues (ker s') !!! object_wq 20 = [3%positive].
Proof.
  destruct (k_poll_outcome no_tf 5 (demo_poll k_three) 20 [1%positive; 3%positive] demo_lists K_FOREVER demo_may_poll k_three_sys) as (s' & r & E & Hs & Hr);
    [by vm_compute|by vm_compute|by right; left|]. exists s', r. split; [exact E|]. split; [exact Hs|].
  assert (existsb (met (demo_poll k_three)) [1%positive; 3%positive] = false) as Em by (vm_compute; reflexivity). rewrite Em in Hr.
  destruct Hr as (-> & Hq & _). split; [reflexivity|]. rewrite Hq. vm_compute. reflexivity.
Defined.

Lemma poll_wait_signal_return_witness : exists s1 s2, k_poll no_tf 5 (demo_poll k_three) 20 [1%positive; 3%positive] K_FOREVER = Some (s1, Waiting 2) /\
  signal_poll s1 9 7 = Some (s2, 0) /\ sys_inv (ker s2).
Proof.
  destruct (poll_wait_signal_return no_tf 5 (demo_poll k_three) 20 [1%positive; 3%positive] demo_lists K_FOREVER 1%positive [] 7 demo_may_poll k_three_sys)
    as (s1 & s2 & E1 & E2 & Hs & _); [by vm_compute|by vm_compute|by right; left|done|by vm_compute| |left|by vm_compute|by vm_compute|by intros x ?%not_elem_of_nil|].
  - intros x y q [->|[->|Hx]%elem_of_cons]%elem_of_cons [->|[->|Hy]%elem_of_cons]%elem_of_cons; try (by apply not_elem_of_nil in Hx); try (by apply not_elem_of_nil in Hy);
      intros Hxq Hyq; try reflexivity; vm_compute in Hxq, Hyq; congruence.
  - exists s1, s2. split; [exact E1|]. split; [exact E2|exact Hs].
Defined.

(** Main waits for the signal; thread 4 runs. *)
Definition demo_waiting : pstate :=
  match k_poll no_tf 5 (demo_poll k_three) 20 [1%positive] K_FOREVER with Some (s, _) => s | None => demo_poll k_three end.

Lemma demo_may_poll_one : may_poll 5 (demo_poll k_three) [1%positive] demo_lists.
Proof.
  destruct demo_may_poll as [H1 _ H3 H4]. split; [exact H1|apply NoDup_singleton|intros e ->%list_elem_of_singleton; apply H3; left|].
  intros e q ->%list_elem_of_singleton Hq. destruct (H4 1%positive q ltac:(left) Hq) as (l & Hl & Hlen). exists l. split; [exact Hl|cbn in *; lia].
Qed.

Lemma signal_wakes_witness : exists s', signal_poll demo_waiting 9 7 = Some (s', 0) /\ retval (thr (ker s') 3) = 0 /\ _is_thread_pending (ker s') 3 = false.
Proof.
  assert (may_poll 5 (demo_poll k_three) [1%positive] demo_lists) as Hmp.
  { destruct demo_may_poll as [H1 _ H3 H4]. split; [exact H1|apply NoDup_singleton|intros e ->%list_elem_of_singleton; apply H3; left|].
    intros e q ->%list_elem_of_singleton Hq. destruct (H4 1%positive q ltac:(left) Hq) as (l & Hl & Hlen). exists l. split; [exact Hl|cbn in *; lia]. }
  destruct (poll_waits no_tf 5 (demo_poll k_three) [1%positive] demo_lists Hmp 20 K_FOREVER) as (s1 & E & Hs & Hq & _ & Hpo & Hev & _);
    [by vm_compute|done|by right; left|apply k_three_sys|by vm_compute|by vm_compute|].
  assert (demo_waiting = s1) as <- by (unfold demo_waiting; by rewrite E).
  destruct (signal_wakes_spec demo_waiting _ 9%positive 1%positive [] 3%positive 7 Hs Hpo) as (s' & E' & _ & _ & _ & H1 & H2 & _);
    [vm_compute; reflexivity|vm_compute; reflexivity|vm_compute; reflexivity|]. exists s'. split; [exact E'|]. split; [exact H1|exact H2].
Defined.

(** Main has polled the signal and waits; thread 4 signals it, which makes main ready,
    resets the signal and polls it itself with event 2. *)
Definition demo_signalled : pstate := match signal_poll demo_waiting 9 5 with Some (s, _) => s | None => demo_waiting end.
Definition demo_reset : pstate := set_signal demo_signalled 9 (mk_signal 9 0 5).
Definition demo_second : pstate := match k_poll no_tf 5 demo_reset 21 [2%positive] K_FOREVER with Some (s, _) => s | None => demo_reset end.

Lemma polled_set_signal s o x L : polled s L -> polled (set_signal s o x) L.
Proof. intros [P1 P2 P3]. by split. Qed.

Lemma demo_waiting_polled : sys_inv (ker demo_waiting) /\ polled demo_waiting (<[9%positive := [1%positive]]> demo_lists).
Proof.
  destruct (poll_waits no_tf 5 (demo_poll k_three) [1%positive] demo_lists demo_may_poll_one 20 K_FOREVER) as (s1 & E & Hs & _ & _ & Hpo & _);
    [by vm_compute|done|by right; left|apply k_three_sys|by vm_compute|by vm_compute|].
  assert (demo_waiting = s1) as -> by (unfold demo_waiting; by rewrite E). split; [exact Hs|].
  assert (with_events (poll_prio (demo_poll k_three) [1%positive]) (demo_poll k_three) [1%positive] demo_lists = <[9%positive := [1%positive]]> demo_lists) as <-
    by (vm_compute; reflexivity). exact Hpo.
Qed.

Lemma demo_reset_polled : sys_inv (ker demo_reset) /\ polled demo_reset demo_lists.
Proof.
  destruct demo_waiting_polled as [Hs Hpo].
  destruct (signal_wakes_spec demo_waiting _ 9%positive 1%positive [] 3%positive 5 Hs Hpo) as (s' & E' & Hs' & _ & _ & _ & _ & _ & Hpo' & _);
    [vm_compute; reflexivity|vm_compute; reflexivity|vm_compute; reflexivity|].
  assert (demo_signalled = s') as E by (unfold demo_signalled; by rewrite E'). split; [unfold demo_reset; by rewrite E|].
  assert (<[poll_events (signals demo_waiting !!! 9%positive) := []]> (<[9%positive := [1%positive]]> demo_lists) = demo_lists) as El by (vm_compute; reflexivity).
  rewrite El, <- E in Hpo'. by apply polled_set_signal.
Qed.

Lemma demo_second_polled : polled demo_second (<[9%positive := [2%positive]]> demo_lists).
Proof.
  destruct demo_reset_polled as [Hs Hpo].
  assert (may_poll 5 demo_reset [2%positive] demo_lists) as Hmp.
  { split; [exact Hpo|apply NoDup_singleton|intros e ->%list_elem_of_singleton; by vm_compute|].
    intros e q ->%list_elem_of_singleton Hq. exists []. split; [|cbn; lia]. vm_compute in Hq. injection Hq as <-. by vm_compute. }
  destruct (poll_waits no_tf 5 demo_reset [2%positive] demo_lists Hmp 21 K_FOREVER) as (s1 & E & _ & _ & _ & Hpo2 & _);
    [by vm_compute|done|by right; left|exact Hs|by vm_compute|by vm_compute|].
  assert (demo_second = s1) as -> by (unfold demo_second; by rewrite E).
  assert (with_events (poll_prio demo_reset [2%positive]) demo_reset [2%positive] demo_lists = <[9%positive := [2%positive]]> demo_lists) as <-
    by (vm_compute; reflexivity). exact Hpo2.
Qed.

(** Main runs and returns; then it signals, and thread 4 is not woken. *)
Lemma poll_loses_waiter_witness : exists s4, signal_poll (fst (k_poll_resume demo_second [1%positive] 1)) 9 6 = Some (s4, 0) /\
  signaled (signals s4 !!! 9%positive) = 1 /\ _is_thread_pending (ker s4) 4 = true /\ state (events s4 !!! 2%positive) = K_POLL_STATE_NOT_READY.
Proof.
  destruct demo_waiting_polled as [Hs Hpo].
  destruct (poll_loses_waiter demo_waiting (<[9%positive := [1%positive]]> demo_lists) 9%positive 1%positive 3%positive 5 demo_signalled demo_second
    (<[9%positive := [2%positive]]> demo_lists) [2%positive] 6 Hs Hpo) as (s4 & E & H1 & Hx & _);
    [vm_compute; reflexivity|vm_compute; reflexivity|vm_compute; reflexivity|vm_compute; reflexivity|vm_compute; reflexivity|vm_compute; reflexivity
    |vm_compute; reflexivity|vm_compute; reflexivity|vm_compute; reflexivity|exact demo_second_polled|vm_compute; reflexivity
    |intros Hin; apply list_elem_of_singleton in Hin; congruence|].
  destruct (Hx 2%positive 4%positive) as (H2 & H3 & _); [left|vm_compute; reflexivity|vm_compute; reflexivity|].
  exists s4. split; [exact E|]. split; [exact H1|]. split; [exact H2|]. rewrite H3. vm_compute. reflexivity.
Defined.

End Runs.
End Poll.
