(* ===== verification/MemDomain.v ===== *)
(** * Memory domains (kernel/mem_domain.c)

    A memory domain is an array of partitions, in which a partition of size 0 is a free
    slot, and a list of the threads that live in it.  The functions of the architecture
    that program the memory protection unit are not part of the model: their calls are
    recorded, in order. *)

From S2P Require Import Prelude DList ListStore Kernel.

Local Open Scope Z_scope.

Module MemDomain.

Record k_mem_partition := mk_partition { start : Z; size : Z; attr : Z }.

(** [mem_domain_q] is the list of the domain in [domain_q] below. *)
Record k_mem_domain := mk_domain { num_partitions : Z; partitions : list k_mem_partition }.

Inductive arch_call :=
  | ArchConfigure (thread : tid)
  | ArchPartitionRemove (domain : positive) (partition_id : nat)
  | ArchDestroy (domain : option positive).

(** [mem_domain] has the threads whose pointer is not [NULL]. *)
Record mstate := mk_mstate {
  max_partitions : Z;
  domains : gmap positive k_mem_domain;
  domain_q : gmap positive (list tid);
  mem_domain : gmap tid positive;
  running : tid;
  calls : list arch_call
}.

#[export] Instance k_mem_domain_inhabited : Inhabited k_mem_domain := populate (mk_domain 0 []).

Definition set_domain s d (x : k_mem_domain) : mstate := mk_mstate (max_partitions s) (<[d := x]> (domains s)) (domain_q s) (mem_domain s) (running s) (calls s).
Definition set_domain_q s (Q : gmap positive (list tid)) : mstate := mk_mstate (max_partitions s) (domains s) Q (mem_domain s) (running s) (calls s).
Definition set_mem_domain s (m : gmap tid positive) : mstate := mk_mstate (max_partitions s) (domains s) (domain_q s) m (running s) (calls s).
Definition call s (c : arch_call) : mstate := mk_mstate (max_partitions s) (domains s) (domain_q s) (mem_domain s) (running s) (calls s ++ [c]).

Section MemDomain.
(** the size of the array of partitions *)
Variable CONFIG_MAX_DOMAIN_PARTITIONS : nat.
Implicit Types (s : mstate) (domain : positive) (part : k_mem_partition) (thread : tid).

Definition free_partition : k_mem_partition := mk_partition 0 0 0.

(** [max_partitions] is a [u8_t] *)
Definition init_mem_domain_module s (arch_max : Z) : mstate :=
  mk_mstate (u8 arch_max) (domains s) (domain_q s) (mem_domain s) (running s) (calls s).

(** the loop of [k_mem_domain_init]; [None] for a write outside of the array *)
Fixpoint copy_partitions (i : nat) (parts l : list k_mem_partition) : option (list k_mem_partition) :=
  match parts with
  | [] => Some l
  | p :: parts => if (i <? length l)%nat then copy_partitions (S i) parts (<[i := p]> l) else None
  end.

Definition k_mem_domain_init s domain (parts : list k_mem_partition) : option mstate :=
  match copy_partitions 0 parts (replicate CONFIG_MAX_DOMAIN_PARTITIONS free_partition) with
  | None => None
  | Some l =>
      let s := set_domain s domain (mk_domain (u32 (Z.of_nat (length parts))) l) in
      Some (set_domain_q s (Lst.init (domain_q s) domain))
  end.

(** the body of the loop over the threads *)
Definition leave_domain s thread : mstate :=
  let s := set_domain_q s (Lst.remove (domain_q s) thread) in
  set_mem_domain s (delete thread (mem_domain s)).

Definition k_mem_domain_destroy s domain : mstate :=
  let s := if bool_decide (mem_domain s !! running s = Some domain) then call s (ArchDestroy (Some domain)) else s in
  foldl leave_domain s (domain_q s !!! domain).

(** The loops over [p_idx]: the first slot that satisfies [ok], or [max_partitions];
    [None] for a read outside of the array.  [n] slots are left. *)
Fixpoint find_partition (ok : k_mem_partition -> bool) (n p_idx : nat) (l : list k_mem_partition) : option nat :=
  match n with
  | O => Some p_idx
  | S n =>
      match l !! p_idx with
      | None => None
      | Some p => if ok p then Some p_idx else find_partition ok n (S p_idx) l
      end
  end.

(** assignment to the fields of [partitions[p_idx]] *)
Definition set_partition (x : k_mem_domain) (p_idx : nat) part (num : Z) : option k_mem_domain :=
  if (p_idx <? length (partitions x))%nat then Some (mk_domain num (<[p_idx := part]> (partitions x))) else None.

Definition k_mem_domain_add_partition s domain part : option mstate :=
  let x := domains s !!! domain in
  match find_partition (fun p => size p =? 0) (Z.to_nat (max_partitions s)) 0 (partitions x) with
  | None => None
  | Some p_idx => set_domain s domain <$> set_partition x p_idx part (u32 (num_partitions x + 1))
  end.

Definition same_range part (p : k_mem_partition) : bool := (start p =? start part) && (size p =? size part).

Definition k_mem_domain_remove_partition s domain part : option mstate :=
  let x := domains s !!! domain in
  match find_partition (same_range part) (Z.to_nat (max_partitions s)) 0 (partitions x) with
  | None => None
  | Some p_idx =>
      let s := if bool_decide (mem_domain s !! running s = Some domain) then call s (ArchPartitionRemove domain p_idx) else s in
      set_domain s domain <$> set_partition x p_idx free_partition (u32 (num_partitions x - 1))
  end.

Definition k_mem_domain_add_thread s domain thread : mstate :=
  let s := set_domain_q s (Lst.append (domain_q s) domain thread) in
  let s := set_mem_domain s (<[thread := domain]> (mem_domain s)) in
  if bool_decide (running s = thread) then call s (ArchConfigure thread) else s.

Definition k_mem_domain_remove_thread s thread : mstate :=
  let s := if bool_decide (running s = thread) then call s (ArchDestroy (mem_domain s !! thread)) else s in
  leave_domain s thread.

End MemDomain.

(** ** The invariant *)

Section Proofs.
Variable CONFIG : nat.
Implicit Types (s : mstate) (d : positive) (p part : k_mem_partition) (t : tid) (l parts : list k_mem_partition).

(** the partitions of a domain *)
Definition used l : list k_mem_partition := filter (fun p => size p <> 0) l.

(** The architecture programs at most [num_partitions] of the slots. *)
Record domain_ok (max : Z) (x : k_mem_domain) : Prop := {
  do_length : length (partitions x) = CONFIG;
  do_count : num_partitions x = Z.of_nat (length (used (partitions x)));
  do_max : forall i p, (Z.to_nat max <= i)%nat -> partitions x !! i = Some p -> size p = 0
}.

Record mem_ok s : Prop := {
  mo_max : (Z.to_nat (max_partitions s) <= CONFIG)%nat;
  mo_config : Z.of_nat CONFIG < 2 ^ 32;
  mo_domain : forall d x, domains s !! d = Some x -> domain_ok (max_partitions s) x;
  mo_thread : forall t d, t ∈ domain_q s !!! d <-> mem_domain s !! t = Some d;
  mo_nodup : forall d, NoDup (domain_q s !!! d)
}.

Lemma used_update l i p p' : l !! i = Some p ->
  exists a b, used l = a ++ used [p] ++ b /\ used (<[i := p']> l) = a ++ used [p'] ++ b.
Proof.
  intros Hi. exists (used (take i l)), (used (drop (S i) l)). pose proof (lookup_lt_Some _ _ _ Hi).
  rewrite insert_take_drop by done. rewrite <- (take_drop_middle l i p Hi) at 1. unfold used. rewrite !filter_app, !(filter_cons _ _ (drop _ _)), !(filter_cons _ _ []), !filter_nil.
  by repeat case_decide.
Qed.

Lemma length_used l : (length (used l) <= length l)%nat.
Proof. apply length_filter. Qed.

(** The search ends at the first slot that fits, if there is one. *)
Lemma find_partition_spec (ok : k_mem_partition -> bool) n i l : (i + n <= length l)%nat ->
  exists j, find_partition ok n i l = Some j /\ (i <= j <= i + n)%nat /\ ((j < i + n)%nat -> exists p, l !! j = Some p /\ ok p = true) /\
    (forall k p, (i <= k < j)%nat -> l !! k = Some p -> ok p = false).
Proof.
  revert i. induction n as [|n IH]; intros i Hl; cbn [find_partition]; [exists i; split_and!; [done|lia|lia|lia|lia]|].
  destruct (lookup_lt_is_Some_2 l i) as [p Hp]; [lia|]. rewrite Hp. destruct (ok p) eqn:Eo.
  - exists i. split_and!; [done|lia|lia|by exists p|lia].
  - destruct (IH (S i)) as (j & -> & H1 & H2 & H3); [lia|]. exists j. split_and!; [done|lia|lia|intros Hj; apply H2; lia|].
    intros k p' Hk Hp'. destruct (decide (k = i)) as [->|]; [by rewrite Hp in Hp'; injection Hp' as <-|]. apply (H3 k); [lia|done].
Qed.

Lemma copy_partitions_spec parts : forall i l, (i + length parts <= length l)%nat ->
  exists l', copy_partitions i parts l = Some l' /\ l' = take i l ++ parts ++ drop (i + length parts) l.
Proof.
  induction parts as [|p parts IH]; intros i l Hl; cbn [copy_partitions length] in *.
  - exists l. split; [done|]. cbn. by rewrite Nat.add_0_r, take_drop.
  - rewrite (proj2 (Nat.ltb_lt _ _)) by lia. destruct (IH (S i) (<[i := p]> l)) as (l' & -> & ->); [rewrite length_insert; lia|]. eexists. split; [done|].
    rewrite (take_S_r _ _ p) by (by rewrite list_lookup_insert_eq by lia). rewrite take_insert_ge by lia. rewrite drop_insert_lt by lia.
    rewrite <- app_assoc. cbn [app]. by rewrite Nat.add_succ_r.
Qed.

(** ** Steps: the calls

    The guards are what the code asserts, and three conditions that it does not: the
    domain of a call has been initialised, it has no threads when it is initialised
    again, and the partitions that are given to [k_mem_domain_init] or removed are not
    empty ([remove_empty_miscounts] below shows why). *)

Inductive step s : mstate -> Prop :=
  | step_init d parts s' : (length parts <= Z.to_nat (max_partitions s))%nat -> Forall (fun p => size p <> 0) parts -> domain_q s !!! d = [] ->
      k_mem_domain_init CONFIG s d parts = Some s' -> step s s'
  | step_destroy d : step s (k_mem_domain_destroy s d)
  | step_add_partition d part s' : is_Some (domains s !! d) -> 0 <= start part < 2 ^ 32 -> start part < u32 (start part + size part) ->
      (length (used (partitions (domains s !!! d))) < Z.to_nat (max_partitions s))%nat ->
      k_mem_domain_add_partition s d part = Some s' -> step s s'
  | step_remove_partition d part s' : is_Some (domains s !! d) -> size part <> 0 ->
      Exists (fun p => same_range part p = true) (partitions (domains s !!! d)) ->
      k_mem_domain_remove_partition s d part = Some s' -> step s s'
  | step_add_thread d t : is_Some (domains s !! d) -> mem_domain s !! t = None -> step s (k_mem_domain_add_thread s d t)
  | step_remove_thread t : is_Some (mem_domain s !! t) -> step s (k_mem_domain_remove_thread s t).

(** [mem_ok] does not look at the calls of the architecture. *)
Lemma call_ok s (b : bool) c : mem_ok s -> mem_ok (if b then call s c else s).
Proof. destruct b; [|done]. intros [H1 H2 H3 H4 H5]. split; try done. Qed.

Lemma leave_ok s t : mem_ok s -> mem_ok (leave_domain s t).
Proof.
  intros [H1 H2 H3 H4 H5]. split; try done; cbn [domain_q mem_domain leave_domain set_domain_q set_mem_domain].
  - intros u d. rewrite Lst.elem_of_remove, H4, lookup_delete_Some. naive_solver.
  - intros d. rewrite Lst.lookup_remove. by apply NoDup_filter.
Qed.

Lemma set_domain_ok s d x : mem_ok s -> domain_ok (max_partitions s) x -> mem_ok (set_domain s d x).
Proof.
  intros [H1 H2 H3 H4 H5] Hx. split; try done. intros d' x'. cbn [domains set_domain]. rewrite lookup_insert.
  case_decide; [by intros [= <-]|]. apply H3.
Qed.

Lemma domain_init_ok s d parts s' :
  mem_ok s -> (length parts <= Z.to_nat (max_partitions s))%nat -> Forall (fun p => size p <> 0) parts -> domain_q s !!! d = [] ->
  k_mem_domain_init CONFIG s d parts = Some s' -> mem_ok s'.
Proof.
  intros Hok Hn Hp Hq. unfold k_mem_domain_init. pose proof (mo_max _ Hok) as Hm. pose proof (mo_config _ Hok) as Hc.
  destruct (copy_partitions_spec parts 0 (replicate CONFIG free_partition)) as (l & -> & El); [rewrite length_replicate; lia|].
  rewrite take_0, drop_replicate in El. cbn [app Nat.add] in El. intros [= <-].
  assert (domain_ok (max_partitions s) (mk_domain (u32 (Z.of_nat (length parts))) l)) as Hx.
  { assert (used l = parts) as Eu.
    { rewrite El. unfold used. rewrite filter_app, filter_all, filter_none; [by rewrite app_nil_r| |done]. apply Forall_replicate. by intros []. }
    split; cbn [num_partitions partitions].
    - rewrite El, length_app, length_replicate. lia.
    - rewrite Eu. apply u32_small. lia.
    - intros i p Hi Hip. rewrite El, lookup_app_r in Hip by lia. apply lookup_replicate in Hip as [-> _]. done. }
  destruct (set_domain_ok s d _ Hok Hx) as [H1 H2 H3 H4 H5].
  assert (forall d', Lst.init (domain_q s) d !!! d' = domain_q s !!! d') as Hi.
  { intros d'. unfold Lst.init. destruct (decide (d' = d)) as [->|]; [by rewrite lookup_total_insert_eq|by rewrite lookup_total_insert_ne]. }
  split; try done; cbn [domain_q set_domain_q set_domain mem_domain].
  - intros t d'. rewrite Hi. apply H4.
  - intros d'. rewrite Hi. apply H5.
Qed.

(** Writing one slot. *)
Lemma set_partition_ok (max : Z) x i p part (num : Z) :
  domain_ok max x -> partitions x !! i = Some p -> (i < Z.to_nat max)%nat ->
  num = num_partitions x - Z.of_nat (length (used [p])) + Z.of_nat (length (used [part])) ->
  exists x', set_partition x i part num = Some x' /\ domain_ok max x' /\ partitions x' = <[i := part]> (partitions x).
Proof.
  intros [H1 H2 H3] Hi Hm Hn. unfold set_partition. pose proof (lookup_lt_Some _ _ _ Hi) as Hlt. rewrite (proj2 (Nat.ltb_lt _ _)) by lia.
  eexists. split; [done|]. split; [|done]. destruct (used_update (partitions x) i p part Hi) as (a & b & E1 & E2).
  split; cbn [num_partitions partitions]; [by rewrite length_insert| |].
  - rewrite Hn, H2, E1, E2, !length_app. lia.
  - intros j q Hj. rewrite list_lookup_insert_ne by lia. by apply H3.
Qed.

(** If fewer than [n] slots are used, one of the first [n] is free. *)
Lemma free_slot l n : (n <= length l)%nat -> (length (used l) < n)%nat -> exists i p, (i < n)%nat /\ l !! i = Some p /\ size p = 0.
Proof.
  intros Hn Hu. destruct (decide (Forall (fun p => size p <> 0) (take n l))) as [Hf|Hf].
  - exfalso. assert (used (take n l) = take n l) as E by (by apply filter_all). rewrite <- (take_drop n l) in Hu. unfold used in *.
    rewrite filter_app, length_app, E, length_take in Hu. lia.
  - apply not_Forall_Exists in Hf; [|intros p; apply _]. apply Exists_exists in Hf as (p & (i & Hi)%list_elem_of_lookup & Hp).
    apply lookup_take_Some in Hi as [Hi Hin]. exists i, p. split; [done|]. split; [done|]. cbn in Hp. lia.
Qed.

Lemma add_partition_spec s d x part :
  mem_ok s -> domains s !! d = Some x -> size part <> 0 -> (length (used (partitions x)) < Z.to_nat (max_partitions s))%nat ->
  exists x', k_mem_domain_add_partition s d part = Some (set_domain s d x') /\ domain_ok (max_partitions s) x' /\
    used (partitions x') ≡ₚ part :: used (partitions x).
Proof.
  intros Hok Hd Hsz Hroom. pose proof (mo_domain _ Hok d x Hd) as Hx. pose proof (mo_max _ Hok) as Hm. pose proof (mo_config _ Hok) as Hc.
  unfold k_mem_domain_add_partition. rewrite (lookup_total_correct _ _ _ Hd).
  destruct (find_partition_spec (fun p => size p =? 0) (Z.to_nat (max_partitions s)) 0 (partitions x)) as (j & -> & H1 & H2 & H3); [rewrite (do_length _ _ Hx); lia|].
  assert (j < Z.to_nat (max_partitions s))%nat as Hj.
  { destruct (free_slot (partitions x) (Z.to_nat (max_partitions s))) as (i & p & Hi & Hp & Hp0); [rewrite (do_length _ _ Hx); lia|done|].
    destruct (decide (j < Z.to_nat (max_partitions s))%nat); [done|]. specialize (H3 i p ltac:(lia) Hp). cbn in H3. apply Z.eqb_neq in H3. done. }
  destruct (H2 ltac:(lia)) as (p & Hp & Hp0%Z.eqb_eq).
  assert (used [p] = []) as Eu by (unfold used; rewrite filter_cons_False by (by intros []); done).
  assert (used [part] = [part]) as Ep by (unfold used; by rewrite filter_cons_True).
  destruct (set_partition_ok (max_partitions s) x j p part (u32 (num_partitions x + 1))) as (x' & -> & Hx' & E'); [done|done|lia| |].
  { rewrite Eu, Ep, u32_small; [cbn; lia|]. rewrite (do_count _ _ Hx). lia. }
  exists x'. split; [done|]. split; [done|]. rewrite E'. destruct (used_update (partitions x) j p part Hp) as (a & b & -> & ->). rewrite Eu, Ep. cbn. by rewrite Permutation_middle.
Qed.

Lemma remove_partition_spec s d x part :
  mem_ok s -> domains s !! d = Some x -> size part <> 0 -> Exists (fun p => same_range part p = true) (partitions x) ->
  exists i p x', k_mem_domain_remove_partition s d part =
      Some (set_domain (if bool_decide (mem_domain s !! running s = Some d) then call s (ArchPartitionRemove d i) else s) d x') /\
    domain_ok (max_partitions s) x' /\ same_range part p = true /\ used (partitions x) ≡ₚ p :: used (partitions x').
Proof.
  intros Hok Hd Hsz (p0 & (i0 & Hi0)%list_elem_of_lookup & Hp0)%Exists_exists. pose proof (mo_domain _ Hok d x Hd) as Hx. pose proof (mo_max _ Hok) as Hm. pose proof (mo_config _ Hok) as Hc.
  assert (forall p, same_range part p = true -> size p = size part) as Hsame by (intros p [_ E%Z.eqb_eq]%andb_true_iff; done).
  unfold k_mem_domain_remove_partition. rewrite (lookup_total_correct _ _ _ Hd).
  destruct (find_partition_spec (same_range part) (Z.to_nat (max_partitions s)) 0 (partitions x)) as (j & -> & H1 & H2 & H3); [rewrite (do_length _ _ Hx); lia|].
  assert (j < Z.to_nat (max_partitions s))%nat as Hj.
  { destruct (decide (j < Z.to_nat (max_partitions s))%nat); [done|]. destruct (decide (i0 < Z.to_nat (max_partitions s))%nat).
    - by rewrite (H3 i0 p0 ltac:(lia) Hi0) in Hp0.
    - exfalso. apply Hsz. rewrite <- (Hsame p0 Hp0). apply (do_max _ _ Hx i0); [lia|done]. }
  destruct (H2 ltac:(lia)) as (p & Hp & Hps). assert (size p <> 0) as Hpz by (by rewrite (Hsame p Hps)).
  assert (used [p] = [p]) as Eu by (unfold used; by rewrite filter_cons_True).
  assert (used [free_partition] = []) as Ef by done. destruct (used_update (partitions x) j p free_partition Hp) as (a & b & E1 & E2).
  destruct (set_partition_ok (max_partitions s) x j p free_partition (u32 (num_partitions x - 1))) as (x' & -> & Hx' & E'); [done|done|lia| |].
  { rewrite Eu, Ef, u32_small; [cbn; lia|]. rewrite (do_count _ _ Hx). pose proof (length_used (partitions x)) as Hlu. rewrite (do_length _ _ Hx) in Hlu.
    rewrite E1, Eu, !length_app in *. cbn [length] in *. lia. }
  exists j, p, x'. split; [done|]. split; [done|]. split; [done|]. rewrite E', E1, E2, Eu, Ef. cbn. by rewrite Permutation_middle.
Qed.

Lemma step_ok s s' : mem_ok s -> step s s' -> mem_ok s'.
Proof.
  intros Hok [d parts s1 Hn Hp Hq E|d|d part s1 [x Hx] Hst Hsz Hroom E|d part s1 [x Hx] Hsz Hex E|d t [x Hx] Ht|t Ht].
  - by apply (domain_init_ok s d parts).
  - unfold k_mem_domain_destroy. cbn zeta. pose proof (call_ok s (bool_decide (mem_domain s !! running s = Some d)) (ArchDestroy (Some d)) Hok) as H1. revert H1.
    generalize (if bool_decide (mem_domain s !! running s = Some d) then call s (ArchDestroy (Some d)) else s) as s1. intros s1.
    generalize (domain_q s1 !!! d) as l. clear. intros l. revert s1. induction l as [|t l IH]; intros s1 Hok; [done|]. cbn [foldl]. by apply IH, leave_ok.
  - rewrite (lookup_total_correct _ _ _ Hx) in Hroom.
    assert (size part <> 0) as Hnz by (intros Hz; rewrite Hz, Z.add_0_r, u32_small in Hsz; lia).
    destruct (add_partition_spec s d x part Hok Hx Hnz Hroom) as (x' & E' & Hx' & _). rewrite E' in E. injection E as <-. by apply set_domain_ok.
  - rewrite (lookup_total_correct _ _ _ Hx) in Hex. destruct (remove_partition_spec s d x part Hok Hx Hsz Hex) as (i & p & x' & E' & Hx' & _).
    rewrite E' in E. injection E as <-. apply set_domain_ok; [by apply call_ok|]. by case_bool_decide.
  - unfold k_mem_domain_add_thread. cbn zeta. apply call_ok. destruct Hok as [H1 H2 H3 H4 H5]. split; try done; cbn [domain_q mem_domain set_domain_q set_mem_domain].
    + intros u d'. rewrite Lst.elem_of_append, H4, lookup_insert_Some. destruct (decide (u = t)) as [->|]; [|naive_solver]. rewrite Ht. naive_solver.
    + intros d'. destruct (decide (d' = d)) as [->|]; [|by rewrite Lst.append_other]. rewrite Lst.append_same. apply NoDup_app. split; [apply H5|].
      split; [|apply NoDup_singleton]. intros u Hu ->%list_elem_of_singleton. apply H4 in Hu. by rewrite Ht in Hu.
  - unfold k_mem_domain_remove_thread. cbn zeta. apply leave_ok. by apply call_ok.
Qed.

Lemma step_max s s' : step s s' -> max_partitions s' = max_partitions s.
Proof.
  assert (forall s (b : bool) c, max_partitions (if b then call s c else s) = max_partitions s) as Hcall by (by intros ? []).
  assert (forall s d o s', set_domain s d <$> o = Some s' -> max_partitions s' = max_partitions s) as Hset by (intros ? ? [|] ? E; by simplify_eq/=).
  intros [d parts s1 _ _ _ E|d|d part s1 _ _ _ _ E|d part s1 _ _ _ E|d t _ _|t _].
  - unfold k_mem_domain_init in E. by destruct (copy_partitions _ _ _); simplify_eq/=.
  - unfold k_mem_domain_destroy. cbn zeta. rewrite <- (Hcall s (bool_decide (mem_domain s !! running s = Some d)) (ArchDestroy (Some d))).
    generalize (if bool_decide (mem_domain s !! running s = Some d) then call s (ArchDestroy (Some d)) else s) as s1. intros s1.
    generalize (domain_q s1 !!! d) as l. clear. intros l. revert s1. induction l as [|t l IH]; intros s1; [done|]. cbn [foldl]. by rewrite IH.
  - unfold k_mem_domain_add_partition in E. destruct (find_partition _ _ _ _); [by eapply Hset|done].
  - unfold k_mem_domain_remove_partition in E. destruct (find_partition _ _ _ _); [|done]. apply Hset in E. by rewrite Hcall in E.
  - unfold k_mem_domain_add_thread. cbn zeta. by rewrite Hcall.
  - unfold k_mem_domain_remove_thread. cbn zeta. unfold leave_domain. cbn. apply Hcall.
Qed.

Lemma run_ok s s' : mem_ok s -> rtc step s s' -> mem_ok s' /\ max_partitions s' = max_partitions s.
Proof.
  intros Hok Hr. revert Hok. induction Hr as [|s s1 s' Hst _ IH]; intros Hok; [done|]. destruct (IH (step_ok _ _ Hok Hst)) as [H1 H2].
  split; [done|]. by rewrite H2, (step_max s s1).
Qed.

(** The state before any call, on an architecture with [arch_max] partitions. *)
Definition no_domains (arch_max : Z) (current : tid) : mstate := init_mem_domain_module (mk_mstate 0 empty empty empty current []) arch_max.

(** C26. Whatever calls are made, as long as they satisfy the assertions of the code and
    three conditions that it does not assert: calls are for domains that have been
    initialised, no domain is initialised again while it has threads, and the partitions
    given to [k_mem_domain_init] and [k_mem_domain_remove_partition] are not empty.  Then,
    if the architecture has no more partitions than the array, every domain counts its
    partitions, a thread is in the list of exactly the domain it points to, and no
    access is out of the array: a partition can be added to a domain that has room and
    adds exactly itself, and one that is there can be removed. *)
Theorem mem_domains_consistent (arch_max : Z) (current : tid) s :
  (Z.to_nat (u8 arch_max) <= CONFIG)%nat -> Z.of_nat CONFIG <= 255 -> rtc step (no_domains arch_max current) s ->
  mem_ok s /\
  (forall d x part, domains s !! d = Some x -> size part <> 0 -> (length (used (partitions x)) < Z.to_nat (u8 arch_max))%nat ->
     exists s' x', k_mem_domain_add_partition s d part = Some s' /\ domains s' !! d = Some x' /\ used (partitions x') ≡ₚ part :: used (partitions x)) /\
  (forall d x part, domains s !! d = Some x -> part ∈ used (partitions x) ->
     exists s' x' p, k_mem_domain_remove_partition s d part = Some s' /\ domains s' !! d = Some x' /\ start p = start part /\ size p = size part /\
       used (partitions x) ≡ₚ p :: used (partitions x')).
Proof.
  intros Hm Hc Hr.
  assert (mem_ok (no_domains arch_max current)) as H0.
  { split; [exact Hm|lia|done| |].
    - intros t d. cbn. rewrite lookup_total_empty, lookup_empty. split; [by intros ?%not_elem_of_nil|done].
    - intros d. cbn. rewrite lookup_total_empty. constructor. }
  destruct (run_ok _ _ H0 Hr) as [Hok Hmax]. cbn in Hmax. split; [done|]. split.
  - intros d x part Hd Hsz Hroom. rewrite <- Hmax in Hroom. destruct (add_partition_spec s d x part Hok Hd Hsz Hroom) as (x' & E & _ & Hp).
    eexists _, x'. split; [exact E|]. split; [apply lookup_insert_eq|done].
  - intros d x part Hd [Hsz Hin]%list_elem_of_filter.
    destruct (remove_partition_spec s d x part Hok Hd Hsz) as (i & p & x' & E & _ & [Hp1%Z.eqb_eq Hp2%Z.eqb_eq]%andb_true_iff & Hp).
    { apply Exists_exists. exists part. split; [done|]. unfold same_range. by rewrite !Z.eqb_refl. }
    eexists _, x', p. split; [exact E|]. split; [apply lookup_insert_eq|]. by split_and!.
Qed.

End Proofs.

(** ** Runs *)

Definition demo_part (i : Z) : k_mem_partition := mk_partition (i * 4096) 4096 1.
Definition demo_init : mstate := default (no_domains 8 3) (k_mem_domain_init 16 (no_domains 8 3) 5 [demo_part 1]).
Definition demo_two : mstate := default (no_domains 8 3) (k_mem_domain_add_partition demo_init 5 (demo_part 2)).
Definition demo_domain : mstate := k_mem_domain_add_thread demo_two 5 3.

Lemma mem_domains_consistent_witness : mem_ok 16 demo_domain /\ mem_domain demo_domain !! 3%positive = Some 5%positive /\ calls demo_domain = [ArchConfigure 3].
Proof.
  split; [|split; vm_compute; reflexivity].
  apply (mem_domains_consistent 16 8 3 demo_domain); [vm_compute; lia|lia|].
  eapply rtc_l; [apply (step_init 16 _ 5 [demo_part 1] demo_init); [vm_compute; lia|by repeat constructor|by vm_compute|by vm_compute]|].
  eapply rtc_l; [apply (step_add_partition 16 _ 5 (demo_part 2) demo_two); [by eexists|vm_compute; done|by vm_compute|vm_compute; lia|by vm_compute]|].
  eapply rtc_l; [apply (step_add_thread 16 _ 5 3); [by eexists|by vm_compute]|]. apply rtc_refl.
Defined.

(** An empty partition at 0 matches the first free slot: removing it, which is not
    asserted against, takes one off the number of partitions, and the partition that
    is there stays. *)
Lemma remove_empty_miscounts :
  exists s, k_mem_domain_remove_partition demo_init 5 (mk_partition 0 0 0) = Some s /\
    num_partitions (domains demo_init !!! 5%positive) = 1 /\ num_partitions (domains s !!! 5%positive) = 0 /\
    used (partitions (domains s !!! 5%positive)) = [demo_part 1].
Proof. eexists. split; [vm_compute; reflexivity|]. split_and!; vm_compute; reflexivity. Qed.

(** An architecture without a limit reports -1, which a [u8_t] holds as 255: in a full
    domain of 16 partitions the search for a free slot reads behind the array. *)
Lemma no_limit_overruns :
  match k_mem_domain_init 16 (no_domains (-1) 3) 5 (demo_part <$> seqZ 1 16) with
  | Some s => max_partitions s = 255 /\ k_mem_domain_add_partition s 5 (demo_part 17) = None
  | None => False
  end.
Proof. vm_compute. done. Qed.

End MemDomain.
