(* ===== verification/Findings.v ===== *)
(** * Defects

    The race of a mutex, for all states in which it can happen; and runs of the system
    of [Demo], evaluated, that show a behaviour which a comment of the source excludes or
    which leaves a data structure broken. *)

From S2P Require Import Prelude DList ListStore Kernel Ksched ReadyQ TimeoutQ KInv Sched Thread Demo Timer Mutex SList Queue.
From S2P Require Import LibC MemPool Heap.
Import DList SList.

Local Open Scope Z_scope.

Module Findings.

(** ** A timed out [k_mutex_lock] of a released mutex *)

Section Race.
Context `{KConfig}.
Variable tf : positive -> toid -> kernel -> kernel.
Implicit Types (k : kernel) (t : tid).

(** A wait that times out: the thread leaves the wait queue, with the value that
    [_Swap] left for it. *)
Lemma timed_out_waiter k t w E :
  kinv None (TOthread t :: E) k -> queues k !!! WQ w = [t] ->
  let k1 := _handle_one_expired_timeout tf k (TOthread t) in
  queues k1 !!! WQ w = [] /\ retval (thr k1 t) = retval (thr k t) /\ _is_thread_pending k1 t = false.
Proof.
  intros Hi Hq. pose proof (ki_tq _ _ _ Hi) as Ht.
  assert (TOthread t ∈ timeout_q k ++ TOthread t :: E) as Hin by (apply elem_of_app; right; left).
  assert (_is_thread_pending k t = true) as Hp.
  { assert (t ∈ queues k !!! WQ w) as Hw by (rewrite Hq; left). by apply (ri_wq _ _ (si_rq _ _ (ki_sched _ _ _ Hi))) in Hw as [_ ?]. }
  unfold _handle_one_expired_timeout. cbv zeta. rewrite (ti_thread _ _ _ Ht t Hin). set (k0 := upd_timeout k (TOthread t) (with_delta _INACTIVE)).
  unfold _unpend_thread_timing_out. pose proof (ti_waits _ _ _ Ht t Hin ltac:(done)) as Hw. unfold waits in Hw. rewrite Hp in Hw.
  assert (to_wait_q (tmo k0 (TOthread t)) = to_wait_q (tmo k (TOthread t))) as -> by (unfold k0; by rewrite tmo_upd_timeout, decide_True).
  destruct (to_wait_q (tmo k (TOthread t))) as [q|]; [|by destruct Hw as [Hw _]; specialize (Hw eq_refl)].
  set (k1 := upd_timeout (_unpend_thread k0 t) (TOthread t) (with_to_wait_q None)).
  assert (queues k1 = Lst.remove (queues k) t) as Hqs by done. assert (thr k1 t = thr (_unpend_thread k0 t) t) as Hth by done.
  split; [rewrite ready_thread_wq, Hqs, Lst.lookup_remove, Hq; by rewrite filter_cons_False by (intros Hf; by apply Hf)|].
  rewrite ready_thread_thr, decide_True by done. rewrite Hth. unfold _unpend_thread, _mark_thread_as_not_pending, _reset_thread_states.
  split; [by rewrite thr_upd_same|]. rewrite pending_spec, ready_thread_thr, decide_True by done.
  change _THREAD_PRESTART with (Z.shiftl 1 2). rewrite st_bit_clear by done. rewrite Hth, <- pending_spec, unpend_not_pending. done.
Qed.

(** C37. When the wait of the only thread that waits for a mutex times out, and the owner
    releases the mutex before this thread runs, then the thread dereferences the [NULL]
    owner when it goes on in [k_mutex_lock] (kernel/mutex.c). *)
Theorem mutex_timeout_null_owner k mutex t E :
  kinv None (TOthread t :: E) k -> queues k !!! Mutex.wq mutex = [t] -> retval (thr k t) = - EAGAIN ->
  let k1 := _handle_one_expired_timeout tf k (TOthread t) in
  _is_thread_pending k1 t = false /\
  forall k2, sys_inv k2 -> Mutex.mutex_ok k2 mutex -> handling_timeouts k2 = false ->
    Mutex.owner mutex = Some (current k2) -> Mutex.lock_count mutex = 1 -> queues k2 !!! Mutex.wq mutex = queues k1 !!! Mutex.wq mutex ->
    exists k3 mutex', Mutex._impl_k_mutex_unlock k2 mutex = Some (k3, mutex') /\ sys_inv k3 /\
      forall k4, retval (thr k4 t) = retval (thr k1 t) -> Mutex.k_mutex_lock_resume k4 mutex' (retval (thr k4 t)) = None.
Proof.
  intros Hi Hq Hr. destruct (timed_out_waiter k t (xO (Mutex.wait_q mutex)) E Hi Hq) as (Hq1 & Hr1 & Hp1). cbv zeta. split; [done|].
  intros k2 Hs Hm Hh Ho Hc Hq2. destruct (Mutex.unlock_last k2 mutex Hs Hm Hh Ho Hc) as (k3 & mutex' & E3 & Hs3 & _ & _ & Hx).
  assert (queues k2 !!! Mutex.wq mutex = []) as Hempty by (rewrite Hq2; exact Hq1). rewrite Hempty in Hx. destruct Hx as [Hx _].
  exists k3, mutex'. split; [done|]. split; [done|]. intros k4 ->. rewrite Hr1, Hr.
  unfold Mutex.k_mutex_lock_resume, Mutex.adjust_owner_prio. by rewrite Hx.
Qed.

End Race.

Section RaceWitness.
Import Demo.
#[local] Existing Instance config.

(** Main waits for mutex 7, which thread 4 owns, for 11 ticks.  They are over: main's
    timeout has been taken off the queue. *)
Definition mutex7_4 : Mutex.k_mutex := Mutex.mk_mutex 7 (Some 4%positive) 1 0.
Definition k_last_tick : kernel :=
  set_handling (upd_timeout k_timed (TOthread 3) (fun x => with_delta (s32 (delta_ticks_from_prev x - 11)) x)) true.
Definition k_expired : kernel := fst (dequeue_expired 1 k_last_tick []).
(** The state after the interrupt. *)
Definition k_after_tick : kernel := irq_exit (_nano_sys_clock_tick_announce no_tf (irq_enter k_timed) 11) true true.

Lemma k_expired_kinv : kinv None [TOthread 3] k_expired.
Proof.
  pose proof (kinv_dequeue k_last_tick (ticking_handling _ true (kinv_tick k_timed (TOthread 3) 11 (sy_kinv _ k_timed_sys)
    ltac:(vm_compute; reflexivity) ltac:(vm_compute; done)))) as Hd.
  assert (length (timeout_q k_last_tick) = 1%nat) as El by (vm_compute; reflexivity). rewrite El in Hd.
  assert (rev (due (TimeoutQ.dl k_last_tick) (timeout_q k_last_tick)) = [TOthread 3]) as Ed by (vm_compute; reflexivity). rewrite Ed in Hd.
  unfold k_expired. destruct (dequeue_expired 1 k_last_tick []) as [k' E']. destruct Hd as (-> & Hd & _). exact Hd.
Qed.

Lemma k_after_tick_sys : sys_inv k_after_tick.
Proof.
  apply irq_exit_sys; [|by vm_compute|by left]. apply (tick_announce_sys no_tf); [apply irq_enter_sys; [exact k_timed_sys|by vm_compute]|by vm_compute|].
  intros hd Hh. vm_compute in Hh. injection Hh as <-. by vm_compute.
Qed.

(** Thread 4 unlocks the mutex; whenever main runs then, its call fails. *)
Lemma mutex_timeout_null_owner_witness :
  exists k3 mutex', Mutex._impl_k_mutex_unlock k_after_tick mutex7_4 = Some (k3, mutex') /\
    forall k4, retval (thr k4 3) = - EAGAIN -> Mutex.k_mutex_lock_resume k4 mutex' (retval (thr k4 3)) = None.
Proof.
  destruct (mutex_timeout_null_owner no_tf k_expired mutex7_4 3 [] k_expired_kinv) as [_ H]; [vm_compute; reflexivity|vm_compute; reflexivity|].
  destruct (H k_after_tick k_after_tick_sys) as (k3 & mutex' & E & _ & Hx);
    [by split; try (by vm_compute); apply in_prio_range|vm_compute; reflexivity|vm_compute; reflexivity|vm_compute; reflexivity|vm_compute; reflexivity|].
  exists k3, mutex'. split; [exact E|]. intros k4 Hr. apply Hx. rewrite Hr. vm_compute. reflexivity.
Defined.

End RaceWitness.

Import Demo.

#[local] Existing Instance config.

(** ** [k_thread_resume] of a thread that is not suspended *)

(** [k_thread_resume] (kernel/thread.c) does not check that the thread is
    suspended, where include/kernel.h says that it has no effect then: thread 4
    of [k_two] is ready, and afterwards it is twice on its ready queue, so the
    kernel's invariant is lost. *)
Theorem resume_ready_corrupts :
  sys_inv k_two /\
  _is_thread_state_set k_two 4 _THREAD_SUSPENDED = false /\
  queues k_two !!! RQ 16 = [3%positive; 4%positive] /\
  queues (Thread._impl_k_thread_resume k_two 4) !!! RQ 16 = [3%positive; 4%positive; 4%positive] /\
  ~ sys_inv (Thread._impl_k_thread_resume k_two 4).
Proof.
  assert (queues (Thread._impl_k_thread_resume k_two 4) !!! RQ 16 = [3%positive; 4%positive; 4%positive]) as E
    by (vm_compute; reflexivity).
  split; [exact k_two_sys|]. split; [vm_compute; reflexivity|]. split; [vm_compute; reflexivity|].
  split; [exact E|]. intros Hs.
  pose proof (ri_nodup _ _ (si_rq _ _ (ki_sched _ _ _ (sy_kinv _ Hs))) (RQ 16)) as Hn.
  rewrite E in Hn. apply NoDup_cons_1_2, NoDup_cons_1_1 in Hn. apply Hn. by left.
Qed.

(** What the double insertion does to the memory of the ready queue: the list
    at 9 holds the nodes 1, 2 and 3; after 2 is appended again node 1 still points
    at 2 and node 2 at the list: node 3 is no longer on it. *)
Theorem append_twice_loses_node :
  let h := sys_dlist_append (sys_dlist_append (sys_dlist_append (sys_dlist_init ∅ 9) 9 1) 9 2) 9 3 in
  for_each_node 10 h 9 = [1%positive; 2%positive; 3%positive] /\
  for_each_node 10 (sys_dlist_append h 9 2) 9 = [1%positive; 2%positive].
Proof. split; vm_compute; reflexivity. Qed.

(** ** [k_timer_start] with a duration of 0 *)

(** Main waits for timer 6; thread 5, of lower priority, runs. *)
Definition k_timer_wait : kernel :=
  let k := Timer.k_timer_init (Thread._impl_k_thread_create no_tf k_boot 5 5 0 0) 6 None None in
  let k := Timer._impl_k_timer_start Timer.no_call k 6 1000 0 in
  fst (Timer._impl_k_timer_status_sync Timer.no_call k 6).

(** [k_timer_start] (kernel/timer.c) with a duration of 0 runs the handler of the timer
    at once, which makes a waiting thread ready, but it does not reschedule: thread 5,
    which is preemptible, runs on although main has a higher priority and can run. *)
Theorem timer_start_now_no_switch :
  let k := Timer._impl_k_timer_start Timer.no_call k_timer_wait 6 0 10 in
  current k = 5%positive /\ nested k = 0 /\ _is_preempt k 5 = true /\
  _is_thread_ready k_timer_wait 3 = false /\ _is_thread_ready k 3 = true /\ prio (thr k 3) < prio (thr k 5) /\ ~ sys_inv k.
Proof.
  cbv zeta. set (k := Timer._impl_k_timer_start Timer.no_call k_timer_wait 6 0 10).
  assert (current k = 5%positive) as H1 by (vm_compute; reflexivity).
  assert (nested k = 0) as H2 by (vm_compute; reflexivity).
  assert (_is_preempt k 5 = true) as H3 by (vm_compute; reflexivity).
  assert (_is_thread_ready k 3 = true) as H4 by (vm_compute; reflexivity).
  assert (prio (thr k 3) < prio (thr k 5)) as H5 by (vm_compute; reflexivity).
  assert (_is_thread_ready k_timer_wait 3 = false) as H6 by (vm_compute; reflexivity). clearbody k.
  split_and!; [exact H1|exact H2|exact H3|exact H6|exact H4|exact H5|]. intros Hs. rewrite <- H1 in H3, H5.
  pose proof (sy_top _ Hs H2 H3 3%positive H4). lia.
Qed.

(** ** Singly linked lists *)

(** [sys_slist_append_list] and [sys_slist_merge_slist] with an empty list
    (include/misc/slist.h): the list keeps its nodes but loses its tail, so the
    next [sys_slist_append] drops them all. *)
Theorem merge_empty_loses_nodes :
  let '(h, lst) := sys_slist_append ∅ sys_slist_init 1 in
  let '(h, lst, _) := sys_slist_merge_slist h lst sys_slist_init in
  let '(h', lst') := sys_slist_append h lst 2 in
  s_head lst = Some 1%positive /\ s_tail lst = None /\ s_head lst' = Some 2%positive /\ next h' 2 = None.
Proof. vm_compute. done. Qed.

(** [k_queue_append] (kernel/queue.c) reads the tail of the queue before
    [k_queue_insert] locks interrupts.  When the read is followed by an
    interrupt that appends item 2 and takes the items 1 and 2, the insertion
    after the stale tail leaves the queue empty and item 3 is lost. *)
Theorem queue_append_race :
  let '(k, h, q) := Queue.k_queue_append k_boot ∅ (Queue.mk_queue sys_slist_init 7) 1 in
  let tail := s_tail (Queue.data_q q) in
  let '(k, h, q) := Queue.k_queue_append k h q 2 in
  let '(k, q, r1) := Queue.k_queue_get no_tf k h q K_NO_WAIT in
  let '(k, q, r2) := Queue.k_queue_get no_tf k h q K_NO_WAIT in
  let '(k, h, q) := Queue.k_queue_insert k h q tail 3 in
  r1 = Some 1 /\ r2 = Some 2 /\ Queue.k_queue_is_empty q = true.
Proof. vm_compute. done. Qed.

(** ** Memory pools *)

(** Main waits up to 1000 ms for a block of the pool whose two blocks are taken;
    thread 4 frees one, takes it again and yields, so that main runs and finds no
    block. *)
Definition pool_wait : option (kernel * kernel) :=
  match MemPool.pool_alloc MemPool.demo_free 0 64 with
  | Some (p, _, Some b) =>
      match MemPool.pool_alloc p 0 64 with
      | Some (p, _, Some _) =>
          match Heap.k_mem_pool_alloc no_tf k_three [p] 0 64 1000 with
          | Some (k1, pools, e, None) =>
              match Heap.k_mem_pool_free k1 pools b with
              | Some (k2, pools) =>
                  match Heap.k_mem_pool_alloc no_tf k2 pools 0 64 K_NO_WAIT with
                  | Some (k3, pools, _, Some (0, _)) =>
                      match Heap.k_mem_pool_alloc_resume no_tf (_impl_k_yield k3) pools 0 64 1000 e with
                      | Some (k4, _, _, None) => Some (k1, k4)
                      | _ => None
                      end
                  | _ => None
                  end
              | None => None
              end
          | _ => None
          end
      | _ => None
      end
  | _ => None
  end.

(** [k_mem_pool_alloc] (kernel/mempool.c) turns its timeout into ticks when it
    has been woken, and waits again with that number as milliseconds: no tick has
    passed, and the second wait of main is for 11 ticks where the first was for
    101. *)
Theorem pool_wait_shrinks :
  match pool_wait with
  | Some (k1, k4) => TimeoutQ.dl k1 (TOthread 3) = 101 /\ TimeoutQ.dl k4 (TOthread 3) = 11 /\ tick_count k4 = tick_count k1
  | None => False
  end.
Proof. vm_compute. done. Qed.

(** [memcmp] and [strcmp] compare bytes as signed characters: a byte of 0x80 is
    taken to be below one of 1, where C compares them as unsigned. *)
Theorem memcmp_signed : LibC.memcmp (<[1 := 0x80]> (<[2 := 1]> ∅)) 1 2 1 < 0.
Proof. vm_compute. done. Qed.

End Findings.
