(* ===== verification/RingBuffer.v ===== *)
(** * Ring buffers (lib/ring_buffer/ring_buffer.c, include/ring_buffer.h)

    A buffer of 32-bit words that holds items, each a header word and up to 255
    data words.  The theorems say that it is a bounded FIFO of items, for sizes
    that are a power of two, where indices wrap by a mask, and for the others. *)

From S2P Require Import Prelude.

Local Open Scope Z_scope.

Module RingBuffer.

Record ring_buf := mk_ring {
  head : Z;
  tail : Z;
  dropped_put_count : Z;
  size : Z;
  buf : list Z;
  mask : Z
}.

Implicit Types (b : ring_buf) (data out ws : list Z).

Definition is_power_of_two (x : Z) : bool := negb (x =? 0) && (Z.land x (u32 (x - 1)) =? 0).

Definition sys_ring_buf_init (sz : Z) data : ring_buf :=
  mk_ring 0 0 0 sz data (if is_power_of_two sz then u32 (sz - 1) else 0).

Definition sys_ring_buf_is_empty b : bool := head b =? tail b.

Definition sys_ring_buf_space_get b : Z :=
  if sys_ring_buf_is_empty b then s32 (size b - 1)
  else if tail b <? head b then s32 (head b - tail b - 1)
  else s32 ((size b - tail b) + head b - 1).

(** [struct ring_element]: its bit-fields in the order of a little-endian
    target. *)
Definition ring_element (type length value : Z) : Z :=
  Z.lor (u16 type) (Z.lor (Z.shiftl (u8 length) 16) (Z.shiftl (u8 value) 24)).
Definition header_type (w : Z) : Z := u16 w.
Definition header_length (w : Z) : Z := u8 (Z.shiftr w 16).
Definition header_value (w : Z) : Z := u8 (Z.shiftr w 24).

(** an index into the buffer: by the mask, or by the size when it is 0 *)
Definition ring_index b (x : Z) : Z :=
  if negb (mask b =? 0) then Z.land (u32 x) (mask b) else u32 x mod size b.

Definition set_word b (i w : Z) : ring_buf :=
  mk_ring (head b) (tail b) (dropped_put_count b) (size b) (<[Z.to_nat i := w]> (buf b)) (mask b).

(** the loop of [sys_ring_buf_put]: [n] words are left from [i] on *)
Fixpoint put_words (n : nat) (i : Z) b data : ring_buf :=
  match n with
  | O => b
  | S n => put_words n (i + 1) (set_word b (ring_index b (i + tail b + 1)) (data !!! Z.to_nat i)) data
  end.

Definition sys_ring_buf_put b (type value : Z) data (size32 : Z) : ring_buf * Z :=
  if u32 (sys_ring_buf_space_get b) >=? size32 + 1 then
    let b := set_word b (tail b) (ring_element type size32 value) in
    let b := put_words (Z.to_nat size32) 0 b data in
    (mk_ring (head b) (ring_index b (tail b + size32 + 1)) (dropped_put_count b) (size b) (buf b) (mask b), 0)
  else
    (mk_ring (head b) (tail b) (u32 (dropped_put_count b + 1)) (size b) (buf b) (mask b), - EMSGSIZE).

(** the loop of [sys_ring_buf_get], which fills the caller's array *)
Fixpoint get_words (n : nat) (i : Z) b out : list Z :=
  match n with
  | O => out
  | S n => get_words n (i + 1) b (<[Z.to_nat i := buf b !!! Z.to_nat (ring_index b (i + head b + 1))]> out)
  end.

(** The results are the return code, [*size32], and, when the item is read,
    [*type], [*value] and the array. *)
Definition sys_ring_buf_get b out (size32 : Z) : ring_buf * Z * Z * option (Z * Z * list Z) :=
  if sys_ring_buf_is_empty b then (b, - EAGAIN, size32, None)
  else
    let header := buf b !!! Z.to_nat (head b) in
    if header_length header >? size32 then (b, - EMSGSIZE, header_length header, None)
    else
      let out := get_words (Z.to_nat (header_length header)) 0 b out in
      (mk_ring (ring_index b (head b + header_length header + 1)) (tail b) (dropped_put_count b) (size b) (buf b) (mask b),
       0, header_length header, Some (header_type header, header_value header, out)).

(** ** The words in the buffer *)

Definition word b (x : Z) : Z := buf b !!! Z.to_nat (x mod size b).

Record ring_wf b : Prop := {
  rw_size : 0 < size b < 2 ^ 31;
  rw_len : Z.of_nat (length (buf b)) = size b;
  rw_head : 0 <= head b < size b;
  rw_tail : 0 <= tail b < size b;
  rw_mask : mask b = 0 \/ exists n, 0 <= n /\ size b = 2 ^ n /\ mask b = size b - 1
}.

(** The words from the head to the tail, the oldest first. *)
Record holds b ws : Prop := {
  ho_wf :> ring_wf b;
  ho_fit : Z.of_nat (length ws) < size b;
  ho_tail : tail b = (head b + Z.of_nat (length ws)) mod size b;
  ho_word : forall i, (i < length ws)%nat -> word b (head b + Z.of_nat i) = ws !!! i
}.

Lemma ring_index_mod b (x : Z) : ring_wf b -> 0 <= x < 2 ^ 32 -> ring_index b x = x mod size b.
Proof.
  intros Hw Hx. unfold ring_index. rewrite u32_small by done. destruct (rw_mask _ Hw) as [->|(n & Hn & Es & ->)]; [done|].
  destruct (Z.eqb_spec (size b - 1) 0) as [E|_]; [done|]. simpl.
  rewrite Es, Z.sub_1_r, <- Z.ones_equiv. by apply Z.land_ones.
Qed.

Lemma mod_inj (s h i j : Z) : 0 <= i < s -> 0 <= j < s -> (h + i) mod s = (h + j) mod s -> i = j.
Proof.
  intros Hi Hj E. assert (((h + i) - (h + j)) mod s = 0) as D by (rewrite Zminus_mod, E, Z.sub_diag; apply Z.mod_0_l; lia).
  replace (h + i - (h + j)) with (i - j) in D by lia. apply Z.mod_divide in D as [q D]; [|lia]. destruct (Z.lt_trichotomy q 0) as [?|[-> | ?]]; nia.
Qed.

(** Writing one word at an offset from the head. *)
Lemma word_set b (h i j w : Z) :
  ring_wf b -> 0 <= i < size b -> 0 <= j < size b ->
  word (set_word b ((h + j) mod size b) w) (h + i) = if decide (i = j) then w else word b (h + i).
Proof.
  intros Hw Hi Hj. unfold word, set_word. simpl.
  pose proof (Z.mod_pos_bound (h + i) (size b)). pose proof (Z.mod_pos_bound (h + j) (size b)).
  case_decide as E.
  - subst j. apply list_lookup_total_insert_eq. pose proof (rw_len _ Hw). lia.
  - apply list_lookup_total_insert_ne. intros D. apply E. apply (mod_inj (size b) h); [done..|]. lia.
Qed.

Lemma set_word_wf b (i w : Z) : ring_wf b -> ring_wf (set_word b i w).
Proof. intros [? H ? ? ?]. split; simpl; try done. by rewrite length_insert. Qed.

(** The loop writes the data after the header. *)
Lemma put_words_spec n (i : Z) b data (h k : Z) :
  ring_wf b -> 0 <= i -> 0 <= h < 2 ^ 31 -> tail b = (h + k) mod size b -> 0 <= k -> i + k + 1 + Z.of_nat n <= size b ->
  i + Z.of_nat n <= 256 ->
  let b' := put_words n i b data in
  ring_wf b' /\ head b' = head b /\ tail b' = tail b /\ size b' = size b /\ mask b' = mask b /\
  dropped_put_count b' = dropped_put_count b /\
  (forall x, 0 <= x < size b -> word b' (h + x) =
    if decide (k + 1 + i <= x < k + 1 + i + Z.of_nat n) then data !!! Z.to_nat (x - k - 1) else word b (h + x)).
Proof.
  revert i b. induction n as [|n IH]; intros i b Hw Hi Hh Ht Hk Hs H256; cbn [put_words].
  { split_and!; try done. intros x Hx. by rewrite decide_False by lia. }
  pose proof (rw_tail _ Hw). pose proof (rw_size _ Hw).
  assert (ring_index b (i + tail b + 1) = (h + (k + 1 + i)) mod size b) as Ei.
  { rewrite ring_index_mod by (done || lia). rewrite Ht.
    replace (i + (h + k) mod size b + 1) with ((h + k) mod size b + (i + 1)) by lia.
    rewrite Zplus_mod_idemp_l. f_equal. lia. }
  rewrite Ei. set (b1 := set_word b ((h + (k + 1 + i)) mod size b) (data !!! Z.to_nat i)).
  destruct (IH (i + 1) b1) as (W & E1 & E2 & E3 & E4 & E5 & E6); try done; try (simpl; lia).
  { by apply set_word_wf. }
  cbv zeta. split_and!; try done. intros x Hx. rewrite (E6 x Hx). unfold b1. rewrite word_set by (done || lia).
  repeat case_decide; try lia; try done. by replace (x - k - 1) with i by lia.
Qed.

(** ** Items *)

Record item := mk_item { i_type : Z; i_value : Z; i_data : list Z }.
Implicit Types (it : item) (its : list item).

Definition item_ok it : Prop :=
  0 <= i_type it < 2 ^ 16 /\ 0 <= i_value it < 2 ^ 8 /\ Z.of_nat (length (i_data it)) < 2 ^ 8.

Definition encode it : list Z := ring_element (i_type it) (Z.of_nat (length (i_data it))) (i_value it) :: i_data it.

Definition ring_ok b its : Prop := Forall item_ok its /\ holds b (concat (encode <$> its)).

(** The fields of a header word are those it was made from. *)
Lemma header_fields (t l v : Z) :
  0 <= t < 2 ^ 16 -> 0 <= l < 2 ^ 8 -> 0 <= v < 2 ^ 8 ->
  header_type (ring_element t l v) = t /\ header_length (ring_element t l v) = l /\ header_value (ring_element t l v) = v.
Proof.
  intros Ht Hl Hv. unfold ring_element, header_type, header_length, header_value.
  assert (u16 t = t) as -> by (unfold u16; by apply Z.mod_small). rewrite !u8_small by done.
  unfold u16, u8. rewrite <- !Z.land_ones by lia. split_and!; apply Z.bits_inj'; intros m Hm;
    rewrite Z.land_spec, ?Z.shiftr_spec by done; rewrite !Z.lor_spec, !Z.shiftl_spec by lia.
  - destruct (Z.ltb_spec m 16); [rewrite Z.ones_spec_low, andb_true_r by lia|rewrite Z.ones_spec_high, andb_false_r by lia].
    + by rewrite (Z.testbit_neg_r _ (m - 16)), (Z.testbit_neg_r _ (m - 24)), !orb_false_r by lia.
    + symmetry. by apply (testbit_above t 16).
  - rewrite (testbit_above t 16) by lia. replace (m + 16 - 16) with m by lia.
    destruct (Z.ltb_spec m 8); [rewrite Z.ones_spec_low, andb_true_r by lia|rewrite Z.ones_spec_high, andb_false_r by lia].
    + by rewrite (Z.testbit_neg_r _ (m + 16 - 24)), orb_false_r by lia.
    + symmetry. by apply (testbit_above l 8).
  - rewrite (testbit_above t 16), (testbit_above l 8) by lia. replace (m + 24 - 24) with m by lia.
    destruct (Z.ltb_spec m 8); [by rewrite Z.ones_spec_low, andb_true_r by lia|rewrite Z.ones_spec_high, andb_false_r by lia].
    symmetry. by apply (testbit_above v 8).
Qed.

Lemma mod_wrap (s h l : Z) : 0 <= h < s -> 0 <= l < s -> (h + l) mod s = if h + l <? s then h + l else h + l - s.
Proof.
  intros Hh Hl. destruct (Z.ltb_spec (h + l) s); [by apply Z.mod_small; lia|].
  symmetry. apply (Z.mod_unique_pos _ _ 1); lia.
Qed.

(** The free space is what the words leave, less one word. *)
Lemma space_spec b ws : holds b ws -> sys_ring_buf_space_get b = size b - 1 - Z.of_nat (length ws).
Proof.
  intros Hh. pose proof (ho_tail _ _ Hh) as Ht. pose proof (ho_fit _ _ Hh) as Hf.
  pose proof (rw_head _ Hh). pose proof (rw_size _ Hh).
  unfold sys_ring_buf_space_get, sys_ring_buf_is_empty. rewrite mod_wrap in Ht by lia.
  destruct (Z.ltb_spec (head b + Z.of_nat (length ws)) (size b));
    destruct (Z.eqb_spec (head b) (tail b)); destruct (Z.ltb_spec (tail b) (head b)); rewrite s32_small; lia.
Qed.

Lemma empty_spec b ws : holds b ws -> sys_ring_buf_is_empty b = bool_decide (ws = []).
Proof.
  intros Hh. pose proof (ho_tail _ _ Hh) as Ht. pose proof (ho_fit _ _ Hh) as Hf. pose proof (rw_head _ Hh).
  unfold sys_ring_buf_is_empty. rewrite mod_wrap in Ht by lia. destruct ws as [|w ws].
  - rewrite bool_decide_true by done. apply Z.eqb_eq. rewrite Ht. cbn [length].
    by destruct (Z.ltb_spec (head b + Z.of_nat 0) (size b)); lia.
  - rewrite bool_decide_false by done. apply Z.eqb_neq. cbn [length] in *. rewrite Nat2Z.inj_succ in *.
    destruct (Z.ltb_spec (head b + Z.succ (Z.of_nat (length ws))) (size b)); lia.
Qed.

(** Putting words at the tail. *)
Lemma put_holds b ws (hdr : Z) data :
  holds b ws -> (length data < 256)%nat -> Z.of_nat (length ws + S (length data)) < size b ->
  let b1 := put_words (length data) 0 (set_word b (tail b) hdr) data in
  holds (mk_ring (head b1) (ring_index b1 (tail b1 + Z.of_nat (length data) + 1)) (dropped_put_count b1) (size b1) (buf b1) (mask b1))
    (ws ++ hdr :: data) /\ dropped_put_count b1 = dropped_put_count b /\ size b1 = size b.
Proof.
  intros Hh Hd Hf b1. pose proof (rw_head _ Hh). pose proof (rw_size _ Hh). pose proof (ho_tail _ _ Hh) as Ht.
  set (b0 := set_word b (tail b) hdr) in b1. assert (ring_wf b0) as W0 by (apply set_word_wf, Hh).
  destruct (put_words_spec (length data) 0 b0 data (head b) (Z.of_nat (length ws)) W0) as (W & E1 & E2 & E3 & E4 & E5 & E6);
    try done; try (unfold b0; simpl; lia).
  fold b1 in W, E1, E2, E3, E4, E5, E6. change (head b0) with (head b) in E1. change (tail b0) with (tail b) in E2.
  change (size b0) with (size b) in E3, E6. pose proof (rw_tail _ W) as Wt. rewrite E2, E3 in Wt. rewrite E1, E2, E3.
  assert (ring_index b1 (tail b + Z.of_nat (length data) + 1) = (head b + Z.of_nat (length (ws ++ hdr :: data))) mod size b) as Ei.
  { rewrite ring_index_mod by (done || lia). rewrite E3, Ht, <- Z.add_assoc, Zplus_mod_idemp_l, length_app. cbn [length].
    f_equal. lia. }
  rewrite Ei. split; [|done]. split.
  - destruct W as [W1 W2 W3 W4 W5]. rewrite E3 in W1, W2, W3, W4, W5. rewrite E1 in W3. split; simpl; try done. apply Z.mod_pos_bound. lia.
  - rewrite length_app. cbn [length size]. lia.
  - done.
  - intros i Hi. rewrite length_app in Hi. cbn [length] in Hi. unfold word at 1. cbn [buf size head].
    rewrite <- E3. change (word b1 (head b + Z.of_nat i) = (ws ++ hdr :: data) !!! i).
    rewrite E6 by lia. unfold b0. rewrite Ht, word_set by (done || lia || apply Hh).
    destruct (decide (i < length ws)%nat).
    + rewrite lookup_total_app_l by done. rewrite !decide_False by lia. by apply Hh.
    + rewrite lookup_total_app_r by lia. destruct (decide (i = length ws)) as [->|].
      * rewrite decide_False, decide_True by lia. by rewrite Nat.sub_diag.
      * rewrite decide_True by lia. replace (i - length ws)%nat with (S (Z.to_nat (Z.of_nat i - Z.of_nat (length ws) - 1))) by lia.
        done.
Qed.

(** Reading the words after the header into the caller's array. *)
Lemma get_words_spec ds (i : nat) b out :
  ring_wf b -> (i + length ds <= length out)%nat -> (i + length ds <= 256)%nat ->
  (forall j, (j < length ds)%nat -> word b (head b + 1 + Z.of_nat (i + j)) = ds !!! j) ->
  get_words (length ds) (Z.of_nat i) b out = take i out ++ ds ++ drop (i + length ds) out.
Proof.
  revert i out. induction ds as [|d ds IH]; intros i out Hw Hl H256 Hd; cbn [get_words length].
  { by rewrite Nat.add_0_r, app_nil_l, take_drop. }
  cbn [length] in Hl, H256, Hd. pose proof (rw_head _ Hw). pose proof (rw_size _ Hw).
  assert (buf b !!! Z.to_nat (ring_index b (Z.of_nat i + head b + 1)) = d) as ->.
  { rewrite ring_index_mod by (done || lia). pose proof (Hd 0%nat ltac:(lia)) as E. unfold word in E. simpl in E.
    rewrite Nat.add_0_r in E. rewrite <- E. do 3 f_equal. lia. }
  rewrite Nat2Z.id. replace (Z.of_nat i + 1) with (Z.of_nat (S i)) by lia.
  rewrite IH; [|done|rewrite length_insert; lia|lia|].
  - rewrite (take_S_r _ i d) by (apply list_lookup_insert_eq; lia). rewrite take_insert_ge by lia.
    rewrite drop_insert_lt by lia. rewrite <- app_assoc. simpl. do 4 f_equal. lia.
  - intros j Hj. specialize (Hd (S j) ltac:(lia)). change ((d :: ds) !!! S j) with (ds !!! j) in Hd. rewrite <- Hd. f_equal. lia.
Qed.

Lemma holds_advance b (hdr : Z) data ws :
  holds b (hdr :: data ++ ws) ->
  holds (mk_ring (ring_index b (head b + Z.of_nat (length data) + 1)) (tail b) (dropped_put_count b) (size b) (buf b) (mask b)) ws.
Proof.
  intros Hh. pose proof (rw_head _ Hh). pose proof (rw_size _ Hh). pose proof (ho_fit _ _ Hh) as Hf.
  pose proof (ho_tail _ _ Hh) as Ht. cbn [length] in Hf, Ht. rewrite length_app in Hf, Ht.
  rewrite ring_index_mod by (apply Hh || lia). split; cbn [head tail size buf mask].
  - destruct Hh as [[? ? ? ? ?] _ _ _]. split; simpl; try done. apply Z.mod_pos_bound. lia.
  - lia.
  - rewrite Zplus_mod_idemp_l, Ht. f_equal. lia.
  - intros i Hi. pose proof (ho_word _ _ Hh (S (length data + i))) as Hx. cbn [length] in Hx. rewrite length_app in Hx.
    specialize (Hx ltac:(lia)).
    assert ((hdr :: data ++ ws) !!! S (length data + i)%nat = ws !!! i) as E.
    { change ((data ++ ws) !!! (length data + i)%nat = ws !!! i). rewrite lookup_total_app_r by lia. f_equal. lia. }
    rewrite <- E, <- Hx. unfold word. cbn [buf size]. do 2 f_equal. rewrite Zplus_mod_idemp_l. f_equal. lia.
Qed.

(** ** The buffer is a bounded FIFO *)

Inductive op :=
| Put (it : item)
| Get (out : list Z).  (* the caller's array, of [*size32] words *)

Inductive result :=
| RPut (rc : Z)
| RGet (rc size32 : Z) (r : option (Z * Z * list Z)).

Implicit Types (o : op) (os : list op).

Definition op_ok o : Prop :=
  match o with Put it => item_ok it | Get out => Z.of_nat (length out) < 2 ^ 8 end.

Definition exec o b : ring_buf * result :=
  match o with
  | Put it =>
      let '(b, rc) := sys_ring_buf_put b (i_type it) (i_value it) (i_data it) (Z.of_nat (length (i_data it))) in (b, RPut rc)
  | Get out => let '(b, rc, size32, r) := sys_ring_buf_get b out (Z.of_nat (length out)) in (b, RGet rc size32 r)
  end.

Definition words its : Z := Z.of_nat (length (concat (encode <$> its))).

(** A FIFO of items that holds fewer than [sz] words in all. *)
Definition spec (sz : Z) o its : list item * result :=
  match o with
  | Put it => if words its + Z.of_nat (length (encode it)) <? sz then (its ++ [it], RPut 0) else (its, RPut (- EMSGSIZE))
  | Get out =>
      match its with
      | [] => (its, RGet (- EAGAIN) (Z.of_nat (length out)) None)
      | it :: its' =>
          let n := length (i_data it) in
          if (length out <? n)%nat then (its, RGet (- EMSGSIZE) (Z.of_nat n) None)
          else (its', RGet 0 (Z.of_nat n) (Some (i_type it, i_value it, i_data it ++ drop n out)))
      end
  end.

Fixpoint run_exec os b : ring_buf * list result :=
  match os with
  | [] => (b, [])
  | o :: os => let '(b, r) := exec o b in let '(b, rs) := run_exec os b in (b, r :: rs)
  end.

Fixpoint run_spec (sz : Z) os its : list item * list result :=
  match os with
  | [] => (its, [])
  | o :: os => let '(its, r) := spec sz o its in let '(its, rs) := run_spec sz os its in (its, r :: rs)
  end.

Lemma put_refines b its it :
  ring_ok b its -> item_ok it ->
  let '(b', r) := exec (Put it) b in
  let '(its', r') := spec (size b) (Put it) its in
  ring_ok b' its' /\ r = r' /\ size b' = size b.
Proof.
  intros [Hi Hh] Hit. cbn [exec spec]. unfold sys_ring_buf_put, words. rewrite (space_spec _ _ Hh).
  pose proof (ho_fit _ _ Hh) as Hf. pose proof (rw_size _ Hh). rewrite u32_small by lia. rewrite Z.geb_leb.
  set (n := length (i_data it)). cbn [encode length]. fold n.
  destruct (Z.leb_spec (Z.of_nat n + 1) (size b - 1 - Z.of_nat (length (concat (encode <$> its)))));
    destruct (Z.ltb_spec (Z.of_nat (length (concat (encode <$> its))) + Z.of_nat (S n)) (size b)); try lia.
  - rewrite Nat2Z.id. destruct (put_holds b _ (ring_element (i_type it) (Z.of_nat n) (i_value it)) (i_data it) Hh) as (K1 & _ & K3).
    { destruct Hit as (_ & _ & ?). lia. } { fold n. lia. }
    split_and!; [|done|exact K3]. split; [by apply Forall_app; split; [|constructor]|].
    rewrite fmap_app, concat_app. cbn [fmap list_fmap concat]. rewrite app_nil_r. exact K1.
  - split_and!; [|done|done]. split; [done|]. destruct Hh as [[? ? ? ? ?] ? ? ?]. split; [|done..]. by split.
Qed.

Lemma get_refines b its out :
  ring_ok b its -> Z.of_nat (length out) < 2 ^ 8 ->
  let '(b', r) := exec (Get out) b in
  let '(its', r') := spec (size b) (Get out) its in
  ring_ok b' its' /\ r = r' /\ size b' = size b.
Proof.
  intros [Hi Hh] Ho. cbn [exec spec]. unfold sys_ring_buf_get. rewrite (empty_spec _ _ Hh).
  destruct its as [|it its]; [done|]. rewrite bool_decide_false by done.
  apply Forall_cons in Hi as [(Ht & Hv & Hl) Hi]. cbn [fmap list_fmap concat encode app] in Hh.
  set (n := length (i_data it)) in *.
  destruct (header_fields (i_type it) (Z.of_nat n) (i_value it)) as (F1 & F2 & F3); [lia..|].
  pose proof (rw_head _ Hh). pose proof (ho_word _ _ Hh 0%nat ltac:(cbn [length]; lia)) as Hw. unfold word in Hw.
  rewrite Z.add_0_r, Z.mod_small in Hw by lia. rewrite Hw.
  change ((ring_element (i_type it) (Z.of_nat n) (i_value it) :: i_data it ++ concat (encode <$> its)) !!! 0%nat)
    with (ring_element (i_type it) (Z.of_nat n) (i_value it)). rewrite F1, F2, F3, Z.gtb_ltb.
  destruct (Z.ltb_spec (Z.of_nat (length out)) (Z.of_nat n)); destruct (Nat.ltb_spec (length out) n); try lia.
  { split_and!; [|done|done]. split; [by constructor|exact Hh]. }
  rewrite Nat2Z.id. split_and!; [|do 4 f_equal|done].
  - split; [done|]. by apply (holds_advance _ (ring_element (i_type it) (Z.of_nat n) (i_value it))).
  - unfold n. rewrite (get_words_spec _ 0%nat); [done|apply Hh|fold n; lia|fold n; lia|]. intros j Hj. fold n in Hj.
    pose proof (ho_word _ _ Hh (S j)) as Hx. cbn [length] in Hx. rewrite length_app in Hx. fold n in Hx.
    specialize (Hx ltac:(lia)).
    change ((?x :: ?l) !!! S j) with (l !!! j) in Hx. rewrite lookup_total_app_l in Hx by done. rewrite <- Hx. f_equal. lia.
Qed.

Lemma ring_run_refines os b its :
  ring_ok b its -> Forall op_ok os ->
  let '(b', rs) := run_exec os b in
  let '(its', rs') := run_spec (size b) os its in
  ring_ok b' its' /\ rs = rs' /\ size b' = size b.
Proof.
  intros Hk Ho. revert b its Hk. induction Ho as [|o os Ho _ IH]; intros b its Hk; cbn [run_exec run_spec]; [done|].
  assert (let '(b', r) := exec o b in let '(its', r') := spec (size b) o its in
    ring_ok b' its' /\ r = r' /\ size b' = size b) as H1.
  { destruct o; [by apply put_refines|by apply get_refines]. }
  destruct (exec o b) as [b1 r1], (spec (size b) o its) as [its1 r2], H1 as (K1 & -> & E).
  specialize (IH b1 its1 K1). rewrite E in IH.
  destruct (run_exec os b1) as [b2 rs1], (run_spec (size b) os its1) as [its2 rs2], IH as (IH1 & -> & ->). done.
Qed.

Lemma power_of_two_spec (x : Z) : 0 < x < 2 ^ 32 -> is_power_of_two x = true -> exists n, 0 <= n /\ x = 2 ^ n.
Proof.
  intros Hx. unfold is_power_of_two. rewrite u32_small by lia. intros [_ E%Z.eqb_eq]%andb_true_iff.
  exists (Z.log2 x). split; [apply Z.log2_nonneg|]. pose proof (Z.log2_spec x ltac:(lia)) as [Hlo Hhi].
  destruct (decide (x = 2 ^ Z.log2 x)) as [|Hne]; [done|]. exfalso.
  assert (Z.log2 (x - 1) = Z.log2 x) as El by (apply Z.log2_unique; [apply Z.log2_nonneg|]; lia).
  assert (Z.testbit (Z.land x (x - 1)) (Z.log2 x) = true) as Hb.
  { rewrite Z.land_spec, Z.bit_log2 by lia. rewrite <- El. apply Z.bit_log2.
    pose proof (Z.pow_pos_nonneg 2 (Z.log2 x) ltac:(lia) (Z.log2_nonneg x)). lia. }
  by rewrite E, Z.bits_0 in Hb.
Qed.

Lemma ring_init_ok (sz : Z) data : 0 < sz < 2 ^ 31 -> Z.of_nat (length data) = sz -> ring_ok (sys_ring_buf_init sz data) [].
Proof.
  intros Hs Hl. split; [constructor|]. split; simpl; [|lia|by rewrite Z.mod_small by lia|intros i Hi; lia].
  split; simpl; try lia. destruct (is_power_of_two sz) eqn:E; [right|by left].
  apply power_of_two_spec in E as (n & Hn & ->); [|lia]. exists n. rewrite u32_small by lia. done.
Qed.

(** C29. A ring buffer is a bounded FIFO: whatever sequence of puts and gets is
    run on an initialised buffer, of any size, their results are those of a
    queue of items that refuses an item when the words of all items would not
    leave one free word. *)
Theorem ring_buffer_is_fifo (sz : Z) data os :
  0 < sz < 2 ^ 31 -> Z.of_nat (length data) = sz -> Forall op_ok os ->
  let '(b, rs) := run_exec os (sys_ring_buf_init sz data) in
  let '(its, rs') := run_spec sz os [] in
  rs = rs' /\ ring_ok b its.
Proof.
  intros Hs Hl Ho. pose proof (ring_run_refines os _ _ (ring_init_ok sz data Hs Hl) Ho) as H.
  change (size (sys_ring_buf_init sz data)) with sz in H.
  destruct (run_exec os (sys_ring_buf_init sz data)) as [b rs], (run_spec sz os []) as [its rs'], H as (? & ? & _). done.
Qed.

(** A buffer of five words wraps around. *)
Definition demo_ops : list op := [Put (mk_item 7 1 [10; 11]); Get [0; 0; 0]; Put (mk_item 8 2 [20; 21; 22]); Put (mk_item 9 3 []);
  Get [0]; Get [0; 0; 0]; Get []].

Lemma ring_buffer_is_fifo_witness :
  snd (run_exec demo_ops (sys_ring_buf_init 5 (repeat 0 5))) =
  [RPut 0; RGet 0 2 (Some (7, 1, [10; 11; 0])); RPut 0; RPut (- EMSGSIZE); RGet (- EMSGSIZE) 3 None;
   RGet 0 3 (Some (8, 2, [20; 21; 22])); RGet (- EAGAIN) 0 None].
Proof.
  pose proof (ring_buffer_is_fifo 5 (repeat 0 5) demo_ops) as H.
  destruct (run_exec demo_ops (sys_ring_buf_init 5 (repeat 0 5))) as [b rs].
  assert (run_spec 5 demo_ops [] = ([], [RPut 0; RGet 0 2 (Some (7, 1, [10; 11; 0])); RPut 0; RPut (- EMSGSIZE); RGet (- EMSGSIZE) 3 None;
   RGet 0 3 (Some (8, 2, [20; 21; 22])); RGet (- EAGAIN) 0 None])) as E by (vm_compute; reflexivity).
  rewrite E in H. destruct H as [H _]; [lia|reflexivity|repeat constructor; cbn; lia|exact H].
Defined.

End RingBuffer.
