(* ===== verification/Conv.v ===== *)
(** * The minimal C library: numbers and text
    (lib/libc/minimal: include/ctype.h, source/stdlib/strtol.c, strtoul.c,
    atoi.c, and the number formatting of source/stdout/prf.c)

    The parsers and the printers of integers, on a memory of bytes.  The main
    theorems are that a parser computes the value of the digits, or the limit
    of the type when it is out of range, and that what the printers write is
    read back as the same number. *)

From S2P Require Import Prelude LibC.
Import LibC.

Local Open Scope Z_scope.

Module Conv.

Implicit Types (m : memory) (s p c base : Z) (fuel n : nat).

(** ** ctype.h *)

Definition isupper (a : Z) : bool := u32 (u32 a - 65) <? 26.
Definition isalpha c : bool := u32 (Z.lor (u32 c) 32 - 97) <? 26.
Definition isspace c : bool := (c =? 32) || (u32 (u32 c - 9) <? 5).
Definition isgraph c : bool := (u32 c >? 32) && (u32 c <=? 126).
Definition isprint c : bool := (u32 c >=? 32) && (u32 c <=? 126).
Definition isdigit (a : Z) : bool := u32 (u32 a - 48) <? 10.
Definition isxdigit (a : Z) : bool :=
  (u32 (u32 a - 48) <? 10) || (u32 (u32 a - 97) <? 6) || (u32 (u32 a - 65) <? 6).
Definition tolower (chr : Z) : Z := if (chr >=? 65) && (chr <=? 90) then chr + 32 else chr.
Definition toupper (chr : Z) : Z := if (chr >=? 97) && (chr <=? 122) then chr - 32 else chr.
Definition isalnum (chr : Z) : bool := isalpha chr || isdigit chr.

(** ** Parsing *)

Definition LONG_MAX : Z := 0x7FFFFFFF.
Definition LONG_MIN : Z := - LONG_MAX - 1.
Definition ULONG_MAX : Z := 0xFFFFFFFF.

(** [do c = *s++; while (isspace(c))]: [c] and [s] *)
Fixpoint skip_space fuel m s : option (Z * Z) :=
  match fuel with
  | O => None
  | S fuel => if isspace (ldc m s) then skip_space fuel m (s + 1) else Some (ldc m s, s + 1)
  end.

(** the sign: [neg], [c] and [s] *)
Definition parse_sign m c s : bool * Z * Z :=
  if c =? 45 then (true, ldc m s, s + 1)
  else if c =? 43 then (false, ldc m s, s + 1)
  else (false, c, s).

(** the prefix [0x], and the base when it is given as 0: [c], [s] and [base] *)
Definition parse_base m c s base : Z * Z * Z :=
  let '(c, s, base) :=
    if ((base =? 0) || (base =? 16)) && (c =? 48) && ((ldc m s =? 120) || (ldc m s =? 88))
    then (ldc m (s + 1), s + 2, 16) else (c, s, base) in
  (c, s, if base =? 0 then (if c =? 48 then 8 else 10) else base).

Definition digit_value c : option Z :=
  if isdigit c then Some (c - 48)
  else if isalpha c then Some (c - (if isupper c then 55 else 87))
  else None.

(** the loop over the digits: [acc], [any] and [s] *)
Fixpoint convert fuel m base (cutoff cutlim : Z) s c (acc any : Z) : option (Z * Z * Z) :=
  match fuel with
  | O => None
  | S fuel =>
      match digit_value c with
      | None => Some (acc, any, s)
      | Some c =>
          if c >=? base then Some (acc, any, s)
          else if (any <? 0) || (acc >? cutoff) || ((acc =? cutoff) && (c >? cutlim))
          then convert fuel m base cutoff cutlim (s + 1) (ldc m s) acc (-1)
          else convert fuel m base cutoff cutlim (s + 1) (ldc m s) (u32 (u32 (acc * base) + c)) 1
      end
  end.

(** The value, [*endptr] and whether [errno] is set to [ERANGE]. *)
Definition strtol fuel m nptr base : option (Z * Z * bool) :=
  match skip_space fuel m nptr with
  | None => None
  | Some (c, s) =>
      let '(neg, c, s) := parse_sign m c s in
      let '(c, s, base) := parse_base m c s base in
      let cutoff := if neg : bool then u32 (- u32 LONG_MIN) else LONG_MAX in
      let cutlim := cutoff mod base in
      let cutoff := cutoff / base in
      match convert fuel m base cutoff cutlim s c 0 0 with
      | None => None
      | Some (acc, any, s) =>
          let endptr := if any =? 0 then nptr else s - 1 in
          if any <? 0 then Some (if neg then LONG_MIN else LONG_MAX, endptr, true)
          else Some (s32 (if neg then u32 (- acc) else acc), endptr, false)
      end
  end.

Definition strtoul fuel m nptr base : option (Z * Z * bool) :=
  match skip_space fuel m nptr with
  | None => None
  | Some (c, s) =>
      let '(neg, c, s) := parse_sign m c s in
      let '(c, s, base) := parse_base m c s base in
      let cutoff := ULONG_MAX / base in
      let cutlim := ULONG_MAX mod base in
      match convert fuel m base cutoff cutlim s c 0 0 with
      | None => None
      | Some (acc, any, s) =>
          let endptr := if any =? 0 then nptr else s - 1 in
          if any <? 0 then Some (ULONG_MAX, endptr, true)
          else Some (if neg : bool then u32 (- acc) else acc, endptr, false)
      end
  end.

Fixpoint atoi_digits fuel m s (n : Z) : option Z :=
  match fuel with
  | O => None
  | S fuel => if isdigit (ldc m s) then atoi_digits fuel m (s + 1) (s32 (10 * n - (ldc m s - 48))) else Some n
  end.

Definition atoi fuel m s : option Z :=
  match skip_space fuel m s with
  | None => None
  | Some (_, s) =>
      let s := s - 1 in
      let '(neg, s) := if ldc m s =? 45 then (true, s + 1) else if ldc m s =? 43 then (false, s + 1) else (false, s) in
      match atoi_digits fuel m s 0 with
      | None => None
      | Some n => Some (if neg : bool then n else s32 (- n))
      end
  end.

(** ** Printing *)

(** the loop of [_uc], over the string *)
Fixpoint _uc fuel m buf : option memory :=
  match fuel with
  | O => None
  | S fuel =>
      if ldc m buf =? 0 then Some m
      else _uc fuel (if (ldc m buf >=? 97) && (ldc m buf <=? 122) then st8 m buf (ldc m buf + (65 - 97)) else m) (buf + 1)
  end.

(** [for (end--; end > start; end--, start++)]: at most [n] turns *)
Fixpoint reverse_loop n m (start end_ : Z) : memory :=
  match n with
  | O => m
  | S n =>
      if end_ >? start then
        let tmp := ldc m end_ in
        let m := st8 m end_ (ldc m start) in
        reverse_loop n (st8 m start tmp) (start + 1) (end_ - 1)
      else m
  end.

Definition _reverse_and_pad m (start end_ minlen : Z) : memory * Z :=
  let pad := Z.to_nat (minlen - (end_ - start)) in
  let m := set_bytes pad m end_ 48 in
  let end_ := end_ + Z.of_nat pad in
  let m := st8 m end_ 0 in
  let len := end_ - start in
  (reverse_loop (Z.to_nat len) m start (end_ - 1), len).

(** [do ... while (n)]: the digits from the last one on *)
Fixpoint to_x_loop fuel m buf (n : Z) base : option (memory * Z) :=
  match fuel with
  | O => None
  | S fuel =>
      let d := n mod base in
      let n := n / base in
      let m := st8 m buf (48 + d + (if d >? 9 then 97 - 48 - 10 else 0)) in
      if n =? 0 then Some (m, buf + 1) else to_x_loop fuel m (buf + 1) n base
  end.

(** 32 turns are enough for a 32-bit number in any base. *)
Definition _to_x m buf (n : Z) base (minlen : Z) : option (memory * Z) :=
  match to_x_loop 32 m buf n base with
  | None => None
  | Some (m, end_) => Some (_reverse_and_pad m buf end_ minlen)
  end.

(** The result is the memory and the length; [upper] is [prefix == 'X']. *)
Definition _to_hex fuel m buf (value : Z) (alt_form : bool) (precision : Z) (upper : bool) : option (memory * Z) :=
  let buf0 := buf in
  let '(m, buf) := if alt_form then (st8 (st8 m buf 48) (buf + 1) 120, buf + 2) else (m, buf) in
  match _to_x m buf value 16 precision with
  | None => None
  | Some (m, len) =>
      match (if upper then _uc fuel m buf0 else Some m) with
      | None => None
      | Some m => Some (m, len + (buf - buf0))
      end
  end.

Definition _to_octal m buf (value : Z) (alt_form : bool) (precision : Z) : option (memory * Z) :=
  let buf0 := buf in
  if alt_form then
    let m := st8 m buf 48 in
    let buf := buf + 1 in
    if value =? 0 then Some (st8 m buf 0, 1)
    else match _to_x m buf value 8 precision with None => None | Some (m, len) => Some (m, (buf - buf0) + len) end
  else _to_x m buf value 8 precision.

Definition _to_udec m buf (value precision : Z) : option (memory * Z) := _to_x m buf value 10 precision.

Definition _to_dec m buf (value : Z) (fplus fspace : bool) (precision : Z) : option (memory * Z) :=
  let start := buf in
  let '(m, buf, value) :=
    if value <? 0 then (st8 m buf 45, buf + 1, if negb (u32 value =? 0x80000000) then s32 (- value) else value)
    else if fplus then (st8 m buf 43, buf + 1, value)
    else if fspace then (st8 m buf 32, buf + 1, value)
    else (m, buf, value) in
  match _to_udec m buf (u32 value) precision with
  | None => None
  | Some (m, len) => Some (m, buf + len - start)
  end.

(** ** Characters in memory *)

Implicit Types (l ds vs : list Z).

Fixpoint chars m p l : Prop :=
  match l with
  | [] => True
  | x :: l => ldc m p = x /\ chars m (p + 1) l
  end.

Lemma chars_app m p l1 l2 : chars m p (l1 ++ l2) <-> chars m p l1 /\ chars m (p + Z.of_nat (length l1)) l2.
Proof.
  revert p. induction l1 as [|x l1 IH]; intros p; cbn [chars app length]; [rewrite Z.add_0_r; naive_solver|].
  rewrite IH. replace (p + 1 + Z.of_nat (length l1)) with (p + Z.of_nat (S (length l1))) by lia. naive_solver.
Qed.

Lemma chars_agree m m' p l :
  (forall q, p <= q < p + Z.of_nat (length l) -> ldc m' q = ldc m q) -> chars m p l -> chars m' p l.
Proof.
  revert p. induction l as [|x l IH]; intros p Hq; cbn [chars length]; [done|].
  intros [H1 H2]. split; [by rewrite Hq by (cbn [length]; lia)|]. apply IH; [|done]. intros q Hr. apply Hq. cbn [length]. lia.
Qed.

(** Two memories agree but on an area. *)
Definition same_but m m' (lo hi : Z) : Prop := forall q, q < lo \/ hi <= q -> ldc m' q = ldc m q.

Lemma same_but_trans m1 m2 m3 (lo hi : Z) : same_but m1 m2 lo hi -> same_but m2 m3 lo hi -> same_but m1 m3 lo hi.
Proof. intros H1 H2 q Hq. by rewrite H2, H1. Qed.

Lemma same_but_le m m' (lo hi lo' hi' : Z) : lo' <= lo -> hi <= hi' -> same_but m m' lo hi -> same_but m m' lo' hi'.
Proof. intros ? ? H q Hq. apply H. lia. Qed.

Lemma same_but_st8 m p (v lo hi : Z) : lo <= p < hi -> same_but m (st8 m p v) lo hi.
Proof. intros Hp q Hq. by rewrite ldc_st8, decide_False by lia. Qed.

Lemma chars_out m m' (lo hi : Z) p l :
  same_but m m' lo hi -> p + Z.of_nat (length l) <= lo \/ hi <= p -> chars m p l -> chars m' p l.
Proof. intros Hs Hp. apply chars_agree. intros q Hq. apply Hs. lia. Qed.

Lemma s8_ldc m p : s8 (ldc m p) = ldc m p.
Proof. unfold ldc, s8. by rewrite Z.sub_add, Zmod_mod. Qed.

(** ** Digits *)

Definition digits base ds vs : Prop := Forall2 (fun c v => digit_value c = Some v /\ 0 <= v < base) ds vs.

Definition val base (acc : Z) vs : Z := fold_left (fun a v => a * base + v) vs acc.

Lemma val_app base (acc : Z) l1 l2 : val base acc (l1 ++ l2) = val base (val base acc l1) l2.
Proof. apply fold_left_app. Qed.

Lemma val_ge base (acc : Z) vs : 1 <= base -> 0 <= acc -> Forall (fun v => 0 <= v < base) vs -> acc <= val base acc vs.
Proof.
  intros Hb. revert acc. induction vs as [|v vs IH]; intros acc Ha Hv; simpl; [done|]. inversion Hv; subst.
  specialize (IH (acc * base + v)). unfold val in IH. etrans; [|apply IH; [nia|done]]. nia.
Qed.

Lemma digits_range base ds vs : digits base ds vs -> Forall (fun v => 0 <= v < base) vs.
Proof. induction 1 as [|c v ds vs [_ Hv] _ IH]; by constructor. Qed.

(** The character the digits end at. *)
Definition ends base (t : Z) : Prop := match digit_value t with Some v => base <= v | None => True end.

(** The loop computes the value, or notes that it is above the limit. *)
Lemma convert_overflowed fuel m base (cutoff cutlim : Z) p ds vs (t acc : Z) :
  digits base ds vs -> ends base t -> chars m p (ds ++ [t]) -> (length ds < fuel)%nat ->
  convert fuel m base cutoff cutlim (p + 1) (ldc m p) acc (-1) = Some (acc, -1, p + 1 + Z.of_nat (length ds)).
Proof.
  intros Hd Ht. revert fuel p. induction Hd as [|c v ds vs [Hv Hr] Hd IH]; intros [|fuel] p Hc Hf; cbn [length] in Hf; try lia;
    cbn [app chars convert] in *; destruct Hc as [-> Hc].
  - unfold ends in Ht. destruct (digit_value t) as [v|]; [|do 2 f_equal; cbn [length]; lia]. rewrite Z.geb_leb.
    destruct (Z.leb_spec base v); [|lia]. do 2 f_equal. cbn [length]. lia.
  - rewrite Hv, Z.geb_leb. destruct (Z.leb_spec base v); [lia|]. simpl. rewrite IH by (done || lia). do 2 f_equal. cbn [length]. lia.
Qed.

Lemma convert_spec fuel m base (cutoff cutlim : Z) p ds vs (t acc any : Z) :
  1 <= base -> 0 <= cutlim < base -> cutoff * base + cutlim < 2 ^ 32 -> 0 <= acc <= cutoff * base + cutlim -> 0 <= any ->
  digits base ds vs -> ends base t -> chars m p (ds ++ [t]) -> (length ds < fuel)%nat ->
  exists acc' any', convert fuel m base cutoff cutlim (p + 1) (ldc m p) acc any = Some (acc', any', p + 1 + Z.of_nat (length ds)) /\
    if val base acc vs <=? cutoff * base + cutlim
    then acc' = val base acc vs /\ any' = (if ds is [] then any else 1) else any' = -1.
Proof.
  intros Hb Hl Hlim Hacc Hany Hd Ht. revert fuel p acc any Hacc Hany.
  induction Hd as [|c v ds vs [Hv Hr] Hd IH]; intros [|fuel] p acc any Hacc Hany Hc Hf; cbn [length] in Hf; try lia;
    cbn [app chars convert] in *; destruct Hc as [-> Hc].
  - exists acc, any. split; [|simpl; by destruct (Z.leb_spec acc (cutoff * base + cutlim)); [|lia]].
    unfold ends in Ht. destruct (digit_value t) as [v|]; [|do 2 f_equal; cbn [length]; lia]. rewrite Z.geb_leb.
    destruct (Z.leb_spec base v); [|lia]. do 2 f_equal. cbn [length]. lia.
  - rewrite Hv, Z.geb_leb. destruct (Z.leb_spec base v); [lia|]. destruct (Z.ltb_spec any 0); [lia|]. simpl.
    change (val base acc (v :: vs)) with (val base (acc * base + v) vs).
    destruct (decide (acc * base + v <= cutoff * base + cutlim)) as [Hle|Hgt].
    + assert ((acc >? cutoff) || ((acc =? cutoff) && (v >? cutlim)) = false) as ->.
      { rewrite !Z.gtb_ltb. destruct (Z.ltb_spec cutoff acc); [nia|]. destruct (Z.eqb_spec acc cutoff); [|done].
        destruct (Z.ltb_spec cutlim v); [nia|done]. }
      rewrite (u32_small (acc * base)) by nia. rewrite u32_small by nia.
      destruct (IH fuel (p + 1) (acc * base + v) 1) as (acc' & any' & E & H1); [nia|lia|done|lia|].
      exists acc', any'. rewrite E. split; [do 2 f_equal; cbn [length]; lia|]. by destruct ds.
    + assert ((acc >? cutoff) || ((acc =? cutoff) && (v >? cutlim)) = true) as ->.
      { rewrite !Z.gtb_ltb. destruct (Z.ltb_spec cutoff acc); [done|]. destruct (Z.eqb_spec acc cutoff).
        - destruct (Z.ltb_spec cutlim v); [done|nia].
        - nia. }
      rewrite (convert_overflowed _ _ _ _ _ _ ds vs t) by (done || lia).
      eexists _, _. split; [do 2 f_equal; cbn [length]; lia|].
      pose proof (val_ge base (acc * base + v) vs Hb ltac:(nia) (digits_range _ _ _ Hd)).
      by destruct (Z.leb_spec (val base (acc * base + v) vs) (cutoff * base + cutlim)); [lia|].
Qed.

(** ** The parsers *)

Lemma skip_space_spec fuel m p l (c : Z) :
  Forall (fun x => isspace x = true) l -> isspace c = false -> chars m p (l ++ [c]) -> (length l < fuel)%nat ->
  skip_space fuel m p = Some (c, p + Z.of_nat (length l) + 1).
Proof.
  intros Hl Hc. revert fuel p. induction Hl as [|x l Hx _ IH]; intros [|fuel] p Hm Hf; cbn [length] in Hf; try lia;
    cbn [app chars skip_space] in *; destruct Hm as [-> Hm].
  - rewrite Hc. do 2 f_equal. cbn [length]. lia.
  - rewrite Hx, IH by (done || lia). do 2 f_equal. cbn [length]. lia.
Qed.

(** What holds of all characters, by evaluation. *)
Lemma char_cases (f : Z -> bool) m p : forallb f (seqZ (-128) 256) = true -> f (ldc m p) = true.
Proof.
  intros H. rewrite forallb_forall in H. apply H, list_elem_of_In, elem_of_seqZ. unfold ldc, s8.
  pose proof (Z.mod_pos_bound (m !!! p + 2 ^ 7) (2 ^ 8)). lia.
Qed.

(** A digit is no space and no sign, and [x] is no hexadecimal digit. *)
Lemma digit_char_facts m p (v : Z) :
  digit_value (ldc m p) = Some v ->
  isspace (ldc m p) = false /\ ldc m p <> 45 /\ ldc m p <> 43 /\ (v < 33 -> ldc m p <> 120 /\ ldc m p <> 88).
Proof.
  intros Hv. pose proof (char_cases (fun c => match digit_value c with
    | Some v => negb (isspace c) && negb (c =? 45) && negb (c =? 43) && ((33 <=? v) || negb (c =? 120) && negb (c =? 88))
    | None => true end) m p ltac:(vm_compute; reflexivity)) as H.
  cbv beta in H. rewrite Hv in H. rewrite !andb_true_iff, orb_true_iff, andb_true_iff, !negb_true_iff, !Z.eqb_neq, Z.leb_le in H.
  naive_solver lia.
Qed.

Definition sign_of (neg : bool) l : Prop := if neg then l = [45] else l = [43] \/ l = [].

Lemma parse_sign_spec m p (neg : bool) l ds vs (t : Z) base :
  sign_of neg l -> digits base ds vs -> ds <> [] -> chars m p (l ++ ds ++ [t]) ->
  isspace (ldc m p) = false /\
  parse_sign m (ldc m p) (p + 1) = (neg, ldc m (p + Z.of_nat (length l)), p + Z.of_nat (length l) + 1).
Proof.
  intros Hs Hd Hne Hm. unfold parse_sign. destruct neg; cbn [sign_of] in Hs.
  - subst l. cbn [app chars] in Hm. destruct Hm as [-> _]. done.
  - destruct Hs as [-> | ->]; cbn [app chars] in Hm.
    + destruct Hm as [-> _]. done.
    + destruct Hd as [|c v ds vs [Hv _] _]; [done|]. cbn [app chars] in Hm. destruct Hm as [<- _].
      destruct (digit_char_facts m p v Hv) as (H1 & H2 & H3 & _). split; [done|].
      destruct (Z.eqb_spec (ldc m p) 45); [done|]. destruct (Z.eqb_spec (ldc m p) 43); [done|]. cbn [length]. by rewrite Z.add_0_r.
Qed.

(** Without a prefix a base that is given is kept. *)
Lemma parse_base_plain m p ds vs (t : Z) base :
  2 <= base <= 36 -> digits base ds vs -> ds <> [] -> chars m p (ds ++ [t]) -> (base = 16 -> t <> 120 /\ t <> 88) ->
  parse_base m (ldc m p) (p + 1) base = (ldc m p, p + 1, base).
Proof.
  intros Hb Hd Hne Hm Ht. unfold parse_base. destruct (Z.eqb_spec base 0); [lia|]. simpl.
  destruct (Z.eqb_spec base 16) as [->|]; [|simpl; by destruct (Z.eqb_spec base 0); [lia|]]. simpl.
  assert (ldc m (p + 1) <> 120 /\ ldc m (p + 1) <> 88) as [H1 H2].
  { destruct Hd as [|c v ds vs _ Hd]; [done|]. destruct Hm as [_ Hm]. destruct Hd as [|c' v' ds vs [Hv Hr] Hd].
    - destruct Hm as [-> _]. by apply Ht.
    - destruct Hm as [<- _]. apply (digit_char_facts m (p + 1) v' Hv). lia. }
  destruct (Z.eqb_spec (ldc m (p + 1)) 120); [done|]. destruct (Z.eqb_spec (ldc m (p + 1)) 88); [done|]. by rewrite andb_false_r.
Qed.

Definition limit (neg : bool) : Z := if neg then - LONG_MIN else LONG_MAX.

(** The rest of [strtol] once the base and the first digit are known. *)
Lemma strtol_at fuel m nptr base0 (c s : Z) (neg : bool) (c1 s1 base p : Z) ds vs (t : Z) :
  skip_space fuel m nptr = Some (c, s) -> parse_sign m c s = (neg, c1, s1) ->
  parse_base m c1 s1 base0 = (ldc m p, p + 1, base) ->
  2 <= base <= 36 -> digits base ds vs -> ds <> [] -> ends base t -> chars m p (ds ++ [t]) -> (length ds < fuel)%nat ->
  strtol fuel m nptr base0 =
  let v := val base 0 vs in
  Some (if v <=? limit neg then (if neg then - v else v) else (if neg then LONG_MIN else LONG_MAX),
        p + Z.of_nat (length ds), negb (v <=? limit neg)).
Proof.
  intros E1 E2 E3 Hb Hd Hne Ht Hm Hf. unfold strtol. rewrite E1, E2, E3.
  set (lim := if neg then u32 (- u32 LONG_MIN) else LONG_MAX). assert (lim = limit neg) as El by (by destruct neg).
  assert (0 < lim <= 2 ^ 31) as Hl by (by destruct neg).
  pose proof (Z.div_mod lim base ltac:(lia)) as Hdm. pose proof (Z.mod_pos_bound lim base ltac:(lia)).
  destruct (convert_spec fuel m base (lim / base) (lim mod base) p ds vs t 0 0) as (acc & any & E & H1); try done; try lia.
  rewrite E. replace (lim / base * base + lim mod base) with lim in H1 by lia. rewrite <- El.
  pose proof (val_ge base 0 vs ltac:(lia) ltac:(lia) (digits_range _ _ _ Hd)) as Hv0. cbv zeta.
  destruct (Z.leb_spec (val base 0 vs) lim) as [Hle|Hgt].
  - destruct H1 as [-> ->]. destruct ds as [|d ds]; [done|]. cbn [Z.eqb Z.ltb Z.compare Pos.compare Pos.compare_cont negb].
    apply (f_equal Some), (f_equal2 pair); [apply (f_equal2 pair); [|lia]|done]. destruct neg.
    + cbn in El. unfold u32, s32. assert (val base 0 vs <= 2 ^ 31) by lia. rewrite Zplus_mod_idemp_l.
      rewrite Z.mod_small; lia.
    + apply s32_small. assert (lim = 2 ^ 31 - 1) by (by rewrite El). lia.
  - subst any. cbn. do 3 f_equal. lia.
Qed.

Lemma strtol_spec fuel m p base sp (neg : bool) sg ds vs (t : Z) :
  2 <= base <= 36 -> Forall (fun x => isspace x = true) sp -> sign_of neg sg -> digits base ds vs -> ds <> [] ->
  ends base t -> (base = 16 -> t <> 120 /\ t <> 88) -> chars m p (sp ++ sg ++ ds ++ [t]) ->
  (length (sp ++ sg ++ ds) < fuel)%nat ->
  strtol fuel m p base =
  let v := val base 0 vs in
  Some (if v <=? limit neg then (if neg then - v else v) else (if neg then LONG_MIN else LONG_MAX),
        p + Z.of_nat (length (sp ++ sg ++ ds)), negb (v <=? limit neg)).
Proof.
  intros Hb Hsp Hsg Hd Hne Ht Hx Hm Hf. rewrite !length_app in Hf. apply chars_app in Hm as [Hm1 Hm2].
  destruct (parse_sign_spec m _ neg sg ds vs t base Hsg Hd Hne Hm2) as [Hns Hps].
  apply chars_app in Hm2 as [Hm3 Hm4].
  rewrite (strtol_at fuel m p base _ _ _ _ _ base (p + Z.of_nat (length sp) + Z.of_nat (length sg)) ds vs t
    (skip_space_spec fuel m p sp _ Hsp Hns ltac:(apply chars_app; done) ltac:(lia)) Hps
    (parse_base_plain m _ ds vs t base Hb Hd Hne Hm4 Hx) Hb Hd Hne Ht Hm4 ltac:(lia)).
  rewrite !length_app. do 3 f_equal. lia.
Qed.

(** [strtol] in a given base skips white space and a sign, and computes the
    value of the digits; out of range it returns the limit of the type and sets
    [errno].  [*endptr] is the first character that is no digit of the base. *)
Theorem strtol_value fuel m p base sp (neg : bool) sg ds vs (t : Z) :
  2 <= base <= 36 -> Forall (fun x => isspace x = true) sp -> sign_of neg sg -> digits base ds vs -> ds <> [] ->
  ends base t -> (base = 16 -> t <> 120 /\ t <> 88) -> chars m p (sp ++ sg ++ ds ++ [t]) ->
  (length (sp ++ sg ++ ds) < fuel)%nat ->
  strtol fuel m p base =
  let v := val base 0 vs in
  Some (if v <=? limit neg then (if neg then - v else v) else (if neg then LONG_MIN else LONG_MAX),
        p + Z.of_nat (length (sp ++ sg ++ ds)), negb (v <=? limit neg)).
Proof. apply strtol_spec. Qed.

Lemma strtoul_at fuel m nptr base0 (c s : Z) (c1 s1 base p : Z) ds vs (t : Z) :
  skip_space fuel m nptr = Some (c, s) -> parse_sign m c s = (false, c1, s1) ->
  parse_base m c1 s1 base0 = (ldc m p, p + 1, base) ->
  2 <= base <= 36 -> digits base ds vs -> ds <> [] -> ends base t -> chars m p (ds ++ [t]) -> (length ds < fuel)%nat ->
  val base 0 vs < 2 ^ 32 ->
  strtoul fuel m nptr base0 = Some (val base 0 vs, p + Z.of_nat (length ds), false).
Proof.
  intros E1 E2 E3 Hb Hd Hne Ht Hm Hf Hv. unfold strtoul. rewrite E1, E2, E3.
  pose proof (Z.div_mod ULONG_MAX base ltac:(lia)) as Hdm. pose proof (Z.mod_pos_bound ULONG_MAX base ltac:(lia)).
  assert (ULONG_MAX = 2 ^ 32 - 1) as El by done.
  destruct (convert_spec fuel m base (ULONG_MAX / base) (ULONG_MAX mod base) p ds vs t 0 0) as (acc & any & E & H1); try done; try lia.
  rewrite E. destruct (Z.leb_spec (val base 0 vs) (ULONG_MAX / base * base + ULONG_MAX mod base)); [|lia].
  destruct H1 as [-> ->]. destruct ds as [|d ds]; [done|]. cbn [Z.eqb Z.ltb Z.compare Pos.compare Pos.compare_cont].
  do 3 f_equal. lia.
Qed.

(** ** The printers *)

Definition digit_char (d : Z) : Z := 48 + d + (if d >? 9 then 97 - 48 - 10 else 0).

Lemma digit_char_value (d : Z) : 0 <= d < 36 -> digit_value (digit_char d) = Some d /\ s8 (digit_char d) = digit_char d /\ digit_char d <> 0.
Proof.
  intros Hd. assert (forallb (fun d => bool_decide (digit_value (digit_char d) = Some d) && (s8 (digit_char d) =? digit_char d)
    && negb (digit_char d =? 0)) (seqZ 0 36) = true) as H by (vm_compute; reflexivity).
  rewrite forallb_forall in H. specialize (H d). rewrite !andb_true_iff, bool_decide_eq_true, Z.eqb_eq, negb_true_iff, Z.eqb_neq in H.
  destruct H as [[H1 H2] H3]; [by apply list_elem_of_In, elem_of_seqZ|]. done.
Qed.

(** The digits of a number, the least significant one first. *)
Fixpoint rdigits fuel (x base : Z) : list Z :=
  match fuel with
  | O => []
  | S fuel => x mod base :: (if x / base =? 0 then [] else rdigits fuel (x / base) base)
  end.

Lemma rdigits_spec fuel (x base : Z) :
  2 <= base -> 0 <= x < base ^ Z.of_nat fuel -> (0 < fuel)%nat ->
  val base 0 (rev (rdigits fuel x base)) = x /\ Forall (fun v => 0 <= v < base) (rdigits fuel x base) /\ rdigits fuel x base <> [].
Proof.
  intros Hb. revert x. induction fuel as [|fuel IH]; intros x Hx Hf; [lia|]. cbn [rdigits rev].
  pose proof (Z.div_mod x base ltac:(lia)) as Hdm. pose proof (Z.mod_pos_bound x base ltac:(lia)).
  rewrite val_app. cbn [val fold_left]. destruct (Z.eqb_spec (x / base) 0) as [E|E].
  - split_and!; [cbn; lia|constructor; [done|constructor]|done].
  - rewrite Nat2Z.inj_succ, Z.pow_succ_r in Hx by lia. destruct fuel as [|fuel'].
    { exfalso. apply E, Z.div_small. simpl in Hx. lia. }
    assert (0 <= x / base < base ^ Z.of_nat (S fuel')) as Hq.
    { split; [apply Z.div_pos; lia|]. apply Z.div_lt_upper_bound; lia. }
    destruct (IH (x / base) Hq ltac:(lia)) as (H1 & H2 & _). unfold val in H1 |- *. rewrite H1.
    split_and!; [lia|by constructor|done].
Qed.

Lemma to_x_loop_spec fuel m buf (x base : Z) :
  2 <= base <= 36 -> 0 <= x < base ^ Z.of_nat fuel -> (0 < fuel)%nat ->
  exists m', to_x_loop fuel m buf x base = Some (m', buf + Z.of_nat (length (rdigits fuel x base))) /\
    chars m' buf (digit_char <$> rdigits fuel x base) /\
    same_but m m' buf (buf + Z.of_nat (length (rdigits fuel x base))).
Proof.
  intros Hb. revert m buf x. induction fuel as [|fuel IH]; intros m buf x Hx Hf; [lia|]. cbn [rdigits to_x_loop].
  pose proof (Z.mod_pos_bound x base ltac:(lia)) as Hd. fold (digit_char (x mod base)).
  destruct (digit_char_value (x mod base)) as (_ & Es & _); [lia|].
  destruct (Z.eqb_spec (x / base) 0) as [E|E].
  - eexists. split; [do 2 f_equal|]. split; [|by apply same_but_st8; simpl; lia].
    cbn [fmap list_fmap chars]. by rewrite ldc_st8, decide_True.
  - rewrite Nat2Z.inj_succ, Z.pow_succ_r in Hx by lia. destruct fuel as [|fuel'].
    { exfalso. apply E, Z.div_small. simpl in Hx. lia. }
    assert (0 <= x / base < base ^ Z.of_nat (S fuel')) as Hq.
    { split; [apply Z.div_pos; lia|]. apply Z.div_lt_upper_bound; lia. }
    destruct (IH (st8 m buf (digit_char (x mod base))) (buf + 1) (x / base) Hq ltac:(lia)) as (m' & E1 & H1 & H2).
    exists m'. rewrite E1. revert H1 H2. generalize (rdigits (S fuel') (x / base) base) as l. intros l H1 H2.
    split; [do 2 f_equal; cbn [length]; lia|]. split.
    + cbn [fmap list_fmap chars]. split; [|done]. rewrite H2 by lia. by rewrite ldc_st8, decide_True.
    + apply (same_but_trans _ (st8 m buf (digit_char (x mod base)))); [apply same_but_st8; cbn [length]; lia|].
      eapply same_but_le; [| |exact H2]; cbn [length]; lia.
Qed.

(** The swaps reverse the characters. *)
Lemma reverse_loop_spec n m p l :
  (length l <= n)%nat -> chars m p l ->
  let m' := reverse_loop n m p (p + Z.of_nat (length l) - 1) in
  chars m' p (rev l) /\ same_but m m' p (p + Z.of_nat (length l)).
Proof.
  revert m p l. induction n as [|n IH]; intros m p l Hl Hm; cbv zeta; cbn [reverse_loop].
  { destruct l; [|cbn [length] in Hl; lia]. by split. }
  rewrite Z.gtb_ltb. destruct (Z.ltb_spec p (p + Z.of_nat (length l) - 1)) as [Hlt|Hge].
  2:{ destruct l as [|x [|y l]]; [by split|by split|cbn [length] in Hge; lia]. }
  destruct l as [|x l]; [cbn [length] in Hlt; lia|]. destruct l as [|y l]; [cbn [length] in Hlt; lia|].
  destruct (snoc_inv y l) as (mid & z & E). rewrite E in *. clear y l E.
  assert (length (x :: mid ++ [z]) = S (S (length mid))) as El by (cbn [length]; rewrite length_app; simpl; lia). rewrite El in *.
  cbn [chars] in Hm. destruct Hm as [Hx Hm]. apply chars_app in Hm as [Hmid [Hz _]].
  set (e := p + Z.of_nat (S (S (length mid))) - 1) in *.
  assert (ldc m e = z) as Hze by (rewrite <- Hz; f_equal; lia).
  set (m1 := st8 (st8 m e (ldc m p)) p (ldc m e)).
  assert (same_but m m1 p (e + 1)) as S1.
  { apply (same_but_trans _ (st8 m e (ldc m p))); apply same_but_st8; lia. }
  assert (forall q, p < q < e -> ldc m1 q = ldc m q) as S2.
  { intros q Hq. unfold m1. by rewrite !ldc_st8, !decide_False by lia. }
  destruct (IH m1 (p + 1) mid) as [H1 H2]; [lia|apply (chars_agree m); [intros q Hq; apply S2; lia|done]|].
  replace (p + 1 + Z.of_nat (length mid) - 1) with (e - 1) in * by lia.
  revert H1 H2. generalize (reverse_loop n m1 (p + 1) (e - 1)) as m'. intros m' H1 H2. split.
  - cbn [rev]. rewrite rev_app_distr. cbn [rev app chars]. split.
    + rewrite H2 by lia. unfold m1. rewrite ldc_st8, decide_True by done. by rewrite s8_ldc.
    + apply chars_app. split; [done|]. rewrite length_rev. cbn [chars]. split; [|done]. rewrite H2 by lia. unfold m1.
      rewrite ldc_st8, decide_False by lia. rewrite ldc_st8, decide_True by lia. by rewrite s8_ldc.
  - apply (same_but_trans _ m1); [by eapply same_but_le; [| |exact S1]; lia|eapply same_but_le; [| |exact H2]; lia].
Qed.

Lemma chars_filled m m' p n (c : Z) : filled m m' p (Z.of_nat n) c -> s8 c = c -> chars m' p (repeat c n).
Proof.
  intros Hf Hc. assert (forall k q, p <= q -> q + Z.of_nat k <= p + Z.of_nat n -> chars m' q (repeat c k)) as H.
  { induction k as [|k IH]; intros q Hq Hk; cbn [repeat chars]; [done|]. split; [|apply IH; lia].
    rewrite ldc_ld8, Hf, decide_True by lia. by rewrite s8_u8. }
  apply H; lia.
Qed.

Lemma filled_same m m' p (n c lo hi : Z) : filled m m' p n c -> lo <= p -> p + n <= hi -> same_but m m' lo hi.
Proof. intros Hf Hl Hh q Hq. rewrite !ldc_ld8, Hf, decide_False by lia. done. Qed.

Lemma reverse_and_pad_spec m p ds (minlen : Z) :
  chars m p ds ->
  let k := Z.to_nat (minlen - Z.of_nat (length ds)) in
  let '(m', len) := _reverse_and_pad m p (p + Z.of_nat (length ds)) minlen in
  len = Z.of_nat (length ds + k) /\ chars m' p (rev (ds ++ repeat 48 k) ++ [0]) /\
  same_but m m' p (p + Z.of_nat (length ds + k) + 1).
Proof.
  intros Hd. unfold _reverse_and_pad. replace (p + Z.of_nat (length ds) - p) with (Z.of_nat (length ds)) by lia.
  set (k := Z.to_nat (minlen - Z.of_nat (length ds))). cbv zeta.
  pose proof (set_bytes_filled k m (p + Z.of_nat (length ds)) 48) as Hf. set (m1 := set_bytes k m _ 48) in *.
  set (e := p + Z.of_nat (length ds) + Z.of_nat k). set (m2 := st8 m1 e 0).
  assert (same_but m m1 (p + Z.of_nat (length ds)) e) as S1 by (eapply filled_same; [exact Hf|lia|unfold e; lia]).
  assert (chars m1 p (ds ++ repeat 48 k)) as C1.
  { apply chars_app. split; [by eapply chars_out; [exact S1|left; lia|]|]. by eapply chars_filled. }
  assert (length (ds ++ repeat 48%Z k) = length ds + k)%nat as El by (by rewrite length_app, repeat_length).
  assert (chars m2 p (ds ++ repeat 48 k)) as C2.
  { apply (chars_agree m1); [|done]. intros q Hq. rewrite El in Hq. unfold m2, e. by rewrite ldc_st8, decide_False by lia. }
  destruct (reverse_loop_spec (Z.to_nat (e - p)) m2 p (ds ++ repeat 48 k)) as [H1 H2]; [rewrite El; unfold e; lia|done|].
  rewrite El in H1, H2. replace (p + Z.of_nat (length ds + k) - 1) with (e - 1) in H1, H2 by (unfold e; lia).
  split; [unfold e; lia|]. split.
  - apply chars_app. split; [done|]. rewrite length_rev, El. cbn [chars]. split; [|done]. rewrite H2 by lia. unfold m2.
    rewrite ldc_st8, decide_True by (unfold e; lia). done.
  - apply (same_but_trans _ m1); [eapply same_but_le; [| |exact S1]; unfold e; lia|].
    apply (same_but_trans _ m2); [apply same_but_st8; unfold e; lia|eapply same_but_le; [| |exact H2]; lia].
Qed.

Lemma val_zeros base k : val base 0 (repeat 0 k) = 0.
Proof. induction k as [|k IH]; [done|]. cbn [repeat]. unfold val in *. cbn [fold_left]. done. Qed.

(** [_to_x] writes the digits of the number, with leading zeros. *)
Lemma to_x_spec m buf (x base minlen : Z) :
  2 <= base <= 36 -> 0 <= x < 2 ^ 32 ->
  exists m' vs, _to_x m buf x base minlen = Some (m', Z.of_nat (length vs)) /\ vs <> [] /\
    Forall (fun v => 0 <= v < base) vs /\ val base 0 vs = x /\
    chars m' buf ((digit_char <$> vs) ++ [0]) /\ same_but m m' buf (buf + Z.of_nat (length vs) + 1).
Proof.
  intros Hb Hx. assert (0 <= x < base ^ Z.of_nat 32) as Hx'.
  { split; [lia|]. pose proof (Z.pow_le_mono_l 2 base 32 ltac:(lia)). simpl Z.of_nat. lia. }
  unfold _to_x. destruct (to_x_loop_spec 32 m buf x base Hb Hx' ltac:(lia)) as (m1 & -> & C1 & S1).
  destruct (rdigits_spec 32 x base ltac:(lia) Hx' ltac:(lia)) as (R1 & R2 & R3).
  revert C1 S1 R1 R2 R3. generalize (rdigits 32 x base) as rd. intros rd C1 S1 R1 R2 R3.
  pose proof (reverse_and_pad_spec m1 buf (digit_char <$> rd) minlen C1) as H. rewrite length_fmap in H. cbv zeta in H.
  destruct (_reverse_and_pad m1 buf (buf + Z.of_nat (length rd)) minlen) as [m2 len]. destruct H as (-> & C2 & S2).
  set (k := Z.to_nat (minlen - Z.of_nat (length rd))) in *.
  exists m2, (repeat 0 k ++ rev rd). rewrite length_app, repeat_length, length_rev.
  split_and!.
  - do 2 f_equal. lia.
  - intros E%app_eq_nil. destruct E as [_ E]. apply R3. by rewrite <- (rev_involutive rd), E.
  - apply Forall_app. split; [|by apply Forall_rev].
    apply Forall_forall. intros v Hv%list_elem_of_In%repeat_spec. lia.
  - by rewrite val_app, val_zeros.
  - rewrite fmap_app. replace (digit_char <$> repeat 0 k) with (repeat 48 k).
    2:{ clear. induction k as [|k IH]; [done|]. cbn [repeat fmap list_fmap]. by rewrite IH. }
    rewrite rev_app_distr, rev_repeat in C2. unfold fmap in *. by rewrite map_rev.
  - apply (same_but_trans _ m1); [eapply same_but_le; [| |exact S1]; lia|eapply same_but_le; [| |exact S2]; lia].
Qed.

Lemma digit_chars base vs : 2 <= base <= 36 -> Forall (fun v => 0 <= v < base) vs -> digits base (digit_char <$> vs) vs.
Proof.
  intros Hb. induction 1 as [|v vs Hv _ IH]; constructor; [|exact IH]. split; [|done]. apply digit_char_value. lia.
Qed.

(** ** What is printed is read back *)

Lemma ends_zero base : ends base 0.
Proof. done. Qed.

Lemma u32_magnitude (value : Z) :
  - 2 ^ 31 <= value < 0 -> u32 (if negb (u32 value =? 0x80000000) then s32 (- value) else value) = - value.
Proof.
  intros Hv. destruct (Z.eqb_spec (u32 value) 0x80000000) as [E|E]; simpl.
  - rewrite E. unfold u32 in E. rewrite <- (Z.mod_add _ 1), Z.mod_small in E; lia.
  - assert (value <> - 2 ^ 31) as Hne by (intros ->; by apply E). rewrite s32_small, u32_small; lia.
Qed.

(** The number that follows the spaces and the sign. *)
Lemma printed_decimal m buf sp (neg : bool) sg (x precision : Z) :
  Forall (fun c => isspace c = true) sp -> sign_of neg sg -> 0 <= x <= limit neg -> chars m buf (sp ++ sg) ->
  exists m' len, _to_udec m (buf + Z.of_nat (length (sp ++ sg))) x precision = Some (m', len) /\
    forall fuel, Z.of_nat (length (sp ++ sg)) + len < Z.of_nat fuel ->
    strtol fuel m' buf 10 = Some (if neg then - x else x, buf + Z.of_nat (length (sp ++ sg)) + len, false).
Proof.
  intros Hsp Hsg Hx Hm. assert (limit neg <= 2 ^ 31) as Hl by (by destruct neg).
  destruct (to_x_spec m (buf + Z.of_nat (length (sp ++ sg))) x 10 precision) as (m' & vs & E & Hne & Hv & Hval & Hc & Hs); [lia..|].
  exists m', (Z.of_nat (length vs)). split; [exact E|]. intros fuel Hf. rewrite length_app in Hf.
  rewrite (strtol_spec fuel m' buf 10 sp neg sg (digit_char <$> vs) vs 0); try done.
  - rewrite Hval. cbv zeta. destruct (Z.leb_spec x (limit neg)); [|lia]. rewrite !length_app, length_fmap. do 3 f_equal. lia.
  - by apply digit_chars.
  - by destruct vs.
  - rewrite app_assoc. apply chars_app. split; [|done]. eapply chars_out; [exact Hs|left; lia|done].
  - rewrite !length_app, length_fmap. lia.
Qed.

Lemma decimal_parses_back m buf (value : Z) (fplus fspace : bool) (precision : Z) :
  - 2 ^ 31 <= value < 2 ^ 31 ->
  exists m' len, _to_dec m buf value fplus fspace precision = Some (m', len) /\
    forall fuel, len < Z.of_nat fuel -> strtol fuel m' buf 10 = Some (value, buf + len, false).
Proof.
  intros Hv.
  assert (forall m1 sp (neg : bool) sg x, Forall (fun c => isspace c = true) sp -> sign_of neg sg -> 0 <= x <= limit neg ->
    (if neg then - x else x) = value -> chars m1 buf (sp ++ sg) ->
    exists m' len, match _to_udec m1 (buf + Z.of_nat (length (sp ++ sg))) x precision with
      | Some (m, len) => Some (m, buf + Z.of_nat (length (sp ++ sg)) + len - buf)
      | None => None
      end = Some (m', len) /\
      forall fuel, len < Z.of_nat fuel -> strtol fuel m' buf 10 = Some (value, buf + len, false)) as H.
  { intros m1 sp neg sg x Hsp Hsg Hx Ev Hm. destruct (printed_decimal m1 buf sp neg sg x precision Hsp Hsg Hx Hm) as (m' & len & -> & Hp).
    eexists _, _. split; [done|]. intros fuel Hf. rewrite Hp by lia. rewrite Ev. do 3 f_equal. lia. }
  unfold _to_dec. destruct (Z.ltb_spec value 0) as [Hn|Hn].
  { rewrite u32_magnitude by lia. apply (H _ [] true [45]); [by apply Forall_nil|done|change (limit true) with (2 ^ 31); lia|lia|].
    cbn [app chars]. by rewrite ldc_st8, decide_True. }
  destruct fplus; [|destruct fspace]; rewrite u32_small by lia.
  - apply (H _ [] false [43]); [by apply Forall_nil|by left|change (limit false) with (2 ^ 31 - 1); lia|done|]. cbn [app chars]. by rewrite ldc_st8, decide_True.
  - apply (H _ [32] false []); [by repeat constructor|by right|change (limit false) with (2 ^ 31 - 1); lia|done|]. cbn [app chars]. by rewrite ldc_st8, decide_True.
  - specialize (H m [] false [] value). cbn [app length] in H. rewrite !Z.add_0_r in H.
    apply H; [by apply Forall_nil|by right|change (limit false) with (2 ^ 31 - 1); lia|done|done].
Qed.

Definition upper_char c : Z := if (c >=? 97) && (c <=? 122) then c + (65 - 97) else c.

Lemma uc_spec fuel m buf l :
  chars m buf (l ++ [0]) -> Forall (fun c => c <> 0) l -> (length l < fuel)%nat ->
  exists m', _uc fuel m buf = Some m' /\ chars m' buf ((upper_char <$> l) ++ [0]) /\
    same_but m m' buf (buf + Z.of_nat (length l)).
Proof.
  intros Hm Hn. revert fuel m buf Hm. induction Hn as [|c l Hc _ IH]; intros [|fuel] m buf Hm Hf; cbn [length] in Hf; try lia;
    cbn [_uc app chars fmap list_fmap] in *; destruct Hm as [Hx Hm].
  - rewrite Hx. simpl. eexists. split; [done|]. by split; [split|].
  - rewrite Hx. destruct (Z.eqb_spec c 0) as [|_]; [done|]. fold (upper_char c).
    set (m1 := if (c >=? 97) && (c <=? 122) then st8 m buf (c + (65 - 97)) else m).
    assert (ldc m1 buf = upper_char c /\ same_but m m1 buf (buf + 1)) as [E1 S1].
    { unfold m1, upper_char. rewrite <- Hx in *. destruct (Z.geb_spec (ldc m buf) 97), (Z.leb_spec (ldc m buf) 122); simpl; try done.
      split; [|apply same_but_st8; lia]. rewrite ldc_st8, decide_True by done. apply s8_small.
      pose proof (s8_ldc m buf). lia. }
    destruct (IH fuel m1 (buf + 1)) as (m' & -> & C1 & S2); [by eapply chars_out; [exact S1|right; lia|]|lia|].
    exists m'. split; [done|]. split.
    + split; [|done]. rewrite S2 by lia. done.
    + apply (same_but_trans _ m1); [eapply same_but_le; [| |exact S1]|eapply same_but_le; [| |exact S2]]; cbn [length]; lia.
Qed.

Lemma upper_digit_chars vs : Forall (fun v => 0 <= v < 16) vs -> digits 16 (upper_char <$> (digit_char <$> vs)) vs.
Proof.
  assert (forallb (fun d => bool_decide (digit_value (upper_char (digit_char d)) = Some d)) (seqZ 0 16) = true) as H
    by (vm_compute; reflexivity). rewrite forallb_forall in H.
  induction 1 as [|v vs Hv _ IH]; constructor; [|exact IH]. split; [|done].
  eapply bool_decide_eq_true_1, H, list_elem_of_In, elem_of_seqZ. lia.
Qed.

(** Reading a number of a known base: its digits are at [p]. *)
Lemma strtoul_prefixed fuel m buf (px : list Z) base0 base p ds vs :
  px = [] /\ base0 = base /\ base <> 16 \/ (px = [48; 120] \/ px = [48; 88]) /\ base0 = 0 /\ base = 16 ->
  2 <= base <= 36 -> digits base ds vs -> ds <> [] -> chars m buf (px ++ ds ++ [0]) ->
  p = buf + Z.of_nat (length px) -> (length ds + 2 < fuel)%nat -> val base 0 vs < 2 ^ 32 ->
  strtoul fuel m buf base0 = Some (val base 0 vs, p + Z.of_nat (length ds), false).
Proof.
  intros Hpx Hb Hd Hne Hm -> Hf Hv. pose proof Hm as Hm0. apply chars_app in Hm as [Hm1 Hm2].
  destruct Hpx as [(-> & -> & H16) | (Hpx & -> & ->)].
  - cbn [length] in *. rewrite Z.add_0_r in *. destruct (parse_sign_spec m buf false [] ds vs 0 base) as [Hns Hps]; [by right|done..|].
    cbn [length] in Hps. rewrite Z.add_0_r in Hps.
    apply (strtoul_at fuel m buf base (ldc m buf) (buf + 1) (ldc m buf) (buf + 1) base buf ds vs 0); try done; [|by apply (parse_base_plain m buf ds vs 0)|lia].
    rewrite (skip_space_spec fuel m buf [] (ldc m buf)); [|by apply Forall_nil|done|by cbn|simpl; lia].
    do 2 f_equal. cbn [length]. lia.
  - assert (ldc m buf = 48 /\ (ldc m (buf + 1) = 120 \/ ldc m (buf + 1) = 88) /\ length px = 2%nat) as (H1 & H2 & El).
    { destruct Hpx as [-> | ->]; cbn [chars] in Hm1; naive_solver. }
    rewrite El in *. change (Z.of_nat 2) with 2 in *.
    eapply (strtoul_at fuel m buf 0 48 (buf + 1) 48 (buf + 1) 16 (buf + 2) ds vs 0); try done; [| |lia].
    + rewrite (skip_space_spec fuel m buf [] 48); [|by apply Forall_nil|done|by cbn|simpl; lia].
      do 2 f_equal. cbn [length]. lia.
    + unfold parse_base. cbn. replace (buf + 1 + 1) with (buf + 2) by lia. replace (buf + 1 + 2) with (buf + 2 + 1) by lia.
      destruct H2 as [-> | ->]; done.
Qed.

(** Base 0 and a leading zero: an octal number. *)
Lemma strtoul_octal fuel m buf ds vs :
  digits 8 ds vs -> chars m buf ((48 :: ds) ++ [0]) -> (length ds + 1 < fuel)%nat -> val 8 0 vs < 2 ^ 32 ->
  strtoul fuel m buf 0 = Some (val 8 0 vs, buf + Z.of_nat (S (length ds)), false).
Proof.
  intros Hd Hm Hf Hv. assert (digits 8 (48 :: ds) (0 :: vs)) as Hd' by (constructor; [split; [done|lia]|done]).
  pose proof Hm as [H48 Hm1].
  apply (strtoul_at fuel m buf 0 48 (buf + 1) 48 (buf + 1) 8 buf (48 :: ds) (0 :: vs) 0); try done; try (cbn [length]; lia).
  - rewrite (skip_space_spec fuel m buf [] 48); [|by apply Forall_nil|done|by split|simpl; lia].
    do 2 f_equal. cbn [length]. lia.
  - rewrite H48. unfold parse_base. cbn [Z.eqb Pos.eqb orb andb].
    assert (ldc m (buf + 1) <> 120 /\ ldc m (buf + 1) <> 88) as [H1 H2].
    { destruct Hd as [|c v ds vs [Hcv Hr] Hd]; [destruct Hm1 as [-> _]; done|].
      destruct Hm1 as [<- _]. apply (digit_char_facts m (buf + 1) v Hcv). lia. }
    destruct (Z.eqb_spec (ldc m (buf + 1)) 120); [done|]. by destruct (Z.eqb_spec (ldc m (buf + 1)) 88).
Qed.

Lemma hex_chars m buf (x precision : Z) (upper : bool) :
  0 <= x < 2 ^ 32 ->
  exists len, forall fuel, len < Z.of_nat fuel ->
    exists m', _to_hex fuel m buf x true precision upper = Some (m', len) /\ strtoul fuel m' buf 0 = Some (x, buf + len, false).
Proof.
  intros Hx. unfold _to_hex. set (m1 := st8 (st8 m buf 48) (buf + 1) 120).
  assert (chars m1 buf [48; 120]) as C0.
  { cbn [chars]. unfold m1. rewrite !ldc_st8, (decide_False (P := buf = buf + 1)), !decide_True by lia. done. }
  destruct (to_x_spec m1 (buf + 2) x 16 precision) as (m2 & vs & -> & Hne & Hv & Hval & Hc & Hs); [lia..|].
  exists (Z.of_nat (length vs) + (buf + 2 - buf)). intros fuel Hf.
  assert (chars m2 buf ([48; 120] ++ (digit_char <$> vs) ++ [0])) as C1.
  { apply chars_app. split; [eapply chars_out; [exact Hs|left; cbn [length]; lia|done]|done]. }
  assert (forall px ds m', (px = [48; 120] \/ px = [48; 88]) -> digits 16 ds vs -> length ds = length vs -> chars m' buf (px ++ ds ++ [0]) ->
    strtoul fuel m' buf 0 = Some (x, buf + (Z.of_nat (length vs) + (buf + 2 - buf)), false)) as Hp.
  { intros px ds m' Hpx Hd El Hm. assert (length px = 2%nat) as E2 by (destruct Hpx; by subst).
    rewrite (strtoul_prefixed fuel m' buf px 0 16 (buf + 2) ds vs); [rewrite Hval; do 3 f_equal; lia|by right|lia|done| |done|lia|lia|lia].
    intros ->. apply Hne, length_zero_iff_nil. by rewrite <- El. }
  destruct upper.
  - destruct (uc_spec fuel m2 buf ([48; 120] ++ (digit_char <$> vs))) as (m3 & -> & C2 & _).
    + by rewrite <- app_assoc.
    + apply Forall_app. split; [constructor; [done|constructor; [done|by apply Forall_nil]]|].
      apply Forall_fmap. eapply Forall_impl; [exact Hv|]. intros v Hr. cbv beta in Hr. apply digit_char_value. lia.
    + rewrite length_app, length_fmap. cbn [length]. lia.
    + exists m3. split; [done|]. rewrite fmap_app, <- app_assoc in C2.
      apply (Hp [48; 88] (upper_char <$> (digit_char <$> vs))); [by right|by apply upper_digit_chars|by rewrite !length_fmap|exact C2].
  - exists m2. split; [done|]. apply (Hp [48; 120] (digit_char <$> vs)); [by left|by apply digit_chars|by rewrite length_fmap|exact C1].
Qed.

Lemma octal_chars m buf (x precision : Z) :
  0 <= x < 2 ^ 32 ->
  exists m' len, _to_octal m buf x true precision = Some (m', len) /\
    forall fuel, len < Z.of_nat fuel -> strtoul fuel m' buf 0 = Some (x, buf + len, false).
Proof.
  intros Hx. unfold _to_octal. set (m1 := st8 m buf 48). destruct (Z.eqb_spec x 0) as [->|Hnz].
  - eexists _, _. split; [done|]. intros fuel Hf. rewrite (strtoul_octal fuel _ buf [] []); [done|constructor| |simpl; lia|simpl; lia].
    cbn [app chars]. unfold m1. rewrite !ldc_st8, (decide_False (P := buf = buf + 1)), !decide_True by lia. done.
  - destruct (to_x_spec m1 (buf + 1) x 8 precision) as (m2 & vs & -> & Hne & Hv & Hval & Hc & Hs); [lia..|].
    eexists _, _. split; [done|]. intros fuel Hf.
    rewrite (strtoul_octal fuel m2 buf (digit_char <$> vs) vs).
    + rewrite Hval, length_fmap. do 3 f_equal. lia.
    + by apply digit_chars.
    + split; [|done]. rewrite Hs by lia. unfold m1. by rewrite ldc_st8, decide_True.
    + rewrite length_fmap. lia.
    + lia.
Qed.

(** What [_to_dec] prints for a number, with any of the flags and any
    precision, [strtol] in base 10 reads back as the same number, up to the
    end of what was printed: for every 32-bit integer, [INT_MIN] included. *)
Theorem decimal_roundtrip m buf (value : Z) (fplus fspace : bool) (precision : Z) :
  - 2 ^ 31 <= value < 2 ^ 31 ->
  exists m' len, _to_dec m buf value fplus fspace precision = Some (m', len) /\
    forall fuel, len < Z.of_nat fuel -> strtol fuel m' buf 10 = Some (value, buf + len, false).
Proof. apply decimal_parses_back. Qed.

(** What the printers of unsigned numbers write in the alternative forms
    ([0x] and lower or upper case digits, or a leading zero), [strtoul] reads
    back when it finds out the base itself. *)
Theorem unsigned_roundtrip m buf (x precision : Z) (upper : bool) :
  0 <= x < 2 ^ 32 ->
  (exists len, forall fuel, len < Z.of_nat fuel ->
    exists m', _to_hex fuel m buf x true precision upper = Some (m', len) /\ strtoul fuel m' buf 0 = Some (x, buf + len, false)) /\
  (exists m' len, _to_octal m buf x true precision = Some (m', len) /\
    forall fuel, len < Z.of_nat fuel -> strtoul fuel m' buf 0 = Some (x, buf + len, false)).
Proof. intros Hx. split; [by apply hex_chars|by apply octal_chars]. Qed.

(** The number -2147483648, read from " -2147483648". *)
Lemma decimal_roundtrip_witness :
  exists m' len, _to_dec ∅ 100 (- 2 ^ 31) true false 12 = Some (m', len) /\ strtol 50 m' 100 10 = Some (- 2 ^ 31, 100 + len, false).
Proof.
  destruct (decimal_roundtrip ∅ 100 (- 2 ^ 31) true false 12) as (m' & len & H1 & H2); [lia|].
  exists m', len. split; [exact H1|]. apply H2.
  assert (match _to_dec ∅ 100 (- 2 ^ 31) true false 12 with Some (_, len) => len =? 13 | None => false end = true) as E by (vm_compute; reflexivity).
  rewrite H1 in E. apply Z.eqb_eq in E. rewrite E. simpl. lia.
Defined.

Lemma unsigned_roundtrip_witness :
  exists m' len, _to_octal ∅ 100 511 true 0 = Some (m', len) /\ strtoul 50 m' 100 0 = Some (511, 100 + len, false).
Proof.
  destruct (unsigned_roundtrip ∅ 100 511 0 true) as [_ (m' & len & H1 & H2)]; [lia|].
  exists m', len. split; [exact H1|]. apply H2.
  assert (match _to_octal ∅ 100 511 true 0 with Some (_, len) => len =? 4 | None => false end = true) as E by (vm_compute; reflexivity).
  rewrite H1 in E. apply Z.eqb_eq in E. rewrite E. simpl. lia.
Defined.

(** " +2147483648": one more than [LONG_MAX]. *)
Definition text : memory := fst (fold_left (fun a c => (st8 (fst a) (snd a) c, snd a + 1)) [32; 43; 50; 49; 52; 55; 52; 56; 51; 54; 52; 56; 0] (∅ : memory, 0)).

Lemma strtol_value_witness : strtol 50 text 0 10 = Some (LONG_MAX, 12, true).
Proof.
  rewrite (strtol_value 50 text 0 10 [32] false [43] [50; 49; 52; 55; 52; 56; 51; 54; 52; 56] [2; 1; 4; 7; 4; 8; 3; 6; 4; 8] 0).
  - vm_compute. reflexivity.
  - lia.
  - constructor; [vm_compute; reflexivity|apply Forall_nil; exact I].
  - left. reflexivity.
  - repeat (constructor; [split; [vm_compute; reflexivity|lia]|]). constructor.
  - discriminate.
  - exact I.
  - lia.
  - vm_compute. repeat split.
  - simpl. lia.
Defined.

End Conv.
