(* ===== verification/Printk.v ===== *)
(** * Low-level formatted output (misc/printk.c)

    [_vprintk] sends characters to an output function that has a context of its own;
    [printk] counts them on their way to the console, [snprintk] stores them in a
    buffer.  The format string is given by its characters, arguments by their
    values; an argument of the wrong kind, or none, is undefined behaviour and ends
    in [None].  [long] has 32 bits. *)

From S2P Require Import Prelude LibC Conv.
Import LibC Conv.

Local Open Scope Z_scope.

Module Printk.

Inductive pad_type := PAD_NONE | PAD_ZERO_BEFORE | PAD_SPACE_BEFORE | PAD_SPACE_AFTER.

#[export] Instance pad_type_eq_dec : EqDecision pad_type.
Proof. solve_decision. Defined.

(** What [va_arg] takes: a number, or a pointer to a string. *)
Inductive va := Num (z : Z) | Str (p : Z).

(** ** The interpreter *)

Section Out.
Context {C : Type}.
(** [out(c, ctx)]; it may store in memory *)
Variable out : Z -> memory * C -> memory * C.
Implicit Types (st : memory * C) (padding : pad_type) (min_width : Z).

(** [while (remaining-- > 0) out(' ', ctx)] *)
Fixpoint spaces (n : nat) st : memory * C :=
  match n with
  | O => st
  | S n => spaces n (out 32 st)
  end.

(** the loop of [_printk_hex_ulong]: [size] goes down to 0 *)
Fixpoint hex_loop (size : nat) (num : Z) padding min_width (found_largest_digit : bool) (remaining digits : Z) st
    : memory * C * Z :=
  match size with
  | O => (st, digits)
  | S size' =>
      let nibble := Z.land (Z.shiftr num (4 * Z.of_nat size')) 0xf in
      if negb (nibble =? 0) || found_largest_digit || (size =? 1)%nat then
        hex_loop size' num padding min_width true remaining (digits + 1)
          (out (nibble + (if nibble >? 9 then 87 else 48)) st)
      else
        let st := if remaining <=? min_width then
                    match padding with
                    | PAD_ZERO_BEFORE => out 48 st
                    | PAD_SPACE_BEFORE => out 32 st
                    | _ => st
                    end
                  else st in
        hex_loop size' num padding min_width found_largest_digit (remaining - 1) digits st
  end.

Definition _printk_hex_ulong (num : Z) padding min_width st : memory * C :=
  let '(st, digits) := hex_loop 8 num padding min_width false 8 0 st in
  if decide (padding = PAD_SPACE_AFTER) then spaces (Z.to_nat (min_width * 2 - digits)) st else st.

(** the loop of [_printk_dec_ulong]: at most [n] turns until [pos] is below 9; the
    remainder and the number of digits *)
Fixpoint dec_loop (n : nat) (pos remainder : Z) padding min_width (found_largest_digit : bool) (remaining digits : Z) st
    : memory * C * Z * Z :=
  match n with
  | O => (st, remainder, digits)
  | S n =>
      if pos >=? 9 then
        let '(found_largest_digit, digits, st) :=
          if found_largest_digit || (remainder >? pos) then (true, digits + 1, out (remainder / (pos + 1) + 48) st)
          else if (remaining <=? min_width) && negb (bool_decide (padding = PAD_SPACE_AFTER)) then
            (found_largest_digit, digits + 1, out (if decide (padding = PAD_ZERO_BEFORE) then 48 else 32) st)
          else (found_largest_digit, digits, st) in
        dec_loop n (pos / 10) (remainder mod (pos + 1)) padding min_width found_largest_digit (remaining - 1) digits st
      else (st, remainder, digits)
  end.

Definition _printk_dec_ulong (num : Z) padding min_width st : memory * C :=
  let min_width := if min_width <=? 0 then 1 else min_width in
  let '(st, remainder, digits) := dec_loop 10 999999999 num padding min_width false 10 1 st in
  let st := out (remainder + 48) st in
  if decide (padding = PAD_SPACE_AFTER) then spaces (Z.to_nat (min_width - digits)) st else st.

(** [while ( *s) out( *s++)]: the end of the string, [None] if there is none within
    [fuel] characters *)
Fixpoint out_string (fuel : nat) (s : Z) st : option (memory * C * Z) :=
  match fuel with
  | O => None
  | S fuel => if ldc (fst st) s =? 0 then Some (st, s) else out_string fuel (s + 1) (out (ldc (fst st) s) st)
  end.

(** A conversion that ends a directive: the argument it takes is the first one. *)
Definition convert_int (signed : bool) (long_ctr : Z) padding min_width (a : Z) st : memory * C :=
  if signed then
    let d := if long_ctr <? 2 then s32 a else s32 (s64 a) in
    if d <? 0 then _printk_dec_ulong (u32 (s32 (- d))) padding (min_width - 1) (out 45 st)
    else _printk_dec_ulong (u32 d) padding min_width st
  else _printk_dec_ulong (if long_ctr <? 2 then u32 a else u32 (u64 a)) padding min_width st.

Definition convert_hex (long_ctr : Z) padding min_width (a : Z) st : memory * C :=
  _printk_hex_ulong (if long_ctr <? 2 then u32 a else u32 (u64 a)) padding min_width st.

Definition convert_string (fuel : nat) padding min_width (s : Z) st : option (memory * C) :=
  match out_string fuel s st with
  | None => None
  | Some (st, e) =>
      Some (if decide (padding = PAD_SPACE_AFTER) then spaces (Z.to_nat (min_width - (e - s))) st else st)
  end.

(** The loop over the format; [fuel] bounds the strings. *)
Fixpoint vprintk_loop (fuel : nat) (fmt : list Z) (ap : list va) (might_format : bool) padding min_width (long_ctr : Z) st
    : option (memory * C) :=
  match fmt with
  | [] => Some st
  | c :: fmt =>
      let still ap padding min_width long_ctr := vprintk_loop fuel fmt ap true padding min_width long_ctr st in
      let done ap st := vprintk_loop fuel fmt ap false padding min_width long_ctr st in
      if negb might_format then
        if negb (c =? 37) then done ap (out c st)
        else still ap PAD_NONE (-1) 0
      else if c =? 45 then still ap PAD_SPACE_AFTER min_width long_ctr
      else if (c =? 48) && (min_width <? 0) && bool_decide (padding = PAD_NONE) then still ap PAD_ZERO_BEFORE min_width long_ctr
      else if (48 <=? c) && (c <=? 57) then
        still ap (if decide (padding = PAD_NONE) then PAD_SPACE_BEFORE else padding)
          (if min_width <? 0 then c - 48 else 10 * min_width + c - 48) long_ctr
      else if c =? 108 then still ap padding min_width (long_ctr + 1)
      else if (c =? 122) || (c =? 104) then still ap padding min_width long_ctr
      else if (c =? 100) || (c =? 105) then
        match ap with Num a :: ap => done ap (convert_int true long_ctr padding min_width a st) | _ => None end
      else if c =? 117 then
        match ap with Num a :: ap => done ap (convert_int false long_ctr padding min_width a st) | _ => None end
      else if c =? 112 then
        match ap with Num a :: ap => done ap (convert_hex long_ctr PAD_ZERO_BEFORE 8 a (out 120 (out 48 st))) | _ => None end
      else if (c =? 120) || (c =? 88) then
        match ap with Num a :: ap => done ap (convert_hex long_ctr padding min_width a st) | _ => None end
      else if c =? 115 then
        match ap with
        | Str p :: ap => match convert_string fuel padding min_width p st with Some st => done ap st | None => None end
        | _ => None
        end
      else if c =? 99 then match ap with Num a :: ap => done ap (out (s32 a) st) | _ => None end
      else if c =? 37 then done ap (out 37 st)
      else done ap (out c (out 37 st))
  end.

Definition _vprintk (fuel : nat) (fmt : list Z) (ap : list va) st : option (memory * C) :=
  vprintk_loop fuel fmt ap false PAD_NONE (-1) 0 st.

End Out.

(** ** Output to the console

    [ctx->count] and what has been given to [_char_out]. *)

Definition char_out (c : Z) (st : memory * (Z * list Z)) : memory * (Z * list Z) :=
  let '(m, (count, console)) := st in (m, (s32 (count + 1), console ++ [c])).

(** the number of characters, and what is on the console *)
Definition vprintk (fuel : nat) m (console : list Z) fmt ap : option (Z * list Z) := option_map snd (_vprintk char_out fuel fmt ap (m, (0, console))).

Definition printk (fuel : nat) m console fmt ap : option (Z * list Z) := vprintk fuel m console fmt ap.

Definition _impl_k_str_out m (console : list Z) (c : Z) (n : nat) : list Z := console ++ ((fun i => ldc m (c + i)) <$> seqZ 0 (Z.of_nat n)).

(** ** Output to a string *)

(** [str] 0 is [NULL] *)
Record str_context := mk_ctx { str : Z; max : Z; count : Z }.

Definition str_out (c : Z) (st : memory * str_context) : memory * str_context :=
  let '(m, ctx) := st in
  let counted := mk_ctx (str ctx) (max ctx) (count ctx + 1) in
  if (str ctx =? 0) || (count ctx >=? max ctx) then (m, counted)
  else if count ctx =? max ctx - 1 then (st8 m (str ctx + count ctx) 0, counted)
  else (st8 m (str ctx + count ctx) c, counted).

Definition vsnprintk (fuel : nat) m (buf size : Z) fmt ap : option (memory * Z) :=
  match _vprintk str_out fuel fmt ap (m, mk_ctx buf (s32 size) 0) with
  | None => None
  | Some (m, ctx) => Some (if count ctx <? max ctx then st8 m (buf + count ctx) 0 else m, count ctx)
  end.

Definition snprintk (fuel : nat) m (buf size : Z) fmt ap : option (memory * Z) := vsnprintk fuel m buf size fmt ap.

(** ** Numbers *)

(** The [i + 1] digits of a number, leading zeros included. *)
Fixpoint fixed (base : Z) (i : nat) (r : Z) : list Z :=
  match i with
  | O => [r]
  | S j => r / base ^ Z.of_nat i :: fixed base j (r mod base ^ Z.of_nat i)
  end.

(** without the leading zeros *)
Fixpoint strip (l : list Z) : list Z :=
  match l with
  | 0 :: l' => match l' with [] => l | _ => strip l' end
  | _ => l
  end.

Definition dec_digits (n : Z) : list Z := strip (fixed 10 9 n).
Definition hex_digits (n : Z) : list Z := strip (fixed 16 7 n).

(** [vs] are the digits of [n]: all below the base, of value [n], and no leading
    zero. *)
Record numeral (base n : Z) (vs : list Z) : Prop := {
  nu_digits : Forall (fun v => 0 <= v < base) vs;
  nu_value : val base 0 vs = n;
  nu_leading : head vs = Some 0 -> vs = [0];
  nu_some : vs <> []
}.

Lemma length_fixed base i : forall r, length (fixed base i r) = S i.
Proof. induction i as [|i IH]; intros r; [done|]. cbn [fixed length]. by rewrite IH. Qed.

Lemma fixed_spec base i : forall r (acc : Z), 2 <= base -> 0 <= r < base ^ Z.of_nat (S i) ->
  Forall (fun v => 0 <= v < base) (fixed base i r) /\ val base acc (fixed base i r) = acc * base ^ Z.of_nat (S i) + r.
Proof.
  induction i as [|i IH]; intros r acc Hb Hr.
  - cbn [fixed]. rewrite Z.pow_1_r in *. split; [by apply Forall_singleton|done].
  - cbn [fixed]. set (q := base ^ Z.of_nat (S i)). assert (0 < q) as Hq by (apply Z.pow_pos_nonneg; lia).
    assert (base ^ Z.of_nat (S (S i)) = base * q) as E by (unfold q; rewrite (Nat2Z.inj_succ (S i)), Z.pow_succ_r; lia).
    rewrite E in *. pose proof (Z.mod_pos_bound r q Hq). pose proof (Z.div_mod r q ltac:(lia)) as Hd.
    destruct (IH (r mod q) (acc * base + r / q) Hb ltac:(lia)) as [H1 H2]. split.
    + constructor; [|done]. split; [apply Z.div_pos; lia|apply Z.div_lt_upper_bound; lia].
    + unfold val in *. cbn [fold_left]. rewrite H2. fold q. nia.
Qed.

Lemma strip_cons v l : strip (v :: l) = if decide (v = 0 /\ l <> []) then strip l else v :: l.
Proof. destruct v; cbn [strip]; [|by rewrite decide_False by naive_solver..]. destruct l; [by rewrite decide_False by naive_solver|by rewrite decide_True]. Qed.

Lemma strip_numeral base n l : Forall (fun v => 0 <= v < base) l -> val base 0 l = n -> l <> [] -> numeral base n (strip l).
Proof.
  intros Hf Hv Hne. induction l as [|v l IH]; [done|]. rewrite strip_cons. case_decide as Hc.
  - destruct Hc as [-> Hl]. apply IH; [by inversion Hf|exact Hv|done].
  - split; [done|done| |done]. cbn [head]. intros [= ->]. destruct l; [done|]. exfalso. by apply Hc.
Qed.

(** The numbers that are printed are those of the argument. *)
Lemma dec_digits_numeral n : 0 <= n < 2 ^ 32 -> numeral 10 n (dec_digits n).
Proof. intros Hn. destruct (fixed_spec 10 9 n 0) as [H1 H2]; [lia|lia|]. by apply strip_numeral. Qed.

Lemma hex_digits_numeral n : 0 <= n < 2 ^ 32 -> numeral 16 n (hex_digits n).
Proof. intros Hn. destruct (fixed_spec 16 7 n 0) as [H1 H2]; [lia|lia|]. by apply strip_numeral. Qed.

(** What the two routines for numbers print.  They are not what a format should mean:
    padding in front stops at ten characters for a decimal number and at eight for a
    hexadecimal one, and a hexadecimal number is left-justified to twice the width.
    [printf_text] below is the meaning. *)
Definition dec_text (padding : pad_type) (min_width n : Z) : list Z :=
  let ds := digit_char <$> dec_digits n in
  let w := Z.max min_width 1 in
  let missing (w : Z) := Z.to_nat (w - Z.of_nat (length ds)) in
  match padding with
  | PAD_SPACE_AFTER => ds ++ repeat 32 (missing w)
  | PAD_ZERO_BEFORE => repeat 48 (missing (w `min` 10)) ++ ds
  | _ => repeat 32 (missing (w `min` 10)) ++ ds
  end.

Definition hex_text (padding : pad_type) (min_width n : Z) : list Z :=
  let ds := digit_char <$> hex_digits n in
  let missing (w : Z) := Z.to_nat (w - Z.of_nat (length ds)) in
  match padding with
  | PAD_SPACE_AFTER => ds ++ repeat 32 (missing (min_width * 2))
  | PAD_ZERO_BEFORE => repeat 48 (missing (min_width `min` 8)) ++ ds
  | PAD_SPACE_BEFORE => repeat 32 (missing (min_width `min` 8)) ++ ds
  | PAD_NONE => ds
  end.

Section Numbers.
Context {C : Type} (out : Z -> memory * C -> memory * C).
Implicit Types (st : memory * C) (padding : pad_type).

(** The characters [l] go out, one after the other. *)
Definition outs (l : list Z) st : memory * C := fold_left (fun st c => out c st) l st.

Lemma outs_app l l' st : outs (l ++ l') st = outs l' (outs l st).
Proof. apply fold_left_app. Qed.

Lemma spaces_outs n : forall st, spaces out n st = outs (repeat 32 n) st.
Proof. induction n as [|n IH]; intros st; [done|]. cbn [spaces repeat]. by rewrite IH. Qed.

Lemma pos_div (i : nat) : (10 ^ Z.of_nat (S i) - 1) / 10 = 10 ^ Z.of_nat i - 1.
Proof.
  rewrite Nat2Z.inj_succ, Z.pow_succ_r by lia. set (q := 10 ^ Z.of_nat i).
  replace (10 * q - 1) with (9 + (q - 1) * 10) by lia. rewrite Z.div_add by done. by rewrite Z.div_small.
Qed.

Lemma pow_big (i : nat) : 10 <= 10 ^ Z.of_nat (S i).
Proof. rewrite Nat2Z.inj_succ, Z.pow_succ_r by lia. pose proof (Z.pow_pos_nonneg 10 (Z.of_nat i)). lia. Qed.

(** All digits from [pos] on, and the last one. *)
Definition dec_rest n (pos r : Z) padding (w : Z) (found : bool) (remaining digits : Z) st : memory * C * Z :=
  let '(st, r, digits) := dec_loop out n pos r padding w found remaining digits st in (out (r + 48) st, digits).

Lemma dec_found padding (w : Z) i : forall n r (remaining digits : Z) st, (i < n)%nat ->
  dec_rest n (10 ^ Z.of_nat i - 1) r padding w true remaining digits st =
  (outs ((fun v => v + 48) <$> fixed 10 i r) st, digits + Z.of_nat i).
Proof.
  induction i as [|i IH]; intros [|n] r remaining digits st Hn; try lia; unfold dec_rest; cbn [dec_loop].
  - cbn. by rewrite Z.add_0_r.
  - pose proof (pow_big i). destruct (Z.geb_spec (10 ^ Z.of_nat (S i) - 1) 9) as [_|]; [|lia]. cbn [orb].
    replace (10 ^ Z.of_nat (S i) - 1 + 1) with (10 ^ Z.of_nat (S i)) by lia. rewrite pos_div.
    specialize (IH n (r mod 10 ^ Z.of_nat (S i)) (remaining - 1) (digits + 1) (out (r / 10 ^ Z.of_nat (S i) + 48) st) ltac:(lia)).
    unfold dec_rest in IH. rewrite IH. cbn [fixed]. rewrite fmap_cons. f_equal. lia.
Qed.

(** What a number is padded with in front. *)
Definition dec_pad padding : option Z :=
  match padding with PAD_SPACE_AFTER => None | PAD_ZERO_BEFORE => Some 48 | _ => Some 32 end.

Definition hex_pad padding : option Z :=
  match padding with PAD_ZERO_BEFORE => Some 48 | PAD_SPACE_BEFORE => Some 32 | _ => None end.

(** The padding in front of [len] digits, in a field of at most [i] characters. *)
Definition pad_before (pc : option Z) (w i : Z) (len : nat) : list Z :=
  match pc with None => [] | Some c => repeat c (Z.to_nat (w `min` i - Z.of_nat len)) end.

Lemma length_strip l : (length (strip l) <= length l)%nat.
Proof. induction l as [|v l IH]; [done|]. rewrite strip_cons. case_decide; cbn [length] in *; lia. Qed.

Lemma pad_before_full pc w (i : nat) : pad_before pc w (Z.of_nat i) i = [].
Proof. destruct pc; [|done]. cbn [pad_before]. by replace (Z.to_nat (w `min` Z.of_nat i - Z.of_nat i)) with 0%nat by lia. Qed.

Lemma strip_some l : l <> [] -> strip l <> [].
Proof. induction l as [|v l IH]; [done|]. rewrite strip_cons. case_decide as Hc; [|done]. intros _. destruct Hc as [_ Hc]. exact (IH Hc). Qed.

(** One more leading position: it is padded if the field reaches it. *)
Lemma pad_before_S pc w i len : (len <= i)%nat ->
  pad_before pc w (Z.of_nat (S i)) len = (if Z.of_nat (S i) <=? w then option_list pc else []) ++ pad_before pc w (Z.of_nat i) len.
Proof.
  intros Hl. destruct pc as [c|]; cbn [pad_before option_list]; [|by case_match].
  destruct (Z.leb_spec (Z.of_nat (S i)) w).
  - by replace (Z.to_nat (w `min` Z.of_nat (S i) - Z.of_nat len)) with (S (Z.to_nat (w `min` Z.of_nat i - Z.of_nat len))) by lia.
  - cbn [app]. f_equal. lia.
Qed.

Lemma dec_pad_list padding :
  option_list (dec_pad padding) = if negb (bool_decide (padding = PAD_SPACE_AFTER)) then [if decide (padding = PAD_ZERO_BEFORE) then 48 else 32] else [].
Proof. by destruct padding. Qed.

Lemma dec_lead padding (w : Z) i : forall n r (digits : Z) st, (i < n)%nat -> 1 <= w -> 0 <= r < 10 ^ Z.of_nat (S i) ->
  let ds := strip (fixed 10 i r) in
  let text := pad_before (dec_pad padding) w (Z.of_nat (S i)) (length ds) ++ ((fun v => v + 48) <$> ds) in
  dec_rest n (10 ^ Z.of_nat i - 1) r padding w false (Z.of_nat (S i)) digits st =
  (outs text st, digits + Z.of_nat (length text) - 1).
Proof.
  induction i as [|i IH]; intros [|n] r digits st Hn Hw Hr; try lia; cbv zeta; unfold dec_rest; cbn [dec_loop fixed].
  - rewrite strip_cons, (decide_False (P := r = 0 /\ _)) by naive_solver. cbn [length].
    rewrite (pad_before_full (dec_pad padding) w 1). cbn. f_equal. lia.
  - pose proof (pow_big i). destruct (Z.geb_spec (10 ^ Z.of_nat (S i) - 1) 9) as [_|]; [|lia]. cbn [orb].
    replace (10 ^ Z.of_nat (S i) - 1 + 1) with (10 ^ Z.of_nat (S i)) by lia. rewrite pos_div. set (q := 10 ^ Z.of_nat (S i)) in *.
    rewrite Z.gtb_ltb. rewrite strip_cons. destruct (Z.ltb_spec (q - 1) r) as [Hlt|Hge].
    + assert (0 < r / q) by (apply Z.div_str_pos; lia). rewrite (decide_False (P := r / q = 0 /\ _)) by naive_solver lia.
      pose proof (dec_found padding w i n (r mod q) (Z.of_nat (S (S i)) - 1) (digits + 1) (out (r / q + 48) st) ltac:(lia)) as E.
      unfold dec_rest in E. rewrite E. cbn [length]. rewrite length_fixed, pad_before_full.
      cbn [app]. rewrite fmap_cons. cbn [length]. rewrite length_fmap, length_fixed. f_equal. lia.
    + rewrite (Z.div_small r q), (Z.mod_small r q) by lia.
      assert (fixed 10 i r <> []) as Hne by (intros E; pose proof (length_fixed 10 i r); rewrite E in *; done). rewrite (decide_True (P := 0 = 0 /\ _)) by done.
      set (ds := strip (fixed 10 i r)). assert (length ds <= S i)%nat as Hds by (unfold ds; rewrite <- (length_fixed 10 i r); apply length_strip).
      rewrite pad_before_S by done. unfold dec_rest in IH. replace (Z.of_nat (S (S i)) - 1) with (Z.of_nat (S i)) by lia.
      rewrite dec_pad_list. destruct (_ <=? w), (negb _); cbn [andb app]; rewrite (IH n) by lia; fold ds; cbn [length app]; f_equal; lia.
Qed.

Lemma dec_chars vs : Forall (fun v => 0 <= v < 10) vs -> (fun v => v + 48) <$> vs = digit_char <$> vs.
Proof.
  induction 1 as [|v vs Hv _ IH]; [done|]. rewrite !fmap_cons, IH. f_equal. unfold digit_char. case_match; lia.
Qed.

Lemma dec_ulong_text num padding (w : Z) st : 0 <= num < 2 ^ 32 ->
  _printk_dec_ulong out num padding w st = outs (dec_text padding w num) st.
Proof.
  intros Hn. unfold _printk_dec_ulong. assert ((if w <=? 0 then 1 else w) = Z.max w 1) as -> by (destruct (Z.leb_spec w 0); lia).
  pose proof (dec_lead padding (Z.max w 1) 9 10 num 1 st ltac:(lia) ltac:(lia) ltac:(lia)) as E. cbv zeta in E.
  unfold dec_rest in E. change (10 ^ Z.of_nat 9 - 1) with 999999999 in E. change (Z.of_nat 10) with 10 in E. fold (dec_digits num) in E.
  destruct (dec_loop out 10 999999999 num padding (Z.max w 1) false 10 1 st) as [[st' r] digits].
  rewrite (dec_chars (dec_digits num)) in E by apply dec_digits_numeral, Hn. injection E as E1 E2. rewrite E1, E2.
  unfold dec_text. rewrite !length_fmap. destruct padding; cbn [decide dec_pad pad_before app] in *; try done.
  rewrite decide_True, spaces_outs, length_fmap, outs_app by done. do 3 f_equal. lia.
Qed.

Lemma nibble_digit num j : let q := 16 ^ Z.of_nat j in let r := num mod 16 ^ Z.of_nat (S j) in
  Z.land (Z.shiftr num (4 * Z.of_nat j)) 15 = r / q /\ r mod q = num mod q.
Proof.
  cbv zeta. assert (0 < 16 ^ Z.of_nat j) as Hq by (apply Z.pow_pos_nonneg; lia).
  change 15 with (Z.ones 4). rewrite Z.land_ones, Z.shiftr_div_pow2 by lia. rewrite Z.pow_mul_r by lia. change (2 ^ 4) with 16.
  rewrite (Nat2Z.inj_succ j), Z.pow_succ_r, (Z.mul_comm 16), Z.rem_mul_r by lia.
  set (q := 16 ^ Z.of_nat j) in *. pose proof (Z.mod_pos_bound num q Hq). split.
  - rewrite (Z.mul_comm q), Z.div_add, (Z.div_small (num mod q)) by lia. done.
  - rewrite (Z.mul_comm q), Z.mod_add, Z.mod_mod by lia. done.
Qed.

Lemma fixed_nibble num j :
  fixed 16 (S j) (num mod 16 ^ Z.of_nat (S (S j))) =
  Z.land (Z.shiftr num (4 * Z.of_nat (S j))) 15 :: fixed 16 j (num mod 16 ^ Z.of_nat (S j)).
Proof. destruct (nibble_digit num (S j)) as [-> E]. rewrite <- E. reflexivity. Qed.

Lemma hex_char (v : Z) : v + (if v >? 9 then 87 else 48) = digit_char v.
Proof. unfold digit_char. case_match; lia. Qed.

Lemma hex_found padding (w num : Z) j : forall (remaining digits : Z) st,
  hex_loop out (S j) num padding w true remaining digits st =
  (outs (digit_char <$> fixed 16 j (num mod 16 ^ Z.of_nat (S j))) st, digits + Z.of_nat (S j)).
Proof.
  induction j as [|j IH]; intros remaining digits st.
  - cbn [hex_loop]. rewrite orb_true_r. cbn [orb]. rewrite hex_char, (proj1 (nibble_digit num 0)). cbn [fixed]. rewrite Z.div_1_r. done.
  - rewrite fixed_nibble. set (k := S j) in *. cbn [hex_loop]. rewrite orb_true_r. cbn [orb]. rewrite hex_char, IH, fmap_cons. f_equal. lia.
Qed.

Lemma hex_lead padding (w num : Z) j : forall (digits : Z) st,
  let ds := strip (fixed 16 j (num mod 16 ^ Z.of_nat (S j))) in
  hex_loop out (S j) num padding w false (Z.of_nat (S j)) digits st =
  (outs (pad_before (hex_pad padding) w (Z.of_nat (S j)) (length ds) ++ (digit_char <$> ds)) st, digits + Z.of_nat (length ds)).
Proof.
  induction j as [|j IH]; intros digits st; cbv zeta.
  - cbn [hex_loop]. rewrite orb_true_r. rewrite hex_char, (proj1 (nibble_digit num 0)). cbn [fixed]. rewrite Z.div_1_r.
    rewrite strip_cons, (decide_False (P := _ = 0 /\ _)) by naive_solver. cbn [length]. by rewrite (pad_before_full _ w 1).
  - rewrite fixed_nibble. set (k := S j) in *. cbn [hex_loop]. rewrite orb_false_r, hex_char. set (v := Z.land _ 15).
    rewrite strip_cons. destruct (Z.eqb_spec v 0) as [->|Hnz]; cbn [negb orb].
    + assert (fixed 16 j (num mod 16 ^ Z.of_nat k) <> []) as Hne by (intros E; pose proof (length_fixed 16 j (num mod 16 ^ Z.of_nat k)); rewrite E in *; done).
      rewrite (decide_True (P := 0 = 0 /\ _)) by done. specialize (IH digits). cbv zeta in IH. set (ds := strip _) in *.
      assert (length ds <= k)%nat as Hds by (unfold ds; etrans; [apply length_strip|by rewrite length_fixed]).
      rewrite pad_before_S by done. replace (Z.of_nat (S k) - 1) with (Z.of_nat k) by lia.
      replace (S k =? 1)%nat with false by done.
      destruct (_ <=? w), padding; cbn [hex_pad option_list app] in *; apply IH.
    + rewrite (decide_False (P := v = 0 /\ _)) by naive_solver. rewrite (hex_found padding w num j). cbn [length]. rewrite length_fixed, pad_before_full.
      cbn [app]. rewrite fmap_cons. f_equal. lia.
Qed.

Lemma hex_ulong_text num padding (w : Z) st : 0 <= num < 2 ^ 32 ->
  _printk_hex_ulong out num padding w st = outs (hex_text padding w num) st.
Proof.
  intros Hn. unfold _printk_hex_ulong. pose proof (hex_lead padding w num 7 0 st) as E. cbv zeta in E. rewrite Z.mod_small in E by exact Hn.
  change (Z.of_nat 8) with 8 in E. fold (hex_digits num) in E. rewrite E. unfold hex_text. rewrite length_fmap.
  destruct padding; cbn [hex_pad pad_before app]; try done.
  rewrite decide_True, spaces_outs, outs_app by done. done.
Qed.

End Numbers.

(** ** Formats

    A format apart from how it is written: literal characters and directives; and the
    text the code prints for them, [render]. *)

Inductive flag := Plain | Minus | Zero.
Inductive conversion := Signed | Unsigned | Hex | Pointer | String | Char | Percent.
Inductive item := Lit (c : Z) | Dir (f : flag) (width : option Z) (longs : nat) (k : conversion).

(** An argument: a number or the text of a string. *)
Inductive arg := ANum (z : Z) | AStr (text : list Z).

Definition show_conversion (k : conversion) : Z :=
  match k with Signed => 100 | Unsigned => 117 | Hex => 120 | Pointer => 112 | String => 115 | Char => 99 | Percent => 37 end.

Definition show_flag (f : flag) : list Z := match f with Plain => [] | Minus => [45] | Zero => [48] end.

Definition show_width (width : option Z) : list Z := from_option (fun w => digit_char <$> dec_digits w) [] width.

Definition show_item (i : item) : list Z :=
  match i with
  | Lit c => [c]
  | Dir f width longs k => 37 :: show_flag f ++ show_width width ++ repeat 108 longs ++ [show_conversion k]
  end.

(** The format string. *)
Definition show (items : list item) : list Z := concat (show_item <$> items).

Definition item_ok (i : item) : Prop :=
  match i with Lit c => c <> 37 | Dir _ width _ _ => from_option (fun w => 0 < w < 2 ^ 31) True width end.

Definition padding_of (f : flag) (width : option Z) : pad_type :=
  match f with
  | Minus => PAD_SPACE_AFTER
  | Zero => PAD_ZERO_BEFORE
  | Plain => if decide (width = None) then PAD_NONE else PAD_SPACE_BEFORE
  end.

Definition signed_text (padding : pad_type) (w d : Z) : list Z :=
  if d <? 0 then 45 :: dec_text padding (w - 1) (- d) else dec_text padding w d.

Definition number_text (k : conversion) (padding : pad_type) (w a : Z) : option (list Z) :=
  match k with
  | Signed => Some (signed_text padding w (s32 a))
  | Unsigned => Some (dec_text padding w (u32 a))
  | Hex => Some (hex_text padding w (u32 a))
  | Pointer => Some (48 :: 120 :: hex_text PAD_ZERO_BEFORE 8 (u32 a))
  | Char => Some [s32 a]
  | String | Percent => None
  end.

Definition string_text (padding : pad_type) (w : Z) (l : list Z) : list Z :=
  l ++ (if decide (padding = PAD_SPACE_AFTER) then repeat 32 (Z.to_nat (w - Z.of_nat (length l))) else []).

(** The text that is printed; [None] when the arguments do not fit. *)
Fixpoint render (items : list item) (args : list arg) : option (list Z) :=
  match items with
  | [] => Some []
  | Lit c :: items => cons c <$> render items args
  | Dir _ _ _ Percent :: items => cons 37 <$> render items args
  | Dir f width _ k :: items =>
      let padding := padding_of f width in
      let w := default (-1) width in
      match k, args with
      | String, AStr l :: args => app (string_text padding w l) <$> render items args
      | _, ANum a :: args => match number_text k padding w a with Some t => app t <$> render items args | None => None end
      | _, _ => None
      end
  end.

(** ** What a format means

    The text that [printf] of C has for a directive. *)

(** [sign] and [body], filled up to the width *)
Definition justify (f : flag) (width : option Z) (sign body : list Z) : list Z :=
  let fill := Z.to_nat (default 0 width - Z.of_nat (length sign + length body)) in
  match f with
  | Minus => sign ++ body ++ repeat 32 fill
  | Zero => sign ++ repeat 48 fill ++ body
  | Plain => repeat 32 fill ++ sign ++ body
  end.

Definition sign_of (d : Z) : list Z := if d <? 0 then [45] else [].

Definition number_meaning (f : flag) (width : option Z) (k : conversion) (a : Z) : option (list Z) :=
  match k with
  | Signed => Some (justify f width (sign_of (s32 a)) (digit_char <$> dec_digits (Z.abs (s32 a))))
  | Unsigned => Some (justify f width [] (digit_char <$> dec_digits (u32 a)))
  | Hex => Some (justify f width [] (digit_char <$> hex_digits (u32 a)))
  | Pointer => Some ([48; 120] ++ justify Zero (Some 8) [] (digit_char <$> hex_digits (u32 a)))
  | Char => Some (justify f width [] [s32 a])
  | String | Percent => None
  end.

(** The text of a format with its arguments; [None] when they do not fit. *)
Fixpoint printf_text (items : list item) (args : list arg) : option (list Z) :=
  match items with
  | [] => Some []
  | Lit c :: items => cons c <$> printf_text items args
  | Dir _ _ _ Percent :: items => cons 37 <$> printf_text items args
  | Dir f width _ k :: items =>
      match k, args with
      | String, AStr l :: args => app (justify f width [] l) <$> printf_text items args
      | _, ANum a :: args => match number_meaning f width k a with Some t => app t <$> printf_text items args | None => None end
      | _, _ => None
      end
  end.

(** The directives for which the code prints that. *)
Definition supported (i : item) : Prop :=
  match i with
  | Lit c => c <> 37
  | Dir f width longs k =>
      (longs < 2)%nat /\ from_option (fun w => 0 < w < 2 ^ 31) True width /\
      match k, f with
      | Signed, Minus | Unsigned, Minus | String, Minus => True
      | Signed, Zero | Unsigned, _ => default 0 width <= 10
      | Hex, Plain | Hex, Zero => default 0 width <= 8
      | _, Minus | String, Zero | Char, Zero | Pointer, Zero | Percent, Zero => False
      | Signed, Plain | String, Plain | Char, Plain | Pointer, Plain | Percent, Plain => width = None
      end
  end.

Lemma supported_ok i : supported i -> item_ok i.
Proof. destruct i as [c|f width longs k]; [done|]. by intros (_ & Hw & _). Qed.

Lemma digits_length base n ds : numeral base n ds -> (1 <= length ds)%nat.
Proof. intros Hd. destruct ds; [by destruct (nu_some _ _ _ Hd)|cbn; lia]. Qed.

Lemma dec_meaning f width n : 0 <= n < 2 ^ 32 -> from_option (fun w => 0 < w < 2 ^ 31) True width -> f = Minus \/ default 0 width <= 10 ->
  dec_text (padding_of f width) (default (-1) width) n = justify f width [] (digit_char <$> dec_digits n).
Proof.
  intros Hn Hw Hs. pose proof (digits_length _ _ _ (dec_digits_numeral n Hn)) as Hl. unfold dec_text, justify, padding_of. rewrite length_fmap. cbn [length app].
  destruct f, width as [w|]; cbn [from_option id default] in *; rewrite ?decide_True, ?decide_False by done;
    destruct Hs as [?|Hs]; try done; f_equal; f_equal; lia.
Qed.

Lemma signed_meaning f width d : - 2 ^ 31 <= d < 2 ^ 31 -> from_option (fun w => 0 < w < 2 ^ 31) True width ->
  match f with Minus => True | Zero => default 0 width <= 10 | Plain => width = None end ->
  signed_text (padding_of f width) (default (-1) width) d = justify f width (sign_of d) (digit_char <$> dec_digits (Z.abs d)).
Proof.
  intros Hd Hw Hs. unfold signed_text, sign_of. destruct (Z.ltb_spec d 0) as [Hlt|Hge].
  - rewrite Z.abs_neq by lia. pose proof (digits_length _ _ _ (dec_digits_numeral (- d) ltac:(lia))) as Hl.
    unfold dec_text, justify, padding_of. rewrite length_fmap. cbn [length app].
    destruct f, width as [w|]; cbn [from_option id default] in *; try done; rewrite ?decide_True by done; cbn [app].
    all: try (do 2 f_equal; f_equal; lia).
    by rewrite !Z2Nat.nonpos by lia.
  - rewrite Z.abs_eq by lia. apply dec_meaning; [lia|done|]. destruct f; [right|by left|by right]. by rewrite Hs.
Qed.

Lemma hex_meaning f width n : 0 <= n < 2 ^ 32 -> from_option (fun w => 0 < w < 2 ^ 31) True width -> f <> Minus -> default 0 width <= 8 ->
  hex_text (padding_of f width) (default (-1) width) n = justify f width [] (digit_char <$> hex_digits n).
Proof.
  intros Hn Hw Hf Hs. pose proof (digits_length _ _ _ (hex_digits_numeral n Hn)) as Hl. unfold hex_text, justify, padding_of. rewrite length_fmap. cbn [length app].
  destruct f, width as [w|]; cbn [from_option id default] in *; rewrite ?decide_True, ?decide_False by done; try done.
  all: try (f_equal; f_equal; lia). by replace (Z.to_nat _) with 0%nat by lia.
Qed.

Lemma number_printed f width longs k a t : supported (Dir f width longs k) -> number_meaning f width k a = Some t ->
  number_text k (padding_of f width) (default (-1) width) a = Some t.
Proof.
  intros (_ & Hw & Hs) Ht. pose proof (s32_range a) as Hr. destruct k; try done; injection Ht as <-; cbn [number_text]; f_equal.
  - apply signed_meaning; [lia|done|]. by destruct f.
  - apply dec_meaning; [apply u32_range|done|]. destruct f; auto.
  - destruct f; try done; (apply hex_meaning; [apply u32_range|done|done|done]).
  - destruct f; try done. by rewrite Hs.
Qed.

Lemma string_printed f width longs l : supported (Dir f width longs String) -> string_text (padding_of f width) (default (-1) width) l = justify f width [] l.
Proof.
  intros (_ & Hw & Hs). unfold string_text, justify, padding_of. cbn [length app Nat.add]. destruct f; [| |done].
  - rewrite Hs, (decide_True (P := None = None)), decide_False by done. cbn [default]. rewrite app_nil_r. by replace (Z.to_nat _) with 0%nat by (cbn; lia).
  - rewrite decide_True by done. do 2 f_equal. destruct width; cbn in *; lia.
Qed.

(** For the supported directives the code prints what they mean. *)
Lemma meaning_printed items : forall args text, Forall supported items -> printf_text items args = Some text -> render items args = Some text.
Proof.
  induction items as [|i items IH]; intros args text Hi Ht; [done|]. apply Forall_cons in Hi as [Hi0 Hi].
  destruct i as [c|f width longs k]; [cbn [printf_text render] in *; apply fmap_Some in Ht as (t & Ht & ->); by rewrite (IH args t)|].
  destruct k; cbn [printf_text render] in *.
  7: { apply fmap_Some in Ht as (t & Ht & ->). by rewrite (IH args t). }
  5: { destruct args as [|[a|l] args]; try done. apply fmap_Some in Ht as (t & Ht & ->). by rewrite (IH args t), (string_printed f width longs). }
  all: destruct args as [|[a|l] args]; try done; cbv zeta;
    match type of Ht with context [number_meaning ?f ?width ?k ?a] => rewrite (number_printed f width _ k a _ Hi0 eq_refl) end;
    apply fmap_Some in Ht as (t & Ht & ->); by rewrite (IH args t).
Qed.

Section Rendering.
Context {C : Type} (out : Z -> memory * C -> memory * C) (fuel : nat).
Implicit Types (st : memory * C).

(** The contexts of a run, and the addresses the output then leaves alone. *)
Variables (good : C -> Prop) (safe : Z -> Prop).
Hypothesis out_good : forall c st, good (snd st) -> good (snd (out c st)).
Hypothesis out_safe : forall c st q, good (snd st) -> safe q -> ldc (fst (out c st)) q = ldc (fst st) q.

(** The argument of a call and what it stands for. *)
Definition arg_ok m (v : va) (a : arg) : Prop :=
  match v, a with
  | Num z, ANum z' => z = z'
  | Str p, AStr l => chars m p (l ++ [0]) /\ Forall (fun c => c <> 0) l /\ (length l < fuel)%nat /\
                     forall q, p <= q <= p + Z.of_nat (length l) -> safe q
  | _, _ => False
  end.

Lemma outs_good l : forall st, good (snd st) -> good (snd (outs out l st)).
Proof. induction l as [|c l IH]; intros st Hg; [done|]. by apply (IH (out c st)), out_good. Qed.

Lemma outs_safe l : forall st q, good (snd st) -> safe q -> ldc (fst (outs out l st)) q = ldc (fst st) q.
Proof.
  induction l as [|c l IH]; intros st q Hg Hq; [done|]. change (outs out (c :: l) st) with (outs out l (out c st)).
  rewrite IH by auto. by apply out_safe.
Qed.

Lemma arg_ok_outs l st v a : good (snd st) -> arg_ok (fst st) v a -> arg_ok (fst (outs out l st)) v a.
Proof.
  intros Hg. destruct v, a; try done. intros (Hc & Hn & Hf & Hs). split_and!; try done. revert Hc. apply chars_agree.
  intros q Hq. apply outs_safe, Hs; [done|]. rewrite length_app in Hq. cbn in Hq. lia.
Qed.

Lemma args_ok_outs l st ap args : good (snd st) -> Forall2 (arg_ok (fst st)) ap args -> Forall2 (arg_ok (fst (outs out l st))) ap args.
Proof. intros Hg H. eapply Forall2_impl; [exact H|]. intros v a. by apply arg_ok_outs. Qed.

Lemma out_string_text l : forall n p st, good (snd st) -> chars (fst st) p (l ++ [0]) -> Forall (fun c => c <> 0) l -> (length l < n)%nat ->
  (forall q, p <= q <= p + Z.of_nat (length l) -> safe q) ->
  out_string out n p st = Some (outs out l st, p + Z.of_nat (length l)).
Proof.
  induction l as [|c l IH]; intros [|n] p st Hg Hc Hn Hl Hs; cbn [length app chars] in *; try lia; cbn [out_string].
  - destruct Hc as [-> _]. cbn. by rewrite Z.add_0_r.
  - destruct Hc as [-> Hc]. apply Forall_cons in Hn as [Hn0 Hn]. rewrite (proj2 (Z.eqb_neq c 0) Hn0).
    rewrite IH; [|by apply out_good|..|lia|]; [| |done|].
    + cbn [outs fold_left]. do 2 f_equal. lia.
    + revert Hc. apply chars_agree. intros q Hq. apply out_safe, Hs; [done|]. rewrite length_app in Hq. cbn in Hq. lia.
    + intros q Hq. apply Hs. lia.
Qed.

Implicit Types (ap : list va) (padding : pad_type) (rest : list Z).

(** A digit of the width. *)
Lemma loop_digit (v : Z) rest ap padding (w lc : Z) st : 0 <= v < 10 -> 0 <= w \/ v <> 0 \/ padding <> PAD_NONE ->
  vprintk_loop out fuel (digit_char v :: rest) ap true padding w lc st =
  vprintk_loop out fuel rest ap true (if decide (padding = PAD_NONE) then PAD_SPACE_BEFORE else padding) (if w <? 0 then v else w * 10 + v) lc st.
Proof.
  intros Hv Hw. cbn [vprintk_loop negb]. unfold digit_char. destruct (Z.gtb_spec v 9); [lia|].
  replace (48 + v + 0) with (48 + v) by lia. destruct (Z.eqb_spec (48 + v) 45); [lia|].
  replace ((48 + v =? 48) && (w <? 0) && bool_decide (padding = PAD_NONE)) with false.
  - destruct (Z.leb_spec 48 (48 + v)); [|lia]. destruct (Z.leb_spec (48 + v) 57); [|lia]. cbn [andb]. f_equal. case_match; lia.
  - symmetry. destruct (Z.eqb_spec (48 + v) 48); [|done]. destruct (Z.ltb_spec w 0); [|done]. apply bool_decide_false. naive_solver lia.
Qed.

Lemma loop_digits vs : forall rest ap padding (w lc : Z) st, Forall (fun v => 0 <= v < 10) vs -> 0 <= w -> padding <> PAD_NONE ->
  vprintk_loop out fuel ((digit_char <$> vs) ++ rest) ap true padding w lc st = vprintk_loop out fuel rest ap true padding (val 10 w vs) lc st.
Proof.
  induction vs as [|v vs IH]; intros rest ap padding w lc st Hv Hw Hp; [done|]. apply Forall_cons in Hv as [Hv0 Hv].
  rewrite fmap_cons. cbn [app]. rewrite loop_digit, decide_False by auto. destruct (Z.ltb_spec w 0); [lia|]. rewrite IH by (done || lia). done.
Qed.

Lemma loop_width (w : Z) rest ap padding (lc : Z) st : 0 < w < 2 ^ 31 ->
  vprintk_loop out fuel ((digit_char <$> dec_digits w) ++ rest) ap true padding (-1) lc st =
  vprintk_loop out fuel rest ap true (if decide (padding = PAD_NONE) then PAD_SPACE_BEFORE else padding) w lc st.
Proof.
  intros Hw. destruct (dec_digits_numeral w) as [Hd Hv Hh Hn]; [lia|]. destruct (dec_digits w) as [|v vs]; [done|].
  assert (v <> 0) as Hv0. { intros ->. specialize (Hh eq_refl). injection Hh as ->. cbn in Hv. lia. }
  apply Forall_cons in Hd as [Hd0 Hd]. rewrite fmap_cons. cbn [app]. rewrite loop_digit by auto. cbn [Z.ltb Z.compare].
  rewrite loop_digits; [|done|lia|by case_decide]. f_equal. exact Hv.
Qed.

Lemma loop_longs n : forall rest ap padding (w lc : Z) st,
  vprintk_loop out fuel (repeat 108 n ++ rest) ap true padding w lc st = vprintk_loop out fuel rest ap true padding w (lc + Z.of_nat n) st.
Proof.
  induction n as [|n IH]; intros rest ap padding w lc st; [by rewrite Z.add_0_r|].
  cbn [repeat app]. cbn [vprintk_loop negb]. cbn [Z.eqb Pos.eqb Z.leb Z.compare Pos.compare Pos.compare_cont andb orb].
  rewrite IH. f_equal. lia.
Qed.

(** A directive up to its conversion. *)
Lemma loop_directive f width longs k rest ap padding (w lc : Z) st : item_ok (Dir f width longs k) ->
  vprintk_loop out fuel (show_item (Dir f width longs k) ++ rest) ap false padding w lc st =
  vprintk_loop out fuel (show_conversion k :: rest) ap true (padding_of f width) (default (-1) width) (Z.of_nat longs) st.
Proof.
  intros Hok. assert (forall padding w, vprintk_loop out fuel (repeat 108 longs ++ [show_conversion k] ++ rest) ap true padding w 0 st =
    vprintk_loop out fuel (show_conversion k :: rest) ap true padding w (Z.of_nat longs) st) as Hl by (intros; apply loop_longs).
  unfold show_item. rewrite <- app_comm_cons, <- !app_assoc.
  change (vprintk_loop out fuel (37 :: ?l) ap false padding w lc st) with (vprintk_loop out fuel l ap true PAD_NONE (-1) 0 st).
  destruct f; cbn [show_flag app];
    [|change (vprintk_loop out fuel (45 :: ?l) ap true PAD_NONE (-1) 0 st) with (vprintk_loop out fuel l ap true PAD_SPACE_AFTER (-1) 0 st)
     |change (vprintk_loop out fuel (48 :: ?l) ap true PAD_NONE (-1) 0 st) with (vprintk_loop out fuel l ap true PAD_ZERO_BEFORE (-1) 0 st)];
    (destruct width as [x|]; cbn [show_width from_option app]; [rewrite loop_width by exact Hok; apply Hl|apply Hl]).
Qed.

Lemma s32_long (a : Z) : s32 (s64 a) = s32 a.
Proof.
  unfold s32, s64. f_equal. rewrite (Z.mod_eq (a + 2 ^ 63) (2 ^ 64)) by done. set (q := _ / _).
  replace (a + 2 ^ 63 - 2 ^ 64 * q - 2 ^ 63 + 2 ^ 31) with (a + 2 ^ 31 + (- (2 ^ 32 * q)) * 2 ^ 32) by lia. by rewrite Z.mod_add.
Qed.

Lemma u32_s32 (a : Z) : u32 (s32 a) = u32 a.
Proof.
  unfold u32, s32. rewrite (Z.mod_eq (a + 2 ^ 31) (2 ^ 32)) by done. set (q := _ / _).
  replace (a + 2 ^ 31 - 2 ^ 32 * q - 2 ^ 31) with (a + (- q) * 2 ^ 32) by lia. by rewrite Z.mod_add.
Qed.

Lemma u32_long (a : Z) : u32 (u64 a) = u32 a.
Proof. unfold u32, u64. change (2 ^ 64) with (2 ^ 32 * 2 ^ 32). by rewrite Z.rem_mul_r, Z.mul_comm, Z.mod_add, Z.mod_mod. Qed.

Lemma convert_signed (lc : Z) padding (w a : Z) st : convert_int out true lc padding w a st = outs out (signed_text padding w (s32 a)) st.
Proof.
  unfold convert_int, signed_text. rewrite s32_long. assert ((if lc <? 2 then s32 a else s32 a) = s32 a) as -> by (by case_match).
  assert (- 2 ^ 31 <= s32 a < 2 ^ 31) by (unfold s32; pose proof (Z.mod_pos_bound (a + 2 ^ 31) (2 ^ 32)); lia). rewrite u32_s32.
  destruct (Z.ltb_spec (s32 a) 0); rewrite u32_small, dec_ulong_text by lia; done.
Qed.

Lemma convert_unsigned (lc : Z) padding (w a : Z) st : convert_int out false lc padding w a st = outs out (dec_text padding w (u32 a)) st.
Proof.
  unfold convert_int. rewrite u32_long. assert ((if lc <? 2 then u32 a else u32 a) = u32 a) as -> by (by case_match). apply dec_ulong_text, u32_range.
Qed.

Lemma convert_hex_text (lc : Z) padding (w a : Z) st : convert_hex out lc padding w a st = outs out (hex_text padding w (u32 a)) st.
Proof.
  unfold convert_hex. rewrite u32_long. assert ((if lc <? 2 then u32 a else u32 a) = u32 a) as -> by (by case_match). apply hex_ulong_text, u32_range.
Qed.

Lemma convert_string_text padding (w : Z) p l st : good (snd st) -> arg_ok (fst st) (Str p) (AStr l) ->
  convert_string out fuel padding w p st = Some (outs out (string_text padding w l) st).
Proof.
  intros Hg (Hc & Hn & Hl & Hs). unfold convert_string. rewrite (out_string_text l) by done. f_equal. unfold string_text. rewrite outs_app.
  replace (p + Z.of_nat (length l) - p) with (Z.of_nat (length l)) by lia. case_decide; [apply spaces_outs|done].
Qed.

(** The conversion of a directive sends its text. *)
Lemma loop_number k rest (a : Z) ap t padding (w lc : Z) st : number_text k padding w a = Some t ->
  vprintk_loop out fuel (show_conversion k :: rest) (Num a :: ap) true padding w lc st =
  vprintk_loop out fuel rest ap false padding w lc (outs out t st).
Proof.
  intros Ht. destruct k; try done; injection Ht as <-; cbn [show_conversion vprintk_loop negb];
    cbn [Z.eqb Pos.eqb Z.leb Z.compare Pos.compare Pos.compare_cont andb orb];
    rewrite ?convert_signed, ?convert_unsigned, ?convert_hex_text; done.
Qed.

Lemma render_dir f width longs k items args text : render (Dir f width longs k :: items) args = Some text ->
  let padding := padding_of f width in let w := default (-1) width in
  (k = Percent /\ exists t', render items args = Some t' /\ text = 37 :: t') \/
  (exists a args' t t', args = ANum a :: args' /\ number_text k padding w a = Some t /\ render items args' = Some t' /\ text = t ++ t') \/
  (k = String /\ exists l args' t', args = AStr l :: args' /\ render items args' = Some t' /\ text = string_text padding w l ++ t').
Proof.
  cbv zeta. destruct k; cbn [render]; intros Hr.
  7: { left. split; [done|]. by apply fmap_Some in Hr. }
  6: { right; left. destruct args as [|[a|l] args]; try done. apply fmap_Some in Hr as (t' & Hr & ->). by eexists a, args, _, t'. }
  5: { right; right. split; [done|]. destruct args as [|[a|l] args]; try done. apply fmap_Some in Hr as (t' & Hr & ->). by exists l, args, t'. }
  all: right; left; destruct args as [|[a|l] args]; try done; apply fmap_Some in Hr as (t' & Hr & ->); by eexists a, args, _, t'.
Qed.

Lemma vprintk_text items : forall text ap args padding (w lc : Z) st,
  good (snd st) -> Forall item_ok items -> Forall2 (arg_ok (fst st)) ap args -> render items args = Some text ->
  vprintk_loop out fuel (show items) ap false padding w lc st = Some (outs out text st).
Proof.
  induction items as [|i items IH]; intros text ap args padding w lc st Hg Hi Ha Hr; [by injection Hr as <-|].
  apply Forall_cons in Hi as [Hi0 Hi]. unfold show in *. rewrite fmap_cons. cbn [concat].
  destruct i as [c|f width longs k].
  - cbn [render] in Hr. apply fmap_Some in Hr as (t & Hr & ->). cbn [show_item app vprintk_loop negb]. rewrite (proj2 (Z.eqb_neq c 37) Hi0).
    cbn [negb]. by rewrite (IH t _ args) by (done || by apply out_good || by apply (args_ok_outs [c])).
  - rewrite loop_directive by done.
    destruct (render_dir _ _ _ _ _ _ _ Hr) as [(-> & t' & Hr' & ->)|[(a & args' & t & t' & -> & Ht & Hr' & ->)|(-> & l & args' & t' & -> & Hr' & ->)]].
    + cbn. by rewrite (IH t' _ args) by (done || by apply out_good || by apply (args_ok_outs [37])).
    + inversion Ha as [|v ? ap' ? Hv Ha']; subst. destruct v as [z|]; [|done]. cbn in Hv. subst z.
      rewrite (loop_number _ _ _ _ t) by done. by rewrite (IH t' _ args'), outs_app by (done || by apply outs_good || by apply args_ok_outs).
    + inversion Ha as [|v ? ap' ? Hv Ha']; subst. destruct v as [|p]; [done|].
      cbn [show_conversion vprintk_loop negb]. cbn [Z.eqb Pos.eqb Z.leb Z.compare Pos.compare Pos.compare_cont andb orb].
      rewrite (convert_string_text _ _ _ l) by done. by rewrite (IH t' _ args'), outs_app by (done || by apply outs_good || by apply args_ok_outs).
Qed.

End Rendering.

(** ** The entry points *)

Lemma char_outs l m (n : Z) console : 0 <= n -> n + Z.of_nat (length l) < 2 ^ 31 ->
  outs char_out l (m, (n, console)) = (m, (n + Z.of_nat (length l), console ++ l)).
Proof.
  revert n console. induction l as [|c l IH]; intros n console Hn Hl; [cbn; by rewrite Z.add_0_r, app_nil_r|].
  cbn [outs fold_left char_out length] in *. rewrite s32_small by lia. unfold outs in IH. rewrite IH by lia. rewrite <- app_assoc. do 2 f_equal. lia.
Qed.

(** The buffer of [size] bytes after [l] has been output. *)
Record stored m m' (buf size : Z) (l : list Z) : Prop := {
  so_same : same_but m m' buf (buf + size);
  so_chars : chars m' buf (s8 <$> take (Z.to_nat (size - 1)) l);
  so_end : 0 < size <= Z.of_nat (length l) -> ldc m' (buf + (size - 1)) = 0
}.

Lemma str_outs m buf (size : Z) l : buf <> 0 -> 0 <= size ->
  exists m', outs str_out l (m, mk_ctx buf size 0) = (m', mk_ctx buf size (Z.of_nat (length l))) /\ stored m m' buf size l.
Proof.
  intros Hb Hs. induction l as [|c l (m' & E & [Hsame Hc He])] using rev_ind.
  { exists m. split; [done|]. split; [done|by rewrite take_nil|cbn; lia]. }
  rewrite outs_app, E, length_app, Nat2Z.inj_add. cbn [length outs fold_left str_out str max count].
  rewrite (proj2 (Z.eqb_neq buf 0) Hb), Z.geb_leb. cbn [orb].
  destruct (Z.leb_spec size (Z.of_nat (length l))) as [Hge|Hlt].
  { exists m'. split; [done|]. split; [done|by rewrite take_app_le by lia|]. intros [? _]. apply He. lia. }
  destruct (Z.eqb_spec (Z.of_nat (length l)) (size - 1)) as [Hlast|Hmid]; eexists; (split; [reflexivity|]).
  - split; [eapply same_but_trans; [exact Hsame|apply same_but_st8; lia]| |intros _; rewrite ldc_st8, decide_True by lia; done].
    rewrite take_app_le by lia. revert Hc. apply chars_agree. intros q Hq. rewrite length_fmap, length_take in Hq.
    rewrite ldc_st8, decide_False by lia. done.
  - split; [eapply same_but_trans; [exact Hsame|apply same_but_st8; lia]| |rewrite length_app; cbn; lia].
    rewrite take_ge in Hc by lia. rewrite take_ge by (rewrite length_app; cbn; lia). rewrite fmap_app, chars_app. split.
    + revert Hc. apply chars_agree. intros q Hq. rewrite length_fmap in Hq. rewrite ldc_st8, decide_False by lia. done.
    + rewrite length_fmap. cbn. split; [|done]. by rewrite ldc_st8, decide_True by done.
Qed.

Definition in_buffer (buf size : Z) (ctx : str_context) : Prop := str ctx = buf /\ max ctx = size /\ 0 <= count ctx.

Lemma str_out_good buf size c st : in_buffer buf size (snd st) -> in_buffer buf size (snd (str_out c st)).
Proof. destruct st as [m ctx]. intros (Hs & Hm & Hc). unfold str_out. repeat case_match; split_and!; cbn in *; done || lia. Qed.

Lemma str_out_safe buf size c st q : in_buffer buf size (snd st) -> q < buf \/ buf + size <= q -> ldc (fst (str_out c st)) q = ldc (fst st) q.
Proof.
  destruct st as [m ctx]. intros (Hs & Hm & Hc) Hq. cbn [snd] in *. unfold str_out. rewrite Z.geb_leb. subst.
  destruct (Z.leb_spec (max ctx) (count ctx)); [by rewrite orb_true_r|]. destruct (str ctx =? 0); [done|]. cbn [orb].
  case_match; cbn [fst]; rewrite ldc_st8, decide_False by lia; done.
Qed.

(** C31. [printk] prints what [printf] prints, and returns the number of characters, for
    literal characters and these directives: [%d], [%u], [%x], [%p], [%s], [%c] and
    [%%], also with one [l]; [%d], [%u] and [%s] left-justified in a field; [%d] and
    [%u] filled with zeroes in a field of at most ten characters, and [%x] of at most
    eight; [%u] and [%x] right-justified in such a field.  [%p] is 0x and eight digits.
    For other flags and widths the code prints something else (see [dec_text],
    [hex_text] and [string_text]).  This agrees with printk.h, which lists the plain
    directives and calls the rest unsupported, and not with the comment of [printk] in
    printk.c, by which [%x] and [%p] print eight digits and [%d] an unsigned number. *)
Theorem printk_prints fuel m console items ap args text :
  Forall supported items -> Forall2 (arg_ok fuel (fun _ => True) m) ap args -> printf_text items args = Some text ->
  Z.of_nat (length text) < 2 ^ 31 ->
  printk fuel m console (show items) ap = Some (Z.of_nat (length text), console ++ text).
Proof.
  intros Hi Ha Hr%meaning_printed Hl; [|done]. unfold printk, vprintk, _vprintk.
  rewrite (vprintk_text char_out fuel (fun _ => True) (fun _ => True) ltac:(done) ltac:(by intros c [? []] q _ _) items text ap args);
    [|done|by eapply Forall_impl; [|apply supported_ok]|done|done].
  cbn [option_map].
  by rewrite char_outs by lia.
Qed.

(** [printk("n=%-5d|%04x %s", -42, 255, "ok")] *)
Definition demo_items : list item :=
  [Lit 110; Lit 61; Dir Minus (Some 5) 0 Signed; Lit 124; Dir Zero (Some 4) 0 Hex; Lit 32; Dir Plain None 0 String].
Definition demo_memory : memory := st8 (st8 (st8 empty 100 111) 101 107) 102 0.
Definition demo_text : list Z := [110; 61; 45; 52; 50; 32; 32; 124; 48; 48; 102; 102; 32; 111; 107].

Lemma demo_items_ok : Forall item_ok demo_items.
Proof. repeat constructor; cbn; lia. Qed.

Lemma demo_items_supported : Forall supported demo_items.
Proof. repeat constructor; cbn; lia. Qed.

Lemma demo_args_ok (safe : Z -> Prop) : (forall q, 100 <= q <= 102 -> safe q) ->
  Forall2 (arg_ok 8 safe demo_memory) [Num (-42); Num 255; Str 100] [ANum (-42); ANum 255; AStr [111; 107]].
Proof.
  intros Hs. repeat constructor; cbn; try done; try lia; intros q Hq; apply Hs; lia.
Qed.

Lemma printk_prints_witness : printk 8 demo_memory [] (show demo_items) [Num (-42); Num 255; Str 100] = Some (15, demo_text).
Proof.
  apply (printk_prints 8 demo_memory [] demo_items _ [ANum (-42); ANum 255; AStr [111; 107]] demo_text);
    [apply demo_items_supported|by apply demo_args_ok|vm_compute; reflexivity|vm_compute; reflexivity].
Defined.

Lemma snprintk_spec fuel m buf (size : Z) items ap args text :
  buf <> 0 -> 0 <= size < 2 ^ 31 ->
  Forall item_ok items -> Forall2 (arg_ok fuel (fun q => q < buf \/ buf + size <= q) m) ap args -> render items args = Some text ->
  exists m', snprintk fuel m buf size (show items) ap = Some (m', Z.of_nat (length text)) /\
    same_but m m' buf (buf + size) /\
    (0 < size -> chars m' buf ((s8 <$> take (Z.to_nat (size - 1)) text) ++ [0])).
Proof.
  intros Hb Hs Hi Ha Hr. unfold snprintk, vsnprintk, _vprintk. rewrite s32_small by lia.
  rewrite (vprintk_text str_out fuel (in_buffer buf size) _ (str_out_good buf size) (str_out_safe buf size) items text ap args) by done.
  destruct (str_outs m buf size text) as (m' & -> & [Hsame Hc He]); [done|lia|]. cbn [count max].
  destruct (Z.ltb_spec (Z.of_nat (length text)) size) as [Hlt|Hge]; eexists; (split; [reflexivity|]); (split; [|intros Hpos]).
  - eapply same_but_trans; [exact Hsame|]. apply same_but_st8. lia.
  - rewrite take_ge in * by lia. apply chars_app. rewrite length_fmap. split; [|cbn; split; [by rewrite ldc_st8, decide_True|done]].
    revert Hc. apply chars_agree. intros q Hq. rewrite length_fmap in Hq. by rewrite ldc_st8, decide_False by lia.
  - done.
  - apply chars_app. split; [done|]. rewrite length_fmap, length_take. cbn. split; [|done]. rewrite <- He by lia. f_equal. lia.
Qed.

(** [snprintk] never writes outside the [size] bytes of its buffer; it leaves
    there as much of the text as fits, always terminated, and returns the length
    of the whole text. *)
Theorem snprintk_truncates fuel m buf (size : Z) items ap args text :
  buf <> 0 -> 0 <= size < 2 ^ 31 ->
  Forall item_ok items -> Forall2 (arg_ok fuel (fun q => q < buf \/ buf + size <= q) m) ap args -> render items args = Some text ->
  exists m', snprintk fuel m buf size (show items) ap = Some (m', Z.of_nat (length text)) /\
    same_but m m' buf (buf + size) /\
    (0 < size -> chars m' buf ((s8 <$> take (Z.to_nat (size - 1)) text) ++ [0])).
Proof. apply snprintk_spec. Qed.

Lemma snprintk_truncates_witness :
  exists m', snprintk 8 demo_memory 200 6 (show demo_items) [Num (-42); Num 255; Str 100] = Some (m', 15) /\
    same_but demo_memory m' 200 206 /\ (0 < 6 -> chars m' 200 [110; 61; 45; 52; 50; 0]).
Proof.
  apply (snprintk_truncates 8 demo_memory 200 6 demo_items _ [ANum (-42); ANum 255; AStr [111; 107]] demo_text);
    [lia|lia|apply demo_items_ok|apply demo_args_ok; lia|vm_compute; reflexivity].
Defined.

End Printk.
