(* ===== verification/Json.v ===== *)
(** * JSON (lib/json/json.c, include/json.h)

    The lexer, the parser that fills a structure, escaping and the encoder, on the
    memory of LibC.  A descriptor is a tree; where the C type has a union, [sub] is
    the list of fields of an object, or the element descriptor of an array alone.
    Pointers, [size_t] and [long] have four bytes, [bool] one.  Loops over the text
    have fuel; [None] is fuel that ran out, or undefined behaviour (an array
    descriptor without an element). *)

From S2P Require Import Prelude LibC Conv Printk.
Import LibC Conv Printk.

Local Open Scope Z_scope.

Module Json.

Inductive json_tokens :=
  | JSON_TOK_NONE | JSON_TOK_OBJECT_START | JSON_TOK_OBJECT_END | JSON_TOK_LIST_START | JSON_TOK_LIST_END
  | JSON_TOK_STRING | JSON_TOK_COLON | JSON_TOK_COMMA | JSON_TOK_NUMBER | JSON_TOK_TRUE | JSON_TOK_FALSE
  | JSON_TOK_NULL | JSON_TOK_ERROR | JSON_TOK_EOF.

#[export] Instance json_tokens_eq_dec : EqDecision json_tokens.
Proof. solve_decision. Defined.

Inductive json_obj_descr :=
  mk_descr (field_name field_name_len offset alignment : Z) (type : json_tokens) (sub : list json_obj_descr) (n_elements : Z).

Definition field_name d := let '(mk_descr x _ _ _ _ _ _) := d in x.
Definition field_name_len d := let '(mk_descr _ x _ _ _ _ _) := d in x.
Definition offset d := let '(mk_descr _ _ x _ _ _ _) := d in x.
Definition alignment d := let '(mk_descr _ _ _ x _ _ _) := d in x.
Definition type d := let '(mk_descr _ _ _ _ x _ _) := d in x.
Definition sub d := let '(mk_descr _ _ _ _ _ x _) := d in x.
Definition n_elements d := let '(mk_descr _ _ _ _ _ _ x) := d in x.

(** The macros that declare descriptors; [name] is the address of the name, [len] its
    length, [off] the offset of the field, [count] that of the number of elements. *)
Definition JSON_OBJ_DESCR_PRIM (name len off align : Z) (ty : json_tokens) : json_obj_descr := mk_descr name len off align ty [] 0.

Definition JSON_OBJ_DESCR_OBJECT (name len off align : Z) (sub_descr : list json_obj_descr) : json_obj_descr :=
  mk_descr name len off align JSON_TOK_OBJECT_START sub_descr 0.

Definition JSON_OBJ_DESCR_ARRAY (name len off align max_len count : Z) (elem_type : json_tokens) : json_obj_descr :=
  mk_descr name len off align JSON_TOK_LIST_START [mk_descr 0 0 count align elem_type [] 0] max_len.

Definition JSON_OBJ_DESCR_OBJ_ARRAY (name len off align max_len count : Z) (elem_descr : list json_obj_descr) : json_obj_descr :=
  mk_descr name len off align JSON_TOK_LIST_START [mk_descr 0 0 count align JSON_TOK_OBJECT_START elem_descr 0] max_len.

(** ** The lexer *)

Record token := mk_token { tk_type : json_tokens; tk_start : Z; tk_end : Z }.

(** the functions [lexer->state] points to; none is [NULL] *)
Inductive lexer_state := LEXER_JSON | LEXER_STRING | LEXER_BOOLEAN | LEXER_NULL | LEXER_NUMBER.

#[export] Instance lexer_state_eq_dec : EqDecision lexer_state.
Proof. solve_decision. Defined.

Record lexer := mk_lexer { lx_state : option lexer_state; lx_start : Z; lx_pos : Z; lx_end : Z; lx_token : token }.

Definition set_pos lx p : lexer := mk_lexer (lx_state lx) (lx_start lx) p (lx_end lx) (lx_token lx).
Definition set_state lx s : lexer := mk_lexer s (lx_start lx) (lx_pos lx) (lx_end lx) (lx_token lx).
Definition set_token lx t : lexer := mk_lexer (lx_state lx) (lx_start lx) (lx_pos lx) (lx_end lx) t.

Implicit Types (m : memory) (lx : lexer) (fuel : nat) (d : json_obj_descr) (field vl str : Z).

Definition lexer_consume lx (empty_token : json_tokens) : lexer * option token :=
  let t := lx_token lx in
  if decide (tk_type t = empty_token) then (lx, None)
  else (set_token lx (mk_token empty_token (tk_start t) (tk_end t)), Some t).

Definition emit lx (t : json_tokens) : lexer :=
  mk_lexer (lx_state lx) (lx_pos lx) (lx_pos lx) (lx_end lx) (mk_token t (lx_start lx) (lx_pos lx)).

Definition next m lx : lexer * Z :=
  if lx_pos lx >=? lx_end lx then (set_pos lx (lx_end lx + 1), 0)
  else (set_pos lx (lx_pos lx + 1), ldc m (lx_pos lx)).

Definition ignore lx : lexer := mk_lexer (lx_state lx) (lx_pos lx) (lx_pos lx) (lx_end lx) (lx_token lx).
Definition backup lx : lexer := set_pos lx (lx_pos lx - 1).
Definition peek m lx : lexer * Z := let '(lx, chr) := next m lx in (backup lx, chr).

(** [n] hexadecimal digits after a backslash and a u *)
Fixpoint xdigits (n : nat) m lx : lexer * bool :=
  match n with
  | O => (lx, true)
  | S n => let '(lx, chr) := next m lx in if isxdigit chr then xdigits n m lx else (lx, false)
  end.

(** one of the characters that may follow a backslash *)
Definition escapable (chr : Z) : bool :=
  existsb (Z.eqb chr) [34; 92; 47; 98; 102; 110; 114; 116].

Fixpoint string_loop fuel m lx : option (lexer * option lexer_state) :=
  match fuel with
  | O => None
  | S fuel =>
      let '(lx, chr) := next m lx in
      if chr =? 0 then Some (emit lx JSON_TOK_ERROR, None)
      else if chr =? 92 then
        let '(lx, chr) := next m lx in
        if escapable chr then string_loop fuel m lx
        else if chr =? 117 then
          match xdigits 4 m lx with
          | (lx, true) => string_loop fuel m lx
          | (lx, false) => Some (emit lx JSON_TOK_ERROR, None)
          end
        else Some (emit lx JSON_TOK_ERROR, None)
      else if chr =? 34 then Some (ignore (fst (next m (emit (backup lx) JSON_TOK_STRING))), Some LEXER_JSON)
      else string_loop fuel m lx
  end.

Definition lexer_string fuel m lx : option (lexer * option lexer_state) := string_loop fuel m (ignore lx).

(** true for the return value 0 *)
Fixpoint accept_run m lx (run : list Z) : lexer * bool :=
  match run with
  | [] => (lx, true)
  | c :: run => let '(lx, chr) := next m lx in if chr =? c then accept_run m lx run else (lx, false)
  end.

Definition lexer_boolean m lx : lexer * option lexer_state :=
  let '(lx, chr) := next m (backup lx) in
  if chr =? 116 then
    match accept_run m lx [114; 117; 101] with
    | (lx, true) => (emit lx JSON_TOK_TRUE, Some LEXER_JSON)
    | (lx, false) => (emit lx JSON_TOK_ERROR, None)
    end
  else if chr =? 102 then
    match accept_run m lx [97; 108; 115; 101] with
    | (lx, true) => (emit lx JSON_TOK_FALSE, Some LEXER_JSON)
    | (lx, false) => (emit lx JSON_TOK_ERROR, None)
    end
  else (emit lx JSON_TOK_ERROR, None).

Definition lexer_null m lx : lexer * option lexer_state :=
  match accept_run m lx [117; 108; 108] with
  | (lx, false) => (emit lx JSON_TOK_ERROR, None)
  | (lx, true) => (emit lx JSON_TOK_NULL, Some LEXER_JSON)
  end.

Fixpoint lexer_number fuel m lx : option (lexer * option lexer_state) :=
  match fuel with
  | O => None
  | S fuel =>
      let '(lx, chr) := next m lx in
      if isdigit chr || (chr =? 46) then lexer_number fuel m lx
      else Some (emit (backup lx) JSON_TOK_NUMBER, Some LEXER_JSON)
  end.

(** [(enum json_tokens)chr] for the characters that are tokens of their own *)
Definition punctuation (chr : Z) : option json_tokens :=
  if chr =? 125 then Some JSON_TOK_OBJECT_END else if chr =? 123 then Some JSON_TOK_OBJECT_START
  else if chr =? 91 then Some JSON_TOK_LIST_START else if chr =? 93 then Some JSON_TOK_LIST_END
  else if chr =? 44 then Some JSON_TOK_COMMA else if chr =? 58 then Some JSON_TOK_COLON else None.

Fixpoint lexer_json fuel m lx : option (lexer * option lexer_state) :=
  match fuel with
  | O => None
  | S fuel =>
      let '(lx, chr) := next m lx in
      let other lx :=
        if isspace chr then lexer_json fuel m (ignore lx)
        else if isdigit chr then Some (lx, Some LEXER_NUMBER)
        else Some (emit lx JSON_TOK_ERROR, None) in
      if chr =? 0 then Some (emit lx JSON_TOK_EOF, None)
      else match punctuation chr with
      | Some t => Some (emit lx t, Some LEXER_JSON)
      | None =>
          if chr =? 34 then Some (lx, Some LEXER_STRING)
          else if chr =? 110 then Some (lx, Some LEXER_NULL)
          else if (chr =? 116) || (chr =? 102) then Some (lx, Some LEXER_BOOLEAN)
          else if chr =? 45 then
            let '(lx, c) := peek m lx in
            if isdigit c then Some (lx, Some LEXER_NUMBER) else other lx
          else other lx
      end
  end.

(** [lexer->state(lexer)] *)
Definition run_state fuel m lx (s : lexer_state) : option (lexer * option lexer_state) :=
  match s with
  | LEXER_JSON => lexer_json fuel m lx
  | LEXER_STRING => lexer_string fuel m lx
  | LEXER_BOOLEAN => Some (lexer_boolean m lx)
  | LEXER_NULL => Some (lexer_null m lx)
  | LEXER_NUMBER => lexer_number fuel m lx
  end.

(** the token, if the function returns true; [n] bounds the calls of states *)
Fixpoint next_loop (n : nat) fuel m lx : option (lexer * option token) :=
  match n with
  | O => None
  | S n =>
      match lx_state lx with
      | None => Some (lexer_consume lx JSON_TOK_EOF)
      | Some s =>
          match lexer_consume lx JSON_TOK_NONE with
          | (lx, Some t) => Some (lx, Some t)
          | (lx, None) =>
              match run_state fuel m lx s with
              | Some (lx, s) => next_loop n fuel m (set_state lx s)
              | None => None
              end
          end
      end
  end.

Definition lexer_next fuel m lx : option (lexer * option token) := next_loop fuel fuel m lx.

Definition lexer_init (data len : Z) : lexer :=
  mk_lexer (Some LEXER_JSON) data data (data + len) (mk_token JSON_TOK_NONE 0 0).

(** ** The parser

    Functions that return [-EINVAL] or 0 and set a variable give the variable when
    they return 0. *)

Definition ENOSPC : Z := 28.
Definition ERANGE : Z := 38.

Definition obj_init fuel m (data len : Z) : option (lexer * bool) :=
  match lexer_next fuel m (lexer_init data len) with
  | None => None
  | Some (lx, None) => Some (lx, false)
  | Some (lx, Some t) => Some (lx, bool_decide (tk_type t = JSON_TOK_OBJECT_START))
  end.

Definition element_token (t : json_tokens) : bool :=
  match t with
  | JSON_TOK_OBJECT_START | JSON_TOK_LIST_START | JSON_TOK_STRING | JSON_TOK_NUMBER | JSON_TOK_TRUE | JSON_TOK_FALSE => true
  | _ => false
  end.

Record json_obj_key_value := mk_kv { key : Z; key_len : Z; value : token }.

(** the part after the key *)
Definition key_value fuel m lx (t : token) : option (lexer * option json_obj_key_value) :=
  match lexer_next fuel m lx with
  | None => None
  | Some (lx, None) => Some (lx, None)
  | Some (lx, Some colon) =>
      if decide (tk_type colon = JSON_TOK_COLON) then
        match lexer_next fuel m lx with
        | None => None
        | Some (lx, None) => Some (lx, None)
        | Some (lx, Some v) =>
            Some (lx, if element_token (tk_type v) then Some (mk_kv (tk_start t) (u32 (tk_end t - tk_start t)) v) else None)
        end
      else Some (lx, None)
  end.

Definition obj_next fuel m lx : option (lexer * option json_obj_key_value) :=
  match lexer_next fuel m lx with
  | None => None
  | Some (lx, None) => Some (lx, None)
  | Some (lx, Some t) =>
      match tk_type t with
      | JSON_TOK_OBJECT_END => Some (lx, Some (mk_kv 0 0 t))
      | JSON_TOK_COMMA =>
          match lexer_next fuel m lx with
          | None => None
          | Some (lx, None) => Some (lx, None)
          | Some (lx, Some t) => if decide (tk_type t = JSON_TOK_STRING) then key_value fuel m lx t else Some (lx, None)
          end
      | JSON_TOK_STRING => key_value fuel m lx t
      | _ => Some (lx, None)
      end
  end.

Definition arr_next fuel m lx : option (lexer * option token) :=
  match lexer_next fuel m lx with
  | None => None
  | Some (lx, None) => Some (lx, None)
  | Some (lx, Some v) =>
      match tk_type v with
      | JSON_TOK_LIST_END => Some (lx, Some v)
      | JSON_TOK_COMMA =>
          match lexer_next fuel m lx with
          | None => None
          | Some (lx, None) => Some (lx, None)
          | Some (lx, Some v) => Some (lx, if element_token (tk_type v) then Some v else None)
          end
      | t => Some (lx, if element_token t then Some v else None)
      end
  end.

(** the number goes to [num] *)
Definition decode_num fuel m (t : token) (num : Z) : option (memory * Z) :=
  let prev_end := ldc m (tk_end t) in
  let m := st8 m (tk_end t) 0 in
  match strtol fuel m (tk_start t) 10 with
  | None => None
  | Some (v, endptr, range_error) =>
      let m := st8 (st32 m num v) (tk_end t) prev_end in
      Some (m, if range_error : bool then - ERANGE else if endptr =? tk_end t then 0 else - EINVAL)
  end.

Definition equivalent_types (type1 type2 : json_tokens) : bool :=
  match type1 with
  | JSON_TOK_TRUE | JSON_TOK_FALSE => bool_decide (type2 = JSON_TOK_TRUE \/ type2 = JSON_TOK_FALSE)
  | _ => bool_decide (type1 = type2)
  end.

(** [ROUND_UP(x, align)] of include/misc/util.h *)
Definition round_up (x align : Z) : Z := Z.land (u32 (u32 x + u32 (align - 1))) (u32 (Z.lnot (align - 1))).

Fixpoint get_elem_size d : Z :=
  match type d with
  | JSON_TOK_NUMBER => 4
  | JSON_TOK_STRING => 4
  | JSON_TOK_TRUE | JSON_TOK_FALSE => 1
  | JSON_TOK_LIST_START =>
      match d with
      | mk_descr _ _ _ _ _ (e :: _) n => s32 (n * get_elem_size e)
      | _ => 0
      end
  | JSON_TOK_OBJECT_START =>
      let 'mk_descr _ _ _ align _ l _ := d in
      fold_left (fun total s => s32 (total + round_up s align)) (get_elem_size <$> l) 0
  | _ => - EINVAL
  end.

(** The i-th field, not decoded yet, whose name is the key. *)
Fixpoint find_field m (kv : json_obj_key_value) (decoded_fields : Z) (i : nat) (descr : list json_obj_descr)
    : option (nat * json_obj_descr) :=
  match descr with
  | [] => None
  | d :: descr =>
      if negb (Z.land decoded_fields (Z.shiftl 1 (Z.of_nat i)) =? 0) then find_field m kv decoded_fields (S i) descr
      else if negb (key_len kv =? field_name_len d) then find_field m kv decoded_fields (S i) descr
      else if negb (memcmp m (key kv) (field_name d) (Z.to_nat (field_name_len d)) =? 0) then
        find_field m kv decoded_fields (S i) descr
      else Some (i, d)
  end.

(** [size] is the fuel of the lexer and of [strtol], [fuel] that of the loops and of the
    nested calls.  The functions that [decode_value] calls take it as an argument. *)
Abbreviation decoder := (memory -> lexer -> json_obj_descr -> token -> Z -> Z -> option (memory * lexer * Z)).

(** the loop of [arr_parse] *)
Fixpoint elements_parse (decode : decoder) fuel (size : nat) m lx elem_descr (last_elem : Z) field vl : option (memory * lexer * Z) :=
  match fuel with
  | O => None
  | S fuel =>
      match arr_next size m lx with
      | None => None
      | Some (lx, None) => Some (m, lx, - EINVAL)
      | Some (lx, Some v) =>
          if decide (tk_type v = JSON_TOK_LIST_END) then Some (m, lx, 0)
          else if field =? last_elem then Some (m, lx, - ENOSPC)
          else match decode m lx elem_descr v field vl with
          | None => None
          | Some (m, lx, ret) =>
              if ret <? 0 then Some (m, lx, - EINVAL)
              else let elements := vl + offset elem_descr in
                   elements_parse decode fuel size (st32 m elements (ld32 m elements + 1)) lx elem_descr last_elem (field + get_elem_size elem_descr) vl
          end
      end
  end.

Definition arr_parse (decode : decoder) fuel (size : nat) m lx elem_descr (max_elements : Z) field vl : option (memory * lexer * Z) :=
  let last_elem := field + get_elem_size elem_descr * max_elements in
  elements_parse decode fuel size (st32 m (vl + offset elem_descr) 0) lx elem_descr last_elem field vl.

(** the loop of [obj_parse] *)
Fixpoint fields_parse (decode : decoder) fuel (size : nat) m lx (descr : list json_obj_descr) vl (decoded_fields : Z) : option (memory * lexer * Z) :=
  match fuel with
  | O => None
  | S fuel =>
      match obj_next size m lx with
      | None => None
      | Some (lx, None) => Some (m, lx, - EINVAL)
      | Some (lx, Some kv) =>
          if decide (tk_type (value kv) = JSON_TOK_OBJECT_END) then Some (m, lx, decoded_fields)
          else match find_field m kv decoded_fields 0 descr with
          | None => fields_parse decode fuel size m lx descr vl decoded_fields
          | Some (i, d) =>
              match decode m lx d (value kv) (vl + offset d) vl with
              | None => None
              | Some (m, lx, ret) =>
                  if ret <? 0 then Some (m, lx, ret)
                  else fields_parse decode fuel size m lx descr vl (s32 (Z.lor decoded_fields (Z.shiftl 1 (Z.of_nat i))))
              end
          end
      end
  end.

Definition obj_parse (decode : decoder) fuel (size : nat) m lx (descr : list json_obj_descr) vl : option (memory * lexer * Z) :=
  fields_parse decode fuel size m lx descr vl 0.

Fixpoint decode_value fuel (size : nat) m lx d (v : token) field vl {struct fuel} : option (memory * lexer * Z) :=
  match fuel with
  | O => None
  | S fuel =>
      if negb (equivalent_types (tk_type v) (type d)) then Some (m, lx, - EINVAL)
      else match type d with
      | JSON_TOK_OBJECT_START => obj_parse (decode_value fuel size) fuel size m lx (sub d) field
      | JSON_TOK_LIST_START =>
          match sub d with
          | [] => None
          | e :: _ => arr_parse (decode_value fuel size) fuel size m lx e (n_elements d) field vl
          end
      | JSON_TOK_FALSE | JSON_TOK_TRUE => Some (st8 m field (if decide (tk_type v = JSON_TOK_TRUE) then 1 else 0), lx, 0)
      | JSON_TOK_NUMBER =>
          match decode_num size m v field with
          | None => None
          | Some (m, ret) => Some (m, lx, ret)
          end
      | JSON_TOK_STRING => Some (st32 (st8 m (tk_end v) 0) field (tk_start v), lx, 0)
      | _ => Some (m, lx, - EINVAL)
      end
  end.

(** [assert(descr_len < 31)] at the start stands for nothing when [CONFIG_ASSERT] is off, as
    here; the theorems also cover 31 fields, whose bitmap still is not negative. *)
Definition json_obj_parse fuel (size : nat) m (payload len : Z) (descr : list json_obj_descr) vl : option (memory * Z) :=
  match obj_init size m payload len with
  | None => None
  | Some (_, false) => Some (m, - EINVAL)
  | Some (lx, true) =>
      match obj_parse (decode_value fuel size) fuel size m lx descr vl with
      | None => None
      | Some (m, _, ret) => Some (m, ret)
      end
  end.

(** ** Escaping *)

(** 0 for a character that needs no escape *)
Definition escape_as (chr : Z) : Z :=
  if chr =? 34 then 34 else if chr =? 92 then 92 else if chr =? 8 then 98 else if chr =? 12 then 102
  else if chr =? 10 then 110 else if chr =? 13 then 114 else if chr =? 9 then 116 else 0.

(** the loop of [json_calc_escaped_len], [n] characters from [str] on *)
Fixpoint count_escaped (n : nat) m str (escaped_len : Z) : Z :=
  match n with
  | O => escaped_len
  | S n => count_escaped n m (str + 1) (if negb (escape_as (ldc m str) =? 0) then u32 (escaped_len + 1) else escaped_len)
  end.

Definition json_calc_escaped_len m str (len : nat) : Z := count_escaped len m str (Z.of_nat len).

(** the loop of [json_escape]: [next] is [str + n] *)
Fixpoint escape_backwards (n : nat) m str (dest : Z) : memory :=
  match n with
  | O => m
  | S n =>
      let next_c := ldc m (str + Z.of_nat n) in
      let escape := escape_as next_c in
      if negb (escape =? 0) then escape_backwards n (st8 (st8 m (dest - 1) escape) (dest - 2) 92) str (dest - 2)
      else escape_backwards n (st8 m (dest - 1) next_c) str (dest - 1)
  end.

(** the memory, the new length and the result *)
Definition json_escape m str (len : nat) (buf_size : Z) : memory * Z * Z :=
  let escaped_len := json_calc_escaped_len m str len in
  if escaped_len =? Z.of_nat len then (m, Z.of_nat len, 0)
  else if escaped_len >=? buf_size then (m, Z.of_nat len, - ENOMEM)
  else (escape_backwards len (st8 m (str + escaped_len) 0) str (str + escaped_len), escaped_len, 0).

(** ** The encoder

    [append_bytes] takes the bytes, and the memory with its own data; what a
    function returns, with its result. *)

Section Encode.
Context {C : Type}.
Abbreviation outcome := (option (memory * C * Z)).
Variable append_bytes : list Z -> memory * C -> memory * C * Z.
(** the length of the longest string *)
Variable size : nat.
Implicit Types (st : memory * C).

(** [if (ret < 0) return ret;] *)
Definition unless_error (r : outcome) (k : memory * C -> outcome) : outcome :=
  match r with
  | None => None
  | Some (st, ret) => if ret <? 0 then Some (st, ret) else k st
  end.

Definition append (bytes : list Z) st : outcome := Some (append_bytes bytes st).

Fixpoint escape_loop fuel (cur : Z) (ret : Z) st : outcome :=
  match fuel with
  | O => None
  | S fuel =>
      if (ret =? 0) && negb (ldc (fst st) cur =? 0) then
        let escaped := escape_as (ldc (fst st) cur) in
        let '(st, ret) := append_bytes (if negb (escaped =? 0) then [92; escaped] else [ldc (fst st) cur]) st in
        escape_loop fuel (cur + 1) ret st
      else Some (st, ret)
  end.

Definition json_escape_internal str st : outcome := escape_loop size str 0 st.

Definition str_encode str st : outcome :=
  unless_error (append [34] st) (fun st =>
  match json_escape_internal str st with
  | None => None
  | Some (st, ret) => if ret =? 0 then append [34] st else Some (st, ret)
  end).

(** The buffer is a local variable: a memory of its own. *)
Definition num_encode (num : Z) st : outcome :=
  match snprintk size empty 1 12 [37; 100] [Num num] with
  | None => None
  | Some (buf, ret) =>
      if ret <? 0 then Some (st, ret)
      else if ret >=? 12 then Some (st, - ENOMEM)
      else append ((fun i => ldc buf (1 + i)) <$> seqZ 0 ret) st
  end.

Definition bool_encode (v : bool) st : outcome :=
  append (if v then [116; 114; 117; 101] else [102; 97; 108; 115; 101]) st.

(** the loop of [arr_encode]: [n] elements are left *)
Fixpoint elements_encode (encode_elem : Z -> memory * C -> outcome) (n : nat) (field elem_size : Z) st : outcome :=
  match n with
  | O => append [93] st
  | S n =>
      unless_error (encode_elem field st) (fun st =>
      unless_error (if (0 <? n)%nat then append [44] st else Some (st, 0)) (fun st =>
      elements_encode encode_elem n (field + elem_size) elem_size st))
  end.

(** the loop of [json_obj_encode] *)
Fixpoint fields_encode (encode : json_obj_descr -> Z -> memory * C -> outcome) (descr : list json_obj_descr) vl st : outcome :=
  match descr with
  | [] => append [125] st
  | d :: descr =>
      unless_error (str_encode (field_name d) st) (fun st =>
      unless_error (append [58] st) (fun st =>
      unless_error (encode d vl st) (fun st =>
      unless_error (if bool_decide (descr <> []) then append [44] st else Some (st, 0)) (fun st =>
      fields_encode encode descr vl st))))
  end.

Definition obj_encode (encode : json_obj_descr -> Z -> memory * C -> outcome) descr vl st : outcome :=
  unless_error (append [123] st) (fun st => fields_encode encode descr vl st).

Definition arr_encode (encode : json_obj_descr -> Z -> memory * C -> outcome) d field vl st : outcome :=
  let n_elem := ld32 (fst st) (vl + offset d) in
  unless_error (append [91] st) (fun st =>
  elements_encode (fun field => encode d (field - offset d)) (Z.to_nat n_elem) field (get_elem_size d) st).

Fixpoint encode d vl st {struct d} : outcome :=
  let 'mk_descr _ _ off _ ty sub _ := d in
  let ptr := vl + off in
  match ty with
  | JSON_TOK_FALSE | JSON_TOK_TRUE => bool_encode (negb (ld8 (fst st) ptr =? 0)) st
  | JSON_TOK_STRING => str_encode (ld32 (fst st) ptr) st
  | JSON_TOK_LIST_START => match sub with [] => None | e :: _ => arr_encode encode e ptr vl st end
  | JSON_TOK_OBJECT_START => obj_encode encode sub ptr st
  | JSON_TOK_NUMBER => num_encode (s32 (ld32 (fst st) ptr)) st
  | _ => Some (st, - EINVAL)
  end.

Definition json_obj_encode descr vl st : outcome := obj_encode encode descr vl st.

End Encode.

(** ** Output to a buffer, and its length *)

Record appender := mk_appender { buffer : Z; used : Z; ap_size : Z }.

Fixpoint store m p (bytes : list Z) : memory :=
  match bytes with
  | [] => m
  | b :: bytes => store (st8 m p b) (p + 1) bytes
  end.

Definition append_bytes_to_buf (bytes : list Z) (st : memory * appender) : memory * appender * Z :=
  let '(m, a) := st in
  let len := Z.of_nat (length bytes) in
  if len >? u32 (ap_size a - used a) then (st, - ENOMEM)
  else
    let m := store m (buffer a + used a) bytes in
    let a := mk_appender (buffer a) (u32 (used a + len)) (ap_size a) in
    (st8 m (buffer a + used a) 0, a, 0).

Definition json_obj_encode_buf (size : nat) m descr vl (buf buf_size : Z) : option (memory * Z) :=
  match json_obj_encode append_bytes_to_buf size descr vl (m, mk_appender buf 0 buf_size) with
  | None => None
  | Some (m, _, ret) => Some (m, ret)
  end.

Definition measure_bytes (bytes : list Z) (st : memory * Z) : memory * Z * Z :=
  let '(m, total) := st in (m, s32 (total + Z.of_nat (length bytes)), 0).

Definition json_calc_encoded_len (size : nat) m descr vl : option Z :=
  match json_obj_encode measure_bytes size descr vl (m, 0) with
  | None => None
  | Some (_, total, ret) => Some (if ret <? 0 then ret else total)
  end.

End Json.
