(* ===== verification/JsonText.v ===== *)
(** * JSON texts, escaping and encoding

    The values a structure can hold, [read_value], which reads one out of memory the
    way its descriptor says, and [json_text], the text of a value.  In-place
    escaping and the encoder are shown to produce these texts. *)

From S2P Require Import Prelude LibC Conv Printk Json.
Import LibC Conv Printk Json.

Local Open Scope Z_scope.

Module JsonText.

(** ** Texts *)

Inductive jval := JNum (n : Z) | JBool (b : bool) | JStr (l : list Z) | JArr (l : list jval) | JObj (l : list (list Z * jval)).

Definition esc (c : Z) : list Z := if escape_as c =? 0 then [c] else [92; escape_as c].
Definition escaped (l : list Z) : list Z := concat (esc <$> l).
Definition quoted (l : list Z) : list Z := 34 :: escaped l ++ [34].
Definition num_text (n : Z) : list Z := signed_text PAD_NONE (-1) n.
Definition bool_text (b : bool) : list Z := if b then [116; 114; 117; 101] else [102; 97; 108; 115; 101].

(** [ls] one after the other, [sep] between them *)
Fixpoint separated {A} (sep : list A) (ls : list (list A)) : list A :=
  match ls with
  | [] => []
  | l :: ls => l ++ (if decide (ls = []) then [] else sep ++ separated sep ls)
  end.

Fixpoint json_text (v : jval) : list Z :=
  match v with
  | JNum n => num_text n
  | JBool b => bool_text b
  | JStr l => quoted l
  | JArr vs => 91 :: separated [44] (json_text <$> vs) ++ [93]
  | JObj kvs => 123 :: separated [44] ((fun kv => quoted (fst kv) ++ 58 :: json_text (snd kv)) <$> kvs) ++ [125]
  end.

(** ** Values in memory

    [ok] are the bytes that may be read. *)

Section Read.
Variables (ok : Z -> bool) (size : nat) (m : memory).

Definition read8 p : option Z := if ok p then Some (ld8 m p) else None.

Definition read32 p : option Z :=
  if ok p && ok (p + 1) && ok (p + 2) && ok (p + 3) then Some (ld32 m p) else None.

Fixpoint read_string (fuel : nat) p : option (list Z) :=
  match fuel with
  | O => None
  | S fuel =>
      if ok p then if ldc m p =? 0 then Some [] else cons (ldc m p) <$> read_string fuel (p + 1)
      else None
  end.

Fixpoint read_elements (read : Z -> option jval) (n : nat) (field elem_size : Z) : option (list jval) :=
  match n with
  | O => Some []
  | S n =>
      match read field, read_elements read n (field + elem_size) elem_size with
      | Some v, Some vs => Some (v :: vs)
      | _, _ => None
      end
  end.

Fixpoint read_fields (read : json_obj_descr -> Z -> Z -> option jval) (ds : list json_obj_descr) (vl : Z) : option (list (list Z * jval)) :=
  match ds with
  | [] => Some []
  | d :: ds =>
      match read_string size (field_name d), read d (vl + offset d) vl, read_fields read ds vl with
      | Some k, Some v, Some kvs => Some ((k, v) :: kvs)
      | _, _, _ => None
      end
  end.

(** The value at [field] of the structure at [vl]. *)
Fixpoint read_value d (field vl : Z) {struct d} : option jval :=
  let 'mk_descr _ _ _ _ ty sub _ := d in
  match ty with
  | JSON_TOK_FALSE | JSON_TOK_TRUE => (fun b => JBool (negb (b =? 0))) <$> read8 field
  | JSON_TOK_STRING => match read32 field with Some p => JStr <$> read_string size p | None => None end
  | JSON_TOK_LIST_START =>
      match sub with
      | [] => None
      | e :: _ =>
          match read32 (vl + offset e) with
          | Some n => JArr <$> read_elements (fun f => read_value e f (f - offset e)) (Z.to_nat n) field (get_elem_size e)
          | None => None
          end
      end
  | JSON_TOK_OBJECT_START => JObj <$> read_fields read_value sub field
  | JSON_TOK_NUMBER => (fun n => JNum (s32 n)) <$> read32 field
  | _ => None
  end.

Definition read_object (ds : list json_obj_descr) (vl : Z) : option jval := JObj <$> read_fields read_value ds vl.

End Read.

(** Induction on a descriptor and those below it. *)
Fixpoint descr_ind (P : json_obj_descr -> Prop)
    (H : forall fn fl off al ty sub n, Forall P sub -> P (mk_descr fn fl off al ty sub n)) (d : json_obj_descr) : P d :=
  let 'mk_descr fn fl off al ty sub n := d in
  H fn fl off al ty sub n ((fix go l : Forall P l := match l with [] => List.Forall_nil _ | x :: l => List.Forall_cons _ _ _ (descr_ind P H x) (go l) end) sub).

(** ** Frames *)

(** [m] and [m'] have the same bytes where [ok] says so. *)
Definition agree (ok : Z -> bool) (m m' : memory) : Prop := forall q, ok q = true -> ld8 m' q = ld8 m q.

Lemma read32_Some ok m p v : read32 ok m p = Some v -> v = ld32 m p.
Proof. unfold read32. case_match; congruence. Qed.

Section Agree.
Variables (ok ok' : Z -> bool) (size : nat) (m m' : memory).
Hypothesis Hok : forall q, ok q = true -> ok' q = true.
Hypothesis Hm : agree ok m m'.

Lemma read8_agree p v : read8 ok m p = Some v -> read8 ok' m' p = Some v.
Proof. unfold read8. destruct (ok p) eqn:E; [|done]. by rewrite Hok, Hm by done. Qed.

Lemma read32_agree p v : read32 ok m p = Some v -> read32 ok' m' p = Some v.
Proof.
  unfold read32. destruct (ok p) eqn:E0, (ok (p + 1)) eqn:E1, (ok (p + 2)) eqn:E2, (ok (p + 3)) eqn:E3; try done.
  rewrite !Hok by done. unfold ld32. by rewrite !Hm by done.
Qed.

Lemma read_string_agree fuel : forall p l, read_string ok m fuel p = Some l -> read_string ok' m' fuel p = Some l.
Proof.
  induction fuel as [|fuel IH]; intros p l; [done|]. cbn [read_string]. destruct (ok p) eqn:E; [|done].
  rewrite Hok, !ldc_ld8, Hm by done. case_match; [done|]. intros (l' & Hl & ->)%fmap_Some. by rewrite (IH _ l').
Qed.

Lemma read_elements_agree (f f' : Z -> option jval) n : (forall p v, f p = Some v -> f' p = Some v) ->
  forall p sz vs, read_elements f n p sz = Some vs -> read_elements f' n p sz = Some vs.
Proof.
  intros Hf. induction n as [|n IH]; intros p sz vs; [done|]. cbn [read_elements].
  destruct (f p) as [v|] eqn:E; [|done]. rewrite (Hf _ v E). destruct (read_elements f n _ _) eqn:E'; [|done]. by rewrite (IH _ _ _ E').
Qed.

Lemma read_value_agree d : forall field vl v, read_value ok size m d field vl = Some v -> read_value ok' size m' d field vl = Some v.
Proof.
  induction d as [fn fl off al ty sub n Hsub] using descr_ind. intros field vl v.
  assert (forall ds base kvs, Forall (fun d => forall field vl v, read_value ok size m d field vl = Some v -> read_value ok' size m' d field vl = Some v) ds ->
    read_fields ok size m (read_value ok size m) ds base = Some kvs -> read_fields ok' size m' (read_value ok' size m') ds base = Some kvs) as Hf.
  { induction ds as [|d ds IH]; intros base kvs Hds; [done|]. apply Forall_cons in Hds as [Hd Hds]. cbn [read_fields].
    destruct (read_string ok m size (field_name d)) as [k|] eqn:E1; [|done]. rewrite (read_string_agree _ _ _ E1).
    destruct (read_value ok size m d _ base) as [w|] eqn:E2; [|done]. rewrite (Hd _ _ _ E2).
    destruct (read_fields ok size m _ ds base) as [kvs'|] eqn:E3; [|done]. by rewrite (IH _ _ Hds E3). }
  destruct ty; cbn [read_value]; try done.
  - intros (kvs & E & ->)%fmap_Some. by rewrite (Hf _ _ _ Hsub E).
  - destruct sub as [|e sub]; [done|]. apply Forall_cons in Hsub as [He _].
    destruct (read32 ok m (vl + offset e)) as [c|] eqn:E; [|done]. rewrite (read32_agree _ _ E). intros (vs & Evs & ->)%fmap_Some.
    rewrite (read_elements_agree _ _ _ (fun p => He p _) _ _ _ Evs). done.
  - destruct (read32 ok m field) as [p|] eqn:E; [|done]. rewrite (read32_agree _ _ E). intros (l & El & ->)%fmap_Some. by rewrite (read_string_agree _ _ _ El).
  - intros (x & E & ->)%fmap_Some. by rewrite (read32_agree _ _ E).
  - intros (x & E & ->)%fmap_Some. by rewrite (read8_agree _ _ E).
  - intros (x & E & ->)%fmap_Some. by rewrite (read8_agree _ _ E).
Qed.

End Agree.

(** ** Escaping *)

Lemma escaped_app l l' : escaped (l ++ l') = escaped l ++ escaped l'.
Proof. unfold escaped. by rewrite fmap_app, concat_app. Qed.

Lemma escaped_snoc l c : escaped (l ++ [c]) = escaped l ++ esc c.
Proof. rewrite escaped_app. unfold escaped. cbn. by rewrite app_nil_r. Qed.

Lemma length_esc c : length (esc c) = if escape_as c =? 0 then 1%nat else 2%nat.
Proof. unfold esc. by case_match. Qed.

Lemma length_escaped l : (length l <= length (escaped l))%nat.
Proof.
  induction l as [|c l IH] using rev_ind; [done|]. rewrite escaped_snoc, !length_app, length_esc. cbn [length]. case_match; lia.
Qed.

Lemma escaped_same l : length (escaped l) = length l -> escaped l = l.
Proof.
  induction l as [|c l IH] using rev_ind; [done|]. rewrite escaped_snoc, !length_app, length_esc. pose proof (length_escaped l). cbn [length].
  unfold esc. case_match; intros Hl; [|lia]. rewrite IH by lia. done.
Qed.

Lemma escape_as_char (c : Z) : s8 (escape_as c) = escape_as c.
Proof. unfold escape_as. by repeat case_match. Qed.

Lemma count_escaped_spec l m str : forall (acc : Z), chars m str l -> 0 <= acc -> acc + Z.of_nat (length (escaped l)) - Z.of_nat (length l) < 2 ^ 32 ->
  count_escaped (length l) m str acc = acc + Z.of_nat (length (escaped l)) - Z.of_nat (length l).
Proof.
  revert str. induction l as [|c l IH]; intros str acc Hc H0 Hlt; cbn [count_escaped length chars] in *; [cbn; lia|].
  change (escaped (c :: l)) with (esc c ++ escaped l) in *. rewrite length_app, length_esc in *. pose proof (length_escaped l).
  destruct Hc as [-> Hc]. destruct (escape_as c =? 0); cbn [negb]; [rewrite IH by (done || lia); lia|].
  rewrite u32_small by lia. rewrite IH by (done || lia). lia.
Qed.

Lemma calc_escaped_len m str l : chars m str l -> Z.of_nat (length (escaped l)) < 2 ^ 32 -> json_calc_escaped_len m str (length l) = Z.of_nat (length (escaped l)).
Proof. intros Hc Hl. unfold json_calc_escaped_len. rewrite count_escaped_spec by (done || lia). lia. Qed.

Lemma escape_backwards_spec str l : forall m, chars m str l ->
  let m' := escape_backwards (length l) m str (str + Z.of_nat (length (escaped l))) in
  chars m' str (escaped l) /\ same_but m m' str (str + Z.of_nat (length (escaped l))).
Proof.
  induction l as [|c l IH] using rev_ind; intros m Hc; [done|].
  apply chars_app in Hc as [Hc [Hl _]]. rewrite escaped_snoc, !length_app, length_esc. cbn [length].
  rewrite Nat.add_1_r. cbn [escape_backwards]. rewrite Hl. pose proof (length_escaped l) as Hle. unfold esc.
  set (p := str + Z.of_nat (length (escaped l))) in *.
  destruct (escape_as c =? 0) eqn:Ee; cbn [negb].
  - replace (str + Z.of_nat (length (escaped l) + 1) - 1) with p by lia. set (m1 := st8 m p c).
    assert (same_but m m1 p (p + 1)) as Hs by (apply same_but_st8; lia).
    destruct (IH m1) as [H1 H2]; [eapply chars_out; [exact Hs|lia|done]|]. cbv zeta in *. split.
    + apply chars_app. split; [done|]. split; [|done]. fold p. rewrite H2 by lia. unfold m1. rewrite ldc_st8, decide_True, <- Hl by done. apply s8_ldc.
    + eapply same_but_trans; [eapply same_but_le; [| |exact Hs]; lia|]. eapply same_but_le; [| |exact H2]; lia.
  - replace (str + Z.of_nat (length (escaped l) + 2) - 1) with (p + 1) by lia.
    replace (str + Z.of_nat (length (escaped l) + 2) - 2) with p by lia. set (m1 := st8 (st8 m (p + 1) (escape_as c)) p 92).
    assert (same_but m m1 p (p + 2)) as Hs by (eapply same_but_trans; apply same_but_st8; lia).
    destruct (IH m1) as [H1 H2]; [eapply chars_out; [exact Hs|lia|done]|]. cbv zeta in *. split.
    + apply chars_app. split; [done|]. fold p. split; [|split; [|done]]; rewrite H2 by lia; unfold m1; rewrite !ldc_st8.
      * by rewrite decide_True.
      * rewrite decide_False, decide_True by lia. apply escape_as_char.
    + eapply same_but_trans; [eapply same_but_le; [| |exact Hs]; lia|]. eapply same_but_le; [| |exact H2]; lia.
Qed.

(** C36. Escaping in place: [json_escape] replaces the text by its escaped form, without
    extra memory and without touching anything outside the buffer, and terminates it if
    it has something to escape; a text with nothing to escape is left as it is, also
    without a terminator or room for one.  If the escaped text and its terminator do not
    fit, it changes nothing.  The escaped text is shorter than 2^32. *)
Theorem json_escape_in_place m str l (buf_size : Z) :
  chars m str l -> Z.of_nat (length l) <= buf_size -> Z.of_nat (length (escaped l)) < 2 ^ 32 ->
  let '(m', len', ret) := json_escape m str (length l) buf_size in
  if decide (escaped l = l \/ Z.of_nat (length (escaped l)) < buf_size) then
    ret = 0 /\ len' = Z.of_nat (length (escaped l)) /\ chars m' str (escaped l) /\
    (escaped l <> l -> ldc m' (str + len') = 0) /\ same_but m m' str (str + buf_size)
  else ret = - ENOMEM /\ len' = Z.of_nat (length l) /\ m' = m.
Proof.
  intros Hc Hb Hl. unfold json_escape. rewrite (calc_escaped_len _ _ _ Hc Hl). set (e := Z.of_nat (length (escaped l))).
  destruct (Z.eqb_spec e (Z.of_nat (length l))) as [He|He].
  { assert (escaped l = l) as El by (apply escaped_same; lia). rewrite decide_True by auto. rewrite El. by split_and!. }
  rewrite Z.geb_leb. destruct (Z.leb_spec buf_size e) as [Hge|Hlt].
  - rewrite decide_False; [done|]. intros [El|?]; [|lia]. apply He. unfold e. by rewrite El.
  - rewrite decide_True by auto. set (m1 := st8 m (str + e) 0). pose proof (length_escaped l).
    assert (same_but m m1 (str + e) (str + e + 1)) as Hs by (apply same_but_st8; lia).
    destruct (escape_backwards_spec str l m1) as [H1 H2]; [eapply chars_out; [exact Hs|lia|done]|]. fold e in H2 |- *. split_and!; try done.
    + intros _. rewrite H2 by lia. unfold m1. by rewrite ldc_st8, decide_True.
    + eapply same_but_trans; [eapply same_but_le; [| |exact Hs]; lia|]. eapply same_but_le; [| |exact H2]; lia.
Qed.

(** ** Numbers *)

Lemma num_text_digits n : - 2 ^ 31 <= n < 2 ^ 31 ->
  num_text n = (if n <? 0 then [45] else []) ++ (digit_char <$> dec_digits (Z.abs n)).
Proof.
  intros Hn. unfold num_text, signed_text.
  assert (forall w k, w <= 1 -> dec_text PAD_NONE w k = digit_char <$> dec_digits k) as Hd.
  { intros w k Hw. unfold dec_text. cbv zeta. assert (1 <= length (dec_digits k))%nat.
    { unfold dec_digits. pose proof (strip_some (fixed 10 9 k)) as H. destruct (strip (fixed 10 9 k)) eqn:E; [|cbn; lia]. exfalso. by apply H. }
    rewrite length_fmap. by replace (Z.to_nat (Z.max w 1 `min` 10 - Z.of_nat (length (dec_digits k)))) with 0%nat by lia. }
  destruct (Z.ltb_spec n 0); rewrite Hd by lia; [by rewrite Z.abs_neq by lia|by rewrite Z.abs_eq by lia].
Qed.

Lemma dec_digits_range n : 0 <= n < 2 ^ 32 -> Forall (fun v => 0 <= v < 10) (dec_digits n) /\ (length (dec_digits n) <= 10)%nat.
Proof. intros Hn. split; [by apply dec_digits_numeral|]. unfold dec_digits. etrans; [apply length_strip|]. by rewrite length_fixed. Qed.

Lemma num_text_chars n : - 2 ^ 31 <= n < 2 ^ 31 -> Forall (fun c => s8 c = c /\ c <> 0) (num_text n) /\ (length (num_text n) <= 11)%nat.
Proof.
  intros Hn. rewrite num_text_digits by done. destruct (dec_digits_range (Z.abs n)) as [Hd Hl]; [lia|]. split.
  - apply Forall_app. split; [case_match; by repeat constructor|]. apply Forall_fmap. eapply Forall_impl; [exact Hd|].
    intros v Hv; cbn in Hv |- *. destruct (digit_char_value v) as (_ & ? & ?); [lia|done].
  - rewrite length_app, length_fmap. case_match; cbn [length]; lia.
Qed.

Lemma chars_list m p l : chars m p l -> (fun i => ldc m (p + i)) <$> seqZ 0 (Z.of_nat (length l)) = l.
Proof.
  intros Hc. apply list_eq. intros i. rewrite list_lookup_fmap. destruct (l !! i) as [c|] eqn:E.
  - pose proof (lookup_lt_Some _ _ _ E). rewrite lookup_seqZ_lt by lia. cbn. f_equal. rewrite Z.add_0_l.
    rewrite <- (take_drop_middle _ _ _ E) in Hc. apply chars_app in Hc as [_ [<- _]]. f_equal. rewrite length_take. lia.
  - apply lookup_ge_None in E. by rewrite lookup_seqZ_ge by lia.
Qed.

(** ** Encoding

    The pieces in which a value is output. *)

Definition str_pieces (l : list Z) : list (list Z) := [34] :: (esc <$> l) ++ [[34]].

Fixpoint pieces (v : jval) : list (list Z) :=
  match v with
  | JNum n => [num_text n]
  | JBool b => [bool_text b]
  | JStr l => str_pieces l
  | JArr vs => [91] :: separated [[44]] (pieces <$> vs) ++ [[93]]
  | JObj kvs => [123] :: separated [[44]] ((fun kv => str_pieces (fst kv) ++ [58] :: pieces (snd kv)) <$> kvs) ++ [[125]]
  end.

Section Encoding.
Context {C : Type} (append_bytes : list Z -> memory * C -> memory * C * Z) (size : nat) (ok : Z -> bool) (good : C -> Prop).
Implicit Types (st : memory * C).

(** Where a run of the encoder can get to. *)
Definition reach st st' : Prop := good (snd st') /\ agree ok (fst st) (fst st').

Hypothesis append_reach : forall l st, good (snd st) -> reach st (fst (append_bytes l st)).
Hypothesis append_result : forall l st, good (snd st) -> snd (append_bytes l st) <= 0.

Lemma reach_trans st st' st'' : reach st st' -> reach st' st'' -> reach st st''.
Proof. intros [_ H1] [H2 H3]. split; [done|]. intros q Hq. by rewrite H3, H1. Qed.

(** The pieces are appended until an error. *)
Fixpoint run (ps : list (list Z)) st : memory * C * Z :=
  match ps with
  | [] => (st, 0)
  | p :: ps => let '(st, ret) := append_bytes p st in if ret <? 0 then (st, ret) else run ps st
  end.

Lemma run_reach ps : forall st, good (snd st) -> reach st (fst (run ps st)).
Proof.
  induction ps as [|p ps IH]; intros st Hg; [by split|]. cbn [run]. pose proof (append_reach p st Hg) as Hr.
  destruct (append_bytes p st) as [st' ret]. case_match; [done|]. eapply reach_trans; [exact Hr|apply IH, Hr].
Qed.

Lemma run_result ps : forall st, good (snd st) -> snd (run ps st) <= 0.
Proof.
  induction ps as [|p ps IH]; intros st Hg; [done|]. cbn [run]. pose proof (append_reach p st Hg) as Hr. pose proof (append_result p st Hg).
  destruct (append_bytes p st) as [st' ret]. case_match; [done|]. apply IH, Hr.
Qed.

Lemma run_one p st : good (snd st) -> run [p] st = append_bytes p st.
Proof.
  intros Hg. cbn. pose proof (append_result p st Hg). destruct (append_bytes p st) as [st' ret]. cbn in *.
  destruct (Z.ltb_spec ret 0); [done|]. f_equal. lia.
Qed.

Lemma append_run p st : good (snd st) -> append append_bytes p st = Some (run [p] st).
Proof. intros Hg. unfold append. by rewrite run_one. Qed.

Lemma run_pieces_app ps ps' st : run (ps ++ ps') st = let '(st, ret) := run ps st in if ret <? 0 then (st, ret) else run ps' st.
Proof.
  revert st. induction ps as [|p ps IH]; intros st; [done|]. cbn [run app]. destruct (append_bytes p st) as [st' ret].
  destruct (ret <? 0) eqn:E; [by rewrite E|apply IH].
Qed.

(** One part of the encoder after another. *)
Lemma seq_run ps ps' st k : good (snd st) -> (forall st', reach st st' -> k st' = Some (run ps' st')) ->
  unless_error (Some (run ps st)) k = Some (run (ps ++ ps') st).
Proof.
  intros Hg Hk. cbn [unless_error]. rewrite run_pieces_app. pose proof (run_reach ps st Hg) as Hr. destruct (run ps st) as [st' ret].
  destruct (ret <? 0); [done|]. by apply Hk.
Qed.

Lemma escape_loop_run l : forall fuel cur st, good (snd st) -> read_string ok (fst st) fuel cur = Some l ->
  escape_loop append_bytes fuel cur 0 st = Some (run (esc <$> l) st).
Proof.
  induction l as [|c l IH]; intros [|fuel] cur st Hg Hl; try done; cbn [read_string escape_loop] in *;
    (destruct (ok cur) eqn:Ec; [|done]); destruct (ldc (fst st) cur =? 0) eqn:E0; cbn [andb negb]; try done.
  - by apply fmap_Some in Hl as (? & _ & ?).
  - apply fmap_Some in Hl as (l' & Hl & [= -> ->]). rewrite fmap_cons. cbn [run]. unfold esc at 1.
    set (x := ldc (fst st) cur) in *.
    replace (if negb (escape_as x =? 0) then [92; escape_as x] else [x]) with (esc x) by (unfold esc; by destruct (escape_as x =? 0)).
    pose proof (append_reach (esc x) st Hg) as Hr. pose proof (append_result (esc x) st Hg) as Hs. fold (esc x).
    destruct (append_bytes (esc x) st) as [st' ret]. cbn [fst snd] in *. destruct (Z.ltb_spec ret 0).
    + destruct fuel; cbn [escape_loop]; [done|]. destruct (Z.eqb_spec ret 0); [lia|done].
    + replace ret with 0 by lia. apply IH; [apply Hr|]. destruct Hr as [_ Hr]. eapply read_string_agree; [..|exact Hl]; done.
Qed.

Lemma str_encode_run l str st : good (snd st) -> read_string ok (fst st) size str = Some l ->
  str_encode append_bytes size str st = Some (run (str_pieces l) st).
Proof.
  intros Hg Hl. unfold str_encode. rewrite append_run by done. unfold str_pieces. rewrite (seq_run [[34]] ((esc <$> l) ++ [[34]])); [done|done|].
  intros st1 [Hg1 Ha1]. unfold json_escape_internal. rewrite (escape_loop_run l) by (done || by eapply read_string_agree).
  rewrite run_pieces_app. pose proof (run_reach (esc <$> l) st1 Hg1) as Hr. pose proof (run_result (esc <$> l) st1 Hg1) as Hs.
  destruct (run (esc <$> l) st1) as [st2 ret]. cbn [fst snd] in *. destruct (Z.ltb_spec ret 0), (Z.eqb_spec ret 0); try lia; [done|].
  apply append_run, Hr.
Qed.

Lemma num_encode_run n st : good (snd st) -> (0 < size)%nat -> - 2 ^ 31 <= n < 2 ^ 31 ->
  num_encode append_bytes size n st = Some (run [num_text n] st).
Proof.
  intros Hg Hsz Hn. unfold num_encode.
  destruct (snprintk_spec size empty 1 12 [Dir Plain None 0 Signed] [Num n] [ANum n] (num_text n)) as (m' & E & _ & Hc); try done.
  { by repeat constructor. } { by repeat constructor. } { cbn. by rewrite s32_small, app_nil_r. }
  change (show [Dir Plain None 0 Signed]) with [37; 100] in E. rewrite E. destruct (num_text_chars n Hn) as [Hf Hl].
  destruct (Z.ltb_spec (Z.of_nat (length (num_text n))) 0); [lia|]. rewrite Z.geb_leb.
  destruct (Z.leb_spec 12 (Z.of_nat (length (num_text n)))); [lia|]. rewrite take_ge in Hc by lia.
  assert (s8 <$> num_text n = num_text n) as Es by (rewrite <- (list_fmap_id (num_text n)) at 2; apply list_fmap_ext; intros i c Hi; by apply (Forall_lookup_1 _ _ _ _ Hf Hi)).
  rewrite Es in Hc. specialize (Hc ltac:(lia)). apply chars_app in Hc as [Hc _]. rewrite (chars_list _ _ _ Hc). by apply append_run.
Qed.

(** The array and the object, given the encoding of what they contain. *)
Definition encodes (enc : Z -> memory * C -> option (memory * C * Z)) st (p : Z) (v : jval) : Prop :=
  forall st', reach st st' -> enc p st' = Some (run (pieces v) st').

Lemma separator_run b st k ps : good (snd st) -> (forall st', reach st st' -> k st' = Some (run ps st')) ->
  unless_error (if b : bool then append append_bytes [44] st else Some (st, 0)) k = Some (run ((if b then [[44]] else []) ++ ps) st).
Proof.
  intros Hg Hk. destruct b; [rewrite append_run by done; by apply seq_run|]. by apply (seq_run [] ps).
Qed.

Lemma elements_encode_run enc (sz : Z) st0 vs : forall n p st, good (snd st) -> reach st0 st ->
  length vs = n -> (forall i v, vs !! i = Some v -> encodes enc st0 (p + Z.of_nat i * sz) v) ->
  elements_encode append_bytes enc n p sz st = Some (run (separated [[44]] (pieces <$> vs) ++ [[93]]) st).
Proof.
  induction vs as [|v vs IH]; intros [|n] p st Hg Hr Hl Hv; try done; cbn [elements_encode].
  - by apply append_run.
  - pose proof (Hv 0%nat v eq_refl st Hr) as Hv0. cbn in Hv0. rewrite Z.add_0_r in Hv0. rewrite Hv0. injection Hl as Hl.
    rewrite fmap_cons. cbn [separated]. rewrite <- app_assoc. apply seq_run; [done|]. intros st1 Hr1.
    assert ((if decide (pieces <$> vs = []) then [] else [[44]] ++ separated [[44]] (pieces <$> vs)) ++ [[93]] =
      (if (0 <? n)%nat then [[44]] else []) ++ separated [[44]] (pieces <$> vs) ++ [[93]]) as ->.
    { destruct vs; cbn [length] in Hl; subst n; [done|]. rewrite decide_False by done. done. }
    apply separator_run; [apply Hr1|]. intros st2 Hr2. apply IH; [apply Hr2|eauto using reach_trans|done|].
    intros i w Hi. replace (p + sz + Z.of_nat i * sz) with (p + Z.of_nat (S i) * sz) by lia. by apply Hv.
Qed.

Lemma fields_encode_run enc st0 vl ds : forall kvs st, good (snd st) -> reach st0 st ->
  Forall2 (fun d kv => read_string ok (fst st0) size (field_name d) = Some (fst kv) /\ encodes (enc d) st0 vl (snd kv)) ds kvs ->
  fields_encode append_bytes size enc ds vl st =
  Some (run (separated [[44]] ((fun kv => str_pieces (fst kv) ++ [58] :: pieces (snd kv)) <$> kvs) ++ [[125]]) st).
Proof.
  induction ds as [|d ds IH]; intros kvs st Hg Hr Hkv; inversion Hkv as [|? [k v] ? kvs' [Hk Hv] Hkv']; subst; cbn [fields_encode].
  - by apply append_run.
  - rewrite (str_encode_run k); [|done|by eapply read_string_agree; [|apply Hr|]].
    rewrite fmap_cons. cbn [separated fst snd]. rewrite <- !app_assoc. apply seq_run; [done|]. intros st1 Hr1.
    rewrite append_run by apply Hr1. cbn [app]. apply (seq_run [[58]]); [apply Hr1|]. intros st2 Hr2.
    rewrite Hv by eauto using reach_trans. apply seq_run; [apply Hr2|]. intros st3 Hr3.
    assert (forall l : list (list Z), (if decide ((fun kv => str_pieces (fst kv) ++ [58] :: pieces (snd kv)) <$> kvs' = []) then [] else [44] :: l) ++ [[125]] =
      (if bool_decide (ds <> []) then [[44]] else []) ++ (if decide (kvs' = []) then [] else l) ++ [[125]]) as Esep.
    { intros l. inversion Hkv'; subst; [done|]. rewrite decide_False, bool_decide_true, decide_False by done. done. }
    rewrite Esep. apply separator_run; [apply Hr3|]. intros st4 Hr4. rewrite (IH kvs') by (done || apply Hr4 || eauto using reach_trans).
    by destruct kvs'.
Qed.

Lemma read_elements_lookup f n : forall p (sz : Z) vs, read_elements f n p sz = Some vs ->
  length vs = n /\ forall i v, vs !! i = Some v -> f (p + Z.of_nat i * sz) = Some v.
Proof.
  induction n as [|n IH]; intros p sz vs; cbn [read_elements]; [by intros [= <-]|].
  destruct (f p) as [v|] eqn:E; [|done]. destruct (read_elements f n _ _) as [vs'|] eqn:E'; [|done]. intros [= <-].
  destruct (IH _ _ _ E') as [Hl Hi]. split; [cbn; by rewrite Hl|]. intros [|i] w Hw; cbn in Hw.
  - injection Hw as <-. by rewrite Z.mul_0_l, Z.add_0_r.
  - rewrite <- (Hi i w Hw). f_equal. lia.
Qed.

Lemma read_fields_Forall2 rd m ds vl : forall kvs, read_fields ok size m rd ds vl = Some kvs ->
  Forall2 (fun d kv => read_string ok m size (field_name d) = Some (fst kv) /\ rd d (vl + offset d) vl = Some (snd kv)) ds kvs.
Proof.
  induction ds as [|d ds IH]; intros kvs; cbn [read_fields]; [intros [= <-]; constructor|].
  destruct (read_string ok m size (field_name d)) as [k|] eqn:E1; [|done]. destruct (rd d _ vl) as [v|] eqn:E2; [|done].
  destruct (read_fields ok size m rd ds vl) as [kvs'|] eqn:E3; [|done]. intros [= <-]. constructor; [done|by apply IH].
Qed.

Definition encode_ok d : Prop := forall vl st v, good (snd st) ->
  read_value ok size (fst st) d (vl + offset d) vl = Some v -> encode append_bytes size d vl st = Some (run (pieces v) st).

Lemma encode_ok_encodes d st vl v : encode_ok d -> read_value ok size (fst st) d (vl + offset d) vl = Some v ->
  encodes (encode append_bytes size d) st vl v.
Proof. intros Hd Hv st' [Hg Ha]. apply Hd; [done|]. by eapply read_value_agree. Qed.

Lemma obj_encode_run ds : Forall encode_ok ds -> forall vl kvs st, good (snd st) ->
  read_fields ok size (fst st) (read_value ok size (fst st)) ds vl = Some kvs ->
  obj_encode append_bytes size (encode append_bytes size) ds vl st = Some (run (pieces (JObj kvs)) st).
Proof.
  intros Hds vl kvs st Hg Hr. unfold obj_encode. rewrite append_run by done. apply (seq_run [[123]]); [done|]. intros st1 Hr1.
  eapply fields_encode_run; [apply Hr1|exact Hr1|]. apply read_fields_Forall2 in Hr. clear Hr1. induction Hr as [|d kv ds kvs [Hk Hv] Hr IH]; [done|].
  apply Forall_cons in Hds as [Hd Hds]. constructor; [|by apply IH]. split; [done|]. by apply encode_ok_encodes.
Qed.

Lemma arr_encode_run e field vl n vs st : good (snd st) -> encode_ok e -> read32 ok (fst st) (vl + offset e) = Some n ->
  read_elements (fun f => read_value ok size (fst st) e f (f - offset e)) (Z.to_nat n) field (get_elem_size e) = Some vs ->
  arr_encode append_bytes (encode append_bytes size) e field vl st = Some (run (pieces (JArr vs)) st).
Proof.
  intros Hg He Hn Hvs. unfold arr_encode. apply read32_Some in Hn as ->.
  rewrite append_run by done. apply (seq_run [[91]]); [done|]. intros st1 Hr1. destruct (read_elements_lookup _ _ _ _ _ Hvs) as [Hl Hi].
  apply (elements_encode_run _ _ st); [apply Hr1|done|done|]. intros i v Hv st' Hr'. specialize (Hi i v Hv). cbn in Hi.
  eapply encode_ok_encodes; [done| |exact Hr']. by rewrite Z.sub_add.
Qed.

Lemma encode_run d : (0 < size)%nat -> encode_ok d.
Proof.
  intros Hsz. induction d as [fn fl off al ty sub n Hsub] using descr_ind. intros vl st v Hg.
  destruct ty; cbn [read_value encode offset]; try done.
  - intros (kvs & E & ->)%fmap_Some. by apply obj_encode_run.
  - destruct sub as [|e sub]; [done|]. apply Forall_cons in Hsub as [He _]. destruct (read32 ok (fst st) (vl + offset e)) as [c|] eqn:E; [|done].
    intros (vs & Evs & ->)%fmap_Some. by eapply arr_encode_run.
  - destruct (read32 ok (fst st) (vl + off)) as [p|] eqn:E; [|done]. apply read32_Some in E as ->. intros (l & El & ->)%fmap_Some. by apply (str_encode_run l).
  - intros (x & E & ->)%fmap_Some. apply read32_Some in E as ->. apply num_encode_run; [done|done|].
    unfold s32. pose proof (Z.mod_pos_bound (ld32 (fst st) (vl + off) + 2 ^ 31) (2 ^ 32)). lia.
  - intros (x & E & ->)%fmap_Some. unfold read8 in E. case_match; [|done]. injection E as <-. by apply append_run.
  - intros (x & E & ->)%fmap_Some. unfold read8 in E. case_match; [|done]. injection E as <-. by apply append_run.
Qed.

(** The encoder outputs the pieces of the value. *)
Lemma json_obj_encode_run ds vl v st : (0 < size)%nat -> good (snd st) -> read_object ok size (fst st) ds vl = Some v ->
  json_obj_encode append_bytes size ds vl st = Some (run (pieces v) st).
Proof.
  intros Hsz Hg (kvs & E & ->)%fmap_Some. apply obj_encode_run; [|done|done]. apply Forall_forall. intros d _. by apply encode_run.
Qed.

End Encoding.

(** ** The text that is output *)

Fixpoint jval_ind' (P : jval -> Prop) (Hnum : forall n, P (JNum n)) (Hbool : forall b, P (JBool b)) (Hstr : forall l, P (JStr l))
    (Harr : forall vs, Forall P vs -> P (JArr vs)) (Hobj : forall kvs, Forall (fun kv => P (snd kv)) kvs -> P (JObj kvs)) (v : jval) : P v :=
  let IH := jval_ind' P Hnum Hbool Hstr Harr Hobj in
  match v with
  | JNum n => Hnum n
  | JBool b => Hbool b
  | JStr l => Hstr l
  | JArr vs => Harr vs ((fix go l : Forall P l := match l with [] => List.Forall_nil _ | x :: l => List.Forall_cons _ _ _ (IH x) (go l) end) vs)
  | JObj kvs => Hobj kvs ((fix go l : Forall (fun kv => P (snd kv)) l :=
      match l with [] => List.Forall_nil _ | x :: l => List.Forall_cons _ _ _ (IH (snd x)) (go l) end) kvs)
  end.

Lemma concat_separated {A} (sep : list (list A)) pss : concat (separated sep pss) = separated (concat sep) (@concat A <$> pss).
Proof.
  induction pss as [|ps pss IH]; [done|]. rewrite fmap_cons. cbn [separated]. rewrite concat_app. f_equal.
  destruct pss; [done|]. rewrite !decide_False by done. by rewrite concat_app, IH.
Qed.

Lemma concat_str_pieces l : concat (str_pieces l) = quoted l.
Proof. unfold str_pieces, quoted, escaped. cbn. by rewrite concat_app. Qed.

Lemma concat_pieces v : concat (pieces v) = json_text v.
Proof.
  induction v as [n|b|l|vs IH|kvs IH] using jval_ind'; cbn [pieces json_text concat]; [by rewrite app_nil_r..|apply concat_str_pieces| |].
  - cbn [app]. f_equal. rewrite concat_app, concat_separated. f_equal. f_equal. rewrite <- list_fmap_compose. by apply Forall_fmap_ext.
  - cbn [app]. f_equal. rewrite concat_app, concat_separated. f_equal. f_equal. rewrite <- list_fmap_compose. apply Forall_fmap_ext.
    eapply Forall_impl; [exact IH|]. intros [k v] Hv. unfold compose. cbn [fst snd] in *.
    rewrite concat_app, concat_str_pieces. cbn [concat app]. by rewrite Hv.
Qed.

(** What can be in memory: characters and numbers of their width. *)
Definition char_ok (c : Z) : Prop := s8 c = c /\ c <> 0.

Inductive val_ok : jval -> Prop :=
  | ok_num n : - 2 ^ 31 <= n < 2 ^ 31 -> val_ok (JNum n)
  | ok_bool b : val_ok (JBool b)
  | ok_str l : Forall char_ok l -> val_ok (JStr l)
  | ok_arr vs : Forall val_ok vs -> val_ok (JArr vs)
  | ok_obj kvs : Forall (fun kv => Forall char_ok (fst kv)) kvs -> Forall (fun kv => val_ok (snd kv)) kvs -> val_ok (JObj kvs).

Lemma read_string_ok ok m fuel : forall p l, read_string ok m fuel p = Some l -> Forall char_ok l.
Proof.
  induction fuel as [|fuel IH]; intros p l; [done|]. cbn [read_string]. case_match; [|done]. destruct (Z.eqb_spec (ldc m p) 0) as [|Hn].
  - intros [= <-]. constructor.
  - intros (l' & Hl & ->)%fmap_Some. constructor; [|by eapply IH]. split; [apply s8_ldc|done].
Qed.

Lemma read_value_ok ok size m d : forall field vl v, read_value ok size m d field vl = Some v -> val_ok v.
Proof.
  induction d as [fn fl off al ty sub n Hsub] using descr_ind. intros field vl v. destruct ty; cbn [read_value]; try done.
  - intros (kvs & E & ->)%fmap_Some. apply read_fields_Forall2 in E. constructor.
    + clear Hsub. induction E as [|d kv ds kvs [Hk _] _ IH]; constructor; [by eapply read_string_ok|done].
    + induction E as [|d kv ds kvs [_ Hv] _ IH]; [constructor|]. apply Forall_cons in Hsub as [Hd Hsub]. constructor; [by eapply Hd|auto].
  - destruct sub as [|e sub]; [done|]. apply Forall_cons in Hsub as [He _]. destruct (read32 ok m (vl + offset e)); [|done].
    intros (vs & E & ->)%fmap_Some. apply read_elements_lookup in E as [_ E]. constructor. apply Forall_lookup. intros i v Hi.
    specialize (E i v Hi). by eapply He.
  - destruct (read32 ok m field); [|done]. intros (l & E & ->)%fmap_Some. constructor. by eapply read_string_ok.
  - intros (x & E & ->)%fmap_Some. constructor. unfold s32. pose proof (Z.mod_pos_bound (x + 2 ^ 31) (2 ^ 32)). lia.
  - intros (x & E & ->)%fmap_Some. constructor.
  - intros (x & E & ->)%fmap_Some. constructor.
Qed.

Lemma read_object_ok ok size m ds vl v : read_object ok size m ds vl = Some v -> val_ok v.
Proof.
  intros H. apply (read_value_ok ok size m (mk_descr 0 0 0 0 JSON_TOK_OBJECT_START ds 0) vl vl). exact H.
Qed.

Lemma separated_Forall {A} (P : A -> Prop) sep ls : Forall P sep -> Forall (Forall P) ls -> Forall P (separated sep ls).
Proof.
  intros Hs. induction 1 as [|l ls Hl _ IH]; [constructor|]. cbn [separated]. apply Forall_app. split; [done|].
  case_decide; [constructor|]. by apply Forall_app.
Qed.

Lemma quoted_ok l : Forall char_ok l -> Forall char_ok (quoted l).
Proof.
  intros Hl. unfold quoted. constructor; [done|]. apply Forall_app. split; [|by repeat constructor]. unfold escaped.
  induction Hl as [|c l Hc _ IH]; [constructor|]. rewrite fmap_cons. cbn [concat]. apply Forall_app. split; [|done].
  unfold esc. destruct (Z.eqb_spec (escape_as c) 0); repeat constructor; try apply Hc; try done. apply escape_as_char.
Qed.

(** The characters of a text. *)
Lemma json_text_ok v : val_ok v -> Forall char_ok (json_text v).
Proof.
  induction v as [n|b|l|vs IH|kvs IH] using jval_ind'; intros Hv; inversion Hv; subst; cbn [json_text].
  - by apply num_text_chars.
  - destruct b; by repeat constructor.
  - by apply quoted_ok.
  - constructor; [done|]. apply Forall_app. split; [|by repeat constructor]. apply separated_Forall; [by repeat constructor|].
    apply Forall_fmap, Forall_forall. intros v Hin. rewrite Forall_forall in *. auto.
  - constructor; [done|]. apply Forall_app. split; [|by repeat constructor]. apply separated_Forall; [by repeat constructor|].
    apply Forall_fmap, Forall_forall. intros [k v] Hin. rewrite Forall_forall in *. unfold compose. cbn [fst snd]. apply Forall_app. split.
    + apply quoted_ok. by apply (H0 (k, v)).
    + constructor; [done|]. apply (IH (k, v) Hin), (H1 (k, v) Hin).
Qed.

(** ** Into a buffer *)

Lemma store_same l : forall m p, same_but m (store m p l) p (p + Z.of_nat (length l)).
Proof.
  induction l as [|c l IH]; intros m p; [done|]. cbn [store length].
  eapply same_but_trans; [apply (same_but_st8 m p c); lia|]. eapply same_but_le; [| |apply IH]; lia.
Qed.

Lemma store_chars l : forall m p, Forall char_ok l -> chars (store m p l) p l.
Proof.
  induction l as [|c l IH]; intros m p Hl; [done|]. apply Forall_cons in Hl as [[Hc _] Hl]. cbn [store chars].
  split; [|by apply IH]. rewrite store_same by lia. by rewrite ldc_st8, decide_True.
Qed.

(** the bytes a run may not touch: outside of the buffer and of the byte behind it *)
Definition outside (buf buf_size q : Z) : bool := negb ((buf <=? q) && (q <=? buf + buf_size)).

Lemma outside_agree buf bs m m' : same_but m m' buf (buf + bs + 1) -> agree (outside buf bs) m m'.
Proof.
  intros Hs q Hq. unfold outside in Hq. assert (ldc m' q = ldc m q) as E by (apply Hs; lia).
  rewrite !ldc_ld8 in E. rewrite <- (u8_ld8 m q), <- (u8_ld8 m' q), <- (u8_s8 (ld8 m q)), <- (u8_s8 (ld8 m' q)). by rewrite E.
Qed.

Definition in_appender (buf bs : Z) (a : appender) : Prop := buffer a = buf /\ ap_size a = bs /\ 0 <= used a <= bs.

(** One piece: it is stored and terminated, or there is no room for it. *)
Lemma append_buf_spec l m buf (n bs : Z) : 0 <= n <= bs -> bs < 2 ^ 32 ->
  if decide (n + Z.of_nat (length l) <= bs) then
    append_bytes_to_buf l (m, mk_appender buf n bs) =
      (st8 (store m (buf + n) l) (buf + (n + Z.of_nat (length l))) 0, mk_appender buf (n + Z.of_nat (length l)) bs, 0)
  else append_bytes_to_buf l (m, mk_appender buf n bs) = (m, mk_appender buf n bs, - ENOMEM).
Proof.
  intros Hn Hb. unfold append_bytes_to_buf. cbn [ap_size used buffer]. rewrite u32_small by lia. rewrite Z.gtb_ltb.
  case_decide; destruct (Z.ltb_spec (bs - n) (Z.of_nat (length l))); try lia; [|done]. by rewrite u32_small by lia.
Qed.

Lemma append_buf_same l m buf (n bs : Z) : 0 <= n -> n + Z.of_nat (length l) <= bs ->
  same_but m (st8 (store m (buf + n) l) (buf + (n + Z.of_nat (length l))) 0) (buf + n) (buf + bs + 1).
Proof. intros. eapply same_but_trans; [eapply same_but_le; [| |apply (store_same l m (buf + n))]; lia|]. apply same_but_st8. lia. Qed.

Lemma append_buf_chars l m buf (n : Z) : Forall char_ok l ->
  chars (st8 (store m (buf + n) l) (buf + (n + Z.of_nat (length l))) 0) (buf + n) (l ++ [0]).
Proof.
  intros Hl. apply chars_app. split; [|split; [rewrite ldc_st8, decide_True by lia; done|done]].
  eapply chars_agree; [|by apply store_chars]. intros q Hq. by rewrite ldc_st8, decide_False by lia.
Qed.

Lemma append_buf_reach buf bs l st : bs < 2 ^ 32 -> in_appender buf bs (snd st) ->
  reach (outside buf bs) (in_appender buf bs) st (fst (append_bytes_to_buf l st)) /\ snd (append_bytes_to_buf l st) <= 0.
Proof.
  destruct st as [m [b n z]]. intros Hb (Hbuf & Hz & Hn). cbn [snd buffer ap_size used] in *. subst.
  pose proof (append_buf_spec l m buf n bs Hn Hb) as E. case_decide; rewrite E.
  - split; [|done]. split; [by split_and!; cbn; lia|]. apply outside_agree. eapply same_but_le; [| |apply (append_buf_same l m buf n bs); lia]; lia.
  - done.
Qed.

(** All pieces fit and are stored one after the other, or the result is an error. *)
Lemma buf_run buf (bs : Z) ps : bs < 2 ^ 32 -> forall m prefix, Z.of_nat (length prefix) <= bs -> chars m buf prefix -> Forall char_ok (concat ps) ->
  exists m' a, let total := Z.of_nat (length (prefix ++ concat ps)) in
    run append_bytes_to_buf ps (m, mk_appender buf (Z.of_nat (length prefix)) bs) = (m', a, if decide (total <= bs) then 0 else - ENOMEM) /\
    same_but m m' buf (buf + bs + 1) /\
    (total <= bs -> chars m' buf (prefix ++ concat ps) /\ (ps <> [] -> ldc m' (buf + total) = 0)).
Proof.
  intros Hb. induction ps as [|p ps IH]; intros m prefix Hp Hc Hok; cbv zeta.
  { exists m, (mk_appender buf (Z.of_nat (length prefix)) bs). cbn [concat]. rewrite app_nil_r, decide_True by done. by split_and!. }
  cbn [concat] in *. apply Forall_app in Hok as [Hokp Hok]. rewrite (app_assoc prefix p (concat ps)). set (prefix' := prefix ++ p).
  assert (Z.of_nat (length prefix') = Z.of_nat (length prefix) + Z.of_nat (length p)) as Hl by (unfold prefix'; rewrite length_app; lia).
  cbn [run]. pose proof (append_buf_spec p m buf (Z.of_nat (length prefix)) bs ltac:(lia) Hb) as E. case_decide as Hfit; rewrite E; cbn [Z.ltb Z.compare].
  - set (m1 := st8 _ _ 0). pose proof (append_buf_same p m buf (Z.of_nat (length prefix)) bs ltac:(lia) Hfit) as Hs1.
    pose proof (append_buf_chars p m buf (Z.of_nat (length prefix)) Hokp) as Hc1. fold m1 in Hs1, Hc1. apply chars_app in Hc1 as [Hc1 [He1 _]].
    assert (chars m1 buf prefix') as Hc'. { apply chars_app. split; [|done]. eapply chars_out; [exact Hs1|lia|done]. }
    rewrite <- Hl. destruct (IH m1 prefix' ltac:(lia) Hc' Hok) as (m' & a & Er & Hs & Ht). exists m', a. split; [exact Er|]. split.
    { eapply same_but_trans; [|exact Hs]. eapply same_but_le; [| |exact Hs1]; lia. }
    intros Htot. destruct (Ht Htot) as [H1 H2]. split; [done|]. intros _. destruct ps as [|p' ps]; [|by apply H2].
    cbn [concat run] in *. injection Er as <- _. rewrite app_nil_r. rewrite <- He1. f_equal. lia.
  - exists m, (mk_appender buf (Z.of_nat (length prefix)) bs). 
    assert (~ Z.of_nat (length (prefix' ++ concat ps)) <= bs) as Hno by (rewrite length_app; lia). rewrite decide_False by done. by split_and!.
Qed.

Lemma measure_reach ok l st : reach ok (fun _ => True) st (fst (measure_bytes l st)).
Proof. by destruct st. Qed.

Lemma measure_result l (st : memory * Z) : snd (measure_bytes l st) <= 0.
Proof. by destruct st. Qed.

Lemma measure_run ps m : forall n, 0 <= n -> n + Z.of_nat (length (concat ps)) < 2 ^ 31 ->
  run measure_bytes ps (m, n) = (m, n + Z.of_nat (length (concat ps)), 0).
Proof.
  induction ps as [|p ps IH]; intros n Hn Hl; [cbn; by rewrite Z.add_0_r|]. cbn [run measure_bytes concat] in *. rewrite length_app in *.
  rewrite s32_small by lia. cbn [Z.ltb Z.compare]. rewrite IH by lia. do 2 f_equal. lia.
Qed.

Lemma encode_buf_text size m ds vl buf (buf_size : Z) v :
  (0 < size)%nat -> 0 <= buf_size < 2 ^ 32 -> read_object (outside buf buf_size) size m ds vl = Some v ->
  exists m', json_obj_encode_buf size m ds vl buf buf_size =
      Some (m', if decide (Z.of_nat (length (json_text v)) <= buf_size) then 0 else - ENOMEM) /\
    same_but m m' buf (buf + buf_size + 1) /\
    (Z.of_nat (length (json_text v)) <= buf_size -> chars m' buf (json_text v ++ [0])).
Proof.
  intros Hsz Hb Hr. pose proof (json_text_ok v (read_object_ok _ _ _ _ _ _ Hr)) as Hok. rewrite <- concat_pieces in *.
  unfold json_obj_encode_buf. rewrite (json_obj_encode_run append_bytes_to_buf size (outside buf buf_size) (in_appender buf buf_size)
    (fun l st H => proj1 (append_buf_reach buf buf_size l st (proj2 Hb) H)) (fun l st H => proj2 (append_buf_reach buf buf_size l st (proj2 Hb) H)) ds vl v)
    by (done || split_and!; cbn; done || lia).
  destruct (buf_run buf buf_size (pieces v) (proj2 Hb) m []) as (m' & a & E & Hs & Hc); [cbn; lia|done|done|]. cbn [length app] in *.
  change (Z.of_nat 0) with 0 in E. rewrite E. exists m'. split; [done|]. split; [done|]. intros Hfit. destruct (Hc Hfit) as [H1 H2].
  apply chars_app. split; [done|]. split; [|done]. apply H2. by destruct v.
Qed.

(** C35. The encoder stores the JSON text of a structure and its terminator in the
    buffer, and reports an error when the text is longer than the buffer; it writes
    nothing else.  The length that [json_calc_encoded_len] computes is that of the
    text.  (For a text as long as the buffer the terminator is behind the buffer.) *)
Theorem json_encodes_text size m ds vl buf (buf_size : Z) v :
  (0 < size)%nat -> 0 <= buf_size < 2 ^ 32 -> read_object (outside buf buf_size) size m ds vl = Some v ->
  Z.of_nat (length (json_text v)) < 2 ^ 31 ->
  json_calc_encoded_len size m ds vl = Some (Z.of_nat (length (json_text v))) /\
  exists m', json_obj_encode_buf size m ds vl buf buf_size =
      Some (m', if decide (Z.of_nat (length (json_text v)) <= buf_size) then 0 else - ENOMEM) /\
    same_but m m' buf (buf + buf_size + 1) /\
    (Z.of_nat (length (json_text v)) <= buf_size -> chars m' buf (json_text v ++ [0])).
Proof.
  intros Hsz Hb Hr Hl. split; [|by apply encode_buf_text]. rewrite <- concat_pieces in *. unfold json_calc_encoded_len.
  rewrite (json_obj_encode_run measure_bytes size (outside buf buf_size) (fun _ => True) (fun l st _ => measure_reach _ l st) (fun l st _ => measure_result l st) ds vl v) by done.
  by rewrite measure_run by lia.
Qed.

(** ** A structure

    [struct { s32_t num; char *str; s32_t arr[3]; size_t n; struct { bool on; } sub; }]
    at 2000, with the names of its fields from 1000 on. *)

Definition demo_names : memory :=
  store (store (store (store (store (store empty 1000 [110; 117; 109; 0]) 1010 [115; 116; 114; 0]) 1020 [97; 114; 114; 0]) 1030 [115; 117; 98; 0]) 1040 [111; 110; 0])
    1050 [104; 34; 121; 0].

Definition demo_descr : list json_obj_descr :=
  [JSON_OBJ_DESCR_PRIM 1000 3 0 4 JSON_TOK_NUMBER; JSON_OBJ_DESCR_PRIM 1010 3 4 4 JSON_TOK_STRING;
   JSON_OBJ_DESCR_ARRAY 1020 3 8 4 3 20 JSON_TOK_NUMBER;
   JSON_OBJ_DESCR_OBJECT 1030 3 24 4 [JSON_OBJ_DESCR_PRIM 1040 2 0 4 JSON_TOK_TRUE]].

Definition demo_struct : memory := st8 (st32 (st32 (st32 (st32 (st32 demo_names 2000 (-42)) 2004 1050) 2008 7) 2012 (-9)) 2020 2) 2024 1.

Definition demo_value : jval :=
  JObj [([110; 117; 109], JNum (-42)); ([115; 116; 114], JStr [104; 34; 121]); ([97; 114; 114], JArr [JNum 7; JNum (-9)]);
        ([115; 117; 98], JObj [([111; 110], JBool true)])].

Lemma json_escape_in_place_witness :
  chars demo_struct 1050 [104; 34; 121] /\
  let '(m', len', ret) := json_escape demo_struct 1050 3 8 in
  if decide (escaped [104; 34; 121] = [104; 34; 121] \/ Z.of_nat (length (escaped [104; 34; 121])) < 8) then
    ret = 0 /\ len' = Z.of_nat (length (escaped [104; 34; 121])) /\ chars m' 1050 (escaped [104; 34; 121]) /\
    (escaped [104; 34; 121] <> [104; 34; 121] -> ldc m' (1050 + len') = 0) /\ same_but demo_struct m' 1050 (1050 + 8)
  else ret = - ENOMEM /\ len' = Z.of_nat (length [104; 34; 121]) /\ m' = demo_struct.
Proof.
  split; [by vm_compute|]. apply (json_escape_in_place demo_struct 1050 [104; 34; 121] 8); [by vm_compute|done|by vm_compute].
Defined.

Lemma json_encodes_text_witness :
  json_calc_encoded_len 20 demo_struct demo_descr 2000 = Some 55 /\
  exists m', json_obj_encode_buf 20 demo_struct demo_descr 2000 3000 100 = Some (m', if decide (55 <= 100) then 0 else - ENOMEM) /\
    same_but demo_struct m' 3000 (3000 + 100 + 1) /\ (55 <= 100 -> chars m' 3000 (json_text demo_value ++ [0])).
Proof.
  apply (json_encodes_text 20 demo_struct demo_descr 2000 3000 100 demo_value); [lia|lia|vm_compute; reflexivity|vm_compute; reflexivity].
Defined.

End JsonText.
