(* ===== verification/JsonLex.v ===== *)
(** * The JSON lexer

    For any text the lexer stops, its tokens lie in the text and each one makes
    progress.  On the spelling of a token, with white space before it, it returns
    that token. *)

From S2P Require Import Prelude LibC Conv Printk Json.
Import LibC Conv Printk Json.

Local Open Scope Z_scope.

Module JsonLex.

Implicit Types (m : memory) (lx : lexer) (fuel : nat).

(** ** Steps *)

Lemma next_in m st s p e t : p < e -> next m (mk_lexer st s p e t) = (mk_lexer st s (p + 1) e t, ldc m p).
Proof. intros Hp. unfold next. cbn [lx_pos lx_end]. rewrite Z.geb_leb. by destruct (Z.leb_spec e p); [lia|]. Qed.

Lemma next_end m st s p e t : e <= p -> next m (mk_lexer st s p e t) = (mk_lexer st s (e + 1) e t, 0).
Proof. intros Hp. unfold next. cbn [lx_pos lx_end]. rewrite Z.geb_leb. by destruct (Z.leb_spec e p); [|lia]. Qed.

(** A character, or the end. *)
Lemma next_cases m st s p e t : p <= e ->
  (p < e /\ next m (mk_lexer st s p e t) = (mk_lexer st s (p + 1) e t, ldc m p)) \/
  (p = e /\ next m (mk_lexer st s p e t) = (mk_lexer st s (e + 1) e t, 0)).
Proof. intros Hp. destruct (decide (p < e)); [left|right]; (split; [lia|]); [by apply next_in|apply next_end; lia]. Qed.

(** ** Any text *)

(** not a token of the text *)
Definition no_token (ty : json_tokens) : bool :=
  match ty with JSON_TOK_ERROR | JSON_TOK_EOF | JSON_TOK_NONE => true | _ => false end.

(** The outcome of a state that emits a token: an error or the end, after which the
    lexer stops, or a token between [lo] and the new position, which has moved on. *)
Definition emitted (lo p e : Z) (r : lexer * option lexer_state) : Prop :=
  let '(lx, s) := r in
  lx_end lx = e /\
  ((s = None /\ (tk_type (lx_token lx) = JSON_TOK_ERROR \/ tk_type (lx_token lx) = JSON_TOK_EOF)) \/
   (s = Some LEXER_JSON /\ no_token (tk_type (lx_token lx)) = false /\
    p <= lx_pos lx <= e /\ lx_start lx = lx_pos lx /\
    lo <= tk_start (lx_token lx) <= tk_end (lx_token lx) /\ tk_end (lx_token lx) <= lx_pos lx /\
    (tk_type (lx_token lx) = JSON_TOK_STRING -> tk_end (lx_token lx) < lx_pos lx))).

Lemma emitted_error lo p e st s q t : emitted lo p e (emit (mk_lexer st s q e t) JSON_TOK_ERROR, None).
Proof. split; [done|]. left. auto. Qed.

Lemma emitted_token lo p e st s q t ty : no_token ty = false -> ty <> JSON_TOK_STRING -> p <= q <= e -> lo <= s <= q ->
  emitted lo p e (emit (mk_lexer st s q e t) ty, Some LEXER_JSON).
Proof. intros Ht Hts Hq Hs. split; [done|]. right. cbn. split_and!; try done; lia. Qed.

Lemma emitted_le lo p p' e r : p <= p' -> emitted lo p' e r -> emitted lo p e r.
Proof.
  intros Hp. destruct r as [lx s]. intros [He [H|(H1 & H2 & H3 & H4 & H5 & H6 & H7)]]; (split; [done|]); [by left|]. right. split_and!; done || lia.
Qed.

Lemma xdigits_cases n m : forall st s p e t, p <= e ->
  exists q, let '(lx, b) := xdigits n m (mk_lexer st s p e t) in lx = mk_lexer st s q e t /\ (b = true -> p <= q <= e).
Proof.
  induction n as [|n IH]; intros st s p e t Hp; cbn [xdigits]; [exists p; split; [done|lia]|].
  destruct (next_cases m st s p e t Hp) as [[Hlt ->]|[-> ->]].
  - destruct (isxdigit (ldc m p)); [|by exists (p + 1)]. destruct (IH st s (p + 1) e t ltac:(lia)) as [q Hq]. exists q.
    destruct (xdigits n m _) as [lx b]. destruct Hq as [-> Hq]. split; [done|]. intros Hb. specialize (Hq Hb). lia.
  - by exists (e + 1).
Qed.

Lemma string_loop_total fuel m : forall st s p e t, s <= p <= e -> e - p < Z.of_nat fuel ->
  exists r, string_loop fuel m (mk_lexer st s p e t) = Some r /\ emitted s p e r.
Proof.
  induction fuel as [|fuel IH]; intros st s p e t Hp Hf; [lia|]. cbn [string_loop].
  destruct (next_cases m st s p e t ltac:(lia)) as [[Hlt ->]|[-> ->]]; [|eexists; split; [done|apply emitted_error]].
  destruct (ldc m p =? 0); [eexists; split; [done|apply emitted_error]|]. destruct (ldc m p =? 92).
  - destruct (next_cases m st s (p + 1) e t ltac:(lia)) as [[Hlt' ->]|[E ->]]; [|eexists; split; [done|apply emitted_error]].
    destruct (escapable (ldc m (p + 1))).
    { destruct (IH st s (p + 1 + 1) e t) as (r & E & Hr); [lia|lia|]. exists r. split; [done|]. eapply emitted_le; [|done]. lia. }
    destruct (ldc m (p + 1) =? 117); [|eexists; split; [done|apply emitted_error]].
    destruct (xdigits_cases 4 m st s (p + 1 + 1) e t ltac:(lia)) as [q Hq]. destruct (xdigits 4 m _) as [lx []]; destruct Hq as [-> Hq].
    + specialize (Hq eq_refl). destruct (IH st s q e t) as (r & E & Hr); [lia|lia|]. exists r. split; [done|]. eapply emitted_le; [|done]. lia.
    + eexists; split; [done|apply emitted_error].
  - destruct (ldc m p =? 34).
    + eexists. split; [reflexivity|]. unfold backup, set_pos, emit. cbn [lx_state lx_start lx_pos lx_end lx_token].
      rewrite next_in by lia. unfold ignore. cbn. split; [done|]. right. split_and!; done || lia.
    + destruct (IH st s (p + 1) e t) as (r & E & Hr); [lia|lia|]. exists r. split; [done|]. eapply emitted_le; [|done]. lia.
Qed.

Lemma accept_run_cases run m : Forall (fun c => c <> 0) run -> forall st s p e t, p <= e ->
  exists q, let '(lx, b) := accept_run m (mk_lexer st s p e t) run in lx = mk_lexer st s q e t /\ (b = true -> p <= q <= e).
Proof.
  induction 1 as [|c run Hc _ IH]; intros st s p e t Hp; cbn [accept_run]; [exists p; split; [done|lia]|].
  destruct (next_cases m st s p e t Hp) as [[Hlt ->]|[-> ->]].
  - destruct (ldc m p =? c); [|by exists (p + 1)]. destruct (IH st s (p + 1) e t ltac:(lia)) as [q Hq]. exists q.
    destruct (accept_run m _ run) as [lx b]. destruct Hq as [-> Hq]. split; [done|]. intros Hb. specialize (Hq Hb). lia.
  - exists (e + 1). destruct (Z.eqb_spec 0 c); [by subst|done].
Qed.

Lemma lexer_number_total fuel m : forall st s p e t, s <= p <= e -> e - p < Z.of_nat fuel ->
  exists r, lexer_number fuel m (mk_lexer st s p e t) = Some r /\ emitted s p e r.
Proof.
  induction fuel as [|fuel IH]; intros st s p e t Hp Hf; [lia|]. cbn [lexer_number].
  destruct (next_cases m st s p e t ltac:(lia)) as [[Hlt ->]|[-> ->]].
  - destruct (isdigit (ldc m p) || (ldc m p =? 46)).
    + destruct (IH st s (p + 1) e t) as (r & E & Hr); [lia|lia|]. exists r. split; [done|]. eapply emitted_le; [|done]. lia.
    + eexists. split; [reflexivity|]. unfold backup, set_pos. cbn [lx_state lx_start lx_pos lx_end lx_token]. apply emitted_token; [done|done|lia|lia].
  - eexists. split; [reflexivity|]. unfold backup, set_pos. cbn [lx_state lx_start lx_pos lx_end lx_token]. apply emitted_token; [done|done|lia|lia].
Qed.

Lemma lexer_null_total m st s p e t : s <= p <= e -> emitted s p e (lexer_null m (mk_lexer st s p e t)).
Proof.
  intros Hp. unfold lexer_null. destruct (accept_run_cases [117; 108; 108] m ltac:(by repeat constructor) st s p e t ltac:(lia)) as [q Hq].
  destruct (accept_run m _ _) as [lx []]; destruct Hq as [-> Hq]; [|apply emitted_error]. specialize (Hq eq_refl). apply emitted_token; [done|done|lia|lia].
Qed.

Lemma lexer_boolean_total m st s p e t : s < p <= e -> emitted s p e (lexer_boolean m (mk_lexer st s p e t)).
Proof.
  intros Hp. unfold lexer_boolean, backup, set_pos. cbn [lx_state lx_start lx_pos lx_end lx_token]. rewrite next_in, Z.sub_add by lia.
  case_match; [|case_match; [|apply emitted_error]].
  - destruct (accept_run_cases [114; 117; 101] m ltac:(by repeat constructor) st s p e t ltac:(lia)) as [q Hq].
    destruct (accept_run m _ _) as [lx []]; destruct Hq as [-> Hq]; [|apply emitted_error]. specialize (Hq eq_refl). apply emitted_token; [done|done|lia|lia].
  - destruct (accept_run_cases [97; 108; 115; 101] m ltac:(by repeat constructor) st s p e t ltac:(lia)) as [q Hq].
    destruct (accept_run m _ _) as [lx []]; destruct Hq as [-> Hq]; [|apply emitted_error]. specialize (Hq eq_refl). apply emitted_token; [done|done|lia|lia].
Qed.

(** [lexer_json] emits a token of one character, or goes on with a state that emits
    one. *)
Definition moved (lo p e : Z) (t : token) (r : lexer * option lexer_state) : Prop :=
  emitted lo (p + 1) e r \/
  exists st s q k, r = (mk_lexer st s q e t, Some k) /\ k <> LEXER_JSON /\ lo <= s < q /\ p < q <= e.

Lemma moved_le lo p p' e t r : p <= p' -> moved lo p' e t r -> moved lo p e t r.
Proof.
  intros Hp [H|(st & s & q & k & -> & Hk & Hs & Hq)]; [left; eapply emitted_le; [|done]; lia|]. right. exists st, s, q, k. split_and!; done || lia.
Qed.

Lemma punctuation_token c ty : punctuation c = Some ty -> no_token ty = false /\ ty <> JSON_TOK_STRING.
Proof. unfold punctuation. repeat case_match; intros [= <-]; done. Qed.

Lemma lexer_json_total fuel m lo : forall st s p e t, lo <= s <= p -> p <= e -> e - p < Z.of_nat fuel ->
  exists r, lexer_json fuel m (mk_lexer st s p e t) = Some r /\ moved lo p e t r.
Proof.
  induction fuel as [|fuel IH]; intros st s p e t Hs Hp Hf; [lia|]. cbn [lexer_json].
  destruct (next_cases m st s p e t ltac:(lia)) as [[Hlt ->]|[-> ->]].
  2: { eexists. split; [reflexivity|]. left. split; [done|]. left. auto. }
  assert (forall lx, lx = mk_lexer st s (p + 1) e t -> exists r,
    (if isspace (ldc m p) then lexer_json fuel m (ignore lx) else if isdigit (ldc m p) then Some (lx, Some LEXER_NUMBER)
     else Some (emit lx JSON_TOK_ERROR, None)) = Some r /\ moved lo p e t r) as Hother.
  { intros lx ->. destruct (isspace (ldc m p)).
    - destruct (IH st (p + 1) (p + 1) e t) as (r & E & Hr); [lia..|]. exists r. split; [exact E|]. eapply moved_le; [|exact Hr]. lia.
    - destruct (isdigit (ldc m p)); (eexists; split; [reflexivity|]); [|left; apply emitted_error].
      right. eexists _, _, _, _. split_and!; done || lia. }
  destruct (ldc m p =? 0). { eexists. split; [reflexivity|]. left. split; [done|]. left. auto. }
  destruct (punctuation (ldc m p)) as [ty|] eqn:Ety.
  { eexists. split; [reflexivity|]. left. apply emitted_token; [by eapply punctuation_token|by eapply punctuation_token|lia|lia]. }
  assert (forall k, k <> LEXER_JSON -> exists r, Some (mk_lexer st s (p + 1) e t, Some k) = Some r /\ moved lo p e t r) as Hgo.
  { intros k Hk. eexists. split; [reflexivity|]. right. eexists _, _, _, _. split_and!; done || lia. }
  destruct (ldc m p =? 34); [by apply Hgo|]. destruct (ldc m p =? 110); [by apply Hgo|].
  destruct ((ldc m p =? 116) || (ldc m p =? 102)); [by apply Hgo|]. destruct (ldc m p =? 45); [|by apply Hother]. unfold peek.
  destruct (next_cases m st s (p + 1) e t ltac:(lia)) as [[Hlt' ->]|[E ->]]; unfold backup, set_pos; cbn [lx_state lx_start lx_pos lx_end lx_token].
  - replace (p + 1 + 1 - 1) with (p + 1) by lia. destruct (isdigit (ldc m (p + 1))); [by apply Hgo|by apply Hother].
  - replace (e + 1 - 1) with (p + 1) by lia. destruct (isdigit 0); [by apply Hgo|by apply Hother].
Qed.

(** A state other than [lexer_json] emits a token. *)
Lemma run_state_total fuel m k st s p e t : k <> LEXER_JSON -> s < p <= e -> e - p < Z.of_nat fuel ->
  exists r, run_state fuel m (mk_lexer st s p e t) k = Some r /\ emitted s p e r.
Proof.
  intros Hk Hp Hf. destruct k; try done; cbn [run_state].
  - unfold lexer_string, ignore. cbn [lx_state lx_start lx_pos lx_end lx_token].
    destruct (string_loop_total fuel m st p p e t) as (r & E & Hr); [lia|lia|]. exists r. split; [done|].
    destruct r as [lx o]. destruct Hr as [He [H|(H1 & H2 & H3 & H4 & H5 & H6 & H7)]]; (split; [done|]); [by left|]. right. split_and!; done || lia.
  - eexists. split; [reflexivity|]. by apply lexer_boolean_total.
  - eexists. split; [reflexivity|]. apply lexer_null_total. lia.
  - apply lexer_number_total; lia.
Qed.

(** Between two calls: ready for the next token, or stopped. *)
Definition ready (lo e : Z) lx : Prop :=
  lx_state lx = Some LEXER_JSON /\ tk_type (lx_token lx) = JSON_TOK_NONE /\ lx_end lx = e /\ lo <= lx_start lx <= lx_pos lx /\ lx_pos lx <= e.

Definition stopped lx : Prop := lx_state lx = None /\ tk_type (lx_token lx) = JSON_TOK_EOF.

(** What [lexer_next] gives: a token of the text, which is behind the new position,
    an error, or nothing. *)
Definition token_from (lo p e : Z) lx (o : option token) : Prop :=
  match o with
  | None => stopped lx
  | Some t =>
      (tk_type t = JSON_TOK_ERROR /\ stopped lx) \/
      (no_token (tk_type t) = false /\ ready lo e lx /\ p < lx_pos lx /\ lo <= tk_start t <= tk_end t /\ tk_end t <= lx_pos lx /\
       (tk_type t = JSON_TOK_STRING -> tk_end t < lx_pos lx))
  end.

Lemma next_emitted lo p e n fuel m lx s : emitted lo (p + 1) e (lx, s) ->
  exists lx' o, next_loop (S n) fuel m (set_state lx s) = Some (lx', o) /\ token_from lo p e lx' o.
Proof.
  intros [He [(-> & [Ht|Ht])|(-> & Ht & Hp & Hs & Hk & Hke & Hstr)]]; cbn [next_loop set_state lx_state]; unfold lexer_consume; cbn [lx_token set_state];
    destruct lx as [st ls lp le [ty ts te]]; cbn in *; subst.
  - eexists _, _. split; [reflexivity|]. left. done.
  - eexists _, _. split; [reflexivity|]. done.
  - assert (ty <> JSON_TOK_NONE) by (by intros ->). rewrite decide_False by done. eexists _, _. split; [reflexivity|].
    right. unfold ready. cbn in *. split_and!; done || lia.
Qed.

Lemma lexer_next_total fuel m lo e lx : ready lo e lx -> e - lx_pos lx < Z.of_nat fuel -> (3 <= fuel)%nat ->
  exists lx' o, lexer_next fuel m lx = Some (lx', o) /\ token_from lo (lx_pos lx) e lx' o.
Proof.
  destruct lx as [st s p e' t]. intros (Hst & Ht & He & Hs & Hp) Hf H3. cbn in *. subst.
  unfold lexer_next. destruct fuel as [|[|[|n]]]; try lia. set (fuel := S (S (S n))) in *. unfold fuel at 1. cbn [next_loop lx_state].
  unfold lexer_consume at 1. cbn [lx_token]. rewrite decide_True by done. cbn [run_state].
  destruct (lexer_json_total fuel m lo (Some LEXER_JSON) s p e t) as (r & -> & Hr); [lia..|].
  destruct Hr as [Hr|(st' & s' & q & k & -> & Hk & Hs' & Hq)].
  - destruct r as [lx o]. by apply (next_emitted _ _ _ (S n)).
  - unfold set_state. cbn [lx_state lx_start lx_pos lx_end lx_token next_loop]. unfold lexer_consume at 1. cbn [lx_token]. rewrite decide_True by done.
    destruct (run_state_total fuel m k (Some k) s' q e t) as (r & -> & Hr); [done|lia|lia|]. destruct r as [lx o].
    apply (next_emitted _ _ _ n). destruct Hr as [He [H|(H1 & H2 & H3' & H4 & H5 & H6 & H7)]]; (split; [done|]); [by left|].
    right. split_and!; done || lia.
Qed.

Lemma lexer_next_stopped fuel m lx : stopped lx -> (0 < fuel)%nat -> lexer_next fuel m lx = Some (lx, None).
Proof.
  intros [Hs Ht] Hf. unfold lexer_next. destruct fuel; [lia|]. cbn [next_loop]. rewrite Hs. unfold lexer_consume. by rewrite decide_True.
Qed.

(** ** Spelled tokens *)

Definition is_ws (c : Z) : Prop := c = 32 \/ 9 <= c <= 13.

(** What may stand between the quotes of a string. *)
Inductive string_body : list Z -> Prop :=
  | body_nil : string_body []
  | body_plain c l : c <> 0 -> c <> 92 -> c <> 34 -> string_body l -> string_body (c :: l)
  | body_escape c l : escapable c = true -> string_body l -> string_body (92 :: c :: l)
  | body_unicode xs l : length xs = 4%nat -> Forall (fun c => isxdigit c = true) xs -> string_body l -> string_body (92 :: 117 :: xs ++ l).

Inductive lexeme := Punct (c : Z) (ty : json_tokens) | StrTok (raw : list Z) | NumTok (l : list Z) | BoolTok (b : bool).

Definition spelling (x : lexeme) : list Z :=
  match x with
  | Punct c _ => [c]
  | StrTok raw => 34 :: raw ++ [34]
  | NumTok l => l
  | BoolTok b => if b then [116; 114; 117; 101] else [102; 97; 108; 115; 101]
  end.

(** [sign digit digits] *)
Definition integer (l : list Z) : Prop :=
  exists neg c ds, l = (if neg : bool then [45] else []) ++ c :: ds /\ Forall (fun c => 48 <= c <= 57) (c :: ds).

Definition lexeme_ok (x : lexeme) : Prop :=
  match x with
  | Punct c ty => punctuation c = Some ty
  | StrTok raw => string_body raw
  | NumTok l => integer l
  | BoolTok _ => True
  end.

(** A number ends where what follows does not continue it. *)
Definition boundary (x : lexeme) (l : list Z) : Prop :=
  match x with NumTok _ => match l with [] => True | c :: _ => isdigit c = false /\ c <> 46 end | _ => True end.

(** the token of a lexeme at [p] *)
Definition token_at (p : Z) (x : lexeme) : token :=
  match x with
  | Punct c ty => mk_token ty p (p + 1)
  | StrTok raw => mk_token JSON_TOK_STRING (p + 1) (p + 1 + Z.of_nat (length raw))
  | NumTok l => mk_token JSON_TOK_NUMBER p (p + Z.of_nat (length l))
  | BoolTok b => mk_token (if b then JSON_TOK_TRUE else JSON_TOK_FALSE) p (p + Z.of_nat (length (spelling (BoolTok b))))
  end.

(** [l] begins with these lexemes, with white space before them. *)
Inductive written : list lexeme -> list Z -> Prop :=
  | written_nil l : written [] l
  | written_cons ws x xs l : Forall is_ws ws -> lexeme_ok x -> boundary x l -> written xs l -> written (x :: xs) (ws ++ spelling x ++ l).

Lemma xdigits_spelled m xs : forall st s p e t, Forall (fun c => isxdigit c = true) xs -> chars m p xs -> p + Z.of_nat (length xs) <= e ->
  xdigits (length xs) m (mk_lexer st s p e t) = (mk_lexer st s (p + Z.of_nat (length xs)) e t, true).
Proof.
  induction xs as [|c xs IH]; intros st s p e t Hx Hc He; cbn [length xdigits chars] in *; [by rewrite Z.add_0_r|].
  destruct Hc as [Hc Hcs]. apply Forall_cons in Hx as [Hx Hxs]. rewrite next_in, Hc, Hx by lia. rewrite IH by (done || lia). do 2 f_equal. lia.
Qed.

Lemma string_loop_spelled m raw : string_body raw -> forall fuel st s p e t, chars m p (raw ++ [34]) -> (length raw < fuel)%nat ->
  p + Z.of_nat (length raw) < e ->
  let q := p + Z.of_nat (length raw) in
  string_loop fuel m (mk_lexer st s p e t) = Some (mk_lexer st (q + 1) (q + 1) e (mk_token JSON_TOK_STRING s q), Some LEXER_JSON).
Proof.
  induction 1 as [|c l H0 H92 H34 Hl IH|c l Hc Hl IH|xs l H4 Hxs Hl IH]; intros [|fuel] st s p e t Hm Hf He q; cbn [length] in *; try lia;
    cbn [string_loop app chars] in *; destruct Hm as [Hm Hms]; rewrite next_in, Hm by lia.
  - cbn [Z.eqb Pos.eqb]. unfold backup, set_pos, emit. cbn [lx_state lx_start lx_pos lx_end lx_token]. rewrite next_in by lia.
    unfold ignore, q. cbn. by replace (p + 1 - 1 + 1) with (p + 0 + 1) by lia; replace (p + 1 - 1) with (p + 0) by lia.
  - rewrite (proj2 (Z.eqb_neq _ _) H0), (proj2 (Z.eqb_neq _ _) H92), (proj2 (Z.eqb_neq _ _) H34). rewrite IH by (done || lia).
    unfold q. do 3 f_equal; try lia. f_equal; lia.
  - destruct Hms as [Hm2 Hms]. cbn [Z.eqb Pos.eqb]. rewrite next_in, Hm2, Hc by lia. rewrite IH by (done || lia). unfold q. do 3 f_equal; try lia. f_equal; lia.
  - destruct Hms as [Hm2 Hms]. cbn [Z.eqb Pos.eqb]. rewrite next_in, Hm2 by lia. change (escapable 117) with false. cbn [Z.eqb Pos.eqb].
    rewrite <- app_assoc in Hms. apply chars_app in Hms as [Hx Hms]. rewrite length_app in Hf, He. unfold q. rewrite length_app.
    rewrite <- H4 at 1. rewrite xdigits_spelled by (done || lia). rewrite IH by (done || lia). do 3 f_equal; try lia. f_equal; lia.
Qed.

Lemma number_spelled m ds : Forall (fun c => 48 <= c <= 57) ds -> forall fuel st s p e t l, chars m p (ds ++ l) -> (length ds < fuel)%nat ->
  p + Z.of_nat (length (ds ++ l)) = e -> boundary (NumTok []) l ->
  let q := p + Z.of_nat (length ds) in
  lexer_number fuel m (mk_lexer st s p e t) = Some (mk_lexer st q q e (mk_token JSON_TOK_NUMBER s q), Some LEXER_JSON).
Proof.
  assert (forall c, 48 <= c <= 57 -> isdigit c = true) as Hdig.
  { intros c Hc. unfold isdigit. rewrite (u32_small c), u32_small by lia. lia. }
  induction 1 as [|c ds Hc Hds IH]; intros [|fuel] st s p e t l Hm Hf He Hb q; cbn [length app] in *; try lia; cbn [lexer_number].
  - assert (exists c, next m (mk_lexer st s p e t) = (mk_lexer st s (p + 1) e t, c) /\ isdigit c = false /\ c <> 46) as (c & -> & Hc & H46).
    { destruct l as [|c l]; cbn [length chars] in *.
      - exists 0. rewrite next_end by lia. by replace (e + 1) with (p + 1) by lia.
      - exists c. destruct Hm as [Hm _]. by rewrite next_in, Hm by lia. }
    rewrite Hc, (proj2 (Z.eqb_neq _ _) H46). cbn [orb]. unfold backup, set_pos, emit. cbn [lx_state lx_start lx_pos lx_end lx_token].
    unfold q. by replace (p + 1 - 1) with (p + Z.of_nat 0) by lia.
  - cbn [chars] in Hm. destruct Hm as [Hm Hms]. rewrite next_in, Hm, (Hdig c Hc) by lia. cbn [orb]. rewrite IH with (l := l) by (done || lia).
    unfold q. do 3 f_equal; try lia. f_equal; lia.
Qed.

Lemma accept_spelled m run : Forall (fun c => c <> 0) run -> forall st s p e t, chars m p run -> p + Z.of_nat (length run) <= e ->
  accept_run m (mk_lexer st s p e t) run = (mk_lexer st s (p + Z.of_nat (length run)) e t, true).
Proof.
  induction 1 as [|c run _ _ IH]; intros st s p e t Hc He; cbn [length accept_run chars] in *; [by rewrite Z.add_0_r|].
  destruct Hc as [Hc Hcs]. rewrite next_in, Hc, Z.eqb_refl by lia. rewrite IH by (done || lia). do 2 f_equal. lia.
Qed.

Lemma lexer_json_ws m ws : Forall is_ws ws -> forall fuel st p e t, chars m p ws -> p + Z.of_nat (length ws) <= e -> (length ws <= fuel)%nat ->
  lexer_json fuel m (mk_lexer st p p e t) =
  lexer_json (fuel - length ws) m (mk_lexer st (p + Z.of_nat (length ws)) (p + Z.of_nat (length ws)) e t).
Proof.
  induction 1 as [|c ws Hc _ IH]; intros fuel st p e t Hm He Hf; cbn [length chars] in *; [by rewrite Z.add_0_r, Nat.sub_0_r|].
  destruct fuel as [|fuel]; [lia|]. destruct Hm as [Hm Hms]. cbn [lexer_json]. rewrite next_in, Hm by lia.
  replace (p + Z.of_nat (S (length ws))) with (p + 1 + Z.of_nat (length ws)) by lia. cbn [Nat.sub].
  rewrite <- IH by (done || lia). clear IH Hms Hm Hf.
  assert (c = 32 \/ c = 9 \/ c = 10 \/ c = 11 \/ c = 12 \/ c = 13) as Hcs by (unfold is_ws in Hc; lia). by destruct Hcs as [->|[->|[->|[->|[->| ->]]]]].
Qed.

(** where [lexer_json] leads for a lexeme at [p] *)
Definition json_leads st (p e : Z) t (x : lexeme) : lexer * option lexer_state :=
  match x with
  | Punct c ty => (mk_lexer st (p + 1) (p + 1) e (mk_token ty p (p + 1)), Some LEXER_JSON)
  | StrTok _ => (mk_lexer st p (p + 1) e t, Some LEXER_STRING)
  | NumTok _ => (mk_lexer st p (p + 1) e t, Some LEXER_NUMBER)
  | BoolTok _ => (mk_lexer st p (p + 1) e t, Some LEXER_BOOLEAN)
  end.

Lemma digit_cases (c : Z) : 48 <= c <= 57 -> c = 48 \/ c = 49 \/ c = 50 \/ c = 51 \/ c = 52 \/ c = 53 \/ c = 54 \/ c = 55 \/ c = 56 \/ c = 57.
Proof. lia. Qed.

Lemma lexer_json_leads m x l fuel st p e t : lexeme_ok x -> chars m p (spelling x ++ l) -> p + Z.of_nat (length (spelling x ++ l)) = e ->
  lexer_json (S fuel) m (mk_lexer st p p e t) = Some (json_leads st p e t x).
Proof.
  intros Hx Hm He. cbn [lexer_json]. destruct x as [c ty|raw|ds|b]; cbn [spelling app chars length] in *.
  - destruct Hm as [Hm _]. cbn in Hx. rewrite next_in, Hm by lia. rewrite Hx.
    destruct (Z.eqb_spec c 0) as [->|]; [done|]. done.
  - destruct Hm as [Hm _]. rewrite next_in, Hm by lia. done.
  - destruct Hx as (neg & c & ds' & -> & Hds). apply Forall_cons in Hds as [Hc _]. apply digit_cases in Hc. destruct neg; cbn [app chars length] in *.
    + destruct Hm as (Hm & Hm' & _). rewrite next_in, Hm by lia. unfold peek. cbn [Z.eqb Pos.eqb punctuation orb]. rewrite next_in, Hm' by lia.
      unfold backup, set_pos. cbn [lx_state lx_start lx_pos lx_end lx_token]. replace (p + 1 + 1 - 1) with (p + 1) by lia.
      destruct Hc as [->|[->|[->|[->|[->|[->|[->|[->|[->| ->]]]]]]]]]; done.
    + destruct Hm as (Hm & _). rewrite next_in, Hm by lia. destruct Hc as [->|[->|[->|[->|[->|[->|[->|[->|[->| ->]]]]]]]]]; done.
  - destruct b; cbn [app chars length] in *; destruct Hm as [Hm _]; rewrite next_in, Hm by lia; done.
Qed.

(** the state between two tokens, at [p] *)
Definition ready_at (p e : Z) lx : Prop := exists t, lx = mk_lexer (Some LEXER_JSON) p p e t /\ tk_type t = JSON_TOK_NONE.

Lemma run_state_spelled m x l fuel st p e t k : lexeme_ok x -> boundary x l -> chars m p (spelling x ++ l) -> p + Z.of_nat (length (spelling x ++ l)) = e ->
  (length (spelling x) <= fuel)%nat -> snd (json_leads st p e t x) = Some k -> k <> LEXER_JSON ->
  let q := p + Z.of_nat (length (spelling x)) in
  run_state fuel m (mk_lexer (Some k) p (p + 1) e t) k = Some (mk_lexer (Some k) q q e (token_at p x), Some LEXER_JSON).
Proof.
  intros Hx Hb Hm He Hf Hk Hkj q. destruct x as [c ty|raw|ds|b]; cbn [json_leads snd] in Hk; injection Hk as <-; try done; cbn [run_state spelling token_at].
  - unfold lexer_string, ignore. cbn [lx_state lx_start lx_pos lx_end lx_token]. cbn [spelling app chars] in Hm. destruct Hm as [_ Hm].
    apply chars_app in Hm as [Hm _]. unfold q. cbn [spelling length app] in *. rewrite !length_app in *. cbn [length] in *.
    rewrite (string_loop_spelled m raw Hx) by (done || lia). do 3 f_equal; try lia.
  - destruct Hx as (neg & c & ds' & E & Hds). unfold q. cbn [spelling] in *. assert (exists c ds', ds = c :: ds' /\ Forall (fun c => 48 <= c <= 57) ds') as (c0 & ds0 & -> & Hds0).
    { destruct neg; cbn in E; subst; eexists _, _; (split; [reflexivity|]); [done|]. by apply Forall_cons in Hds as [_ ?]. }
    cbn [app chars length] in *. destruct Hm as [_ Hm]. rewrite (number_spelled m ds0 Hds0) with (l := l) by (done || lia). do 3 f_equal; try lia. f_equal; lia.
  - unfold q. destruct b; cbn [spelling app chars length] in *; unfold lexer_boolean, backup, set_pos; cbn [lx_state lx_start lx_pos lx_end lx_token];
      replace (p + 1 - 1) with p by lia; destruct Hm as [Hm Hms]; rewrite next_in, Hm by lia; cbn [Z.eqb Pos.eqb].
    + rewrite (accept_spelled m [114; 117; 101]) by ((by repeat constructor) || (cbn [length]; lia) || (cbn [chars]; naive_solver)).
      unfold emit. cbn [lx_state lx_start lx_pos lx_end lx_token length]. do 3 f_equal; try lia. f_equal; lia.
    + rewrite (accept_spelled m [97; 108; 115; 101]) by ((by repeat constructor) || (cbn [length]; lia) || (cbn [chars]; naive_solver)).
      unfold emit. cbn [lx_state lx_start lx_pos lx_end lx_token length]. do 3 f_equal; try lia. f_equal; lia.
Qed.

Lemma token_at_type p x : lexeme_ok x -> tk_type (token_at p x) <> JSON_TOK_NONE.
Proof. destruct x as [c ty|raw|ds|[]]; cbn; try done. intros H%punctuation_token ->. by destruct H. Qed.

(** the emitted token is returned *)
Lemma next_loop_token n fuel m p e t : tk_type t <> JSON_TOK_NONE ->
  exists lx', next_loop (S n) fuel m (mk_lexer (Some LEXER_JSON) p p e t) = Some (lx', Some t) /\ ready_at p e lx'.
Proof.
  intros Ht. cbn [next_loop lx_state]. unfold lexer_consume. cbn [lx_token]. rewrite decide_False by done. eexists. split; [reflexivity|].
  eexists. by split.
Qed.

Lemma next_loop_run n fuel m lx s : lx_state lx = Some s -> tk_type (lx_token lx) = JSON_TOK_NONE ->
  next_loop (S n) fuel m lx = match run_state fuel m lx s with Some (lx, s) => next_loop n fuel m (set_state lx s) | None => None end.
Proof. intros Hs Ht. cbn [next_loop]. rewrite Hs. unfold lexer_consume. by rewrite decide_True. Qed.

Lemma lexer_next_spelled size m p e lx ws x l : ready_at p e lx -> Forall is_ws ws -> lexeme_ok x -> boundary x l ->
  chars m p (ws ++ spelling x ++ l) -> p + Z.of_nat (length (ws ++ spelling x ++ l)) = e -> e - p < Z.of_nat size -> (3 <= size)%nat ->
  let q := p + Z.of_nat (length ws) in
  exists lx', lexer_next size m lx = Some (lx', Some (token_at q x)) /\ ready_at (q + Z.of_nat (length (spelling x))) e lx'.
Proof.
  intros (t & -> & Ht) Hws Hx Hb Hm He Hf H3 q. apply chars_app in Hm as [Hmw Hm]. rewrite length_app, Nat2Z.inj_add in He. fold q in Hm.
  unfold lexer_next. destruct size as [|[|[|n]]]; try lia. set (fuel := S (S (S n))) in *. unfold fuel at 1.
  rewrite (next_loop_run _ _ _ _ LEXER_JSON) by done. cbn [run_state]. rewrite (lexer_json_ws m ws Hws) by (done || lia). fold q.
  assert (0 < length (spelling x))%nat as Hlen. { destruct x as [c ty|raw|ds|[]]; cbn; try lia. destruct Hx as ([] & c & ds' & -> & _); cbn; lia. }
  rewrite length_app in He. destruct (fuel - length ws)%nat as [|f] eqn:Ef; [lia|].
  rewrite (lexer_json_leads m x l) by (done || (rewrite length_app; lia)). destruct (snd (json_leads (Some LEXER_JSON) q e t x)) as [k|] eqn:Ek; [|by destruct x].
  destruct (decide (k = LEXER_JSON)) as [->|Hk].
  - destruct x as [c ty|raw|ds|b]; try done. cbn [json_leads spelling length]. apply (next_loop_token (S n)). by apply (token_at_type q (Punct c ty)).
  - assert (json_leads (Some LEXER_JSON) q e t x = (mk_lexer (Some LEXER_JSON) q (q + 1) e t, Some k)) as ->.
    { destruct x; cbn in Ek |- *; congruence. }
    rewrite (next_loop_run _ _ _ _ k) by done. unfold set_state at 1. cbn [lx_state lx_start lx_pos lx_end lx_token].
    rewrite (run_state_spelled m x l fuel (Some LEXER_JSON) q e t) by (done || (rewrite length_app; lia) || lia).
    apply next_loop_token. by apply token_at_type.
Qed.

End JsonLex.
