(* ===== verification/JsonParse.v ===== *)
(** * The JSON parser on any text

    The parser ends for every text, in a number of steps linear in its length, and
    writes only to the text and to the fields of the structure. *)

From S2P Require Import Prelude LibC Conv Printk Json JsonLex.
Import LibC Conv Printk Json JsonLex.

Local Open Scope Z_scope.

Module JsonParse.

Implicit Types (m : memory) (lx : lexer) (fuel size : nat) (d : json_obj_descr) (field vl : Z).

(** ** [strtol] on a terminated text *)

Section Strtol.
Variables (m : memory) (e : Z).
Hypothesis Hend : ldc m e = 0.

Lemma skip_space_total fuel : forall p, p <= e -> e - p < Z.of_nat fuel ->
  exists q, p <= q <= e /\ skip_space fuel m p = Some (ldc m q, q + 1).
Proof.
  induction fuel as [|fuel IH]; intros p Hp Hf; [lia|]. cbn [skip_space]. destruct (isspace (ldc m p)) eqn:Es; [|by exists p].
  destruct (decide (p = e)) as [->|]; [by rewrite Hend in Es|]. destruct (IH (p + 1)) as (q & Hq & E); [lia|lia|]. exists q. split; [lia|done].
Qed.

Lemma convert_total fuel base cutoff cutlim : forall q acc any, q <= e -> e - q < Z.of_nat fuel ->
  exists r, convert fuel m base cutoff cutlim (q + 1) (ldc m q) acc any = Some r.
Proof.
  induction fuel as [|fuel IH]; intros q acc any Hq Hf; [lia|]. cbn [convert]. destruct (digit_value (ldc m q)) as [c|] eqn:Ed; [|eauto].
  destruct (decide (q = e)) as [->|]; [by rewrite Hend in Ed|]. destruct (c >=? base); [eauto|]. case_match; apply IH; lia.
Qed.

Lemma strtol_total fuel p : p <= e -> e - p < Z.of_nat fuel -> exists r, strtol fuel m p 10 = Some r.
Proof.
  intros Hp Hf. unfold strtol. destruct (skip_space_total fuel p Hp Hf) as (q & Hq & ->).
  assert (exists neg q', q <= q' <= e /\ parse_sign m (ldc m q) (q + 1) = (neg, ldc m q', q' + 1)) as (neg & q' & Hq' & ->).
  { unfold parse_sign. destruct (Z.eqb_spec (ldc m q) 45) as [E|]; [|destruct (Z.eqb_spec (ldc m q) 43) as [E|]].
    - exists true, (q + 1). split; [|done]. destruct (decide (q = e)) as [->|]; [by rewrite Hend in E|lia].
    - exists false, (q + 1). split; [|done]. destruct (decide (q = e)) as [->|]; [by rewrite Hend in E|lia].
    - exists false, q. split; [lia|done]. }
  change (parse_base m (ldc m q') (q' + 1) 10) with (ldc m q', q' + 1, 10). cbv beta iota zeta.
  match goal with |- context [convert fuel m 10 ?a ?b _ _ 0 0] => destruct (convert_total fuel 10 a b q' 0 0) as ([[acc any] s] & ->); [lia|lia|] end.
  case_match; eauto.
Qed.

End Strtol.

(** ** Where a value goes *)

Definition word (p : Z) : list Z := [p; p + 1; p + 2; p + 3].

Fixpoint cells d field vl {struct d} : list Z :=
  let 'mk_descr _ _ _ _ ty sub n := d in
  match ty with
  | JSON_TOK_NUMBER | JSON_TOK_STRING => word field
  | JSON_TOK_TRUE | JSON_TOK_FALSE => [field]
  | JSON_TOK_OBJECT_START => concat ((fun d => cells d (field + offset d) field) <$> sub)
  | JSON_TOK_LIST_START =>
      match sub with
      | [] => []
      | e :: _ => word (vl + offset e) ++ concat ((fun i => cells e (field + i * get_elem_size e) vl) <$> seqZ 0 n)
      end
  | _ => []
  end.

(** of a structure *)
Definition obj_cells (ds : list json_obj_descr) vl : list Z := concat ((fun d => cells d (vl + offset d) vl) <$> ds).

(** of the elements of an array *)
Definition arr_cells d field vl (n : Z) : list Z := word (vl + offset d) ++ concat ((fun i => cells d (field + i * get_elem_size d) vl) <$> seqZ 0 n).

(** Only the text from [lo] up to [hi] and [cs] may differ. *)
Definition only (lo hi : Z) (cs : list Z) m m' : Prop := forall q, ~ lo <= q < hi -> q ∉ cs -> ld8 m' q = ld8 m q.

(** Array descriptors have an element and a size; an object has no more fields than a
    bitmap that is not negative has bits. *)
Fixpoint descr_ok d : Prop :=
  let 'mk_descr _ _ _ _ ty sub n := d in
  0 <= n /\ (ty = JSON_TOK_LIST_START -> sub <> []) /\ (length sub <= 31)%nat /\ foldr (fun d P => descr_ok d /\ P) True sub.

Lemma only_stays lo hi cs m : only lo hi cs m m.
Proof. by intros q. Qed.

Lemma only_then lo hi cs m1 m2 m3 : only lo hi cs m1 m2 -> only lo hi cs m2 m3 -> only lo hi cs m1 m3.
Proof. intros H1 H2 q Hq Hc. by rewrite H2, H1. Qed.

Lemma only_sub lo hi cs cs' m m' : cs ⊆ cs' -> only lo hi cs m m' -> only lo hi cs' m m'.
Proof. intros Hs H q Hq Hc. apply H; [done|]. intros Hin. by apply Hc, Hs. Qed.

Lemma only_widen a b a' b' cs m m' : a' <= a -> b <= b' -> only a b cs m m' -> only a' b' cs m m'.
Proof. intros H1 H2 H q Hq Hc. apply H; [lia|done]. Qed.

Lemma only_st8 lo hi cs m p (v : Z) : lo <= p < hi \/ p ∈ cs -> only lo hi cs m (st8 m p v).
Proof. intros Hp q Hq Hc. rewrite ld8_st8, decide_False; [done|]. intros ->. naive_solver. Qed.

Lemma only_st32 lo hi cs m p (v : Z) : word p ⊆ cs -> only lo hi cs m (st32 m p v).
Proof.
  intros Hp. unfold st32. repeat (eapply only_then; [|apply only_st8; right; apply Hp; set_solver]). apply only_stays.
Qed.

Lemma cells_in_obj ds vl d : d ∈ ds -> cells d (vl + offset d) vl ⊆ obj_cells ds vl.
Proof.
  intros Hd q Hq. unfold obj_cells. rewrite list_elem_of_In. apply in_concat. exists (cells d (vl + offset d) vl). rewrite <- !list_elem_of_In. split; [|done].
  apply list_elem_of_fmap. by exists d.
Qed.

Lemma cells_in_arr d f0 vl i n : 0 <= i < n -> cells d (f0 + i * get_elem_size d) vl ⊆ arr_cells d f0 vl n.
Proof.
  intros Hi q Hq. unfold arr_cells. apply elem_of_app. right. rewrite list_elem_of_In. apply in_concat. exists (cells d (f0 + i * get_elem_size d) vl).
  rewrite <- !list_elem_of_In. split; [|done]. apply list_elem_of_fmap. exists i. split; [done|]. apply elem_of_seqZ. lia.
Qed.

Lemma count_in_arr d f0 vl n : word (vl + offset d) ⊆ arr_cells d f0 vl n.
Proof. unfold arr_cells. set_solver. Qed.

Lemma find_field_in m kv dec ds : forall i j d, find_field m kv dec i ds = Some (j, d) -> d ∈ ds.
Proof.
  induction ds as [|d ds IH]; intros i j d' Hf; cbn [find_field] in Hf; [done|].
  repeat (case_match; [apply elem_of_cons; right; by eapply IH|]). injection Hf as _ <-. apply elem_of_cons. by left.
Qed.

Lemma descr_ok_sub ds : foldr (fun d P => descr_ok d /\ P) True ds -> forall d, d ∈ ds -> descr_ok d.
Proof. induction ds as [|d ds IH]; cbn; [by intros _ ? ?%elem_of_nil|]. intros [H1 H2] d' [->|Hin]%elem_of_cons; auto. Qed.

(** ** Tokens of the parser *)

Section Total.
Variables (lo e : Z) (size : nat).
Hypothesis Hsize : e - lo < Z.of_nat size.
Hypothesis Hsize3 : (3 <= size)%nat.

Definition going lx : Prop := ready lo e lx \/ stopped lx.

(** what is left of the text *)
Definition rest lx : Z := match lx_state lx with Some _ => e - lx_pos lx | None => 0 end.

(** a token of the text *)
Definition inside (t : token) : Prop :=
  no_token (tk_type t) = false /\ lo <= tk_start t <= tk_end t /\ tk_end t <= e /\ (tk_type t = JSON_TOK_STRING -> tk_end t < e).

(** A step of the lexer from [lx] to [lx'], which has used up text if [b]. *)
Definition moves lx lx' (b : bool) : Prop := going lx' /\ 0 <= rest lx' <= rest lx /\ (b = true -> rest lx' < rest lx).

Lemma going_rest lx : going lx -> 0 <= rest lx.
Proof. unfold rest. intros [(-> & _ & _ & _ & ?)|[-> _]]; lia. Qed.

Lemma moves_trans lx1 lx2 lx3 b b' : moves lx1 lx2 b -> moves lx2 lx3 b' -> moves lx1 lx3 (b || b').
Proof. intros (H1 & H2 & H3) (H4 & H5 & H6). split; [done|]. split; [lia|]. destruct b; cbn; [intros _; specialize (H3 eq_refl); lia|]. intros Hb. specialize (H6 Hb). lia. Qed.

Lemma moves_le lx lx' b : moves lx lx' b -> moves lx lx' false.
Proof. intros (H1 & H2 & H3). split; [done|]. by split. Qed.

Lemma next_any m lx : going lx ->
  exists lx' o, lexer_next size m lx = Some (lx', o) /\
    match o with
    | Some t => (tk_type t = JSON_TOK_ERROR /\ moves lx lx' false) \/ (inside t /\ moves lx lx' true)
    | None => moves lx lx' false
    end.
Proof.
  intros Hg. pose proof (going_rest lx Hg) as Hr. destruct Hg as [Hg|Hg].
  - destruct (lexer_next_total size m lo e lx Hg) as (lx' & o & E & Ht); [destruct Hg as (_ & _ & _ & ? & ?); lia|done|].
    exists lx', o. split; [done|]. unfold rest in Hr. destruct Hg as (Hs & _). rewrite Hs in Hr.
    assert (stopped lx' -> moves lx lx' false) as Hstop.
    { intros Hst. split; [by right|]. unfold rest. destruct Hst as [-> _]. rewrite Hs. lia. }
    destruct o as [t|]; cbn in Ht; [|auto]. destruct Ht as [[? ?]|(Ht & Hrd & Hp & Htt & Hte & Hstr)]; [left; auto|right].
    pose proof Hrd as (Hs' & _ & _ & ? & ?). split; [split_and!; try done; try lia; intros Hs0; specialize (Hstr Hs0); lia|]. split; [by left|]. unfold rest. rewrite Hs, Hs'. lia.
  - exists lx, None. split; [apply lexer_next_stopped; [done|lia]|]. split; [by right|]. split; [lia|done].
Qed.

Lemma key_value_total m lx t : going lx -> exists lx' o, key_value size m lx t = Some (lx', o) /\ moves lx lx' false /\
  forall kv, o = Some kv -> inside (value kv) /\ element_token (tk_type (value kv)) = true.
Proof.
  intros Hg. unfold key_value. destruct (next_any m lx Hg) as (lx1 & o1 & -> & H1).
  destruct o1 as [c|]; [|by exists lx1, None]. assert (moves lx lx1 false) as Hm1 by (destruct H1 as [[_ ?]|[_ ?]]; eauto using moves_le).
  destruct (decide (tk_type c = JSON_TOK_COLON)); [|by exists lx1, None].
  destruct (next_any m lx1 (proj1 Hm1)) as (lx2 & o2 & -> & H2). destruct o2 as [v|]; [|exists lx2, None; split_and!; [done| |done]].
  2: by apply (moves_trans _ _ _ _ _ Hm1 H2).
  assert (moves lx1 lx2 false) as Hm2 by (destruct H2 as [[_ ?]|[_ ?]]; eauto using moves_le).
  eexists lx2, _. split; [reflexivity|]. split; [by apply (moves_trans _ _ _ _ _ Hm1 Hm2)|].
  destruct (element_token (tk_type v)) eqn:Ev; [|done]. intros kv [= <-]. cbn [value]. split; [|done]. destruct H2 as [[E _]|[? _]]; [by rewrite E in Ev|done].
Qed.

Lemma obj_next_total m lx : going lx -> exists lx' o, obj_next size m lx = Some (lx', o) /\ moves lx lx' false /\
  forall kv, o = Some kv -> moves lx lx' true /\
    (tk_type (value kv) = JSON_TOK_OBJECT_END \/ (inside (value kv) /\ element_token (tk_type (value kv)) = true)).
Proof.
  intros Hg. unfold obj_next. destruct (next_any m lx Hg) as (lx1 & o1 & -> & H1). destruct o1 as [t|]; [|by exists lx1, None].
  destruct H1 as [[E Hm1]|[Hi Hm1]]; [rewrite E; by exists lx1, None|]. pose proof (moves_le _ _ _ Hm1) as Hm1'.
  assert (forall lx2 t2, moves lx1 lx2 false -> exists lx' o, key_value size m lx2 t2 = Some (lx', o) /\ moves lx lx' false /\
    forall kv, o = Some kv -> moves lx lx' true /\ (tk_type (value kv) = JSON_TOK_OBJECT_END \/ (inside (value kv) /\ element_token (tk_type (value kv)) = true))) as Hkv.
  { intros lx2 t2 Hm2. destruct (key_value_total m lx2 t2 (proj1 Hm2)) as (lx' & o & E & Hm & Ho). exists lx', o.
    pose proof (moves_trans _ _ _ _ _ Hm1 (moves_trans _ _ _ _ _ Hm2 Hm)) as Hall. split_and!; [done|by eapply moves_le|]. intros kv Hk. split; [exact Hall|auto]. }
  assert (moves lx1 lx1 false) as Hself by (split; [apply Hm1|]; pose proof (going_rest lx1 (proj1 Hm1)); split; [lia|done]).
  destruct (tk_type t) eqn:Et; try (by exists lx1, None).
  - eexists lx1, _. split; [reflexivity|]. split; [done|]. intros kv [= <-]. split; [done|]. by left.
  - by apply Hkv.
  - destruct (next_any m lx1 (proj1 Hm1)) as (lx2 & o2 & -> & H2). destruct o2 as [t2|].
    + assert (moves lx1 lx2 false) as Hm2 by (destruct H2 as [[_ ?]|[_ ?]]; eauto using moves_le).
      destruct (decide (tk_type t2 = JSON_TOK_STRING)); [by apply Hkv|]. exists lx2, None. split_and!; [done| |done]. by apply (moves_trans _ _ _ _ _ Hm1' Hm2).
    + exists lx2, None. split_and!; [done| |done]. by apply (moves_trans _ _ _ _ _ Hm1' H2).
Qed.

Lemma arr_next_total m lx : going lx -> exists lx' o, arr_next size m lx = Some (lx', o) /\ moves lx lx' false /\
  forall v, o = Some v -> moves lx lx' true /\ (tk_type v = JSON_TOK_LIST_END \/ (inside v /\ element_token (tk_type v) = true)).
Proof.
  intros Hg. unfold arr_next. destruct (next_any m lx Hg) as (lx1 & o1 & -> & H1). destruct o1 as [t|]; [|by exists lx1, None].
  destruct H1 as [[E Hm1]|[Hi Hm1]]; [rewrite E; by exists lx1, None|]. pose proof (moves_le _ _ _ Hm1) as Hm1'.
  assert (element_token (tk_type t) = true -> exists lx' o, Some (lx1, Some t) = Some (lx', o) /\ moves lx lx' false /\
    forall v, o = Some v -> moves lx lx' true /\ (tk_type v = JSON_TOK_LIST_END \/ (inside v /\ element_token (tk_type v) = true))) as Hel.
  { intros He. eexists lx1, _. split; [reflexivity|]. split; [done|]. intros v [= <-]. auto. }
  destruct (tk_type t) eqn:Et; cbn [element_token]; try (by exists lx1, None); try (by apply Hel).
  - eexists lx1, _. split; [reflexivity|]. split; [done|]. intros v [= <-]. split; [done|by left].
  - destruct (next_any m lx1 (proj1 Hm1)) as (lx2 & o2 & -> & H2). destruct o2 as [t2|].
    + assert (moves lx1 lx2 false) as Hm2 by (destruct H2 as [[_ ?]|[_ ?]]; eauto using moves_le).
      eexists lx2, _. split; [reflexivity|]. split; [by apply (moves_trans _ _ _ _ _ Hm1' Hm2)|].
      destruct (element_token (tk_type t2)) eqn:Ev; [|done]. intros v [= <-]. split; [apply (moves_trans _ _ _ _ _ Hm1 Hm2)|].
      right. split; [|done]. destruct H2 as [[E _]|[? _]]; [by rewrite E in Ev|done].
    + exists lx2, None. split_and!; [done| |done]. by apply (moves_trans _ _ _ _ _ Hm1' H2).
Qed.

(** ** The parser *)

Definition confined lx cs m (r : memory * lexer * Z) : Prop := let '(m', lx', _) := r in moves lx lx' false /\ only lo e cs m m'.

Lemma confined_step lx lx1 cs m m1 r : moves lx lx1 false -> only lo e cs m m1 -> confined lx1 cs m1 r -> confined lx cs m r.
Proof.
  destruct r as [[m' lx'] ret]. intros H1 H2 [H3 H4]. split; [by apply (moves_trans _ _ _ _ _ H1 H3)|by eapply only_then].
Qed.

Lemma confined_sub lx cs cs' m r : cs ⊆ cs' -> confined lx cs m r -> confined lx cs' m r.
Proof. destruct r as [[m' lx'] ret]. intros Hc [H1 H2]. split; [done|]. by eapply only_sub. Qed.

Lemma confined_stay lx cs m m' ret : going lx -> only lo e cs m m' -> confined lx cs m (m', lx, ret).
Proof. intros Hg Ho. split; [|done]. split; [done|]. pose proof (going_rest lx Hg). split; [lia|done]. Qed.

Lemma decode_num_total m v field : inside v -> exists r, decode_num size m v field = Some r /\ only lo e (word field) m (fst r).
Proof.
  intros (_ & Hs & He & _). unfold decode_num.
  assert (ldc (st8 m (tk_end v) 0) (tk_end v) = 0) as H0 by (by rewrite ldc_st8, decide_True).
  destruct (strtol_total (st8 m (tk_end v) 0) (tk_end v) H0 size (tk_start v)) as [[[n p] b] ->]; [lia|lia|]. eexists. split; [reflexivity|]. cbn [fst].
  intros q Hq Hc. rewrite ld8_st8. case_decide as Hd; [subst q; by rewrite ldc_ld8, u8_s8, u8_ld8|].
  rewrite (only_st32 lo e (word field) (st8 m (tk_end v) 0) field n) by done. by rewrite ld8_st8, decide_False.
Qed.

Definition decode_total fuel : Prop := forall m lx d v field vl, descr_ok d -> going lx -> inside v -> 2 * rest lx + 2 <= Z.of_nat fuel ->
  exists r, decode_value fuel size m lx d v field vl = Some r /\ confined lx (cells d field vl) m r.
(** The loops, for a decoder that ends on what is left of the text. *)
Section Loops.
Variable depth : nat.
Hypothesis Hdec : decode_total depth.

Lemma elements_total fuel : forall m lx d f0 i n vl, descr_ok d -> going lx -> 0 <= i <= n ->
  2 * rest lx + 1 <= Z.of_nat depth -> rest lx + 1 <= Z.of_nat fuel ->
  exists r, elements_parse (decode_value depth size) fuel size m lx d (f0 + get_elem_size d * n) (f0 + i * get_elem_size d) vl = Some r /\
    confined lx (arr_cells d f0 vl n) m r.
Proof.
  induction fuel as [|fuel IH]; intros m lx d f0 i n vl Hd Hg Hi Hdp Hf; [pose proof (going_rest lx Hg); lia|].
  cbn [elements_parse]. destruct (arr_next_total m lx Hg) as (lx1 & o & -> & Hm & Ho).
  assert (forall ret, exists r, Some (m, lx1, ret) = Some r /\ confined lx (arr_cells d f0 vl n) m r) as Hret.
  { intros ret. eexists. split; [reflexivity|]. split; [done|apply only_stays]. }
  destruct o as [v|]; [|apply Hret]. destruct (Ho v eq_refl) as [Hm' Hv]. destruct (decide (tk_type v = JSON_TOK_LIST_END)); [apply Hret|].
  destruct Hv as [?|[Hv _]]; [done|]. destruct (Z.eqb_spec (f0 + i * get_elem_size d) (f0 + get_elem_size d * n)) as [|Hne]; [apply Hret|].
  assert (i < n) as Hin by (destruct (decide (i = n)) as [->|]; [lia|lia]). destruct Hm' as (Hg1 & Hr1 & Hlt). specialize (Hlt eq_refl).
  destruct (Hdec m lx1 d v (f0 + i * get_elem_size d) vl Hd Hg1 Hv ltac:(lia)) as ([[m2 lx2] ret] & -> & Hm2 & Ho2).
  assert (only lo e (arr_cells d f0 vl n) m m2) as Ho2' by (eapply only_sub; [|exact Ho2]; apply cells_in_arr; lia).
  destruct (ret <? 0). { eexists. split; [reflexivity|]. split; [by apply (moves_trans _ _ _ _ _ Hm Hm2)|done]. }
  destruct (IH (st32 m2 (vl + offset d) (ld32 m2 (vl + offset d) + 1)) lx2 d f0 (i + 1) n vl) as (r & E & Hr);
    [done|apply Hm2|lia|destruct Hm2 as (_ & ? & _); lia..|].
  replace (f0 + (i + 1) * get_elem_size d) with (f0 + i * get_elem_size d + get_elem_size d) in E by lia. exists r. split; [exact E|].
  eapply confined_step; [by apply (moves_trans _ _ _ _ _ Hm Hm2)|exact Ho2'|].
  eapply confined_step; [|apply only_st32, count_in_arr|exact Hr]. pose proof (going_rest lx2 (proj1 Hm2)). split; [apply Hm2|split; [lia|done]].
Qed.

Lemma fields_total fuel : forall m lx ds vl dec, (forall d, d ∈ ds -> descr_ok d) -> going lx ->
  2 * rest lx + 1 <= Z.of_nat depth -> rest lx + 1 <= Z.of_nat fuel ->
  exists r, fields_parse (decode_value depth size) fuel size m lx ds vl dec = Some r /\ confined lx (obj_cells ds vl) m r.
Proof.
  induction fuel as [|fuel IH]; intros m lx ds vl dec Hds Hg Hdp Hf; [pose proof (going_rest lx Hg); lia|].
  cbn [fields_parse]. destruct (obj_next_total m lx Hg) as (lx1 & o & -> & Hm & Ho).
  assert (forall ret, exists r, Some (m, lx1, ret) = Some r /\ confined lx (obj_cells ds vl) m r) as Hret.
  { intros ret. eexists. split; [reflexivity|]. split; [done|apply only_stays]. }
  destruct o as [kv|]; [|apply Hret]. destruct (Ho kv eq_refl) as [Hm' Hv]. destruct (decide (tk_type (value kv) = JSON_TOK_OBJECT_END)); [apply Hret|].
  destruct Hv as [?|[Hv _]]; [done|]. destruct Hm' as (Hg1 & Hr1 & Hlt). specialize (Hlt eq_refl).
  destruct (find_field m kv dec 0 ds) as [[i d]|] eqn:Ef.
  - apply find_field_in in Ef. destruct (Hdec m lx1 d (value kv) (vl + offset d) vl (Hds d Ef) Hg1 Hv ltac:(lia)) as ([[m2 lx2] ret] & -> & Hm2 & Ho2).
    assert (only lo e (obj_cells ds vl) m m2) as Ho2' by (eapply only_sub; [|exact Ho2]; by apply cells_in_obj).
    destruct (ret <? 0). { eexists. split; [reflexivity|]. split; [by apply (moves_trans _ _ _ _ _ Hm Hm2)|done]. }
    destruct (IH m2 lx2 ds vl (s32 (Z.lor dec (Z.shiftl 1 (Z.of_nat i))))) as (r & E & Hr); [done|apply Hm2|destruct Hm2 as (_ & ? & _); lia..|].
    exists r. split; [exact E|]. eapply confined_step; [by apply (moves_trans _ _ _ _ _ Hm Hm2)|exact Ho2'|exact Hr].
  - destruct (IH m lx1 ds vl dec) as (r & E & Hr); [done|done|lia..|]. exists r. split; [exact E|].
    eapply confined_step; [exact Hm|apply only_stays|exact Hr].
Qed.

End Loops.

Lemma decode_total_S fuel : decode_total fuel -> decode_total (S fuel).
Proof.
  intros Hdec m lx d v field vl Hd Hg Hv Hf. pose proof (going_rest lx Hg). cbn [decode_value].
  assert (forall ret, exists r, Some (m, lx, ret) = Some r /\ confined lx (cells d field vl) m r) as Hret.
  { intros ret. eexists. split; [reflexivity|]. apply confined_stay; [done|apply only_stays]. }
  destruct (equivalent_types (tk_type v) (type d)) eqn:Eq; [|apply Hret]. cbn [negb].
  destruct d as [fn fl off al ty sub n]. cbn [type Json.sub n_elements]. destruct Hd as (Hn & Hsub & _ & Hd). destruct ty; try apply Hret.
  - apply (fields_total fuel Hdec); [by apply descr_ok_sub|done|lia..].
  - destruct sub as [|el sub]; [by destruct (Hsub eq_refl)|]. destruct (elements_total fuel Hdec fuel (st32 m (vl + offset el) 0) lx el field 0 n vl) as (r & E & Hr);
      [by apply Hd|done|lia..|]. rewrite Z.mul_0_l, Z.add_0_r in E. exists r. split; [exact E|].
    eapply confined_step; [|apply only_st32, count_in_arr|exact Hr]. by split_and!.
  - assert (tk_type v = JSON_TOK_STRING) as Ev by (by destruct (tk_type v)).
    eexists. split; [reflexivity|]. apply confined_stay; [done|]. eapply only_then; [apply (only_st8 _ _ _ m (tk_end v) 0); left; destruct Hv as (_ & ? & ? & Hstr); specialize (Hstr Ev); lia|]. by apply only_st32.
  - destruct (decode_num_total m v field Hv) as ([m' ret] & -> & Ho). eexists. split; [reflexivity|]. by apply confined_stay.
  - eexists. split; [reflexivity|]. apply confined_stay; [done|]. apply only_st8. right. by apply list_elem_of_singleton.
  - eexists. split; [reflexivity|]. apply confined_stay; [done|]. apply only_st8. right. by apply list_elem_of_singleton.
Qed.

Lemma decode_value_total fuel : decode_total fuel.
Proof.
  induction fuel as [|fuel IH]; [|by apply decode_total_S].
  intros m lx d v field vl _ Hg _ Hf. pose proof (going_rest lx Hg). lia.
Qed.

End Total.

(** ** The result *)

Lemma find_field_bound m kv dec ds : forall i j d, find_field m kv dec i ds = Some (j, d) -> (i <= j < i + length ds)%nat.
Proof.
  induction ds as [|d ds IH]; intros i j d' Hf; cbn [find_field length] in *; [done|].
  repeat (case_match; [specialize (IH _ _ _ Hf); lia|]). injection Hf as <- _. lia.
Qed.

Lemma lor_below x y n : 0 <= n -> 0 <= x < 2 ^ n -> 0 <= y < 2 ^ n -> 0 <= Z.lor x y < 2 ^ n.
Proof.
  intros Hn Hx Hy. assert (0 <= Z.lor x y) as H0 by (apply Z.lor_nonneg; lia). split; [done|].
  destruct (decide (Z.lor x y = 0)) as [->|]; [lia|]. apply Z.log2_lt_pow2; [lia|]. rewrite Z.log2_lor by lia.
  assert (0 < n). { destruct (decide (n = 0)) as [->|]; [|lia]. assert (x = 0) by lia. assert (y = 0) by lia. by subst. }
  apply Z.max_lub_lt; [destruct (decide (x = 0)) as [->|]|destruct (decide (y = 0)) as [->|]]; done || (apply Z.log2_lt_pow2; lia).
Qed.

(** The bitmap stays within its type. *)
Lemma mark_field dec i n : (i < n <= 31)%nat -> 0 <= dec < 2 ^ Z.of_nat n ->
  s32 (Z.lor dec (Z.shiftl 1 (Z.of_nat i))) = Z.lor dec (Z.shiftl 1 (Z.of_nat i)) /\ 0 <= Z.lor dec (Z.shiftl 1 (Z.of_nat i)) < 2 ^ Z.of_nat n.
Proof.
  intros Hi Hd. assert (0 <= Z.lor dec (Z.shiftl 1 (Z.of_nat i)) < 2 ^ Z.of_nat n) as H.
  { apply lor_below; [lia|done|]. rewrite Z.shiftl_1_l. split; [lia|]. apply Z.pow_lt_mono_r; lia. }
  split; [|done]. apply s32_small. pose proof (Z.pow_le_mono_r 2 (Z.of_nat n) 31). lia.
Qed.

(** An error, or a bit for each decoded field. *)
Lemma fields_parse_result decode fuel size : forall m lx ds vl dec r, (length ds <= 31)%nat -> 0 <= dec < 2 ^ Z.of_nat (length ds) ->
  fields_parse decode fuel size m lx ds vl dec = Some r -> snd r < 0 \/ 0 <= snd r < 2 ^ Z.of_nat (length ds).
Proof.
  induction fuel as [|fuel IH]; intros m lx ds vl dec r Hlen Hdec; [done|]. cbn [fields_parse].
  destruct (obj_next size m lx) as [[lx1 [kv|]]|]; [|intros [= <-]; by left|done].
  destruct (decide (tk_type (value kv) = JSON_TOK_OBJECT_END)); [intros [= <-]; by right|].
  destruct (find_field m kv dec 0 ds) as [[i d]|] eqn:Ef; [|by apply IH].
  destruct (decode m lx1 d _ _ _) as [[[m2 lx2] ret]|]; [|done].
  destruct (Z.ltb_spec ret 0); [intros [= <-]; by left|]. apply find_field_bound in Ef.
  destruct (mark_field dec i (length ds)) as [-> ?]; [lia|done|]. by apply IH.
Qed.

(** C34. For every text the parser ends: no loop takes more turns, and calls are not
    nested deeper, than linearly in the length (the bound is on each loop and on the depth,
    not on the number of all steps).  It ends with an error or the bitmap of the decoded
    fields, and changes nothing but the text and the fields of the structure; the elements
    of an array stay within the elements it has.  There are at most 31 fields. *)
Theorem json_parse_any_text m payload (len : Z) ds vl fuel size :
  0 <= len -> (length ds <= 31)%nat -> (forall d, d ∈ ds -> descr_ok d) -> 2 * len + 1 <= Z.of_nat fuel -> len + 3 <= Z.of_nat size ->
  exists m' ret, json_obj_parse fuel size m payload len ds vl = Some (m', ret) /\
    only payload (payload + len) (obj_cells ds vl) m m' /\
    (ret < 0 \/ 0 <= ret < 2 ^ Z.of_nat (length ds)).
Proof.
  intros Hlen Hn31 Hds Hfuel Hsize. unfold json_obj_parse, obj_init. set (e := payload + len).
  assert (going payload e (lexer_init payload len)) as Hg by (left; split_and!; cbn; done || lia).
  assert (rest e (lexer_init payload len) = len) as Hrest by (cbn; lia).
  destruct (next_any payload e size ltac:(lia) ltac:(lia) m (lexer_init payload len) Hg) as (lx & o & -> & Ho).
  destruct o as [t|]; [|eexists m, _; split_and!; [done|apply only_stays|by left]].
  case_bool_decide as Et; [|eexists m, _; split_and!; [done|apply only_stays|by left]].
  assert (moves payload e (lexer_init payload len) lx true) as (Hg1 & Hr1 & Hlt) by (destruct Ho as [[E _]|[_ ?]]; [by rewrite E in Et|done]).
  specialize (Hlt eq_refl).
  destruct (fields_total payload e size ltac:(lia) ltac:(lia) fuel (decode_value_total payload e size ltac:(lia) ltac:(lia) fuel) fuel m lx ds vl 0 Hds Hg1 ltac:(lia) ltac:(lia)) as ([[m' lx'] ret] & E & _ & Ho'). unfold obj_parse. rewrite E. exists m', ret. split; [done|]. split; [done|].
  apply fields_parse_result in E; [exact E|done|]. split; [done|]. apply Z.pow_pos_nonneg; lia.
Qed.

(** The text [{"a":[1,x] at 20, for a structure with an array of two numbers. *)
Definition junk_text : memory := fst (fold_left (fun a c => (st8 (fst a) (snd a) c, snd a + 1)) [123; 34; 97; 34; 58; 91; 49; 44; 120] (empty : memory, 20)).
Definition junk_descr : list json_obj_descr := [JSON_OBJ_DESCR_ARRAY 22 1 4 4 2 0 JSON_TOK_NUMBER].

Lemma json_parse_any_text_witness : exists m' ret,
  json_obj_parse 19 12 junk_text 20 9 junk_descr 100 = Some (m', ret) /\
  only 20 29 (obj_cells junk_descr 100) junk_text m' /\ (ret < 0 \/ 0 <= ret < 2 ^ 1).
Proof.
  apply (json_parse_any_text junk_text 20 9 junk_descr 100 19 12); [lia|cbn; lia| |lia|lia].
  intros d [->|H]%elem_of_cons; [|by apply elem_of_nil in H]. cbn. split_and!; done || lia.
Defined.

End JsonParse.
