(* ===== verification/JsonRound.v ===== *)
(** * Parsing what has been written

    A text that spells a value, with white space between its tokens and the fields
    of objects in any order, is parsed into a structure that holds this value.
    With the encoder: what has been encoded is parsed back. *)

From S2P Require Import Prelude LibC Conv Printk Json JsonText JsonLex JsonParse.
Import LibC Conv Printk Json JsonText JsonLex JsonParse.

Local Open Scope Z_scope.

Module JsonRound.

Implicit Types (m : memory) (lx : lexer) (fuel size : nat) (d : json_obj_descr) (v : jval) (l : list Z).

(** ** Numbers *)

Lemma num_text_strtol fuel m q n : - 2 ^ 31 <= n < 2 ^ 31 -> chars m q (num_text n ++ [0]) -> (length (num_text n) < fuel)%nat ->
  strtol fuel m q 10 = Some (n, q + Z.of_nat (length (num_text n)), false).
Proof.
  intros Hn. rewrite num_text_digits by done. rewrite <- app_assoc. intros Hc Hf.
  destruct (dec_digits_numeral (Z.abs n)) as [Hd Hv Hh Hne]; [lia|].
  rewrite (strtol_spec fuel m q 10 [] (n <? 0) (if n <? 0 then [45] else []) (digit_char <$> dec_digits (Z.abs n)) (dec_digits (Z.abs n)) 0);
    [|lia|done|by destruct (n <? 0); cbn; auto|by apply digit_chars|by destruct (dec_digits (Z.abs n))|done|done|done|done].
  cbv zeta. rewrite Hv. cbn [app]. assert (Z.abs n <= limit (n <? 0)) as Hl by (unfold limit, LONG_MIN, LONG_MAX; destruct (Z.ltb_spec n 0); lia).
  rewrite (proj2 (Z.leb_le _ _) Hl). cbn [negb]. do 3 f_equal. destruct (Z.ltb_spec n 0); lia.
Qed.

Lemma num_text_integer n : - 2 ^ 31 <= n < 2 ^ 31 -> integer (num_text n).
Proof.
  intros Hn. rewrite num_text_digits by done. destruct (dec_digits_numeral (Z.abs n)) as [Hd _ _ Hne]; [lia|].
  destruct (dec_digits (Z.abs n)) as [|v vs]; [done|]. exists (n <? 0), (digit_char v), (digit_char <$> vs). split; [done|].
  change (Forall (fun c => 48 <= c <= 57) (digit_char <$> v :: vs)). apply Forall_fmap. eapply Forall_impl; [exact Hd|].
  intros w Hw. cbn in *. unfold digit_char. destruct (Z.gtb_spec w 9); lia.
Qed.

Lemma s32_u32 n : - 2 ^ 31 <= n < 2 ^ 31 -> s32 (u32 n) = n.
Proof.
  intros Hn. unfold s32, u32. rewrite Z.add_mod_idemp_l by done. change ((n + 2 ^ 31) mod 2 ^ 32 - 2 ^ 31 = n). rewrite Z.mod_small by lia. lia.
Qed.

(** ** Lists of disjoint lists *)

Lemma concat_apart {A} (ls : list (list A)) : NoDup (concat ls) ->
  forall i j a b, ls !! i = Some a -> ls !! j = Some b -> NoDup a /\ (i <> j -> a ## b).
Proof.
  induction ls as [|x ls IH]; cbn [concat]; [done|]. intros (Hx & Hd & Hn)%NoDup_app.
  assert (forall y (a : list A), a ∈ ls -> y ∈ a -> y ∉ x) as Hy.
  { intros y a Hl Hyl Hyx. apply (Hd y Hyx). rewrite list_elem_of_In. apply in_concat. exists a. by rewrite <- !list_elem_of_In. }
  intros [|i] [|j] a b Ha Hb; cbn in Ha, Hb.
  - injection Ha as <-. split; [done|congruence].
  - injection Ha as <-. split; [done|]. intros _ y H1 H2. apply (Hy y b); [by eapply list_elem_of_lookup_2|done|done].
  - injection Hb as <-. split; [by eapply (IH Hn i i a a)|]. intros _ y H1 H2. apply (Hy y a); [by eapply list_elem_of_lookup_2|done|done].
  - destruct (IH Hn i j a b Ha Hb). split; [done|]. intros Hij. auto.
Qed.

(** ** Lexemes of a value *)

Abbreviation comma := (Punct 44 JSON_TOK_COMMA).
Abbreviation colon := (Punct 58 JSON_TOK_COLON).

(** [xss] with commas between them; a comma comes first unless [b] *)
Fixpoint items (b : bool) (xss : list (list lexeme)) : list lexeme :=
  match xss with
  | [] => []
  | xs :: xss => (if b then [] else [comma]) ++ xs ++ items false xss
  end.

Definition field_lexemes (kv : list Z * jval) (ys : list lexeme) : list lexeme := StrTok (fst kv) :: colon :: ys.

(** The fields of an object come in any order.  A string is the text between its
    quotes. *)
Inductive lexemes : jval -> list lexeme -> Prop :=
  | lexemes_num n : lexemes (JNum n) [NumTok (num_text n)]
  | lexemes_bool b : lexemes (JBool b) [BoolTok b]
  | lexemes_str l : lexemes (JStr l) [StrTok l]
  | lexemes_arr vs xss : Forall2 lexemes vs xss -> lexemes (JArr vs) (Punct 91 JSON_TOK_LIST_START :: items true xss ++ [Punct 93 JSON_TOK_LIST_END])
  | lexemes_obj kvs kvs' yss : kvs' ≡ₚ kvs -> Forall2 (fun kv ys => lexemes (snd kv) ys) kvs' yss ->
      lexemes (JObj kvs) (Punct 123 JSON_TOK_OBJECT_START :: items true (zip_with field_lexemes kvs' yss) ++ [Punct 125 JSON_TOK_OBJECT_END]).

(** ** What is parsed, and where

    The text is at [lo] up to [hi]; [names] are the bytes of the field names, which
    [m0] gives. *)

Section Parse.
Variables (lo hi : Z) (size : nat) (names : Z -> bool) (m0 : memory).
Hypothesis Hlo : 0 <= lo.
Hypothesis Hhi : hi < 2 ^ 32.
Hypothesis Hsize : hi - lo < Z.of_nat size.
Hypothesis Hsize3 : (3 <= size)%nat.
Hypothesis Hnames : forall q, names q = true -> ~ lo <= q <= hi.

(** [k] is the name of the field [d]. *)
Definition key_ok d (k : list Z) : Prop :=
  chars m0 (field_name d) (k ++ [0]) /\ Forall char_ok k /\ string_body k /\ field_name_len d = Z.of_nat (length k) /\
  (length k < size)%nat /\ forall q, field_name d <= q <= field_name d + Z.of_nat (length k) -> names q = true.

(** The value is one the descriptor describes. *)
Inductive fits : json_obj_descr -> jval -> Prop :=
  | fits_num d n : type d = JSON_TOK_NUMBER -> - 2 ^ 31 <= n < 2 ^ 31 -> fits d (JNum n)
  | fits_bool d b : type d = JSON_TOK_TRUE \/ type d = JSON_TOK_FALSE -> fits d (JBool b)
  | fits_str d l : type d = JSON_TOK_STRING -> string_body l -> Forall char_ok l -> fits d (JStr l)
  | fits_arr d el es vs : type d = JSON_TOK_LIST_START -> sub d = el :: es -> type el <> JSON_TOK_LIST_START -> 0 < get_elem_size el ->
      Z.of_nat (length vs) <= n_elements d < 2 ^ 32 -> Forall (fits el) vs -> fits d (JArr vs)
  | fits_obj d kvs : type d = JSON_TOK_OBJECT_START -> (length (sub d) <= 31)%nat -> NoDup (fst <$> kvs) ->
      Forall2 (fun d kv => key_ok d (fst kv)) (sub d) kvs -> Forall2 (fun d kv => fits d (snd kv)) (sub d) kvs -> fits d (JObj kvs).

(** The bytes of the structure are apart from each other, the text and the names. *)
Definition placed (cs : list Z) : Prop := NoDup cs /\ forall q, q ∈ cs -> ~ lo <= q <= hi /\ names q = false.

(** The lexer is at [p], and [l] is left. *)
Definition here m lx l (p : Z) : Prop := ready_at p hi lx /\ chars m p l /\ p + Z.of_nat (length l) = hi /\ lo <= p.

(** What a value that has been parsed up to [p] is made of. *)
Definition okb (p : Z) (cs : list Z) (q : Z) : bool := names q || (lo <=? q) && (q <? p) || bool_decide (q ∈ cs).

Lemma okb_iff p cs q : okb p cs q = true <-> names q = true \/ lo <= q < p \/ q ∈ cs.
Proof. unfold okb. rewrite !orb_true_iff, andb_true_iff, bool_decide_eq_true, Z.leb_le, Z.ltb_lt. naive_solver. Qed.

Lemma okb_mono p p' cs cs' q : p <= p' -> cs ⊆ cs' -> okb p cs q = true -> okb p' cs' q = true.
Proof. rewrite !okb_iff. intros Hp Hc [?|[?|?]]; [auto|right; left; lia|right; right; by apply Hc]. Qed.

(** Later changes leave it alone. *)
Lemma okb_frame p cs cs' q0 p' m m' : placed cs -> placed cs' -> cs ## cs' -> p <= q0 -> p <= hi -> p' <= hi -> lo <= q0 ->
  only q0 p' cs' m m' -> agree (okb p cs) m m'.
Proof.
  intros [_ Hc] [_ Hc'] Hd Hp Hph Hp' Hq Ho q Hok. apply Ho.
  - rewrite okb_iff in Hok. destruct Hok as [Hn|[?|Hin]]; [specialize (Hnames q Hn); lia|lia|]. destruct (Hc q Hin) as [? _]. lia.
  - intros Hin'. destruct (Hc' q Hin') as [H1 H2]. rewrite okb_iff in Hok. destruct Hok as [Hn|[?|Hin]]; [congruence|lia|by apply (Hd q)].
Qed.

Lemma only_chars q p cs m m' p0 l : only q p cs m m' -> (forall x, p0 <= x < p0 + Z.of_nat (length l) -> ~ q <= x < p /\ x ∉ cs) ->
  chars m p0 l -> chars m' p0 l.
Proof.
  intros Ho Hx. apply chars_agree. intros x Hr. rewrite !ldc_ld8. f_equal. by apply Ho; apply Hx.
Qed.

Lemma here_only m m' lx l p q cs : placed cs -> only q p cs m m' -> here m lx l p -> here m' lx l p.
Proof.
  intros [_ Hc] Ho (H1 & H2 & H3 & H4). split_and!; [done| |done|done]. eapply only_chars; [exact Ho| |exact H2].
  intros x Hx. split; [lia|]. intros Hin. destruct (Hc x Hin) as [? _]. lia.
Qed.

Lemma placed_sub cs cs' : placed cs' -> NoDup cs -> cs ⊆ cs' -> placed cs.
Proof. intros [_ H] Hn Hs. split; [done|]. intros q Hq. by apply H, Hs. Qed.

Lemma names_kept m m' q p cs : placed cs -> lo <= q -> p <= hi -> only q p cs m m' -> agree names m0 m -> agree names m0 m'.
Proof.
  intros [_ Hc] Hq Hp Ho Ha x Hx. rewrite <- (Ha x Hx). apply Ho.
  - specialize (Hnames x Hx). lia.
  - intros Hin. destruct (Hc x Hin). congruence.
Qed.

(** The next lexeme. *)
Lemma next_here m lx l p x xs : here m lx l p -> written (x :: xs) l ->
  exists lx' q l', lexer_next size m lx = Some (lx', Some (token_at q x)) /\ p <= q /\ lexeme_ok x /\
    here m lx' l' (q + Z.of_nat (length (spelling x))) /\ written xs l' /\ chars m q (spelling x) /\ (length l' < length l)%nat.
Proof.
  intros (Hr & Hc & Hl & Hp) Hw. inversion Hw as [|ws x' xs' l' Hws Hx Hb Hw']; subst.
  destruct (lexer_next_spelled size m p hi lx ws x l') as (lx' & E & Hr'); try done; [lia|].
  exists lx', (p + Z.of_nat (length ws)), l'. apply chars_app in Hc as [_ Hc]. apply chars_app in Hc as [Hc1 Hc2].
  rewrite !length_app in *. assert (0 < length (spelling x))%nat as Hpos.
  { destruct x as [c ty|raw|ds|[]]; cbn; try lia. destruct Hx as ([] & c & ds' & -> & _); cbn; lia. }
  split_and!; try done; try lia. split_and!; try done; lia.
Qed.

(** ** Values without parts *)

(** The value has been parsed: it is in memory, and the lexer is behind it. *)
Definition parsed d field vl m l (q p : Z) more v (o : option (memory * lexer * Z)) : Prop :=
  exists m' lx' ret l' p', o = Some (m', lx', ret) /\ 0 <= ret /\ here m' lx' l' p' /\ written more l' /\ p <= p' /\ (length l' <= length l)%nat /\
    only q p' (cells d field vl) m m' /\ read_value (okb p' (cells d field vl)) size m' d field vl = Some v.

Definition decodes d : Prop := forall v x xs more fuel m lx l q field vl,
  fits d v -> lexemes v (x :: xs) -> written (xs ++ more) l -> here m lx l (q + Z.of_nat (length (spelling x))) -> lo <= q ->
  chars m q (spelling x) -> agree names m0 m -> placed (cells d field vl) -> 2 * Z.of_nat (length l) + 2 <= Z.of_nat fuel ->
  parsed d field vl m l q (q + Z.of_nat (length (spelling x))) more v (decode_value fuel size m lx d (token_at q x) field vl).

(** A value that is stored at once. *)
Lemma parsed_here d field vl m m' lx l q p more v ret : here m lx l p -> written more l -> placed (cells d field vl) -> 0 <= ret ->
  only q p (cells d field vl) m m' -> read_value (okb p (cells d field vl)) size m' d field vl = Some v ->
  parsed d field vl m l q p more v (Some (m', lx, ret)).
Proof. intros Hh Hw Hp Hr Ho Hv. exists m', lx, ret, l, p. split_and!; try done; try lia. by eapply here_only. Qed.

Lemma read32_okb p cs field m : word field ⊆ cs -> read32 (okb p cs) m field = Some (ld32 m field).
Proof.
  intros Hw. unfold read32.
  assert (forall q, q ∈ word field -> okb p cs q = true) as H by (intros q Hq; apply okb_iff; right; right; by apply Hw).
  rewrite !H by (unfold word; set_solver). done.
Qed.

Lemma read_string_here m p cs l : forall fuel p0, chars m p0 (l ++ [0]) -> Forall char_ok l -> lo <= p0 -> p0 + Z.of_nat (length l) < p -> (length l < fuel)%nat ->
  read_string (okb p cs) m fuel p0 = Some l.
Proof.
  induction l as [|c l IH]; intros [|fuel] p0 Hc Hl H0 Hp Hf; cbn [length app chars] in *; try lia; cbn [read_string].
  - assert (okb p cs p0 = true) as -> by (apply okb_iff; right; left; lia). destruct Hc as [-> _]. done.
  - assert (okb p cs p0 = true) as -> by (apply okb_iff; right; left; lia). destruct Hc as [-> Hc]. apply Forall_cons in Hl as [[_ Hc0] Hl].
    rewrite (proj2 (Z.eqb_neq _ _) Hc0). rewrite IH by (done || lia). done.
Qed.

Lemma decode_num_spelled m q n field : - 2 ^ 31 <= n < 2 ^ 31 -> chars m q (num_text n) -> (length (num_text n) < size)%nat ->
  ~ q + Z.of_nat (length (num_text n)) ∈ word field ->
  exists m', decode_num size m (token_at q (NumTok (num_text n))) field = Some (m', 0) /\ ld32 m' field = u32 n /\
    forall x, x ∉ word field -> ld8 m' x = ld8 m x.
Proof.
  intros Hn Hc Hl Hw. unfold decode_num, token_at. cbn [tk_start tk_end]. set (e := q + Z.of_nat (length (num_text n))) in *.
  rewrite (num_text_strtol size _ q n Hn); [|apply chars_app; split; [|cbn; split; [by rewrite ldc_st8, decide_True|done]]|done].
  2: { revert Hc. apply chars_agree. intros x Hx. by rewrite ldc_st8, decide_False by lia. }
  fold e. rewrite Z.eqb_refl. eexists. split; [reflexivity|]. unfold word in *. split.
  - set (m1 := st8 m e 0). rewrite <- (ld32_st32 m1 field n). unfold ld32. rewrite !ld8_st8, !decide_False by set_solver. done.
  - intros x Hx. rewrite ld8_st8. case_decide as Hd; [subst x; by rewrite ldc_ld8, u8_s8, u8_ld8|]. rewrite ld8_st32, decide_False.
    + by rewrite ld8_st8, decide_False.
    + intros Hr. apply Hx. assert (x = field \/ x = field + 1 \/ x = field + 2 \/ x = field + 3) as [->|[->|[->| ->]]] by lia; set_solver.
Qed.

Lemma lexemes_single v x xs : lexemes v (x :: xs) ->
  match v with JNum n => x = NumTok (num_text n) /\ xs = [] | JBool b => x = BoolTok b /\ xs = [] | JStr l => x = StrTok l /\ xs = [] | _ => True end.
Proof. by inversion 1; subst. Qed.

Lemma decode_number d : type d = JSON_TOK_NUMBER -> decodes d.
Proof.
  intros Ht v x xs more fuel m lx l q field vl Hf Hx Hw Hh Hq Hc Ha Hp Hfuel. inversion Hf; subst; try congruence; [|naive_solver congruence].
  apply lexemes_single in Hx as [-> ->]. destruct d as [fn fl off al ty sub n_el]; cbn [type] in *; subst ty. destruct fuel as [|fuel]; [lia|].
  pose proof Hh as (_ & _ & Hhi' & _). cbn [spelling] in *.
  destruct (decode_num_spelled m q n field) as (m' & E & Hv & Ho); [done|done|lia| |].
  { intros Hin. destruct Hp as [_ Hp]. apply Hp in Hin. lia. }
  cbn [decode_value]. change (tk_type (token_at q (NumTok (num_text n)))) with JSON_TOK_NUMBER.
  change (equivalent_types JSON_TOK_NUMBER JSON_TOK_NUMBER) with true. cbn [negb type]. rewrite E.
  apply parsed_here; [done|done|done|done|by intros y _ Hy; apply Ho|]. cbn [read_value cells]. rewrite read32_okb by done. cbn. by rewrite Hv, s32_u32.
Qed.

Lemma decode_bool d : type d = JSON_TOK_TRUE \/ type d = JSON_TOK_FALSE -> decodes d.
Proof.
  intros Ht v x xs more fuel m lx l q field vl Hf Hx Hw Hh Hq Hc Ha Hp Hfuel.
  inversion Hf; subst; try (naive_solver congruence). apply lexemes_single in Hx as [-> ->].
  destruct d as [fn fl off al ty sub n_el]; cbn [type] in *. destruct fuel as [|fuel]; [lia|]. cbn [decode_value type].
  assert (equivalent_types (tk_type (token_at q (BoolTok b))) ty = true) as -> by (by destruct b, Ht as [->| ->]). cbn [negb type].
  assert (cells (mk_descr fn fl off al ty sub n_el) field vl = [field]) as Ec by (by destruct Ht as [->| ->]).
  assert (read_value (okb (q + Z.of_nat (length (spelling (BoolTok b)))) [field]) size (st8 m field (if b then 1 else 0)) (mk_descr fn fl off al ty sub n_el) field vl = Some (JBool b)) as Er.
  { assert (okb (q + Z.of_nat (length (spelling (BoolTok b)))) [field] field = true) as Hok by (apply okb_iff; right; right; by apply list_elem_of_singleton).
    destruct Ht as [->| ->]; cbn [read_value]; unfold read8; rewrite Hok, ld8_st8, decide_True by done; by destruct b. }
  replace (if decide (tk_type (token_at q (BoolTok b)) = JSON_TOK_TRUE) then 1 else 0) with (if b then 1 else 0) by (by destruct b).
  assert (parsed (mk_descr fn fl off al ty sub n_el) field vl m l q (q + Z.of_nat (length (spelling (BoolTok b)))) more (JBool b) (Some (st8 m field (if b then 1 else 0), lx, 0))) as Hd.
  { apply parsed_here; [done|done|done|done|rewrite Ec; apply only_st8; right; by apply list_elem_of_singleton|by rewrite Ec]. }
  destruct Ht as [->| ->]; exact Hd.
Qed.

Lemma decode_string d : type d = JSON_TOK_STRING -> decodes d.
Proof.
  intros Ht v x xs more fuel m lx l q field vl Hf Hx Hw Hh Hq Hc Ha Hp Hfuel. inversion Hf as [| |? raw ? Hb Hraw| |]; subst; try congruence; [naive_solver congruence|].
  apply lexemes_single in Hx as [-> ->]. destruct d as [fn fl off al ty sub n_el]; cbn [type] in *; subst ty. destruct fuel as [|fuel]; [lia|].
  pose proof Hh as (_ & _ & Hhi' & _). cbn [decode_value]. change (equivalent_types (tk_type (token_at q (StrTok raw))) JSON_TOK_STRING) with true.
  cbn [negb type token_at tk_start tk_end]. set (p := q + Z.of_nat (length (spelling (StrTok raw)))) in *.
  assert (p = q + 1 + Z.of_nat (length raw) + 1) as Hpe by (unfold p; cbn [spelling length]; rewrite length_app; cbn [length]; lia).
  set (m1 := st8 m (q + 1 + Z.of_nat (length raw)) 0).
  assert (only q p (word field) m (st32 m1 field (q + 1))) as Ho.
  { eapply only_then; [apply (only_st8 _ _ _ m (q + 1 + Z.of_nat (length raw)) 0); left; lia|]. by apply only_st32. }
  apply parsed_here; [done|done|done|done|done|]. cbn [read_value cells]. rewrite read32_okb by done. rewrite ld32_st32, u32_small by lia.
  rewrite (read_string_here _ p (word field) raw); [done| |done|lia|lia|lia].
  cbn [spelling chars] in Hc. destruct Hc as [_ Hc]. apply chars_app in Hc as [Hc _].
  assert (forall y, y ∈ word field -> ~ lo <= y <= hi) as Hout by (intros y Hy; by apply Hp).
  apply chars_app. split.
  - eapply only_chars; [apply (only_st32 0 0 (word field) m1); done| |]. { intros y Hy. split; [lia|]. intros Hin. apply Hout in Hin. lia. }
    revert Hc. apply chars_agree. intros y Hy. unfold m1. by rewrite ldc_st8, decide_False by lia.
  - cbn. split; [|done]. rewrite ldc_ld8, (only_st32 0 0 (word field) m1) by (done || lia || (intros Hin; apply Hout in Hin; lia)).
    unfold m1. by rewrite ld8_st8, decide_True.
Qed.

(** ** Arrays *)

Lemma lexemes_first v xs : lexemes v xs -> exists x xs', xs = x :: xs' /\ forall q, element_token (tk_type (token_at q x)) = true.
Proof. inversion 1; subst; eexists _, _; (split; [reflexivity|]); intros q; try done. by destruct b. Qed.

Definition opt_comma (b : bool) : list lexeme := if b then [] else [comma].

Lemma arr_next_item b x xs m lx l p : (forall q, element_token (tk_type (token_at q x)) = true) -> here m lx l p -> written (opt_comma b ++ x :: xs) l ->
  exists lx' q l', arr_next size m lx = Some (lx', Some (token_at q x)) /\ p <= q /\
    here m lx' l' (q + Z.of_nat (length (spelling x))) /\ written xs l' /\ chars m q (spelling x) /\ (length l' < length l)%nat.
Proof.
  intros He Hh Hw. unfold arr_next. destruct b; cbn [opt_comma app] in Hw.
  - destruct (next_here m lx l p x xs Hh Hw) as (lx1 & q & l1 & -> & Hq & _ & Hh1 & Hw1 & Hc & Hlen). exists lx1, q, l1. split_and!; try done.
    specialize (He q). destruct (tk_type (token_at q x)); try done.
  - destruct (next_here m lx l p _ _ Hh Hw) as (lx1 & q & l1 & -> & Hq & _ & Hh1 & Hw1 & _ & Hlen). cbn [token_at tk_type].
    destruct (next_here m lx1 l1 _ x xs Hh1 Hw1) as (lx2 & q2 & l2 & -> & Hq2 & _ & Hh2 & Hw2 & Hc & Hlen2). exists lx2, q2, l2. rewrite He.
    split_and!; try done; lia.
Qed.

Lemma arr_next_end m lx l p more : here m lx l p -> written (Punct 93 JSON_TOK_LIST_END :: more) l ->
  exists lx' q l', arr_next size m lx = Some (lx', Some (token_at q (Punct 93 JSON_TOK_LIST_END))) /\ p <= q /\ here m lx' l' (q + 1) /\
    written more l' /\ (length l' < length l)%nat.
Proof.
  intros Hh Hw. unfold arr_next. destruct (next_here m lx l p _ _ Hh Hw) as (lx1 & q & l1 & -> & Hq & _ & Hh1 & Hw1 & _ & Hlen).
  by exists lx1, q, l1.
Qed.

Section Array.
Variables (el : json_obj_descr) (f0 vl n : Z).
Hypothesis Hel : decodes el.
Hypothesis Hsz : 0 < get_elem_size el.
Hypothesis Hn : n < 2 ^ 32.
Abbreviation elem i := (f0 + i * get_elem_size el).
Abbreviation count := (vl + offset el).
Hypothesis Hplaced : placed (arr_cells el f0 vl n).

Lemma elem_placed i : 0 <= i < n -> placed (cells el (elem i) vl) /\ word count ## cells el (elem i) vl.
Proof.
  intros Hi. pose proof Hplaced as [Hnd _]. unfold arr_cells in Hnd. apply NoDup_app in Hnd as (_ & Hd & Hnd).
  assert (((fun i => cells el (elem i) vl) <$> seqZ 0 n) !! Z.to_nat i = Some (cells el (elem i) vl)) as Hl.
  { rewrite list_lookup_fmap, lookup_seqZ_lt by lia. cbn. do 3 f_equal. lia. }
  split.
  - eapply placed_sub; [exact Hplaced|by eapply (concat_apart _ Hnd _ _ _ _ Hl Hl)|by apply cells_in_arr].
  - intros y Hy1 Hy2. apply (Hd y Hy1). rewrite list_elem_of_In. apply in_concat. exists (cells el (elem i) vl). rewrite <- !list_elem_of_In.
    split; [|done]. by eapply list_elem_of_lookup_2.
Qed.

Lemma elem_apart i j : 0 <= i < n -> 0 <= j < n -> i <> j -> cells el (elem i) vl ## cells el (elem j) vl.
Proof.
  intros Hi Hj Hij. pose proof Hplaced as [Hnd _]. unfold arr_cells in Hnd. apply NoDup_app in Hnd as (_ & _ & Hnd).
  assert (forall i, 0 <= i < n -> ((fun i => cells el (elem i) vl) <$> seqZ 0 n) !! Z.to_nat i = Some (cells el (elem i) vl)) as Hl.
  { intros k Hk. rewrite list_lookup_fmap, lookup_seqZ_lt by lia. cbn. do 3 f_equal. lia. }
  apply (concat_apart _ Hnd _ _ _ _ (Hl i Hi) (Hl j Hj)). lia.
Qed.

Lemma count_placed : placed (word count).
Proof.
  eapply placed_sub; [exact Hplaced| |apply count_in_arr]. pose proof Hplaced as [Hnd _]. unfold arr_cells in Hnd. by apply NoDup_app in Hnd as (? & _).
Qed.

(** The first elements are in memory. *)
Definition elements_read m (p : Z) (vs : list jval) : Prop :=
  forall j v, vs !! j = Some v -> read_value (okb p (cells el (elem (Z.of_nat j)) vl)) size m el (elem (Z.of_nat j)) vl = Some v.

(** An element is parsed, and counted. *)
Lemma elements_step m m1 m2 vs v q p p' :
  elements_read m p vs -> Z.of_nat (length vs) < n -> p <= q -> p <= hi -> p <= p' -> p' <= hi -> lo <= p ->
  only q p' (cells el (elem (Z.of_nat (length vs))) vl) m m1 -> only p' p' (word count) m1 m2 ->
  read_value (okb p' (cells el (elem (Z.of_nat (length vs))) vl)) size m1 el (elem (Z.of_nat (length vs))) vl = Some v ->
  elements_read m2 p' (vs ++ [v]).
Proof.
  intros Hvs Hlt Hq Hph Hp' Hph' Hlq Ho1 Ho2 Hv j w Hj.
  assert (forall i (b : Z), 0 <= i < n -> b <= p' -> b <= hi -> agree (okb b (cells el (elem i) vl)) m1 m2) as Hfr.
  { intros i b Hi Hb Hbh. destruct (elem_placed i Hi) as [H1 H2]. apply (okb_frame _ _ (word count) p' p'); [exact H1|apply count_placed|intros y H3 H4; by apply (H2 y)|exact Hb|lia|lia|lia|exact Ho2]. }
  apply lookup_app_Some in Hj as [Hj|[Hge Hj]].
  - pose proof (lookup_lt_Some _ _ _ Hj) as Hlt'. eapply read_value_agree; [|apply (Hfr (Z.of_nat j) p); lia|].
    { intros y. apply okb_mono; [lia|done]. }
    destruct (elem_placed (Z.of_nat j) ltac:(lia)) as [H1 _]. destruct (elem_placed (Z.of_nat (length vs)) ltac:(lia)) as [H2 _].
    eapply read_value_agree; [done|eapply (okb_frame _ _ _ q p'); [exact H1|exact H2|apply elem_apart; lia|exact Hq|lia|exact Hph'|lia|exact Ho1]|by apply Hvs].
  - apply list_lookup_singleton_Some in Hj as [Hz <-]. replace j with (length vs) by lia. eapply read_value_agree; [done|apply (Hfr _ p'); lia|exact Hv].
Qed.

Lemma arr_loop vs' : forall xss vs b more depth fuel m lx l p, Forall2 lexemes vs' xss -> Forall (fits el) vs' ->
  written (items b xss ++ Punct 93 JSON_TOK_LIST_END :: more) l -> here m lx l p -> agree names m0 m ->
  ld32 m count = Z.of_nat (length vs) -> elements_read m p vs -> Z.of_nat (length vs + length vs') <= n ->
  2 * Z.of_nat (length l) + 1 <= Z.of_nat depth -> Z.of_nat (length l) + 1 <= Z.of_nat fuel ->
  exists m' lx' l' p', elements_parse (decode_value depth size) fuel size m lx el (f0 + get_elem_size el * n) (elem (Z.of_nat (length vs))) vl = Some (m', lx', 0) /\
    here m' lx' l' p' /\ written more l' /\ p <= p' /\ (length l' <= length l)%nat /\ only p p' (arr_cells el f0 vl n) m m' /\
    ld32 m' count = Z.of_nat (length vs + length vs') /\ elements_read m' p' (vs ++ vs').
Proof.
  induction vs' as [|v vs' IH]; intros xss vs b more depth fuel m lx l p Hxs Hfit Hw Hh Ha Hcnt Hvs Hlen Hdepth Hfuel; (destruct fuel as [|fuel]; [lia|]); cbn [elements_parse].
  - inversion Hxs; subst. destruct (arr_next_end m lx l p more Hh Hw) as (lx1 & q & l1 & -> & Hq & Hh1 & Hw1 & Hl1).
    cbn [token_at tk_type]. rewrite decide_True by done. exists m, lx1, l1, (q + 1). rewrite app_nil_r, Nat.add_0_r. split_and!; try done; try lia.
    intros j w Hj. eapply (read_value_agree _ _ size m m); [|by intros y|by apply Hvs]. intros y. apply okb_mono; [lia|done].
  - inversion Hxs as [|? xs ? xss' Hx Hxs']; subst. apply Forall_cons in Hfit as [Hfv Hfit]. destruct (lexemes_first v xs Hx) as (x & xs' & -> & Hel').
    cbn [items] in Hw. rewrite <- !app_assoc in Hw. fold (opt_comma b) in Hw. cbn [app] in Hw.
    destruct (arr_next_item b x _ m lx l p Hel' Hh Hw) as (lx1 & q & l1 & -> & Hq & Hh1 & Hw1 & Hc & Hl1).
    destruct (decide (tk_type (token_at q x) = JSON_TOK_LIST_END)) as [E|_]; [specialize (Hel' q); by rewrite E in Hel'|].
    cbn [length] in Hlen. destruct (Z.eqb_spec (elem (Z.of_nat (length vs))) (f0 + get_elem_size el * n)) as [E|_]; [nia|].
    pose proof Hh as (_ & _ & Hp & Hplo). pose proof Hh1 as (_ & _ & Hp1 & _). destruct (elem_placed (Z.of_nat (length vs)) ltac:(lia)) as [Hpl Hcd].
    destruct (Hel v x xs' (items false xss' ++ Punct 93 JSON_TOK_LIST_END :: more) depth m lx1 l1 q (elem (Z.of_nat (length vs))) vl)
      as (m1 & lx2 & ret & l2 & p2 & -> & Hret & Hh2 & Hw2 & Hp2 & Hl2 & Ho1 & Hv1); try done; [lia|lia|].
    destruct (Z.ltb_spec ret 0); [lia|]. set (m2 := st32 m1 count (ld32 m1 count + 1)). pose proof Hh2 as (_ & _ & Hp2' & _).
    assert (only p2 p2 (word count) m1 m2) as Ho2 by (by apply only_st32).
    assert (ld32 m1 count = Z.of_nat (length vs)) as Hcnt1.
    { rewrite <- Hcnt. destruct count_placed as [_ Hcp]. assert (forall y, y ∈ word count -> ld8 m1 y = ld8 m y) as Hy.
      { intros y Hy. apply Ho1; [destruct (Hcp y Hy); lia|intros Hin; by apply (Hcd y)]. } unfold ld32. rewrite !Hy by (unfold word; set_solver). done. }
    assert (agree names m0 m2) as Ha2. { eapply names_kept; [apply count_placed| | |exact Ho2|]; [lia|lia|]. eapply names_kept; [exact Hpl| | |exact Ho1|done]; lia. }
    assert (here m2 lx2 l2 p2) as Hh2' by (eapply here_only; [apply count_placed|exact Ho2|done]).
    assert (ld32 m2 count = Z.of_nat (length (vs ++ [v]))) as Hcnt2.
    { unfold m2. rewrite ld32_st32, Hcnt1, u32_small by lia. rewrite length_app. cbn. lia. }
    assert (elements_read m2 p2 (vs ++ [v])) as Hvs2 by (eapply elements_step; [exact Hvs|..|exact Ho1|exact Ho2|exact Hv1]; lia).
    destruct (IH xss' (vs ++ [v]) false more depth fuel m2 lx2 l2 p2) as (m' & lx' & l' & p' & E & Hh' & Hw' & Hpp & Hll & Ho' & Hcnt' & Hvs'); try done.
    { rewrite length_app. cbn [length]. lia. } { lia. } { lia. }
    rewrite length_app in E. cbn [length] in E. replace (elem (Z.of_nat (length vs + 1))) with (elem (Z.of_nat (length vs)) + get_elem_size el) in E by lia.
    exists m', lx', l', p'. rewrite <- app_assoc in Hvs'. cbn [app] in Hvs'. rewrite length_app in Hcnt'. cbn [length] in *.
    split_and!; try done; try lia.
    eapply only_then; [|eapply only_then]; [| |eapply only_widen; [..|exact Ho']; lia].
    + eapply only_widen; [..|eapply only_sub; [|exact Ho1]]; [lia|lia|]. apply cells_in_arr. lia.
    + eapply only_widen; [..|eapply only_sub; [|exact Ho2]]; [lia|lia|]. apply count_in_arr.
Qed.

End Array.

Lemma read_elements_intro f (sz : Z) vs : forall p, (forall j v, vs !! j = Some v -> f (p + Z.of_nat j * sz) = Some v) ->
  read_elements f (length vs) p sz = Some vs.
Proof.
  induction vs as [|v vs IH]; intros p Hf; [done|]. cbn [length read_elements]. pose proof (Hf 0%nat v eq_refl) as H0.
  rewrite Z.mul_0_l, Z.add_0_r in H0. rewrite H0. rewrite IH; [done|]. intros j w Hj. rewrite <- (Hf (S j) w Hj). f_equal. lia.
Qed.

Lemma read_value_base ok m d field vl vl' : type d <> JSON_TOK_LIST_START -> read_value ok size m d field vl = read_value ok size m d field vl'.
Proof. intros Ht. destruct d as [fn fl off al ty sub n]. by destruct ty. Qed.

Lemma decode_list d el es : type d = JSON_TOK_LIST_START -> sub d = el :: es -> decodes el -> decodes d.
Proof.
  intros Ht Hsub Hel v x xs more fuel m lx l q field vl Hf Hx Hw Hh Hq Hc Ha Hp Hfuel.
  inversion Hf as [|? ? [|]| |? el' es' vs ? Hsub' Hne Hsz Hlen Hfit|]; subst; try congruence. rewrite Hsub in Hsub'. injection Hsub' as <- <-.
  inversion Hx as [| | |? xss Hxss|]; subst. destruct d as [fn fl off al ty sub n]; cbn [type Json.sub n_elements] in *; subst ty sub.
  destruct fuel as [|fuel]; [lia|]. cbn [decode_value token_at tk_type type Json.sub n_elements].
  change (equivalent_types JSON_TOK_LIST_START JSON_TOK_LIST_START) with true. cbn [negb]. unfold arr_parse.
  cbn [cells] in Hp. fold (arr_cells el field vl n) in Hp. set (m1 := st32 m (vl + offset el) 0). set (p := q + Z.of_nat (length (spelling (Punct 91 JSON_TOK_LIST_START)))) in *.
  pose proof (count_placed el field vl n Hp) as Hcp. assert (only p p (word (vl + offset el)) m m1) as Ho1 by (by apply only_st32).
  pose proof Hh as (_ & _ & Hpl & Hplo). rewrite <- app_assoc in Hw. cbn [app] in Hw.
  destruct (arr_loop el field vl n Hel Hsz ltac:(lia) Hp vs xss [] true more fuel fuel m1 lx l p) as (m' & lx' & l' & p' & E & Hh' & Hw' & Hpp & Hll & Ho & Hcnt & Hvs);
    try done; [by eapply here_only|eapply (names_kept m m1 p p); [exact Hcp|lia|lia|exact Ho1|done]|unfold m1; by rewrite ld32_st32|cbn [length]; lia..|].
  cbn [length] in E. rewrite Z.mul_0_l, Z.add_0_r in E. rewrite E. exists m', lx', 0, l', p'. cbn [cells]. fold (arr_cells el field vl n).
  split_and!; try done; try lia.
  - assert (p = q + 1) as Hpe by done. eapply only_then; [eapply only_widen; [..|eapply only_sub; [apply count_in_arr|exact Ho1]]; lia|].
    eapply only_widen; [..|exact Ho]; lia.
  - cbn [read_value]. rewrite read32_okb by apply count_in_arr. rewrite Hcnt. cbn [length Nat.add]. rewrite Nat2Z.id.
    rewrite read_elements_intro; [done|]. intros j w Hj. rewrite (read_value_base _ _ _ _ _ vl) by done.
    pose proof (lookup_lt_Some _ _ _ Hj). eapply read_value_agree; [|by intros y|by apply Hvs]. intros y. apply okb_mono; [lia|]. apply cells_in_arr. lia.
Qed.

(** ** Objects *)

Lemma memcmp_loop_chars m a : forall b x y p q, chars m p (x :: a) -> chars m q (y :: b) -> length a = length b ->
  memcmp_loop (length a) m p q = 0 <-> x :: a = y :: b.
Proof.
  induction a as [|x' a IH]; intros [|y' b] x y p q [Hx Ha] [Hy Hb] Hl; try done; cbn [length memcmp_loop]; rewrite Hx, Hy.
  - split; [intros; f_equal; lia|intros [= ->]; lia].
  - injection Hl as Hl. destruct (Z.eqb_spec x y) as [->|Hne].
    + rewrite (IH b x' y' (p + 1) (q + 1)) by done. split; [by intros ->|by intros [= -> ->]].
    + split; [lia|by intros [= -> _]].
Qed.

Lemma memcmp_chars m a b p q : chars m p a -> chars m q b -> length a = length b -> memcmp m p q (length a) = 0 <-> a = b.
Proof.
  destruct a as [|x a], b as [|y b]; try done. intros Ha Hb [= Hl]. by apply memcmp_loop_chars.
Qed.

Lemma bit_set (dec : Z) i : (Z.land dec (Z.shiftl 1 (Z.of_nat i)) =? 0) = negb (Z.testbit dec (Z.of_nat i)).
Proof. rewrite Z.shiftl_1_l. apply land_pow2. lia. Qed.

(** The field whose name is the key is found. *)
Lemma find_field_key m (ks : Z) (k : list Z) t dec ds : forall (kvs : list (list Z * jval)) i0 j kv d,
  chars m ks k -> Forall2 (fun d kv => chars m (field_name d) (fst kv) /\ field_name_len d = Z.of_nat (length (fst kv))) ds kvs ->
  kvs !! j = Some kv -> fst kv = k -> ds !! j = Some d -> NoDup (fst <$> kvs) -> Z.testbit dec (Z.of_nat (i0 + j)) = false ->
  find_field m (mk_kv ks (Z.of_nat (length k)) t) dec i0 ds = Some ((i0 + j)%nat, d).
Proof.
  induction ds as [|d0 ds IH]; intros kvs i0 j kv d Hk Hds Hkv Ek Hd Hnd Hbit; [done|].
  inversion Hds as [|? kv0 ? kvs' [Hn Hl] Hds']; subst. cbn [find_field]. rewrite bit_set, Bool.negb_involutive. cbn [key_len key]. rewrite Hl.
  assert (forall a : list Z, length a = length (fst kv0) -> chars m ks a -> memcmp m ks (field_name d0) (Z.to_nat (Z.of_nat (length (fst kv0)))) = 0 <-> a = fst kv0) as Hcmp.
  { intros a Ha Hc. rewrite Nat2Z.id, <- Ha. by apply memcmp_chars. }
  rewrite fmap_cons in Hnd. apply NoDup_cons in Hnd as [Hnin Hnd]. destruct j as [|j]; cbn in Hkv, Hd.
  - injection Hkv as ->. injection Hd as ->. rewrite Nat.add_0_r in *. rewrite Hbit, Z.eqb_refl. cbn [negb].
    rewrite (proj2 (Hcmp _ eq_refl Hk) eq_refl). done.
  - assert (find_field m (mk_kv ks (Z.of_nat (length (fst kv))) t) dec (S i0) ds = Some ((i0 + S j)%nat, d)) as E.
    { replace (i0 + S j)%nat with (S i0 + j)%nat by lia. eapply IH; try done. by replace (S i0 + j)%nat with (i0 + S j)%nat by lia. }
    destruct (Z.testbit dec (Z.of_nat i0)); [done|]. destruct (Z.eqb_spec (Z.of_nat (length (fst kv))) (Z.of_nat (length (fst kv0)))) as [El|]; [|done]. cbn [negb].
    destruct (Z.eqb_spec (memcmp m ks (field_name d0) (Z.to_nat (Z.of_nat (length (fst kv0))))) 0) as [E0|]; [|done].
    exfalso. apply Hnin. apply (Hcmp (fst kv)) in E0; [|lia|done]. rewrite <- E0. apply list_elem_of_fmap. exists kv. split; [done|]. by eapply list_elem_of_lookup_2.
Qed.

Lemma obj_next_item b k x xs m lx l p : (forall q, element_token (tk_type (token_at q x)) = true) -> here m lx l p ->
  written (opt_comma b ++ StrTok k :: colon :: x :: xs) l ->
  exists lx' ks q l', obj_next size m lx = Some (lx', Some (mk_kv ks (Z.of_nat (length k)) (token_at q x))) /\ p <= q /\ chars m ks k /\
    here m lx' l' (q + Z.of_nat (length (spelling x))) /\ written xs l' /\ chars m q (spelling x) /\ (length l' < length l)%nat.
Proof.
  intros He Hh Hw.
  assert (forall lx1 l1 qk, here m lx1 l1 (qk + Z.of_nat (length (spelling (StrTok k)))) -> written (colon :: x :: xs) l1 -> p <= qk ->
    chars m qk (spelling (StrTok k)) -> (length l1 < length l)%nat ->
    exists lx' ks q l', key_value size m lx1 (token_at qk (StrTok k)) = Some (lx', Some (mk_kv ks (Z.of_nat (length k)) (token_at q x))) /\ p <= q /\ chars m ks k /\
    here m lx' l' (q + Z.of_nat (length (spelling x))) /\ written xs l' /\ chars m q (spelling x) /\ (length l' < length l)%nat) as Hkv.
  { intros lx1 l1 qk Hh1 Hw1 Hqk Hck Hl1. unfold key_value.
    destruct (next_here m lx1 l1 _ _ _ Hh1 Hw1) as (lx2 & q2 & l2 & -> & Hq2 & _ & Hh2 & Hw2 & _ & Hlen2). cbn [token_at tk_type]. rewrite decide_True by done.
    destruct (next_here m lx2 l2 _ x xs Hh2 Hw2) as (lx3 & q3 & l3 & -> & Hq3 & _ & Hh3 & Hw3 & Hc3 & Hlen3). rewrite He.
    cbn [spelling chars] in Hck. destruct Hck as [_ Hck]. apply chars_app in Hck as [Hck _].
    pose proof Hh1 as (_ & _ & Hp1 & Hp1lo). pose proof Hh as (_ & _ & _ & Hplo). cbn [spelling length] in Hp1, Hp1lo, Hq2. rewrite length_app in Hp1, Hp1lo, Hq2. cbn [length] in *.
    exists lx3, (qk + 1), q3, l3. cbn [token_at tk_start tk_end] in *.
    replace (qk + 1 + Z.of_nat (length k) - (qk + 1)) with (Z.of_nat (length k)) by lia. rewrite u32_small by lia. split_and!; try done; lia. }
  unfold obj_next. destruct b; cbn [opt_comma app] in Hw.
  - destruct (next_here m lx l p _ _ Hh Hw) as (lx1 & q1 & l1 & -> & Hq1 & _ & Hh1 & Hw1 & Hc1 & Hlen1). by apply (Hkv lx1 l1 q1).
  - destruct (next_here m lx l p _ _ Hh Hw) as (lx0 & q0 & l0 & -> & Hq0 & _ & Hh0 & Hw0 & _ & Hlen0). cbn [token_at tk_type].
    destruct (next_here m lx0 l0 _ _ _ Hh0 Hw0) as (lx1 & q1 & l1 & -> & Hq1 & _ & Hh1 & Hw1 & Hc1 & Hlen1).
    rewrite decide_True by done. apply (Hkv lx1 l1 q1); try done; [cbn in Hq1; lia|lia].
Qed.

Lemma obj_next_end m lx l p more : here m lx l p -> written (Punct 125 JSON_TOK_OBJECT_END :: more) l ->
  exists lx' q l', obj_next size m lx = Some (lx', Some (mk_kv 0 0 (token_at q (Punct 125 JSON_TOK_OBJECT_END)))) /\ p <= q /\ here m lx' l' (q + 1) /\
    written more l' /\ (length l' < length l)%nat.
Proof.
  intros Hh Hw. unfold obj_next. destruct (next_here m lx l p _ _ Hh Hw) as (lx1 & q & l1 & -> & Hq & _ & Hh1 & Hw1 & _ & Hlen).
  by exists lx1, q, l1.
Qed.

Lemma read_fields_intro ok m rd ds vl kvs :
  Forall2 (fun d kv => read_string ok m size (field_name d) = Some (fst kv) /\ rd d (vl + offset d) vl = Some (snd kv)) ds kvs ->
  read_fields ok size m rd ds vl = Some kvs.
Proof.
  induction 1 as [|d [k v] ds kvs [Hk Hv] _ IH]; [done|]. cbn [read_fields fst snd] in *. by rewrite Hk, Hv, IH.
Qed.

Section Object.
Variables (ds : list json_obj_descr) (vl : Z) (kvs : list (list Z * jval)).
Hypothesis Hdec : forall d, d ∈ ds -> decodes d.
Hypothesis Hnd : NoDup (fst <$> kvs).
Hypothesis Hkeys : Forall2 (fun d kv => key_ok d (fst kv)) ds kvs.
Hypothesis Hfits : Forall2 (fun d kv => fits d (snd kv)) ds kvs.
Hypothesis Hplaced : placed (obj_cells ds vl).
Abbreviation fcells d := (cells d (vl + offset d) vl).

Lemma field_placed i d : ds !! i = Some d -> placed (fcells d).
Proof.
  intros Hi. pose proof Hplaced as [Hn _]. assert (((fun d => fcells d) <$> ds) !! i = Some (fcells d)) as Hl by (by rewrite list_lookup_fmap, Hi).
  eapply placed_sub; [exact Hplaced|by eapply (concat_apart _ Hn _ _ _ _ Hl Hl)|]. apply cells_in_obj. by eapply list_elem_of_lookup_2.
Qed.

Lemma field_apart i j d d' : ds !! i = Some d -> ds !! j = Some d' -> i <> j -> fcells d ## fcells d'.
Proof.
  intros Hi Hj. pose proof Hplaced as [Hn _]. apply (concat_apart ((fun d => fcells d) <$> ds) Hn); by rewrite list_lookup_fmap, ?Hi, ?Hj.
Qed.

Lemma names_chars m : agree names m0 m ->
  Forall2 (fun d kv => chars m (field_name d) (fst kv) /\ field_name_len d = Z.of_nat (length (fst kv))) ds kvs.
Proof.
  intros Ha. eapply Forall2_impl; [exact Hkeys|]. intros d kv (Hc & _ & _ & Hl & _ & Hn). split; [|done]. apply chars_app in Hc as [Hc _].
  revert Hc. apply chars_agree. intros q Hq. rewrite !ldc_ld8. f_equal. apply Ha, Hn. lia.
Qed.

(** The decoded fields are in memory; [rem] are those still to come. *)
Definition fields_read m (p dec : Z) : Prop := forall i d kv, ds !! i = Some d -> kvs !! i = Some kv -> Z.testbit dec (Z.of_nat i) = true ->
  read_value (okb p (fcells d)) size m d (vl + offset d) vl = Some (snd kv).

Definition pending (dec : Z) (rem : list (list Z * jval)) : Prop := forall i kv, kvs !! i = Some kv -> (Z.testbit dec (Z.of_nat i) = true <-> kv ∉ rem).

Lemma set_bit (dec : Z) i j : Z.testbit (Z.lor dec (Z.shiftl 1 (Z.of_nat i))) (Z.of_nat j) = Z.testbit dec (Z.of_nat j) || bool_decide (j = i).
Proof. rewrite Z.shiftl_1_l, lor_pow2_spec by lia. f_equal. apply bool_decide_ext. lia. Qed.

Lemma pending_step dec rem kv i : kvs !! i = Some kv -> NoDup (kv :: rem) -> pending dec (kv :: rem) -> pending (Z.lor dec (Z.shiftl 1 (Z.of_nat i))) rem.
Proof.
  intros Hi [Hnin _]%NoDup_cons Hp j kvj Hj. rewrite set_bit. destruct (decide (j = i)) as [->|Hne].
  - rewrite bool_decide_true, orb_true_r by done. rewrite Hi in Hj. injection Hj as <-. done.
  - rewrite bool_decide_false, orb_false_r by done. rewrite (Hp j kvj Hj), not_elem_of_cons. split; [by intros [_ ?]|]. intros Hn. split; [|done].
    intros ->. apply Hne. eapply NoDup_lookup; [exact Hnd|..]; rewrite list_lookup_fmap; [by rewrite Hj|by rewrite Hi].
Qed.

Lemma fields_step m m1 q p p' dec i d kv : fields_read m p dec -> ds !! i = Some d -> kvs !! i = Some kv -> Z.testbit dec (Z.of_nat i) = false ->
  p <= q -> p <= hi -> p <= p' -> p' <= hi -> lo <= p -> only q p' (fcells d) m m1 -> read_value (okb p' (fcells d)) size m1 d (vl + offset d) vl = Some (snd kv) ->
  fields_read m1 p' (Z.lor dec (Z.shiftl 1 (Z.of_nat i))).
Proof.
  intros Hr Hd Hkv Hbit Hq Hph Hp' Hph' Hlo' Ho Hv j dj kvj Hdj Hkvj. rewrite set_bit. destruct (decide (j = i)) as [->|Hne].
  - intros _. rewrite Hd in Hdj. rewrite Hkv in Hkvj. by injection Hdj as <-; injection Hkvj as <-.
  - rewrite bool_decide_false, orb_false_r by done. intros Hb. eapply (read_value_agree _ _ size m m1); [| |by apply (Hr j dj kvj)].
    + intros y. apply okb_mono; [lia|done].
    + apply (okb_frame _ _ (fcells d) q p'); try done; [by eapply field_placed|by eapply field_placed|by eapply field_apart|lia].
Qed.

Lemma obj_loop rem : (length ds <= 31)%nat -> forall yss b dec more depth fuel m lx l p, Forall2 (fun kv ys => lexemes (snd kv) ys) rem yss -> NoDup rem -> rem ⊆ kvs ->
  pending dec rem -> 0 <= dec < 2 ^ Z.of_nat (length ds) -> written (items b (zip_with field_lexemes rem yss) ++ Punct 125 JSON_TOK_OBJECT_END :: more) l ->
  here m lx l p -> agree names m0 m -> fields_read m p dec ->
  2 * Z.of_nat (length l) + 1 <= Z.of_nat depth -> Z.of_nat (length l) + 1 <= Z.of_nat fuel ->
  exists m' lx' l' p' dec', fields_parse (decode_value depth size) fuel size m lx ds vl dec = Some (m', lx', dec') /\ 0 <= dec' < 2 ^ Z.of_nat (length ds) /\
    here m' lx' l' p' /\ written more l' /\ p <= p' /\ (length l' <= length l)%nat /\ only p p' (obj_cells ds vl) m m' /\
    agree names m0 m' /\ fields_read m' p' dec' /\ pending dec' [].
Proof.
  intros H31. induction rem as [|kv rem IH]; intros yss b dec more depth fuel m lx l p Hys Hndr Hsub Hpend Hdec0 Hw Hh Ha Hr Hdepth Hfuel; (destruct fuel as [|fuel]; [lia|]); cbn [fields_parse].
  - inversion Hys; subst. destruct (obj_next_end m lx l p more Hh Hw) as (lx1 & q & l1 & -> & Hq & Hh1 & Hw1 & Hl1).
    cbn [value token_at tk_type]. rewrite decide_True by done. exists m, lx1, l1, (q + 1), dec. split_and!; try done; try lia.
    intros i d kv Hd Hkv Hb. eapply (read_value_agree _ _ size m m); [|by intros y|by eapply Hr]. intros y. apply okb_mono; [lia|done].
  - inversion Hys as [|? ys ? yss' Hy Hys']; subst. destruct (lexemes_first _ ys Hy) as (x & xs & -> & Hel).
    cbn [zip_with items] in Hw. fold (opt_comma b) in Hw. unfold field_lexemes at 1 in Hw. rewrite <- !app_assoc in Hw. cbn [app] in Hw.
    destruct (obj_next_item b (fst kv) x _ m lx l p Hel Hh Hw) as (lx1 & ks & q & l1 & -> & Hq & Hck & Hh1 & Hw1 & Hc & Hl1). cbn [value].
    destruct (decide (tk_type (token_at q x) = JSON_TOK_OBJECT_END)) as [E|_]; [specialize (Hel q); by rewrite E in Hel|].
    assert (kv ∈ kvs) as (i & Hi)%list_elem_of_lookup by (apply Hsub, elem_of_cons; by left).
    destruct (Forall2_lookup_r _ _ _ _ _ Hfits Hi) as (d & Hd & Hf).
    assert (Z.testbit dec (Z.of_nat i) = false) as Hbit.
    { apply not_true_is_false. rewrite (Hpend i kv Hi). intros Hn. apply Hn, elem_of_cons. by left. }
    rewrite (find_field_key m ks (fst kv) _ dec ds kvs 0 i kv d) by (done || by apply names_chars). cbn [Nat.add].
    pose proof Hh as (_ & _ & Hp & Hplo). pose proof Hh1 as (_ & _ & Hp1 & _). pose proof (field_placed i d Hd) as Hpl.
    destruct (Hdec d (list_elem_of_lookup_2 _ _ _ Hd) (snd kv) x xs (items false (zip_with field_lexemes rem yss') ++ Punct 125 JSON_TOK_OBJECT_END :: more)
      depth m lx1 l1 q (vl + offset d) vl) as (m1 & lx2 & ret & l2 & p2 & -> & Hret & Hh2 & Hw2 & Hp2 & Hl2 & Ho1 & Hv1); try done; [lia|lia|].
    destruct (Z.ltb_spec ret 0); [lia|]. pose proof Hh2 as (_ & _ & Hp2' & _).
    destruct (mark_field dec i (length ds)) as [-> Hlor]; [apply lookup_lt_Some in Hd; lia|done|].
    destruct (IH yss' false (Z.lor dec (Z.shiftl 1 (Z.of_nat i))) more depth fuel m1 lx2 l2 p2) as (m' & lx' & l' & p' & dec' & E & Hd' & Hh' & Hw' & Hpp & Hll & Ho' & Ha' & Hr' & Hp');
      try done.
    { by apply NoDup_cons in Hndr as [_ ?]. } { intros y Hy'. apply Hsub, elem_of_cons. by right. } { by eapply pending_step. }
    { eapply (names_kept m m1 q p2); [exact Hpl|lia|lia|exact Ho1|done]. }
    { eapply fields_step; [exact Hr|exact Hd|exact Hi|exact Hbit|exact Hq|..|exact Ho1|exact Hv1]; lia. } { lia. } { lia. }
    exists m', lx', l', p', dec'. split_and!; try done; try lia.
    eapply only_then; [|eapply only_widen; [..|exact Ho']; lia]. eapply only_widen; [..|eapply only_sub; [|exact Ho1]]; [lia|lia|].
    apply cells_in_obj. by eapply list_elem_of_lookup_2.
Qed.

Lemma read_name m p cs d k : key_ok d k -> agree names m0 m -> read_string (okb p cs) m size (field_name d) = Some k.
Proof.
  intros (Hc & Hk & _ & _ & Hl & Hn) Ha.
  assert (chars m (field_name d) (k ++ [0])) as Hc'.
  { revert Hc. apply chars_agree. intros q Hq. rewrite !ldc_ld8. f_equal. apply Ha, Hn. rewrite length_app in Hq. cbn in Hq. lia. }
  clear Hc. revert Hc' Hn Hl. generalize (field_name d) size. induction Hk as [|c k [_ H0] _ IH]; intros a sz Hc Hn Hl; (destruct sz as [|sz]; [cbn in Hl; lia|]);
    cbn [read_string app chars length] in *; destruct Hc as [-> Hc]; (assert (okb p cs a = true) as -> by (apply okb_iff; left; apply Hn; lia)).
  - done.
  - rewrite (proj2 (Z.eqb_neq _ _) H0). rewrite IH; [done|done|intros q Hq; apply Hn; lia|lia].
Qed.

(** The fields, once they have all been decoded. *)
Lemma fields_all m p dec : fields_read m p dec -> pending dec [] -> agree names m0 m ->
  read_fields (okb p (obj_cells ds vl)) size m (read_value (okb p (obj_cells ds vl)) size m) ds vl = Some kvs.
Proof.
  intros Hr Hp Ha.
  apply read_fields_intro. apply Forall2_same_length_lookup. split; [by eapply Forall2_length|]. intros i d kv Hd Hkv.
  pose proof (Forall2_lookup_lr _ _ _ _ _ _ Hkeys Hd Hkv) as Hk. split; [by apply read_name|].
  eapply (read_value_agree _ _ size m m); [|by intros y|apply (Hr i d kv Hd Hkv)].
  - intros y. apply okb_mono; [lia|]. apply cells_in_obj. by eapply list_elem_of_lookup_2.
  - apply (Hp i kv Hkv). apply not_elem_of_nil.
Qed.

End Object.

(** An object after its opening brace, as a field or as the whole text. *)
Lemma obj_spelled ds vl kvs kvs' yss more fuel m lx l p : (length ds <= 31)%nat -> (forall d, d ∈ ds -> decodes d) -> NoDup (fst <$> kvs) ->
  Forall2 (fun d kv => key_ok d (fst kv)) ds kvs -> Forall2 (fun d kv => fits d (snd kv)) ds kvs -> placed (obj_cells ds vl) ->
  kvs' ≡ₚ kvs -> Forall2 (fun kv ys => lexemes (snd kv) ys) kvs' yss ->
  written (items true (zip_with field_lexemes kvs' yss) ++ Punct 125 JSON_TOK_OBJECT_END :: more) l ->
  here m lx l p -> agree names m0 m -> 2 * Z.of_nat (length l) + 1 <= Z.of_nat fuel ->
  exists m' lx' l' p' dec, obj_parse (decode_value fuel size) fuel size m lx ds vl = Some (m', lx', dec) /\ 0 <= dec /\
    (forall i, (i < length ds)%nat -> Z.testbit dec (Z.of_nat i) = true) /\
    here m' lx' l' p' /\ written more l' /\ p <= p' /\ (length l' <= length l)%nat /\ only p p' (obj_cells ds vl) m m' /\
    read_object (okb p' (obj_cells ds vl)) size m' ds vl = Some (JObj kvs).
Proof.
  intros H31 Hdec Hnd Hkeys Hfits Hpl Hperm Hys Hw Hh Ha Hfuel.
  assert (NoDup kvs) as Hndk by (by eapply NoDup_fmap_1).
  destruct (obj_loop ds vl kvs Hdec Hnd Hkeys Hfits Hpl kvs' H31 yss true 0 more fuel fuel m lx l p) as (m' & lx' & l' & p' & dec & E & [H0 _] & Hh' & Hw' & Hp' & Hl' & Ho & Ha' & Hr & Hpend);
    try done; try lia; [by rewrite Hperm|by rewrite Hperm|..].
  { intros i kv Hi. rewrite Z.testbit_0_l, Hperm. split; [done|]. intros Hn. exfalso. apply Hn. by eapply list_elem_of_lookup_2. }
  { intros i d kv _ _. by rewrite Z.testbit_0_l. }
  exists m', lx', l', p', dec. split_and!; try done.
  - intros i Hi. destruct (lookup_lt_is_Some_2 kvs i) as [kv Hkv]; [by rewrite <- (Forall2_length _ _ _ Hkeys)|].
    apply (Hpend i kv Hkv). apply not_elem_of_nil.
  - unfold read_object. by rewrite (fields_all ds vl kvs) with (dec := dec) by done.
Qed.

Lemma decode_object d : type d = JSON_TOK_OBJECT_START -> (forall d', d' ∈ sub d -> decodes d') -> decodes d.
Proof.
  intros Ht Hsub v x xs more fuel m lx l q field vl Hf Hx Hw Hh Hq Hc Ha Hp Hfuel.
  inversion Hf as [|? ? [|]| | |? kvs ? Hlen Hnd Hkeys Hfits]; subst; try congruence. inversion Hx as [| | | |? kvs' yss Hperm Hys]; subst.
  destruct d as [fn fl off al ty sub n]; cbn [type Json.sub] in *; subst ty. destruct fuel as [|fuel]; [lia|].
  cbn [decode_value token_at tk_type type Json.sub]. change (equivalent_types JSON_TOK_OBJECT_START JSON_TOK_OBJECT_START) with true. cbn [negb].
  cbn [cells] in Hp. fold (obj_cells sub field) in Hp. rewrite <- app_assoc in Hw. cbn [app] in Hw.
  destruct (obj_spelled sub field kvs kvs' yss more fuel m lx l _ Hlen Hsub Hnd Hkeys Hfits Hp Hperm Hys Hw Hh Ha ltac:(lia))
    as (m' & lx' & l' & p' & dec & E & H0 & _ & Hh' & Hw' & Hp' & Hl' & Ho & Hr).
  rewrite E. exists m', lx', dec, l', p'. cbn [cells read_value]. fold (obj_cells sub field). split_and!; try done.
  eapply only_widen; [..|exact Ho]; cbn; lia.
Qed.

(** Whatever the descriptor, a value that fits it is decoded. *)
Lemma all_decode d : decodes d.
Proof.
  induction d as [fn fl off al ty sub n Hsub] using descr_ind. rewrite Forall_forall in Hsub.
  destruct ty; try (by intros v x xs more fuel m lx l q field vl Hf; inversion Hf as [|? ? [|]| | |]).
  - by apply decode_object.
  - destruct sub as [|el es].
    + intros v x xs more fuel m lx l q field vl Hf. by inversion Hf as [|? ? [|]| | |].
    + apply (decode_list _ el es); [done|done|]. apply Hsub, elem_of_cons. by left.
  - by apply decode_string.
  - by apply decode_number.
  - apply decode_bool. by left.
  - apply decode_bool. by right.
Qed.

End Parse.

(** ** The whole text *)

Definition root (ds : list json_obj_descr) : json_obj_descr := mk_descr 0 0 0 0 JSON_TOK_OBJECT_START ds 0.

Lemma parse_spelled fuel size names m0 m payload l xs ds vl v :
  0 <= payload -> payload + Z.of_nat (length l) < 2 ^ 32 -> Z.of_nat (length l) + 3 <= Z.of_nat size -> 2 * Z.of_nat (length l) + 1 <= Z.of_nat fuel ->
  (forall q, names q = true -> ~ payload <= q <= payload + Z.of_nat (length l)) -> agree names m0 m ->
  fits size names m0 (root ds) v -> placed payload (payload + Z.of_nat (length l)) names (obj_cells ds vl) ->
  lexemes v xs -> written xs l -> chars m payload l ->
  exists m' ret, json_obj_parse fuel size m payload (Z.of_nat (length l)) ds vl = Some (m', ret) /\
    (forall i, (i < length ds)%nat -> Z.testbit ret (Z.of_nat i) = true) /\
    only payload (payload + Z.of_nat (length l)) (obj_cells ds vl) m m' /\
    read_object (fun _ => true) size m' ds vl = Some v.
Proof.
  intros H0 Hhi Hsz Hfuel Hnames Ha Hf Hp Hx Hw Hc. remember (payload + Z.of_nat (length l)) as hi eqn:Ehi.
  assert (hi - payload < Z.of_nat size) as Hsize by lia. assert (3 <= size)%nat as Hsize3 by lia.
  inversion Hf as [|? ? [|]| | |? kvs ? Hlen Hnd Hkeys Hfits]; subst v; try done. inversion Hx as [| | | |? kvs' yss Hperm Hys]; subst xs.
  unfold json_obj_parse, obj_init.
  assert (here payload hi m (lexer_init payload (Z.of_nat (length l))) l payload) as Hh.
  { split_and!; [|done|done|lia]. exists (mk_token JSON_TOK_NONE 0 0). unfold lexer_init. by rewrite Ehi. }
  destruct (next_here payload hi size Hsize Hsize3 m _ l payload _ _ Hh Hw) as (lx1 & q & l1 & -> & Hq & _ & Hh1 & Hw1 & _ & Hl1).
  cbn [token_at tk_type]. rewrite bool_decide_true by done. pose proof Hh1 as (_ & _ & Hq1 & _).
  destruct (obj_spelled payload hi size names m0 H0 Hhi Hsize Hsize3 Hnames ds vl kvs kvs' yss [] fuel m lx1 l1 _ Hlen
    (fun d _ => all_decode payload hi size names m0 H0 Hhi Hsize Hsize3 Hnames d) Hnd Hkeys Hfits Hp Hperm Hys Hw1 Hh1 Ha ltac:(lia))
    as (m' & lx' & l' & p' & dec & -> & Hd & Hbits & Hh' & _ & Hp' & _ & Ho & Hr).
  exists m', dec. pose proof Hh' as (_ & _ & Hp2 & _). split_and!; try done.
  - eapply only_widen; [..|exact Ho]; cbn; lia.
  - eapply (read_value_agree _ _ size m' m' ) with (d := root ds) (vl := vl); [| |exact Hr]; [done|by intros y].
Qed.

(** ** The text of the encoder *)

(** A parsed string is the text between the quotes, in which escapes are kept. *)
Fixpoint escape_value v : jval :=
  match v with
  | JStr l => JStr (escaped l)
  | JArr vs => JArr (escape_value <$> vs)
  | JObj kvs => JObj ((fun kv => (escaped (fst kv), escape_value (snd kv))) <$> kvs)
  | _ => v
  end.

Definition ends_number (rest : list Z) : Prop := match rest with [] => True | c :: _ => isdigit c = false /\ c <> 46 end.

(** [text] spells [xs], whatever comes next. *)
Definition writes (xs : list lexeme) (text : list Z) : Prop :=
  forall more rest, written more rest -> ends_number rest -> written (xs ++ more) (text ++ rest).

Lemma writes_one x : lexeme_ok x -> writes [x] (spelling x).
Proof.
  intros Hx more rest Hw Hb. apply (written_cons [] x more rest); [done|done| |done]. by destruct x.
Qed.

Lemma writes_app xs text xs' text' : writes xs text -> writes xs' text' -> (forall rest, ends_number rest -> ends_number (text' ++ rest)) ->
  writes (xs ++ xs') (text ++ text').
Proof. intros H1 H2 Hb more rest Hw Hr. rewrite <- !app_assoc. apply H1; [by apply H2|by apply Hb]. Qed.

Lemma writes_punct c ty xs text : punctuation c = Some ty -> writes xs text -> writes (Punct c ty :: xs) (c :: text).
Proof. intros Hc H more rest Hw Hr. apply (written_cons [] (Punct c ty)); [done|done|done|]. by apply H. Qed.

Lemma writes_items (xss : list (list lexeme)) ts : Forall2 writes xss ts -> writes (items true xss) (separated [44] ts).
Proof.
  intros H. assert (forall b, writes (items b xss) (if b : bool then separated [44] ts else if decide (ts = []) then [] else 44 :: separated [44] ts)) as Hb; [|by apply (Hb true)].
  induction H as [|xs t xss ts Hx _ IH]; intros b; [by destruct b; intros more rest|]. rewrite decide_False by done.
  assert (writes (xs ++ items false xss) (separated [44] (t :: ts))) as Hc.
  { cbn [separated]. change ([44] ++ separated [44] ts) with (44 :: separated [44] ts). apply writes_app; [done|apply (IH false)|].
    intros rest Hr. case_decide; [done|]. by split. }
  destruct b; [exact Hc|]. by apply writes_punct.
Qed.

Lemma escaped_body l : Forall char_ok l -> string_body (escaped l).
Proof.
  unfold escaped. induction 1 as [|c l [_ Hc] _ IH]; [constructor|]. rewrite fmap_cons. cbn [concat]. unfold esc at 1.
  assert (escape_as c = 0 -> c <> 92 /\ c <> 34) as Hp. { unfold escape_as. by repeat case_match; try (intros; lia). }
  destruct (Z.eqb_spec (escape_as c) 0) as [E|E]; cbn [app].
  - destruct (Hp E). by constructor.
  - apply body_escape; [|done]. clear Hp. unfold escape_as in *. by repeat case_match.
Qed.

(** The encoder's text of a value spells the lexemes of the value. *)
Lemma text_writes v : val_ok v -> exists xs, lexemes (escape_value v) xs /\ writes xs (json_text v).
Proof.
  induction v as [n|b|l|vs IH|kvs IH] using jval_ind'; intros Hv; inversion Hv as [? Hn| |? Hl|? Hvs|? Hks Hkvs]; subst; cbn [escape_value json_text].
  - exists [NumTok (num_text n)]. split; [constructor|]. by apply (writes_one (NumTok _)), num_text_integer.
  - exists [BoolTok b]. split; [constructor|]. by apply (writes_one (BoolTok b)).
  - exists [StrTok (escaped l)]. split; [constructor|]. by apply (writes_one (StrTok _)), escaped_body.
  - assert (exists xss, Forall2 lexemes (escape_value <$> vs) xss /\ Forall2 writes xss (json_text <$> vs)) as (xss & H1 & H2).
    { clear Hv. induction IH as [|v vs Hx _ IHvs]; [by exists []|]. apply Forall_cons in Hvs as [Hv Hvs]. destruct (IHvs Hvs) as (xss & H1 & H2).
      destruct (Hx Hv) as (xs & H3 & H4). exists (xs :: xss). split; rewrite fmap_cons; by constructor. }
    eexists. split; [by constructor|]. apply writes_punct; [done|]. apply writes_app; [by apply writes_items|by apply (writes_one (Punct 93 _))|].
    by intros rest _.
  - set (ek := fun kv : list Z * jval => (escaped (fst kv), escape_value (snd kv))).
    assert (exists yss, Forall2 (fun kv ys => lexemes (snd kv) ys) (ek <$> kvs) yss /\
      Forall2 writes (zip_with field_lexemes (ek <$> kvs) yss) ((fun kv => quoted (fst kv) ++ 58 :: json_text (snd kv)) <$> kvs)) as (yss & H1 & H2).
    { clear Hv. induction IH as [|[k v] kvs Hx _ IHk]; [by exists []|]. apply Forall_cons in Hks as [Hk Hks]. apply Forall_cons in Hkvs as [Hv Hkvs].
      destruct (IHk Hks Hkvs) as (yss & H1 & H2). destruct (Hx Hv) as (ys & H3 & H4). exists (ys :: yss). rewrite !fmap_cons. split; [by constructor|].
      constructor; [|done]. unfold field_lexemes, ek. cbn [fst snd] in *.
      apply (writes_app [StrTok (escaped k)] _ (colon :: ys)); [by apply (writes_one (StrTok _)), escaped_body|by apply writes_punct|].
      by intros rest _. }
    eexists. split; [by eapply (lexemes_obj _ (ek <$> kvs) yss)|]. apply writes_punct; [done|].
    apply writes_app; [by apply writes_items|by apply (writes_one (Punct 125 _))|]. by intros rest _.
Qed.

(** C33. Parsing is correct: a text that spells a value of the described type, with any
    white space between its tokens and the fields of every object in any order, is
    parsed into a structure that holds this value, and every field is reported as
    decoded. *)
Theorem json_parses_spelled fuel size names m payload l xs ds vl v :
  0 <= payload -> payload + Z.of_nat (length l) < 2 ^ 32 -> Z.of_nat (length l) + 3 <= Z.of_nat size -> 2 * Z.of_nat (length l) + 1 <= Z.of_nat fuel ->
  (forall q, names q = true -> ~ payload <= q <= payload + Z.of_nat (length l)) ->
  fits size names m (root ds) v -> placed payload (payload + Z.of_nat (length l)) names (obj_cells ds vl) ->
  lexemes v xs -> written xs l -> chars m payload l ->
  exists m' ret, json_obj_parse fuel size m payload (Z.of_nat (length l)) ds vl = Some (m', ret) /\
    (forall i, (i < length ds)%nat -> Z.testbit ret (Z.of_nat i) = true) /\
    only payload (payload + Z.of_nat (length l)) (obj_cells ds vl) m m' /\
    read_object (fun _ => true) size m' ds vl = Some v.
Proof. intros. by apply (parse_spelled fuel size names m m payload l xs). Qed.

(** C32. What has been encoded is parsed back: the encoder's text of one structure,
    parsed into another one, gives the same value; in strings, escapes are kept. *)
Theorem json_roundtrip fuel size names m ds vl vl' buf (buf_size : Z) v :
  0 <= buf -> 0 <= buf_size -> buf + buf_size < 2 ^ 32 -> buf_size + 3 <= Z.of_nat size -> 2 * buf_size + 1 <= Z.of_nat fuel ->
  read_object (outside buf buf_size) size m ds vl = Some v -> Z.of_nat (length (json_text v)) <= buf_size ->
  (forall q, names q = true -> outside buf buf_size q = true) ->
  fits size names m (root ds) (escape_value v) -> placed buf (buf + buf_size) names (obj_cells ds vl') ->
  exists m1 m2 ret, json_obj_encode_buf size m ds vl buf buf_size = Some (m1, 0) /\
    json_obj_parse fuel size m1 buf (Z.of_nat (length (json_text v))) ds vl' = Some (m2, ret) /\
    (forall i, (i < length ds)%nat -> Z.testbit ret (Z.of_nat i) = true) /\
    read_object (fun _ => true) size m2 ds vl' = Some (escape_value v).
Proof.
  intros H0 Hs Hb Hsz Hfuel Hr Hl Hnames Hf Hp.
  destruct (encode_buf_text size m ds vl buf buf_size v) as (m1 & E & Hsame & Hc); [lia|lia|done|]. rewrite decide_True in E by done. exists m1.
  destruct (text_writes v (read_object_ok _ _ _ _ _ _ Hr)) as (xs & Hx & Hw). specialize (Hw [] [] (written_nil []) I). rewrite !app_nil_r in Hw.
  specialize (Hc Hl). apply chars_app in Hc as [Hc _].
  destruct (parse_spelled fuel size names m m1 buf (json_text v) xs ds vl' (escape_value v)) as (m2 & ret & Ep & Hbits & _ & Hrd); try done; try lia.
  - intros q Hq. specialize (Hnames q Hq). unfold outside in Hnames. lia.
  - intros q Hq. apply (outside_agree buf buf_size m m1 Hsame). by apply Hnames.
  - destruct Hp as [Hnd Hp]. split; [done|]. intros q Hq. destruct (Hp q Hq). split; [lia|done].
  - exists m2, ret. by split_and!.
Qed.

(** ** A run *)

Definition in_names (q : Z) : bool := (1000 <=? q) && (q <? 1050).

Lemma demo_keys m k (d : json_obj_descr) : chars m (field_name d) (k ++ [0]) -> Forall char_ok k -> Forall (fun c => c <> 92 /\ c <> 34) k ->
  field_name_len d = Z.of_nat (length k) -> (length k < 10)%nat -> 1000 <= field_name d <= 1040 -> key_ok 110 in_names m d k.
Proof.
  intros Hc Hk Hb Hl Hl' Hd. split_and!; try done; [|lia|].
  - clear Hc Hl Hl'. induction Hk as [|c k [? ?] _ IH]; [constructor|]. apply Forall_cons in Hb as [[? ?] Hb]. constructor; auto.
  - intros q Hq. unfold in_names. lia.
Qed.

Definition demo_parsed : jval :=
  JObj [([110; 117; 109], JNum (-42)); ([115; 116; 114], JStr [104; 92; 34; 121]); ([97; 114; 114], JArr [JNum 7; JNum (-9)]);
        ([115; 117; 98], JObj [([111; 110], JBool true)])].

Lemma demo_key m k (d : json_obj_descr) : bool_decide (Forall (fun c => s8 c = c /\ c <> 0 /\ c <> 92 /\ c <> 34) k) = true ->
  chars m (field_name d) (k ++ [0]) -> field_name_len d = Z.of_nat (length k) -> (length k < 10)%nat -> 1000 <= field_name d <= 1040 ->
  key_ok 110 in_names m d k.
Proof.
  intros Hk%bool_decide_eq_true Hc Hl Hl' Hd. apply demo_keys; try done; (eapply Forall_impl; [exact Hk|]); intros c Hc'; cbn in *; unfold char_ok; tauto.
Qed.

Ltac demo_key := apply demo_key; [by vm_compute|by vm_compute|done|cbn; lia|cbn; lia].

Lemma demo_fits : fits 110 in_names demo_struct (root demo_descr) demo_parsed.
Proof.
  apply fits_obj; [done|cbn; lia|by apply (bool_decide_unpack _); vm_compute| |]; cbn [root sub demo_descr].
  - do 4 (constructor; [demo_key|]). constructor.
  - constructor; [by apply fits_num|]. constructor; [apply fits_str; [done|by apply body_plain, body_escape, body_plain, body_nil|by repeat constructor]|].
    constructor; [eapply fits_arr; try done; repeat constructor; cbn; lia|]. constructor; [|constructor].
    apply fits_obj; [done|cbn; lia|by apply (bool_decide_unpack _); vm_compute| |]; cbn [sub].
    + constructor; [demo_key|constructor].
    + constructor; [apply fits_bool; by left|constructor].
Qed.

Lemma demo_placed lo hi ds vl : bool_decide (NoDup (obj_cells ds vl)) &&
  forallb (fun q => negb ((lo <=? q) && (q <=? hi)) && negb (in_names q)) (obj_cells ds vl) = true -> placed lo hi in_names (obj_cells ds vl).
Proof.
  intros [H1%bool_decide_eq_true H2]%andb_true_iff. split; [done|]. rewrite forallb_forall in H2. intros q Hq%list_elem_of_In. specialize (H2 q Hq).
  destruct (in_names q); [by rewrite andb_false_r in H2|]. split; [lia|done].
Qed.

Lemma json_roundtrip_witness : exists m1 m2 ret,
  json_obj_encode_buf 110 demo_struct demo_descr 2000 3000 100 = Some (m1, 0) /\
  json_obj_parse 201 110 m1 3000 55 demo_descr 4000 = Some (m2, ret) /\
  (forall i, (i < 4)%nat -> Z.testbit ret (Z.of_nat i) = true) /\
  read_object (fun _ => true) 110 m2 demo_descr 4000 = Some demo_parsed.
Proof.
  apply (json_roundtrip 201 110 in_names demo_struct demo_descr 2000 4000 3000 100 demo_value);
    [lia|lia|lia|lia|lia|vm_compute; reflexivity|vm_compute; discriminate|unfold in_names, outside; lia|exact demo_fits|by apply demo_placed; vm_compute].
Defined.

(** The text [{ "on" : true, "num":-42}] at 3000, for a structure of a number and a
    boolean. *)
Definition small_descr : list json_obj_descr := [JSON_OBJ_DESCR_PRIM 1000 3 0 4 JSON_TOK_NUMBER; JSON_OBJ_DESCR_PRIM 1040 2 4 4 JSON_TOK_TRUE].
Definition small_value : jval := JObj [([110; 117; 109], JNum (-42)); ([111; 110], JBool true)].
Definition small_text : list Z :=
  [123; 32; 34; 111; 110; 34; 32; 58; 32; 116; 114; 117; 101; 44; 32; 34; 110; 117; 109; 34; 58; 45; 52; 50; 125].
Definition small_lexemes : list lexeme :=
  [Punct 123 JSON_TOK_OBJECT_START; StrTok [111; 110]; colon; BoolTok true; comma; StrTok [110; 117; 109]; colon; NumTok [45; 52; 50]; Punct 125 JSON_TOK_OBJECT_END].

Lemma small_written : written small_lexemes small_text.
Proof.
  assert (Forall is_ws [32]) as Hws by (repeat constructor).
  apply (written_cons [] (Punct 123 _)); [done|done|done|].
  apply (written_cons [32] (StrTok [111; 110])); [done|by apply body_plain, body_plain, body_nil|done|].
  apply (written_cons [32] (Punct 58 _)); [done|done|done|].
  apply (written_cons [32] (BoolTok true)); [done|done|done|].
  apply (written_cons [] (Punct 44 _)); [done|done|done|].
  apply (written_cons [32] (StrTok [110; 117; 109])); [done|by apply body_plain, body_plain, body_plain, body_nil|done|].
  apply (written_cons [] (Punct 58 _)); [done|done|done|].
  apply (written_cons [] (NumTok [45; 52; 50])); [done|exists true, 52, [50]; split; [done|repeat constructor; lia]|done|].
  apply (written_cons [] (Punct 125 _) []); [done|done|done|constructor].
Qed.

Lemma small_lexed : lexemes small_value small_lexemes.
Proof.
  apply (lexemes_obj _ [([111; 110], JBool true); ([110; 117; 109], JNum (-42))] [[BoolTok true]; [NumTok (num_text (-42))]]).
  - apply Permutation_swap.
  - repeat constructor.
Qed.

Lemma json_parses_spelled_witness : exists m' ret,
  json_obj_parse 60 110 (store demo_names 3000 small_text) 3000 25 small_descr 4000 = Some (m', ret) /\
  (forall i, (i < 2)%nat -> Z.testbit ret (Z.of_nat i) = true) /\
  only 3000 3025 (obj_cells small_descr 4000) (store demo_names 3000 small_text) m' /\
  read_object (fun _ => true) 110 m' small_descr 4000 = Some small_value.
Proof.
  apply (json_parses_spelled 60 110 in_names (store demo_names 3000 small_text) 3000 small_text small_lexemes small_descr 4000 small_value);
    [lia|vm_compute; reflexivity|vm_compute; discriminate|vm_compute; discriminate|unfold in_names; cbn; lia| |by apply demo_placed; vm_compute
    |exact small_lexed|exact small_written|by vm_compute].
  apply fits_obj; [done|cbn; lia|by apply (bool_decide_unpack _); vm_compute| |]; cbn [root sub small_descr].
  - do 2 (constructor; [demo_key|]). constructor.
  - constructor; [by apply fits_num|]. constructor; [apply fits_bool; by left|constructor].
Defined.

(** The value of an unknown key is not skipped: the fields of the object in
    [{"x":{"num":7}}] are taken for fields of the outer one. *)
Lemma unknown_object_flattened :
  match json_obj_parse 60 110 (store demo_names 3000 [123; 34; 120; 34; 58; 123; 34; 110; 117; 109; 34; 58; 55; 125; 125]) 3000 15 small_descr 4000 with
  | Some (m', ret) => ret = 1 /\ ld32 m' 4000 = 7
  | None => False
  end.
Proof. vm_compute. done. Qed.

End JsonRound.
