(* ===== verification/Crc.v ===== *)
(** * Cyclic redundancy check (lib/crc/crc16_sw.c)

    The bitwise CRC over bytes, for any polynomial and initial value.  The
    theorem is the one a receiver relies on: the check over a message followed
    by its own check value is zero. *)

From S2P Require Import Prelude.

Local Open Scope Z_scope.

Module Crc.

Implicit Types (src : list Z) (crc poly bit : Z) (n : nat).

(** one turn of the inner loop: [bit] is the input bit, 0 in the padding *)
Definition crc_bit poly crc bit : Z :=
  let divide := Z.land crc 0x8000 in
  let crc := u16 (Z.shiftl crc 1) in
  let crc := Z.lor crc bit in
  if negb (divide =? 0) then u16 (Z.lxor crc poly) else crc.

(** [!!(src[i] & (0x80 >> b))] *)
Definition input_bit (byte b : Z) : Z := if Z.land byte (Z.shiftr 0x80 b) =? 0 then 0 else 1.

(** the loop over [b], from [b] on for [n] turns; [None] is the padding *)
Fixpoint crc_byte n poly crc (byte : option Z) (b : Z) : Z :=
  match n with
  | O => crc
  | S n => crc_byte n poly (crc_bit poly crc (match byte with Some x => input_bit x b | None => 0 end)) byte (b + 1)
  end.

(** the loop over [i], below [len] and then in the padding *)
Fixpoint crc_bytes poly crc (bytes : list (option Z)) : Z :=
  match bytes with
  | [] => crc
  | x :: bytes => crc_bytes poly (crc_byte 8 poly crc x 0) bytes
  end.

Definition crc16 src poly (initial_value : Z) (pad : bool) : Z :=
  crc_bytes poly initial_value ((Some <$> src) ++ if pad then [None; None] else []).

(** ** The register as a sum *)

Definition word16 (x : Z) : Prop := 0 <= x < 2 ^ 16.

Lemma word16_bits (x : Z) : 0 <= x -> (forall i, 16 <= i -> Z.testbit x i = false) -> word16 x.
Proof.
  intros Hx Hb. split; [done|]. destruct (decide (x = 0)) as [->|]; [done|].
  apply Z.log2_lt_pow2; [lia|]. destruct (Z.ltb_spec (Z.log2 x) 16) as [|Hge]; [done|].
  specialize (Hb _ Hge). rewrite Z.bit_log2 in Hb by lia. done.
Qed.

Lemma word16_lxor (x y : Z) : word16 x -> word16 y -> word16 (Z.lxor x y).
Proof.
  intros Hx Hy. apply word16_bits; [apply Z.lxor_nonneg; unfold word16 in *; lia|].
  intros i Hi. rewrite Z.lxor_spec, !(testbit_above _ 16) by (done || lia). done.
Qed.

Lemma u16_id (x : Z) : word16 x -> u16 x = x.
Proof. intros Hx. by apply Z.mod_small. Qed.

Lemma u16_shift_bits (x i : Z) : 0 <= i -> Z.testbit (u16 (Z.shiftl x 1)) i = (i <? 16) && Z.testbit x (i - 1).
Proof.
  intros Hi. unfold u16. rewrite <- Z.land_ones by lia. rewrite Z.land_spec, Z.shiftl_spec by done.
  destruct (Z.ltb_spec i 16); [rewrite Z.ones_spec_low by lia|rewrite Z.ones_spec_high by lia]; [by rewrite andb_true_r|by rewrite andb_false_r].
Qed.

Definition shifted crc bit : Z := Z.lxor (u16 (Z.shiftl crc 1)) bit.

(** A turn shifts the bit in and subtracts the polynomial when a bit comes out. *)
Lemma crc_bit_spec poly crc bit :
  word16 poly -> word16 crc -> 0 <= bit <= 1 ->
  crc_bit poly crc bit = Z.lxor (shifted crc bit) (if Z.testbit crc 15 then poly else 0) /\ word16 (crc_bit poly crc bit).
Proof.
  intros Hp Hc Hb. assert (word16 (u16 (Z.shiftl crc 1))) as Hs by (unfold word16, u16; apply Z.mod_pos_bound; lia).
  assert (word16 bit) as Hbit by (unfold word16; lia).
  assert (Z.lor (u16 (Z.shiftl crc 1)) bit = shifted crc bit) as El.
  { unfold shifted. symmetry. apply Z.lxor_lor, Z.bits_inj'. intros i Hi. rewrite Z.land_spec, Z.bits_0.
    destruct (decide (i = 0)) as [->|]; [rewrite u16_shift_bits by done; by rewrite andb_false_r|].
    rewrite (testbit_above bit 1) by lia. apply andb_false_r. }
  unfold crc_bit. change 0x8000 with (2 ^ 15). rewrite land_pow2, El, negb_involutive by lia.
  assert (word16 (shifted crc bit)) as Hw by (by apply word16_lxor).
  destruct (Z.testbit crc 15); [|by rewrite Z.lxor_0_r]. rewrite u16_id by (by apply word16_lxor). split; [done|by apply word16_lxor].
Qed.

Lemma crc_bit_xor poly c1 c2 b1 b2 :
  word16 poly -> word16 c1 -> word16 c2 -> 0 <= b1 <= 1 -> 0 <= b2 <= 1 ->
  crc_bit poly (Z.lxor c1 c2) (Z.lxor b1 b2) = Z.lxor (crc_bit poly c1 b1) (crc_bit poly c2 b2).
Proof.
  intros Hp H1 H2 Hb1 Hb2. assert (0 <= Z.lxor b1 b2 <= 1) as Hb.
  { assert (b1 = 0 \/ b1 = 1) as [-> | ->] by lia; assert (b2 = 0 \/ b2 = 1) as [-> | ->] by lia; done. }
  rewrite (proj1 (crc_bit_spec poly c1 b1 Hp H1 Hb1)), (proj1 (crc_bit_spec poly c2 b2 Hp H2 Hb2)).
  rewrite (proj1 (crc_bit_spec poly _ _ Hp (word16_lxor _ _ H1 H2) Hb)).
  apply Z.bits_inj'. intros i Hi. unfold shifted. rewrite !Z.lxor_spec, !u16_shift_bits by done. rewrite Z.lxor_spec.
  destruct (Z.testbit c1 15), (Z.testbit c2 15); cbn [xorb]; rewrite ?Z.bits_0;
    destruct (i <? 16), (Z.testbit c1 (i - 1)), (Z.testbit c2 (i - 1)), (Z.testbit b1 i), (Z.testbit b2 i), (Z.testbit poly i); done.
Qed.

(** ** Runs over bits *)

Definition run poly crc (bits : list Z) : Z := fold_left (crc_bit poly) bits crc.
Definition is_bit bit : Prop := 0 <= bit <= 1.

Lemma run_word poly crc bits : word16 poly -> word16 crc -> Forall is_bit bits -> word16 (run poly crc bits).
Proof.
  intros Hp Hc Hb. revert crc Hc. induction Hb as [|b bits Hb _ IH]; intros crc Hc; [done|].
  apply IH. by apply crc_bit_spec.
Qed.

(** The register after a run is the sum of what the state leaves and of what
    the bits leave. *)
Lemma run_split poly crc bits :
  word16 poly -> word16 crc -> Forall is_bit bits ->
  run poly crc bits = Z.lxor (run poly crc (repeat 0 (length bits))) (run poly 0 bits).
Proof.
  intros Hp Hc Hb. assert (forall c1 c2, word16 c1 -> word16 c2 ->
    run poly (Z.lxor c1 c2) bits = Z.lxor (run poly c1 (repeat 0 (length bits))) (run poly c2 bits)) as H.
  { clear crc Hc. induction Hb as [|b bits Hb Hbs IH]; intros c1 c2 H1 H2; [done|]. cbn [length repeat run fold_left].
    assert (is_bit 0) as H0 by (unfold is_bit; lia). replace b with (Z.lxor 0 b) at 1 by apply Z.lxor_0_l.
    rewrite crc_bit_xor by done. apply IH; by apply crc_bit_spec. }
  rewrite <- (Z.lxor_0_r crc) at 1. apply H; [done|unfold word16; lia].
Qed.

(** The bits of a number, the most significant of its [n] bits first. *)
Fixpoint bits_of n (x : Z) : list Z :=
  match n with
  | O => []
  | S n => Z.b2z (Z.testbit x (Z.of_nat n)) :: bits_of n x
  end.

Lemma bits_of_bits n (x : Z) : Forall is_bit (bits_of n x).
Proof. induction n as [|n IH]; constructor; [|done]. unfold is_bit. destruct (Z.testbit _ _); simpl; lia. Qed.

Lemma length_bits_of n (x : Z) : length (bits_of n x) = n.
Proof. induction n as [|n IH]; simpl; congruence. Qed.

(** Shifting in at most 16 bits reaches no division. *)
Lemma run_low poly n (x y : Z) :
  word16 poly -> 0 <= y -> (n <= 16)%nat -> y < 2 ^ (16 - Z.of_nat n) ->
  run poly y (bits_of n x) = y * 2 ^ Z.of_nat n + x mod 2 ^ Z.of_nat n.
Proof.
  intros Hp. revert y. induction n as [|n IH]; intros y Hy Hn Hlt; cbn [bits_of run fold_left].
  { simpl. rewrite Z.mod_1_r. lia. }
  assert (2 ^ (16 - Z.of_nat (S n)) * 2 = 2 ^ (16 - Z.of_nat n)) as Ep.
  { rewrite Z.mul_comm, <- Z.pow_succ_r by lia. f_equal. lia. }
  assert (2 ^ (16 - Z.of_nat (S n)) <= 2 ^ 15) as Hle by (apply Z.pow_le_mono_r; lia).
  assert (word16 y) as Hw by (unfold word16; lia).
  set (b := Z.b2z (Z.testbit x (Z.of_nat n))). assert (is_bit b) as Hb by (unfold b, is_bit; destruct (Z.testbit _ _); simpl; lia).
  assert (crc_bit poly y b = 2 * y + b) as ->.
  { rewrite (proj1 (crc_bit_spec poly y b Hp Hw Hb)), (testbit_above y 15) by lia. rewrite Z.lxor_0_r. unfold shifted.
    rewrite Z.shiftl_mul_pow2 by lia. rewrite u16_id by (unfold word16; lia). rewrite <- Z.add_nocarry_lxor; [lia|].
    apply Z.bits_inj'. intros i Hi. rewrite Z.land_spec, Z.bits_0. destruct (decide (i = 0)) as [->|].
    - rewrite Z.mul_comm. change (2 ^ 1 * y) with (2 * y). by rewrite Z.testbit_even_0.
    - unfold is_bit in Hb. rewrite (testbit_above b 1) by lia. apply andb_false_r. }
  change (fold_left (crc_bit poly) (bits_of n x) (2 * y + b)) with (run poly (2 * y + b) (bits_of n x)).
  unfold is_bit in Hb. rewrite IH by lia.
  rewrite Nat2Z.inj_succ, Z.pow_succ_r by lia. unfold b. rewrite Z.testbit_spec' by lia.
  rewrite (Z.mul_comm 2 (2 ^ Z.of_nat n)). rewrite (Z.rem_mul_r x (2 ^ Z.of_nat n) 2) by lia. lia.
Qed.

(** ** The loops run over the bits of the bytes *)

Lemma run_app poly crc l1 l2 : run poly crc (l1 ++ l2) = run poly (run poly crc l1) l2.
Proof. apply fold_left_app. Qed.

Lemma input_bit_spec (x b : Z) : 0 <= b < 8 -> input_bit x b = Z.b2z (Z.testbit x (7 - b)).
Proof.
  intros Hb. unfold input_bit. assert (Z.shiftr 0x80 b = 2 ^ (7 - b)) as ->.
  { change 0x80 with (2 ^ 7). rewrite Z.shiftr_div_pow2 by lia. rewrite Z.pow_sub_r by lia. done. }
  rewrite land_pow2 by lia. by destruct (Z.testbit x (7 - b)).
Qed.

Lemma crc_byte_run n poly crc (x : Z) : (n <= 8)%nat -> crc_byte n poly crc (Some x) (8 - Z.of_nat n) = run poly crc (bits_of n x).
Proof.
  revert crc. induction n as [|n IH]; intros crc Hn; cbn [crc_byte bits_of run fold_left]; [done|].
  rewrite input_bit_spec by lia. replace (7 - (8 - Z.of_nat (S n))) with (Z.of_nat n) by lia.
  replace (8 - Z.of_nat (S n) + 1) with (8 - Z.of_nat n) by lia. by rewrite IH by lia.
Qed.

Lemma crc_pad_run n poly crc (b : Z) : crc_byte n poly crc None b = run poly crc (repeat 0 n).
Proof. revert crc b. induction n as [|n IH]; intros crc b; cbn [crc_byte repeat]; [done|]. by rewrite IH. Qed.

Lemma crc_bytes_run poly crc src (tl : list (option Z)) :
  crc_bytes poly crc ((Some <$> src) ++ tl) = crc_bytes poly (run poly crc (concat (bits_of 8 <$> src))) tl.
Proof.
  revert crc. induction src as [|x src IH]; intros crc; cbn [fmap list_fmap app crc_bytes concat]; [done|].
  pose proof (crc_byte_run 8 poly crc x ltac:(lia)) as E. change (8 - Z.of_nat 8) with 0 in E.
  fold (crc_byte 8 poly crc (Some x) 0). rewrite E, IH, run_app. done.
Qed.

Lemma two_bytes (c : Z) : word16 c -> bits_of 8 (Z.shiftr c 8) ++ bits_of 8 (Z.land c 0xff) = bits_of 16 c.
Proof.
  intros Hc. assert (forall k, (k <= 8)%nat -> bits_of k (Z.land c 0xff) = bits_of k c) as Hlo.
  { change 0xff with (Z.ones 8). induction k as [|k IH]; intros Hk; [done|]. cbn [bits_of]. rewrite IH by lia.
    rewrite Z.land_spec, Z.ones_spec_low, andb_true_r by lia. done. }
  assert (forall k, bits_of k (Z.shiftr c 8) ++ bits_of 8 c = bits_of (k + 8) c) as Hhi.
  { induction k as [|k IH]; [done|]. cbn [bits_of Nat.add app]. rewrite <- IH. rewrite Z.shiftr_spec by lia. do 3 f_equal. lia. }
  rewrite Hlo by lia. apply Hhi.
Qed.

(** The check over a message followed by the two bytes of its own check
    value, the high one first, is zero, for every polynomial and initial value:
    an unaltered message passes the test. *)
Theorem crc16_residue src poly (initial_value : Z) :
  word16 poly -> word16 initial_value ->
  let c := crc16 src poly initial_value true in
  crc16 (src ++ [Z.shiftr c 8; Z.land c 0xff]) poly initial_value false = 0.
Proof.
  intros Hp Hi. cbv zeta. unfold crc16. rewrite (crc_bytes_run _ _ src).
  set (s := run poly initial_value (concat (bits_of 8 <$> src))).
  assert (word16 s) as Hs.
  { apply run_word; [done|done|]. clear. induction src as [|x src IH]; [by apply Forall_nil|].
    cbn [fmap list_fmap concat]. apply Forall_app. split; [apply bits_of_bits|exact IH]. }
  set (c := crc_bytes poly s [None; None]). assert (c = run poly s (repeat 0 16)) as Ec.
  { unfold c. cbn [crc_bytes]. rewrite !crc_pad_run, <- run_app. done. }
  assert (word16 c) as Hc.
  { rewrite Ec. apply run_word; [done|done|]. apply Forall_forall. intros b Hb%list_elem_of_In%repeat_spec. unfold is_bit. lia. }
  rewrite crc_bytes_run, fmap_app, concat_app, run_app. fold s. cbn [crc_bytes fmap list_fmap concat]. rewrite app_nil_r.
  rewrite two_bytes, run_split by (done || apply bits_of_bits). rewrite length_bits_of, <- Ec.
  rewrite (run_low poly 16 c 0) by (done || lia). change (0 * 2 ^ Z.of_nat 16) with 0. change (2 ^ Z.of_nat 16) with (2 ^ 16).
  rewrite Z.mod_small by done. rewrite Z.add_0_l. apply Z.lxor_nilpotent.
Qed.

Lemma crc16_residue_witness : crc16 ([49; 50; 51] ++ [Z.shiftr (crc16 [49; 50; 51] 0x1021 0xffff true) 8;
  Z.land (crc16 [49; 50; 51] 0x1021 0xffff true) 0xff]) 0x1021 0xffff false = 0.
Proof. apply (crc16_residue [49; 50; 51] 0x1021 0xffff); unfold word16; lia. Defined.

End Crc.
